(* ===== verification/_CoqProject ===== *)
-Q . S2P
Prelude.v
Shmem.v
VirtQueue.v
VirtioCore.v
VosBackend.v
Edid.v
Pixman.v
Display.v
VirtioGpu.v
GpuInv.v
GpuCtrl.v
GpuSpec.v
Vga.v
VgaSpec.v
GpuBar.v
BlockIf.v
BlockSpec.v
Mevent.v
MeventSpec.v
Timer.v
IvshmemBlock.v
BlockOpen.v
Vhost.v
PciConfig.v
Startup.v
Server.v
DisplayOpt.v
Rtc.v
RtcSpec.v
RbTree.v
RbTreeSpec.v
Mmio.v
MmioSpec.v
Inout.v
InoutSpec.v
PciIrq.v
PciCore.v
PciCfg.v
PciCoreSpec.v
PciGuest.v
PciBar.v
PciAccess.v
PciMove.v
PciInit.v
PciDummy.v
