(* ===== verification/Prelude.v ===== *)
(** * A verification library for the virtio-gpu backend

    The program is a user-space backend of virtio devices for guests that
    share one memory mapping with it (virtio over shared memory).  A guest
    writes requests into descriptor chains; the backend finds the mapping's
    header, carries the guest's register writes out, serves the rings of the
    GPU device and hands surfaces to a display client over a socket.

    ** Files

    - [Prelude.v] (this file): executions that can stop, the state monad [M],
      record update, machine integers, byte encodings, checked list access.
    - [Shmem.v]: [struct shmem_info] (src/shmem.h, src/shmem_ivshm_ivshmem.c)
      and the address translation of src/dm_helpers.c.
    - [VirtQueue.v]: the rings of src/virtio.c and virtio.h ([vq_getchain],
      [vq_retchain], [vq_relchain], [vq_endchains]).
    - [VirtioCore.v]: [struct virtio_base] and the configuration half of
      src/virtio.c.  A device is an instance of the class [VirtioDev], the image
      of [struct virtio_ops]; [VirtioDevLaws] is what the core relies on.
    - [VosBackend.v]: src/virtio_over_shmem.c, for any [VirtioDev].
    - [Edid.v]: the [vdpy_edid_*] functions of vdisplay_server.c.
    - [Pixman.v]: images, their reference counts and one-rectangle regions, as
      far as the GPU calls pixman.  A heap of images is a map from numbers; an
      image that was freed has no entry.
    - [Display.v]: the rest of vdisplay_server.c: the virtual screens, the
      queue of bottom halves, the messages of the client protocol.
    - [VirtioGpu.v]: virtio_gpu.c, the resource table and the commands of the
      control and the cursor queue.  [virtio_gpu] is [struct virtio_gpu]; it
      contains the state of the core, of the display and the heap of images.
    - [GpuInv.v]: the counting invariant of the device and that every command
      keeps it, by the weakest preconditions of the state monad.
    - [GpuCtrl.v]: the callbacks of [virtio_gpu_ops] (an instance of
      [VirtioDev]), the bottom halves, set-up and tear-down of the GPU.
    - [GpuSpec.v]: what the commands on resources compute: creation and
      destruction, the transfer of a rectangle, the flush decision.
    - [Vga.v]: hw/vga.c and hw/gc.c, the VGA registers, ports, planar memory and
      renderers, and the Bochs registers; [VgaSpec.v] its type invariant and
      functional properties.
    - [GpuBar.v]: the BAR handlers of virtio_gpu.c over both parts, the thread of
      the VGA screen in steps of a test, a change of size or a pixel, and [gpu_dev],
      the whole device.

    - [BlockIf.v]: hw/block_if.c, the queues of requests, the eight threads and
      carrying out an operation; [BlockSpec.v] the invariant of the queues over
      every interleaving, discarding, geometry; [BlockOpen.v] the options, probing
      and opening, with the number parsing of lib/dm_string.c.
    - [Mevent.v]: core/mevent.c, the event loop and the calls of other threads
      as interleaved steps, one for each stretch of code between taking or giving back the mutex;
      [MeventSpec.v] its invariant.
    - [Timer.v]: core/timer.c.
    - [IvshmemBlock.v]: virtio-ivshmem-block.c, the stand-alone block backend.
    - [Vhost.v]: hw/pci/virtio/vhost.c, over a log of the calls that leave the
      program.
    - [PciConfig.v]: the configuration space of the GPU device and its capabilities.
    - [Startup.v]: how the program begins and ends: utils.c, the rest of
      virtio_over_shmem.c, opening and closing the shared memory.
    - [Server.v]: the two server threads of vdisplay_server.c around the messages of
      Display.v: sockets, the interest list, clients that come and go.  The class
      [Serving] is what the two have in common.
    - [DisplayOpt.v]: the option string of the virtual display.
    - [Rtc.v]: hw/platform/rtc.c, the clock, its registers and alarms; [RtcSpec.v] its
      calendar, the registers as a representation of the time, the interrupt line, the alarm.
    - [RbTree.v]: the red-black trees of include/tree.h, with the path to the root for the
      parent pointers; [RbTreeSpec.v] their order and balance.
    - [Mmio.v]: core/mem.c, the ranges of emulated memory in two such trees, and the hint
      of the last access; [MmioSpec.v] registration and dispatch.
    - [Inout.v]: core/inout.c, the table of the ports, and the clock behind its two ports as an
      instance of the class [PortDevice]; [InoutSpec.v] who holds a port.
    - [PciIrq.v]: hw/pci/irq.c and hw/platform/ioapic.c, the interrupts that PCI devices are
      given; [PciCore.v]: hw/pci/core.c, devices with their BARs, capabilities,
      messages and interrupt pins, and configuration accesses, over Mmio.v and Inout.v; what a
      kind of device does is the record [vdev_ops].  [PciCfg.v] configuration space as
      bytes and bits, [PciCoreSpec.v] the invariant of a device and its interrupt line, [PciGuest.v]
      the walks of the capability list and writes to capabilities, [PciBar.v] registration
      and addresses, [PciAccess.v] any accesses of a guest, [PciMove.v] sizing and
      moving, [PciInit.v] allocation, new capabilities and new devices, [PciDummy.v] the test device and a machine with it.

    ** Modelling

    C integers are [Z], with [u8] ... [u64], [s32] written where the code
    converts.  An access outside an object, a null pointer, a division by
    zero, a freed object and the like are the values of [stop]; a function that
    can do such a thing returns [outcome].  Pointers into the mapping are
    offsets, NULL is [None].  Logging has no image.  What the operating system
    answers (sockets, allocations, udmabuf) is a script in the state or an
    argument; where the order of the calls matters (vhost, closing descriptors) the
    calls are entered in a log.  Code of several threads is a step relation: each
    piece between two points where another thread can run is a step, and the
    theorems hold in every reachable state.  An access of the guest to a port, to emulated memory or
    to the configuration space is one step.  The handler of a range of emulated memory is an argument of Mmio.v;
    that of the PCI core, which can stop, is a definition of its own in PciCore.v, and the two meet
    in the range that names the handler ([PciMove.bar_moves]).

    ** What the theorems show

    The claims are numbered C1, C2, ... in doc comments, by importance.  Rings:
    the walk of a chain terminates on every guest memory and refines the
    relation of well-formed chains; publication and interrupt decisions.  Core:
    the invariant of the device under every configuration write, feature
    negotiation, reset, queue enabling, the register search.  Backend: the
    write transaction refines the register write, the request handler is safe.
    EDID: blocks are valid, the detailed timing can be read back.  Display:
    messages, the bottom-half queue, geometry.  GPU: no reachable state holds a
    pointer to a freed image or dma-buf, and none to a freed backing array while no request
    for memory was refused on the way (after a refused one [virtio_gpu.c] frees an array
    twice, [attach_frees_twice]); the tear-down leaks nothing but what a refused request
    left incomplete, reset, the device configuration;
    the transfer equals a reference layout byte by byte.  VGA: registers and
    tables keep their types, read back; the planes, through the windows in which they do not
    overlap, and the picture, of a size that fits into them, are what they should be.  BAR: the invariants of both parts hold together under every
    access and every interleaving with the steps of the VGA thread; a driver that follows the
    capabilities reaches the registers it means.  Block devices: no request is lost
    or carried out out of order, and the threads are never all asleep while one can
    run; an opened file has a valid geometry.  Event loop: no event is used after it is
    freed, provided that none is deleted while [mevent_enable] is at work on it, and no
    handler deletes one that the same [epoll_wait] reported ([MeventSpec.enable_delete_uaf]
    and [MeventSpec.run_after_delete] are what happens otherwise), and a deletion that is left to a
    waiting loop wakes it.  Whole program: it begins with
    every vector watched, and ends with every event freed and the descriptors of the
    events that are there at the end closed.
    Vhost: a start either succeeds or is undone, descriptors balance.  Servers: at most
    one client, nothing left open.  Options: parsing ends, and screens
    that were printed are read back.  Clock: the calendar agrees with its definition, and
    the registers hold the time that was set, in every format; no alarm is missed; the interrupt
    line follows its register.  Trees: they refine sorted lists and stay balanced.  Emulated memory and
    ports: ranges stay apart, and an access reaches the one that has it, through the
    cache or not; the memory of the clock can be read back through its ports.  PCI core: a
    device made of the core's steps has the capabilities and the registered BARs it asked for; no sequence of
    configuration accesses breaks a device, and the interrupt line follows what is asked and permitted, while
    the guest follows two rules ([PciAccess.polite]); sizing a BAR is undone exactly, a BAR of memory that is not being sized moves as
    a whole.

    ** Bounds

    [walk_fuel] is one more than VQ_MAX_DESCRIPTORS, the program's own limit on
    a chain: [getchain_terminates] shows that it suffices.  The register search
    uses 33 rounds or fewer; [find_modern_cr_spec] shows that it ends.  The
    inner loop of the display thread ends with one round more than there are
    requests ([drain_runs_in_order]).  The loops of the GPU's bottom halves
    serve a queue the guest keeps filling, so their fuel is universally
    quantified; the loops of reset and tear-down get one round more than the
    table has entries and provably end.  The loop of the VGA thread has no
    bound: each of its rounds is a step of the transition system.  Reading the
    event loop's pipe takes one round for each 64 bytes and one more
    ([mevent_pipe_read]); the loops over option strings one for each character and
    one more ([blockif_open_valid], [DisplayOpt.screens_counted]); those over years, months and
    seconds of the clock as many as there are of these ([calendar_roundtrip], [alarm_rings]).  The loops of the trees
    follow the tree or the path and need no fuel.  The walks of a capability list get one
    round more than there are offsets: out of it they have come to one twice
    ([guest_keeps_devices] shows that they end).

    ** Not modelled

    The operating system behind its calls: sockets, files, [epoll], [ioctl] and
    [mmap] are scripts, answers or an interest list.  The joins at the end of
    [blockif_close].  [parse_shmem_args], usage texts and dumps of utils.c, which
    are not called.  The rendering client (C++).  The compositing half of pixman
    and its regions of several rectangles, a vendored library of which the device
    uses images and single rectangles.  The other device models, which
    are carried over from the hypervisor and are not part of the backend; of these the clock, vhost, the PCI core and the
    dispatch of memory and ports are modelled.  Of the PCI core: the options that name slots, the
    loops of [init_pci] and [deinit_pci] over the slots, sorting reserved regions, and the ACPI text. *)

From stdpp Require Export base gmap list strings.
From Stdlib Require Export ZArith Lia.

#[global] Open Scope Z_scope.

(** * Why a C execution can stop

    A step of the modelled C code either returns a value or stops.  The
    reasons are kept apart so that a theorem can say which one is excluded. *)
Inductive stop :=
  | OobAccess      (* access outside the object a pointer points into *)
  | NullDeref      (* access through a null pointer *)
  | DivByZero      (* integer division by zero *)
  | BadShift       (* shift by a negative or too large amount *)
  | Uninit         (* use of an indeterminate value *)
  | UseAfterFree   (* access to a freed object *)
  | TypeConfusion  (* object accessed through a pointer to another type *)
  | ProcessExit    (* error(1, ...): the process terminates *)
  | OutOfFuel.     (* the fuel of a model's loop ran out *)

#[export] Instance stop_eq_dec : EqDecision stop.
Proof. solve_decision. Defined.

Inductive outcome (A : Type) :=
  | Ret (a : A)
  | Stop (s : stop).
Arguments Ret {A} a.
Arguments Stop {A} s.

#[export] Instance outcome_ret : MRet outcome := @Ret.
#[export] Instance outcome_bind : MBind outcome := fun A B f m =>
  match m with Ret a => f a | Stop s => Stop s end.

(** [m] returns, i.e. reaches its end without stopping. *)
Definition returns {A} (m : outcome A) : Prop := exists a, m = Ret a.

Definition assert_or (s : stop) (b : bool) : outcome unit :=
  if b then Ret tt else Stop s.

(** State-passing C code: a state, and a possible stop. *)
Definition M (S A : Type) : Type := S -> outcome (A * S).

#[export] Instance M_ret (S : Type) : MRet (M S) := fun A a s => Ret (a, s).
#[export] Instance M_bind (S : Type) : MBind (M S) := fun A B f m s =>
  match m s with Ret (a, s') => f a s' | Stop e => Stop e end.

Definition get {S} : M S S := fun s => Ret (s, s).
Definition put {S} (s' : S) : M S unit := fun _ => Ret (tt, s').
Definition modify {S} (f : S -> S) : M S unit := fun s => Ret (tt, f s).
Definition halt {S A} (e : stop) : M S A := fun _ => Stop e.
Definition lift {S A} (m : outcome A) : M S A := fun s =>
  match m with Ret a => Ret (a, s) | Stop e => Stop e end.
Definition when {S} (b : bool) (m : M S unit) : M S unit :=
  if b then m else mret tt.

(** [m] started in [s] returns, with a result and a state that satisfy [Q]. *)
Definition runs {S A} (m : M S A) (s : S) (Q : A -> S -> Prop) : Prop :=
  match m s with Ret (a, s') => Q a s' | Stop _ => False end.

Lemma runs_ret {S A} (a : A) (s : S) Q : Q a s -> runs (mret a) s Q.
Proof. done. Qed.

Lemma runs_bind {S A B} (m : M S A) (f : A -> M S B) s Q :
  runs m s (fun a s' => runs (f a) s' Q) -> runs (mbind f m) s Q.
Proof. unfold runs, mbind, M_bind. by destruct (m s) as [[a s']|]. Qed.

Lemma runs_weaken {S A} (m : M S A) s (P Q : A -> S -> Prop) :
  runs m s P -> (forall a s', P a s' -> Q a s') -> runs m s Q.
Proof. unfold runs. destruct (m s) as [[a s']|]; auto. Qed.

Lemma runs_get {S} (s : S) Q : Q s s -> runs get s Q.
Proof. done. Qed.

Lemma runs_modify {S} (f : S -> S) s Q : Q tt (f s) -> runs (modify f) s Q.
Proof. done. Qed.

Lemma runs_lift {S A} (o : outcome A) (a : A) (s : S) Q : o = Ret a -> Q a s -> runs (lift o) s Q.
Proof. by intros ->. Qed.

Lemma runs_returns {S A} (m : M S A) s Q : runs m s Q -> exists a s', m s = Ret (a, s') /\ Q a s'.
Proof. unfold runs. destruct (m s) as [[a s']|]; [by exists a, s'|done]. Qed.

(** * Record update

    [Settable R] gives the eta-expansion of a record [R]; from it the setter
    of any of its fields is computed. *)
Class Settable (R : Type) := eta_of : R -> R.
Class FieldUpd {R T : Type} (proj : R -> T) := field_upd : (T -> T) -> R -> R.
Arguments field_upd {R T} proj {_} f r.

Ltac build_field_upd :=
  lazymatch goal with
  | |- @FieldUpd ?R ?T ?proj =>
    let f := fresh "f" in let r := fresh "r" in
    intros f r;
    let i := constr:(_ : Settable R) in
    let e := eval red in (i r) in
    lazymatch e with
    | context C [proj r] => let e' := context C [f (proj r)] in exact e'
    end
  end.
#[export] Hint Extern 1 (FieldUpd _) => build_field_upd : typeclass_instances.

Declare Scope c_scope.
Delimit Scope c_scope with c.
#[global] Open Scope c_scope.
Notation "r <| f := v |>" := (field_upd f (fun _ => v) r)
  (at level 11, left associativity, f at level 0, format "r  <| f  :=  v |>") : c_scope.
Notation "r <| f ::= g |>" := (field_upd f g r)
  (at level 11, left associativity, f at level 0, format "r  <| f  ::=  g |>") : c_scope.

(** * switch *)

(** A C [switch] whose cases all end in [break]: the first case one of whose
    labels equals [x], or the default. *)
Fixpoint switch {A} (x : Z) (cases : list (list Z * A)) (dflt : A) : A :=
  match cases with
  | [] => dflt
  | (ks, a) :: rest => if existsb (Z.eqb x) ks then a else switch x rest dflt
  end.

#[global] Arguments Z.testbit : simpl never.
#[global] Arguments Z.land : simpl never.
#[global] Arguments Z.lor : simpl never.
#[global] Arguments Z.lxor : simpl never.
#[global] Arguments Z.lnot : simpl never.
#[global] Arguments Z.shiftl : simpl never.
#[global] Arguments Z.shiftr : simpl never.
#[global] Arguments Z.pow : simpl never.
#[global] Arguments Z.modulo : simpl never.
#[global] Arguments Z.div : simpl never.
#[global] Arguments Z.add : simpl never.
#[global] Arguments Z.sub : simpl never.
#[global] Arguments Z.mul : simpl never.
#[global] Arguments Z.eqb : simpl never.
#[global] Arguments Z.leb : simpl never.
#[global] Arguments Z.ltb : simpl never.
#[global] Arguments Z.of_nat : simpl never.

(** * Machine integers

    A [w]-bit unsigned integer is a [Z] in [0, 2^w); storing into it wraps. *)
Definition wrap (w x : Z) : Z := x mod 2 ^ w.
Definition u8 (x : Z) : Z := wrap 8 x.
Definition u16 (x : Z) : Z := wrap 16 x.
Definition u32 (x : Z) : Z := wrap 32 x.
Definition u64 (x : Z) : Z := wrap 64 x.

(** Conversion to a [w]-bit two's complement integer. *)
Definition swrap (w x : Z) : Z := wrap w (x + 2 ^ (w - 1)) - 2 ^ (w - 1).
Definition s32 (x : Z) : Z := swrap 32 x.
Definition s64 (x : Z) : Z := swrap 64 x.

(** [x] is a [w]-bit unsigned value. *)
Definition fits (w x : Z) : Prop := 0 <= x < 2 ^ w.
Definition fitsb (w x : Z) : bool := (0 <=? x) && (x <? 2 ^ w).

(** C truth values and bit tests. *)
Definition b2z (b : bool) : Z := if b then 1 else 0.
Definition z2b (x : Z) : bool := negb (x =? 0).
Definition has (x mask : Z) : bool := z2b (Z.land x mask).

(** [x & ~mask] on a [w]-bit value. *)
Definition clear_bits (w x mask : Z) : Z := Z.land x (wrap w (Z.lnot mask)).

(** * Bytes, little endian *)
Fixpoint le_decode (bs : list Z) : Z :=
  match bs with
  | [] => 0
  | b :: bs' => b + 256 * le_decode bs'
  end.

Fixpoint le_encode (n : nat) (x : Z) : list Z :=
  match n with
  | O => []
  | S n' => x mod 256 :: le_encode n' (x / 256)
  end.

Definition bytes_ok (bs : list Z) : Prop := Forall (fits 8) bs.

(** [memcpy] of [src] over [dst] at index [off], inside the destination. *)
Definition splice (dst : list Z) (off : nat) (src : list Z) : list Z :=
  take off dst ++ src ++ drop (off + length src) dst.

(** Indices of a C array used with a [Z] index. *)
Definition nthZ {A} (l : list A) (i : Z) : option A :=
  if 0 <=? i then l !! Z.to_nat i else None.
Definition setZ {A} (l : list A) (i : Z) (x : A) : list A :=
  if 0 <=? i then <[Z.to_nat i := x]> l else l.

Lemma switch_ind {A} (P : A -> Prop) x cases dflt :
  Forall (fun c => P c.2) cases -> P dflt -> P (switch x cases dflt).
Proof.
  intros Hc Hd. induction Hc as [|[ks a] rest Ha _ IH]; simpl; [done|].
  by destruct (existsb _ _).
Qed.

Lemma switch_map {A B} (f : A -> B) x cases dflt :
  f (switch x cases dflt) =
  switch x (map (fun c => (c.1, f c.2)) cases) (f dflt).
Proof.
  induction cases as [|[ks a] rest IH]; simpl; [done|].
  by destruct (existsb _ _).
Qed.

(** No label matches: the default is taken. *)
Lemma switch_default {A} x (cases : list (list Z * A)) dflt :
  existsb (Z.eqb x) (concat (map fst cases)) = false ->
  switch x cases dflt = dflt.
Proof.
  induction cases as [|[ks a] rest IH]; simpl; [done|].
  rewrite existsb_app, orb_false_iff. intros [-> ?]. auto.
Qed.

(** * Machine integer lemmas *)

Lemma pow2_pos w : 0 <= w -> 0 < 2 ^ w.
Proof. intros. by apply Z.pow_pos_nonneg. Qed.

Lemma wrap_fits w x : 0 <= w -> fits w (wrap w x).
Proof. intros. apply Z.mod_pos_bound. by apply pow2_pos. Qed.

Lemma wrap_small w x : fits w x -> wrap w x = x.
Proof. intros H. apply Z.mod_small, H. Qed.

Lemma s32_small x : - 2 ^ 31 <= x < 2 ^ 31 -> s32 x = x.
Proof.
  intros H. unfold s32, swrap. change (2 ^ (32 - 1)) with (2 ^ 31).
  rewrite wrap_small; [lia|]. unfold fits. change (2 ^ 32) with (2 ^ 31 + 2 ^ 31). lia.
Qed.

Lemma wrap_wrap w x : 0 <= w -> wrap w (wrap w x) = wrap w x.
Proof. intros. apply wrap_small. by apply wrap_fits. Qed.

Lemma wrap_add_l w x y : wrap w (wrap w x + y) = wrap w (x + y).
Proof. apply Zplus_mod_idemp_l. Qed.

Lemma wrap_sub_l w x y : wrap w (wrap w x - y) = wrap w (x - y).
Proof. apply Zminus_mod_idemp_l. Qed.

Lemma wrap_land w x : 0 <= w -> wrap w x = Z.land x (Z.ones w).
Proof. intros. unfold wrap. by rewrite Z.land_ones. Qed.

Lemma fitsb_spec w x : fitsb w x = true <-> fits w x.
Proof. unfold fitsb, fits. rewrite andb_true_iff. lia. Qed.

Lemma testbit_fits w x i : fits w x -> w <= i -> Z.testbit x i = false.
Proof.
  intros [Hx Hlt] Hi. destruct (Z.eq_dec x 0) as [->|]; [by rewrite Z.bits_0|].
  apply Z.bits_above_log2; [done|].
  apply Z.lt_le_trans with w; [|done]. apply Z.log2_lt_pow2; lia.
Qed.

Lemma fits_testbit w x :
  0 <= w -> 0 <= x -> (forall i, w <= i -> Z.testbit x i = false) -> fits w x.
Proof.
  intros Hw Hx H. split; [done|].
  assert (x = wrap w x) as ->; [|apply wrap_fits; lia].
  apply Z.bits_inj'. intros i Hi. rewrite wrap_land, Z.land_spec by done.
  destruct (Z.lt_ge_cases i w).
  - rewrite Z.ones_spec_low by lia. by rewrite andb_true_r.
  - rewrite H by done. by rewrite andb_false_l.
Qed.

Lemma fits_land_l w x y : 0 <= w -> 0 <= x -> fits w y -> fits w (Z.land x y).
Proof.
  intros Hw Hx Hy. apply fits_testbit; [done|apply Z.land_nonneg; auto|].
  intros i Hi. rewrite Z.land_spec, (testbit_fits w y) by done.
  by rewrite andb_false_r.
Qed.

Lemma fits_land_r w x y : 0 <= w -> fits w x -> fits w (Z.land x y).
Proof.
  intros Hw Hx. apply fits_testbit; [done|apply Z.land_nonneg; left; apply Hx|].
  intros i Hi. by rewrite Z.land_spec, (testbit_fits w x).
Qed.

Lemma fits_lor w x y : 0 <= w -> fits w x -> fits w y -> fits w (Z.lor x y).
Proof.
  intros Hw Hx Hy. apply fits_testbit; [done|apply Z.lor_nonneg; split; [apply Hx|apply Hy]|].
  intros i Hi. by rewrite Z.lor_spec, (testbit_fits w x), (testbit_fits w y).
Qed.

Lemma fits_lxor w x y : 0 <= w -> fits w x -> fits w y -> fits w (Z.lxor x y).
Proof.
  intros Hw Hx Hy. apply fits_testbit; [done| |].
  - apply Z.lxor_nonneg. destruct Hx, Hy. tauto.
  - intros i Hi. by rewrite Z.lxor_spec, (testbit_fits w x), (testbit_fits w y).
Qed.

Lemma fits_mono w w' x : 0 <= w <= w' -> fits w x -> fits w' x.
Proof.
  intros Hw [? ?]. split; [done|]. apply Z.lt_le_trans with (2 ^ w); [done|].
  apply Z.pow_le_mono_r; lia.
Qed.

Lemma fits_shiftr w x n : 0 <= n -> fits w x -> fits w (Z.shiftr x n).
Proof.
  intros Hn [Hx Hlt]. split; [by apply Z.shiftr_nonneg|].
  rewrite Z.shiftr_div_pow2 by done.
  apply Z.le_lt_trans with x; [|done]. apply Z.div_le_upper_bound; [by apply pow2_pos|].
  pose proof (pow2_pos n Hn). nia.
Qed.

Lemma clear_bits_fits w x m : 0 <= w -> fits w x -> fits w (clear_bits w x m).
Proof. intros. by apply fits_land_r. Qed.

(** * Bytes *)

Lemma length_le_encode n x : length (le_encode n x) = n.
Proof. revert x. induction n; intros; simpl; auto. Qed.

Lemma le_encode_bytes_ok n x : bytes_ok (le_encode n x).
Proof.
  revert x. induction n; intros; constructor; [|apply IHn].
  apply Z.mod_pos_bound. lia.
Qed.

Lemma le_decode_bound bs :
  bytes_ok bs -> 0 <= le_decode bs < 2 ^ (8 * Z.of_nat (length bs)).
Proof.
  induction 1 as [|b bs Hb _ IH]; simpl; [lia|].
  unfold fits in Hb. change (2 ^ 8) with 256 in Hb.
  replace (8 * Z.of_nat (S (length bs))) with (8 + 8 * Z.of_nat (length bs)) by lia.
  rewrite Z.pow_add_r by lia. change (2 ^ 8) with 256. lia.
Qed.

(** Reading back what was written gives the value modulo its width. *)
Lemma le_decode_encode n x : le_decode (le_encode n x) = wrap (8 * Z.of_nat n) x.
Proof.
  revert x. induction n as [|n IH]; intros x; simpl.
  - unfold wrap. change (2 ^ 0) with 1. by rewrite Z.mod_1_r.
  - rewrite IH. unfold wrap.
    replace (8 * Z.of_nat (S n)) with (8 + 8 * Z.of_nat n) by lia.
    rewrite Z.pow_add_r by lia. change (2 ^ 8) with 256.
    pose proof (pow2_pos (8 * Z.of_nat n) ltac:(lia)).
    rewrite Z.rem_mul_r by lia. done.
Qed.

Lemma le_encode_decode bs : bytes_ok bs -> le_encode (length bs) (le_decode bs) = bs.
Proof.
  induction 1 as [|b bs Hb Hbs IH]; simpl; [done|].
  unfold fits in Hb. change (2 ^ 8) with 256 in Hb.
  pose proof (le_decode_bound bs Hbs).
  f_equal.
  - Z.div_mod_to_equations. lia.
  - replace ((b + 256 * le_decode bs) / 256) with (le_decode bs); [done|].
    Z.div_mod_to_equations. lia.
Qed.

Lemma length_splice dst off src :
  (off + length src <= length dst)%nat -> length (splice dst off src) = length dst.
Proof.
  intros. unfold splice. rewrite !length_app, length_take, length_drop. lia.
Qed.

(** * Indexed access *)

Lemma nthZ_lookup {A} (l : list A) i : 0 <= i -> nthZ l i = l !! Z.to_nat i.
Proof. intros. unfold nthZ. by destruct (Z.leb_spec 0 i); [|lia]. Qed.

Lemma nthZ_setZ_ne {A} (l : list A) i j x : i <> j -> nthZ (setZ l i x) j = nthZ l j.
Proof.
  intros Hij. unfold nthZ, setZ. destruct (Z.leb_spec 0 j), (Z.leb_spec 0 i); try done.
  rewrite list_lookup_insert_ne; [done|lia].
Qed.

Lemma nthZ_setZ_eq {A} (l : list A) i x y : nthZ l i = Some x -> nthZ (setZ l i y) i = Some y.
Proof.
  unfold nthZ, setZ. destruct (0 <=? i); [|done]. intros H. apply list_lookup_insert_eq.
  by apply lookup_lt_Some in H.
Qed.

Lemma setZ_id {A} (l : list A) i x : nthZ l i = Some x -> setZ l i x = l.
Proof. unfold nthZ, setZ. destruct (0 <=? i); [|done]. apply list_insert_id. Qed.

Lemma setZ_setZ {A} (l : list A) i x y : setZ (setZ l i x) i y = setZ l i y.
Proof. unfold setZ. destruct (0 <=? i); [|done]. apply list_insert_insert_eq. Qed.

Lemma length_setZ {A} (l : list A) i x : length (setZ l i x) = length l.
Proof. unfold setZ. case_match; [apply length_insert|done]. Qed.

Lemma setZ_forall {A} (P : A -> Prop) l i x : Forall P l -> P x -> Forall P (setZ l i x).
Proof. intros. unfold setZ. destruct (0 <=? i); [by apply Forall_insert|done]. Qed.

(** * Linked lists *)

(** A queue of objects is the list of their numbers; [LIST_REMOVE] and
    [TAILQ_REMOVE] take out one. *)
Definition unlink (i : nat) (l : list nat) : list nat := filter (fun j => j <> i) l.
#[global] Arguments unlink : simpl never.

Lemma elem_unlink i k l : k ∈ unlink i l <-> k <> i /\ k ∈ l.
Proof. unfold unlink. by rewrite list_elem_of_filter. Qed.

Lemma unlink_app i l1 l2 : unlink i (l1 ++ l2) = unlink i l1 ++ unlink i l2.
Proof. apply filter_app. Qed.

Lemma unlink_notin i l : i ∉ l -> unlink i l = l.
Proof.
  induction l as [|k l IH]; intros H; [done|]. unfold unlink. rewrite filter_cons_True.
  - f_equal. apply IH. set_solver.
  - set_solver.
Qed.

Lemma unlink_perm i l : NoDup l -> i ∈ l -> l ≡ₚ i :: unlink i l.
Proof.
  intros Hn Hi. apply list_elem_of_split in Hi as (l1 & l2 & ->).
  apply NoDup_app in Hn as (_ & H12 & [Hi2 _]%NoDup_cons).
  rewrite unlink_app. unfold unlink at 2. rewrite filter_cons_False by (intros H; by apply H).
  fold (unlink i l2). rewrite !unlink_notin; [|done|]; [by rewrite Permutation_middle|].
  intros Hi1. apply (H12 i Hi1). by left.
Qed.

(** * Hints and tactics *)

Create HintDb fits.
#[export] Hint Resolve wrap_fits fits_land_l fits_land_r fits_lor fits_lxor
  fits_shiftr clear_bits_fits : fits.
#[export] Hint Extern 1 (0 <= _) => lia : fits.
#[export] Hint Extern 1 (_ <= _) => lia : fits.
#[export] Hint Extern 4 (fits _ _) => (vm_compute; split; congruence) : fits.

(** Arithmetic with the wrap-arounds unfolded. *)
Ltac wrap_lia :=
  unfold fits, u8, u16, u32, u64, s32, s64, swrap, wrap in *;
  repeat match goal with
  | H : context [2 ^ ?w] |- _ =>
    let v := eval vm_compute in (2 ^ w) in progress change (2 ^ w) with v in H
  | |- context [2 ^ ?w] =>
    let v := eval vm_compute in (2 ^ w) in progress change (2 ^ w) with v
  end;
  Z.div_mod_to_equations; lia.

(** Split a [M]/[outcome] computation that returned into its steps. *)
Ltac inv_ret :=
  repeat match goal with
  | H : Ret _ = Ret _ |- _ => injection H as H
  | H : Stop _ = Ret _ |- _ => discriminate H
  | H : Stop _ = Stop _ |- _ => injection H as H
  | H : Ret _ = Stop _ |- _ => discriminate H
  | H : (_, _) = (_, _) |- _ => injection H as H
  | H : Some _ = Some _ |- _ => injection H as H
  | H : None = Some _ |- _ => discriminate H
  | H : Some _ = None |- _ => discriminate H
  end; subst.

(** Case split on the innermost scrutinee of a [match] of the goal. *)
Ltac split_match :=
  match goal with
  | |- context [match ?x with _ => _ end] =>
    lazymatch x with
    | context [match _ with _ => _ end] => fail
    | _ => destruct x eqn:?
    end
  end.

Ltac split_match_in H :=
  match type of H with
  | context [match ?x with _ => _ end] =>
    lazymatch x with
    | context [match _ with _ => _ end] => fail
    | _ => destruct x eqn:?
    end
  end.

(** Two results of the same call are equal. *)
Ltac det_ret :=
  repeat match goal with
  | H : ?x = Ret _, H' : ?x = Ret _ |- _ => rewrite H in H'; injection H' as H'; subst
  end.
