(* ===== verification/Shmem.v ===== *)
(** * The shared-memory transport

    [src/shmem.h], [src/shmem_ivshm_ivshmem.c] and the parts of
    [src/dm_helpers.c] that touch the mapping: the descriptor of the mapping,
    guest-address translation, byte access to the mapping, and the doorbell.
    A host pointer into the mapping is its offset from [mem_base]; NULL is
    [None].  The mapping is the only memory the guest shares with the device. *)
From S2P Require Import Prelude.

(** [struct shmem_info].  [mem] is the content of the mapping (an absent
    offset holds 0); [doorbell] lists the values written to the doorbell
    register of [mmio_base], the latest first. *)
Record shmem_info := mkShmem {
  mem_fd : Z;
  mem_size : Z;
  this_id : Z;
  peer_id : Z;
  nr_vecs : Z;
  mem : gmap Z Z;
  doorbell : list Z
}.
#[export] Instance shmem_info_eta : Settable shmem_info := fun s =>
  mkShmem (mem_fd s) (mem_size s) (this_id s) (peer_id s) (nr_vecs s)
    (mem s) (doorbell s).

(** ** Byte access *)

Definition byte_at (m : gmap Z Z) (a : Z) : Z := default 0 (m !! a).

Fixpoint mem_write (m : gmap Z Z) (a : Z) (bs : list Z) : gmap Z Z :=
  match bs with
  | [] => m
  | b :: bs' => <[a := b]> (mem_write m (a + 1) bs')
  end.

(** [p, p + n) lies inside the mapping. *)
Definition in_bounds (s : shmem_info) (p n : Z) : bool :=
  (0 <=? p) && (p + n <=? mem_size s).

Definition ld_bytes (s : shmem_info) (p : Z) (n : nat) : outcome (list Z) :=
  if in_bounds s p (Z.of_nat n)
  then Ret (map (byte_at (mem s)) (seqZ p (Z.of_nat n)))
  else Stop OobAccess.

Definition st_bytes (s : shmem_info) (p : Z) (bs : list Z) : outcome shmem_info :=
  if in_bounds s p (Z.of_nat (length bs))
  then Ret (s <| mem ::= fun m => mem_write m p bs |>)
  else Stop OobAccess.

(** Little-endian scalars, as a load or store of [uintN_t] at [p]. *)
Definition ld_le (s : shmem_info) (p : Z) (n : nat) : outcome Z :=
  bs ← ld_bytes s p n; Ret (le_decode bs).
Definition st_le (s : shmem_info) (p : Z) (n : nat) (v : Z) : outcome shmem_info :=
  st_bytes s p (le_encode n v).

(** ** dm_helpers.c *)

Definition vm_allow_dmabuf (s : shmem_info) : bool := 0 <? mem_fd s.

(** The [len] argument is unused by the code. *)
Definition paddr_guest2host (s : shmem_info) (gaddr len : Z) : option Z :=
  if gaddr <? mem_size s then Some gaddr else None.

(** [struct vm_mem_region] *)
Record vm_mem_region := mkRegion { rg_fd : Z; rg_fd_offset : Z }.

Definition vm_find_memfd_region (s : shmem_info) (gpa : Z) : option vm_mem_region :=
  if mem_fd s =? 0 then None
  else if mem_size s <=? gpa then None
  else Some (mkRegion (mem_fd s) gpa).

(** ** shmem_ivshm_ivshmem.c *)

(** [mmio_write32(&regs->doorbell, (info->peer_id << 16) | vector)] *)
Definition notify_peer (s : shmem_info) (vector : Z) : shmem_info :=
  s <| doorbell ::= cons (u32 (Z.lor (Z.shiftl (peer_id s) 16) vector)) |>.

Definition shmem_close (s : shmem_info) (mapped : bool) : shmem_info * bool :=
  if mapped then (s <| mem_size := 0 |>, false) else (s, false).

(** ** The header at the start of the mapping: [struct virtio_shmem_header] *)
Definition HDR_revision := 0.
Definition HDR_size := 4.
Definition HDR_device_id := 8.
Definition HDR_vendor_id := 12.
Definition HDR_write_transaction := 16.
Definition HDR_write_offset := 16.
Definition HDR_write_size := 18.
Definition HDR_config_event := 20.
Definition HDR_queue_event := 21.
Definition HDR_frontend_flags := 24.
Definition HDR_frontend_id := 26.
Definition HDR_backend_status := 28.
Definition HDR_common_config := 32.
Definition HDR_config := 88.

(** [virtio_header] points to [mem_base], offset 0. *)
Definition pci_generate_msix_config (s : shmem_info) (index : Z) : outcome shmem_info :=
  s1 ← st_le s HDR_config_event 1 1;
  s2 ← st_le s1 HDR_config 1 1;
  Ret (notify_peer s2 index).

Definition pci_generate_msix (s : shmem_info) (index : Z) : outcome shmem_info :=
  s1 ← st_le s HDR_queue_event 1 1;
  Ret (notify_peer s1 index).

(** Every stored value is a byte. *)
Definition mem_ok (s : shmem_info) : Prop := map_Forall (fun _ b => fits 8 b) (mem s).

Definition mem_okb (s : shmem_info) : bool :=
  forallb (fun p => fitsb 8 p.2) (map_to_list (mem s)).

(** Nothing but the content of [p, p + n) differs. *)
Definition same_outside (s s' : shmem_info) (p n : Z) : Prop :=
  mem_size s' = mem_size s /\
  forall a, a < p \/ p + n <= a -> byte_at (mem s') a = byte_at (mem s) a.

(** ** Lemmas *)

Lemma in_bounds_spec s p n :
  in_bounds s p n = true <-> 0 <= p /\ p + n <= mem_size s.
Proof. unfold in_bounds. rewrite andb_true_iff. lia. Qed.

Lemma mem_okb_ok s : mem_okb s = true -> mem_ok s.
Proof.
  unfold mem_okb, mem_ok. intros H a b Hab. rewrite forallb_forall in H.
  apply (fitsb_spec 8), (H (a, b)), list_elem_of_In. by apply elem_of_map_to_list.
Qed.

Lemma byte_at_insert m a b x :
  byte_at (<[a := b]> m) x = if decide (a = x) then b else byte_at m x.
Proof. unfold byte_at. rewrite lookup_insert. by case_decide. Qed.

Lemma byte_at_write_ne m p bs a :
  a < p \/ p + Z.of_nat (length bs) <= a ->
  byte_at (mem_write m p bs) a = byte_at m a.
Proof.
  revert p. induction bs as [|b bs IH]; intros p Ha; simpl in *; [done|].
  rewrite byte_at_insert. case_decide; [lia|]. apply IH. lia.
Qed.

Lemma byte_at_write_eq m p bs i b :
  bs !! i = Some b -> byte_at (mem_write m p bs) (p + Z.of_nat i) = b.
Proof.
  revert p i. induction bs as [|b' bs IH]; intros p i Hi; simpl; [done|].
  rewrite byte_at_insert. destruct i as [|i]; simpl in Hi.
  - case_decide; [congruence|lia].
  - case_decide; [lia|]. rewrite <- (IH (p + 1) i) by done. f_equal. lia.
Qed.

Lemma ld_bytes_ret s p n bs :
  ld_bytes s p n = Ret bs ->
  0 <= p /\ p + Z.of_nat n <= mem_size s /\ length bs = n.
Proof.
  unfold ld_bytes. destruct (in_bounds _ _ _) eqn:E; [|done].
  intros. inv_ret. apply in_bounds_spec in E. rewrite length_map, length_seqZ. lia.
Qed.

Lemma ld_bytes_returns s p n :
  0 <= p -> p + Z.of_nat n <= mem_size s -> returns (ld_bytes s p n).
Proof.
  intros. unfold ld_bytes, returns.
  replace (in_bounds s p (Z.of_nat n)) with true; [eauto|].
  symmetry. by apply in_bounds_spec.
Qed.

Lemma ld_bytes_bytes_ok s p n bs : mem_ok s -> ld_bytes s p n = Ret bs -> bytes_ok bs.
Proof.
  unfold ld_bytes. destruct (in_bounds _ _ _); [|done]. intros Hm ?. inv_ret.
  apply Forall_map, Forall_true. intros a. unfold byte_at.
  destruct (mem s !! a) eqn:E; simpl; [by apply (Hm a)|by vm_compute].
Qed.

(** A scalar of [n] bytes is below [256^n]. *)
Lemma ld_le_fits s p n v : mem_ok s -> ld_le s p n = Ret v -> fits (8 * Z.of_nat n) v.
Proof.
  unfold ld_le. intros Hm H. destruct (ld_bytes s p n) as [bs|] eqn:E; simpl in H; [|done].
  inv_ret. pose proof (le_decode_bound bs (ld_bytes_bytes_ok _ _ _ _ Hm E)).
  apply ld_bytes_ret in E as (_ & _ & <-). done.
Qed.

(** Loads only depend on the content of the range they read. *)
Lemma ld_bytes_ext s s' p n :
  mem_size s' = mem_size s ->
  (forall a, p <= a < p + Z.of_nat n -> byte_at (mem s') a = byte_at (mem s) a) ->
  ld_bytes s' p n = ld_bytes s p n.
Proof.
  intros Hsz Hb. unfold ld_bytes, in_bounds. rewrite Hsz.
  destruct (_ && _); [|done]. f_equal. apply map_ext_in. intros a Ha.
  apply Hb. apply list_elem_of_In, elem_of_seqZ in Ha. lia.
Qed.

Lemma st_bytes_ret s p bs s' :
  st_bytes s p bs = Ret s' ->
  0 <= p /\ p + Z.of_nat (length bs) <= mem_size s /\
  s' = s <| mem ::= fun m => mem_write m p bs |>.
Proof.
  unfold st_bytes. destruct (in_bounds _ _ _) eqn:E; [|done].
  intros. inv_ret. apply in_bounds_spec in E. tauto.
Qed.

Lemma st_bytes_returns s p bs :
  0 <= p -> p + Z.of_nat (length bs) <= mem_size s -> returns (st_bytes s p bs).
Proof.
  intros. unfold st_bytes, returns.
  replace (in_bounds s p _) with true; [eauto|]. symmetry. by apply in_bounds_spec.
Qed.

Lemma st_bytes_same_outside s p bs s' :
  st_bytes s p bs = Ret s' -> same_outside s s' p (Z.of_nat (length bs)).
Proof.
  intros (? & ? & ->)%st_bytes_ret. split; [done|]. intros a Ha.
  by apply byte_at_write_ne.
Qed.

Lemma ld_st_same s p bs s' :
  st_bytes s p bs = Ret s' -> ld_bytes s' p (length bs) = Ret bs.
Proof.
  intros (? & ? & ->)%st_bytes_ret. unfold ld_bytes.
  replace (in_bounds _ p _) with true by (symmetry; by apply in_bounds_spec).
  f_equal. apply list_eq. intros i. rewrite list_lookup_fmap.
  destruct (bs !! i) as [b|] eqn:E.
  - pose proof (lookup_lt_Some _ _ _ E).
    rewrite lookup_seqZ_lt by lia. simpl. f_equal. by apply byte_at_write_eq.
  - apply lookup_ge_None in E. rewrite lookup_seqZ_ge by lia. done.
Qed.

Lemma ld_st_disjoint s p bs s' q n :
  st_bytes s p bs = Ret s' ->
  q + Z.of_nat n <= p \/ p + Z.of_nat (length bs) <= q ->
  ld_bytes s' q n = ld_bytes s q n.
Proof.
  intros [Hsz Hb]%st_bytes_same_outside Hd. apply ld_bytes_ext; [done|].
  intros. apply Hb. lia.
Qed.

Lemma ld_st_le_same s p n v s' :
  st_le s p n v = Ret s' -> ld_le s' p n = Ret (wrap (8 * Z.of_nat n) v).
Proof.
  unfold st_le, ld_le. intros H. apply ld_st_same in H.
  rewrite length_le_encode in H. rewrite H. simpl. by rewrite le_decode_encode.
Qed.

Lemma ld_st_le_disjoint s p n v s' q k :
  st_le s p n v = Ret s' -> q + Z.of_nat k <= p \/ p + Z.of_nat n <= q ->
  ld_le s' q k = ld_le s q k.
Proof.
  unfold st_le, ld_le. intros H ?. erewrite ld_st_disjoint; eauto.
  by rewrite length_le_encode.
Qed.

Lemma mem_write_ok m p bs :
  map_Forall (fun _ b => fits 8 b) m -> bytes_ok bs ->
  map_Forall (fun _ b => fits 8 b) (mem_write m p bs).
Proof.
  intros Hm. revert p. induction bs as [|b bs IH]; intros p Hb; simpl; [done|].
  inversion_clear Hb. apply map_Forall_insert_2; auto.
Qed.

Lemma st_bytes_mem_ok s p bs s' :
  mem_ok s -> bytes_ok bs -> st_bytes s p bs = Ret s' -> mem_ok s'.
Proof. intros ? ? (? & ? & ->)%st_bytes_ret. by apply mem_write_ok. Qed.

Lemma same_outside_trans s1 s2 s3 p n :
  same_outside s1 s2 p n -> same_outside s2 s3 p n -> same_outside s1 s3 p n.
Proof. intros [? H1] [? H2]. split; [congruence|]. intros. rewrite H2, H1; auto. Qed.

Lemma same_outside_mono s s' p n q k :
  same_outside s s' p n -> q <= p -> p + n <= q + k -> same_outside s s' q k.
Proof. intros [? H] ? ?. split; [done|]. intros. apply H. lia. Qed.

Lemma paddr_guest2host_some s g len p :
  paddr_guest2host s g len = Some p -> p = g /\ g < mem_size s.
Proof. unfold paddr_guest2host. case_match; [|done]. intros. inv_ret. split; [done|lia]. Qed.

Lemma le_decode_zeros l : Forall (eq 0) l -> le_decode l = 0.
Proof. induction 1 as [|b l <- _ IH]; simpl; [done|]. by rewrite IH. Qed.

(** A scalar inside a cleared range reads 0. *)
Lemma ld_le_zero s p k s' q n :
  st_bytes s p (replicate k 0) = Ret s' -> p <= q -> q + Z.of_nat n <= p + Z.of_nat k ->
  ld_le s' q n = Ret 0.
Proof.
  intros (H0 & H1 & ->)%st_bytes_ret Hp Hq. rewrite length_replicate in H1.
  unfold ld_le, ld_bytes.
  replace (in_bounds _ q _) with true by (symmetry; apply in_bounds_spec; simpl; lia).
  cbn. f_equal. apply le_decode_zeros, Forall_map, Forall_forall. intros a Ha%elem_of_seqZ.
  replace a with (p + Z.of_nat (Z.to_nat (a - p))) by lia.
  rewrite (byte_at_write_eq _ _ _ _ 0); [done|].
  apply lookup_replicate. split; [done|lia].
Qed.
