(* ===== verification/VirtQueue.v ===== *)
(** * Virtqueues

    The split-virtqueue half of [src/virtio.c] and [src/devicemodel/include/virtio.h]:
    walking a descriptor chain ([vq_getchain]), giving it back ([vq_retchain],
    [vq_relchain]), and deciding on an interrupt ([vq_endchains]).  The rings
    live in the shared mapping and are read and written through it; each call
    sees one snapshot of the mapping. *)
From S2P Require Import Prelude Shmem.

(** ** Data *)

(** Constants of the virtio ring, [linux/virtio_ring.h] and [linux/virtio_config.h]. *)
Definition VRING_DESC_F_NEXT := 1.
Definition VRING_DESC_F_WRITE := 2.
Definition VRING_DESC_F_INDIRECT := 4.
Definition VRING_AVAIL_F_NO_INTERRUPT := 1.
Definition VRING_USED_F_NO_NOTIFY := 1.
Definition VIRTIO_F_NOTIFY_ON_EMPTY := 24.
Definition VIRTIO_RING_F_INDIRECT_DESC := 28.
Definition VIRTIO_RING_F_EVENT_IDX := 29.

Definition VQ_ALLOC := 1.
Definition VQ_MAX_DESCRIPTORS := 512.

(** [struct vring_desc], 16 bytes in guest memory. *)
Record vring_desc := mkDesc { d_addr : Z; d_len : Z; d_flags : Z; d_next : Z }.

(** [struct iovec] *)
Record iovec := mkIovec { iov_base : option Z; iov_len : Z }.

(** [struct virtio_vq_info].  A ring pointer is a host pointer into the
    mapping, [None] for NULL; [notify] is the index of the queue's own
    notification callback, [None] for NULL.  [pfn] and the iothread are not
    used by this transport beyond being reset. *)
Record virtio_vq_info := mkVq {
  qsize : Z;
  notify : option nat;
  num : Z;
  flags : Z;
  last_avail : Z;
  save_used : Z;
  msix_idx : Z;
  pfn : Z;
  desc : option Z;
  avail : option Z;
  used : option Z;
  gpa_desc0 : Z; gpa_desc1 : Z;
  gpa_avail0 : Z; gpa_avail1 : Z;
  gpa_used0 : Z; gpa_used1 : Z;
  enabled : bool
}.
#[export] Instance vq_eta : Settable virtio_vq_info := fun v =>
  mkVq (qsize v) (notify v) (num v) (flags v) (last_avail v) (save_used v)
    (msix_idx v) (pfn v) (desc v) (avail v) (used v)
    (gpa_desc0 v) (gpa_desc1 v) (gpa_avail0 v) (gpa_avail1 v)
    (gpa_used0 v) (gpa_used1 v) (enabled v).

(** The caller's arrays: [iov] and, when it is not NULL, [flags].  A cell
    nobody has written is [None]. *)
Record chain_buf := mkBuf { cb_iov : list (option iovec); cb_flags : option (list (option Z)) }.

(** ** Ring access *)

Definition deref (p : option Z) : outcome Z :=
  match p with Some a => Ret a | None => Stop NullDeref end.

Definition ld_desc (s : shmem_info) (p : Z) : outcome vring_desc :=
  bs ← ld_bytes s p 16;
  Ret (mkDesc (le_decode (take 8 bs)) (le_decode (take 4 (drop 8 bs)))
              (le_decode (take 2 (drop 12 bs))) (le_decode (drop 14 bs))).

Definition avail_flags (s : shmem_info) (v : virtio_vq_info) : outcome Z :=
  a ← deref (avail v); ld_le s a 2.
Definition avail_idx (s : shmem_info) (v : virtio_vq_info) : outcome Z :=
  a ← deref (avail v); ld_le s (a + 2) 2.
Definition avail_ring (s : shmem_info) (v : virtio_vq_info) (i : Z) : outcome Z :=
  a ← deref (avail v); ld_le s (a + 4 + 2 * i) 2.
Definition used_idx (s : shmem_info) (v : virtio_vq_info) : outcome Z :=
  u ← deref (used v); ld_le s (u + 2) 2.

(** [vq->desc[i]] *)
Definition vq_desc (s : shmem_info) (v : virtio_vq_info) (i : Z) : outcome vring_desc :=
  d ← deref (desc v); ld_desc s (d + 16 * i).

(** [VQ_USED_EVENT_IDX]: the slot after the available ring. *)
Definition VQ_USED_EVENT_IDX (s : shmem_info) (v : virtio_vq_info) : outcome Z :=
  avail_ring s v (qsize v).

(** ** Operations *)

Definition vq_ring_ready (v : virtio_vq_info) : bool :=
  Z.land (flags v) VQ_ALLOC =? VQ_ALLOC.

Definition vq_has_descs (s : shmem_info) (v : virtio_vq_info) : outcome bool :=
  if vq_ring_ready v then
    idx ← avail_idx s v;
    if last_avail v =? idx then Ret false
    else if qsize v <? u16 (idx - last_avail v) then Ret false else Ret true
  else Ret false.

Definition put_iov (b : chain_buf) (i : Z) (io : iovec) (fl : Z) : chain_buf :=
  mkBuf (setZ (cb_iov b) i (Some io))
        (match cb_flags b with Some l => Some (setZ l i (Some fl)) | None => None end).

(** [_vq_record]; [None] for its return value -1. *)
Definition _vq_record (s : shmem_info) (i : Z) (vd : vring_desc) (b : chain_buf) (n_iov : Z)
  : option chain_buf :=
  if n_iov <=? i then None
  else match paddr_guest2host s (d_addr vd) (d_len vd) with
       | None => None
       | Some host_addr => Some (put_iov b i (mkIovec (Some host_addr) (d_len vd)) (d_flags vd))
       end.

(** How the walk of an indirect table ends. *)
Inductive indir_result :=
  | IndirDone (i : Z) (b : chain_buf)  (* break: a descriptor without NEXT *)
  | IndirErr (b : chain_buf)           (* return -1 *)
  | IndirLoopy (b : chain_buf).        (* goto loopy *)

Fixpoint indir_loop (fuel : nat) (s : shmem_info) (vindir n_indir n_iov : Z)
    (next i : Z) (b : chain_buf) : outcome indir_result :=
  match fuel with
  | O => Stop OutOfFuel
  | S fuel' =>
    vp ← ld_desc s (vindir + 16 * next);
    if has (d_flags vp) VRING_DESC_F_INDIRECT then Ret (IndirErr b)
    else match _vq_record s i vp b n_iov with
         | None => Ret (IndirErr b)
         | Some b' =>
           let i := i + 1 in
           if VQ_MAX_DESCRIPTORS <? i then Ret (IndirLoopy b')
           else if negb (has (d_flags vp) VRING_DESC_F_NEXT) then Ret (IndirDone i b')
           else let next := d_next vp in
                if n_indir <=? next then Ret (IndirErr b')
                else indir_loop fuel' s vindir n_indir n_iov next i b'
         end
  end.

Definition walk_fuel : nat := S (Z.to_nat VQ_MAX_DESCRIPTORS).

(** The [for] loop of [vq_getchain]; the result is its return value. *)
Fixpoint chain_loop (fuel : nat) (s : shmem_info) (device_caps : Z) (v : virtio_vq_info)
    (n_iov : Z) (next i : Z) (b : chain_buf) : outcome (Z * chain_buf) :=
  match fuel with
  | O => Stop OutOfFuel
  | S fuel' =>
    if VQ_MAX_DESCRIPTORS <=? i then Ret (-1, b)                   (* loopy *)
    else if qsize v <=? next then Ret (-1, b)
    else
      vdir ← vq_desc s v next;
      let continue (i : Z) (b : chain_buf) :=
        if negb (has (d_flags vdir) VRING_DESC_F_NEXT) then Ret (i, b)
        else chain_loop fuel' s device_caps v n_iov (d_next vdir) i b in
      if negb (has (d_flags vdir) VRING_DESC_F_INDIRECT) then
        match _vq_record s i vdir b n_iov with
        | None => Ret (-1, b)
        | Some b' => continue (i + 1) b'
        end
      else if negb (Z.testbit device_caps VIRTIO_RING_F_INDIRECT_DESC) then Ret (-1, b)
      else
        let n_indir := d_len vdir / 16 in
        if z2b (Z.land (d_len vdir) 0xf) || (n_indir =? 0) then Ret (-1, b)
        else match paddr_guest2host s (d_addr vdir) (d_len vdir) with
             | None => Ret (-1, b)
             | Some vindir =>
               r ← indir_loop walk_fuel s vindir n_indir n_iov 0 i b;
               match r with
               | IndirDone i' b' => continue i' b'
               | IndirErr b' | IndirLoopy b' => Ret (-1, b')
               end
             end
  end.

(** What [vq_getchain] leaves behind: its value, the queue, [*pidx] when it
    was assigned, and the caller's arrays. *)
Record getchain_result := mkGet {
  gc_ret : Z; gc_vq : virtio_vq_info; gc_idx : option Z; gc_buf : chain_buf }.

Definition vq_getchain (s : shmem_info) (device_caps : Z) (v : virtio_vq_info)
    (b : chain_buf) (n_iov : Z) : outcome getchain_result :=
  let idx := last_avail v in
  aidx ← avail_idx s v;
  let ndesc := u16 (aidx - idx) in
  if ndesc =? 0 then Ret (mkGet 0 v None b)
  else if qsize v <? ndesc then Ret (mkGet (-1) v None b)
  else
    next ← avail_ring s v (Z.land idx (qsize v - 1));
    let v' := v <| last_avail ::= fun x => u16 (x + 1) |> in
    '(r, b') ← chain_loop walk_fuel s device_caps v' n_iov next 0 b;
    Ret (mkGet r v' (Some next) b').

Definition vq_retchain (v : virtio_vq_info) : virtio_vq_info :=
  v <| last_avail ::= fun x => u16 (x - 1) |>.

Definition vq_relchain (s : shmem_info) (v : virtio_vq_info) (idx iolen : Z)
  : outcome shmem_info :=
  let mask := u16 (qsize v - 1) in
  vuh ← deref (used v);
  uidx ← ld_le s (vuh + 2) 2;
  let vue := vuh + 4 + 8 * Z.land uidx mask in
  s ← st_le s vue 4 idx;
  s ← st_le s (vue + 4) 4 iolen;
  st_le s (vuh + 2) 2 (u16 (uidx + 1)).

(** [vq_endchains] up to the call of [vq_interrupt]: the queue with its new
    [save_used], and whether an interrupt is delivered. *)
Definition vq_endchains (s : shmem_info) (negotiated_caps : Z) (v : virtio_vq_info)
    (used_all_avail : bool) : outcome (virtio_vq_info * bool) :=
  match used v with
  | None => Ret (v, false)
  | Some _ =>
    let old_idx := save_used v in
    new_idx ← used_idx s v;
    let v' := v <| save_used := new_idx |> in
    if used_all_avail && Z.testbit negotiated_caps VIRTIO_F_NOTIFY_ON_EMPTY then Ret (v', true)
    else if Z.testbit negotiated_caps VIRTIO_RING_F_EVENT_IDX then
      event_idx ← VQ_USED_EVENT_IDX s v';
      Ret (v', u16 (new_idx - event_idx - 1) <? u16 (new_idx - old_idx))
    else if new_idx =? old_idx then Ret (v', false)
    else
      fl ← avail_flags s v';
      Ret (v', negb (has fl VRING_AVAIL_F_NO_INTERRUPT))
  end.

(** [vq_clear_used_ring_flags]; [polling] is the conjunction the code tests:
    polling enabled, a VBSU backend, and polling in progress. *)
Definition vq_clear_used_ring_flags (s : shmem_info) (v : virtio_vq_info) (polling : bool)
  : outcome shmem_info :=
  if polling then Ret s
  else u ← deref (used v);
       fl ← ld_le s u 2;
       st_le s u 2 (clear_bits 16 fl VRING_USED_F_NO_NOTIFY).

(** ** Specification: descriptor chains

    What the virtio ring says a chain is, independent of the walk: a direct
    descriptor contributes itself, an indirect one the chain of its table, and
    NEXT continues at [d_next].  The specification has no length limit. *)
Section ChainSpec.
Context (s : shmem_info) (device_caps : Z) (v : virtio_vq_info).

Definition indirect (d : vring_desc) : bool := has (d_flags d) VRING_DESC_F_INDIRECT.
Definition continues (d : vring_desc) : bool := has (d_flags d) VRING_DESC_F_NEXT.

(** The buffer of [d] starts inside the mapping. *)
Definition mapped (d : vring_desc) : Prop := d_addr d < mem_size s.

Inductive indir_chain (tbl n : Z) : Z -> list vring_desc -> Prop :=
  | ic_last j d :
      ld_desc s (tbl + 16 * j) = Ret d -> indirect d = false -> continues d = false ->
      indir_chain tbl n j [d]
  | ic_next j d ds :
      ld_desc s (tbl + 16 * j) = Ret d -> indirect d = false -> continues d = true ->
      d_next d < n -> indir_chain tbl n (d_next d) ds ->
      indir_chain tbl n j (d :: ds).

(** The table an indirect descriptor refers to. *)
Definition indir_table (d : vring_desc) (tbl n : Z) : Prop :=
  Z.testbit device_caps VIRTIO_RING_F_INDIRECT_DESC = true /\
  Z.land (d_len d) 0xf = 0 /\ n = d_len d / 16 /\ n <> 0 /\
  tbl = d_addr d /\ d_addr d < mem_size s.

(** The descriptors one direct slot stands for. *)
Inductive slot : vring_desc -> list vring_desc -> Prop :=
  | slot_direct d : indirect d = false -> slot d [d]
  | slot_indirect d tbl n ds :
      indirect d = true -> indir_table d tbl n -> indir_chain tbl n 0 ds -> slot d ds.

Inductive chain : Z -> list vring_desc -> Prop :=
  | chain_last j d ds :
      j < qsize v -> vq_desc s v j = Ret d -> continues d = false -> slot d ds ->
      chain j ds
  | chain_next j d ds ds' :
      j < qsize v -> vq_desc s v j = Ret d -> continues d = true -> slot d ds ->
      chain (d_next d) ds' -> chain j (ds ++ ds').

(** The arrays after recording [ds] from index [i] on. *)
Fixpoint record_all (b : chain_buf) (i : Z) (ds : list vring_desc) : chain_buf :=
  match ds with
  | [] => b
  | d :: ds' =>
    record_all (put_iov b i (mkIovec (Some (d_addr d)) (d_len d)) (d_flags d)) (i + 1) ds'
  end.
End ChainSpec.

(** [vring_need_event] of the virtio specification, as a statement about
    positions: [event] lies in the window of [old, new), counted modulo 2^16. *)
Definition event_in_window (event new old : Z) : Prop :=
  exists k, 0 <= k < u16 (new - old) /\ event = u16 (old + k).

(** Number of available chains the device has not fetched. *)
Definition pending (s : shmem_info) (v : virtio_vq_info) : outcome Z :=
  aidx ← avail_idx s v; Ret (u16 (aidx - last_avail v)).

(** ** Lemmas on the walk *)

Lemma record_all_app b i ds ds' :
  record_all b i (ds ++ ds') = record_all (record_all b i ds) (i + Z.of_nat (length ds)) ds'.
Proof.
  revert b i. induction ds as [|d ds IH]; intros b i; cbn [record_all app length].
  - f_equal. lia.
  - rewrite IH. f_equal. lia.
Qed.

Lemma vq_record_some s i d b n_iov b' :
  _vq_record s i d b n_iov = Some b' <->
  i < n_iov /\ mapped s d /\
  b' = put_iov b i (mkIovec (Some (d_addr d)) (d_len d)) (d_flags d).
Proof.
  unfold _vq_record, paddr_guest2host, mapped.
  destruct (Z.leb_spec n_iov i); [split; [done|lia]|].
  destruct (Z.ltb_spec (d_addr d) (mem_size s)); [|split; [done|lia]].
  split; [intros [=<-]; auto|]. by intros (_ & _ & ->).
Qed.

Lemma slot_nonempty s caps d ds : slot s caps d ds -> (1 <= length ds)%nat.
Proof. destruct 1 as [|d tbl n ds _ _ H]; [done|]. destruct H; simpl; lia. Qed.

(** The indirect walk returns exactly when the table holds a chain that fits. *)
Lemma indir_loop_sound fuel s tbl n n_iov next i b i' b' :
  indir_loop fuel s tbl n n_iov next i b = Ret (IndirDone i' b') ->
  exists ds, indir_chain s tbl n next ds /\ i' = i + Z.of_nat (length ds) /\
    b' = record_all b i ds /\ Forall (mapped s) ds /\
    i' <= VQ_MAX_DESCRIPTORS /\ i' <= n_iov.
Proof.
  revert next i b. induction fuel as [|fuel IH]; intros next i b; simpl; [done|].
  destruct (ld_desc s (tbl + 16 * next)) as [d|] eqn:Hd; simpl; [|done].
  destruct (has (d_flags d) VRING_DESC_F_INDIRECT) eqn:Hi; [done|].
  destruct (_vq_record s i d b n_iov) as [b1|] eqn:Hr; [|done].
  apply vq_record_some in Hr as (Hn & Hm & ->).
  destruct (Z.ltb_spec VQ_MAX_DESCRIPTORS (i + 1)); [done|].
  destruct (has (d_flags d) VRING_DESC_F_NEXT) eqn:Hx; simpl.
  - destruct (Z.leb_spec n (d_next d)); [done|].
    intros (ds & Hc & -> & -> & Hall & ? & ?)%IH.
    exists (d :: ds). split_and!; [by eapply ic_next|simpl; lia|done|by constructor|lia|lia].
  - intros. inv_ret. exists [d].
    split_and!; [by apply ic_last|simpl; lia|done|by constructor|lia|lia].
Qed.

Lemma indir_loop_complete s tbl n n_iov next ds :
  indir_chain s tbl n next ds ->
  forall fuel i b, Forall (mapped s) ds -> (length ds <= fuel)%nat ->
  i + Z.of_nat (length ds) <= VQ_MAX_DESCRIPTORS -> i + Z.of_nat (length ds) <= n_iov ->
  indir_loop fuel s tbl n n_iov next i b =
    Ret (IndirDone (i + Z.of_nat (length ds)) (record_all b i ds)).
Proof.
  induction 1 as [j d Hd Hi Hx|j d ds Hd Hi Hx Hn _ IH];
    intros fuel i b Hall Hf Hmax Hiov; inversion_clear Hall as [|? ? Hm Hall'];
    (destruct fuel as [|fuel]; simpl in Hf; [lia|]); simpl in Hmax, Hiov;
    cbn [indir_loop]; rewrite Hd; simpl; unfold indirect, continues in *; rewrite Hi;
    (assert (_vq_record s i d b n_iov = Some
       (put_iov b i (mkIovec (Some (d_addr d)) (d_len d)) (d_flags d))) as ->
       by (apply vq_record_some; split_and!; [lia|done|done]));
    (destruct (Z.ltb_spec VQ_MAX_DESCRIPTORS (i + 1)); [lia|]); rewrite Hx; simpl; [done|].
  destruct (Z.leb_spec n (d_next d)); [lia|].
  rewrite IH by (done || lia). do 2 f_equal. lia.
Qed.

(** The walks stop only at a null ring or by leaving the mapping: their fuel
    is enough. *)
Definition mem_stop (e : stop) : Prop := e = OobAccess \/ e = NullDeref.

Lemma ld_bytes_stop s p n e : ld_bytes s p n = Stop e -> mem_stop e.
Proof. unfold ld_bytes, mem_stop. destruct (in_bounds _ _ _); [done|]. intros [= <-]. auto. Qed.

Lemma ld_le_stop s p n e : ld_le s p n = Stop e -> mem_stop e.
Proof.
  unfold ld_le. destruct (ld_bytes s p n) eqn:E; [done|]. simpl. intros [= ->].
  by eapply ld_bytes_stop.
Qed.

Lemma ld_desc_stop s p e : ld_desc s p = Stop e -> mem_stop e.
Proof.
  unfold ld_desc. destruct (ld_bytes s p 16) eqn:E; [done|]. simpl. intros [= ->].
  by eapply ld_bytes_stop.
Qed.

Lemma deref_stop p e : deref p = Stop e -> mem_stop e.
Proof. destruct p; simpl; [done|]. intros [= <-]. by right. Qed.

Lemma deref_bind_stop {A} p (f : Z -> outcome A) e :
  (forall a, f a = Stop e -> mem_stop e) -> (deref p ≫= f) = Stop e -> mem_stop e.
Proof. intros Hf. destruct p; simpl; [apply Hf|]. intros [= <-]. by right. Qed.

Lemma vq_desc_stop s v i e : vq_desc s v i = Stop e -> mem_stop e.
Proof. apply deref_bind_stop. intros a. apply ld_desc_stop. Qed.

Lemma indir_loop_stop fuel s tbl n n_iov next i b e :
  i <= VQ_MAX_DESCRIPTORS -> VQ_MAX_DESCRIPTORS - i < Z.of_nat fuel ->
  indir_loop fuel s tbl n n_iov next i b = Stop e -> mem_stop e.
Proof.
  revert next i b. induction fuel as [|fuel IH]; intros next i b Hi Hf; simpl; [lia|].
  destruct (ld_desc s (tbl + 16 * next)) as [d|] eqn:Hd; simpl;
    [|intros [= <-]; by eapply ld_desc_stop].
  destruct (has (d_flags d) VRING_DESC_F_INDIRECT); [done|].
  destruct (_vq_record _ _ _ _ _); [|done].
  destruct (Z.ltb_spec VQ_MAX_DESCRIPTORS (i + 1)); [done|].
  destruct (negb _); [done|]. destruct (n <=? d_next d); [done|]. apply IH; lia.
Qed.

Lemma indir_loop_progress fuel s tbl n n_iov next i b i' b' :
  indir_loop fuel s tbl n n_iov next i b = Ret (IndirDone i' b') ->
  i < i' <= VQ_MAX_DESCRIPTORS.
Proof.
  intros (ds & Hc & -> & _ & _ & ? & _)%indir_loop_sound. destruct Hc; simpl in *; lia.
Qed.

Lemma walk_fuel_enough i :
  0 <= i <= VQ_MAX_DESCRIPTORS -> VQ_MAX_DESCRIPTORS - i < Z.of_nat walk_fuel.
Proof. unfold walk_fuel, VQ_MAX_DESCRIPTORS. lia. Qed.

(** [walk_fuel] is only compared with counters, never computed with. *)
#[global] Opaque walk_fuel.

(** One step of the direct walk, on its slot. *)
Definition slot_step (s : shmem_info) (caps : Z) (n_iov : Z) (d : vring_desc) (i : Z)
    (b : chain_buf) (k : Z -> chain_buf -> outcome (Z * chain_buf)) : outcome (Z * chain_buf) :=
  if negb (has (d_flags d) VRING_DESC_F_INDIRECT) then
    match _vq_record s i d b n_iov with None => Ret (-1, b) | Some b' => k (i + 1) b' end
  else if negb (Z.testbit caps VIRTIO_RING_F_INDIRECT_DESC) then Ret (-1, b)
  else if z2b (Z.land (d_len d) 0xf) || (d_len d / 16 =? 0) then Ret (-1, b)
  else match paddr_guest2host s (d_addr d) (d_len d) with
       | None => Ret (-1, b)
       | Some t => r ← indir_loop walk_fuel s t (d_len d / 16) n_iov 0 i b;
                   match r with
                   | IndirDone i' b' => k i' b'
                   | IndirErr b' | IndirLoopy b' => Ret (-1, b')
                   end
       end.

Lemma slot_step_sound s caps n_iov d i b k r b'' :
  0 <= i < VQ_MAX_DESCRIPTORS ->
  slot_step s caps n_iov d i b k = Ret (r, b'') -> 0 <= r ->
  exists ds, slot s caps d ds /\ Forall (mapped s) ds /\
    i + Z.of_nat (length ds) <= VQ_MAX_DESCRIPTORS /\ i + Z.of_nat (length ds) <= n_iov /\
    k (i + Z.of_nat (length ds)) (record_all b i ds) = Ret (r, b'').
Proof.
  unfold slot_step. intros Hi H Hr.
  destruct (has (d_flags d) VRING_DESC_F_INDIRECT) eqn:Hind; simpl in H.
  - destruct (Z.testbit caps _) eqn:Hcap; simpl in H; [|inv_ret; lia].
    destruct (z2b _ || _) eqn:Hlen; [inv_ret; lia|].
    apply orb_false_iff in Hlen as [Hl1 Hl2].
    destruct (paddr_guest2host _ _ _) eqn:Hp; [|inv_ret; lia].
    apply paddr_guest2host_some in Hp as [-> Hm].
    destruct (indir_loop _ _ _ _ _ _ _ _) as [[i' b'|b'|b']|] eqn:E; simpl in H;
      [|inv_ret; lia|inv_ret; lia|done].
    apply indir_loop_sound in E as (ds & Hc & -> & -> & Hall & ? & ?).
    exists ds. split_and!; try done. eapply slot_indirect; [done| |done].
    unfold indir_table. apply Z.eqb_neq in Hl2. unfold z2b in Hl1.
    apply negb_false_iff, Z.eqb_eq in Hl1. done.
  - destruct (_vq_record s i d b n_iov) as [b1|] eqn:Hrec; [|inv_ret; lia].
    apply vq_record_some in Hrec as (? & ? & ->).
    exists [d]. split_and!; [by apply slot_direct|by constructor|simpl; lia|simpl; lia|done].
Qed.

Lemma slot_step_complete s caps n_iov d ds i b k :
  slot s caps d ds -> Forall (mapped s) ds -> 0 <= i ->
  i + Z.of_nat (length ds) <= VQ_MAX_DESCRIPTORS -> i + Z.of_nat (length ds) <= n_iov ->
  slot_step s caps n_iov d i b k = k (i + Z.of_nat (length ds)) (record_all b i ds).
Proof.
  intros Hs Hall Hi Hmax Hiov. unfold slot_step.
  destruct Hs as [d Hd|d tbl n ds Hd (Hcap & Hl & -> & Hn & -> & Hm) Hc];
    unfold indirect in Hd; rewrite Hd; simpl.
  - inversion_clear Hall as [|? ? Hm _].
    assert (_vq_record s i d b n_iov = Some
      (put_iov b i (mkIovec (Some (d_addr d)) (d_len d)) (d_flags d))) as ->; [|done].
    apply vq_record_some. simpl in *. split_and!; [lia|done|done].
  - rewrite Hcap, Hl. simpl. destruct (Z.eqb_spec (d_len d / 16) 0); [done|].
    unfold paddr_guest2host. destruct (Z.ltb_spec (d_addr d) (mem_size s)); [|lia].
    rewrite (indir_loop_complete _ _ _ _ _ _ Hc); [done|done| |done|done].
    pose proof (walk_fuel_enough 0 ltac:(unfold VQ_MAX_DESCRIPTORS; lia)). lia.
Qed.

Lemma chain_loop_unfold fuel s caps v n_iov next i b :
  chain_loop (S fuel) s caps v n_iov next i b =
    if VQ_MAX_DESCRIPTORS <=? i then Ret (-1, b)
    else if qsize v <=? next then Ret (-1, b)
    else d ← vq_desc s v next;
         slot_step s caps n_iov d i b (fun i b =>
           if negb (has (d_flags d) VRING_DESC_F_NEXT) then Ret (i, b)
           else chain_loop fuel s caps v n_iov (d_next d) i b).
Proof. done. Qed.

Lemma slot_step_stop s caps n_iov d i b k e :
  0 <= i < VQ_MAX_DESCRIPTORS ->
  (forall i' b', i < i' <= VQ_MAX_DESCRIPTORS -> k i' b' = Stop e -> mem_stop e) ->
  slot_step s caps n_iov d i b k = Stop e -> mem_stop e.
Proof.
  intros Hi Hk. unfold slot_step. destruct (negb (has _ _)).
  { destruct (_vq_record _ _ _ _ _); [apply Hk; lia|done]. }
  destruct (negb (Z.testbit _ _)); [done|]. destruct (z2b _ || _); [done|].
  destruct (paddr_guest2host _ _ _); [|done].
  destruct (indir_loop _ _ _ _ _ _ _ _) as [[i' b'|b'|b']|] eqn:E; simpl; try done.
  - apply indir_loop_progress in E. apply Hk. lia.
  - intros [= <-]. eapply indir_loop_stop; [| |done]; [lia|]. by apply walk_fuel_enough; lia.
Qed.

Lemma chain_loop_stop fuel s caps v n_iov next i b e :
  0 <= i <= VQ_MAX_DESCRIPTORS -> VQ_MAX_DESCRIPTORS - i < Z.of_nat fuel ->
  chain_loop fuel s caps v n_iov next i b = Stop e -> mem_stop e.
Proof.
  revert next i b. induction fuel as [|fuel IH]; intros next i b Hi Hf; [simpl; lia|].
  rewrite chain_loop_unfold.
  destruct (Z.leb_spec VQ_MAX_DESCRIPTORS i); [done|]. destruct (qsize v <=? next); [done|].
  destruct (vq_desc s v next) as [d|] eqn:Hd; simpl; [|intros [= <-]; by eapply vq_desc_stop].
  apply slot_step_stop; [lia|]. intros i' b' Hi'. destruct (negb _); [done|]. apply IH; lia.
Qed.

(** The only negative result is -1. *)
Lemma slot_step_neg s caps n_iov d i b k r b'' :
  0 <= i ->
  (forall i' b', 0 <= i' -> k i' b' = Ret (r, b'') -> r < 0 -> r = -1) ->
  slot_step s caps n_iov d i b k = Ret (r, b'') -> r < 0 -> r = -1.
Proof.
  intros Hi Hk. unfold slot_step. destruct (negb (has _ _)).
  { destruct (_vq_record _ _ _ _ _); [apply Hk; lia|congruence]. }
  destruct (negb (Z.testbit _ _)); [congruence|]. destruct (z2b _ || _); [congruence|].
  destruct (paddr_guest2host _ _ _); [|congruence].
  destruct (indir_loop _ _ _ _ _ _ _ _) as [[i' b'|b'|b']|] eqn:E; simpl; try congruence.
  apply indir_loop_progress in E. apply Hk. lia.
Qed.

Lemma chain_loop_neg fuel s caps v n_iov next i b r b' :
  0 <= i -> chain_loop fuel s caps v n_iov next i b = Ret (r, b') -> r < 0 -> r = -1.
Proof.
  revert next i b. induction fuel as [|fuel IH]; intros next i b Hi; [done|].
  rewrite chain_loop_unfold.
  destruct (VQ_MAX_DESCRIPTORS <=? i); [congruence|].
  destruct (qsize v <=? next); [congruence|].
  destruct (vq_desc s v next) as [d|]; simpl; [|done].
  apply slot_step_neg; [done|]. intros i' b1 Hi'.
  destruct (negb _); [intros; inv_ret; lia|]. by apply IH.
Qed.

(** The walk returns a length exactly when there is a chain it can record. *)
Lemma chain_loop_sound fuel s caps v n_iov next i b r b' :
  0 <= i -> chain_loop fuel s caps v n_iov next i b = Ret (r, b') -> 0 <= r ->
  exists ds, chain s caps v next ds /\ Forall (mapped s) ds /\
    r = i + Z.of_nat (length ds) /\ b' = record_all b i ds /\
    r <= VQ_MAX_DESCRIPTORS /\ r <= n_iov.
Proof.
  revert next i b. induction fuel as [|fuel IH]; intros next i b Hi H Hr; [done|].
  rewrite chain_loop_unfold in H.
  destruct (Z.leb_spec VQ_MAX_DESCRIPTORS i); [inv_ret; lia|].
  destruct (Z.leb_spec (qsize v) next); [inv_ret; lia|].
  destruct (vq_desc s v next) as [d|] eqn:Hd; simpl in H; [|done].
  apply slot_step_sound in H as (ds & Hs & Hall & ? & ? & Hk); [|lia|lia].
  destruct (has (d_flags d) VRING_DESC_F_NEXT) eqn:Hx; simpl in Hk.
  - apply IH in Hk as (ds' & Hc & Hall' & -> & -> & ? & ?); [|lia|lia].
    exists (ds ++ ds'). rewrite record_all_app, length_app.
    split_and!; [by eapply chain_next|by apply Forall_app|lia|done|lia|lia].
  - inv_ret. exists ds. split_and!; [by eapply chain_last|done|done|done|done|done].
Qed.

Lemma chain_loop_complete s caps v n_iov next ds :
  chain s caps v next ds ->
  forall fuel i b, 0 <= i -> Forall (mapped s) ds -> (length ds <= fuel)%nat ->
  i + Z.of_nat (length ds) <= VQ_MAX_DESCRIPTORS -> i + Z.of_nat (length ds) <= n_iov ->
  chain_loop fuel s caps v n_iov next i b =
    Ret (i + Z.of_nat (length ds), record_all b i ds).
Proof.
  induction 1 as [j d ds Hj Hd Hx Hs|j d ds ds' Hj Hd Hx Hs _ IH];
    intros fuel i b Hi Hall Hf Hmax Hiov; pose proof (slot_nonempty _ _ _ _ Hs) as Hne;
    rewrite ?length_app in *;
    (destruct fuel as [|fuel]; [lia|]); rewrite chain_loop_unfold;
    (destruct (Z.leb_spec VQ_MAX_DESCRIPTORS i); [lia|]);
    (destruct (Z.leb_spec (qsize v) j); [lia|]); rewrite Hd; simpl;
    unfold continues in Hx.
  - rewrite (slot_step_complete _ _ _ _ ds) by (done || lia). by rewrite Hx.
  - apply Forall_app in Hall as [Hall Hall'].
    rewrite (slot_step_complete _ _ _ _ ds) by (done || lia).
    rewrite Hx. simpl. rewrite IH by (done || lia).
    rewrite record_all_app. do 2 f_equal. lia.
Qed.

Lemma chain_ext s caps v v' j ds :
  qsize v' = qsize v -> desc v' = desc v -> chain s caps v j ds -> chain s caps v' j ds.
Proof.
  intros Hq Hd. assert (forall i, vq_desc s v' i = vq_desc s v i) as Hvd.
  { intros i. unfold vq_desc. by rewrite Hd. }
  induction 1; [eapply chain_last|eapply chain_next]; rewrite ?Hq, ?Hvd; eauto.
Qed.

(** A table or a ring holds at most one chain from a given head. *)
Lemma indir_chain_det s tbl n j ds ds' :
  indir_chain s tbl n j ds -> indir_chain s tbl n j ds' -> ds = ds'.
Proof.
  intros H. revert ds'. induction H; inversion 1; simplify_eq; det_ret; try congruence.
  f_equal. auto.
Qed.

Lemma slot_det s caps d ds ds' : slot s caps d ds -> slot s caps d ds' -> ds = ds'.
Proof.
  destruct 1 as [d Hd|d tbl n ds Hd (_ & _ & -> & _ & -> & _) Hc]; inversion 1;
    simplify_eq; try congruence.
  match goal with H : indir_table _ _ _ _ _ |- _ => destruct H as (_ & _ & -> & _ & -> & _) end.
  by eapply indir_chain_det.
Qed.

Lemma chain_det s caps v j ds ds' : chain s caps v j ds -> chain s caps v j ds' -> ds = ds'.
Proof.
  intros H. revert ds'. induction H; inversion 1; simplify_eq; det_ret;
    try congruence; [by eapply slot_det|].
  f_equal; [by eapply slot_det|auto].
Qed.

Lemma chain_nonempty s caps v j ds : chain s caps v j ds -> (1 <= length ds)%nat.
Proof.
  induction 1 as [? ? ? ? ? ? Hs|? ? ? ? ? ? ? Hs _ IH]; apply slot_nonempty in Hs;
    rewrite ?length_app; lia.
Qed.

Lemma vq_getchain_unfold s caps v b n_iov n :
  pending s v = Ret n ->
  vq_getchain s caps v b n_iov =
    if n =? 0 then Ret (mkGet 0 v None b)
    else if qsize v <? n then Ret (mkGet (-1) v None b)
    else next ← avail_ring s v (Z.land (last_avail v) (qsize v - 1));
         '(r, b') ← chain_loop walk_fuel s caps
                      (v <| last_avail ::= fun x => u16 (x + 1) |>) n_iov next 0 b;
         Ret (mkGet r (v <| last_avail ::= fun x => u16 (x + 1) |>) (Some next) b').
Proof.
  unfold pending, vq_getchain. destruct (avail_idx s v); simpl; [|done]. by intros [= <-].
Qed.

(** A call that returned saw a count of pending chains. *)
Lemma vq_getchain_pending s caps v b n_iov g :
  vq_getchain s caps v b n_iov = Ret g -> exists n, pending s v = Ret n /\ fits 16 n.
Proof.
  unfold vq_getchain, pending. destruct (avail_idx s v); simpl; [|done].
  intros _. eexists. split; [done|]. by apply wrap_fits.
Qed.

Lemma deref_ret p a : deref p = Ret a -> p = Some a.
Proof. destruct p; simpl; congruence. Qed.

(** Membership in the event window, without the wrap-around. *)
Lemma event_in_window_iff ev new old :
  fits 16 ev -> fits 16 new -> fits 16 old ->
  event_in_window ev new old <-> u16 (new - ev - 1) < u16 (new - old).
Proof.
  intros. unfold event_in_window. split.
  - intros (k & Hk & ->). wrap_lia.
  - intros Hlt. exists (u16 (ev - old)). split; wrap_lia.
Qed.

(** What a positive answer of [vq_getchain] stands for. *)
Lemma getchain_positive s caps v b n_iov g :
  vq_getchain s caps v b n_iov = Ret g -> 0 < gc_ret g ->
  exists n head ds,
    pending s v = Ret n /\ 0 < n <= qsize v /\
    avail_ring s v (Z.land (last_avail v) (qsize v - 1)) = Ret head /\
    chain s caps v head ds /\ Forall (mapped s) ds /\
    Z.of_nat (length ds) <= VQ_MAX_DESCRIPTORS /\ Z.of_nat (length ds) <= n_iov /\
    g = mkGet (Z.of_nat (length ds)) (v <| last_avail ::= fun x => u16 (x + 1) |>)
          (Some head) (record_all b 0 ds).
Proof.
  intros H Hr. destruct (vq_getchain_pending _ _ _ _ _ _ H) as (n & Hn & Hf).
  rewrite (vq_getchain_unfold _ _ _ _ _ _ Hn) in H.
  destruct (Z.eqb_spec n 0); [inv_ret; simpl in Hr; lia|].
  destruct (Z.ltb_spec (qsize v) n); [inv_ret; simpl in Hr; lia|].
  destruct (avail_ring _ _ _) as [head|] eqn:Hh; simpl in H; [|done].
  destruct (chain_loop _ _ _ _ _ _ _ _) as [[r b']|] eqn:Hc; simpl in H; [|done].
  inv_ret. simpl in Hr.
  apply chain_loop_sound in Hc as (ds & Hc & Hall & -> & -> & ? & ?); [|done|lia].
  exists n, head, ds. unfold fits in Hf.
  split_and!; try done; try lia. by eapply chain_ext; [| |exact Hc].
Qed.

Lemma getchain_stop s caps v b n_iov e : vq_getchain s caps v b n_iov = Stop e -> mem_stop e.
Proof.
  unfold vq_getchain, avail_idx. intros H.
  destruct (avail v) as [a|] eqn:Ha; simpl in H; [|right; congruence].
  destruct (ld_le s (a + 2) 2) eqn:E; simpl in H; [|inv_ret; by eapply ld_le_stop].
  destruct (_ =? 0); [done|]. destruct (qsize v <? _); [done|].
  unfold avail_ring in H. rewrite Ha in H. simpl in H.
  destruct (ld_le s (a + 4 + _) 2) eqn:E'; simpl in H; [|inv_ret; by eapply ld_le_stop].
  destruct (chain_loop _ _ _ _ _ _ _ _) as [[r b']|] eqn:Ec; simpl in H; [done|].
  injection H as ->. eapply chain_loop_stop; [| |done]; [by vm_compute|].
  apply walk_fuel_enough. by vm_compute.
Qed.

(** ** Properties *)

(** C20. Whatever the guest puts in memory, cyclic descriptor chains included,
    [vq_getchain] terminates: with the model's fuel it only ever stops by a
    null ring pointer or by a ring or table that leaves the mapping. *)
Theorem getchain_terminates s caps v b n_iov e :
  vq_getchain s caps v b n_iov = Stop e -> e = OobAccess \/ e = NullDeref.
Proof. apply getchain_stop. Qed.

(** C1. [vq_getchain] refines the ring's own notion of a request: it returns
    a positive length exactly when chains are pending, no more than the queue
    holds, and the one at the head is a well-formed chain of mapped descriptors, no longer than
    the caller's array ([n_iov]) and than [VQ_MAX_DESCRIPTORS] (512); it then hands
    out that chain, in order, with its head, and consumes it.  A longer chain is refused with
    -1, contrary to the comment above the function, which says that its length is still returned. *)
Theorem getchain_refines s caps v b n_iov g :
  vq_getchain s caps v b n_iov = Ret g /\ 0 < gc_ret g <->
  exists n head ds,
    pending s v = Ret n /\ 0 < n <= qsize v /\
    avail_ring s v (Z.land (last_avail v) (qsize v - 1)) = Ret head /\
    chain s caps v head ds /\ Forall (mapped s) ds /\
    Z.of_nat (length ds) <= VQ_MAX_DESCRIPTORS /\ Z.of_nat (length ds) <= n_iov /\
    g = mkGet (Z.of_nat (length ds)) (v <| last_avail ::= fun x => u16 (x + 1) |>)
          (Some head) (record_all b 0 ds).
Proof.
  split.
  - intros [H Hr]. by apply getchain_positive.
  - intros (n & head & ds & Hn & [Hn0 Hnq] & Hh & Hc & Hall & Hm & Hi & ->).
    pose proof (chain_nonempty _ _ _ _ _ Hc). split; [|simpl; lia].
    rewrite (vq_getchain_unfold _ _ _ _ _ _ Hn).
    destruct (Z.eqb_spec n 0); [lia|]. destruct (Z.ltb_spec (qsize v) n); [lia|].
    rewrite Hh. simpl. rewrite (chain_loop_complete _ _ _ _ _ ds); [done| |done|done| |lia|lia].
    + by eapply chain_ext; [| |exact Hc].
    + pose proof (walk_fuel_enough 0 ltac:(by vm_compute)). lia.
Qed.

(** A chain longer than the caller's array is refused: the call returns
    -1, it does not go on counting descriptors past the array. *)
Theorem getchain_iov_overflow s caps v b n_iov n head ds g :
  pending s v = Ret n -> avail_ring s v (Z.land (last_avail v) (qsize v - 1)) = Ret head ->
  0 < n <= qsize v -> chain s caps v head ds -> n_iov < Z.of_nat (length ds) ->
  vq_getchain s caps v b n_iov = Ret g -> gc_ret g = -1.
Proof.
  intros Hn Hh Hq Hc Hlen H. destruct (decide (0 < gc_ret g)) as [Hp|Hp].
  - destruct (getchain_positive _ _ _ _ _ _ H Hp)
      as (n' & head' & ds' & Hn' & _ & Hh' & Hc' & _ & _ & Hi & _).
    det_ret. rewrite (chain_det _ _ _ _ _ _ Hc Hc') in Hlen. lia.
  - rewrite (vq_getchain_unfold _ _ _ _ _ _ Hn) in H.
    destruct (Z.eqb_spec n 0); [lia|]. destruct (Z.ltb_spec (qsize v) n); [lia|].
    rewrite Hh in H. simpl in H.
    destruct (chain_loop _ _ _ _ _ _ _ _) as [[r b']|] eqn:E; simpl in H; [|done].
    inv_ret. simpl in *. destruct (decide (r < 0)) as [Hneg|].
    { by eapply chain_loop_neg; [|exact E|]. }
    apply chain_loop_sound in E as (ds' & Hc' & _ & -> & _); [|done|lia].
    apply chain_nonempty in Hc'. lia.
Qed.

(** Giving the chain back undoes the fetch: after [vq_retchain] the queue
    is what it was, so the next [vq_getchain] sees the same chain. *)
Theorem retchain_undoes_getchain s caps v b n_iov g :
  fits 16 (last_avail v) -> vq_getchain s caps v b n_iov = Ret g -> gc_idx g <> None ->
  vq_retchain (gc_vq g) = v.
Proof.
  intros Hf H Hi. destruct (vq_getchain_pending _ _ _ _ _ _ H) as (n & Hn & _).
  rewrite (vq_getchain_unfold _ _ _ _ _ _ Hn) in H.
  destruct (n =? 0); [inv_ret; done|]. destruct (qsize v <? n); [inv_ret; done|].
  destruct (avail_ring _ _ _); simpl in H; [|done].
  destruct (chain_loop _ _ _ _ _ _ _ _) as [[r b']|]; simpl in H; [|done].
  inv_ret. destruct v. unfold vq_retchain, field_upd. simpl in *. f_equal. wrap_lia.
Qed.

(** C18. [vq_relchain] publishes exactly one used element: the slot of the old
    index (modulo the queue size) holds the chain's head and the written
    length, the index is one further modulo 2^16, and no byte outside the
    index and the ring changes. *)
Theorem relchain_publishes s v idx iolen k uidx s' :
  0 <= k <= 15 -> qsize v = 2 ^ k -> fits 16 idx -> fits 32 iolen ->
  used_idx s v = Ret uidx -> vq_relchain s v idx iolen = Ret s' ->
  exists u, used v = Some u /\
    let slot := u + 4 + 8 * (uidx mod qsize v) in
    used_idx s' v = Ret (u16 (uidx + 1)) /\
    ld_le s' slot 4 = Ret idx /\ ld_le s' (slot + 4) 4 = Ret iolen /\
    same_outside s s' (u + 2) (2 + 8 * qsize v).
Proof.
  intros Hk Hq Hidx Hlen Hu H. unfold used_idx, vq_relchain in *.
  destruct (used v) as [u|] eqn:Hused; simpl in *; [|done].
  exists u. split; [done|]. rewrite Hu in H. simpl in H.
  assert (Hmask : Z.land uidx (u16 (qsize v - 1)) = uidx mod qsize v).
  { assert (2 ^ k <= 2 ^ 15) by (apply Z.pow_le_mono_r; lia).
    pose proof (pow2_pos k ltac:(lia)). change (2 ^ 15) with 32768 in *.
    replace (u16 (qsize v - 1)) with (Z.ones k);
      [|rewrite Z.ones_equiv, Hq; symmetry; apply wrap_small; unfold fits; simpl; lia].
    rewrite Hq, Z.land_ones by lia. done. }
  rewrite Hmask in H. pose proof (pow2_pos k ltac:(lia)) as Hpos.
  pose proof (Z.mod_pos_bound uidx (qsize v) ltac:(lia)) as Hm.
  set (p := u + 4 + 8 * (uidx mod qsize v)) in *.
  destruct (st_le s p 4 idx) as [s1|] eqn:E1; simpl in H; [|done].
  destruct (st_le s1 (p + 4) 4 iolen) as [s2|] eqn:E2; simpl in H; [|done].
  split_and!.
  - rewrite (ld_st_le_same _ _ _ _ _ H). unfold u16. by rewrite wrap_wrap by lia.
  - rewrite (ld_st_le_disjoint _ _ _ _ _ p 4 H) by lia.
    rewrite (ld_st_le_disjoint _ _ _ _ _ p 4 E2) by lia.
    rewrite (ld_st_le_same _ _ _ _ _ E1). f_equal. exact (wrap_small 32 idx (fits_mono 16 32 idx ltac:(lia) Hidx)).
  - rewrite (ld_st_le_disjoint _ _ _ _ _ (p + 4) 4 H) by lia.
    rewrite (ld_st_le_same _ _ _ _ _ E2). f_equal. exact (wrap_small 32 iolen Hlen).
  - apply st_bytes_same_outside in E1, E2, H. rewrite length_le_encode in *.
    eapply same_outside_trans; [eapply same_outside_mono; [exact E1| |]; lia|].
    eapply same_outside_trans; eapply same_outside_mono; eauto; lia.
Qed.

(** C19. With EVENT_IDX negotiated, and NOTIFY_ON_EMPTY not (no device modelled
    offers it), [vq_endchains] interrupts exactly when the guest's event index lies among the used elements published since the last
    call, whatever the wrap-around of the 16-bit indices. *)
Theorem endchains_event_idx s caps v all ev nw u :
  mem_ok s -> fits 16 (save_used v) -> used v = Some u ->
  Z.testbit caps VIRTIO_F_NOTIFY_ON_EMPTY = false ->
  Z.testbit caps VIRTIO_RING_F_EVENT_IDX = true ->
  VQ_USED_EVENT_IDX s v = Ret ev -> used_idx s v = Ret nw ->
  exists intr, vq_endchains s caps v all = Ret (v <| save_used := nw |>, intr) /\
    (intr = true <-> event_in_window ev nw (save_used v)).
Proof.
  intros Hok Hsv Hu Hne Hev Hevi Hnw. unfold vq_endchains. rewrite Hu, Hnw, Hne, Hev.
  rewrite andb_false_r. cbn [mbind outcome_bind].
  replace (VQ_USED_EVENT_IDX s (v <| save_used := nw |>)) with (VQ_USED_EVENT_IDX s v) by done.
  rewrite Hevi. cbn [mbind outcome_bind]. eexists. split; [done|].
  rewrite Z.ltb_lt. symmetry. apply event_in_window_iff; [| |done].
  - unfold VQ_USED_EVENT_IDX, avail_ring in Hevi.
    destruct (avail v); simpl in Hevi; [|done]. by apply (ld_le_fits _ _ 2 _ Hok Hevi).
  - unfold used_idx in Hnw. rewrite Hu in Hnw. by apply (ld_le_fits _ _ 2 _ Hok Hnw).
Qed.

(** No interrupt is lost or doubled by splitting the work: if the used
    index moves from [old] through [mid] to [new] within one lap, the event
    lies in the whole window exactly when it lies in one, and only one, of the
    two parts. *)
Theorem event_window_split ev old mid new :
  fits 16 ev -> fits 16 old -> fits 16 mid -> fits 16 new ->
  u16 (mid - old) <= u16 (new - old) ->
  (event_in_window ev new old <-> event_in_window ev mid old \/ event_in_window ev new mid) /\
  ~ (event_in_window ev mid old /\ event_in_window ev new mid).
Proof.
  intros. rewrite !event_in_window_iff by done. split; [split|]; wrap_lia.
Qed.

(** The guard of the bottom halves is sound: when [vq_has_descs] holds,
    [vq_getchain] does not report an empty queue, nor one overrun by the
    guest: it fetches a head. *)
Theorem has_descs_getchain s caps v b n_iov g :
  fits 16 (last_avail v) -> mem_ok s ->
  vq_has_descs s v = Ret true -> vq_getchain s caps v b n_iov = Ret g ->
  gc_ret g <> 0 /\ gc_idx g <> None.
Proof.
  intros Hf Hok Hh H. unfold vq_has_descs in Hh. destruct (vq_ring_ready v); [|done].
  destruct (avail_idx s v) as [aidx|] eqn:Ha; simpl in Hh; [|done].
  assert (fits 16 aidx) as Hfa.
  { unfold avail_idx in Ha. destruct (avail v); simpl in Ha; [|done].
    by apply (ld_le_fits _ _ 2 _ Hok Ha). }
  destruct (Z.eqb_spec (last_avail v) aidx) as [|Hne]; [done|].
  destruct (Z.ltb_spec (qsize v) (u16 (aidx - last_avail v))); [done|].
  assert (Hp : pending s v = Ret (u16 (aidx - last_avail v))).
  { unfold pending. by rewrite Ha. }
  rewrite (vq_getchain_unfold _ _ _ _ _ _ Hp) in H.
  destruct (Z.eqb_spec (u16 (aidx - last_avail v)) 0); [wrap_lia|].
  destruct (Z.ltb_spec (qsize v) (u16 (aidx - last_avail v))); [lia|].
  destruct (avail_ring _ _ _); simpl in H; [|done].
  destruct (chain_loop _ _ _ _ _ _ _ _) as [[r b']|] eqn:E; simpl in H; [|done].
  inv_ret. simpl. split; [|done]. intros ->.
  apply chain_loop_sound in E as (ds & Hc & _ & Hl & _); [|done|done].
  apply chain_nonempty in Hc. lia.
Qed.

(** ** A concrete ring

    Four descriptors at 256, the available ring at 512, the used ring at 768.
    The one pending chain is a direct buffer followed by an indirect table of
    two buffers. *)
Module Demo.
Definition desc_bytes (d : vring_desc) : list Z :=
  le_encode 8 (d_addr d) ++ le_encode 4 (d_len d) ++
  le_encode 2 (d_flags d) ++ le_encode 2 (d_next d).
Definition place (m : gmap Z Z) (p : Z * list Z) : gmap Z Z := mem_write m p.1 p.2.

Definition d0 := mkDesc 1024 64 VRING_DESC_F_NEXT 1.
Definition d1 := mkDesc 1536 32 VRING_DESC_F_INDIRECT 0.
Definition t0 := mkDesc 2048 16 VRING_DESC_F_NEXT 1.
Definition t1 := mkDesc 3072 8 VRING_DESC_F_WRITE 0.
Definition memory : gmap Z Z := fold_left place
  [(256, desc_bytes d0); (272, desc_bytes d1);
   (1536, desc_bytes t0); (1552, desc_bytes t1);
   (514, le_encode 2 1); (516, le_encode 2 0); (524, le_encode 2 0)] ∅.
Definition shm : shmem_info := mkShmem 5 4096 0 1 8 memory [].
Definition vq : virtio_vq_info :=
  mkVq 4 None 0 VQ_ALLOC 0 0 0 0 (Some 256) (Some 512) (Some 768) 256 0 512 0 768 0 true.
Definition caps : Z := Z.shiftl 1 VIRTIO_RING_F_INDIRECT_DESC.
Definition buf (n : nat) : chain_buf := mkBuf (replicate n None) None.
Definition iov (n : nat) (l : list vring_desc) : list (option iovec) :=
  map (fun d => Some (mkIovec (Some (d_addr d)) (d_len d))) l ++ replicate n None.
Definition vq' : virtio_vq_info := vq <| last_avail := 1 |>.

(** The same ring with a descriptor whose buffer runs past the mapping. *)
Definition shm_long : shmem_info :=
  shm <| mem ::= fun m => place m (256, desc_bytes (mkDesc 4090 64 0 0)) |>.
(** A ring whose first descriptor continues at itself. *)
Definition shm_cycle : shmem_info :=
  shm <| mem ::= fun m => place m (256, desc_bytes (mkDesc 1024 64 VRING_DESC_F_NEXT 0)) |>.

(** The memory after a chain of 24 written bytes was released. *)
Definition published : shmem_info :=
  match vq_relchain shm vq 0 24 with Ret s => s | Stop _ => shm end.

Lemma memory_ok : mem_ok shm.
Proof. apply mem_okb_ok. by vm_compute. Qed.
Lemma zero_fits16 : fits 16 0.
Proof. split; [discriminate|reflexivity]. Qed.
Lemma len_fits32 : fits 32 24.
Proof. split; [discriminate|reflexivity]. Qed.
Lemma used_zero : used_idx shm vq = Ret 0.
Proof. vm_compute. reflexivity. Qed.
Lemma event_zero : VQ_USED_EVENT_IDX shm (vq <| save_used := 65535 |>) = Ret 0.
Proof. vm_compute. reflexivity. Qed.
End Demo.

(** The pending chain is flattened into the array, in order. *)
Example demo_getchain :
  vq_getchain Demo.shm Demo.caps Demo.vq (Demo.buf 4) 4 =
    Ret (mkGet 3 Demo.vq' (Some 0) (mkBuf (Demo.iov 1 [Demo.d0; Demo.t0; Demo.t1]) None)).
Proof. by vm_compute. Qed.

(** A cyclic chain is abandoned after 512 descriptors. *)
Example demo_cycle :
  (g ← vq_getchain Demo.shm_cycle Demo.caps Demo.vq (Demo.buf 513) 513; Ret (gc_ret g)) = Ret (-1).
Proof. by vm_compute. Qed.

(** A recorded buffer need not lie inside the mapping: only its first byte is
    checked, since [paddr_guest2host] ignores the length. *)
Example demo_long_buffer :
  exists g io, vq_getchain Demo.shm_long Demo.caps Demo.vq (Demo.buf 4) 4 = Ret g /\
    gc_ret g = 1 /\ cb_iov (gc_buf g) !! 0%nat = Some (Some io) /\
    iov_base io = Some 4090 /\ mem_size Demo.shm_long < 4090 + iov_len io.
Proof. do 2 eexists. split; [by vm_compute|]. by vm_compute. Qed.

(** ** Witnesses *)

Lemma getchain_terminates_witness :
  let v := Demo.vq <| avail := None |> in
  vq_getchain Demo.shm 0 v (Demo.buf 4) 4 = Stop NullDeref /\
  (NullDeref = OobAccess \/ NullDeref = NullDeref).
Proof.
  assert (H : vq_getchain Demo.shm 0 (Demo.vq <| avail := None |>) (Demo.buf 4) 4 = Stop NullDeref)
    by (vm_compute; reflexivity).
  split; [exact H|].
  exact (getchain_terminates Demo.shm 0 (Demo.vq <| avail := None |>) (Demo.buf 4) 4 NullDeref H).
Defined.

Lemma demo_chain : chain Demo.shm Demo.caps Demo.vq 0 [Demo.d0; Demo.t0; Demo.t1].
Proof.
  apply (chain_next _ _ _ 0 Demo.d0 [Demo.d0] [Demo.t0; Demo.t1]); try by vm_compute.
  { by apply slot_direct. }
  apply (chain_last _ _ _ 1 Demo.d1); try by vm_compute.
  apply (slot_indirect _ _ Demo.d1 1536 2); [done|by vm_compute|].
  apply (ic_next _ _ _ 0 Demo.t0 [Demo.t1]); try by vm_compute.
  by apply ic_last; vm_compute.
Qed.

Lemma getchain_iov_overflow_witness :
  exists g, vq_getchain Demo.shm Demo.caps Demo.vq (Demo.buf 2) 2 = Ret g /\ gc_ret g = -1.
Proof.
  eexists. split; [vm_compute; reflexivity|].
  apply (getchain_iov_overflow Demo.shm Demo.caps Demo.vq (Demo.buf 2) 2 1 0
    [Demo.d0; Demo.t0; Demo.t1]); try (vm_compute; reflexivity).
  - vm_compute. split; [reflexivity|discriminate].
  - exact demo_chain.
Defined.

Lemma retchain_undoes_getchain_witness : vq_retchain Demo.vq' = Demo.vq.
Proof.
  apply (retchain_undoes_getchain Demo.shm Demo.caps Demo.vq (Demo.buf 4) 4
    (mkGet 3 Demo.vq' (Some 0) (mkBuf (Demo.iov 1 [Demo.d0; Demo.t0; Demo.t1]) None))).
  - vm_compute. split; [discriminate|reflexivity].
  - vm_compute. reflexivity.
  - discriminate.
Defined.

Lemma relchain_publishes_witness :
  exists s', vq_relchain Demo.shm Demo.vq 0 24 = Ret s' /\
    used_idx s' Demo.vq = Ret 1 /\ same_outside Demo.shm s' 770 34.
Proof.
  exists Demo.published.
  assert (Hr : vq_relchain Demo.shm Demo.vq 0 24 = Ret Demo.published) by (vm_compute; reflexivity).
  split; [exact Hr|].
  destruct (relchain_publishes Demo.shm Demo.vq 0 24 2 0 Demo.published ltac:(lia) eq_refl
    Demo.zero_fits16 Demo.len_fits32 Demo.used_zero Hr)
    as (u & Hu & Hi & _ & _ & Hf).
  assert (Hu' : used Demo.vq = Some 768) by reflexivity.
  rewrite Hu' in Hu. injection Hu as <-. split; [exact Hi|exact Hf].
Defined.

Lemma endchains_event_idx_witness :
  exists intr, vq_endchains Demo.shm (Z.shiftl 1 VIRTIO_RING_F_EVENT_IDX)
      (Demo.vq <| save_used := 65535 |>) true = Ret (Demo.vq, intr) /\
    (intr = true <-> event_in_window 0 0 65535).
Proof.
  destruct (endchains_event_idx Demo.shm (Z.shiftl 1 VIRTIO_RING_F_EVENT_IDX)
    (Demo.vq <| save_used := 65535 |>) true 0 0 768 Demo.memory_ok
    ltac:(split; [discriminate|reflexivity]) eq_refl eq_refl eq_refl Demo.event_zero Demo.used_zero)
    as (intr & H & Hw).
  - exists intr. split; [exact H|exact Hw].
Defined.

Lemma event_window_split_witness :
  (event_in_window 1 3 65534 <-> event_in_window 1 0 65534 \/ event_in_window 1 3 0) /\
  ~ (event_in_window 1 0 65534 /\ event_in_window 1 3 0).
Proof.
  apply (event_window_split 1 65534 0 3); vm_compute; try split; discriminate || reflexivity.
Defined.

Lemma has_descs_getchain_witness :
  exists g, vq_getchain Demo.shm Demo.caps Demo.vq (Demo.buf 4) 4 = Ret g /\
    gc_ret g <> 0 /\ gc_idx g <> None.
Proof.
  eexists. split; [vm_compute; reflexivity|].
  apply (has_descs_getchain Demo.shm Demo.caps Demo.vq (Demo.buf 4) 4).
  - vm_compute. split; [discriminate|reflexivity].
  - exact Demo.memory_ok.
  - vm_compute. reflexivity.
  - vm_compute. reflexivity.
Defined.
