(* ===== verification/VirtioCore.v ===== *)
(** * The virtio device core

    The configuration half of [src/virtio.c] and [src/devicemodel/include/virtio.h]:
    [struct virtio_base], device reset, the modern common-configuration
    registers, queue enabling, the ISR and device-specific regions, queue
    notification and interrupts.  A concrete device is a client of this file
    through the class [VirtioDev], the image of [struct virtio_ops]; what it
    must guarantee is the class [VirtioDevLaws]. *)
From S2P Require Import Prelude Shmem VirtQueue.

(** ** Data *)

(** Register offsets of [struct virtio_pci_common_cfg], [linux/virtio_pci.h]. *)
Definition VIRTIO_PCI_COMMON_DFSELECT := 0.
Definition VIRTIO_PCI_COMMON_DF := 4.
Definition VIRTIO_PCI_COMMON_GFSELECT := 8.
Definition VIRTIO_PCI_COMMON_GF := 12.
Definition VIRTIO_PCI_COMMON_MSIX := 16.
Definition VIRTIO_PCI_COMMON_NUMQ := 18.
Definition VIRTIO_PCI_COMMON_STATUS := 20.
Definition VIRTIO_PCI_COMMON_CFGGENERATION := 21.
Definition VIRTIO_PCI_COMMON_Q_SELECT := 22.
Definition VIRTIO_PCI_COMMON_Q_SIZE := 24.
Definition VIRTIO_PCI_COMMON_Q_MSIX := 26.
Definition VIRTIO_PCI_COMMON_Q_ENABLE := 28.
Definition VIRTIO_PCI_COMMON_Q_NOFF := 30.
Definition VIRTIO_PCI_COMMON_Q_DESCLO := 32.
Definition VIRTIO_PCI_COMMON_Q_DESCHI := 36.
Definition VIRTIO_PCI_COMMON_Q_AVAILLO := 40.
Definition VIRTIO_PCI_COMMON_Q_AVAILHI := 44.
Definition VIRTIO_PCI_COMMON_Q_USEDLO := 48.
Definition VIRTIO_PCI_COMMON_Q_USEDHI := 52.

Definition VIRTIO_CONFIG_S_DRIVER_OK := 4.
Definition VIRTIO_MSI_NO_VECTOR := 0xffff.
Definition VIRTIO_F_VERSION_1 := 32.
Definition VIRTIO_F_ACCESS_PLATFORM := 33.
Definition VIRTIO_USE_MSIX := 1.
Definition VIRTIO_PCI_ISR_QUEUES := 1.
Definition VIRTIO_PCI_ISR_CONFIG := 2.
Definition VIRTIO_MODERN_NOTIFY_OFF_MULT := 4.

(** What the core uses of [struct pci_vdev]. *)
Record pci_vdev := mkPci { msix_enabled : bool; msi_enabled : bool }.
#[export] Instance pci_vdev_eta : Settable pci_vdev := fun p =>
  mkPci (msix_enabled p) (msi_enabled p).

(** [struct virtio_base].  The mutex, the iothread, the BAR indices and the
    polling timer are not used by this transport. *)
Record virtio_base := mkBase {
  b_flags : Z;
  dev : pci_vdev;
  negotiated_caps : Z;
  device_caps : Z;
  queues : list virtio_vq_info;
  curq : Z;
  status : Z;
  isr : Z;
  msix_cfg_idx : Z;
  config_generation : Z;
  device_feature_select : Z;
  driver_feature_select : Z;
  backend_type : Z;
  polling_in_progress : Z
}.
#[export] Instance virtio_base_eta : Settable virtio_base := fun b =>
  mkBase (b_flags b) (dev b) (negotiated_caps b) (device_caps b) (queues b) (curq b)
    (status b) (isr b) (msix_cfg_idx b) (config_generation b)
    (device_feature_select b) (driver_feature_select b) (backend_type b)
    (polling_in_progress b).

(** [struct virtio_ops] with the device it belongs to.  [D] is the device
    struct ([DEV_STRUCT(base)]) together with the mapping it is linked to
    ([base->dev->vmctx]); an absent callback is [None].  [dev_notify] is the
    table of the queues' own callbacks.  [dev_cfgwrite_pci] is what the body of
    the [cfgwrite] callback does when it is handed a pointer to the
    [struct pci_vdev] and not to the device. *)
Class VirtioDev (D : Type) := {
  vbase : D -> virtio_base;
  set_vbase : virtio_base -> D -> D;
  vmctx : D -> shmem_info;
  set_vmctx : shmem_info -> D -> D;
  nvq : Z;
  cfgsize : Z;
  dev_reset : option (M D unit);
  dev_qnotify : option (Z -> M D unit);
  dev_cfgread : option (Z -> Z -> D -> outcome (Z * list Z));
  dev_cfgwrite : option (Z -> Z -> Z -> M D Z);
  dev_cfgwrite_pci : Z -> Z -> Z -> M D Z;
  dev_apply_features : option (Z -> M D unit);
  dev_set_status : option (Z -> M D unit);
  dev_notify : nat -> Z -> M D unit
}.

(** ** Operations on the base alone *)

(** [pci_lintr_assert], [pci_lintr_deassert] and [pci_generate_msi] of
    [dm_stubs.c] end the process. *)
Definition pci_lintr_deassert {A} : outcome A := Stop ProcessExit.
Definition pci_generate_msi {A} : outcome A := Stop ProcessExit.

Definition pci_msix_enabled (d : pci_vdev) : bool := msix_enabled d && negb (msi_enabled d).

Definition virtio_reset_vq (vq : virtio_vq_info) : virtio_vq_info :=
  vq <| flags := 0 |> <| last_avail := 0 |> <| save_used := 0 |> <| pfn := 0 |>
     <| msix_idx := VIRTIO_MSI_NO_VECTOR |>
     <| gpa_desc0 := 0 |> <| gpa_desc1 := 0 |>
     <| gpa_avail0 := 0 |> <| gpa_avail1 := 0 |>
     <| gpa_used0 := 0 |> <| gpa_used1 := 0 |>
     <| enabled := false |>.

Definition virtio_reset_dev (base : virtio_base) : outcome virtio_base :=
  let base := base <| polling_in_progress := 0 |>
                   <| queues ::= map virtio_reset_vq |>
                   <| negotiated_caps := 0 |> <| curq := 0 |> in
  _ ← (if z2b (isr base) then pci_lintr_deassert else Ret tt);
  Ret (base <| isr := 0 |> <| msix_cfg_idx := VIRTIO_MSI_NO_VECTOR |>
            <| device_feature_select := 0 |> <| driver_feature_select := 0 |>
            <| config_generation := 0 |>).

(** [virtio_linkup]; [same_addr] is the code's check that the base is at the
    front of the device struct. *)
Definition virtio_linkup (base : virtio_base) (same_addr : bool) (d : pci_vdev)
    (qs : list virtio_vq_info) (btype : Z) : virtio_base :=
  if same_addr then
    base <| dev := d |> <| backend_type := btype |>
         <| queues := imap (fun i q => q <| num := Z.of_nat i |>) qs |>
  else base.

Definition virtio_intr_init (base : virtio_base) : outcome virtio_base :=
  virtio_reset_dev (base <| b_flags ::= fun f => Z.lor f VIRTIO_USE_MSIX |>).

Definition virtio_set_modern_bar (base : virtio_base) : Z :=
  if Z.testbit (device_caps base) VIRTIO_F_VERSION_1 then 0 else -1.

(** [virtio_vq_enable] on the selected queue: the three rings are located one
    after the other, and the queue is marked only when all three were. *)
Definition vq_enable (s : shmem_info) (vq : virtio_vq_info) : virtio_vq_info :=
  let qsz := qsize vq in
  let ring gpa1 gpa0 size := paddr_guest2host s (Z.lor (Z.shiftl gpa1 32) gpa0) size in
  match ring (gpa_desc1 vq) (gpa_desc0 vq) (qsz * 16) with
  | None => vq <| flags := 0 |>
  | Some vb =>
    let vq := vq <| desc := Some vb |> in
    match ring (gpa_avail1 vq) (gpa_avail0 vq) ((2 + qsz + 1) * 2) with
    | None => vq <| flags := 0 |>
    | Some vb =>
      let vq := vq <| avail := Some vb |> in
      match ring (gpa_used1 vq) (gpa_used0 vq) (2 * 3 + 8 * qsz) with
      | None => vq <| flags := 0 |>
      | Some vb =>
        vq <| used := Some vb |> <| last_avail := 0 |> <| save_used := 0 |>
           <| enabled := true |> <| flags := VQ_ALLOC |>
      end
    end
  end.

(** ** The register table *)

Record config_reg := mkReg { cr_offset : Z; cr_size : Z; cr_ro : bool }.

Definition modern_config_regs : list config_reg :=
  [ mkReg VIRTIO_PCI_COMMON_DFSELECT 4 false;
    mkReg VIRTIO_PCI_COMMON_DF 4 true;
    mkReg VIRTIO_PCI_COMMON_GFSELECT 4 false;
    mkReg VIRTIO_PCI_COMMON_GF 4 false;
    mkReg VIRTIO_PCI_COMMON_MSIX 2 false;
    mkReg VIRTIO_PCI_COMMON_NUMQ 2 true;
    mkReg VIRTIO_PCI_COMMON_STATUS 1 false;
    mkReg VIRTIO_PCI_COMMON_CFGGENERATION 1 true;
    mkReg VIRTIO_PCI_COMMON_Q_SELECT 2 false;
    mkReg VIRTIO_PCI_COMMON_Q_SIZE 2 false;
    mkReg VIRTIO_PCI_COMMON_Q_MSIX 2 false;
    mkReg VIRTIO_PCI_COMMON_Q_ENABLE 2 false;
    mkReg VIRTIO_PCI_COMMON_Q_NOFF 2 true;
    mkReg VIRTIO_PCI_COMMON_Q_DESCLO 4 false;
    mkReg VIRTIO_PCI_COMMON_Q_DESCHI 4 false;
    mkReg VIRTIO_PCI_COMMON_Q_AVAILLO 4 false;
    mkReg VIRTIO_PCI_COMMON_Q_AVAILHI 4 false;
    mkReg VIRTIO_PCI_COMMON_Q_USEDLO 4 false;
    mkReg VIRTIO_PCI_COMMON_Q_USEDHI 4 false ].

(** The loop of [virtio_find_cr]; [lo], [hi] and [mid] are unsigned ints. *)
Fixpoint find_cr_loop (fuel : nat) (tbl : list config_reg) (lo hi off : Z)
  : outcome (option config_reg) :=
  match fuel with
  | O => Stop OutOfFuel
  | S fuel' =>
    if lo <=? hi then
      let mid := Z.shiftr (u32 (hi + lo)) 1 in
      match nthZ tbl mid with
      | None => Stop OobAccess
      | Some cr =>
        if cr_offset cr =? off then Ret (Some cr)
        else if cr_offset cr <? off then find_cr_loop fuel' tbl (u32 (mid + 1)) hi off
        else find_cr_loop fuel' tbl lo (u32 (mid - 1)) off
      end
    else Ret None
  end.

Definition virtio_find_cr (tbl : list config_reg) (off : Z) : outcome (option config_reg) :=
  find_cr_loop (S (length tbl)) tbl 0 (u32 (Z.of_nat (length tbl) - 1)) off.

(** The argument is an [int]. *)
Definition virtio_find_modern_cr (off : Z) : outcome (option config_reg) :=
  virtio_find_cr modern_config_regs (s32 off).

(** All ones of the access size. *)
Definition bad_value (sz : Z) : Z :=
  if sz =? 1 then 0xff else if sz =? 2 then 0xffff else 0xffffffff.

(** The specification of the search: a linear scan. *)
Definition lookup_reg (tbl : list config_reg) (off : Z) : option config_reg :=
  find (fun cr => cr_offset cr =? off) tbl.

(** ** Operations on a device *)
Section Device.
Context {D : Type} `{!VirtioDev D}.

Definition upd_base (f : virtio_base -> virtio_base) : M D unit :=
  modify (fun d => set_vbase (f (vbase d)) d).
Definition get_base : M D virtio_base := fun d => Ret (vbase d, d).

(** The register of queue [curq], or [dflt] when no such queue exists. *)
Definition curq_reg (b : virtio_base) (f : virtio_vq_info -> Z) (dflt : Z) : outcome Z :=
  if curq b <? nvq then
    match nthZ (queues b) (curq b) with Some q => Ret (f q) | None => Stop OobAccess end
  else Ret dflt.

Definition common_cfg_value (b : virtio_base) (off : Z) (dflt : Z) : outcome Z :=
  switch off
    [ ([VIRTIO_PCI_COMMON_DFSELECT], Ret (device_feature_select b));
      ([VIRTIO_PCI_COMMON_DF], Ret (
        if device_feature_select b =? 0 then Z.land (device_caps b) 0xffffffff
        else if device_feature_select b =? 1
             then Z.land (Z.shiftr (device_caps b) 32) 0xffffffff
        else 0));
      ([VIRTIO_PCI_COMMON_GFSELECT], Ret (driver_feature_select b));
      ([VIRTIO_PCI_COMMON_GF], Ret (
        if driver_feature_select b =? 0 then Z.land (negotiated_caps b) 0xffffffff
        else if driver_feature_select b =? 1
             then Z.land (Z.shiftr (negotiated_caps b) 32) 0xffffffff
        else 0));
      ([VIRTIO_PCI_COMMON_MSIX], Ret (msix_cfg_idx b));
      ([VIRTIO_PCI_COMMON_NUMQ], Ret nvq);
      ([VIRTIO_PCI_COMMON_STATUS], Ret (status b));
      ([VIRTIO_PCI_COMMON_CFGGENERATION], Ret (config_generation b));
      ([VIRTIO_PCI_COMMON_Q_SELECT], Ret (curq b));
      ([VIRTIO_PCI_COMMON_Q_SIZE], curq_reg b qsize 0);
      ([VIRTIO_PCI_COMMON_Q_MSIX], curq_reg b msix_idx VIRTIO_MSI_NO_VECTOR);
      ([VIRTIO_PCI_COMMON_Q_ENABLE], curq_reg b (fun q => b2z (enabled q)) 0);
      ([VIRTIO_PCI_COMMON_Q_NOFF], Ret (curq b));
      ([VIRTIO_PCI_COMMON_Q_DESCLO], curq_reg b gpa_desc0 0);
      ([VIRTIO_PCI_COMMON_Q_DESCHI], curq_reg b gpa_desc1 0);
      ([VIRTIO_PCI_COMMON_Q_AVAILLO], curq_reg b gpa_avail0 0);
      ([VIRTIO_PCI_COMMON_Q_AVAILHI], curq_reg b gpa_avail1 0);
      ([VIRTIO_PCI_COMMON_Q_USEDLO], curq_reg b gpa_used0 0);
      ([VIRTIO_PCI_COMMON_Q_USEDHI], curq_reg b gpa_used1 0) ]
    (Ret dflt).

(** [off] is the [uint64_t] argument, [sz] the access size. *)
Definition virtio_common_cfg_read (d : D) (off sz : Z) : outcome Z :=
  cr ← virtio_find_modern_cr off;
  match cr with
  | None => Ret (bad_value sz)
  | Some cr =>
    if negb (cr_size cr =? sz) then Ret (bad_value sz)
    else v ← common_cfg_value (vbase d) off (bad_value sz); Ret (u32 v)
  end.

(** Store into a field of queue [curq]; nothing when the guest selected a
    queue that does not exist ([bad_qindex]). *)
Definition upd_curq (f : virtio_vq_info -> virtio_vq_info) : M D unit :=
  b ← get_base;
  if nvq <=? curq b then mret tt
  else match nthZ (queues b) (curq b) with
       | None => halt OobAccess
       | Some q => upd_base (fun b => b <| queues ::= fun l => setZ l (curq b) (f q) |>)
       end.

Definition call {A} (cb : option A) (k : A -> M D unit) : M D unit :=
  match cb with Some f => k f | None => mret tt end.

Definition write_guest_features (value : Z) : M D unit :=
  b ← get_base;
  if has (status b) VIRTIO_CONFIG_S_DRIVER_OK then mret tt
  else if driver_feature_select b <? 2 then
    let value := Z.land value 0xffffffff in
    let low := driver_feature_select b =? 0 in
    let features := if low then Z.land (device_caps b) value
                    else Z.land (u64 (Z.shiftl value 32)) (device_caps b) in
    let kept := if low then Z.land (negotiated_caps b) (u64 (Z.lnot 0xffffffff))
                else Z.land (negotiated_caps b) 0xffffffff in
    let caps := Z.lor kept features in
    _ ← upd_base (fun b => b <| negotiated_caps := caps |>);
    call dev_apply_features (fun cb => cb caps)
  else mret tt.

Definition write_status (value : Z) : M D unit :=
  _ ← upd_base (fun b => b <| status := Z.land value 0xff |>);
  _ ← call dev_set_status (fun cb => cb value);
  b ← get_base;
  if status b =? 0 then call dev_reset (fun cb => cb) else mret tt.

Definition virtio_vq_enable : M D unit := fun d =>
  upd_curq (vq_enable (vmctx d)) d.

Definition common_cfg_store (off value : Z) : M D unit :=
  switch off
    [ ([VIRTIO_PCI_COMMON_DFSELECT],
        upd_base (fun b => b <| device_feature_select := u32 value |>));
      ([VIRTIO_PCI_COMMON_GFSELECT],
        upd_base (fun b => b <| driver_feature_select := u32 value |>));
      ([VIRTIO_PCI_COMMON_GF], write_guest_features value);
      ([VIRTIO_PCI_COMMON_MSIX], upd_base (fun b => b <| msix_cfg_idx := u16 value |>));
      ([VIRTIO_PCI_COMMON_STATUS], write_status value);
      ([VIRTIO_PCI_COMMON_Q_SELECT], upd_base (fun b => b <| curq := s32 value |>));
      ([VIRTIO_PCI_COMMON_Q_SIZE], upd_curq (fun q => q <| qsize := u16 value |>));
      ([VIRTIO_PCI_COMMON_Q_MSIX], upd_curq (fun q => q <| msix_idx := u16 value |>));
      ([VIRTIO_PCI_COMMON_Q_ENABLE], virtio_vq_enable);
      ([VIRTIO_PCI_COMMON_Q_DESCLO], upd_curq (fun q => q <| gpa_desc0 := u32 value |>));
      ([VIRTIO_PCI_COMMON_Q_DESCHI], upd_curq (fun q => q <| gpa_desc1 := u32 value |>));
      ([VIRTIO_PCI_COMMON_Q_AVAILLO], upd_curq (fun q => q <| gpa_avail0 := u32 value |>));
      ([VIRTIO_PCI_COMMON_Q_AVAILHI], upd_curq (fun q => q <| gpa_avail1 := u32 value |>));
      ([VIRTIO_PCI_COMMON_Q_USEDLO], upd_curq (fun q => q <| gpa_used0 := u32 value |>));
      ([VIRTIO_PCI_COMMON_Q_USEDHI], upd_curq (fun q => q <| gpa_used1 := u32 value |>)) ]
    (mret tt).

Definition virtio_common_cfg_write (off sz value : Z) : M D unit :=
  cr ← lift (virtio_find_modern_cr off);
  match cr with
  | None => mret tt
  | Some cr =>
    if negb (cr_size cr =? sz) || cr_ro cr then mret tt else common_cfg_store off value
  end.

Definition virtio_isr_cfg_read : M D Z :=
  b ← get_base;
  _ ← upd_base (fun b => b <| isr := 0 |>);
  _ ← (if z2b (isr b) then lift pci_lintr_deassert else mret tt);
  mret (isr b).

Definition cfg_max : Z := if cfgsize =? 0 then 0x100000000 else cfgsize.

(** The device callback fills the [uint32_t value] through a pointer: more
    than four bytes would overrun it. *)
Definition virtio_device_cfg_read (d : D) (off sz : Z) : outcome Z :=
  let value := bad_value sz in
  if cfg_max <? u64 (off + sz) then Ret value
  else match dev_cfgread with
       | None => Ret value
       | Some cfgread =>
         '(error, bytes) ← cfgread (s32 off) sz d;
         if z2b error then Ret value
         else if (4 <? length bytes)%nat then Stop OobAccess
         else Ret (le_decode (splice (le_encode 4 value) 0 bytes))
       end.

Definition virtio_device_cfg_write (off sz value : Z) : M D unit :=
  if cfg_max <? u64 (off + sz) then mret tt
  else match dev_cfgwrite with
       | None => mret tt
       | Some cfgwrite => _ ← cfgwrite (s32 off) sz (u32 value); mret tt
       end.

(** The callback of queue [i]: its own, or the device's. *)
Definition notify_queue (q : virtio_vq_info) (i : Z) : M D unit :=
  match notify q with
  | Some f => dev_notify f i
  | None => call dev_qnotify (fun cb => cb i)
  end.

Definition virtio_notify_cfg_write (off : Z) : M D unit :=
  let idx := off / VIRTIO_MODERN_NOTIFY_OFF_MULT in
  if u64 nvq <=? idx then mret tt
  else b ← get_base;
       match nthZ (queues b) idx with
       | None => halt OobAccess
       | Some q => notify_queue q idx
       end.

(** [virtio_pci_read], [virtio_pci_write]: nothing behind them here. *)
Definition virtio_pci_read (sz : Z) : Z := bad_value sz.
Definition virtio_pci_write : M D unit := mret tt.

(** ** Interrupts *)

Definition lift_shm (f : shmem_info -> outcome shmem_info) : M D unit := fun d =>
  match f (vmctx d) with Ret s => Ret (tt, set_vmctx s d) | Stop e => Stop e end.

Definition vq_interrupt (q : virtio_vq_info) : M D unit :=
  b ← get_base;
  if pci_msix_enabled (dev b) then lift_shm (fun s => pci_generate_msix s (msix_idx q))
  else _ ← upd_base (fun b => b <| isr ::= fun i => Z.lor i VIRTIO_PCI_ISR_QUEUES |>);
       lift pci_generate_msi.

Definition virtio_config_changed : M D unit :=
  b ← get_base;
  if negb (has (status b) VIRTIO_CONFIG_S_DRIVER_OK) then mret tt
  else
    _ ← upd_base (fun b => b <| config_generation ::= fun g => u8 (g + 1) |>);
    if pci_msix_enabled (dev b) then
      _ ← upd_base (fun b => b <| msix_cfg_idx := 0 |>);
      lift_shm (fun s => pci_generate_msix_config s 0)
    else _ ← upd_base (fun b => b <| isr ::= fun i => Z.lor i VIRTIO_PCI_ISR_CONFIG |>);
         lift pci_generate_msi.

(** [vq_endchains] on queue [i], interrupt included. *)
Definition endchains (i : Z) (used_all_avail : bool) : M D unit :=
  d ← get;
  let b := vbase d in
  match nthZ (queues b) i with
  | None => halt OobAccess
  | Some q =>
    '(q', intr) ← lift (vq_endchains (vmctx d) (negotiated_caps b) q used_all_avail);
    _ ← upd_base (fun b => b <| queues ::= fun l => setZ l i q' |>);
    if (intr : bool) then vq_interrupt q' else mret tt
  end.
End Device.

(** ** What a device guarantees to the core *)

(** [dev_inv] is the device's own invariant, on the state outside the base.
    Under it every callback returns and leaves in the base what the core
    expects. *)
Class VirtioDevLaws (D : Type) `{!VirtioDev D} := {
  dev_inv : D -> Prop;
  vbase_set_vbase b d : vbase (set_vbase b d) = b;
  vmctx_set_vbase b d : vmctx (set_vbase b d) = vmctx d;
  vbase_set_vmctx s d : vbase (set_vmctx s d) = vbase d;
  vmctx_set_vmctx s d : vmctx (set_vmctx s d) = s;
  dev_inv_set_vbase b d : dev_inv d -> dev_inv (set_vbase b d);
  dev_inv_set_vmctx s d :
    mem_size s = mem_size (vmctx d) -> dev_inv d -> dev_inv (set_vmctx s d);
  nvq_range : 0 <= nvq < 2 ^ 16;
  apply_features_law cb caps d :
    dev_apply_features = Some cb -> dev_inv d -> exists d', cb caps d = Ret (tt, d') /\
    vbase d' = vbase d <| negotiated_caps := caps |> /\
    mem_size (vmctx d') = mem_size (vmctx d) /\ dev_inv d';
  set_status_law cb st d :
    dev_set_status = Some cb -> dev_inv d -> exists d', cb st d = Ret (tt, d') /\
    vbase d' = vbase d <| status := u8 st |> /\
    mem_size (vmctx d') = mem_size (vmctx d) /\ dev_inv d';
  reset_law cb d :
    dev_reset = Some cb -> dev_inv d -> isr (vbase d) = 0 -> exists d', cb d = Ret (tt, d') /\
    virtio_reset_dev (vbase d) = Ret (vbase d') /\
    mem_size (vmctx d') = mem_size (vmctx d) /\ dev_inv d'
}.

(** ** Well-formedness *)

(** A ready queue has its three rings, each starting inside the mapping. *)
Definition ring_in (s : shmem_info) (p : option Z) : Prop :=
  exists a, p = Some a /\ 0 <= a < mem_size s.

Record vq_ok (s : shmem_info) (q : virtio_vq_info) : Prop := {
  vq_ok_widths : fits 16 (qsize q) /\ fits 16 (msix_idx q) /\
    fits 32 (gpa_desc0 q) /\ fits 32 (gpa_desc1 q) /\ fits 32 (gpa_avail0 q) /\
    fits 32 (gpa_avail1 q) /\ fits 32 (gpa_used0 q) /\ fits 32 (gpa_used1 q) /\
    fits 16 (last_avail q) /\ fits 16 (save_used q);
  vq_ok_rings : vq_ring_ready q = true ->
    ring_in s (desc q) /\ ring_in s (avail q) /\ ring_in s (used q)
}.

(** [a] has no feature bit that [b] lacks. *)
Definition subset_bits (a b : Z) : Prop := Z.land a b = a.

Record base_ok (n : Z) (s : shmem_info) (b : virtio_base) : Prop := {
  bo_len : Z.of_nat (length (queues b)) = n;
  bo_curq : fits 16 (curq b);
  bo_isr : isr b = 0;
  bo_caps : fits 64 (device_caps b);
  bo_neg : subset_bits (negotiated_caps b) (device_caps b);
  bo_widths : fits 32 (device_feature_select b) /\ fits 32 (driver_feature_select b) /\
    fits 8 (status b) /\ fits 16 (msix_cfg_idx b) /\ fits 8 (config_generation b);
  bo_queues : Forall (vq_ok s) (queues b)
}.

Definition dev_ok {D} `{!VirtioDev D} `{!VirtioDevLaws D} (d : D) : Prop :=
  base_ok nvq (vmctx d) (vbase d) /\ dev_inv d.

(** ** Register search *)

Definition sorted_regs (tbl : list config_reg) : Prop :=
  forall i j a b, (i < j)%nat -> tbl !! i = Some a -> tbl !! j = Some b ->
  cr_offset a < cr_offset b.

Lemma lookup_reg_none tbl off :
  (forall i cr, tbl !! i = Some cr -> cr_offset cr <> off) -> lookup_reg tbl off = None.
Proof.
  unfold lookup_reg. induction tbl as [|c tbl IH]; intros H; simpl; [done|].
  destruct (Z.eqb_spec (cr_offset c) off) as [E|]; [by apply (H 0%nat c) in E|].
  apply IH. intros i cr Hi. by apply (H (S i) cr).
Qed.

Lemma lookup_reg_some tbl off i cr :
  sorted_regs tbl -> tbl !! i = Some cr -> cr_offset cr = off -> lookup_reg tbl off = Some cr.
Proof.
  unfold lookup_reg. revert i. induction tbl as [|c tbl IH]; intros i Hs Hi Ho; [done|].
  simpl. destruct i as [|i]; simpl in Hi.
  - simplify_eq. by rewrite Z.eqb_refl.
  - pose proof (Hs 0%nat (S i) c cr ltac:(lia) eq_refl Hi).
    destruct (Z.eqb_spec (cr_offset c) off); [lia|]. apply (IH i); [|done|done].
    intros a b x y Hab Ha Hb. by apply (Hs (S a) (S b) x y); [lia| |].
Qed.

Lemma setZ_alter {A} (f : A -> A) (l : list A) i x :
  nthZ l i = Some x -> setZ l i (f x) = alter f (Z.to_nat i) l.
Proof.
  unfold nthZ, setZ. destruct (0 <=? i); [|done]. intros Hx. apply list_eq. intros j.
  destruct (decide (j = Z.to_nat i)) as [->|Hj].
  - rewrite list_lookup_alter, Hx, decide_True by done.
    apply list_lookup_insert_eq. by eapply lookup_lt_Some.
  - by rewrite list_lookup_insert_ne, list_lookup_alter, decide_False by done.
Qed.

Lemma find_cr_loop_correct fuel tbl lo hi off :
  sorted_regs tbl -> Z.of_nat (length tbl) < 2 ^ 31 ->
  (forall c, tbl !! 0%nat = Some c -> cr_offset c <= off) ->
  0 <= lo <= hi + 1 -> -1 <= hi < Z.of_nat (length tbl) -> 0 <= hi ->
  hi + 1 - lo < Z.of_nat fuel ->
  (forall i c, tbl !! i = Some c -> Z.of_nat i < lo -> cr_offset c < off) ->
  (forall i c, tbl !! i = Some c -> hi < Z.of_nat i -> off < cr_offset c) ->
  find_cr_loop fuel tbl lo hi off = Ret (lookup_reg tbl off).
Proof.
  intros Hs Hlen Hfirst. revert lo hi.
  induction fuel as [|fuel IH]; intros lo hi Hlo Hhi Hhi0 Hf Hbelow Habove; [lia|].
  cbn [find_cr_loop]. change (2 ^ 31) with 2147483648 in Hlen.
  destruct (Z.leb_spec lo hi) as [Hle|Hgt].
  - assert (Hmid : Z.shiftr (u32 (hi + lo)) 1 = (hi + lo) / 2).
    { unfold u32. rewrite wrap_small by (unfold fits; change (2 ^ 32) with 4294967296; lia).
      by rewrite Z.shiftr_div_pow2 by lia. }
    rewrite Hmid. set (mid := (hi + lo) / 2).
    assert (lo <= mid <= hi) as Hm by (subst mid; Z.div_mod_to_equations; lia).
    rewrite nthZ_lookup by lia.
    destruct (lookup_lt_is_Some_2 tbl (Z.to_nat mid) ltac:(lia)) as [cr Hcr]. rewrite Hcr.
    destruct (Z.eqb_spec (cr_offset cr) off) as [E|Hne].
    { symmetry. f_equal. by eapply lookup_reg_some. }
    assert (Hu : forall x, 0 <= x <= 2147483648 -> u32 x = x).
    { intros. apply wrap_small. unfold fits. change (2 ^ 32) with 4294967296. lia. }
    destruct (Z.ltb_spec (cr_offset cr) off) as [Hlt|Hge].
    + rewrite Hu by lia. apply IH; try lia; [|done]. intros i c Hi Hi'.
      destruct (decide (i = Z.to_nat mid)) as [->|]; [congruence|].
      enough (cr_offset c < cr_offset cr) by lia. by apply (Hs i (Z.to_nat mid)); [lia| |].
    + assert (mid <> 0).
      { intros E0. rewrite E0 in Hcr. apply Hfirst in Hcr. lia. }
      rewrite Hu by lia. apply IH; try lia; [done|]. intros i c Hi Hi'.
      destruct (decide (i = Z.to_nat mid)) as [->|]; [simplify_eq; lia|].
      enough (cr_offset cr < cr_offset c) by lia. by apply (Hs (Z.to_nat mid) i); [lia| |].
  - f_equal. symmetry. apply lookup_reg_none. intros i c Hi.
    destruct (Z.lt_ge_cases (Z.of_nat i) lo); [specialize (Hbelow i c Hi); lia|].
    specialize (Habove i c Hi). lia.
Qed.

(** Below every offset of the table the search goes down. *)
Lemma find_cr_down fuel tbl hi off :
  (forall i c, tbl !! i = Some c -> off < cr_offset c) ->
  0 <= hi < Z.of_nat (length tbl) -> Z.of_nat (length tbl) < 2 ^ 31 ->
  find_cr_loop (S fuel) tbl 0 hi off = find_cr_loop fuel tbl 0 (u32 (hi / 2 - 1)) off.
Proof.
  intros Hall Hhi Hlen. cbn [find_cr_loop]. destruct (Z.leb_spec 0 hi); [|lia].
  replace (u32 (hi + 0)) with hi by (symmetry; rewrite Z.add_0_r; apply wrap_small; unfold fits; lia).
  rewrite Z.shiftr_div_pow2 by lia. change (2 ^ 1) with 2.
  assert (0 <= hi / 2 <= hi) by (Z.div_mod_to_equations; lia).
  rewrite nthZ_lookup by lia.
  destruct (lookup_lt_is_Some_2 tbl (Z.to_nat (hi / 2)) ltac:(lia)) as [cr Hcr]. rewrite Hcr.
  specialize (Hall _ _ Hcr).
  destruct (Z.eqb_spec (cr_offset cr) off); [lia|]. by destruct (Z.ltb_spec (cr_offset cr) off); [lia|].
Qed.

Lemma find_cr_oob fuel tbl lo hi off :
  lo <= hi -> Z.of_nat (length tbl) <= Z.shiftr (u32 (hi + lo)) 1 ->
  find_cr_loop (S fuel) tbl lo hi off = Stop OobAccess.
Proof.
  intros Hle Hmid. cbn [find_cr_loop]. destruct (Z.leb_spec lo hi); [|lia].
  rewrite nthZ_lookup by lia. by rewrite lookup_ge_None_2 by lia.
Qed.

Lemma sorted_modern : sorted_regs modern_config_regs.
Proof.
  intros i j a b Hij Ha Hb.
  assert (Hs : forallb (fun p => cr_offset (p.1) <? cr_offset (p.2))
     (concat (imap (fun k x => map (pair x) (drop (S k) modern_config_regs)) modern_config_regs)) = true)
    by by vm_compute.
  rewrite forallb_forall in Hs. specialize (Hs (a, b)). apply Z.ltb_lt, Hs.
  apply list_elem_of_In, list_elem_of_In. apply in_concat.
  exists (map (pair a) (drop (S i) modern_config_regs)). split.
  - apply list_elem_of_In, list_elem_of_lookup. exists i. by rewrite list_lookup_imap, Ha.
  - apply in_map, list_elem_of_In, list_elem_of_lookup. exists (j - S i)%nat.
    rewrite lookup_drop. by replace (S i + (j - S i))%nat with j by lia.
Qed.

(** ** Running the primitives *)

Ltac run := unfold mbind, M_bind, mret, M_ret, upd_base, get_base, modify, lift; cbn beta iota.

Section Laws.
Context {D : Type} `{!VirtioDev D} `{!VirtioDevLaws D}.
Implicit Types (d : D) (b : virtio_base) (q : virtio_vq_info) (s : shmem_info).

Lemma vq_ok_size s s' q : mem_size s' = mem_size s -> vq_ok s q -> vq_ok s' q.
Proof.
  intros E [Hw Hr]. split; [done|]. unfold ring_in in *. by rewrite E.
Qed.

Lemma base_ok_size n s s' b : mem_size s' = mem_size s -> base_ok n s b -> base_ok n s' b.
Proof.
  intros E []. split; try done. eapply Forall_impl; [done|]. intros. by eapply vq_ok_size.
Qed.

Lemma dev_ok_upd (f : virtio_base -> virtio_base) d :
  base_ok nvq (vmctx d) (f (vbase d)) -> dev_inv d -> dev_ok (set_vbase (f (vbase d)) d).
Proof.
  unfold dev_ok. rewrite vbase_set_vbase, vmctx_set_vbase. auto using dev_inv_set_vbase.
Qed.

Lemma subset_bits_0 c : subset_bits 0 c.
Proof. unfold subset_bits. apply Z.land_0_l. Qed.

Lemma virtio_reset_vq_ok s q : vq_ok s q -> vq_ok s (virtio_reset_vq q).
Proof.
  intros [Hw _]. split; [simpl; repeat split; try apply Hw; vm_compute; congruence|].
  by vm_compute.
Qed.

Lemma virtio_reset_dev_ret b :
  isr b = 0 ->
  virtio_reset_dev b = Ret
    (b <| polling_in_progress := 0 |> <| queues ::= map virtio_reset_vq |>
       <| negotiated_caps := 0 |> <| curq := 0 |> <| isr := 0 |>
       <| msix_cfg_idx := VIRTIO_MSI_NO_VECTOR |>
       <| device_feature_select := 0 |> <| driver_feature_select := 0 |>
       <| config_generation := 0 |>).
Proof. intros H. unfold virtio_reset_dev. simpl. by rewrite H. Qed.

Lemma virtio_reset_dev_ok n s b b' :
  base_ok n s b -> virtio_reset_dev b = Ret b' -> base_ok n s b'.
Proof.
  intros Hb. rewrite virtio_reset_dev_ret by apply Hb. intros. inv_ret.
  destruct Hb. split; simpl; try done.
  - by rewrite length_map.
  - repeat split; try apply bo_widths0; by vm_compute.
  - apply Forall_map. eapply Forall_impl; [done|]. intros. by apply virtio_reset_vq_ok.
Qed.

Lemma curq_lookup b : fits 16 (curq b) -> Z.of_nat (length (queues b)) = nvq ->
  curq b < nvq -> exists q, nthZ (queues b) (curq b) = Some q.
Proof.
  intros [H0 _] Hl Hc. rewrite nthZ_lookup by done. apply lookup_lt_is_Some_2. lia.
Qed.

Lemma upd_curq_run f d :
  dev_ok d ->
  upd_curq f d = Ret (tt,
    if nvq <=? curq (vbase d) then d
    else set_vbase (vbase d <| queues ::= alter f (Z.to_nat (curq (vbase d))) |>) d).
Proof.
  intros [[Hl Hc _ _ _ _ _] _]. unfold upd_curq. run.
  destruct (Z.leb_spec nvq (curq (vbase d))) as [|Hlt]; [done|].
  destruct (curq_lookup (vbase d)) as [q Hq]; [done..|]. rewrite Hq. do 3 f_equal.
  unfold field_upd. by rewrite (setZ_alter f _ _ _ Hq).
Qed.

(** [d'] is well formed, over a mapping of the same size. *)
Definition stays (d d' : D) : Prop :=
  dev_ok d' /\ mem_size (vmctx d') = mem_size (vmctx d).

(** [m] returns on [d] and keeps the invariant. *)
Definition keeps_ok (d : D) (m : M D unit) : Prop :=
  exists d', m d = Ret (tt, d') /\ stays d d'.

Lemma stays_refl d : dev_ok d -> stays d d.
Proof. by split. Qed.
Lemma stays_trans d1 d2 d3 : stays d1 d2 -> stays d2 d3 -> stays d1 d3.
Proof. intros [? ?] [? ?]. split; [done|congruence]. Qed.
Lemma stays_ok d d' : stays d d' -> dev_ok d'.
Proof. by intros []. Qed.

Lemma upd_base_ok f d :
  dev_ok d -> base_ok nvq (vmctx d) (f (vbase d)) -> keeps_ok d (upd_base f).
Proof.
  intros [_ Hi] Hb. eexists. split; [done|]. split; [by apply dev_ok_upd|].
  by rewrite vmctx_set_vbase.
Qed.

Lemma upd_curq_ok f d :
  dev_ok d -> (forall q, vq_ok (vmctx d) q -> vq_ok (vmctx d) (f q)) ->
  keeps_ok d (upd_curq f).
Proof.
  intros Hd Hf. eexists. split; [by apply upd_curq_run|].
  destruct (nvq <=? _); [done|]. split; [|by rewrite vmctx_set_vbase]. destruct Hd as [[] Hi].
  apply (dev_ok_upd (fun b => b <| queues ::= alter f (Z.to_nat (curq b)) |>)); [|done].
  split; simpl; try done; [by rewrite length_alter|].
  apply Forall_alter; [done|]. auto.
Qed.

Lemma subset_land_l a c : subset_bits (Z.land c a) c.
Proof.
  unfold subset_bits. apply Z.bits_inj'. intros i _. rewrite !Z.land_spec.
  by destruct (Z.testbit a i), (Z.testbit c i).
Qed.

Lemma subset_land_trans a m c : subset_bits a c -> subset_bits (Z.land a m) c.
Proof.
  unfold subset_bits. intros H. rewrite <- Z.land_assoc, (Z.land_comm m c), Z.land_assoc.
  by rewrite H.
Qed.

Lemma subset_lor x y c : subset_bits x c -> subset_bits y c -> subset_bits (Z.lor x y) c.
Proof. unfold subset_bits. intros Hx Hy. by rewrite Z.land_lor_distr_l, Hx, Hy. Qed.

(** [negotiated_caps] after a write of [value] to the selected half. *)
Definition new_caps b (value : Z) : Z :=
  if driver_feature_select b =? 0
  then Z.lor (Z.land (negotiated_caps b) (u64 (Z.lnot 0xffffffff)))
             (Z.land (device_caps b) (Z.land value 0xffffffff))
  else Z.lor (Z.land (negotiated_caps b) 0xffffffff)
             (Z.land (u64 (Z.shiftl (Z.land value 0xffffffff) 32)) (device_caps b)).

Lemma new_caps_subset n s b value :
  base_ok n s b -> subset_bits (new_caps b value) (device_caps b).
Proof.
  intros []. unfold new_caps. case_match; apply subset_lor;
    try (by apply subset_land_trans); [apply subset_land_l|].
  rewrite Z.land_comm. apply subset_land_l.
Qed.

Lemma write_guest_features_run value d :
  dev_ok d -> exists d', write_guest_features value d = Ret (tt, d') /\ stays d d' /\
  vbase d' =
    if has (status (vbase d)) VIRTIO_CONFIG_S_DRIVER_OK || (2 <=? driver_feature_select (vbase d))
    then vbase d else vbase d <| negotiated_caps := new_caps (vbase d) value |>.
Proof.
  intros Hd. unfold write_guest_features. run.
  destruct (has _ _); [by exists d|]. simpl.
  destruct (Z.ltb_spec (driver_feature_select (vbase d)) 2), (Z.leb_spec 2 (driver_feature_select (vbase d)));
    try lia; [|by exists d].
  match goal with |- context [Z.lor ?x ?y] =>
    replace (Z.lor x y) with (new_caps (vbase d) value) by (unfold new_caps; by case_match) end.
  set (caps := new_caps (vbase d) value).
  destruct (upd_base_ok (fun b => b <| negotiated_caps := caps |>) d) as (d1 & E1 & Hd1); [done| |].
  { destruct Hd as [Hb _]. pose proof (new_caps_subset _ _ _ value Hb). by destruct Hb. }
  unfold upd_base, modify in E1. inv_ret. unfold call. destruct dev_apply_features as [cb|] eqn:Ecb.
  - destruct Hd1 as [Hd1 _].
    destruct (apply_features_law cb caps _ Ecb (proj2 Hd1)) as (d2 & -> & Hb & Hm & Hi).
    rewrite vbase_set_vbase in Hb. exists d2. split; [done|]. split; [|done].
    split; [|by rewrite Hm, vmctx_set_vbase]. split; [|done].
    apply (base_ok_size _ _ _ _ Hm). destruct Hd1 as [Hd1 _]. rewrite vbase_set_vbase in Hd1.
    by rewrite Hb.
  - eexists. split; [done|]. split; [done|]. by rewrite vbase_set_vbase.
Qed.

(** A status write up to the test for 0. *)
Lemma write_status_run value d :
  dev_ok d -> exists d2, stays d d2 /\
  vbase d2 = vbase d <| status := u8 value |> /\
  write_status value d =
    (if status (vbase d2) =? 0 then call dev_reset (fun cb => cb) else mret tt) d2.
Proof.
  intros Hd. unfold write_status. run.
  destruct (upd_base_ok (fun b => b <| status := Z.land value 0xff |>) d) as (d1 & E1 & Hd1); [done| |].
  { destruct Hd as [[] _]. split; try done. simpl. change 255 with (Z.ones 8).
    rewrite <- wrap_land by done. destruct_and! bo_widths0; split_and!; first [assumption | by apply wrap_fits]. }
  unfold upd_base, modify in E1. inv_ret.
  assert (E255 : Z.land value 255 = u8 value).
  { change 255 with (Z.ones 8). symmetry. by apply wrap_land. }
  rewrite E255 in *. unfold call at 1. destruct dev_set_status as [cb|] eqn:Ecb.
  - destruct Hd1 as [Hd1 _].
    destruct (set_status_law cb value _ Ecb (proj2 Hd1)) as (d2 & E2 & Hb & Hm & Hi).
    rewrite vbase_set_vbase in Hb. exists d2. rewrite E2.
    split; [|split; [done|by case_match]]. split; [|by rewrite Hm, vmctx_set_vbase]. split; [|done].
    apply (base_ok_size _ _ _ _ Hm). rewrite Hb. destruct Hd1 as [Hd1 _].
    by rewrite vbase_set_vbase in Hd1.
  - eexists. split; [done|]. rewrite vbase_set_vbase. split; [done|].
    unfold mret at 1, M_ret. by rewrite vbase_set_vbase.
Qed.

Lemma keeps_reset d cb :
  dev_reset = Some cb -> dev_ok d ->
  exists d', cb d = Ret (tt, d') /\ stays d d' /\ virtio_reset_dev (vbase d) = Ret (vbase d').
Proof.
  intros Ecb [Hb Hi]. destruct (reset_law cb d Ecb Hi) as (d' & E & Hb' & Hm & Hi'); [apply Hb|].
  exists d'. split; [done|]. split; [|done]. split; [|done]. split; [|done].
  apply (base_ok_size _ _ _ _ Hm). by eapply virtio_reset_dev_ok.
Qed.

Lemma write_status_ok value d : dev_ok d -> keeps_ok d (write_status value).
Proof.
  intros Hd. unfold keeps_ok. destruct (write_status_run value d Hd) as (d2 & Hd2 & Hb & ->).
  destruct (_ =? 0); [|by exists d2].
  unfold call. destruct dev_reset as [cb|] eqn:Ecb; [|by exists d2].
  eapply (keeps_reset d2 cb) in Ecb as (d3 & E3 & Hs & _); [|by destruct Hd2].
  exists d3. split; [done|]. by eapply stays_trans.
Qed.

(** The address a pair of half registers denotes. *)
Definition ring_gpa (hi lo : Z) : Z := Z.lor (Z.shiftl hi 32) lo.

Lemma ring_gpa_nonneg hi lo : fits 32 hi -> fits 32 lo -> 0 <= ring_gpa hi lo.
Proof. intros [? _] [? _]. apply Z.lor_nonneg. split; [by apply Z.shiftl_nonneg|done]. Qed.

Lemma paddr_guest2host_none s g len : paddr_guest2host s g len = None <-> mem_size s <= g.
Proof. unfold paddr_guest2host. destruct (Z.ltb_spec g (mem_size s)); split; (done || lia). Qed.

(** [virtio_vq_enable] on a queue: exactly when the three rings start inside
    the mapping is the queue marked ready, with those rings and both indices
    cleared. *)
Lemma vq_enable_cases s q :
  let d := ring_gpa (gpa_desc1 q) (gpa_desc0 q) in
  let a := ring_gpa (gpa_avail1 q) (gpa_avail0 q) in
  let u := ring_gpa (gpa_used1 q) (gpa_used0 q) in
  (d < mem_size s /\ a < mem_size s /\ u < mem_size s /\
    vq_enable s q = q <| desc := Some d |> <| avail := Some a |> <| used := Some u |>
      <| last_avail := 0 |> <| save_used := 0 |> <| enabled := true |> <| flags := VQ_ALLOC |>)
  \/ (~ (d < mem_size s /\ a < mem_size s /\ u < mem_size s) /\
      exists od oa, vq_enable s q = q <| desc := od |> <| avail := oa |> <| flags := 0 |>).
Proof.
  intros d a u. unfold vq_enable. simpl.
  change (Z.lor (Z.shiftl (gpa_desc1 q) 32) (gpa_desc0 q)) with d.
  change (Z.lor (Z.shiftl (gpa_avail1 q) 32) (gpa_avail0 q)) with a.
  change (Z.lor (Z.shiftl (gpa_used1 q) 32) (gpa_used0 q)) with u.
  unfold paddr_guest2host.
  destruct (Z.ltb_spec d (mem_size s)); [|right; split; [lia|by exists (desc q), (avail q); destruct q]].
  destruct (Z.ltb_spec a (mem_size s)); [|right; split; [lia|by exists (Some d), (avail q); destruct q]].
  destruct (Z.ltb_spec u (mem_size s)); [left; by destruct q|].
  right; split; [lia|by exists (Some d), (Some a); destruct q].
Qed.

Lemma vq_enable_ok s q : vq_ok s q -> vq_ok s (vq_enable s q).
Proof.
  intros [Hw Hr].
  destruct (vq_enable_cases s q) as [(Hd & Ha & Hu & ->)|(_ & od & oa & ->)].
  - split; simpl; [repeat split; try apply Hw; by vm_compute|]. intros _.
    unfold ring_in. simpl. destruct Hw as (_ & _ & ? & ? & ? & ? & ? & ? & _).
    repeat split; eexists; (split; [done|]); auto using ring_gpa_nonneg.
  - split; simpl; [repeat split; apply Hw|by vm_compute].
Qed.

Lemma vq_ok_store s q (f : virtio_vq_info -> virtio_vq_info) :
  desc (f q) = desc q -> avail (f q) = avail q -> used (f q) = used q -> flags (f q) = flags q ->
  (vq_ok s q -> fits 16 (qsize (f q)) /\ fits 16 (msix_idx (f q)) /\
    fits 32 (gpa_desc0 (f q)) /\ fits 32 (gpa_desc1 (f q)) /\ fits 32 (gpa_avail0 (f q)) /\
    fits 32 (gpa_avail1 (f q)) /\ fits 32 (gpa_used0 (f q)) /\ fits 32 (gpa_used1 (f q)) /\
    fits 16 (last_avail (f q)) /\ fits 16 (save_used (f q))) ->
  vq_ok s q -> vq_ok s (f q).
Proof.
  intros E1 E2 E3 E4 Hw Hq. split; [by apply Hw|].
  unfold vq_ring_ready. rewrite E1, E2, E3, E4. apply Hq.
Qed.

(** Every register store keeps the invariant; a queue index is a 16-bit value. *)
Lemma common_cfg_store_ok off value d :
  dev_ok d -> (off = VIRTIO_PCI_COMMON_Q_SELECT -> fits 16 value) ->
  keeps_ok d (common_cfg_store off value).
Proof.
  intros Hd Hsel. unfold common_cfg_store.
  destruct (Z.eq_dec off VIRTIO_PCI_COMMON_Q_SELECT) as [->|Hoff].
  { apply upd_base_ok; [done|]. destruct Hd as [[] _]. split; try done. simpl.
    replace (s32 value) with value; [by apply Hsel|]. specialize (Hsel eq_refl). wrap_lia. }
  assert (Hnop : keeps_ok d (mret tt)) by by exists d.
  assert (Hen : keeps_ok d virtio_vq_enable).
  { unfold keeps_ok, virtio_vq_enable. fold (keeps_ok d (upd_curq (vq_enable (vmctx d)))).
    apply upd_curq_ok; [exact Hd|]. intros q. apply vq_enable_ok. }
  unfold switch. cbn [existsb].
  repeat match goal with |- context [off =? ?k] => destruct (Z.eqb_spec off k); cbn [orb] end; try contradiction.
  all: lazymatch goal with
    | |- keeps_ok _ (mret _) => exact Hnop
    | |- keeps_ok _ (write_guest_features _) =>
      destruct (write_guest_features_run value d Hd) as (d' & ? & ? & _); by exists d'
    | |- keeps_ok _ (write_status _) => by apply write_status_ok
    | |- keeps_ok _ virtio_vq_enable =>
      exact Hen
    | |- keeps_ok _ (upd_curq ?f) =>
      apply upd_curq_ok; [exact Hd|]; intros q; apply (vq_ok_store _ q f); [reflexivity..|];
      intros [Hw _]; simpl; destruct_and! Hw; split_and!; first [assumption | by apply wrap_fits]
    | |- keeps_ok _ (upd_base _) =>
      apply upd_base_ok; [exact Hd|]; destruct Hd as [[] _]; split; try assumption; simpl;
      destruct_and! bo_widths0; split_and!; first [assumption | by apply wrap_fits]
    end.
Qed.

Lemma lookup_modern off cr :
  lookup_reg modern_config_regs off = Some cr -> In cr modern_config_regs /\ cr_offset cr = off.
Proof. unfold lookup_reg. intros [? ?%Z.eqb_eq]%find_some. done. Qed.

Lemma find_modern_cr_nonneg off :
  0 <= s32 off -> virtio_find_modern_cr off = Ret (lookup_reg modern_config_regs (s32 off)).
Proof.
  intros H. unfold virtio_find_modern_cr, virtio_find_cr.
  change (u32 (Z.of_nat (length modern_config_regs) - 1)) with 18.
  apply find_cr_loop_correct; change (Z.of_nat (length modern_config_regs)) with 19; try lia.
  - apply sorted_modern.
  - intros c [= <-]. done.
  - change (Z.of_nat (S (length modern_config_regs))) with 20. lia.
  - intros i c Hi%lookup_lt_Some. simpl in Hi. lia.
Qed.

(** A register hit by an access is at the access's own offset. *)
Lemma lookup_modern_off off cr :
  fits 32 off -> lookup_reg modern_config_regs (s32 off) = Some cr -> cr_offset cr = off.
Proof.
  intros Hf [Hin Ho]%lookup_modern.
  assert (0 <= cr_offset cr < 2 ^ 31) as Hr.
  { assert (Hb : forallb (fun c => (0 <=? cr_offset c) && (cr_offset c <? 2 ^ 31)) modern_config_regs = true)
      by by vm_compute.
    rewrite forallb_forall in Hb. specialize (Hb _ Hin). lia. }
  revert Ho Hr. wrap_lia.
Qed.
End Laws.

(** ** Properties *)

(**  The register search agrees with a linear scan of the table for every
    offset the guest can name, and always ends.  The offset is converted to
    [int]; when that is negative the binary search runs below the table
    ([hi] is unsigned and wraps to 0xffffffff), an access out of bounds. *)
Theorem find_modern_cr_spec off :
  virtio_find_modern_cr off =
  if s32 off <? 0 then Stop OobAccess else Ret (lookup_reg modern_config_regs (s32 off)).
Proof.
  destruct (Z.ltb_spec (s32 off) 0) as [Hneg|Hpos]; [|by apply find_modern_cr_nonneg].
  unfold virtio_find_modern_cr, virtio_find_cr.
  change (u32 (Z.of_nat (length modern_config_regs) - 1)) with 18.
  assert (Hall : forall i c, modern_config_regs !! i = Some c -> s32 off < cr_offset c).
  { intros i c Hi%list_elem_of_lookup_2%list_elem_of_In.
    assert (Hb : forallb (fun c => 0 <=? cr_offset c) modern_config_regs = true) by done.
    rewrite forallb_forall in Hb. specialize (Hb _ Hi). lia. }
  assert (Hl : Z.of_nat (length modern_config_regs) = 19) by done.
  change (S (length modern_config_regs)) with 20%nat.
  do 4 (rewrite find_cr_down by (done || lia);
        match goal with |- context [u32 ?x] => let v := eval vm_compute in (u32 x) in change (u32 x) with v end).
  by apply find_cr_oob.
Qed.

(** Reduce a [switch] on a constant. *)
Ltac pick_case :=
  unfold switch; cbn [existsb];
  repeat match goal with |- context [if ?b || ?c then _ else _] =>
    let v := eval vm_compute in (b || c) in change (b || c) with v; cbn match end.

Section Claims.
Context {D : Type} `{!VirtioDev D} `{!VirtioDevLaws D}.
Implicit Types d : D.

(** The register an access to [off] of size [sz] hits, if its size is right. *)
Definition hit (off sz : Z) : option config_reg :=
  match lookup_reg modern_config_regs (s32 off) with
  | Some cr => if cr_size cr =? sz then Some cr else None
  | None => None
  end.

Lemma common_cfg_write_hit d off sz value :
  0 <= s32 off ->
  virtio_common_cfg_write off sz value d =
  match hit off sz with
  | Some cr => if cr_ro cr then Ret (tt, d) else common_cfg_store off value d
  | None => Ret (tt, d)
  end.
Proof.
  intros H. unfold virtio_common_cfg_write, hit. run.
  rewrite find_modern_cr_nonneg by done. destruct (lookup_reg modern_config_regs (s32 off)) as [cr|]; [|done].
  destruct (cr_size cr =? sz); simpl; [|done]. by destruct (cr_ro cr).
Qed.

Lemma common_cfg_read_hit d off sz :
  0 <= s32 off ->
  virtio_common_cfg_read d off sz =
  match hit off sz with
  | Some cr => v ← common_cfg_value (vbase d) off (bad_value sz); Ret (u32 v)
  | None => Ret (bad_value sz)
  end.
Proof.
  intros H. unfold virtio_common_cfg_read, hit.
  rewrite find_modern_cr_nonneg by done. unfold mbind at 1, outcome_bind. destruct (lookup_reg modern_config_regs (s32 off)) as [cr|]; [|done].
  by destruct (cr_size cr =? sz).
Qed.

Lemma hit_some off sz cr :
  fits 32 off -> hit off sz = Some cr ->
  In cr modern_config_regs /\ off = cr_offset cr /\ sz = cr_size cr.
Proof.
  unfold hit. intros Hf. destruct (lookup_reg modern_config_regs (s32 off)) as [c|] eqn:E; [|done].
  destruct (Z.eqb_spec (cr_size c) sz); [|done]. intros [= ->].
  apply lookup_modern_off in E as Ho; [|done]. apply lookup_modern in E as [? _]. done.
Qed.

Lemma curq_reg_ok d f w dflt :
  dev_ok d -> fits w dflt -> (forall q, vq_ok (vmctx d) q -> fits w (f q)) ->
  exists v, curq_reg (vbase d) f dflt = Ret v /\ fits w v.
Proof.
  intros [[Hl Hc _ _ _ _ Hqs] _] Hdf Hf. unfold curq_reg.
  destruct (Z.ltb_spec (curq (vbase d)) nvq); [|by eexists].
  destruct (curq_lookup (vbase d)) as [q Hq]; [done..|]. rewrite Hq. eexists. split; [done|].
  apply Hf. rewrite nthZ_lookup in Hq by apply Hc. by eapply Forall_lookup_1 in Hq.
Qed.

Lemma fits_half c x :
  fits 32 (if c =? 0 then Z.land x 0xffffffff
           else if c =? 1 then Z.land (Z.shiftr x 32) 0xffffffff else 0).
Proof.
  change 0xffffffff with (Z.ones 32). rewrite <- !wrap_land by lia.
  repeat case_match; try apply wrap_fits; unfold fits; lia.
Qed.

Lemma common_cfg_value_ok d cr dflt :
  dev_ok d -> In cr modern_config_regs ->
  exists v, common_cfg_value (vbase d) (cr_offset cr) dflt = Ret v /\ fits (8 * cr_size cr) v.
Proof.
  intros Hd Hin. pose proof nvq_range. pose proof (proj1 Hd) as [].
  destruct bo_widths0 as (? & ? & ? & ? & ?). simpl in Hin.
  repeat destruct Hin as [<-|Hin]; [..|done].
  all: unfold common_cfg_value; cbn [cr_offset cr_size]; pick_case;
    change (8 * 4) with 32; change (8 * 2) with 16; change (8 * 1) with 8.
  all: lazymatch goal with
    | |- context [curq_reg] =>
      apply (curq_reg_ok d); [exact Hd|by vm_compute|]; intros q [Hw _];
      lazymatch goal with
      | |- context [b2z] => destruct (enabled q); by vm_compute
      | |- _ => apply Hw
      end
    | |- _ => eexists; split; [reflexivity|]
    end.
  all: try assumption.
  all: apply fits_half.
Qed.

(** A read that hits a register returns a value of the register's size. *)
Lemma common_cfg_read_ok d off sz cr :
  dev_ok d -> fits 32 off -> 0 <= s32 off -> hit off sz = Some cr ->
  exists v, virtio_common_cfg_read d off sz = Ret v /\ fits (8 * sz) v.
Proof.
  intros Hd Ho Hs Hh. rewrite common_cfg_read_hit, Hh by done.
  apply hit_some in Hh as (Hin & -> & ->); [|done].
  destruct (common_cfg_value_ok d cr (bad_value (cr_size cr)) Hd Hin) as (v & -> & Hv).
  cbn. unfold u32. rewrite wrap_small; [by exists v|].
  eapply fits_mono; [|exact Hv]. simpl in Hin.
  repeat destruct Hin as [<-|Hin]; [..|done]; simpl; lia.
Qed.

Lemma common_cfg_write_ok d off sz value :
  dev_ok d -> fits 32 off -> 0 <= s32 off ->
  (forall cr, hit off sz = Some cr -> fits (8 * sz) value) ->
  keeps_ok d (virtio_common_cfg_write off sz value).
Proof.
  intros Hd Ho Hs Hv. unfold keeps_ok. rewrite common_cfg_write_hit by done.
  destruct (hit off sz) as [cr|] eqn:E; [|by exists d]. specialize (Hv cr eq_refl).
  apply hit_some in E as (Hin & -> & ->); [|done].
  destruct (cr_ro cr); [by exists d|]. apply common_cfg_store_ok; [done|].
  simpl in Hin. intros Hq. repeat destruct Hin as [<-|Hin]; done.
Qed.

(** C5.  A write to the common configuration, of any offset, size and
    value the guest may choose, returns and keeps the device well formed:
    the negotiated features stay a subset of the offered ones, every stored
    register within its width, no legacy interrupt pending, and a queue
    marked ready has its three rings starting inside the mapping. *)
Theorem common_cfg_write_safe d off sz value :
  dev_ok d -> fits 32 off -> 0 <= s32 off -> fits (8 * sz) value ->
  exists d', virtio_common_cfg_write off sz value d = Ret (tt, d') /\ dev_ok d'.
Proof.
  intros Hd Ho Hs Hv.
  destruct (common_cfg_write_ok d off sz value) as (d' & E & Hd' & _); [done..|by exists d'].
Qed.

(** Registers whose store is a plain assignment. *)
Definition plain_regs : list Z :=
  [VIRTIO_PCI_COMMON_DFSELECT; VIRTIO_PCI_COMMON_GFSELECT; VIRTIO_PCI_COMMON_MSIX;
   VIRTIO_PCI_COMMON_Q_SELECT; VIRTIO_PCI_COMMON_Q_SIZE; VIRTIO_PCI_COMMON_Q_MSIX;
   VIRTIO_PCI_COMMON_Q_DESCLO; VIRTIO_PCI_COMMON_Q_DESCHI; VIRTIO_PCI_COMMON_Q_AVAILLO;
   VIRTIO_PCI_COMMON_Q_AVAILHI; VIRTIO_PCI_COMMON_Q_USEDLO; VIRTIO_PCI_COMMON_Q_USEDHI].

Lemma curq_reg_alter d f g dflt v :
  dev_ok d -> curq (vbase d) < nvq -> (forall q, g (f q) = v) ->
  curq_reg (vbase d <| queues ::= alter f (Z.to_nat (curq (vbase d))) |>) g dflt = Ret v.
Proof.
  intros [[Hl Hc _ _ _ _ _] _] Hlt Hg. unfold curq_reg. simpl.
  destruct (Z.ltb_spec (curq (vbase d)) nvq); [|lia].
  destruct (curq_lookup (vbase d)) as [q Hq]; [done..|].
  destruct Hc. rewrite nthZ_lookup in * by done.
  by rewrite list_lookup_alter, Hq, decide_True by done; simpl; rewrite Hg.
Qed.

Lemma readback_queue d f g dflt w value :
  dev_ok d -> curq (vbase d) < nvq -> (forall q, g (f q) = wrap w value) ->
  0 <= w <= 32 -> fits w value ->
  exists d', upd_curq f d = Ret (tt, d') /\
    (v ← curq_reg (vbase d') g dflt; Ret (u32 v)) = Ret value.
Proof.
  intros Hd Hc Hg Hw Hv. eexists. split; [by apply upd_curq_run|].
  destruct (Z.leb_spec nvq (curq (vbase d))); [lia|]. rewrite vbase_set_vbase.
  erewrite curq_reg_alter by done. cbn. f_equal. rewrite wrap_small by done.
  apply wrap_small. by apply (fits_mono w).
Qed.

Lemma readback_base d (f : virtio_base -> virtio_base) off dflt value :
  common_cfg_value (f (vbase d)) off dflt = Ret value -> fits 32 value ->
  exists d', upd_base f d = Ret (tt, d') /\
    (v ← common_cfg_value (vbase d') off dflt; Ret (u32 v)) = Ret value.
Proof.
  intros E Hv. eexists. split; [done|]. rewrite vbase_set_vbase, E. cbn. f_equal.
  by apply wrap_small.
Qed.

(**  Read-back: a register whose write is a plain assignment reads as
    the value last written to it at its own size; a queue register does so
    for a selected queue that exists. *)
Theorem common_cfg_readback d off sz cr value :
  dev_ok d -> hit off sz = Some cr -> In off plain_regs -> fits (8 * sz) value ->
  (VIRTIO_PCI_COMMON_Q_SIZE <= off -> curq (vbase d) < nvq) ->
  exists d', virtio_common_cfg_write off sz value d = Ret (tt, d') /\
    virtio_common_cfg_read d' off sz = Ret value.
Proof.
  intros Hd Hhit Hin Hv Hq.
  assert (fits 32 off /\ 0 <= s32 off) as [Ho Hpos].
  { simpl in Hin. repeat destruct Hin as [<-|Hin]; done. }
  rewrite common_cfg_write_hit, Hhit by lia.
  apply hit_some in Hhit as Hh; [|done]. destruct Hh as (Hcr & Heq & Hsz).
  setoid_rewrite common_cfg_read_hit; [|lia]. rewrite Hhit.
  simpl in Hin, Hcr.
  repeat (destruct Hin as [Hr|Hin]; [subst off;
    repeat (destruct Hcr as [Hc|Hcr]; [subst cr; try discriminate Heq; cbn in Hsz; subst sz|]);
    try contradiction|]); try contradiction; cbn [cr_ro].
  all: unfold common_cfg_store; pick_case.
  1-4: apply readback_base; [unfold common_cfg_value; pick_case; f_equal; cbn; revert Hv; wrap_lia
                            |eapply fits_mono; [|exact Hv]; lia].
  all: unfold common_cfg_value; pick_case.
  all: eapply readback_queue; [done|by apply Hq|done| |done]; lia.
Qed.

(** Which queues a state change leaves alone. *)
Definition queues_but (j : Z) (d d' : D) : Prop :=
  forall i, i <> Z.to_nat j -> queues (vbase d') !! i = queues (vbase d) !! i.

Lemma upd_curq_frame f d d' :
  dev_ok d -> upd_curq f d = Ret (tt, d') ->
  queues_but (curq (vbase d)) d d' /\ negotiated_caps (vbase d') = negotiated_caps (vbase d) /\
  status (vbase d') = status (vbase d).
Proof.
  intros Hd. rewrite upd_curq_run by done. intros. inv_ret.
  destruct (nvq <=? _); [done|]. rewrite vbase_set_vbase. split; [|done].
  intros i Hi. rewrite vbase_set_vbase. simpl. by rewrite list_lookup_alter, decide_False.
Qed.

Lemma upd_base_frame f d d' :
  queues (f (vbase d)) = queues (vbase d) ->
  negotiated_caps (f (vbase d)) = negotiated_caps (vbase d) ->
  status (f (vbase d)) = status (vbase d) ->
  upd_base f d = Ret (tt, d') ->
  queues_but (curq (vbase d)) d d' /\ negotiated_caps (vbase d') = negotiated_caps (vbase d) /\
  status (vbase d') = status (vbase d).
Proof.
  intros Hq Hn Hs. unfold upd_base, modify, queues_but. intros. inv_ret.
  rewrite vbase_set_vbase. split; [|done]. intros. by rewrite Hq.
Qed.

(**  Frame: a write that hits no register at its size, or a read-only
    one, changes nothing.  Any other write, STATUS apart, changes at most
    the selected queue among the queues, and the negotiated features change
    only by a write of the guest-feature register before DRIVER_OK. *)
Theorem common_cfg_write_frame d off sz value d' :
  dev_ok d -> fits 32 off -> 0 <= s32 off -> off <> VIRTIO_PCI_COMMON_STATUS ->
  virtio_common_cfg_write off sz value d = Ret (tt, d') ->
  ((forall cr, hit off sz = Some cr -> cr_ro cr = true) -> d' = d) /\
  queues_but (curq (vbase d)) d d' /\ status (vbase d') = status (vbase d) /\
  (off <> VIRTIO_PCI_COMMON_GF \/ has (status (vbase d)) VIRTIO_CONFIG_S_DRIVER_OK = true ->
   negotiated_caps (vbase d') = negotiated_caps (vbase d)).
Proof.
  intros Hd Ho Hs Hoff. rewrite common_cfg_write_hit by done.
  destruct (hit off sz) as [cr|] eqn:E; [|by intros; inv_ret].
  destruct (cr_ro cr) eqn:Ero; [by intros; inv_ret|]. intros Hw.
  split; [intros Hro; specialize (Hro cr eq_refl); congruence|].
  destruct (Z.eq_dec off VIRTIO_PCI_COMMON_GF) as [->|Hgf].
  { destruct (write_guest_features_run value d Hd) as (d1 & E1 & _ & Hb).
    change (common_cfg_store _ _ d) with (write_guest_features value d) in Hw.
    rewrite E1 in Hw. inv_ret. unfold queues_but. rewrite Hb.
    split; [by case_match|]. split; [by case_match|]. intros [?|Hdo]; [done|]. by rewrite Hdo. }
  enough (queues_but (curq (vbase d)) d d' /\ negotiated_caps (vbase d') = negotiated_caps (vbase d) /\
    status (vbase d') = status (vbase d)) by tauto.
  revert Hw. unfold common_cfg_store, switch. cbn [existsb].
  repeat match goal with |- context [off =? ?k] => destruct (Z.eqb_spec off k); cbn [orb] end;
  try done; try (by apply upd_base_frame); try (by apply upd_curq_frame);
  try (by apply (upd_curq_frame (vq_enable (vmctx d)))).
  unfold mret, M_ret. intros. by inv_ret.
Qed.

Lemma testbit_ones32 i : 0 <= i -> Z.testbit 0xffffffff i = (i <? 32).
Proof. intros. change 0xffffffff with (Z.ones 32). by apply Z.testbit_ones_nonneg. Qed.

Lemma testbit_u64 x i : 0 <= i -> Z.testbit (u64 x) i = Z.testbit x i && (i <? 64).
Proof.
  intros. unfold u64. rewrite wrap_land by done. by rewrite Z.land_spec, Z.testbit_ones_nonneg.
Qed.

(** Writing both halves, low first, leaves the offered part of the request. *)
Lemma new_caps_both b caps lo hi :
  fits 64 caps -> device_caps b = caps -> driver_feature_select b = 0 ->
  new_caps (b <| negotiated_caps := new_caps b lo |> <| driver_feature_select := 1 |>) hi
    = Z.land caps (Z.lor (Z.land lo 0xffffffff) (Z.shiftl (Z.land hi 0xffffffff) 32)).
Proof.
  intros Hc Hb Hsel. unfold new_caps. simpl. rewrite Hsel, Hb. cbn. change (1 =? 0) with false. change (0 =? 0) with true. cbn match.
  apply Z.bits_inj'. intros i Hi.
  rewrite !Z.lor_spec, !Z.land_spec, !Z.lor_spec, !Z.land_spec, !testbit_u64,
    Z.lnot_spec, !Z.shiftl_spec, !testbit_ones32 by done.
  destruct (Z.ltb_spec i 32).
  - rewrite !(Z.testbit_neg_r _ (i - 32)) by lia.
    repeat match goal with |- context [Z.testbit ?x i] => destruct (Z.testbit x i) end; try done;
    by destruct (i <? 64).
  - rewrite !Z.land_spec, !testbit_ones32 by lia.
    destruct (Z.ltb_spec i 64); [|rewrite (testbit_fits 64 caps) by done];
    repeat match goal with |- context [Z.testbit ?x i] => destruct (Z.testbit x i) end;
    repeat match goal with |- context [Z.testbit ?x ?k] => destruct (Z.testbit x k) end;
    destruct (i - 32 <? 32); done.
Qed.

(** The driver's feature handshake: both halves, low first. *)
Definition driver_features (lo hi : Z) : M D unit :=
  _ ← virtio_common_cfg_write VIRTIO_PCI_COMMON_GFSELECT 4 0;
  _ ← virtio_common_cfg_write VIRTIO_PCI_COMMON_GF 4 lo;
  _ ← virtio_common_cfg_write VIRTIO_PCI_COMMON_GFSELECT 4 1;
  virtio_common_cfg_write VIRTIO_PCI_COMMON_GF 4 hi.

Lemma gfselect_run d v :
  dev_ok d -> virtio_common_cfg_write VIRTIO_PCI_COMMON_GFSELECT 4 v d =
    Ret (tt, set_vbase (vbase d <| driver_feature_select := u32 v |>) d) /\
    dev_ok (set_vbase (vbase d <| driver_feature_select := u32 v |>) d).
Proof.
  intros Hd. split; [done|]. apply (dev_ok_upd (fun b => b <| driver_feature_select := u32 v |>)); [|apply Hd].
  destruct Hd as [[] _]. split; try done. simpl. repeat split; try apply bo_widths0; by apply wrap_fits.
Qed.

(**  Feature negotiation: after the driver has written both halves of
    its feature word, and before DRIVER_OK, the negotiated features are
    exactly those both sides know. *)
Theorem feature_negotiation d lo hi :
  dev_ok d -> has (status (vbase d)) VIRTIO_CONFIG_S_DRIVER_OK = false ->
  fits 32 lo -> fits 32 hi ->
  exists d', driver_features lo hi d = Ret (tt, d') /\ dev_ok d' /\
    negotiated_caps (vbase d') = Z.land (device_caps (vbase d)) (Z.lor lo (Z.shiftl hi 32)).
Proof.
  intros Hd Hst Hlo Hhi. unfold driver_features. run.
  destruct (gfselect_run d 0 Hd) as [-> Hd1].
  change (virtio_common_cfg_write VIRTIO_PCI_COMMON_GF 4) with write_guest_features.
  destruct (write_guest_features_run lo _ Hd1) as (d2 & -> & Hd2%stays_ok & Hb2).
  rewrite vbase_set_vbase in Hb2. cbn in Hb2. rewrite Hst in Hb2.
  change (u32 0) with 0 in *. change (false || (2 <=? 0)) with false in Hb2. cbn match in Hb2.
  destruct (gfselect_run d2 1 Hd2) as [-> Hd3].
  destruct (write_guest_features_run hi _ Hd3) as (d4 & -> & Hd4%stays_ok & Hb4).
  rewrite vbase_set_vbase, Hb2 in Hb4.
  cbn in Hb4. rewrite Hst in Hb4.
  change (u32 1) with 1 in *. change (false || (2 <=? 1)) with false in Hb4. cbn match in Hb4.
  exists d4. split; [done|]. split; [done|]. rewrite Hb4. cbn.
  pose proof (new_caps_both (vbase d <| driver_feature_select := 0 |>) (device_caps (vbase d)) lo hi) as Hn.
  destruct Hd as [[] _]. rewrite Hn by done. f_equal.
  change 0xffffffff with (Z.ones 32). by rewrite <- !wrap_land, !wrap_small by done.
Qed.

(**  Writing 0 to the status register resets the device: no queue is
    ready or enabled, no feature is negotiated, the selectors and the
    configuration generation are 0, and the queue sizes are kept. *)
Theorem status_zero_resets d cb :
  dev_ok d -> dev_reset = Some cb ->
  exists d', virtio_common_cfg_write VIRTIO_PCI_COMMON_STATUS 1 0 d = Ret (tt, d') /\ dev_ok d' /\
    status (vbase d') = 0 /\ negotiated_caps (vbase d') = 0 /\ curq (vbase d') = 0 /\
    config_generation (vbase d') = 0 /\ msix_cfg_idx (vbase d') = VIRTIO_MSI_NO_VECTOR /\
    Forall (fun q => vq_ring_ready q = false /\ enabled q = false /\
                     last_avail q = 0 /\ save_used q = 0) (queues (vbase d')) /\
    map qsize (queues (vbase d')) = map qsize (queues (vbase d)).
Proof.
  intros Hd Hcb.
  change (virtio_common_cfg_write VIRTIO_PCI_COMMON_STATUS 1 0 d) with (write_status 0 d).
  destruct (write_status_run 0 d Hd) as (d2 & Hd2%stays_ok & Hb2 & ->).
  rewrite Hb2. cbn. change (u8 0 =? 0) with true. rewrite Hcb. cbn.
  destruct (keeps_reset d2 cb Hcb Hd2) as (d3 & E3 & Hd3 & Hb).
  exists d3. split; [done|]. split; [apply Hd3|].
  rewrite virtio_reset_dev_ret in Hb by apply Hd2. injection Hb as Hb. rewrite <- Hb, Hb2. cbn.
  repeat split; [|rewrite !map_map; by apply map_ext].
  apply Forall_map, Forall_true. intros q. repeat split.
Qed.

(**  Enabling the selected queue succeeds exactly when each of its three
    rings starts inside the mapping; it then points to those rings and
    starts from cleared indices, and otherwise the queue is not ready. *)
Theorem vq_enable_selected d q :
  dev_ok d -> queues (vbase d) !! Z.to_nat (curq (vbase d)) = Some q -> curq (vbase d) < nvq ->
  exists d' q', virtio_common_cfg_write VIRTIO_PCI_COMMON_Q_ENABLE 2 1 d = Ret (tt, d') /\
    dev_ok d' /\ queues (vbase d') !! Z.to_nat (curq (vbase d)) = Some q' /\
    let size := mem_size (vmctx d) in
    let gd := ring_gpa (gpa_desc1 q) (gpa_desc0 q) in
    let ga := ring_gpa (gpa_avail1 q) (gpa_avail0 q) in
    let gu := ring_gpa (gpa_used1 q) (gpa_used0 q) in
    (vq_ring_ready q' = true <-> gd < size /\ ga < size /\ gu < size) /\
    (vq_ring_ready q' = true ->
      desc q' = Some gd /\ avail q' = Some ga /\ used q' = Some gu /\
      last_avail q' = 0 /\ save_used q' = 0 /\ enabled q' = true /\ qsize q' = qsize q).
Proof.
  intros Hd Hq Hc.
  change (virtio_common_cfg_write _ _ _ d) with (upd_curq (vq_enable (vmctx d)) d).
  destruct (upd_curq_ok (vq_enable (vmctx d)) d Hd) as (d' & E & Hd'%stays_ok); [by apply vq_enable_ok|].
  exists d', (vq_enable (vmctx d) q). split; [done|]. split; [done|]. split.
  - rewrite upd_curq_run in E by done. destruct (Z.leb_spec nvq (curq (vbase d))); [lia|]. inv_ret.
    rewrite vbase_set_vbase. cbn. by rewrite list_lookup_alter, Hq, decide_True.
  - cbn zeta. destruct (vq_enable_cases (vmctx d) q) as [(? & ? & ? & ->)|(Hn & od & oa & ->)].
    + by split.
    + split; [|done]. by split.
Qed.
End Claims.

(** ** A minimal device *)

(** A device with two queues, a reset and nothing else, for concrete runs. *)
Module CoreDemo.
Definition D : Type := virtio_base * shmem_info.

Definition reset : M D unit := fun d =>
  match virtio_reset_dev d.1 with Ret b => Ret (tt, (b, d.2)) | Stop e => Stop e end.

#[export] Instance demo_dev : VirtioDev D := {
  vbase := fst;
  set_vbase b d := (b, d.2);
  vmctx := snd;
  set_vmctx s d := (d.1, s);
  nvq := 2;
  cfgsize := 8;
  dev_reset := Some reset;
  dev_qnotify := None;
  dev_cfgread := None;
  dev_cfgwrite := None;
  dev_cfgwrite_pci _ _ _ := mret 0;
  dev_apply_features := None;
  dev_set_status := None;
  dev_notify _ _ := mret tt
}.

#[export] Instance demo_laws : VirtioDevLaws D.
Proof.
  refine {| dev_inv := fun _ => True |}; try done.
  intros cb [b s] [= <-] _ Hi. unfold reset. cbn in *.
  rewrite virtio_reset_dev_ret by done. by eexists.
Defined.

Definition vq : virtio_vq_info :=
  mkVq 64 None 0 0 0 0 VIRTIO_MSI_NO_VECTOR 0 None None None 0x1000 0 0x2000 0 0x3000 0 false.
Definition shm : shmem_info := mkShmem 3 0x10000 0 1 2 ∅ [].

(** The device before DRIVER_OK, queue 1 selected. *)
Definition d0 : D :=
  (mkBase 1 (mkPci true false) 0 (2 ^ 33 + 2 ^ 32 + 2 ^ 28 + 3) [vq; vq] 1 3 0
     VIRTIO_MSI_NO_VECTOR 0 0 0 0 0, shm).

Lemma vq_demo_ok : vq_ok shm vq.
Proof. split; [repeat split; by vm_compute|discriminate]. Defined.

Lemma d0_ok : dev_ok d0.
Proof.
  split; [|done]. split; try reflexivity; try (split_and!; by vm_compute).
  do 2 (constructor; [apply vq_demo_ok|]). constructor.
Defined.
End CoreDemo.
Import CoreDemo.

Lemma common_cfg_write_safe_witness :
  exists d', virtio_common_cfg_write VIRTIO_PCI_COMMON_Q_SIZE 2 128 d0 = Ret (tt, d') /\ dev_ok d'.
Proof. apply (common_cfg_write_safe d0 _ 2 128); [exact d0_ok|done..]. Defined.

Lemma common_cfg_readback_witness :
  exists d', virtio_common_cfg_write VIRTIO_PCI_COMMON_Q_DESCLO 4 0x4000 d0 = Ret (tt, d') /\
    virtio_common_cfg_read d' VIRTIO_PCI_COMMON_Q_DESCLO 4 = Ret 0x4000.
Proof.
  apply (common_cfg_readback d0 _ 4 (mkReg VIRTIO_PCI_COMMON_Q_DESCLO 4 false));
    [exact d0_ok|done|simpl; tauto|done|done].
Defined.

Lemma common_cfg_write_frame_witness :
  exists d', virtio_common_cfg_write VIRTIO_PCI_COMMON_Q_MSIX 2 1 d0 = Ret (tt, d') /\
    queues_but 1 d0 d'.
Proof.
  eexists. split; [reflexivity|].
  eapply (common_cfg_write_frame d0 VIRTIO_PCI_COMMON_Q_MSIX 2 1 _ d0_ok); [done..|reflexivity].
Defined.

Lemma feature_negotiation_witness :
  exists d', driver_features 0xff 1 d0 = Ret (tt, d') /\ dev_ok d' /\
    negotiated_caps (vbase d') = 2 ^ 32 + 3.
Proof.
  replace (2 ^ 32 + 3) with (Z.land (device_caps (vbase d0)) (Z.lor 0xff (Z.shiftl 1 32))) by done.
  apply (feature_negotiation d0 0xff 1); [exact d0_ok|done..].
Defined.

Lemma status_zero_resets_witness :
  exists d', virtio_common_cfg_write VIRTIO_PCI_COMMON_STATUS 1 0 d0 = Ret (tt, d') /\
    status (vbase d') = 0 /\ map qsize (queues (vbase d')) = [64; 64].
Proof.
  destruct (status_zero_resets d0 CoreDemo.reset) as (d' & H1 & _ & H2 & _ & _ & _ & _ & _ & H3);
    [exact d0_ok|done|].
  exists d'. split; [exact H1|]. split; [exact H2|exact H3].
Defined.

Lemma vq_enable_selected_witness :
  exists d' q', virtio_common_cfg_write VIRTIO_PCI_COMMON_Q_ENABLE 2 1 d0 = Ret (tt, d') /\
    queues (vbase d') !! 1%nat = Some q' /\ vq_ring_ready q' = true.
Proof.
  destruct (vq_enable_selected d0 CoreDemo.vq) as (d' & q' & H1 & _ & H2 & [_ H3] & _);
    [exact d0_ok|done|done|].
  exists d', q'. split; [exact H1|]. split; [exact H2|]. by apply H3.
Defined.
