(* ===== verification/VosBackend.v ===== *)
(** * The virtio-over-shared-memory transport

    [src/virtio_over_shmem.c]: the header the frontend and this backend share
    at the start of the mapping, the write transaction through which the
    frontend accesses the common configuration, the notification of the
    queues, and the bring-up of the device.  Everything is stated for any
    device of the class [VirtioDev]. *)
From S2P Require Import Prelude Shmem VirtQueue VirtioCore.

Definition BACKEND_FLAG_PRESENT := 1.

Section Backend.
Context {D : Type} `{!VirtioDev D}.

(** Fields of [*virtio_header]: [n] bytes at offset [off] of the mapping. *)
Definition hdr_get (off : Z) (n : nat) : M D Z := fun d =>
  match ld_le (vmctx d) off n with Ret v => Ret (v, d) | Stop e => Stop e end.
Definition hdr_set (off : Z) (n : nat) (v : Z) : M D unit :=
  lift_shm (fun s => st_le s off n v).

(** ** process_queue *)

Definition process_one (i : Z) : M D unit :=
  b ← get_base;
  match nthZ (queues b) i with
  | None => halt OobAccess
  | Some q => if vq_ring_ready q then notify_queue q i else mret tt
  end.

(** The loop from [i = n - 1] down to 0. *)
Fixpoint process_queue_loop (n : nat) : M D unit :=
  match n with
  | O => mret tt
  | S n' => _ ← process_one (Z.of_nat n'); process_queue_loop n'
  end.

Definition process_queue : M D unit := process_queue_loop (Z.to_nat nvq).

(** ** process_write_transaction *)

(** The value the frontend wrote, at [virtio_header + write_offset]. *)
Definition new_value (wo ws : Z) : M D Z :=
  if ws =? 1 then hdr_get wo 1
  else if ws =? 2 then hdr_get wo 2
  else if ws =? 4 then hdr_get wo 4
  else mret 0xffffffff.

Definition reg_read (off sz : Z) : M D Z := fun d =>
  match virtio_common_cfg_read d off sz with Ret v => Ret (v, d) | Stop e => Stop e end.

(** [virtio_header->common_config.f = virtio_common_cfg_read(dev, reg, n)]:
    the field of register [reg] is at the register's own offset. *)
Definition mirror (reg : Z) (n : nat) : M D unit :=
  v ← reg_read reg (Z.of_nat n); hdr_set (HDR_common_config + reg) n v.

Fixpoint mirror_all (l : list (Z * nat)) : M D unit :=
  match l with
  | [] => mret tt
  | (reg, n) :: l' => _ ← mirror reg n; mirror_all l'
  end.

Definition q_select_fields : list (Z * nat) :=
  [ (VIRTIO_PCI_COMMON_Q_SIZE, 2%nat); (VIRTIO_PCI_COMMON_Q_MSIX, 2%nat);
    (VIRTIO_PCI_COMMON_Q_ENABLE, 2%nat); (VIRTIO_PCI_COMMON_Q_NOFF, 2%nat);
    (VIRTIO_PCI_COMMON_Q_DESCLO, 4%nat); (VIRTIO_PCI_COMMON_Q_DESCHI, 4%nat);
    (VIRTIO_PCI_COMMON_Q_AVAILLO, 4%nat); (VIRTIO_PCI_COMMON_Q_AVAILHI, 4%nat);
    (VIRTIO_PCI_COMMON_Q_USEDLO, 4%nat); (VIRTIO_PCI_COMMON_Q_USEDHI, 4%nat) ].

Definition forced_features : Z :=
  Z.lor (Z.shiftl 1 (VIRTIO_F_ACCESS_PLATFORM - 32)) (Z.shiftl 1 (VIRTIO_F_VERSION_1 - 32)).

Definition side_effects (offset : Z) : M D unit :=
  switch offset
    [ ([VIRTIO_PCI_COMMON_DFSELECT],
        df ← reg_read VIRTIO_PCI_COMMON_DF 4;
        sel ← hdr_get (HDR_common_config + VIRTIO_PCI_COMMON_DFSELECT) 4;
        hdr_set (HDR_common_config + VIRTIO_PCI_COMMON_DF) 4
          (Z.lor df (if sel =? 1 then forced_features else 0)));
      ([VIRTIO_PCI_COMMON_GFSELECT], mirror VIRTIO_PCI_COMMON_GF 4);
      ([VIRTIO_PCI_COMMON_Q_SELECT], mirror_all q_select_fields) ]
    (mret tt).

Definition process_write_transaction : M D unit :=
  wt ← hdr_get HDR_write_transaction 4;
  if wt =? 0 then mret tt
  else
    wo ← hdr_get HDR_write_offset 2;
    ws ← hdr_get HDR_write_size 2;
    v ← new_value wo ws;
    _ ← (if (HDR_common_config <=? wo) && (wo <? HDR_config) then
           let offset := wo - HDR_common_config in
           _ ← virtio_common_cfg_write offset ws v; side_effects offset
         else if HDR_config <=? wo then
           (* the callback gets [dev], the struct pci_vdev *)
           match dev_cfgwrite with
           | None => halt NullDeref
           | Some _ => _ ← dev_cfgwrite_pci (wo - HDR_config) ws (u32 v); mret tt
           end
         else mret tt);
    hdr_set HDR_write_transaction 4 0.

(** ** handle_requests *)

Definition learn_peer : M D unit := fun d =>
  let s := vmctx d in
  if peer_id s =? -1 then
    (ff ← hdr_get HDR_frontend_flags 2;
     if ff =? 0 then mret tt
     else id ← hdr_get HDR_frontend_id 2;
          modify (fun d => set_vmctx (vmctx d <| peer_id := id |>) d)) d
  else Ret (tt, d).

Definition handle_requests : M D unit :=
  _ ← learn_peer;
  _ ← process_write_transaction;
  st ← hdr_get (HDR_common_config + VIRTIO_PCI_COMMON_STATUS) 1;
  if st =? 0xf then process_queue else mret tt.

(** ** vos_backend_init *)

(** From the opened mapping on.  [vdev_init] is the device's own
    initialisation, [None] for a failure; [subdev] and [subvend] are the two
    identifiers it left in the PCI configuration space. *)
Definition vos_backend_init (vdev_init : shmem_info -> outcome (option D))
    (subdev subvend : Z) (s : shmem_info) : outcome (option D) :=
  s ← st_bytes s 0 (replicate (Z.to_nat HDR_config) 0);
  s ← st_le s HDR_backend_status 4 (Z.lor (Z.shiftl (this_id s) 16) BACKEND_FLAG_PRESENT);
  s ← st_le s HDR_revision 4 1;
  r ← vdev_init s;
  match r with
  | None => Ret None
  | Some d =>
    '(_, d) ← hdr_set HDR_device_id 4 subdev d;
    '(_, d) ← hdr_set HDR_vendor_id 4 subvend d;
    '(_, d) ← hdr_set HDR_size 4 (HDR_config + cfgsize) d;
    match dev_cfgread with
    | None => Stop NullDeref
    | Some cfgread =>
      '(_, bytes) ← cfgread 0 cfgsize d;
      '(_, d) ← lift_shm (fun s => st_bytes s HDR_config bytes) d;
      '(_, d) ← upd_base (fun b => b <| dev ::= fun p => p <| msix_enabled := true |> |>) d;
      Ret (Some d)
    end
  end.
End Backend.

(** ** Lemmas *)

Section BackendLaws.
Context {D : Type} `{!VirtioDev D} `{!VirtioDevLaws D}.
Implicit Types d : D.

Lemma dev_ok_set_vmctx s d :
  mem_size s = mem_size (vmctx d) -> dev_ok d -> dev_ok (set_vmctx s d).
Proof.
  intros E [Hb Hi]. split; [|by apply dev_inv_set_vmctx].
  rewrite vbase_set_vmctx, vmctx_set_vmctx. by apply (base_ok_size _ (vmctx d)).
Qed.

(** The header lies inside the mapping. *)
Definition header_in d : Prop := HDR_config <= mem_size (vmctx d).

Lemma hdr_get_run d off n :
  0 <= off -> off + Z.of_nat n <= mem_size (vmctx d) ->
  exists v, hdr_get off n d = Ret (v, d) /\ ld_le (vmctx d) off n = Ret v.
Proof.
  intros H0 H1. destruct (ld_bytes_returns (vmctx d) off n H0 H1) as [bs E].
  exists (le_decode bs). unfold hdr_get, ld_le. by rewrite E.
Qed.

Lemma hdr_get_ret d off n v d' :
  hdr_get off n d = Ret (v, d') -> d' = d /\ ld_le (vmctx d) off n = Ret v.
Proof. unfold hdr_get. destruct (ld_le _ _ _); intros; by inv_ret. Qed.

Lemma hdr_set_run d off n v :
  dev_ok d -> 0 <= off -> off + Z.of_nat n <= mem_size (vmctx d) ->
  exists d', hdr_set off n v d = Ret (tt, d') /\ dev_ok d' /\ vbase d' = vbase d /\
    mem_size (vmctx d') = mem_size (vmctx d) /\ st_le (vmctx d) off n v = Ret (vmctx d').
Proof.
  intros Hd H0 H1. unfold hdr_set, lift_shm.
  destruct (st_bytes_returns (vmctx d) off (le_encode n v) H0) as [s E];
    [by rewrite length_le_encode|].
  unfold st_le. rewrite E. exists (set_vmctx s d).
  apply st_bytes_same_outside in E as Hs. destruct Hs as [Hsz _].
  rewrite vbase_set_vmctx, vmctx_set_vmctx.
  repeat split; try done; by apply dev_ok_set_vmctx.
Qed.

(** Copying registers into the header: the base is untouched, the invariant
    kept, and only the fields' own bytes change. *)
Lemma mirror_run d reg n cr :
  dev_ok d -> header_in d -> 0 <= reg -> reg + Z.of_nat n <= 56 ->
  hit reg (Z.of_nat n) = Some cr ->
  exists d' v, mirror reg n d = Ret (tt, d') /\ dev_ok d' /\ vbase d' = vbase d /\
    mem_size (vmctx d') = mem_size (vmctx d) /\
    virtio_common_cfg_read d reg (Z.of_nat n) = Ret v /\
    ld_le (vmctx d') (HDR_common_config + reg) n = Ret v /\
    same_outside (vmctx d) (vmctx d') (HDR_common_config + reg) (Z.of_nat n).
Proof.
  intros Hd Hh H0 H1 Hhit. unfold header_in, HDR_config, HDR_common_config in *.
  destruct (common_cfg_read_ok d reg (Z.of_nat n) cr) as (v & Hv & Hfit);
    [done|unfold fits; lia|unfold s32, swrap, wrap; Z.div_mod_to_equations; lia|done|].
  destruct (hdr_set_run d (32 + reg) n v) as (d' & E & Hd' & Hb & Hsz & Hst); [done|lia|lia|].
  exists d', v. unfold mirror, reg_read. run. rewrite Hv.
  apply ld_st_le_same in Hst as Hld. rewrite wrap_small in Hld by done.
  apply st_bytes_same_outside in Hst. rewrite length_le_encode in Hst.
  split_and!; done.
Qed.

(** A reading of [virtio_common_cfg] only depends on the base. *)
Lemma common_cfg_read_base d d' off sz :
  vbase d' = vbase d -> virtio_common_cfg_read d' off sz = virtio_common_cfg_read d off sz.
Proof. intros E. unfold virtio_common_cfg_read. by rewrite E. Qed.

(** Registers listed in increasing order, without overlap, from [lo] on. *)
Fixpoint reg_list (lo : Z) (l : list (Z * nat)) : Prop :=
  match l with
  | [] => True
  | (reg, n) :: l' =>
    lo <= reg /\ reg + Z.of_nat n <= 56 /\ (exists cr, hit reg (Z.of_nat n) = Some cr) /\
    reg_list (reg + Z.of_nat n) l'
  end.

Lemma mirror_all_run l lo d :
  dev_ok d -> header_in d -> 0 <= lo -> reg_list lo l ->
  exists d', mirror_all l d = Ret (tt, d') /\ dev_ok d' /\ vbase d' = vbase d /\
    mem_size (vmctx d') = mem_size (vmctx d) /\
    (forall a, a < HDR_common_config + lo ->
       byte_at (mem (vmctx d')) a = byte_at (mem (vmctx d)) a) /\
    Forall (fun '(reg, n) => 0 <= reg /\ exists v, virtio_common_cfg_read d reg (Z.of_nat n) = Ret v /\
       ld_le (vmctx d') (HDR_common_config + reg) n = Ret v) l.
Proof.
  revert lo d. induction l as [|[reg n] l IH]; intros lo d Hd Hh Hlo Hl; simpl in *.
  { exists d. split_and!; done. }
  destruct Hl as (Hreg & Hend & [cr Hcr] & Hl).
  destruct (mirror_run d reg n cr) as (d1 & v & E1 & Hd1 & Hb1 & Hsz1 & Hv & Hld & Hsame);
    [done|done|lia|done|done|].
  destruct (IH (reg + Z.of_nat n) d1) as (d2 & E2 & Hd2 & Hb2 & Hsz2 & Hlow & Hall);
    [done|unfold header_in; by rewrite Hsz1|lia|done|].
  exists d2. run. rewrite E1. split; [done|]. split; [done|]. split; [congruence|].
  split; [congruence|]. split.
  { intros a Ha. rewrite Hlow by lia. apply Hsame. lia. }
  constructor.
  - split; [lia|]. exists v. split; [done|]. rewrite <- Hld. unfold ld_le. 
    rewrite (ld_bytes_ext (vmctx d1) (vmctx d2)); [done|done|].
    intros a Ha. apply Hlow. lia.
  - eapply Forall_impl; [exact Hall|]. intros [r k] (Hr & w & Hw & Hw').
    split; [done|]. exists w. split; [|done]. by rewrite <- (common_cfg_read_base d d1).
Qed.

Lemma side_effects_run off d :
  dev_ok d -> header_in d ->
  exists d', side_effects off d = Ret (tt, d') /\ dev_ok d' /\ vbase d' = vbase d /\
    mem_size (vmctx d') = mem_size (vmctx d) /\
    (off = VIRTIO_PCI_COMMON_Q_SELECT ->
     Forall (fun '(reg, n) => 0 <= reg /\ exists v, virtio_common_cfg_read d reg (Z.of_nat n) = Ret v /\
       ld_le (vmctx d') (HDR_common_config + reg) n = Ret v) q_select_fields).
Proof.
  intros Hd Hh. unfold side_effects, switch. cbn [existsb].
  destruct (Z.eqb_spec off VIRTIO_PCI_COMMON_DFSELECT) as [->|]; cbn [orb].
  { destruct (common_cfg_read_ok d VIRTIO_PCI_COMMON_DF 4 (mkReg VIRTIO_PCI_COMMON_DF 4 true))
      as (v & Hv & _); [done..|]. run. unfold reg_read. rewrite Hv.
    destruct (hdr_get_run d (HDR_common_config + VIRTIO_PCI_COMMON_DFSELECT) 4) as (w & -> & _);
      [done|unfold header_in in Hh; etransitivity; [|exact Hh]; done|].
    destruct (hdr_set_run d (HDR_common_config + VIRTIO_PCI_COMMON_DF) 4
      (Z.lor v (if w =? 1 then forced_features else 0))) as (d' & E & ? & ? & ? & _);
      [done|done|unfold header_in in Hh; etransitivity; [|exact Hh]; done|].
    exists d'. by split_and!. }
  destruct (Z.eqb_spec off VIRTIO_PCI_COMMON_GFSELECT) as [->|]; cbn [orb].
  { destruct (mirror_run d VIRTIO_PCI_COMMON_GF 4 (mkReg VIRTIO_PCI_COMMON_GF 4 false))
      as (d' & v & E & ? & ? & ? & _); [done..|]. exists d'. by split_and!. }
  destruct (Z.eqb_spec off VIRTIO_PCI_COMMON_Q_SELECT) as [->|]; cbn [orb]; [|by exists d].
  destruct (mirror_all_run q_select_fields 24 d) as (d' & E & ? & ? & ? & _ & Hall);
    [done|done|done|cbn [reg_list q_select_fields]; split_and!; try (by eexists); done|].
  exists d'. by split_and!.
Qed.

Lemma new_value_run d wo ws :
  mem_ok (vmctx d) -> 0 <= wo -> wo + 4 <= mem_size (vmctx d) ->
  exists v, new_value wo ws d = Ret (v, d) /\ (forall cr off, hit off ws = Some cr -> fits (8 * ws) v).
Proof.
  intros Hm H0 H1. unfold new_value.
  assert (Hn : forall n, (n <= 4)%nat -> exists v, hdr_get wo n d = Ret (v, d) /\ fits (8 * Z.of_nat n) v).
  { intros n Hn. destruct (hdr_get_run d wo n) as (v & E & Hv); [done|lia|].
    exists v. split; [done|]. by eapply ld_le_fits. }
  destruct (Z.eqb_spec ws 1) as [->|]; [destruct (Hn 1%nat) as (v & ? & ?); [lia|by exists v]|].
  destruct (Z.eqb_spec ws 2) as [->|]; [destruct (Hn 2%nat) as (v & ? & ?); [lia|by exists v]|].
  destruct (Z.eqb_spec ws 4) as [->|]; [destruct (Hn 4%nat) as (v & ? & ?); [lia|by exists v]|].
  eexists. split; [done|]. intros cr off. unfold hit.
  destruct (lookup_reg _ _) as [c|] eqn:E; [|done].
  apply lookup_modern in E as [Hin _]. destruct (Z.eqb_spec (cr_size c) ws) as [Hc|]; [|done].
  simpl in Hin. repeat destruct Hin as [<-|Hin]; simpl in Hc; congruence || done.
Qed.

(** A write transaction that names a register or a header field. *)
Lemma transaction_run d wt wo ws :
  dev_ok d -> mem_ok (vmctx d) -> 2 ^ 16 + 4 <= mem_size (vmctx d) ->
  ld_le (vmctx d) HDR_write_transaction 4 = Ret wt ->
  ld_le (vmctx d) HDR_write_offset 2 = Ret wo ->
  ld_le (vmctx d) HDR_write_size 2 = Ret ws ->
  wo < HDR_config -> wt <> 0 ->
  exists d', process_write_transaction d = Ret (tt, d') /\ dev_ok d' /\
    mem_size (vmctx d') = mem_size (vmctx d) /\
    ld_le (vmctx d') HDR_write_transaction 4 = Ret 0 /\
    (HDR_common_config <= wo -> exists v d1 d2,
       new_value wo ws d = Ret (v, d) /\
       virtio_common_cfg_write (wo - HDR_common_config) ws v d = Ret (tt, d1) /\
       side_effects (wo - HDR_common_config) d1 = Ret (tt, d2) /\
       vbase d' = vbase d1 /\
       forall a n, HDR_common_config <= a -> ld_le (vmctx d') a n = ld_le (vmctx d2) a n).
Proof.
  intros Hd Hm Hsz Hwt Hwo Hws Hlt Hne.
  assert (Hw : fits 16 wo) by exact (ld_le_fits _ _ _ _ Hm Hwo).
  destruct Hw as [Hw0 Hw1]. unfold HDR_config, HDR_common_config in *.
  destruct (new_value_run d wo ws Hm) as (v & Ev & Hv); [lia|lia|].
  assert (Hmid : exists d2, (if (32 <=? wo) && (wo <? 88) then
      (_ ← virtio_common_cfg_write (wo - 32) ws v; side_effects (wo - 32)) d else Ret (tt, d))
      = Ret (tt, d2) /\ stays d d2 /\
      (32 <= wo -> exists d1, virtio_common_cfg_write (wo - 32) ws v d = Ret (tt, d1) /\
         side_effects (wo - 32) d1 = Ret (tt, d2) /\ vbase d2 = vbase d1)).
  { destruct (Z.leb_spec 32 wo), (Z.ltb_spec wo 88); simpl; try lia;
      [|exists d; split; [done|split; [by apply stays_refl|lia]]].
    destruct (common_cfg_write_ok d (wo - 32) ws v) as (d1 & E1 & Hs1);
      [done|unfold fits; lia|unfold s32, swrap, wrap; Z.div_mod_to_equations; lia
      |intros cr Hcr; by eapply Hv|].
    destruct (side_effects_run (wo - 32) d1) as (d2 & E2 & Hd2 & Hb2 & Hm2 & _);
      [apply Hs1|unfold header_in, HDR_config; destruct Hs1 as [_ ->]; lia|].
    exists d2. run. rewrite E1. split; [done|]. split.
    { eapply stays_trans; [exact Hs1|]. by split. }
    intros _. by exists d1. }
  destruct Hmid as (d2 & E2 & [Hd2 Hm2] & Hstep).
  destruct (hdr_set_run d2 HDR_write_transaction 4 0) as (d3 & E3 & Hd3 & Hb3 & Hm3 & Hst);
    [done|done|unfold HDR_write_transaction; lia|].
  exists d3. split_and!.
  - unfold process_write_transaction. run. unfold hdr_get at 1. rewrite Hwt.
    destruct (Z.eqb_spec wt 0); [done|]. run. unfold hdr_get. rewrite Hwo, Hws. 
    rewrite Ev. unfold HDR_common_config, HDR_config.
    destruct ((32 <=? wo) && (wo <? 88)) eqn:Ein; revert E2; run; intros E2.
    + rewrite E2. exact E3.
    + destruct (Z.leb_spec 88 wo); [lia|]. inv_ret. exact E3.
  - done.
  - congruence.
  - exact (ld_st_le_same _ _ _ _ _ Hst).
  - intros Hle. destruct (Hstep Hle) as (d1 & E1 & Es & Hb). exists v, d1, d2. split_and!; try done.
    + congruence.
    + intros a n Ha. apply (ld_st_le_disjoint _ _ _ _ _ _ _ Hst).
      unfold HDR_write_transaction. lia.
Qed.
End BackendLaws.

(** ** Specification of the queue walk *)

Section QueueSpec.
Context {D : Type} `{!VirtioDev D}.

(** The ready queues with their indices, in increasing order. *)
Definition ready_queues (qs : list virtio_vq_info) : list (Z * virtio_vq_info) :=
  List.filter (fun p => vq_ring_ready p.2) (imap (fun i q => (Z.of_nat i, q)) qs).

Fixpoint run_notify (l : list (Z * virtio_vq_info)) : M D unit :=
  match l with
  | [] => mret tt
  | (i, q) :: l' => _ ← notify_queue q i; run_notify l'
  end.

(** What the walk looks at in a queue. *)
Definition gates (b : virtio_base) : list (bool * option nat) :=
  map (fun q => (vq_ring_ready q, notify q)) (queues b).

Lemma ready_queues_snoc qs q :
  ready_queues (qs ++ [q]) =
  ready_queues qs ++ (if vq_ring_ready q then [(Z.of_nat (length qs), q)] else []).
Proof.
  unfold ready_queues. rewrite imap_app, List.filter_app. simpl.
  by rewrite Nat.add_0_r.
Qed.

Lemma gates_lookup b qs i q :
  gates b = map (fun q => (vq_ring_ready q, notify q)) qs -> qs !! i = Some q ->
  exists q', queues b !! i = Some q' /\ vq_ring_ready q' = vq_ring_ready q /\ notify q' = notify q.
Proof.
  intros Hg Hq. apply (f_equal (fun l => l !! i)) in Hg. unfold gates in Hg.
  rewrite !list_lookup_fmap, Hq in Hg. destruct (queues b !! i) as [q'|]; simplify_eq/=.
  by exists q'.
Qed.

Lemma process_queue_loop_spec qs n d :
  (forall q i d d', notify_queue q i d = Ret (tt, d') -> gates (vbase d') = gates (vbase d)) ->
  (n <= length qs)%nat -> gates (vbase d) = map (fun q => (vq_ring_ready q, notify q)) qs ->
  process_queue_loop n d = run_notify (reverse (ready_queues (take n qs))) d.
Proof.
  intros Hcb. revert d. induction n as [|n IH]; intros d Hn Hg; [done|]. cbn [process_queue_loop].
  destruct (lookup_lt_is_Some_2 qs n ltac:(lia)) as [q Hq].
  rewrite (take_S_r _ _ _ Hq), ready_queues_snoc, reverse_app.
  rewrite length_take, Nat.min_l by lia.
  destruct (gates_lookup _ _ _ _ Hg Hq) as (q' & Hq' & Hr & Hnot).
  run. unfold process_one. run. rewrite nthZ_lookup, Nat2Z.id, Hq', Hr by lia.
  destruct (vq_ring_ready q); simpl; [|by apply IH; [lia|]].
  assert (E : notify_queue q' (Z.of_nat n) d = notify_queue q (Z.of_nat n) d)
    by (unfold notify_queue; by rewrite Hnot).
  rewrite E. run. destruct (notify_queue q (Z.of_nat n) d) as [[[] d1]|] eqn:E1; [|done].
  apply IH; [lia|]. rewrite <- Hg. by eapply Hcb.
Qed.
End QueueSpec.

(** ** Properties *)

Section BackendClaims.
Context {D : Type} `{!VirtioDev D} `{!VirtioDevLaws D}.
Implicit Types d : D.

(** C3.  A write transaction that names a common-configuration register is
    that register's write: the device base ends as the register write leaves
    it, whatever the frontend put in the transaction; the header fields end
    as the side effects leave them; and the transaction is acknowledged
    (the word reads 0). *)
Theorem transaction_refines_write d wt wo ws :
  dev_ok d -> mem_ok (vmctx d) -> 2 ^ 16 + 4 <= mem_size (vmctx d) ->
  ld_le (vmctx d) HDR_write_transaction 4 = Ret wt -> wt <> 0 ->
  ld_le (vmctx d) HDR_write_offset 2 = Ret wo ->
  ld_le (vmctx d) HDR_write_size 2 = Ret ws ->
  HDR_common_config <= wo < HDR_config ->
  exists v d1 d2 d',
    new_value wo ws d = Ret (v, d) /\
    virtio_common_cfg_write (wo - HDR_common_config) ws v d = Ret (tt, d1) /\
    side_effects (wo - HDR_common_config) d1 = Ret (tt, d2) /\
    process_write_transaction d = Ret (tt, d') /\ dev_ok d' /\ vbase d' = vbase d1 /\
    ld_le (vmctx d') HDR_write_transaction 4 = Ret 0 /\
    (forall a n, HDR_common_config <= a -> ld_le (vmctx d') a n = ld_le (vmctx d2) a n).
Proof.
  intros Hd Hm Hsz Hwt Hne Hwo Hws [H0 H1].
  destruct (transaction_run d wt wo ws) as (d' & E & Hd' & _ & Hack & Hstep); [done..|].
  destruct (Hstep H0) as (v & d1 & d2 & ? & ? & ? & ? & ?). by exists v, d1, d2, d'.
Qed.

(**  Selecting a queue through a transaction publishes the selected
    queue: afterwards each of the ten queue fields of the shared header
    holds what the register of that name reads. *)
Theorem q_select_mirrored d wt :
  dev_ok d -> mem_ok (vmctx d) -> 2 ^ 16 + 4 <= mem_size (vmctx d) ->
  ld_le (vmctx d) HDR_write_transaction 4 = Ret wt -> wt <> 0 ->
  ld_le (vmctx d) HDR_write_offset 2 = Ret (HDR_common_config + VIRTIO_PCI_COMMON_Q_SELECT) ->
  ld_le (vmctx d) HDR_write_size 2 = Ret 2 ->
  exists d', process_write_transaction d = Ret (tt, d') /\
    virtio_common_cfg_read d' VIRTIO_PCI_COMMON_Q_SELECT 2
      = ld_le (vmctx d) (HDR_common_config + VIRTIO_PCI_COMMON_Q_SELECT) 2 /\
    Forall (fun '(reg, n) =>
      ld_le (vmctx d') (HDR_common_config + reg) n
        = virtio_common_cfg_read d' reg (Z.of_nat n)) q_select_fields.
Proof.
  intros Hd Hm Hsz Hwt Hne Hwo Hws.
  destruct (transaction_run d wt _ 2 Hd Hm Hsz Hwt Hwo Hws) as (d' & E & Hd' & _ & _ & Hstep);
    [done|done|].
  destruct Hstep as (v & d1 & d2 & Ev & E1 & Es & Hb & Hld); [done|].
  destruct (common_cfg_write_ok d VIRTIO_PCI_COMMON_Q_SELECT 2 v) as (d1' & E1' & Hd1 & Hm1);
    [done..| |].
  { intros cr _. apply hdr_get_ret in Ev as [_ Ev]. exact (ld_le_fits _ _ _ _ Hm Ev). }
  change (HDR_common_config + VIRTIO_PCI_COMMON_Q_SELECT - HDR_common_config)
    with VIRTIO_PCI_COMMON_Q_SELECT in *.
  rewrite E1 in E1'. injection E1' as <-.
  destruct (side_effects_run VIRTIO_PCI_COMMON_Q_SELECT d1) as (d2' & Es' & _ & Hb2 & _ & Hall);
    [done|unfold header_in, HDR_config; lia|].
  rewrite Es in Es'. injection Es' as <-. specialize (Hall eq_refl).
  exists d'. split; [done|]. apply hdr_get_ret in Ev as [_ Ev]. split.
  - rewrite (common_cfg_read_base d1 d') by done. cbn in Ev. rewrite Ev.
    pose proof (ld_le_fits _ _ _ _ Hm Ev) as Hfit.
    cbn in E1. unfold upd_base, modify in E1. injection E1 as <-.
    change (virtio_common_cfg_read ?x VIRTIO_PCI_COMMON_Q_SELECT 2) with (Ret (u32 (curq (vbase x)))).
    rewrite vbase_set_vbase. cbn. f_equal. revert Hfit. change (8 * Z.of_nat 2) with 16. wrap_lia.
  - eapply Forall_impl; [exact Hall|]. intros [reg n] (Hr & w & Hw & Hw').
    rewrite (common_cfg_read_base d1 d') by done. rewrite Hw.
    by rewrite Hld by (unfold HDR_common_config; lia).
Qed.

(**  The queue walk notifies exactly the ready queues, from the last to
    the first, for any device whose notifications leave alone which queues
    are ready. *)
Theorem process_queue_order d :
  (forall q i d d', notify_queue q i d = Ret (tt, d') -> gates (vbase d') = gates (vbase d)) ->
  Z.of_nat (length (queues (vbase d))) = nvq ->
  process_queue d = run_notify (reverse (ready_queues (queues (vbase d)))) d.
Proof.
  intros Hcb Hl. unfold process_queue.
  rewrite (process_queue_loop_spec (queues (vbase d))), take_ge; [done|lia|done|lia|done].
Qed.

Lemma process_queue_loop_ok d n :
  (forall q i d, dev_ok d -> keeps_ok d (notify_queue q i)) ->
  dev_ok d -> Z.of_nat n <= nvq -> keeps_ok d (process_queue_loop n).
Proof.
  intros Hcb. revert d. induction n as [|n IH]; intros d Hd Hn; [exists d; by split; [|apply stays_refl]|].
  assert (H1 : keeps_ok d (process_one (Z.of_nat n))).
  { unfold keeps_ok, process_one. run. rewrite nthZ_lookup, Nat2Z.id by lia.
    destruct (lookup_lt_is_Some_2 (queues (vbase d)) n) as [q Hq]; [destruct Hd as [[] _]; lia|].
    rewrite Hq. destruct (vq_ring_ready q); [by apply Hcb|].
    exists d. by split; [|apply stays_refl]. }
  destruct H1 as (d1 & E1 & Hs1). destruct (IH d1) as (d2 & E2 & Hs2); [apply Hs1|lia|].
  exists d2. cbn [process_queue_loop]. run. rewrite E1. split; [done|]. by eapply stays_trans.
Qed.

Lemma learn_peer_run d :
  dev_ok d -> header_in d ->
  exists d', learn_peer d = Ret (tt, d') /\ stays d d' /\ mem (vmctx d') = mem (vmctx d).
Proof.
  intros Hd Hh. unfold learn_peer, header_in, HDR_config in *.
  destruct (_ =? _); [|exists d; split_and!; [done|by apply stays_refl|done]].
  destruct (hdr_get_run d HDR_frontend_flags 2) as (ff & E1 & _); [done|unfold HDR_frontend_flags; lia|].
  destruct (hdr_get_run d HDR_frontend_id 2) as (id & E2 & _); [done|unfold HDR_frontend_id; lia|].
  run. rewrite E1. destruct (_ =? _); [exists d; split_and!; [done|by apply stays_refl|done]|].
  rewrite E2. eexists. split; [done|]. rewrite vmctx_set_vmctx. split; [|done].
  split; [by apply dev_ok_set_vmctx|by rewrite vmctx_set_vmctx].
Qed.

(** What follows a transaction that left the device well formed. *)
Lemma requests_after d d1 d2 :
  (forall q i d, dev_ok d -> keeps_ok d (notify_queue q i)) ->
  2 ^ 16 + 4 <= mem_size (vmctx d2) -> learn_peer d = Ret (tt, d1) ->
  process_write_transaction d1 = Ret (tt, d2) -> dev_ok d2 ->
  exists d', handle_requests d = Ret (tt, d') /\ dev_ok d'.
Proof.
  intros Hcb Hsz E1 E2 Hd2.
  destruct (hdr_get_run d2 (HDR_common_config + VIRTIO_PCI_COMMON_STATUS) 1) as (st & E3 & _);
    [done|unfold HDR_common_config, VIRTIO_PCI_COMMON_STATUS; lia|].
  unfold handle_requests. run. rewrite E1, E2, E3.
  destruct (_ =? _); [|by exists d2].
  destruct (process_queue_loop_ok d2 (Z.to_nat nvq)) as (d3 & E4 & Hd3 & _);
    [done|done|pose proof nvq_range; lia|by exists d3].
Qed.

(** A transaction that names the device's configuration is the callback's on the wrong structure. *)
Lemma transaction_config d wt wo ws v :
  ld_le (vmctx d) HDR_write_transaction 4 = Ret wt -> ld_le (vmctx d) HDR_write_offset 2 = Ret wo ->
  ld_le (vmctx d) HDR_write_size 2 = Ret ws -> wt <> 0 -> HDR_config <= wo -> new_value wo ws d = Ret (v, d) ->
  process_write_transaction d =
    match dev_cfgwrite with
    | None => Stop NullDeref
    | Some _ => match dev_cfgwrite_pci (wo - HDR_config) ws (u32 v) d with
                | Stop e => Stop e
                | Ret (_, d2) => hdr_set HDR_write_transaction 4 0 d2
                end
    end.
Proof.
  intros Hwt Hwo Hws Hne Hcfg Ev. unfold process_write_transaction. run. unfold hdr_get at 1. rewrite Hwt.
  destruct (Z.eqb_spec wt 0); [done|]. run. unfold hdr_get. rewrite Hwo, Hws, Ev.
  rewrite (proj2 (Z.ltb_ge wo HDR_config)), andb_false_r, (proj2 (Z.leb_le _ _)) by done.
  destruct dev_cfgwrite; [|done]. run. by destruct (dev_cfgwrite_pci _ _ _ d) as [[r d2]|].
Qed.

(** C6.  Handling a request, whatever the frontend left in the shared memory.  When no transaction is
    pending, or the pending one names the header or a common-configuration register, [handle_requests] ends,
    without an access outside the mapping, and the device stays well formed.  When it names the
    device's configuration the device's write callback runs, and on the wrong
    structure (the [struct pci_vdev]): without a callback NULL is called; where that run stops so does
    [handle_requests]; and where it leaves the device well formed it ends and keeps it so. *)
Theorem handle_requests_safe d wt wo ws :
  (forall q i d, dev_ok d -> keeps_ok d (notify_queue q i)) ->
  dev_ok d -> mem_ok (vmctx d) -> 2 ^ 16 + 4 <= mem_size (vmctx d) ->
  ld_le (vmctx d) HDR_write_transaction 4 = Ret wt ->
  ld_le (vmctx d) HDR_write_offset 2 = Ret wo ->
  ld_le (vmctx d) HDR_write_size 2 = Ret ws ->
  (wt = 0 \/ wo < HDR_config -> exists d', handle_requests d = Ret (tt, d') /\ dev_ok d') /\
  (wt <> 0 -> HDR_config <= wo ->
     match dev_cfgwrite with
     | None => handle_requests d = Stop NullDeref
     | Some _ => exists d1 v, learn_peer d = Ret (tt, d1) /\ new_value wo ws d1 = Ret (v, d1) /\
         match dev_cfgwrite_pci (wo - HDR_config) ws (u32 v) d1 with
         | Stop e => handle_requests d = Stop e
         | Ret (_, d2) => stays d1 d2 -> exists d', handle_requests d = Ret (tt, d') /\ dev_ok d'
         end
     end).
Proof.
  intros Hcb Hd Hm Hsz Hwt Hwo Hws.
  destruct (learn_peer_run d Hd) as (d1 & E1 & [Hd1 Hm1] & Hmem);
    [unfold header_in, HDR_config; lia|].
  assert (Hld : forall a n, ld_le (vmctx d1) a n = ld_le (vmctx d) a n).
  { intros a n. unfold ld_le, ld_bytes, in_bounds. by rewrite Hm1, Hmem. }
  assert (Hmok : mem_ok (vmctx d1)) by (unfold mem_ok; by rewrite Hmem). split.
  - intros Hok. assert (H2 : keeps_ok d1 process_write_transaction).
    { destruct (Z.eq_dec wt 0) as [->|Hne].
      - exists d1. unfold process_write_transaction. run. unfold hdr_get at 1.
        rewrite Hld, Hwt. split; [done|by apply stays_refl].
      - destruct (transaction_run d1 wt wo ws) as (d2 & E2 & Hd2 & Hm2 & _); rewrite ?Hld; try done;
          [lia|by destruct Hok|by exists d2]. }
    destruct H2 as (d2 & E2 & [Hd2 Hm2]). by apply (requests_after d d1 d2); [|lia|..].
  - intros Hne Hcfg. destruct (ld_le_fits _ _ _ _ Hm Hwo) as [Hw0 Hw1].
    destruct (new_value_run d1 wo ws Hmok) as (v & Ev & _); [lia|lia|].
    pose proof (transaction_config d1 wt wo ws v) as Et. rewrite !Hld in Et.
    specialize (Et Hwt Hwo Hws Hne Hcfg Ev). revert Et.
    destruct dev_cfgwrite as [f|]; [|intros Et; unfold handle_requests; run; by rewrite E1, Et].
    intros Et. exists d1, v. split; [done|]. split; [done|]. revert Et.
    destruct (dev_cfgwrite_pci _ _ _ d1) as [[r d2]|e]; [|intros Et; unfold handle_requests; run; by rewrite E1, Et].
    intros Et [Hd2 Hm2].
    destruct (hdr_set_run d2 HDR_write_transaction 4 0) as (d3 & E3 & Hd3 & _ & Hm3 & _);
      [done|done|unfold HDR_write_transaction; lia|].
    apply (requests_after d d1 d3); [done|lia|done|by rewrite Et|done].
Qed.

Lemma hdr_set_shm off n v d s' :
  st_le (vmctx d) off n v = Ret s' -> hdr_set off n v d = Ret (tt, set_vmctx s' d).
Proof. unfold hdr_set, lift_shm. by intros ->. Qed.

(**  Bring-up: when the device's own initialisation succeeds, the
    frontend finds a complete header: the revision, this peer's identifier,
    the device's identifiers, the total size, no pending transaction, and
    the device's configuration behind it; and MSI-X is enabled. *)
Theorem backend_init_header mk cfgread cfg err subdev subvend s :
  (forall s, vmctx (mk s) = s) ->
  dev_cfgread = Some cfgread ->
  (forall s d, cfgread 0 cfgsize (set_vmctx s d) = cfgread 0 cfgsize d) ->
  (forall s, cfgread 0 cfgsize (mk s) = Ret (err, cfg)) ->
  0 <= cfgsize -> Z.of_nat (length cfg) = cfgsize -> fits 32 (HDR_config + cfgsize) ->
  HDR_config + cfgsize <= mem_size s ->
  fits 16 subdev -> fits 16 subvend -> fits 15 (this_id s) ->
  exists d, vos_backend_init (fun s => Ret (Some (mk s))) subdev subvend s = Ret (Some d) /\
    ld_le (vmctx d) HDR_revision 4 = Ret 1 /\
    ld_le (vmctx d) HDR_size 4 = Ret (HDR_config + cfgsize) /\
    ld_le (vmctx d) HDR_device_id 4 = Ret subdev /\
    ld_le (vmctx d) HDR_vendor_id 4 = Ret subvend /\
    ld_le (vmctx d) HDR_write_transaction 4 = Ret 0 /\
    ld_le (vmctx d) HDR_backend_status 4
      = Ret (Z.lor (Z.shiftl (this_id s) 16) BACKEND_FLAG_PRESENT) /\
    ld_bytes (vmctx d) HDR_config (length cfg) = Ret cfg /\
    msix_enabled (dev (vbase d)) = true.
Proof.
  intros Hmk Hcb Hind Hcfg Hpos Hlen Hsz Hmem Hsd Hsv Hid.
  unfold vos_backend_init. unfold HDR_config in *.
  assert (Hst : forall s1 off n v, mem_size s1 = mem_size s -> 0 <= off -> off + Z.of_nat n <= 88 ->
     exists s2, st_le s1 off n v = Ret s2 /\ mem_size s2 = mem_size s).
  { intros s1 off n v E1 H0 H1.
    destruct (st_bytes_returns s1 off (le_encode n v)) as [s2 E2]; [done|rewrite length_le_encode; lia|].
    exists s2. split; [done|]. apply st_bytes_same_outside in E2 as [E2 _]. congruence. }
  destruct (st_bytes_returns s 0 (replicate (Z.to_nat 88) 0)) as [s1 E1]; [done|rewrite length_replicate; lia|].
  apply st_bytes_same_outside in E1 as Hz. destruct Hz as [M1 _].
  rewrite E1.
  assert (I1 : this_id s1 = this_id s) by (apply st_bytes_ret in E1 as (_ & _ & ->); done).
  cbn [mbind outcome_bind]. rewrite I1.
  destruct (Hst s1 HDR_backend_status 4%nat (Z.lor (Z.shiftl (this_id s) 16) BACKEND_FLAG_PRESENT))
    as (s2 & E2 & M2); [done..|]. rewrite E2. cbn [mbind outcome_bind].
  destruct (Hst s2 HDR_revision 4%nat 1) as (s3 & E3 & M3); [done..|].
  rewrite E3. cbn [mbind outcome_bind].
  destruct (Hst s3 HDR_device_id 4%nat subdev) as (s4 & E4 & M4); [done..|].
  rewrite (hdr_set_shm _ _ _ _ s4) by (by rewrite Hmk). cbn [mbind outcome_bind].
  destruct (Hst s4 HDR_vendor_id 4%nat subvend) as (s5 & E5 & M5); [done..|].
  rewrite (hdr_set_shm _ _ _ _ s5) by (by rewrite vmctx_set_vmctx). cbn [mbind outcome_bind].
  destruct (Hst s5 HDR_size 4%nat (88 + cfgsize)) as (s6 & E6 & M6); [done..|].
  rewrite (hdr_set_shm _ _ _ _ s6) by (by rewrite vmctx_set_vmctx). cbn [mbind outcome_bind].
  rewrite Hcb, !Hind, Hcfg. cbn [mbind outcome_bind].
  destruct (st_bytes_returns s6 88 cfg) as [s7 E7]; [done|lia|].
  unfold lift_shm. rewrite vmctx_set_vmctx, E7. cbn [mbind outcome_bind].
  eexists. split; [reflexivity|]. rewrite vmctx_set_vbase, vmctx_set_vmctx, vbase_set_vbase.
  assert (Hfar : forall a n, a + Z.of_nat n <= 88 -> ld_le s7 a n = ld_le s6 a n).
  { intros a n Ha. unfold ld_le. erewrite ld_st_disjoint; [done|exact E7|lia]. }
  rewrite !Hfar by done.
  split_and!.
  7: exact (ld_st_same _ _ _ _ E7).
  7: done.
  all: repeat lazymatch goal with
    | E : st_le _ ?o ?n _ = Ret ?t |- ld_le ?t ?o ?n = _ => rewrite (ld_st_le_same _ _ _ _ _ E)
    | E : st_le _ _ _ _ = Ret ?t |- ld_le ?t _ _ = _ =>
      rewrite (ld_st_le_disjoint _ _ _ _ _ _ _ E) by first [left; by vm_compute | right; by vm_compute]
    | E : st_bytes _ _ _ = Ret ?t |- ld_le ?t _ _ = _ =>
      rewrite (ld_le_zero _ _ _ _ _ _ E) by done
    end.
  all: f_equal; try apply wrap_small; try done; try (by eapply fits_mono; [|eassumption]).
  apply fits_lor; [done| |by vm_compute]. rewrite Z.shiftl_mul_pow2 by done.
  revert Hid. unfold fits. change (2 ^ (8 * Z.of_nat 4)) with (2 ^ 32). lia.
Qed.
End BackendClaims.

(** ** Concrete runs *)

Module BackendDemo.
Import CoreDemo.

(** The frontend selects queue 1: a transaction on the queue-select register
    of size 2, with the status field at 0xf. *)
Definition request : gmap Z Z :=
  mem_write (mem_write (mem_write ∅ HDR_write_offset [54; 0; 2; 0]) 52 [15]) 54 [1; 0].
Definition shm : shmem_info := mkShmem 3 0x20000 0 (-1) 2 request [].
Definition ready_vq : virtio_vq_info :=
  mkVq 64 None 1 VQ_ALLOC 0 0 1 0 (Some 0x1000) (Some 0x2000) (Some 0x3000)
    0x1000 0 0x2000 0 0x3000 0 true.
Definition d1 : CoreDemo.D := (CoreDemo.d0.1 <| queues := [vq; ready_vq] |> <| curq := 0 |>, shm).

Lemma d1_ok : dev_ok d1.
Proof.
  split; [|done]. split; try reflexivity; try (split_and!; by vm_compute).
  constructor; [|constructor; [|constructor]]; split; try (split_and!; by vm_compute).
  - discriminate.
  - intros _. unfold ring_in. split_and!; eexists; (split; [reflexivity|by vm_compute]).
Defined.

Lemma shm_ok : mem_ok (vmctx d1).
Proof. apply mem_okb_ok. by vm_compute. Defined.

(** A device with an eight-byte configuration that can be read. *)
Definition cfg : list Z := [1; 2; 3; 4; 5; 6; 7; 8].
Definition mk (s : shmem_info) : CoreDemo.D := (CoreDemo.d0.1, s).
Definition cfgread (off sz : Z) (d : CoreDemo.D) : outcome (Z * list Z) :=
  Ret (0, take (Z.to_nat sz) (drop (Z.to_nat off) cfg)).
Definition cfg_dev : VirtioDev CoreDemo.D := {|
  vbase := fst; set_vbase b d := (b, d.2); vmctx := snd; set_vmctx s d := (d.1, s);
  nvq := 2; cfgsize := 8; dev_reset := Some CoreDemo.reset; dev_qnotify := None;
  dev_cfgread := Some cfgread; dev_cfgwrite := None; dev_cfgwrite_pci _ _ _ := mret 0;
  dev_apply_features := None; dev_set_status := None; dev_notify _ _ := mret tt |}.
Definition cfg_laws : @VirtioDevLaws CoreDemo.D cfg_dev.
Proof.
  refine {| dev_inv := fun _ => True |}; try done.
  intros cb [b s] [= <-] _ Hi. unfold CoreDemo.reset. cbn in *.
  rewrite virtio_reset_dev_ret by done. by eexists.
Defined.
End BackendDemo.
Import CoreDemo BackendDemo.

Lemma transaction_refines_write_witness :
  exists v d2 d', virtio_common_cfg_write VIRTIO_PCI_COMMON_Q_SELECT 2 v d1 = Ret (tt, d2) /\
    process_write_transaction d1 = Ret (tt, d') /\ vbase d' = vbase d2.
Proof.
  destruct (transaction_refines_write d1 131126 54 2) as (v & d2 & d3 & d' & _ & H1 & _ & H2 & _ & H3 & _);
    [exact d1_ok|exact shm_ok|by vm_compute..|].
  exists v, d2, d'. split; [exact H1|]. split; [exact H2|exact H3].
Defined.

Lemma q_select_mirrored_witness :
  exists d', process_write_transaction d1 = Ret (tt, d') /\
    virtio_common_cfg_read d' VIRTIO_PCI_COMMON_Q_SELECT 2 = Ret 1.
Proof.
  destruct (q_select_mirrored d1 131126) as (d' & H1 & H2 & _);
    [exact d1_ok|exact shm_ok|by vm_compute..|].
  exists d'. split; [exact H1|]. rewrite H2. by vm_compute.
Defined.

Lemma process_queue_order_witness :
  process_queue d1 = run_notify [(1, ready_vq)] d1.
Proof.
  replace [(1, ready_vq)] with (reverse (ready_queues (queues (vbase d1)))) by reflexivity.
  apply (process_queue_order d1); [|reflexivity].
  intros q i d d'. unfold notify_queue. destruct (notify q); intros [= <-]; reflexivity.
Defined.

Lemma handle_requests_safe_witness :
  exists d', handle_requests d1 = Ret (tt, d') /\ dev_ok d'.
Proof.
  apply (handle_requests_safe d1 131126 54 2);
    [|exact d1_ok|exact shm_ok|by vm_compute|by vm_compute|by vm_compute|by vm_compute|right; by vm_compute].
  intros q i d Hd. exists d. split; [|by apply stays_refl].
  unfold notify_queue. cbn. by destruct (notify q).
Defined.

Lemma backend_init_header_witness :
  exists d, @vos_backend_init _ cfg_dev (fun s => Ret (Some (mk s))) 0x1050 0x1af4 shm = Ret (Some d) /\
    ld_bytes (snd d) HDR_config 8 = Ret cfg.
Proof.
  destruct (@backend_init_header _ cfg_dev cfg_laws mk cfgread cfg 0 0x1050 0x1af4 shm)
    as (d & H1 & _ & _ & _ & _ & _ & _ & H2 & _); [done|done|done|done|by vm_compute..|].
  exists d. split; [exact H1|exact H2].
Defined.
