(* ===== verification/Edid.v ===== *)
(** * EDID generation

    The [vdpy_edid_*] functions of [src/devicemodel/hw/vdisplay_server.c]: the
    EDID block (and its CEA-861 extension) that describes the virtual monitor
    to the guest.  The buffer is a list of bytes; a pointer into it is an
    offset, and every access is checked against the buffer's length. *)
From S2P Require Import Prelude.

Definition EDID_BASIC_BLOCK_SIZE := 128.
Definition EDID_CEA861_EXT_BLOCK_SIZE := 128.

(** ** Data *)

(** [TIMING_MODE] *)
Inductive TIMING_MODE := ESTT | STDT | ESTT3 | CEA861.

Record timing_entry := mkTiming {
  t_hpixel : Z; t_vpixel : Z; t_byte : Z; t_byte_t3 : Z; t_bit : Z; t_hz : Z;
  t_is_std : bool; t_is_cea861 : bool; t_vic : Z }.

Definition estt h v byte bit hz := mkTiming h v byte 0 bit hz false false 0.
Definition stdt h v hz := mkTiming h v 0 0 0 hz true false 0.
Definition cea h v hz vic := mkTiming h v 0 0 0 hz false true vic.

Definition timings : list timing_entry :=
  [ estt 1280 1024 36 0 75; estt 1024 768 36 1 75; estt 1024 768 36 3 60;
    estt 800 600 35 0 60; estt 640 480 35 5 60;
    stdt 1920 1080 60; stdt 1680 1050 60; stdt 1600 1200 60; stdt 1600 900 60; stdt 1440 900 60;
    cea 3840 2160 60 97 ].

Record frame_param := mkFrame {
  hav_pixel : Z; hb_pixel : Z; hfp_pixel : Z; hsp_pixel : Z; lhb_pixel : Z;
  vav_line : Z; vb_line : Z; vfp_line : Z; vsp_line : Z; tvb_line : Z;
  pixel_clock : Z; f_width : Z; f_height : Z }.

Record base_param := mkBaseParam {
  h_pixel : Z; v_pixel : Z; rate : Z; bp_width : Z; bp_height : Z;
  id_manuf : list Z; id_product : Z; id_sn : Z; sn : option (list Z); product_name : option (list Z) }.

(** The bytes of a C string literal. *)
Definition cstr (s : string) : list Z :=
  map (fun c => Z.of_N (Ascii.N_of_ascii c)) (String.list_ascii_of_string s).

(** ** The buffer *)

Definition E := M (list Z).

Definition rd (i : Z) : E Z := fun e =>
  match nthZ e i with Some b => Ret (b, e) | None => Stop OobAccess end.
(** A store into a [uint8_t]. *)
Definition wr (i v : Z) : E unit := fun e =>
  match nthZ e i with Some _ => Ret (tt, setZ e i (u8 v)) | None => Stop OobAccess end.
Definition wr_or (i v : Z) : E unit := b ← rd i; wr i (Z.lor b v).
Fixpoint wr_list (i : Z) (bs : list Z) : E unit :=
  match bs with [] => mret tt | b :: bs' => _ ← wr i b; wr_list (i + 1) bs' end.

(** ** Operations *)

Definition vdpy_edid_set_baseparam (width height : Z) : base_param :=
  mkBaseParam width height 60 width height (cstr "ACRN") 4321 12345678
    (Some (cstr "A0123456789")) (Some (cstr "ACRN_Monitor")).

(** Every operand is a [uint32_t]; the product of the pixel clock wraps too. *)
Definition vdpy_edid_set_frame (b : base_param) : frame_param :=
  let hav := h_pixel b in
  let hb := u32 (h_pixel b * 35) / 100 in
  let vav := v_pixel b in
  let vb := u32 (v_pixel b * 35) / 1000 in
  mkFrame hav hb (u32 (h_pixel b * 25) / 100) (u32 (h_pixel b * 3) / 100) 0
    vav vb (u32 (v_pixel b * 5) / 1000) (u32 (v_pixel b * 5) / 1000) 0
    (u32 (rate b * (hav + hb + 0 * 2) * (vav + vb + 0 * 2)))
    (bp_width b) (bp_height b).

(** [transto_10bits] on the [float] [c / 2^28]: the product by 1024 and the
    sum with 0.5, a [double], are exact for the arguments of this file. *)
Definition transto_10bits (c : Z) : Z := u16 ((c * 1024 + 2 ^ 27) / 2 ^ 28).

Definition vdpy_edid_set_color (red_x red_y green_x green_y blue_x blue_y white_x white_y : Z) : E unit :=
  let rx := transto_10bits red_x in let ry := transto_10bits red_y in
  let gx := transto_10bits green_x in let gy := transto_10bits green_y in
  let bx := transto_10bits blue_x in let by_ := transto_10bits blue_y in
  let wx := transto_10bits white_x in let wy := transto_10bits white_y in
  let pack a b c d := Z.lor (Z.lor (Z.lor (Z.shiftl (Z.land a 3) 6) (Z.shiftl (Z.land b 3) 4))
                                   (Z.shiftl (Z.land c 3) 2)) (Z.land d 3) in
  wr_list 25 [ pack rx ry gx gy; pack bx by_ wx wy;
    Z.shiftr rx 2; Z.shiftr ry 2; Z.shiftr gx 2; Z.shiftr gy 2;
    Z.shiftr bx 2; Z.shiftr by_ 2; Z.shiftr wx 2; Z.shiftr wy 2 ].

(** The aspect-ratio code of a standard timing; [hpixel] is a [uint16_t]. *)
Definition aspect_ratio (t : timing_entry) (hpixel : Z) : Z :=
  if (t_hpixel t =? 0) || (t_vpixel t =? 0) then -1
  else if has hpixel 0xff00 then -2
  else if t_hpixel t * 10 =? t_vpixel t * 16 then 0
  else if t_hpixel t * 3 =? t_vpixel t * 4 then 1
  else if t_hpixel t * 4 =? t_vpixel t * 5 then 2
  else if t_hpixel t * 9 =? t_vpixel t * 16 then 3
  else -2.

(** One iteration of the loop: the moved [addr], [stdcnt] and [num_timings]. *)
Definition set_timing_one (t : timing_entry) (mode : TIMING_MODE) (addr stdcnt num : Z)
  : E (Z * Z * Z) :=
  match mode with
  | ESTT =>
    if z2b (t_byte t) then _ ← wr_or (addr + t_byte t) (Z.shiftl 1 (t_bit t)); mret (addr, stdcnt, num)
    else mret (addr, stdcnt, num)
  | ESTT3 =>
    if z2b (t_byte_t3 t)
    then _ ← wr_or (addr + t_byte_t3 t) (Z.shiftl 1 (t_bit t)); mret (addr, stdcnt, num)
    else mret (addr, stdcnt, num)
  | STDT =>
    if (stdcnt <? 8) && t_is_std t then
      let hpixel := u16 (Z.shiftr (t_hpixel t) 3 - 31) in
      let AR := aspect_ratio t hpixel in
      if 0 <=? AR then
        _ ← wr addr (Z.land hpixel 0xff);
        _ ← wr (addr + 1) (Z.lor (Z.shiftl AR 6) (Z.land (t_hz t - 60) 0x3f));
        mret (addr + 2, stdcnt + 1, num)
      else if AR =? -1 then
        _ ← wr addr 1; _ ← wr (addr + 1) 1; mret (addr + 2, stdcnt + 1, num)
      else mret (addr, stdcnt, num)
    else mret (addr, stdcnt, num)
  | CEA861 =>
    if t_is_cea861 t then _ ← wr addr (t_vic t); mret (addr + 1, stdcnt, num + 1)
    else mret (addr, stdcnt, num)
  end.

Fixpoint set_timing_loop (l : list timing_entry) (mode : TIMING_MODE) (addr stdcnt num : Z)
  : E (Z * Z * Z) :=
  match l with
  | [] => mret (addr, stdcnt, num)
  | t :: l' => '(addr, stdcnt, num) ← set_timing_one t mode addr stdcnt num;
               set_timing_loop l' mode addr stdcnt num
  end.

(** The trailing loop: unused standard timings are marked. *)
Fixpoint fill_std (n : nat) (addr : Z) : E unit :=
  match n with
  | O => mret tt
  | S n' => _ ← wr addr 1; _ ← wr (addr + 1) 1; fill_std n' (addr + 2)
  end.

Definition vdpy_edid_set_timing (addr : Z) (mode : TIMING_MODE) : E Z :=
  let addr := match mode with STDT => addr + 38 | _ => addr end in
  '(addr, stdcnt, num) ← set_timing_loop timings mode addr 0 0;
  _ ← (match mode with STDT => fill_std (Z.to_nat (8 - stdcnt)) addr | _ => mret tt end);
  mret num.

Definition vdpy_edid_set_dtd (dtd : Z) (f : frame_param) : E unit :=
  if 65535 <? pixel_clock f / 10000 then wr (dtd + 3) 0x10
  else
    let pixel_clk := u16 (pixel_clock f / 10000) in
    let and_shr x m n := Z.shiftr (Z.land x m) n in
    _ ← wr_list dtd (le_encode 2 pixel_clk);
    _ ← wr (dtd + 2) (Z.land (hav_pixel f) 0xff);
    _ ← wr (dtd + 3) (Z.land (hb_pixel f) 0xff);
    _ ← wr (dtd + 4) (Z.lor (and_shr (hav_pixel f) 0xf00 4) (and_shr (hb_pixel f) 0xf00 8));
    _ ← wr (dtd + 5) (Z.land (vav_line f) 0xff);
    _ ← wr (dtd + 6) (Z.land (vb_line f) 0xff);
    _ ← wr (dtd + 7) (Z.lor (and_shr (vav_line f) 0xf00 4) (and_shr (vb_line f) 0xf00 8));
    _ ← wr (dtd + 8) (Z.land (hfp_pixel f) 0xff);
    _ ← wr (dtd + 9) (Z.land (hsp_pixel f) 0xff);
    _ ← wr (dtd + 10) (Z.lor (Z.shiftl (Z.land (vfp_line f) 0xf) 4) (Z.land (vsp_line f) 0xf));
    _ ← wr (dtd + 11) (Z.lor (Z.lor (Z.lor (and_shr (hfp_pixel f) 0x300 2)
          (and_shr (hsp_pixel f) 0x300 4)) (and_shr (vfp_line f) 0x030 6)) (and_shr (vsp_line f) 0x030 8));
    _ ← wr (dtd + 12) (Z.land (f_width f) 0xff);
    _ ← wr (dtd + 13) (Z.land (f_height f) 0xff);
    _ ← wr (dtd + 14) (Z.lor (and_shr (f_width f) 0xf00 4) (and_shr (f_height f) 0xf00 8));
    _ ← wr (dtd + 15) (Z.land (lhb_pixel f) 0xff);
    _ ← wr (dtd + 16) (Z.land (tvb_line f) 0xff);
    wr (dtd + 17) 0x18.

(** A text descriptor: 13 spaces, the first 12 characters, a newline. *)
Definition set_text (desc : Z) (text : option (list Z)) : E unit :=
  _ ← wr_list (desc + 5) (replicate 13 0x20);
  match text with
  | None => mret tt
  | Some text =>
    let len := Z.min (u16 (Z.of_nat (length text))) 12 in
    _ ← wr_list (desc + 5) (take (Z.to_nat len) text);
    wr (desc + len + 5) 0x0a
  end.

Definition vdpy_edid_set_descripter (desc : Z) (is_dtd : bool) (tag : Z) (b : base_param) : E unit :=
  if is_dtd then vdpy_edid_set_dtd desc (vdpy_edid_set_frame b)
  else
    _ ← wr (desc + 3) tag;
    switch tag
      [ ([0xf7], _ ← wr (desc + 5) 0x0a; _ ← vdpy_edid_set_timing desc ESTT3; mret tt);
        ([0xfd], wr_list (desc + 5) [50; 125; 30; 160; 2550 / 10; 1; 0x0a]);
        ([0xfc; 0xff], set_text desc (if tag =? 0xff then sn b else product_name b)) ]
      (mret tt).

(** The sum of the first [n] bytes from [off], as a [uint8_t]. *)
Fixpoint sum_bytes (n : nat) (off : Z) : E Z :=
  match n with
  | O => mret 0
  | S n' => s ← sum_bytes n' off; b ← rd (off + Z.of_nat n'); mret (u8 (s + b))
  end.

Definition vdpy_edid_get_checksum (off : Z) : E Z :=
  s ← sum_bytes 127 off; mret (u8 (0x100 - s)).

Definition put_checksum (off : Z) : E unit := c ← vdpy_edid_get_checksum off; wr (off + 127) c.

(** Characters of the manufacturer's identifier, five bits each. *)
Definition manuf_code (s : list Z) : Z :=
  let c i := Z.land (nth i s 0 - 0x40) 0x1f in
  u16 (Z.lor (Z.lor (Z.shiftl (c 0%nat) 10) (Z.shiftl (c 1%nat) 5)) (c 2%nat)).

(** Everything after the fixed header, up to the checksum. *)
Definition block_body (prefx prefy : Z) : E unit :=
  let b := vdpy_edid_set_baseparam prefx prefy in
  _ ← wr 8 (Z.shiftr (manuf_code (id_manuf b)) 8);
  _ ← wr 9 (Z.land (manuf_code (id_manuf b)) 0xff);
  _ ← wr_list 10 (le_encode 2 (id_product b));
  _ ← wr_list 12 (le_encode 4 (id_sn b));
  _ ← wr_list 16 [0; 2018 - 1990; 1; 4; 0xa5; prefx / 10; prefy / 10; 120; 0x06];
  _ ← vdpy_edid_set_color 171798688 88583704 80530640 161061280 40265320 16106127 83939768 88315264;
  _ ← vdpy_edid_set_timing 0 ESTT;
  _ ← vdpy_edid_set_timing 0 STDT;
  _ ← vdpy_edid_set_descripter 54 true 0 b;
  _ ← vdpy_edid_set_descripter 72 false 0xfd b;
  _ ← vdpy_edid_set_descripter 90 false 0xfc b;
  _ ← vdpy_edid_set_descripter 108 false 0xff b;
  wr 126 0.

Definition basic_block (prefx prefy : Z) : E unit :=
  _ ← wr_list 1 (replicate 6 0xff); block_body prefx prefy.

Definition ext_block : E unit :=
  let ext := EDID_BASIC_BLOCK_SIZE in
  _ ← wr ext 0x02;
  _ ← wr (ext + 1) 0x03;
  _ ← wr_or (ext + 4) (Z.shiftl 2 5);
  num ← vdpy_edid_set_timing (ext + 5) CEA861;
  _ ← wr_or (ext + 4) num;
  wr_or (ext + 2) (5 + num).

(** [memset] to 0 and the blocks; [size] is the buffer's size. *)
Definition vdpy_edid_generate (size : nat) (prefx prefy : Z) : outcome (list Z) :=
  '(_, e) ← basic_block prefx prefy (replicate size 0);
  '(_, e) ← put_checksum 0 e;
  if EDID_BASIC_BLOCK_SIZE + EDID_CEA861_EXT_BLOCK_SIZE <=? Z.of_nat size then
    '(_, e) ← wr 126 1 e;
    '(_, e) ← put_checksum 0 e;
    '(_, e) ← ext_block e;
    '(_, e) ← put_checksum EDID_BASIC_BLOCK_SIZE e;
    Ret e
  else Ret e.

(** ** What a program on the buffer may touch

    [keeps lo hi P m]: on a buffer of at least [hi] bytes, [m] returns a value
    satisfying [P], keeps the buffer a list of bytes of the same length, and
    changes nothing outside [lo, hi). *)
Definition keeps (lo hi : Z) {A} (P : A -> Prop) (m : E A) : Prop :=
  forall e, hi <= Z.of_nat (length e) -> bytes_ok e ->
  exists a e', m e = Ret (a, e') /\ P a /\ length e' = length e /\ bytes_ok e' /\
    forall i, i < lo \/ hi <= i -> nthZ e' i = nthZ e i.

Section Keeps.
Context (lo hi : Z) (Hlo : 0 <= lo).

Lemma keeps_ret {A} (P : A -> Prop) a : P a -> keeps lo hi P (mret a).
Proof. intros Ha e _ He. by exists a, e. Qed.

Lemma keeps_bind {A B} (P : A -> Prop) (Q : B -> Prop) (m : E A) (f : A -> E B) :
  keeps lo hi P m -> (forall a, P a -> keeps lo hi Q (f a)) -> keeps lo hi Q (mbind f m).
Proof.
  intros Hm Hf e Hl He. destruct (Hm e Hl He) as (a & e1 & E1 & Ha & Hl1 & He1 & Hf1).
  destruct (Hf a Ha e1) as (b & e2 & E2 & Hb & Hl2 & He2 & Hf2); [by rewrite Hl1|done|].
  exists b, e2. unfold mbind, M_bind. rewrite E1. split_and!; [done|done|congruence|done|].
  intros i Hi. by rewrite Hf2, Hf1.
Qed.

Lemma keeps_weaken {A} (P Q : A -> Prop) m :
  (forall a, P a -> Q a) -> keeps lo hi P m -> keeps lo hi Q m.
Proof.
  intros HPQ Hm e Hl He. destruct (Hm e Hl He) as (a & e' & ? & ? & ? & ? & ?).
  exists a, e'. split_and!; auto.
Qed.

Lemma keeps_rd i : lo <= i < hi -> keeps lo hi (fits 8) (rd i).
Proof.
  intros Hi e Hl He. unfold rd, nthZ. destruct (Z.leb_spec 0 i); [|lia].
  destruct (lookup_lt_is_Some_2 e (Z.to_nat i)) as [b Hb]; [lia|]. rewrite Hb.
  exists b, e. split_and!; try done. by eapply Forall_lookup_1 in Hb.
Qed.

Lemma keeps_wr i v : lo <= i < hi -> keeps lo hi (fun _ => True) (wr i v).
Proof.
  intros Hi e Hl He. unfold wr. unfold nthZ at 1. destruct (Z.leb_spec 0 i); [|lia].
  destruct (lookup_lt_is_Some_2 e (Z.to_nat i)) as [b Hb]; [lia|]. rewrite Hb.
  eexists _, _. split; [reflexivity|]. split; [done|]. unfold setZ.
  destruct (Z.leb_spec 0 i); [|lia]. split; [by rewrite length_insert|]. split.
  - apply Forall_insert; [done|]. by apply wrap_fits.
  - intros j Hj. rewrite <- (nthZ_setZ_ne e i j (u8 v)) by lia. unfold setZ.
    by destruct (Z.leb_spec 0 i); [|lia].
Qed.

Lemma keeps_wr_or i v : lo <= i < hi -> keeps lo hi (fun _ => True) (wr_or i v).
Proof.
  intros Hi. eapply keeps_bind; [by apply keeps_rd|]. intros b _. by apply keeps_wr.
Qed.

Lemma keeps_wr_list bs i :
  lo <= i -> i + Z.of_nat (length bs) <= hi -> keeps lo hi (fun _ => True) (wr_list i bs).
Proof.
  revert i. induction bs as [|b bs IH]; intros i Hi Hj; simpl in *; [by apply keeps_ret|].
  eapply keeps_bind; [apply keeps_wr; lia|]. intros _ _. apply IH; lia.
Qed.

Lemma keeps_fill_std n addr :
  lo <= addr -> addr + 2 * Z.of_nat n <= hi -> keeps lo hi (fun _ => True) (fill_std n addr).
Proof.
  revert addr. induction n as [|n IH]; intros addr Hi Hj; simpl; [by apply keeps_ret|].
  eapply keeps_bind; [apply keeps_wr; lia|]. intros _ _.
  eapply keeps_bind; [apply keeps_wr; lia|]. intros _ _. apply IH; lia.
Qed.

(** What the table's entries and the current address must satisfy. *)
Definition entry_ok (t : timing_entry) : Prop := (t_byte t = 0 \/ 35 <= t_byte t <= 36) /\ t_byte_t3 t = 0.
Definition timing_inv (mode : TIMING_MODE) (n : nat) (addr std : Z) : Prop :=
  match mode with
  | ESTT => lo <= addr + 35 /\ addr + 36 < hi
  | STDT => lo <= addr /\ 0 <= std <= 8 /\ addr + 2 * (8 - std) <= hi
  | ESTT3 => True
  | CEA861 => lo <= addr /\ addr + Z.of_nat n <= hi
  end.

Lemma keeps_timing_one t mode n addr std num :
  entry_ok t -> timing_inv mode (S n) addr std ->
  keeps lo hi (fun r => timing_inv mode n (fst (fst r)) (snd (fst r)) /\ num <= snd r <= num + 1)
    (set_timing_one t mode addr std num).
Proof.
  intros [Hb H3] Hinv.
  destruct mode; simpl in *.
  - unfold z2b. destruct (Z.eqb_spec (t_byte t) 0); simpl; [by apply keeps_ret; simpl; lia|].
    eapply keeps_bind; [apply keeps_wr_or; lia|]. intros _ _. apply keeps_ret. simpl. lia.
  - destruct (Z.ltb_spec std 8); simpl; [|by apply keeps_ret; simpl; lia].
    destruct (t_is_std t); [|by apply keeps_ret; simpl; lia].
    repeat case_match; try (by apply keeps_ret; simpl; lia);
      (eapply keeps_bind; [apply keeps_wr; lia|]; intros _ _;
       eapply keeps_bind; [apply keeps_wr; lia|]; intros _ _; apply keeps_ret; simpl; lia).
  - rewrite H3. simpl. apply keeps_ret. simpl. lia.
  - destruct (t_is_cea861 t); [|by apply keeps_ret; simpl; lia].
    eapply keeps_bind; [apply keeps_wr; lia|]. intros _ _. apply keeps_ret. simpl. lia.
Qed.

Lemma keeps_timing_loop l mode addr std num :
  Forall entry_ok l -> timing_inv mode (length l) addr std ->
  keeps lo hi (fun r => timing_inv mode 0 (fst (fst r)) (snd (fst r)) /\
      num <= snd r <= num + Z.of_nat (length l))
    (set_timing_loop l mode addr std num).
Proof.
  intros Hl. revert addr std num. induction Hl as [|t l Ht _ IH]; intros addr std num Hinv; simpl.
  { apply keeps_ret. simpl. split; [done|lia]. }
  eapply keeps_bind; [by apply keeps_timing_one|]. intros [[addr' std'] num'] [Hinv' Hnum].
  eapply keeps_weaken; [|by apply IH]. simpl in *. intros [[a b] c]. simpl. intros [? ?].
  split; [done|lia].
Qed.

Lemma timings_ok : Forall entry_ok timings.
Proof. repeat (constructor; [split; simpl; lia|]). constructor. Qed.

Lemma keeps_set_timing mode addr :
  timing_inv mode 11 (match mode with STDT => addr + 38 | _ => addr end) 0 ->
  keeps lo hi (fun n => 0 <= n <= 11) (vdpy_edid_set_timing addr mode).
Proof.
  intros Hinv. unfold vdpy_edid_set_timing.
  eapply keeps_bind; [apply keeps_timing_loop; [apply timings_ok|exact Hinv]|].
  intros [[a std] num] [Hi Hn]. simpl in *.
  eapply (keeps_bind (fun _ => True)); [|intros _ _; by apply keeps_ret].
  destruct mode; try (by apply keeps_ret). simpl in Hi. apply keeps_fill_std; lia.
Qed.
End Keeps.

(** Close a [keeps] goal on straight-line code. *)
Ltac keeps_step :=
  lazymatch goal with
  | |- keeps _ _ _ (mbind _ _) => eapply keeps_bind; [|intros ? ?]
  | |- keeps _ _ _ (mret _) => by apply keeps_ret
  | |- keeps _ _ _ (wr _ _) => eapply keeps_weaken; [done|apply keeps_wr; lia]
  | |- keeps _ _ _ (wr_or _ _) => eapply keeps_weaken; [done|apply keeps_wr_or; lia]
  | |- keeps _ _ _ (wr_list _ _) =>
    eapply keeps_weaken; [done|apply keeps_wr_list; simpl; lia]
  | |- keeps _ _ _ (if ?b then _ else _) => destruct b
  end.

Lemma keeps_set_dtd lo hi d f :
  0 <= lo <= d -> d + 18 <= hi -> keeps lo hi (fun _ => True) (vdpy_edid_set_dtd d f).
Proof. intros. unfold vdpy_edid_set_dtd. repeat keeps_step. Qed.

Lemma keeps_set_text lo hi d t :
  0 <= lo <= d -> d + 18 <= hi -> keeps lo hi (fun _ => True) (set_text d t).
Proof.
  intros. unfold set_text. keeps_step; [keeps_step|]. destruct t as [t|]; [|keeps_step].
  assert (0 <= u16 (Z.of_nat (length t))) by (apply wrap_fits; done).
  keeps_step; [|keeps_step].
  eapply keeps_weaken; [done|]. apply keeps_wr_list; [lia|lia|]. rewrite length_take. lia.
Qed.

Lemma keeps_set_descripter lo hi d is_dtd tag b :
  0 <= lo <= d -> d + 18 <= hi -> tag <> 0xf7 ->
  keeps lo hi (fun _ => True) (vdpy_edid_set_descripter d is_dtd tag b).
Proof.
  intros Hd Hh Ht. unfold vdpy_edid_set_descripter.
  destruct is_dtd; [by apply keeps_set_dtd|]. keeps_step; [keeps_step|].
  unfold switch. cbn [existsb].
  destruct (Z.eqb_spec tag 0xf7); [done|]. cbn [orb].
  destruct (Z.eqb_spec tag 0xfd); cbn [orb]; [keeps_step|].
  destruct (Z.eqb_spec tag 0xfc); cbn [orb]; [by apply keeps_set_text|].
  destruct (Z.eqb_spec tag 0xff); cbn [orb]; [by apply keeps_set_text|keeps_step].
Qed.

(** ** Checksums *)

(** The sum of the 128 bytes of the block at [off], as a byte. *)
Definition block_sum (e : list Z) (off : nat) : Z := u8 (foldr Z.add 0 (take 128 (drop off e))).

Lemma sum_bytes_spec n off e :
  (off + n <= length e)%nat ->
  sum_bytes n (Z.of_nat off) e = Ret (u8 (foldr Z.add 0 (take n (drop off e))), e).
Proof.
  induction n as [|n IH]; intros Hl; [done|]. cbn [sum_bytes].
  unfold mbind, M_bind, mret, M_ret. rewrite IH by lia. unfold rd.
  rewrite <- Nat2Z.inj_add. unfold nthZ. destruct (Z.leb_spec 0 (Z.of_nat (off + n))); [|lia].
  rewrite Nat2Z.id. destruct (lookup_lt_is_Some_2 e (off + n)) as [b Hb]; [lia|]. rewrite Hb.
  do 2 f_equal. unfold u8. rewrite wrap_add_l.
  rewrite (take_S_r _ n b) by (by rewrite lookup_drop).
  rewrite foldr_app. simpl. rewrite Z.add_0_r.
  f_equal. generalize (take n (drop off e)). intros l. induction l as [|x l IHl]; simpl; lia.
Qed.

Lemma foldr_add_app l1 l2 :
  foldr Z.add 0 (l1 ++ l2) = foldr Z.add 0 l1 + foldr Z.add 0 l2.
Proof. induction l1; simpl; lia. Qed.

(** After a checksum is stored the block sums to 0. *)
Lemma put_checksum_spec off e :
  bytes_ok e -> (off + 128 <= length e)%nat ->
  exists e', put_checksum (Z.of_nat off) e = Ret (tt, e') /\ length e' = length e /\
    bytes_ok e' /\ block_sum e' off = 0 /\
    forall i, i <> Z.of_nat off + 127 -> nthZ e' i = nthZ e i.
Proof.
  intros He Hl. unfold put_checksum, vdpy_edid_get_checksum, mbind, M_bind, mret, M_ret.
  rewrite sum_bytes_spec by lia.
  set (s := u8 (foldr Z.add 0 (take 127 (drop off e)))).
  unfold wr. rewrite nthZ_lookup by lia.
  destruct (lookup_lt_is_Some_2 e (Z.to_nat (Z.of_nat off + 127))) as [b Hb]; [lia|]. rewrite Hb.
  unfold setZ. destruct (Z.leb_spec 0 (Z.of_nat off + 127)); [|lia].
  replace (Z.to_nat (Z.of_nat off + 127)) with (off + 127)%nat in * by lia.
  eexists. split; [done|]. split; [by rewrite length_insert|]. split.
  { apply Forall_insert; [done|]. by apply wrap_fits. }
  split; [|intros i Hi; rewrite <- (nthZ_setZ_ne e (Z.of_nat off + 127) i (u8 (u8 (256 - s)))) by done;
    unfold setZ; destruct (Z.leb_spec 0 (Z.of_nat off + 127)); [|lia]; do 2 f_equal; lia].
  unfold block_sum.
  assert (Ht : take 128 (drop off (<[(off + 127)%nat := u8 (u8 (256 - s))]> e))
     = take 127 (drop off e) ++ [u8 (u8 (256 - s))]).
  { rewrite (take_S_r _ 127 (u8 (u8 (256 - s)))).
    - f_equal. rewrite drop_insert_ge by lia. rewrite take_insert_ge by lia. done.
    - rewrite lookup_drop. apply list_lookup_insert_eq. lia. }
  rewrite Ht, foldr_add_app. cbn [foldr]. subst s. generalize (foldr Z.add 0 (take 127 (drop off e))).
  intros S. unfold u8, wrap. change (2 ^ 8) with 256. Z.div_mod_to_equations. lia.
Qed.

(** The sum only depends on the block's own bytes. *)
Lemma block_sum_frame e e' off :
  length e' = length e ->
  (forall i, Z.of_nat off <= i < Z.of_nat off + 128 -> nthZ e' i = nthZ e i) ->
  block_sum e' off = block_sum e off.
Proof.
  intros Hl Hi. unfold block_sum. do 2 f_equal. apply list_eq. intros k.
  destruct (decide (k < 128)%nat); [|by rewrite !lookup_take_ge by lia].
  rewrite !lookup_take, !lookup_drop, !decide_True by done.
  specialize (Hi (Z.of_nat (off + k)) ltac:(lia)). unfold nthZ in Hi.
  destruct (Z.leb_spec 0 (Z.of_nat (off + k))); [|lia]. by rewrite Nat2Z.id in Hi.
Qed.

(** ** The blocks *)

Ltac keeps_call :=
  lazymatch goal with
  | |- keeps _ _ _ (vdpy_edid_set_timing _ _) => apply keeps_set_timing; simpl; lia
  | |- keeps _ _ _ (vdpy_edid_set_descripter _ _ _ _) => apply keeps_set_descripter; lia
  | |- keeps _ _ _ (vdpy_edid_set_color _ _ _ _ _ _ _ _) => unfold vdpy_edid_set_color
  | |- _ => keeps_step
  end.

Lemma keeps_block_body prefx prefy : keeps 8 128 (fun _ => True) (block_body prefx prefy).
Proof. unfold block_body. repeat keeps_call. Qed.

Lemma keeps_ext_block : keeps 128 255 (fun _ => True) ext_block.
Proof.
  unfold ext_block, EDID_BASIC_BLOCK_SIZE.
  keeps_step; [keeps_call|]. keeps_step; [keeps_call|]. keeps_step; [keeps_call|].
  eapply keeps_bind; [apply keeps_set_timing; simpl; lia|]. intros n Hn. repeat keeps_call.
Qed.

Definition edid_header : list Z := [0; 255; 255; 255; 255; 255; 255; 0].

(** The state after each step of the generation: a well-formed buffer with the
    fixed header. *)
Definition edid_ok (e : list Z) : Prop :=
  length e = 256%nat /\ bytes_ok e /\ forall i, 0 <= i < 8 -> nthZ e i = nthZ edid_header i.

Lemma edid_ok_step lo hi {A} (P : A -> Prop) m e :
  8 <= lo -> hi <= 256 -> keeps lo hi P m -> edid_ok e ->
  exists a e', m e = Ret (a, e') /\ edid_ok e' /\
    forall i, i < lo \/ hi <= i -> nthZ e' i = nthZ e i.
Proof.
  intros Hlo Hhi Hm (Hl & Hb & Hh). destruct (Hm e) as (a & e' & E & _ & Hl' & Hb' & Hf); [lia|done|].
  exists a, e'. split_and!; [done| |done]. split_and!; [congruence|done|].
  intros i Hi. rewrite Hf by lia. by apply Hh.
Qed.

Lemma basic_block_run prefx prefy :
  exists e, basic_block prefx prefy (replicate 256 0) = Ret (tt, e) /\ edid_ok e.
Proof.
  assert (H0 : exists e0, wr_list 1 (replicate 6 255) (replicate 256 0) = Ret (tt, e0) /\ edid_ok e0).
  { eexists. split; [vm_compute; reflexivity|]. split; [done|]. split.
    - by repeat (apply Forall_cons_2; [by vm_compute|]); constructor.
    - intros i Hi. assert (i = 0 \/ i = 1 \/ i = 2 \/ i = 3 \/ i = 4 \/ i = 5 \/ i = 6 \/ i = 7) by lia.
      by destruct_or!; subst. }
  destruct H0 as (e0 & E0 & H0).
  destruct (edid_ok_step 8 128 _ _ e0 ltac:(done) ltac:(done) (keeps_block_body prefx prefy) H0)
    as ([] & e1 & E1 & H1 & _).
  exists e1. split; [|done]. unfold basic_block, mbind, M_bind. by rewrite E0.
Qed.

Lemma checksum_step off e :
  (off = 0 \/ off = 128)%nat -> edid_ok e ->
  exists e', put_checksum (Z.of_nat off) e = Ret (tt, e') /\ edid_ok e' /\ block_sum e' off = 0 /\
    forall i, i <> Z.of_nat off + 127 -> nthZ e' i = nthZ e i.
Proof.
  intros Ho (Hl & Hb & Hh). destruct (put_checksum_spec off e) as (e' & E & Hl' & Hb' & Hs & Hf); [done|lia|].
  exists e'. split_and!; try done. split_and!; [congruence|done|].
  intros i Hi. rewrite Hf by lia. by apply Hh.
Qed.

(** The whole generation runs. *)
Lemma edid_generate_run prefx prefy :
  exists e, vdpy_edid_generate 256 prefx prefy = Ret e /\ edid_ok e /\ nthZ e 126 = Some 1 /\
    block_sum e 0 = 0 /\ block_sum e 128 = 0.
Proof.
  destruct (basic_block_run prefx prefy) as (e1 & E1 & H1).
  destruct (checksum_step 0 e1) as (e2 & E2 & H2 & _ & _); [by left|done|].
  destruct (edid_ok_step 126 127 (fun _ => True) (wr 126 1) e2) as ([] & e3 & E3 & H3 & F3);
    [done|done|by apply keeps_wr|done|].
  destruct (checksum_step 0 e3) as (e4 & E4 & H4 & S4 & F4); [by left|done|].
  destruct (edid_ok_step 128 255 _ _ e4 ltac:(done) ltac:(done) keeps_ext_block H4)
    as ([] & e5 & E5 & H5 & F5).
  destruct (checksum_step 128 e5) as (e6 & E6 & H6 & S6 & F6); [by right|done|].
  exists e6. destruct H6 as (L6 & B6 & Hh6).
  assert (H126 : nthZ e3 126 = Some 1).
  { unfold wr in E3. destruct (nthZ e2 126) eqn:E; [|done]. injection E3 as <-.
    unfold setZ, nthZ in *. cbn in *. apply list_lookup_insert_eq. destruct H2 as (-> & _). lia. }
  split; [|split; [done|split; [|split; [|exact S6]]]].
  - change (Z.of_nat 0) with 0 in E2, E4. change (Z.of_nat 128) with EDID_BASIC_BLOCK_SIZE in E6.
    unfold vdpy_edid_generate, mbind, outcome_bind. rewrite E1, E2.
    change (EDID_BASIC_BLOCK_SIZE + EDID_CEA861_EXT_BLOCK_SIZE <=? Z.of_nat 256) with true. cbn match.
    by rewrite E3, E4, E5, E6.
  - by rewrite F6, F5, F4, H126 by lia.
  - rewrite <- S4. apply block_sum_frame; [destruct H4 as (-> & _); done|].
    intros i Hi. rewrite F6, F5 by lia. done.
Qed.

(** ** Properties *)

(** C25.  For every preferred resolution a 256-byte EDID is generated without
    an access outside the buffer; it consists of bytes, starts with the fixed
    header, announces one extension block, and each of its two blocks sums to
    0 modulo 256, as the EDID standard requires. *)
Theorem edid_generate_valid prefx prefy :
  exists e, vdpy_edid_generate 256 prefx prefy = Ret e /\ length e = 256%nat /\ bytes_ok e /\
    take 8 e = edid_header /\ nthZ e 126 = Some 1 /\
    block_sum e 0 = 0 /\ block_sum e 128 = 0.
Proof.
  destruct (edid_generate_run prefx prefy) as (e & E & (Hl & Hb & Hh) & H126 & H0 & H128).
  exists e. split; [exact E|split; [exact Hl|split; [exact Hb|split; [|done]]]].
  apply list_eq. intros k. destruct (decide (k < 8)%nat) as [Hk|Hk].
  - rewrite lookup_take, decide_True by done. specialize (Hh (Z.of_nat k) ltac:(lia)).
    unfold nthZ in Hh. destruct (Z.leb_spec 0 (Z.of_nat k)); [|lia]. by rewrite Nat2Z.id in Hh.
  - rewrite lookup_take_ge by lia. symmetry. apply lookup_ge_None_2. simpl. lia.
Qed.

(** ** Reading a detailed timing back *)

(** The layout of a detailed timing descriptor, after the EDID standard. *)
Definition byte (e : list Z) (i : Z) : Z := default 0 (nthZ e i).

Record dtd := mkDtd {
  d_clock : Z; d_hav : Z; d_hb : Z; d_vav : Z; d_vb : Z;
  d_hfp : Z; d_hsp : Z; d_vfp : Z; d_vsp : Z; d_width : Z; d_height : Z }.

Definition dtd_decode (e : list Z) (d : Z) : dtd :=
  let b k := byte e (d + k) in
  mkDtd (b 0 + 256 * b 1)
    (b 2 + 256 * (b 4 / 16)) (b 3 + 256 * (b 4 mod 16))
    (b 5 + 256 * (b 7 / 16)) (b 6 + 256 * (b 7 mod 16))
    (b 8 + 256 * (b 11 / 64)) (b 9 + 256 * (b 11 / 16 mod 4))
    (b 10 / 16 + 16 * (b 11 / 4 mod 4)) (b 10 mod 16 + 16 * (b 11 mod 4))
    (b 12 + 256 * (b 14 / 16)) (b 13 + 256 * (b 14 mod 16)).

(** Disjoint fields of a byte. *)
Lemma lor_nibbles a b : 0 <= a < 16 -> 0 <= b < 16 -> Z.lor (16 * a) b = 16 * a + b.
Proof.
  intros Ha Hb.
  assert (H : forallb (fun a => forallb (fun b => Z.lor (16 * a) b =? 16 * a + b) (seqZ 0 16)) (seqZ 0 16) = true)
    by by vm_compute.
  rewrite forallb_forall in H. specialize (H a ltac:(apply list_elem_of_In, elem_of_seqZ; lia)).
  rewrite forallb_forall in H. by apply Z.eqb_eq, (H b ltac:(apply list_elem_of_In, elem_of_seqZ; lia)).
Qed.

Lemma lor_pairs a b : 0 <= a < 4 -> 0 <= b < 4 -> Z.lor (64 * a) (16 * b) = 64 * a + 16 * b.
Proof.
  intros Ha Hb.
  assert (H : forallb (fun a => forallb (fun b => Z.lor (64 * a) (16 * b) =? 64 * a + 16 * b) (seqZ 0 4)) (seqZ 0 4) = true)
    by by vm_compute.
  rewrite forallb_forall in H. specialize (H a ltac:(apply list_elem_of_In, elem_of_seqZ; lia)).
  rewrite forallb_forall in H. by apply Z.eqb_eq, (H b ltac:(apply list_elem_of_In, elem_of_seqZ; lia)).
Qed.

Lemma land_low x n : 0 <= n -> Z.land x (Z.ones n) = x mod 2 ^ n.
Proof. intros. by apply Z.land_ones. Qed.

(** The bits [k .. k + n) of a number below [2^(k+n)], moved down by [m]. *)
Lemma high_field x k n m :
  0 <= m <= k -> 0 <= n -> fits (k + n) x ->
  Z.shiftr (Z.land x (Z.shiftl (Z.ones n) k)) m = 2 ^ (k - m) * (x / 2 ^ k).
Proof.
  intros Hm Hn Hx.
  assert (E : Z.land x (Z.shiftl (Z.ones n) k) = Z.shiftl (Z.shiftr x k) k).
  { apply Z.bits_inj'. intros i Hi. rewrite Z.land_spec, !Z.shiftl_spec by done.
    destruct (Z.ltb_spec i k).
    - rewrite !(Z.testbit_neg_r _ (i - k)) by lia. by rewrite andb_false_r.
    - rewrite Z.shiftr_spec by lia. replace (i - k + k) with i by lia.
      rewrite Z.testbit_ones_nonneg by lia. destruct (Z.ltb_spec (i - k) n); [by rewrite andb_true_r|].
      rewrite (testbit_fits (k + n)) by (done || lia). done. }
  rewrite E, Z.shiftr_shiftl_l, Z.shiftl_mul_pow2, Z.shiftr_div_pow2 by lia. lia.
Qed.

Lemma wr_run i v e :
  0 <= i < Z.of_nat (length e) -> wr i v e = Ret (tt, setZ e i (u8 v)).
Proof.
  intros Hi. unfold wr. rewrite nthZ_lookup by lia.
  destruct (lookup_lt_is_Some_2 e (Z.to_nat i)) as [b ->]; [lia|done].
Qed.

Lemma byte_setZ_eq e i v : 0 <= i < Z.of_nat (length e) -> byte (setZ e i v) i = v.
Proof.
  intros Hi. unfold byte, setZ, nthZ. destruct (Z.leb_spec 0 i); [|lia].
  by rewrite list_lookup_insert_eq by lia.
Qed.

Lemma byte_setZ_ne e i j v : i <> j -> byte (setZ e i v) j = byte e j.
Proof. intros. unfold byte. by rewrite nthZ_setZ_ne. Qed.

(** A run of stores from [i] on. *)
Fixpoint sets (e : list Z) (i : Z) (vs : list Z) : list Z :=
  match vs with [] => e | v :: vs' => sets (setZ e i (u8 v)) (i + 1) vs' end.

Lemma wr_list_run bs i e :
  0 <= i -> i + Z.of_nat (length bs) <= Z.of_nat (length e) ->
  wr_list i bs e = Ret (tt, sets e i bs).
Proof.
  revert i e. induction bs as [|b bs IH]; intros i e Hi Hl; cbn [wr_list sets length] in *; [done|].
  unfold mbind, M_bind. rewrite wr_run by lia. rewrite IH; [done|lia|]. rewrite length_setZ. lia.
Qed.

Lemma sets_byte vs i e k v :
  0 <= i -> i + Z.of_nat (length vs) <= Z.of_nat (length e) ->
  vs !! k = Some v -> byte (sets e i vs) (i + Z.of_nat k) = u8 v.
Proof.
  assert (Hlow : forall vs i e j, j < i -> byte (sets e i vs) j = byte e j).
  { induction vs0 as [|w vs0 IH]; intros i0 e0 j Hj; cbn [sets]; [done|].
    rewrite IH by lia. by rewrite byte_setZ_ne by lia. }
  revert i e k. induction vs as [|w vs IH]; intros i e k Hi Hl Hk; [done|]. cbn [sets length] in *.
  destruct k as [|k]; simpl in Hk.
  - simplify_eq. rewrite Hlow by lia. replace (i + Z.of_nat 0) with i by lia. apply byte_setZ_eq. lia.
  - replace (i + Z.of_nat (S k)) with (i + 1 + Z.of_nat k) by lia.
    apply IH; [lia|rewrite length_setZ; lia|done].
Qed.

Definition dtd_bytes (f : frame_param) : list Z :=
  let and_shr x m n := Z.shiftr (Z.land x m) n in
  let clk := u16 (pixel_clock f / 10000) in
  [ clk mod 256; clk / 256 mod 256;
    Z.land (hav_pixel f) 0xff; Z.land (hb_pixel f) 0xff;
    Z.lor (and_shr (hav_pixel f) 0xf00 4) (and_shr (hb_pixel f) 0xf00 8);
    Z.land (vav_line f) 0xff; Z.land (vb_line f) 0xff;
    Z.lor (and_shr (vav_line f) 0xf00 4) (and_shr (vb_line f) 0xf00 8);
    Z.land (hfp_pixel f) 0xff; Z.land (hsp_pixel f) 0xff;
    Z.lor (Z.shiftl (Z.land (vfp_line f) 0xf) 4) (Z.land (vsp_line f) 0xf);
    Z.lor (Z.lor (Z.lor (and_shr (hfp_pixel f) 0x300 2) (and_shr (hsp_pixel f) 0x300 4))
      (and_shr (vfp_line f) 0x030 6)) (and_shr (vsp_line f) 0x030 8);
    Z.land (f_width f) 0xff; Z.land (f_height f) 0xff;
    Z.lor (and_shr (f_width f) 0xf00 4) (and_shr (f_height f) 0xf00 8);
    Z.land (lhb_pixel f) 0xff; Z.land (tvb_line f) 0xff; 0x18 ].

Lemma set_dtd_run d f e :
  pixel_clock f / 10000 <= 65535 -> 0 <= d -> d + 18 <= Z.of_nat (length e) ->
  vdpy_edid_set_dtd d f e = Ret (tt, sets e d (dtd_bytes f)).
Proof.
  intros Hc Hd Hl. unfold vdpy_edid_set_dtd.
  destruct (Z.ltb_spec 65535 (pixel_clock f / 10000)); [lia|].
  unfold mbind, M_bind. cbn [wr_list le_encode]. unfold mbind, M_bind, mret, M_ret.
  repeat rewrite wr_run by (rewrite ?length_setZ; lia).
  unfold dtd_bytes. cbn [sets]. do 2 f_equal.
  repeat (f_equal; try lia).
Qed.

(** The fields of a frame that the descriptor has room for; the code keeps
    only four bits of the two vertical sync fields. *)
Record frame_ok (f : frame_param) : Prop := {
  fo_clock : 0 <= pixel_clock f < 655360000;
  fo_active : fits 12 (hav_pixel f) /\ fits 12 (hb_pixel f) /\ fits 12 (vav_line f) /\ fits 12 (vb_line f);
  fo_sync : fits 10 (hfp_pixel f) /\ fits 10 (hsp_pixel f) /\ fits 4 (vfp_line f) /\ fits 4 (vsp_line f);
  fo_size : fits 12 (f_width f) /\ fits 12 (f_height f)
}.

Lemma split12 x y :
  fits 12 x -> fits 12 y ->
  let hi := u8 (Z.lor (Z.shiftr (Z.land x 0xf00) 4) (Z.shiftr (Z.land y 0xf00) 8)) in
  u8 (Z.land x 0xff) + 256 * (hi / 16) = x /\ u8 (Z.land y 0xff) + 256 * (hi mod 16) = y.
Proof.
  intros Hx Hy hi.
  assert (Hhi : hi = 16 * (x / 256) + y / 256).
  { unfold hi. change 0xf00 with (Z.shiftl (Z.ones 4) 8).
    rewrite (high_field x 8 4 4), (high_field y 8 4 8) by (done || lia).
    change (2 ^ (8 - 4)) with 16. change (2 ^ (8 - 8)) with 1. change (2 ^ 8) with 256.
    rewrite Z.mul_1_l.
    assert (0 <= x / 256 < 16 /\ 0 <= y / 256 < 16) as [? ?]
      by (unfold fits in *; change (2 ^ 12) with 4096 in *; Z.div_mod_to_equations; lia).
    rewrite lor_nibbles by done. apply wrap_small. unfold fits. change (2 ^ 8) with 256. lia. }
  rewrite Hhi. change 0xff with (Z.ones 8). rewrite !land_low by done.
  change (2 ^ 8) with 256. unfold u8, wrap. change (2 ^ 8) with 256.
  unfold fits in *. change (2 ^ 12) with 4096 in *.
  split; Z.div_mod_to_equations; lia.
Qed.

Lemma clock_bytes x :
  0 <= x <= 65535 ->
  u8 (u16 x mod 256) + 256 * u8 (u16 x / 256 mod 256) = x.
Proof.
  intros Hx. unfold u8, u16, wrap. change (2 ^ 8) with 256. change (2 ^ 16) with 65536.
  rewrite (Z.mod_small x 65536) by lia. Z.div_mod_to_equations. lia.
Qed.

(** The byte with the low nibbles of the vertical sync fields. *)
Lemma nibbles_byte x y :
  fits 4 x -> fits 4 y ->
  u8 (Z.lor (Z.shiftl (Z.land x 0xf) 4) (Z.land y 0xf)) = 16 * x + y.
Proof.
  intros Hx Hy. unfold fits in *. change (2 ^ 4) with 16 in *.
  change 0xf with (Z.ones 4). rewrite !land_low by done. change (2 ^ 4) with 16.
  rewrite !Z.mod_small, Z.shiftl_mul_pow2 by lia. change (2 ^ 4) with 16.
  rewrite (Z.mul_comm x), lor_nibbles by lia. apply wrap_small. unfold fits. change (2 ^ 8) with 256. lia.
Qed.

(** The byte with the high bits of the four sync fields, when the vertical
    ones have no high bits. *)
Lemma sync_byte x y u v :
  fits 10 x -> fits 10 y -> fits 4 u -> fits 4 v ->
  u8 (Z.lor (Z.lor (Z.lor (Z.shiftr (Z.land x 0x300) 2) (Z.shiftr (Z.land y 0x300) 4))
    (Z.shiftr (Z.land u 0x030) 6)) (Z.shiftr (Z.land v 0x030) 8)) = 64 * (x / 256) + 16 * (y / 256).
Proof.
  intros Hx Hy Hu Hv.
  assert (Hz : forall w, fits 4 w -> Z.land w 0x030 = 0).
  { intros w Hw. apply Z.bits_inj'. intros i Hi. rewrite Z.land_spec, Z.bits_0.
    change 0x030 with (Z.shiftl (Z.ones 2) 4). rewrite Z.shiftl_spec by done.
    destruct (Z.ltb_spec i 4).
    - rewrite (Z.testbit_neg_r _ (i - 4)) by lia. apply andb_false_r.
    - by rewrite (testbit_fits 4) by (done || lia). }
  rewrite (Hz u Hu), (Hz v Hv), !Z.shiftr_0_l, !Z.lor_0_r.
  change 0x300 with (Z.shiftl (Z.ones 2) 8).
  rewrite (high_field x 8 2 2), (high_field y 8 2 4) by (done || lia).
  change (2 ^ (8 - 2)) with 64. change (2 ^ (8 - 4)) with 16. change (2 ^ 8) with 256.
  assert (0 <= x / 256 < 4 /\ 0 <= y / 256 < 4) as [? ?]
    by (unfold fits in *; change (2 ^ 10) with 1024 in *; Z.div_mod_to_equations; lia).
  rewrite lor_pairs by done. apply wrap_small. unfold fits. change (2 ^ 8) with 256. lia.
Qed.

Lemma low_byte x : fits 10 x -> u8 (Z.land x 0xff) + 256 * (x / 256) = x.
Proof.
  intros Hx. change 0xff with (Z.ones 8). rewrite land_low by done.
  unfold u8, wrap. change (2 ^ 8) with 256. rewrite Z.mod_mod by done. Z.div_mod_to_equations. lia.
Qed.

(**  Round trip: the detailed timing descriptor the code writes decodes,
    with the layout of the EDID standard, to the frame it was written from:
    pixel clock (in units of 10 kHz), active and blanking sizes, sync offsets
    and widths, and image size. *)
Theorem dtd_roundtrip d f e :
  frame_ok f -> 0 <= d -> d + 18 <= Z.of_nat (length e) ->
  exists e', vdpy_edid_set_dtd d f e = Ret (tt, e') /\
    dtd_decode e' d = mkDtd (pixel_clock f / 10000) (hav_pixel f) (hb_pixel f)
      (vav_line f) (vb_line f) (hfp_pixel f) (hsp_pixel f) (vfp_line f) (vsp_line f)
      (f_width f) (f_height f).
Proof.
  intros [Hc (Ha1 & Ha2 & Ha3 & Ha4) (Hs1 & Hs2 & Hs3 & Hs4) (Hw & Hh)] Hd Hl.
  eexists. split; [apply set_dtd_run; [Z.div_mod_to_equations; lia|done|done]|].
  assert (Hb : forall k v, 0 <= k -> dtd_bytes f !! Z.to_nat k = Some v ->
    byte (sets e d (dtd_bytes f)) (d + k) = u8 v).
  { intros k v Hk Hv. rewrite <- (Z2Nat.id k) by done. by apply sets_byte. }
  unfold dtd_decode. cbv zeta.
  rewrite (Hb 0 _ ltac:(done) eq_refl), (Hb 1 _ ltac:(done) eq_refl), (Hb 2 _ ltac:(done) eq_refl),
    (Hb 3 _ ltac:(done) eq_refl), (Hb 4 _ ltac:(done) eq_refl), (Hb 5 _ ltac:(done) eq_refl),
    (Hb 6 _ ltac:(done) eq_refl), (Hb 7 _ ltac:(done) eq_refl), (Hb 8 _ ltac:(done) eq_refl),
    (Hb 9 _ ltac:(done) eq_refl), (Hb 10 _ ltac:(done) eq_refl), (Hb 11 _ ltac:(done) eq_refl),
    (Hb 12 _ ltac:(done) eq_refl), (Hb 13 _ ltac:(done) eq_refl), (Hb 14 _ ltac:(done) eq_refl).
  destruct (split12 _ _ Ha1 Ha2) as [E1 E2]. destruct (split12 _ _ Ha3 Ha4) as [E3 E4].
  destruct (split12 _ _ Hw Hh) as [E5 E6].
  rewrite E1, E2, E3, E4, E5, E6, clock_bytes, nibbles_byte, sync_byte
    by (done || (Z.div_mod_to_equations; lia)).
  assert (Hr : forall x, fits 10 x -> 0 <= x / 256 < 4)
    by (intros x [? ?]; change (2 ^ 10) with 1024 in *; Z.div_mod_to_equations; lia).
  pose proof (Hr _ Hs1). pose proof (Hr _ Hs2).
  set (p := hfp_pixel f / 256) in *. set (q := hsp_pixel f / 256) in *.
  replace ((64 * p + 16 * q) / 64) with p by (Z.div_mod_to_equations; lia).
  replace ((64 * p + 16 * q) / 16 mod 4) with q by (Z.div_mod_to_equations; lia).
  replace ((64 * p + 16 * q) / 4 mod 4) with 0 by (Z.div_mod_to_equations; lia).
  replace ((64 * p + 16 * q) mod 4) with 0 by (Z.div_mod_to_equations; lia).
  subst p q. rewrite !low_byte by done.
  unfold fits in Hs3, Hs4. change (2 ^ 4) with 16 in *.
  f_equal; Z.div_mod_to_equations; lia.
Qed.

(** The witness is a 1280x720 frame written at the first descriptor. *)
Definition demo_frame : frame_param :=
  {| hav_pixel := 1280; hb_pixel := 370; vav_line := 720; vb_line := 30;
     hfp_pixel := 110; hsp_pixel := 40; vfp_line := 5; vsp_line := 5;
     lhb_pixel := 0; tvb_line := 0; f_width := 509; f_height := 286;
     pixel_clock := 74250000 |}.


Lemma dtd_roundtrip_witness :
  frame_ok demo_frame /\ 0 <= 54 /\ 54 + 18 <= Z.of_nat (length (replicate 128 0)) /\
  exists e', vdpy_edid_set_dtd 54 demo_frame (replicate 128 0) = Ret (tt, e') /\
    dtd_decode e' 54 = mkDtd 7425 1280 370 720 30 110 40 5 5 509 286.
Proof.
  assert (H : frame_ok demo_frame) by (split; by vm_compute).
  split; [exact H|]. split; [done|]. split; [by vm_compute|].
  apply (dtd_roundtrip 54 demo_frame (replicate 128 0) H); [done|by vm_compute].
Defined.

(** The two high bits of the vertical sync fields are shifted out of the byte
    that should hold them: a sync offset of 20 lines reads back as 4. *)
Example vfp_high_bits_lost :
  let f := {| hav_pixel := 1280; hb_pixel := 370; vav_line := 720; vb_line := 30;
     hfp_pixel := 110; hsp_pixel := 40; vfp_line := 20; vsp_line := 5;
     lhb_pixel := 0; tvb_line := 0; f_width := 509; f_height := 286;
     pixel_clock := 74250000 |} in
  match vdpy_edid_set_dtd 54 f (replicate 128 0) with
  | Ret (_, e) => d_vfp (dtd_decode e 54) = 4
  | Stop _ => False
  end.
Proof. vm_compute. reflexivity. Qed.
