(* ===== verification/Pixman.v ===== *)
(** * The part of pixman the GPU device uses

    [src/pixman/pixman]: the format codes of [pixman.h], the creation of a
    bits image ([pixman-bits-image.c]), its reference count and accessors
    ([pixman-image.c]), the overflow checks ([pixman-utils.c]), and regions of
    at most one 16-bit rectangle ([pixman-region.c], instantiated by
    [pixman-region16.c]).  A [pixman_image_t *] is a key of a heap of images. *)
From S2P Require Import Prelude Shmem.

(** ** Format codes *)

Definition PIXMAN_TYPE_ARGB := 2.
Definition PIXMAN_TYPE_ABGR := 3.
Definition PIXMAN_TYPE_BGRA := 8.
Definition PIXMAN_TYPE_RGBA := 9.

Definition PIXMAN_FORMAT (bpp type a r g b : Z) : Z :=
  Z.lor (Z.lor (Z.lor (Z.lor (Z.lor (Z.shiftl bpp 24) (Z.shiftl type 16)) (Z.shiftl a 12))
    (Z.shiftl r 8)) (Z.shiftl g 4)) b.

Definition PIXMAN_FORMAT_RESHIFT (val ofs num : Z) : Z :=
  Z.shiftl (Z.land (Z.shiftr val ofs) (Z.shiftl 1 num - 1)) (Z.land (Z.shiftr val 22) 3).

Definition PIXMAN_FORMAT_BPP (f : Z) : Z := PIXMAN_FORMAT_RESHIFT f 24 8.
Definition PIXMAN_FORMAT_A (f : Z) : Z := PIXMAN_FORMAT_RESHIFT f 12 4.
Definition PIXMAN_FORMAT_R (f : Z) : Z := PIXMAN_FORMAT_RESHIFT f 8 4.
Definition PIXMAN_FORMAT_G (f : Z) : Z := PIXMAN_FORMAT_RESHIFT f 4 4.
Definition PIXMAN_FORMAT_B (f : Z) : Z := PIXMAN_FORMAT_RESHIFT f 0 4.
Definition PIXMAN_FORMAT_DEPTH (f : Z) : Z :=
  PIXMAN_FORMAT_A f + PIXMAN_FORMAT_R f + PIXMAN_FORMAT_G f + PIXMAN_FORMAT_B f.

Definition PIXMAN_a8r8g8b8 := PIXMAN_FORMAT 32 PIXMAN_TYPE_ARGB 8 8 8 8.
Definition PIXMAN_x8r8g8b8 := PIXMAN_FORMAT 32 PIXMAN_TYPE_ARGB 0 8 8 8.
Definition PIXMAN_a8b8g8r8 := PIXMAN_FORMAT 32 PIXMAN_TYPE_ABGR 8 8 8 8.
Definition PIXMAN_x8b8g8r8 := PIXMAN_FORMAT 32 PIXMAN_TYPE_ABGR 0 8 8 8.
Definition PIXMAN_b8g8r8a8 := PIXMAN_FORMAT 32 PIXMAN_TYPE_BGRA 8 8 8 8.
Definition PIXMAN_b8g8r8x8 := PIXMAN_FORMAT 32 PIXMAN_TYPE_BGRA 0 8 8 8.
Definition PIXMAN_r8g8b8a8 := PIXMAN_FORMAT 32 PIXMAN_TYPE_RGBA 8 8 8 8.
Definition PIXMAN_r8g8b8x8 := PIXMAN_FORMAT 32 PIXMAN_TYPE_RGBA 0 8 8 8.

(** ** Overflow checks

    The arguments are converted to [unsigned int], respectively [size_t]. *)

Definition INT32_MAX := 2 ^ 31 - 1.
Definition SIZE_MAX := 2 ^ 64 - 1.

Definition _pixman_multiply_overflows_int (a b : Z) : outcome bool :=
  if u32 b =? 0 then Stop DivByZero else Ret (INT32_MAX / u32 b <=? u32 a).

Definition _pixman_addition_overflows_int (a b : Z) : bool := u32 (INT32_MAX - u32 b) <? u32 a.

Definition _pixman_multiply_overflows_size (a b : Z) : outcome bool :=
  if u64 b =? 0 then Stop DivByZero else Ret (SIZE_MAX / u64 b <=? u64 a).

(** ** Images *)

(** The fields of a [bits_image_t] that matter here.  [im_bits] is the size of
    the pixel buffer, [None] for a null [bits]; [im_pix] is its content. *)
Record image := mkImage {
  im_ref : Z;
  im_format : Z;
  im_width : Z;
  im_height : Z;
  im_rowstride : Z;
  im_bits : option Z;
  im_pix : gmap Z Z
}.
#[export] Instance image_eta : Settable image := fun i =>
  mkImage (im_ref i) (im_format i) (im_width i) (im_height i) (im_rowstride i)
    (im_bits i) (im_pix i).

(** Stride in bytes and buffer size; [None] for a null result.  [alloc] is the
    allocator's answer. *)
Definition create_bits (alloc : bool) (format width height : Z) : outcome (option (Z * Z)) :=
  let bpp := PIXMAN_FORMAT_BPP format in
  o ← _pixman_multiply_overflows_int width bpp;
  if (o : bool) then Ret None
  else
    let stride := s32 (width * bpp) in
    if _pixman_addition_overflows_int stride 0x1f then Ret None
    else
      let stride := Z.shiftr (stride + 0x1f) 5 * 4 in
      o ← _pixman_multiply_overflows_size height stride;
      if (o : bool) then Ret None
      else let buf_size := u64 (u64 height * stride) in
           if alloc then Ret (Some (stride, buf_size)) else Ret None.

(** With [bits] null and [clear] set, as the program calls it. *)
Definition _pixman_bits_image_init (alloc : bool) (format width height rowstride : Z)
  : outcome (option image) :=
  if (PIXMAN_FORMAT_BPP format =? 128) && negb (rowstride mod 4 =? 0) then Ret None
  else if z2b width && z2b height then
    r ← create_bits alloc format width height;
    match r with
    | None => Ret None
    | Some (rowstride_bytes, size) =>
      Ret (Some (mkImage 1 format width height (rowstride_bytes / 4) (Some size) ∅))
    end
  else Ret (Some (mkImage 1 format width height rowstride None ∅)).

(** [width] and [height] are converted to [int]. *)
Definition pixman_image_create_bits (alloc_image alloc_bits : bool) (format width height : Z)
  : outcome (option image) :=
  if PIXMAN_FORMAT_BPP format <? PIXMAN_FORMAT_DEPTH format then Ret None
  else if alloc_image then
    _pixman_bits_image_init alloc_bits format (s32 width) (s32 height) 0
  else Ret None.

(** ** The heap of images *)

Abbreviation heap := (gmap nat image).

Definition image_at (h : heap) (p : option nat) : outcome (nat * image) :=
  match p with
  | None => Stop NullDeref
  | Some i => match h !! i with None => Stop UseAfterFree | Some im => Ret (i, im) end
  end.

Definition pixman_image_ref (h : heap) (p : option nat) : outcome heap :=
  '(i, im) ← image_at h p;
  Ret (<[i := im <| im_ref ::= fun r => r + 1 |>]> h).

(** [_pixman_image_fini] and the [free] of its caller. *)
Definition pixman_image_unref (h : heap) (p : option nat) : outcome heap :=
  '(i, im) ← image_at h p;
  if im_ref im - 1 =? 0 then Ret (delete i h)
  else Ret (<[i := im <| im_ref ::= fun r => r - 1 |>]> h).

Definition pixman_image_get_stride (h : heap) (p : option nat) : outcome Z :=
  '(_, im) ← image_at h p; Ret (s32 (im_rowstride im * 4)).

Definition pixman_image_get_format (h : heap) (p : option nat) : outcome Z :=
  '(_, im) ← image_at h p; Ret (im_format im).

(** A pointer to a pixel buffer: the image it belongs to, null when the image
    has no buffer. *)
Definition pixman_image_get_data (h : heap) (p : option nat) : outcome (option nat) :=
  '(i, im) ← image_at h p;
  Ret (match im_bits im with Some _ => Some i | None => None end).

(** [memcpy] into the pixel buffer, at byte [off]. *)
Definition image_write (h : heap) (p : option nat) (off : Z) (bs : list Z) : outcome heap :=
  match bs with
  | [] => Ret h
  | _ =>
    '(i, im) ← image_at h p;
    match im_bits im with
    | None => Stop NullDeref
    | Some size =>
      if (0 <=? off) && (off + Z.of_nat (length bs) <=? size)
      then Ret (<[i := im <| im_pix ::= fun m => mem_write m off bs |>]> h)
      else Stop OobAccess
    end
  end.

(** ** Regions of at most one rectangle *)

Definition s16 (x : Z) : Z := swrap 16 x.

Record box16 := mkBox { x1 : Z; y1 : Z; x2 : Z; y2 : Z }.

(** [data]: null for one rectangle, or [pixman_region_empty_data]. *)
Record region16 := mkRegion16 { extents : box16; empty_data : bool }.

Definition GOOD_RECT (b : box16) : bool := (x1 b <? x2 b) && (y1 b <? y2 b).
Definition EXTENTCHECK (a b : box16) : bool :=
  negb ((x2 a <=? x1 b) || (x2 b <=? x1 a) || (y2 a <=? y1 b) || (y2 b <=? y1 a)).

Definition pixman_region_init : region16 := mkRegion16 (mkBox 0 0 0 0) true.

(** [x] and [y] are [int], [width] and [height] unsigned; the box fields are
    16-bit. *)
Definition pixman_region_init_rect (x y width height : Z) : region16 :=
  let b := mkBox (s16 x) (s16 y) (s16 (x + width)) (s16 (y + height)) in
  if GOOD_RECT b then mkRegion16 b false else pixman_region_init.

Definition pixman_region_intersect (new_reg reg1 reg2 : region16) : region16 :=
  if empty_data reg1 || empty_data reg2 || negb (EXTENTCHECK (extents reg1) (extents reg2)) then
    let e := extents new_reg in
    mkRegion16 (mkBox (x1 e) (y1 e) (x1 e) (y1 e)) true
  else
    let a := extents reg1 in let b := extents reg2 in
    mkRegion16 (mkBox (Z.max (x1 a) (x1 b)) (Z.max (y1 a) (y1 b))
      (Z.min (x2 a) (x2 b)) (Z.min (y2 a) (y2 b))) false.

Definition pixman_region_not_empty (r : region16) : bool := negb (empty_data r).

(** ** Lemmas *)

(** What a successful allocation of the pixel buffer guarantees: the arithmetic
    did not overflow, so every row of [width] pixels fits its stride. *)
Lemma create_bits_some alloc format width height stride size :
  fits 16 (PIXMAN_FORMAT_BPP format) -> - 2 ^ 31 <= width < 2 ^ 31 -> - 2 ^ 31 <= height < 2 ^ 31 ->
  width <> 0 ->
  create_bits alloc format width height = Ret (Some (stride, size)) ->
  alloc = true /\ 0 < width /\ 0 <= height /\
  width * PIXMAN_FORMAT_BPP format <= 8 * stride < 2 ^ 31 /\
  stride mod 4 = 0 /\ 0 < stride /\ size = height * stride.
Proof.
  intros Hbpp Hw Hh Hw0. unfold create_bits, _pixman_multiply_overflows_int.
  generalize dependent (PIXMAN_FORMAT_BPP format). intros bpp Hbpp.
  assert (Hb : u32 bpp = bpp) by (apply wrap_small; by apply (fits_mono 16)).
  rewrite Hb. destruct (Z.eqb_spec bpp 0); [done|]. cbn [mbind outcome_bind].
  destruct (Z.leb_spec (INT32_MAX / bpp) (u32 width)) as [|Hlt]; [done|].
  unfold fits in Hbpp. change (2 ^ 16) with 65536 in *. change (2 ^ 31) with 2147483648 in *.
  change INT32_MAX with 2147483647 in *.
  assert (Hpos : 0 < width /\ u32 width = width).
  { destruct (Z.leb_spec width 0).
    - assert (u32 width = width + 2 ^ 32) as E
        by (symmetry; apply (Z.mod_unique_pos _ _ (-1)); change (2 ^ 32) with 4294967296; lia).
      rewrite E in Hlt. change (2 ^ 32) with 4294967296 in *.
      assert (2147483647 / bpp <= 2147483647) by (apply Z.div_le_upper_bound; nia). lia.
    - split; [done|]. apply wrap_small. unfold fits. change (2 ^ 32) with 4294967296. lia. }
  destruct Hpos as [Hpos Eu]. rewrite Eu in Hlt.
  assert (Hm : 0 <= width * bpp < 2147483647).
  { assert (bpp * (2147483647 / bpp) <= 2147483647) by (apply Z.mul_div_le; lia). nia. }
  unfold s32, swrap. change (2 ^ (32 - 1)) with 2147483648.
  rewrite (wrap_small 32) by (unfold fits; change (2 ^ 32) with 4294967296; lia).
  rewrite Z.add_simpl_r. unfold _pixman_addition_overflows_int.
  change (u32 (INT32_MAX - u32 31)) with 2147483616.
  assert (E2 : u32 (width * bpp) = width * bpp)
    by (apply wrap_small; unfold fits; change (2 ^ 32) with 4294967296; lia).
  rewrite E2. destruct (Z.ltb_spec 2147483616 (width * bpp)); [done|].
  rewrite Z.shiftr_div_pow2 by done. change (2 ^ 5) with 32.
  set (st := (width * bpp + 31) / 32 * 4).
  assert (Hst : width * bpp <= 8 * st < 2147483648 /\ st mod 4 = 0 /\ 0 < st).
  { subst st. assert (0 < width * bpp <= 2147483616) as Hx by nia. revert Hx.
    generalize (width * bpp). intros x Hx.
    split; [Z.div_mod_to_equations; lia|]. split; [by apply Z.mod_mul|Z.div_mod_to_equations; lia]. }
  clearbody st. unfold _pixman_multiply_overflows_size.
  assert (Es : u64 st = st)
    by (apply wrap_small; unfold fits; change (2 ^ 64) with 18446744073709551616; lia).
  rewrite Es. destruct (Z.eqb_spec st 0); [lia|]. cbn [mbind outcome_bind].
  unfold SIZE_MAX. change (2 ^ 64 - 1) with 18446744073709551615.
  destruct (Z.leb_spec (18446744073709551615 / st) (u64 height)) as [|Hlt2]; [done|].
  destruct alloc; [|done]. intros [= <- <-].
  assert (Hq : st * (18446744073709551615 / st) <= 18446744073709551615) by (apply Z.mul_div_le; lia).
  assert (H4 : 18446744073709551615 / st <= 18446744073709551615 / 4)
    by (apply Z.div_le_compat_l; Z.div_mod_to_equations; lia).
  change (18446744073709551615 / 4) with 4611686018427387903 in H4.
  assert (Hh0 : 0 <= height /\ u64 height = height).
  { destruct (Z.ltb_spec height 0).
    - assert (u64 height = height + 2 ^ 64) as E
        by (symmetry; apply (Z.mod_unique_pos _ _ (-1)); change (2 ^ 64) with 18446744073709551616; lia).
      rewrite E in Hlt2. change (2 ^ 64) with 18446744073709551616 in *. lia.
    - split; [done|]. apply wrap_small. unfold fits. change (2 ^ 64) with 18446744073709551616. lia. }
  destruct Hh0 as [Hh0 Eh]. rewrite Eh in *.
  split_and!; try tauto; try lia. apply wrap_small. unfold fits.
  change (2 ^ 64) with 18446744073709551616. nia.
Qed.
