(* ===== verification/Display.v ===== *)
(** * The virtual display server

    [src/devicemodel/hw/vdisplay_server.c] and [src/vdisplay_protocol.h]: the
    virtual screens, the queue of bottom halves run by the display thread, the
    messages sent to the display client and those received from it.

    The operating system's side of a socket is a script: the answers the calls
    of [send], [recv] and [sendmsg] get, in order.  [errno] is per thread. *)
From S2P Require Import Prelude Edid.

(** ** Data *)

Definition VDPY_MAX_NUM := 4.
Definition VDPY_MAX_WIDTH := 3840.
Definition VDPY_MAX_HEIGHT := 2160.
Definition VDPY_DEFAULT_WIDTH := 1920.
Definition VDPY_DEFAULT_HEIGHT := 1080.
Definition VDPY_MIN_WIDTH := 640.
Definition VDPY_MIN_HEIGHT := 480.

Definition ACRN_BH_PENDING := 1.
Definition ACRN_BH_DONE := 2.
Definition ACRN_BH_FREE := 4.

Definition DPY_EVENT_SURFACE_SET := 0x100.
Definition DPY_EVENT_SURFACE_UPDATE := 0x101.
Definition DPY_EVENT_SET_MODIFIER := 0x102.
Definition DPY_EVENT_DISPLAY_INFO := 0x105.
Definition DPY_EVENT_HOTPLUG := 0x106.
Definition DPY_EVENT_START_CAST := 0x107.
Definition DPY_EVENT_STOP_CAST := 0x108.
Definition DISPLAY_MAGIC_CODE := 0x5566.

(** [EAGAIN] of the platform. *)
Definition EAGAIN := 11.

Record display_info := mkInfo { xoff : Z; yoff : Z; di_width : Z; di_height : Z }.

Inductive surface_type := SURFACE_PIXMAN | SURFACE_DMABUF.

(** [pixel] is a host pointer: an image and a byte offset, or null. *)
Record surface := mkSurface {
  surf_type : surface_type; surf_format : Z;
  s_x : Z; s_y : Z; s_width : Z; s_height : Z; s_bpp : Z; s_stride : Z;
  pixel : option (nat * Z);
  dmabuf_fd : Z; surf_fourcc : Z; dmabuf_offset : Z }.

(** The fields of [struct vscreen] the server uses. *)
Record vscreen := mkVscreen {
  info : display_info; set_modifier : bool; modifier : Z;
  org_x : Z; org_y : Z; guest_width : Z; guest_height : Z }.
#[export] Instance vscreen_eta : Settable vscreen := fun v =>
  mkVscreen (info v) (set_modifier v) (modifier v) (org_x v) (org_y v) (guest_width v) (guest_height v).

(** What [send], [sendmsg] and [recv] may answer: room for, or arrival of, some
    bytes; or -1 with an [errno].  No bytes is an answer of 0. *)
Inductive send_answer := SRoom (n : Z) | SErr (e : Z).
Inductive recv_answer := RData (bs : list Z) | RErr (e : Z).

(** [struct display], with [client_sock] and the client's connection.  [sent]
    and [sent_fds] are what has been put on the connection so far. *)
Record display := mkDisplay {
  is_active : bool;
  n_connect : Z;
  vscrs_num : Z;
  vscrs : list vscreen;
  request_list : list nat;
  bh_flag : list Z;
  client_sock : Z;
  dpy_errno : Z;
  room : list send_answer;
  sent : list Z;
  sent_fds : list Z
}.
#[export] Instance display_eta : Settable display := fun d =>
  mkDisplay (is_active d) (n_connect d) (vscrs_num d) (vscrs d) (request_list d) (bh_flag d)
    (client_sock d) (dpy_errno d) (room d) (sent d) (sent_fds d).

(** ** Geometry *)

Definition vdpy_calibrate_vscreen_geometry (v : vscreen) : vscreen :=
  if z2b (guest_width v) && z2b (guest_height v) then
    let v := if guest_width v <? VDPY_MIN_WIDTH then v <| guest_width := VDPY_MIN_WIDTH |> else v in
    let v := if VDPY_MAX_WIDTH <? guest_width v then v <| guest_width := VDPY_MAX_WIDTH |> else v in
    let v := if guest_height v <? VDPY_MIN_HEIGHT then v <| guest_height := VDPY_MIN_HEIGHT |> else v in
    if VDPY_MAX_HEIGHT <? guest_height v then v <| guest_height := VDPY_MAX_HEIGHT |> else v
  else
    v <| org_x := 0xFFFF |> <| org_y := 0xFFFF |>
      <| guest_width := VDPY_DEFAULT_WIDTH |> <| guest_height := VDPY_DEFAULT_HEIGHT |>.

(** The body of the first loop of [vdpy_sdl_display_thread]. *)
Definition vscreen_start (v : vscreen) : vscreen :=
  let v := vdpy_calibrate_vscreen_geometry v in
  v <| info := mkInfo (org_x v) (org_y v) (u32 (guest_width v)) (u32 (guest_height v)) |>.

(** [vdpy_sdl_display_thread] up to its request loop: the first [vscrs_num]
    screens are set up and the display becomes active. *)
Definition display_start (d : display) : display :=
  d <| vscrs ::= fun l => map vscreen_start (take (Z.to_nat (vscrs_num d)) l) ++ drop (Z.to_nat (vscrs_num d)) l |>
    <| request_list := [] |> <| is_active := true |>.

Definition D (A : Type) := M display A.

(** The screen [scanout_id], a signed [int]. *)
Definition get_vscr (scanout_id : Z) : D vscreen := fun d =>
  match nthZ (vscrs d) scanout_id with Some v => Ret (v, d) | None => Stop OobAccess end.

(** ** Display information and EDID *)

(** [inf] is the caller's struct, [None] while nothing has been written to it. *)
Definition vdpy_get_display_info (handle scanout_id : Z) (inf : option display_info)
  : D (option display_info) :=
  d ← get;
  if vscrs_num d <=? scanout_id then mret inf
  else v ← get_vscr scanout_id;
       mret (Some (if handle =? n_connect d then info v else mkInfo 0 0 0 0)).

(** [edid] is the caller's buffer of [size] bytes. *)
Definition vdpy_get_edid (handle scanout_id : Z) (edid : list Z) (size : nat) : D (list Z) :=
  d ← get;
  if vscrs_num d <=? scanout_id then mret edid
  else v ← get_vscr scanout_id;
       let '(prefx, prefy) :=
         if handle =? n_connect d then (di_width (info v), di_height (info v))
         else (VDPY_DEFAULT_WIDTH, VDPY_DEFAULT_HEIGHT) in
       e ← lift (vdpy_edid_generate size prefx prefy);
       if (size <=? length edid)%nat then mret (e ++ drop size edid) else halt OobAccess.

(** ** Sending *)

(** The loop of [_send]: the result is its return value, [errno], what is left
    of the script, and the bytes that went out. *)
Fixpoint send_loop (script : list send_answer) (err : Z) (data : list Z) (out : list Z)
  : outcome (Z * Z * list send_answer * list Z) :=
  match script with
  | [] => Stop OutOfFuel
  | SErr e :: rest =>
    if e =? EAGAIN then send_loop rest e data out else Ret (-1, e, rest, out)
  | SRoom n :: rest =>
    let ret := Z.min n (Z.of_nat (length data)) in
    if ret <=? 0 then
      if err =? EAGAIN then send_loop rest err data out else Ret (0, err, rest, out)
    else
      let out := out ++ take (Z.to_nat ret) data in
      let data := drop (Z.to_nat ret) data in
      if (length data =? 0)%nat then Ret (ret, err, rest, out)
      else if err =? EAGAIN then send_loop rest err data out else Ret (ret, err, rest, out)
  end.

Definition _send (data : list Z) : D Z := fun d =>
  match send_loop (room d) (dpy_errno d) data (sent d) with
  | Ret (ret, err, rest, out) =>
    Ret (ret, d <| dpy_errno := err |> <| room := rest |> <| sent := out |>)
  | Stop e => Stop e
  end.

(** [struct dpy_evt_header] *)
Definition evt_header (e_type len : Z) : list Z :=
  le_encode 4 e_type ++ le_encode 4 DISPLAY_MAGIC_CODE ++ le_encode 4 len.

(** [data] is [None] for a null pointer. *)
Definition client_send (e_type : Z) (data : option (list Z)) : D Z :=
  d ← get;
  if client_sock d =? -1 then mret (-1)
  else
    let len := match data with Some bs => Z.of_nat (length bs) | None => 0 end in
    ret ← _send (evt_header e_type len);
    if negb (ret =? 12) then mret (-1)
    else match data with
         | Some (b :: bs) => ret ← _send (b :: bs);
                             if negb (ret =? len) then mret (-1) else mret 0
         | _ => mret 0
         end.

Fixpoint sendmsg_loop (script : list send_answer) (err : Z) : outcome (Z * Z * list send_answer) :=
  match script with
  | [] => Stop OutOfFuel
  | SErr e :: rest => if e =? EAGAIN then sendmsg_loop rest e else Ret (-1, e, rest)
  | SRoom n :: rest =>
    let ret := Z.min n 16 in
    if ret <=? 0 then if err =? EAGAIN then sendmsg_loop rest err else Ret (0, err, rest)
    else Ret (ret, err, rest)
  end.

(** The descriptor travels with the first byte of a 16-byte payload of zeros. *)
Definition client_send_fd (fd : Z) : D Z := fun d =>
  if client_sock d =? -1 then Ret (-1, d)
  else match sendmsg_loop (room d) (dpy_errno d) with
       | Ret (ret, err, rest) =>
         let d := d <| dpy_errno := err |> <| room := rest |> in
         Ret (ret, if 0 <? ret then d <| sent ::= fun l => l ++ replicate (Z.to_nat ret) 0 |>
                                      <| sent_fds ::= fun l => l ++ [fd] |> else d)
       | Stop e => Stop e
       end.

(** [struct surface] as it is sent: only surfaces without pixel pointer are. *)
Definition surface_bytes (s : surface) : list Z :=
  le_encode 4 (match surf_type s with SURFACE_PIXMAN => 1 | SURFACE_DMABUF => 2 end) ++
  le_encode 4 (surf_format s) ++ le_encode 4 (s_x s) ++ le_encode 4 (s_y s) ++
  le_encode 4 (s_width s) ++ le_encode 4 (s_height s) ++ le_encode 4 (s_bpp s) ++
  le_encode 4 (s_stride s) ++ le_encode 8 0 ++
  le_encode 4 (dmabuf_fd s) ++ le_encode 4 (surf_fourcc s) ++ le_encode 4 (dmabuf_offset s) ++
  le_encode 4 0.

Definition vdpy_surface_set (handle scanout_id : Z) (surf : option surface) : D unit :=
  match surf with
  | Some s =>
    match surf_type s with
    | SURFACE_DMABUF =>
      _ ← client_send DPY_EVENT_SURFACE_SET (Some (surface_bytes s));
      _ ← client_send_fd (dmabuf_fd s);
      mret tt
    | SURFACE_PIXMAN => mret tt
    end
  | None => mret tt
  end.

Definition vdpy_surface_update (handle scanout_id : Z) (surf : option surface) : D unit :=
  match surf with
  | Some s =>
    match surf_type s with
    | SURFACE_DMABUF => _ ← client_send DPY_EVENT_SURFACE_UPDATE None; mret tt
    | SURFACE_PIXMAN => mret tt
    end
  | None => mret tt
  end.

(** [scanout_id] is converted to [int]; [vscrs] points to [length (vscrs d)]
    screens. *)
Definition vdpy_set_modifier (handle scanout_id mdf : Z) : D unit :=
  d ← get;
  let id := s32 scanout_id in
  if vscrs_num d <=? id then mret tt
  else
    v ← get_vscr id;
    _ ← modify (fun d => d <| vscrs ::= fun l => setZ l id (v <| modifier := mdf |> <| set_modifier := true |>) |>);
    _ ← client_send DPY_EVENT_SET_MODIFIER (Some (le_encode 8 mdf));
    mret tt.

Definition vdpy_cursor_define (handle scanout_id : Z) : D unit := mret tt.
Definition vdpy_cursor_move (handle scanout_id x y : Z) : D unit := mret tt.

(** ** The queue of bottom halves

    A [struct vdpy_display_bh *] is an index into the table of their flags.
    Each of these operations runs under [vdisplay_mutex]. *)

Definition enqueue (bh : nat) : D bool := fun d =>
  match bh_flag d !! bh with
  | None => Stop OobAccess
  | Some fl =>
    if Z.land fl ACRN_BH_PENDING =? 0 then
      Ret (true, d <| bh_flag ::= fun l => <[bh := Z.lor fl ACRN_BH_PENDING]> l |>
                   <| request_list ::= fun l => l ++ [bh] |>)
    else Ret (false, d)
  end.

Definition vdpy_submit_bh (handle : Z) (bh_task : nat) : D bool :=
  d ← get;
  if negb (handle =? n_connect d) then mret false
  else if negb (is_active d) then mret false
  else enqueue bh_task.

(** The timer gives up when the mutex is taken. *)
Definition vdpy_sdl_ui_timer (locked : bool) (ui_timer_bh : nat) : D unit :=
  if locked then mret tt else _ ← enqueue ui_timer_bh; mret tt.

(** One round of the display thread's inner loop, up to and after the task.
    No task has ACRN_BH_FREE. *)
Definition take_request : D (option nat) := fun d =>
  match request_list d with
  | [] => Ret (None, d)
  | bh :: rest => Ret (Some bh, d <| request_list := rest |>)
  end.

Definition finish_request (bh : nat) : D unit :=
  modify (fun d => d <| bh_flag ::= fun l => <[bh := ACRN_BH_DONE]> l |>).

(** The inner loop, with [W] the state of the program the tasks act on. *)
Section Drain.
Context {W : Type} (get_dpy : W -> display) (set_dpy : display -> W -> W)
  (task_cb : nat -> M W unit).

Definition on_display {A} (m : D A) : M W A := fun w =>
  match m (get_dpy w) with Ret (a, d) => Ret (a, set_dpy d w) | Stop e => Stop e end.

Fixpoint drain (fuel : nat) : M W unit :=
  match fuel with
  | O => halt OutOfFuel
  | S fuel' =>
    r ← on_display take_request;
    match r with
    | None => mret tt
    | Some bh => _ ← task_cb bh; _ ← on_display (finish_request bh); drain fuel'
    end
  end.
End Drain.

(** ** Receiving

    The buffers of the server threads live on their stacks: a byte nobody has
    written is [None]. *)

Record conn := mkConn { inbox : list recv_answer; rx_errno : Z; rx_buf : list (option Z) }.
#[export] Instance conn_eta : Settable conn := fun c => mkConn (inbox c) (rx_errno c) (rx_buf c).

Definition store (dst : list (option Z)) (off : Z) (bs : list Z) : outcome (list (option Z)) :=
  if off + Z.of_nat (length bs) <=? Z.of_nat (length dst)
  then Ret (take (Z.to_nat off) dst ++ map Some bs ++ drop (Z.to_nat off + length bs) dst)
  else Stop OobAccess.

(** The loop of [_recv]. *)
Fixpoint recv_loop (script : list recv_answer) (err : Z) (dst : list (option Z)) (got len : Z)
  : outcome (Z * Z * list recv_answer * list (option Z)) :=
  match script with
  | [] => Stop OutOfFuel
  | RErr e :: rest =>
    if e =? EAGAIN then recv_loop rest e dst got len else Ret (-1, e, rest, dst)
  | RData bs :: rest =>
    let ret := Z.min (Z.of_nat (length bs)) (len - got) in
    if ret <=? 0 then
      if err =? EAGAIN then recv_loop rest err dst got len else Ret (0, err, rest, dst)
    else
      dst ← store dst got (take (Z.to_nat ret) bs);
      let rest' := if ret <? Z.of_nat (length bs) then RData (drop (Z.to_nat ret) bs) :: rest
                   else rest in
      if got + ret =? len then Ret (ret, err, rest', dst)
      else if err =? EAGAIN then recv_loop rest err dst (got + ret) len
      else Ret (ret, err, rest', dst)
  end.

Fixpoint init_bytes (l : list (option Z)) : outcome (list Z) :=
  match l with
  | [] => Ret []
  | None :: _ => Stop Uninit
  | Some b :: l' => bs ← init_bytes l'; Ret (b :: bs)
  end.

(** A little-endian [int] or [uint32_t] of a buffer. *)
Definition buf_word (buf : list (option Z)) (off : nat) : outcome Z :=
  bs ← init_bytes (take 4 (drop off buf)); Ret (le_decode bs).

(** The part the two servers share: a header and, in [buf], the body; [None]
    when the message is dropped. *)
Definition receive_event (c : conn) : outcome (option Z * conn) :=
  '(ret, err, rest, hdr) ← recv_loop (inbox c) (rx_errno c) (replicate 12 None) 0 12;
  let c := c <| inbox := rest |> <| rx_errno := err |> in
  if negb (ret =? 12) then Ret (None, c)
  else
    e_type ← buf_word hdr 0;
    e_magic ← buf_word hdr 4;
    e_size ← buf_word hdr 8;
    if negb (e_magic =? DISPLAY_MAGIC_CODE) then Ret (None, c)
    else if 0 <? s32 e_size then
      '(ret, err, rest, buf) ← recv_loop (inbox c) (rx_errno c) (rx_buf c) 0 (s32 e_size);
      let c := c <| inbox := rest |> <| rx_errno := err |> <| rx_buf := buf |> in
      if negb (ret =? s32 e_size) then Ret (None, c) else Ret (Some e_type, c)
    else Ret (Some e_type, c).

(** The events of the two servers' [epoll] loops.  A server's state is the
    connection of its client; the display server also acts on the display. *)
Inductive server_event := EvConnect (sock : Z) (inb : list recv_answer) | EvHangup | EvReadable.

(** What a message makes the server do beyond its own state. *)
Inductive server_action := ActNone | ActTriger | ActStartCast | ActStopCast.

(** [vdpy_display_server_thread].  [triger_set]: a callback is registered. *)
Definition display_server_event (triger_set : bool) (ev : server_event) (st : display * conn)
  : outcome (server_action * (display * conn)) :=
  let '(d, c) := st in
  match ev with
  | EvConnect sock inb =>
    let d := d <| client_sock := sock |> in
    let c := c <| inbox := inb |> in
    match vscrs d with
    | [] => Stop OobAccess
    | vscr :: _ =>
      (* the sending happens on this thread, with its own errno *)
      if set_modifier vscr then
        '(_, d') ← client_send DPY_EVENT_SET_MODIFIER (Some (le_encode 8 (modifier vscr)))
                     (d <| dpy_errno := rx_errno c |>);
        Ret (ActNone, (d' <| dpy_errno := dpy_errno d |>, c <| rx_errno := dpy_errno d' |>))
      else Ret (ActNone, (d, c))
    end
  | EvHangup => Ret (ActNone, (d <| client_sock := -1 |>, c))
  | EvReadable =>
    '(r, c) ← receive_event c;
    match r with
    | None => Ret (ActNone, (d, c))
    | Some e_type =>
      switch e_type
        [ ([DPY_EVENT_DISPLAY_INFO],
            xo ← buf_word (rx_buf c) 0; yo ← buf_word (rx_buf c) 4;
            w ← buf_word (rx_buf c) 8; h ← buf_word (rx_buf c) 12;
            match vscrs d with
            | [] => Stop OobAccess
            | vscr :: l =>
              Ret (ActNone, (d <| vscrs := vscr <| info := mkInfo (s32 xo) (s32 yo) w h |> :: l |>, c))
            end);
          ([DPY_EVENT_HOTPLUG],
            is_in ← buf_word (rx_buf c) 0;
            let act := if triger_set then ActTriger else ActNone in
            Ret (act, (if is_in =? 0 then d <| client_sock := -1 |> else d, c))) ]
        (Ret (ActNone, (d, c)))
    end
  end.

(** [vdpy_control_server_thread]: the connected socket and its stream. *)
Definition control_server_event (triger_set : bool) (ev : server_event) (st : Z * conn)
  : outcome (list server_action * (Z * conn)) :=
  let '(sock, c) := st in
  match ev with
  | EvConnect s inb => Ret ([], (s, c <| inbox := inb |>))
  | EvHangup => Ret ([], (-1, c))
  | EvReadable =>
    '(r, c) ← receive_event c;
    match r with
    | None => Ret ([], (sock, c))
    | Some e_type =>
      Ret (switch e_type
             [ ([DPY_EVENT_START_CAST], [ActStartCast]);
               ([DPY_EVENT_STOP_CAST],
                 (if triger_set then [ActTriger] else []) ++ [ActStopCast]) ]
             [], (sock, c))
    end
  end.

(** ** Start and options *)

(** [vdpy_init] when the threads start; the display thread runs to its loop
    within the 200 ms the caller waits.  [alloc] is the allocator's answer. *)
Definition vdpy_init (alloc : bool) (d : display) : Z * display :=
  if z2b (n_connect d) then (0, d)
  else
    let d := d <| vscrs_num := 1 |> in
    if alloc then
      let v0 := mkVscreen (mkInfo 0 0 0 0) false 0 0 0 0 0 in
      let d := display_start (d <| vscrs := replicate (Z.to_nat VDPY_MAX_NUM) v0 |>
                                <| client_sock := -1 |>) in
      let d := d <| n_connect ::= fun n => n + 1 |> in
      (n_connect d, d)
    else (-1, d <| vscrs := [] |>).

(** ** Lemmas on sending *)

(** What goes out is a prefix of the data, and all of it when the last chunk
    has the length of the data. *)
Lemma send_loop_prefix script err data out ret err' rest out' :
  send_loop script err data out = Ret (ret, err', rest, out') ->
  exists k, out' = out ++ take k data /\ ret <= Z.of_nat (length data) /\
    (data <> [] -> ret = Z.of_nat (length data) -> k = length data).
Proof.
  revert err data out. induction script as [|[n|e] script IH]; intros err data out H; [done| |];
    cbn [send_loop] in H.
  - assert (Hstop : forall r, r <= 0 -> exists k, out = out ++ take k data /\
      r <= Z.of_nat (length data) /\ (data <> [] -> r = Z.of_nat (length data) -> k = length data)).
    { intros r Hr. exists 0%nat. rewrite take_0, app_nil_r. split_and!; [done|lia|].
      intros ? ?. destruct data; simpl in *; [done|lia]. }
    destruct (Z.leb_spec (Z.min n (Z.of_nat (length data))) 0) as [Hle|Hgt].
    { destruct (err =? EAGAIN); [by eapply IH|]. inv_ret. apply Hstop. lia. }
    set (m := Z.to_nat (Z.min n (Z.of_nat (length data)))) in *.
    assert (Hm : (0 < m <= length data)%nat) by lia.
    destruct (Nat.eqb_spec (length (drop m data)) 0) as [Hz|Hz]; rewrite length_drop in Hz.
    { inv_ret. exists m. split_and!; [done|lia|lia]. }
    destruct (err =? EAGAIN).
    + destruct (IH _ _ _ H) as (k & -> & Hr & _). rewrite length_drop in Hr.
      exists (m + k)%nat. split_and!; [|lia|lia].
      rewrite <- app_assoc. f_equal. apply (take_take_drop _ m k).
    + inv_ret. exists m. split_and!; [done|lia|lia].
  - destruct (e =? EAGAIN); [by eapply IH|]. inv_ret. exists 0%nat.
    rewrite take_0, app_nil_r. split_and!; [done|lia|lia].
Qed.

Lemma _send_prefix data d ret d' :
  _send data d = Ret (ret, d') ->
  exists k, sent d' = sent d ++ take k data /\
    (data <> [] -> ret = Z.of_nat (length data) -> k = length data).
Proof.
  unfold _send. destruct (send_loop _ _ _ _) as [[[[r e] rest] out]|] eqn:E; [|done].
  intros [= <- <-]. apply send_loop_prefix in E as (k & -> & _ & Hk). by exists k.
Qed.

(** The message [client_send] is asked to send. *)
Definition message (e_type : Z) (data : option (list Z)) : list Z :=
  evt_header e_type (match data with Some bs => Z.of_nat (length bs) | None => 0 end) ++
  default [] data.

Lemma length_evt_header e_type len : length (evt_header e_type len) = 12%nat.
Proof. unfold evt_header. by rewrite !length_app, !length_le_encode. Qed.

Lemma client_send_prefix e_type data d ret d' :
  client_send e_type data d = Ret (ret, d') ->
  exists k, sent d' = sent d ++ take k (message e_type data) /\
    (ret = 0 -> sent d' = sent d ++ message e_type data).
Proof.
  unfold client_send, mbind, M_bind, get, mret, M_ret.
  destruct (client_sock d =? -1).
  { intros [= <- <-]. exists 0%nat. rewrite take_0, app_nil_r. by split. }
  destruct (_send (evt_header _ _) d) as [[r d1]|] eqn:E; [|done].
  apply _send_prefix in E as (k & Hk & Hall). rewrite length_evt_header in Hall.
  unfold message. set (hdr := evt_header _ _) in *.
  assert (Hlen : length hdr = 12%nat) by apply length_evt_header.
  destruct (Z.eqb_spec r 12) as [->|Hne]; cbn [negb].
  2:{ intros [= <- <-]. exists (k `min` 12)%nat. split; [|done].
      rewrite Hk, firstn_app, <- Hlen.
      replace (k `min` length hdr - length hdr)%nat with 0%nat by lia.
      by rewrite <- firstn_firstn, firstn_all, take_0, app_nil_r. }
  rewrite (Hall ltac:(intros Hn; rewrite Hn in Hlen; done) eq_refl), firstn_all2 in Hk by lia.
  destruct data as [[|b bs]|]; cbn [default].
  1,3: intros [= <- <-]; exists 12%nat; rewrite !app_nil_r, firstn_all2 by lia; done.
  destruct (_send (b :: bs) d1) as [[r2 d2]|] eqn:E2; [|done].
  apply _send_prefix in E2 as (k2 & Hk2 & Hall2).
  assert (Hpre : sent d2 = sent d ++ take (12 + k2) (hdr ++ b :: bs)).
  { rewrite Hk2, Hk, <- app_assoc. by f_equal. }
  destruct (Z.eqb_spec r2 (Z.of_nat (length (b :: bs)))) as [Heq|]; cbn [negb];
    intros [= <- <-]; exists (12 + k2)%nat; (split; [done|]); [|done].
  intros _. rewrite Hpre. f_equal. apply firstn_all2.
  rewrite (Hall2 ltac:(done) Heq), length_app, Hlen. done.
Qed.

(** Sending leaves the screens and the queue alone. *)
Definition same_screens (d d' : display) : Prop :=
  vscrs d' = vscrs d /\ vscrs_num d' = vscrs_num d /\ request_list d' = request_list d /\
  bh_flag d' = bh_flag d /\ n_connect d' = n_connect d /\ is_active d' = is_active d /\
  client_sock d' = client_sock d.

Lemma _send_frame data d r d' : _send data d = Ret (r, d') -> same_screens d d'.
Proof. unfold _send. destruct (send_loop _ _ _ _) as [[[[? ?] ?] ?]|]; [|done]. by intros [= _ <-]. Qed.

Lemma client_send_frame e_type data d r d' :
  client_send e_type data d = Ret (r, d') -> same_screens d d'.
Proof.
  unfold client_send, mbind, M_bind, get, mret, M_ret.
  destruct (client_sock d =? -1); [by intros [= <- <-]|].
  destruct (_send _ d) as [[r1 d1]|] eqn:E; [|done]. apply _send_frame in E.
  destruct (negb (r1 =? 12)); [by intros [= <- <-]|].
  destruct data as [[|b bs]|]; [by intros [= <- <-]| |by intros [= <- <-]].
  destruct (_send (b :: bs) d1) as [[r2 d2]|] eqn:E2; [|done]. apply _send_frame in E2.
  unfold same_screens in *. destruct_and!.
  destruct (negb _); intros [= <- <-]; split_and!; congruence.
Qed.

Lemma client_send_vscrs e_type data d r d' :
  client_send e_type data d = Ret (r, d') -> vscrs d' = vscrs d.
Proof. intros H. by apply client_send_frame in H as [? _]. Qed.

(** ** Lemmas on receiving *)

Lemma init_bytes_some bs : init_bytes (map Some bs) = Ret bs.
Proof.
  induction bs as [|b bs IH]; cbn [map init_bytes]; [done|].
  unfold mbind, outcome_bind. by rewrite IH.
Qed.

Lemma buf_word_some bs off :
  buf_word (map Some bs) off = Ret (le_decode (take 4 (drop off bs))).
Proof.
  unfold buf_word. rewrite <- fmap_drop, <- fmap_take.
  change (Some <$> take 4 (drop off bs)) with (map Some (take 4 (drop off bs))).
  unfold mbind, outcome_bind. by rewrite init_bytes_some.
Qed.

Lemma store_zero dst bs :
  (length bs <= length dst)%nat ->
  store dst 0 bs = Ret (map Some bs ++ drop (length bs) dst).
Proof.
  intros H. unfold store. destruct (Z.leb_spec (0 + Z.of_nat (length bs)) (Z.of_nat (length dst))); [|lia].
  done.
Qed.

(** The words of a header. *)
Lemma evt_header_words t len :
  fits 32 t -> fits 32 len ->
  le_decode (take 4 (drop 0 (evt_header t len))) = t /\
  le_decode (take 4 (drop 4 (evt_header t len))) = DISPLAY_MAGIC_CODE /\
  le_decode (take 4 (drop 8 (evt_header t len))) = len.
Proof.
  intros Ht Hl. unfold evt_header.
  change (take 4 (drop 0 (le_encode 4 t ++ le_encode 4 DISPLAY_MAGIC_CODE ++ le_encode 4 len))) with (le_encode 4 t).
  change (take 4 (drop 4 (le_encode 4 t ++ le_encode 4 DISPLAY_MAGIC_CODE ++ le_encode 4 len))) with (le_encode 4 DISPLAY_MAGIC_CODE).
  change (take 4 (drop 8 (le_encode 4 t ++ le_encode 4 DISPLAY_MAGIC_CODE ++ le_encode 4 len))) with (le_encode 4 len).
  rewrite !le_decode_encode. split_and!; try done; by apply wrap_small.
Qed.

(** A chunk that begins with everything that is asked for. *)
Lemma recv_loop_chunk bs rest err dst len :
  (0 < len <= Z.of_nat (length bs)) -> len <= Z.of_nat (length dst) ->
  recv_loop (RData bs :: rest) err dst 0 len =
    Ret (len, err, if len <? Z.of_nat (length bs) then RData (drop (Z.to_nat len) bs) :: rest else rest,
         map Some (take (Z.to_nat len) bs) ++ drop (Z.to_nat len) dst).
Proof.
  intros H1 H2. cbn [recv_loop]. rewrite Z.sub_0_r.
  replace (Z.min (Z.of_nat (length bs)) len) with len by lia.
  destruct (Z.leb_spec len 0); [lia|].
  rewrite store_zero by (rewrite length_take; lia). cbn [mbind outcome_bind].
  rewrite Z.eqb_refl. rewrite length_take.
  replace (Z.to_nat len `min` length bs)%nat with (Z.to_nat len) by lia. done.
Qed.

(** ** The queue of bottom halves *)

(** A bottom half is in the queue exactly when it is pending, and once. *)
Record bh_inv (d : display) : Prop := {
  bi_nodup : NoDup (request_list d);
  bi_pending : forall bh, bh ∈ request_list d <->
    exists fl, bh_flag d !! bh = Some fl /\ Z.land fl ACRN_BH_PENDING <> 0
}.

Lemma enqueue_inv bh d b d' : bh_inv d -> enqueue bh d = Ret (b, d') -> bh_inv d'.
Proof.
  intros [Hnd Hp] H. unfold enqueue in H. destruct (bh_flag d !! bh) as [fl|] eqn:Hf; [|done].
  destruct (Z.eqb_spec (Z.land fl ACRN_BH_PENDING) 0) as [Hz|]; inv_ret; [|by split].
  assert (Hni : bh ∉ request_list d).
  { intros Hin. apply Hp in Hin as (fl' & Hf' & Hne). simplify_eq. }
  assert (Hset : Z.land (Z.lor fl ACRN_BH_PENDING) ACRN_BH_PENDING <> 0).
  { rewrite Z.land_lor_distr_l, Hz. done. }
  split; cbn -[Z.land].
  - apply NoDup_app. split_and!; [done| |apply NoDup_singleton].
    intros x Hx ->%list_elem_of_singleton. done.
  - intros x. rewrite elem_of_app, list_elem_of_singleton.
    destruct (decide (x = bh)) as [->|Hne].
    + rewrite list_lookup_insert_eq by (by eapply lookup_lt_Some). split; [|by right].
      intros _. by eexists.
    + rewrite list_lookup_insert_ne by done. rewrite <- Hp. split; [by intros [?|?]|by left].
Qed.

(** What the display thread leaves of the queue. *)
Definition mark_done (l : list Z) (bhs : list nat) : list Z :=
  fold_left (fun l bh => <[bh := ACRN_BH_DONE]> l) bhs l.

Definition drained (d : display) : display :=
  d <| request_list := [] |> <| bh_flag ::= fun l => mark_done l (request_list d) |>.

Lemma mark_done_lookup bhs l bh :
  mark_done l bhs !! bh =
  if decide (bh ∈ bhs /\ (bh < length l)%nat) then Some ACRN_BH_DONE else l !! bh.
Proof.
  revert l. induction bhs as [|x bhs IH]; intros l; [done|]. cbn [mark_done fold_left].
  fold (mark_done (<[x := ACRN_BH_DONE]> l) bhs). rewrite IH, length_insert.
  destruct (decide (bh ∈ bhs /\ (bh < length l)%nat)) as [[Hin Hl]|Hn].
  - rewrite decide_True; [done|]. split; [by right|done].
  - destruct (decide (bh = x)) as [->|Hne].
    + destruct (decide (x < length l)%nat) as [Hx|Hx].
      * rewrite list_lookup_insert_eq, decide_True by (done || (split; [left|done])). done.
      * rewrite decide_False by tauto. trans (@None Z); [|symmetry];
          apply lookup_ge_None_2; rewrite ?length_insert; lia.
    + rewrite list_lookup_insert_ne, decide_False; [done| |done].
      intros [Hin ?]. apply Hn. split; [|done]. by apply elem_of_cons in Hin as [?|?].
Qed.

Lemma drained_inv d : bh_inv d -> bh_inv (drained d).
Proof.
  intros [Hnd Hp]. constructor.
  { apply NoDup_nil_2. }
  intros bh. cbn -[Z.land]. split; [by intros ?%elem_of_nil|]. intros (fl & Hf & Hne). exfalso.
  rewrite mark_done_lookup in Hf.
  destruct (decide _) as [Hd|Hd] in Hf; [by simplify_eq|].
  apply Hd. split; [apply Hp; by exists fl|by eapply lookup_lt_Some].
Qed.

(** ** The display thread *)

Section DrainSpec.
Context {W : Type} (get_dpy : W -> display) (set_dpy : display -> W -> W)
  (task_cb : nat -> M W unit) (log : W -> list nat).
Hypothesis get_set : forall d w, get_dpy (set_dpy d w) = d.
Hypothesis log_set : forall d w, log (set_dpy d w) = log w.
(** The tasks run under the mutex of the queue, which they do not touch. *)
Hypothesis task_returns : forall bh w, exists w', task_cb bh w = Ret (tt, w') /\
  log w' = log w ++ [bh] /\
  request_list (get_dpy w') = request_list (get_dpy w) /\ bh_flag (get_dpy w') = bh_flag (get_dpy w).

Lemma drain_spec l fuel w :
  request_list (get_dpy w) = l -> (length l < fuel)%nat ->
  exists w', drain get_dpy set_dpy task_cb fuel w = Ret (tt, w') /\ log w' = log w ++ l /\
    request_list (get_dpy w') = [] /\ bh_flag (get_dpy w') = mark_done (bh_flag (get_dpy w)) l.
Proof.
  revert fuel w. induction l as [|bh l IH]; intros [|fuel] w Hl Hf; try (simpl in Hf; lia);
    cbn [drain]; unfold mbind, M_bind, on_display, take_request, finish_request, modify; rewrite Hl.
  { exists (set_dpy (get_dpy w) w). rewrite !log_set, !get_set, app_nil_r. done. }
  set (w1 := set_dpy (get_dpy w <| request_list := l |>) w).
  destruct (task_returns bh w1) as (w2 & E & Hlog & Hr & Hfl). rewrite E.
  set (w3 := set_dpy _ w2).
  destruct (IH fuel w3) as (w' & E' & Hlog' & Hr' & Hfl'); [|simpl in Hf; lia|].
  { subst w3. rewrite get_set. cbn. rewrite Hr. subst w1. by rewrite get_set. }
  exists w'. split; [exact E'|]. split; [|split; [done|]].
  - rewrite Hlog'. subst w3. rewrite log_set, Hlog. subst w1. by rewrite log_set, <- app_assoc.
  - rewrite Hfl'. subst w3. rewrite get_set. cbn. rewrite Hfl. subst w1. by rewrite get_set.
Qed.
End DrainSpec.

(** The operations on the queue, in any order: submissions of any thread, the
    timer, and the display thread emptying the queue ([drain_spec]). *)
Inductive bh_step : display -> display -> Prop :=
  | step_submit handle bh b d d' :
      vdpy_submit_bh handle bh d = Ret (b, d') -> bh_step d d'
  | step_timer locked bh d d' :
      vdpy_sdl_ui_timer locked bh d = Ret (tt, d') -> bh_step d d'
  | step_drain d : is_active d = true -> bh_step d (drained d).

Definition bh_start (d : display) : Prop :=
  request_list d = [] /\ Forall (fun fl => fl = 0) (bh_flag d).

Lemma bh_start_inv d : bh_start d -> bh_inv d.
Proof.
  intros [Hr Hf]. split; rewrite Hr; [apply NoDup_nil_2|]. intros bh.
  split; [by intros ?%elem_of_nil|]. intros (fl & Hl & Hne).
  by rewrite (Forall_lookup_1 _ _ _ _ Hf Hl) in Hne.
Qed.

Lemma submit_inv handle bh b d d' : bh_inv d -> vdpy_submit_bh handle bh d = Ret (b, d') -> bh_inv d'.
Proof.
  intros Hi. unfold vdpy_submit_bh, mbind, M_bind, get, mret, M_ret.
  destruct (negb (handle =? n_connect d)); [by intros [= <- <-]|].
  destruct (negb (is_active d)); [by intros [= <- <-]|]. by apply enqueue_inv.
Qed.

Lemma timer_inv locked bh d d' : bh_inv d -> vdpy_sdl_ui_timer locked bh d = Ret (tt, d') -> bh_inv d'.
Proof.
  intros Hi. unfold vdpy_sdl_ui_timer, mbind, M_bind, mret, M_ret. destruct locked; [by intros [= <-]|].
  destruct (enqueue bh d) as [[b d1]|] eqn:E; [|done]. intros [= <-]. by eapply enqueue_inv.
Qed.

(** ** Geometry *)

Ltac calibrate_cases :=
  unfold vdpy_calibrate_vscreen_geometry, z2b,
    VDPY_MIN_WIDTH, VDPY_MAX_WIDTH, VDPY_MIN_HEIGHT, VDPY_MAX_HEIGHT in *;
  repeat match goal with
  | |- context [?a =? ?b] => destruct (Z.eqb_spec a b); cbn in *; try lia
  | |- context [?a <? ?b] => destruct (Z.ltb_spec a b); cbn in *; try lia
  end.

Lemma calibrate_fixed v :
  VDPY_MIN_WIDTH <= guest_width v <= VDPY_MAX_WIDTH ->
  VDPY_MIN_HEIGHT <= guest_height v <= VDPY_MAX_HEIGHT ->
  vdpy_calibrate_vscreen_geometry v = v.
Proof. intros. calibrate_cases. done. Qed.

Lemma calibrate_range v :
  let w := vdpy_calibrate_vscreen_geometry v in
  VDPY_MIN_WIDTH <= guest_width w <= VDPY_MAX_WIDTH /\
  VDPY_MIN_HEIGHT <= guest_height w <= VDPY_MAX_HEIGHT.
Proof. calibrate_cases; unfold VDPY_DEFAULT_WIDTH, VDPY_DEFAULT_HEIGHT; lia. Qed.

(** ** Properties *)

(** What [client_send] puts on the connection is a prefix of the message
    (header, then body), whatever the operating system answers; and when it
    reports success it is the whole message. *)
Theorem client_send_exact e_type data d ret d' :
  client_send e_type data d = Ret (ret, d') ->
  (exists k, sent d' = sent d ++ take k (message e_type data)) /\
  (ret = 0 -> sent d' = sent d ++ message e_type data).
Proof. intros H. apply client_send_prefix in H as (k & H1 & H2). split; [by exists k|done]. Qed.

(** Round trip: a message encoded with the header of [client_send] and
    delivered in one piece is received as that event, with the body at the
    front of the buffer, and the stream continues behind it. *)
Theorem event_roundtrip e_type body rest c :
  fits 32 e_type -> (0 < length body <= length (rx_buf c))%nat ->
  Z.of_nat (length body) < 2 ^ 31 ->
  inbox c = RData (message e_type (Some body)) :: rest ->
  exists c', receive_event c = Ret (Some e_type, c') /\ inbox c' = rest /\
    rx_buf c' = map Some body ++ drop (length body) (rx_buf c).
Proof.
  intros Ht [Hb Hl] Hs Hin. unfold receive_event. rewrite Hin.
  set (len := Z.of_nat (length body)) in *.
  change (message e_type (Some body)) with (evt_header e_type len ++ body).
  assert (Hlen : fits 32 len) by (unfold fits; change (2 ^ 31) with 2147483648 in Hs;
    change (2 ^ 32) with 4294967296; lia).
  assert (Hs32 : s32 len = len).
  { unfold s32, swrap. rewrite wrap_small; [lia|]. unfold fits. change (2 ^ (32 - 1)) with 2147483648.
    change (2 ^ 31) with 2147483648 in Hs. change (2 ^ 32) with 4294967296. lia. }
  set (hdr := evt_header e_type len). assert (Hh : length hdr = 12%nat) by apply length_evt_header.
  rewrite recv_loop_chunk by (rewrite ?length_app, ?length_replicate, ?Hh; lia).
  cbn [mbind outcome_bind]. destruct (Z.ltb_spec 12 (Z.of_nat (length (hdr ++ body)))) as [_|Hbad];
    [|rewrite length_app, Hh in Hbad; lia].
  assert (Hd : take (Z.to_nat 12) (hdr ++ body) = hdr)
    by (change (Z.to_nat 12) with 12%nat; rewrite <- Hh; apply take_app_length).
  assert (Hr : drop (Z.to_nat 12) (hdr ++ body) = body)
    by (change (Z.to_nat 12) with 12%nat; rewrite <- Hh; apply drop_app_length).
  rewrite Hd, Hr. change (drop (Z.to_nat 12) (replicate 12 None)) with (@nil (option Z)).
  rewrite app_nil_r. rewrite !buf_word_some. cbn [mbind outcome_bind].
  destruct (evt_header_words e_type len Ht Hlen) as (E1 & E2 & E3). subst hdr. rewrite E1, E2, E3, Hs32.
  cbn [negb Z.eqb]. change (12 =? 12) with true. change (DISPLAY_MAGIC_CODE =? DISPLAY_MAGIC_CODE) with true.
  cbn [negb]. destruct (Z.ltb_spec 0 len); [|lia].
  match goal with |- context [recv_loop ?x ?y ?z] =>
    change (recv_loop x y z) with (recv_loop (RData body :: rest) (rx_errno c) (rx_buf c)) end.
  rewrite recv_loop_chunk by lia. cbn [mbind outcome_bind]. rewrite Z.eqb_refl. cbn [negb].
  destruct (Z.ltb_spec len (Z.of_nat (length body))); [lia|].
  eexists. split; [done|]. cbn. subst len. rewrite Nat2Z.id, firstn_all. done.
Qed.

(** In every reachable state a bottom half is in the request queue exactly
    when it is flagged pending, and only once: submissions are neither lost
    nor doubled. *)
Theorem bh_reachable_inv d0 d : bh_start d0 -> rtc bh_step d0 d -> bh_inv d.
Proof.
  intros H0 Hr. apply bh_start_inv in H0. induction Hr as [d|d d1 d2 Hs _ IH]; [done|].
  apply IH. inversion Hs; subst.
  - by eapply submit_inv.
  - by eapply timer_inv.
  - by apply drained_inv.
Qed.

(** C26. The display thread empties the queue: with fuel for one round more
    than there are requests it ends, the tasks run once each in the order of
    submission, and every one of them is marked done. *)
Theorem drain_runs_in_order {W : Type} (get_dpy : W -> display) (set_dpy : display -> W -> W)
    (task_cb : nat -> M W unit) (log : W -> list nat) w :
  (forall d w, get_dpy (set_dpy d w) = d) ->
  (forall d w, log (set_dpy d w) = log w) ->
  (forall bh w, exists w', task_cb bh w = Ret (tt, w') /\ log w' = log w ++ [bh] /\
     request_list (get_dpy w') = request_list (get_dpy w) /\
     bh_flag (get_dpy w') = bh_flag (get_dpy w)) ->
  exists w', drain get_dpy set_dpy task_cb (S (length (request_list (get_dpy w)))) w = Ret (tt, w') /\
    log w' = log w ++ request_list (get_dpy w) /\ request_list (get_dpy w') = [] /\
    forall bh fl, bh ∈ request_list (get_dpy w) -> bh_flag (get_dpy w) !! bh = Some fl ->
      bh_flag (get_dpy w') !! bh = Some ACRN_BH_DONE.
Proof.
  intros H1 H2 H3.
  destruct (drain_spec get_dpy set_dpy task_cb log H1 H2 H3 _
    (S (length (request_list (get_dpy w)))) w eq_refl) as (w' & E & Hl & Hr & Hf); [lia|].
  exists w'. split_and!; try done. intros bh fl Hin Hfl. rewrite Hf, mark_done_lookup, decide_True; [done|].
  split; [done|]. by eapply lookup_lt_Some.
Qed.

(** The geometry of a screen always lies between 640x480 and 3840x2160
    when the display starts, it is the requested one when that lies in these
    bounds, and the information given to the guest is that geometry. *)
Theorem geometry_bounds v :
  let g := vscreen_start v in
  VDPY_MIN_WIDTH <= guest_width g <= VDPY_MAX_WIDTH /\
  VDPY_MIN_HEIGHT <= guest_height g <= VDPY_MAX_HEIGHT /\
  (VDPY_MIN_WIDTH <= guest_width v <= VDPY_MAX_WIDTH ->
   VDPY_MIN_HEIGHT <= guest_height v <= VDPY_MAX_HEIGHT ->
   guest_width g = guest_width v /\ guest_height g = guest_height v /\ org_x g = org_x v /\ org_y g = org_y v) /\
  di_width (info g) = guest_width g /\ di_height (info g) = guest_height g /\
  vscreen_start g = g.
Proof.
  destruct (calibrate_range v) as [H1 H2]. set (w := vdpy_calibrate_vscreen_geometry v) in *.
  assert (Hw : forall x, 0 <= x <= 3840 -> u32 x = x)
    by (intros; apply wrap_small; unfold fits; change (2 ^ 32) with 4294967296; lia).
  unfold vscreen_start. fold w. cbn zeta.
  set (g := w <| info := _ |>).
  assert (Hg : vdpy_calibrate_vscreen_geometry g = g) by (by apply calibrate_fixed).
  change (guest_width g) with (guest_width w). change (guest_height g) with (guest_height w).
  change (org_x g) with (org_x w). change (org_y g) with (org_y w).
  split; [exact H1|]. split; [exact H2|].
  unfold VDPY_MIN_WIDTH, VDPY_MAX_WIDTH, VDPY_MIN_HEIGHT, VDPY_MAX_HEIGHT in *.
  split; [|split; [|split]].
  - intros Ha Hb. assert (w = v) as -> by (by apply calibrate_fixed). done.
  - apply Hw. lia.
  - apply Hw. lia.
  - by rewrite Hg.
Qed.

(** A modifier set for an existing screen is recorded for the clients to
    come, and the other screens keep theirs, whatever the connection does. *)
Theorem set_modifier_records handle id mdf d d' v :
  0 <= id < vscrs_num d -> id < 2 ^ 31 -> nthZ (vscrs d) id = Some v ->
  vdpy_set_modifier handle id mdf d = Ret (tt, d') ->
  nthZ (vscrs d') id = Some (v <| modifier := mdf |> <| set_modifier := true |>) /\
  forall j, j <> id -> nthZ (vscrs d') j = nthZ (vscrs d) j.
Proof.
  intros Hid Hs Hv. unfold vdpy_set_modifier, get_vscr, mbind, M_bind, get, modify, mret, M_ret.
  change (2 ^ 31) with 2147483648 in *.
  assert (E : s32 id = id).
  { unfold s32, swrap. rewrite wrap_small; [lia|]. unfold fits.
    change (2 ^ (32 - 1)) with 2147483648. change (2 ^ 32) with 4294967296. lia. }
  rewrite E. destruct (Z.leb_spec (vscrs_num d) id); [lia|]. rewrite Hv.
  set (d1 := d <| vscrs ::= _ |>). destruct (client_send _ _ d1) as [[r d2]|] eqn:Es; [|done].
  intros [= <-]. apply client_send_vscrs in Es. rewrite Es. subst d1. cbn. split.
  - unfold setZ, nthZ in *. destruct (Z.leb_spec 0 id); [|lia].
    apply list_lookup_insert_eq. by eapply lookup_lt_Some.
  - intros j Hj. by apply nthZ_setZ_ne.
Qed.

(** ** Concrete runs *)
Module DisplayDemo.
Definition v0 : vscreen := mkVscreen (mkInfo 0 0 1280 720) false 0 0 0 1280 720.
(** One screen is in use of the four allocated; a client is connected. *)
Definition d0 : display :=
  mkDisplay true 1 1 [v0; v0; v0; v0] [] [0; 0; 0; 0] 7 0 [SRoom 100; SRoom 100; SRoom 100] [] [].
Definition c0 : conn := mkConn [] 0 (replicate 256 None).
(** A task that only logs. *)
Definition task (bh : nat) : M (display * list nat) unit := fun w => Ret (tt, (w.1, w.2 ++ [bh])).
End DisplayDemo.

(** A message that goes out in two pieces is on the connection in full, and
    yet reported as a failure: [_send] returns the size of its last piece. *)
Example split_message_reported_failed :
  match client_send DPY_EVENT_SET_MODIFIER (Some (le_encode 8 5))
          (DisplayDemo.d0 <| dpy_errno := EAGAIN |> <| room := [SRoom 12; SRoom 3; SRoom 5] |>) with
  | Ret (ret, d) => ret = -1 /\ sent d = message DPY_EVENT_SET_MODIFIER (Some (le_encode 8 5))
  | Stop _ => False
  end.
Proof. vm_compute. done. Qed.

(** A body longer than the 256 bytes of the buffer is written past it. *)
Example long_body_overruns :
  match receive_event (DisplayDemo.c0 <| inbox :=
          [RData (evt_header DPY_EVENT_HOTPLUG 257); RData (replicate 257 0)] |>) with
  | Stop OobAccess => True
  | _ => False
  end.
Proof. vm_compute. done. Qed.

(** A screen number with the top bit set passes the signed comparison. *)
Example negative_screen_oob :
  vdpy_set_modifier 1 (2 ^ 31) 0 DisplayDemo.d0 = Stop OobAccess.
Proof. vm_compute. done. Qed.

(** ** Witnesses *)

Lemma client_send_exact_witness :
  exists d', client_send DPY_EVENT_SURFACE_UPDATE None DisplayDemo.d0 = Ret (0, d') /\
    sent d' = sent DisplayDemo.d0 ++ message DPY_EVENT_SURFACE_UPDATE None.
Proof.
  eexists. split; [vm_compute; reflexivity|].
  eapply (client_send_exact DPY_EVENT_SURFACE_UPDATE None DisplayDemo.d0 0);
    [vm_compute; reflexivity|reflexivity].
Defined.

Lemma event_roundtrip_witness :
  exists c', receive_event (DisplayDemo.c0 <| inbox := [RData (message DPY_EVENT_HOTPLUG (Some [1; 0; 0; 0]))] |>)
      = Ret (Some DPY_EVENT_HOTPLUG, c') /\ inbox c' = [].
Proof.
  destruct (event_roundtrip DPY_EVENT_HOTPLUG [1; 0; 0; 0] []
    (DisplayDemo.c0 <| inbox := [RData (message DPY_EVENT_HOTPLUG (Some [1; 0; 0; 0]))] |>))
    as (c' & H1 & H2 & _).
  - split; [discriminate|reflexivity].
  - cbn. lia.
  - reflexivity.
  - reflexivity.
  - exists c'. split; [exact H1|exact H2].
Defined.

Lemma bh_reachable_inv_witness :
  exists d, vdpy_submit_bh 1 2 DisplayDemo.d0 = Ret (true, d) /\ bh_inv d.
Proof.
  eexists. split; [vm_compute; reflexivity|].
  apply (bh_reachable_inv DisplayDemo.d0).
  - split; [reflexivity|]. repeat constructor.
  - eapply rtc_once. apply (step_submit 1 2 true). vm_compute. reflexivity.
Defined.

Lemma drain_runs_in_order_witness :
  exists w', drain fst (fun d w => (d, w.2)) DisplayDemo.task 3
      (DisplayDemo.d0 <| request_list := [2%nat; 0%nat] |> <| bh_flag := [1; 0; 1; 0] |>, []) = Ret (tt, w') /\
    w'.2 = [2%nat; 0%nat].
Proof.
  destruct (drain_runs_in_order fst (fun d (w : display * list nat) => (d, w.2)) DisplayDemo.task snd
    (DisplayDemo.d0 <| request_list := [2%nat; 0%nat] |> <| bh_flag := [1; 0; 1; 0] |>, []))
    as (w' & H1 & H2 & _).
  - reflexivity.
  - reflexivity.
  - intros bh w. eexists. split; [reflexivity|]. split; [reflexivity|]. split; reflexivity.
  - exists w'. split; [exact H1|exact H2].
Defined.

Lemma set_modifier_records_witness :
  exists d', vdpy_set_modifier 1 0 5 DisplayDemo.d0 = Ret (tt, d') /\
    nthZ (vscrs d') 0 = Some (DisplayDemo.v0 <| modifier := 5 |> <| set_modifier := true |>).
Proof.
  eexists. split; [vm_compute; reflexivity|].
  eapply (set_modifier_records 1 0 5 DisplayDemo.d0).
  - vm_compute. split; [discriminate|reflexivity].
  - reflexivity.
  - reflexivity.
  - vm_compute. reflexivity.
Defined.
