(* ===== verification/VirtioGpu.v ===== *)
(** * The virtio GPU: state and 2D commands

    [src/devicemodel/hw/pci/virtio/virtio_gpu.c]: [struct virtio_gpu], the
    table of resources, the reference-counted images and dma-bufs, and the
    commands of the control and cursor queues.  A command is a function on the
    device state that returns the new [cmd->iolen].

    The host's allocator, [/dev/udmabuf] and the kernel's answers to the
    udmabuf ioctl are the parameters of [gpu_env]. *)
From S2P Require Import Prelude Shmem VirtQueue VirtioCore Edid Pixman Display.

(** ** Constants *)

Definition VIRTIO_GPU_QNUM := 2.
Definition VIRTIO_GPU_MAXSEGS := 256.
Definition VIRTIO_GPU_MAX_SCANOUTS := 16.
Definition VIRTIO_GPU_FLAG_FENCE := 1.
Definition VIRTIO_GPU_EDID_SIZE := 256.

Definition VIRTIO_GPU_CMD_GET_DISPLAY_INFO := 0x100.
Definition VIRTIO_GPU_CMD_RESOURCE_CREATE_2D := 0x101.
Definition VIRTIO_GPU_CMD_RESOURCE_UNREF := 0x102.
Definition VIRTIO_GPU_CMD_SET_SCANOUT := 0x103.
Definition VIRTIO_GPU_CMD_RESOURCE_FLUSH := 0x104.
Definition VIRTIO_GPU_CMD_TRANSFER_TO_HOST_2D := 0x105.
Definition VIRTIO_GPU_CMD_RESOURCE_ATTACH_BACKING := 0x106.
Definition VIRTIO_GPU_CMD_RESOURCE_DETACH_BACKING := 0x107.
Definition VIRTIO_GPU_CMD_GET_EDID := 0x10a.
Definition VIRTIO_GPU_CMD_RESOURCE_CREATE_BLOB := 0x10c.
Definition VIRTIO_GPU_CMD_SET_SCANOUT_BLOB := 0x10d.
Definition VIRTIO_GPU_CMD_SET_MODIFIER := 0x10e.
Definition VIRTIO_GPU_CMD_UPDATE_CURSOR := 0x300.
Definition VIRTIO_GPU_CMD_MOVE_CURSOR := 0x301.
Definition VIRTIO_GPU_RESP_OK_NODATA := 0x1100.
Definition VIRTIO_GPU_RESP_OK_DISPLAY_INFO := 0x1101.
Definition VIRTIO_GPU_RESP_OK_EDID := 0x1104.
Definition VIRTIO_GPU_RESP_ERR_UNSPEC := 0x1200.
Definition VIRTIO_GPU_RESP_ERR_OUT_OF_MEMORY := 0x1201.
Definition VIRTIO_GPU_RESP_ERR_INVALID_SCANOUT_ID := 0x1202.
Definition VIRTIO_GPU_RESP_ERR_INVALID_RESOURCE_ID := 0x1203.
Definition VIRTIO_GPU_RESP_ERR_INVALID_PARAMETER := 0x1205.

Definition VIRTIO_GPU_FORMAT_B8G8R8A8_UNORM := 1.
Definition VIRTIO_GPU_FORMAT_B8G8R8X8_UNORM := 2.
Definition VIRTIO_GPU_FORMAT_A8R8G8B8_UNORM := 3.
Definition VIRTIO_GPU_FORMAT_X8R8G8B8_UNORM := 4.
Definition VIRTIO_GPU_FORMAT_R8G8B8A8_UNORM := 67.
Definition VIRTIO_GPU_FORMAT_X8B8G8R8_UNORM := 68.
Definition VIRTIO_GPU_FORMAT_A8B8G8R8_UNORM := 121.
Definition VIRTIO_GPU_FORMAT_R8G8B8X8_UNORM := 134.

Definition fourcc_code (a b c d : Z) : Z :=
  Z.lor (Z.lor (Z.lor a (Z.shiftl b 8)) (Z.shiftl c 16)) (Z.shiftl d 24).
Definition DRM_FORMAT_ABGR8888 := fourcc_code 65 66 50 52.
Definition DRM_FORMAT_ARGB8888 := fourcc_code 65 82 50 52.
Definition DRM_FORMAT_XBGR8888 := fourcc_code 88 66 50 52.
Definition DRM_FORMAT_XRGB8888 := fourcc_code 88 82 50 52.

Definition CURSOR_BLOB_SIZE := 16 * 1024.
Definition VIRTIO_GPU_BLOB_MEM_GUEST := 1.
Definition VIRTIO_GPU_BLOB_FLAG_USE_SHAREABLE := 2.

(** ** Data *)

Record virtio_gpu_config := mkCfg {
  events_read : Z; events_clear : Z; num_scanouts : Z; num_capsets : Z }.
#[export] Instance virtio_gpu_config_eta : Settable virtio_gpu_config := fun c =>
  mkCfg (events_read c) (events_clear c) (num_scanouts c) (num_capsets c).

(** The fields of [struct virtio_gpu_ctrl_hdr] that are not padding or always
    0 in an answer. *)
Record virtio_gpu_ctrl_hdr := mkHdr { h_type : Z; h_flags : Z; h_fence_id : Z }.
#[export] Instance ctrl_hdr_eta : Settable virtio_gpu_ctrl_hdr := fun h =>
  mkHdr (h_type h) (h_flags h) (h_fence_id h).

Record virtio_gpu_rect := mkRect { r_x : Z; r_y : Z; r_width : Z; r_height : Z }.

Record dma_buf_info := mkDmaBuf { db_ref_count : Z; db_fd : Z }.
#[export] Instance dma_buf_info_eta : Settable dma_buf_info := fun i =>
  mkDmaBuf (db_ref_count i) (db_fd i).

(** [r2d->iov]: null, a live array, or an array that has been freed. *)
Inductive iov_ptr := IovNull | IovLive (l : list iovec) | IovFreed.

Record virtio_gpu_resource_2d := mkR2d {
  resource_id : Z; rd_width : Z; rd_height : Z; rd_format : Z;
  rd_image : option nat; rd_iov : iov_ptr; rd_iovcnt : Z;
  blob : bool; dma_info : option nat }.
#[export] Instance r2d_eta : Settable virtio_gpu_resource_2d := fun r =>
  mkR2d (resource_id r) (rd_width r) (rd_height r) (rd_format r) (rd_image r) (rd_iov r)
    (rd_iovcnt r) (blob r) (dma_info r).

Record virtio_gpu_scanout := mkScanout {
  sc_scanout_id : Z; sc_resource_id : Z; scanout_rect : virtio_gpu_rect;
  cur_img : option nat; dma_buf : option nat; sc_is_active : bool }.
#[export] Instance scanout_eta : Settable virtio_gpu_scanout := fun s =>
  mkScanout (sc_scanout_id s) (sc_resource_id s) (scanout_rect s) (cur_img s) (dma_buf s)
    (sc_is_active s).

(** [struct virtio_gpu], with the mapping it is linked to, the display it
    calls, and the heap objects it points to.  [gpu_allocs], [gpu_ioctls] and
    [gpu_closed] count the calls of the allocator and of the udmabuf ioctl, and
    list the file descriptors closed.  The [vga] part is in [Vga.v]; here are
    its [enable] flag and whether the VGA thread runs. *)
Record virtio_gpu := mkGpu {
  gpu_base : virtio_base;
  gpu_shm : shmem_info;
  cfg : virtio_gpu_config;
  vdpy_handle : Z;
  r2d_list : list virtio_gpu_resource_2d;
  gpu_heap : heap;
  gpu_dmabufs : gmap nat dma_buf_info;
  scanout_num : Z;
  gpu_scanouts : list virtio_gpu_scanout;
  vga_enable : bool;
  vga_running : bool;
  gpu_edid : list Z;
  is_blob_supported : bool;
  vdpy : display;
  gpu_allocs : nat;
  gpu_ioctls : nat;
  gpu_closed : list Z
}.
#[export] Instance virtio_gpu_eta : Settable virtio_gpu := fun g =>
  mkGpu (gpu_base g) (gpu_shm g) (cfg g) (vdpy_handle g) (r2d_list g) (gpu_heap g)
    (gpu_dmabufs g) (scanout_num g) (gpu_scanouts g) (vga_enable g) (vga_running g)
    (gpu_edid g) (is_blob_supported g) (vdpy g) (gpu_allocs g) (gpu_ioctls g) (gpu_closed g).

(** The [n]-th allocation succeeds; opening the udmabuf device succeeds; the
    descriptor the [n]-th udmabuf ioctl returns for a list of
    (memfd, offset, size), negative for a failure. *)
Record gpu_env := mkEnv {
  env_alloc : nat -> bool;
  env_udmabuf : bool;
  env_create : nat -> list (Z * Z * Z) -> Z
}.

(** [struct virtio_gpu_command]; the device and the queue are implicit. *)
Record virtio_gpu_command := mkCommand {
  c_hdr : virtio_gpu_ctrl_hdr; c_iov : list (option iovec); c_iovcnt : Z; c_iolen : Z }.
#[export] Instance command_eta : Settable virtio_gpu_command := fun c =>
  mkCommand (c_hdr c) (c_iov c) (c_iovcnt c) (c_iolen c).

Definition G (A : Type) := M virtio_gpu A.

(** ** Access to guest memory and to the heap *)

Definition on_dpy {A} (m : M display A) : G A := fun g =>
  match m (vdpy g) with Ret (a, d) => Ret (a, g <| vdpy := d |>) | Stop e => Stop e end.

Definition alloc (env : gpu_env) : G bool := fun g =>
  Ret (env_alloc env (gpu_allocs g), g <| gpu_allocs ::= S |>).

(** [memcpy] from and to a pointer into the mapping; nothing happens for 0
    bytes, and a negative count is a huge one. *)
Definition mem_read (p : option Z) (n : Z) : G (list Z) := fun g =>
  if n =? 0 then Ret ([], g)
  else if n <? 0 then Stop OobAccess
  else match p with
       | None => Stop NullDeref
       | Some a => match ld_bytes (gpu_shm g) a (Z.to_nat n) with
                   | Ret bs => Ret (bs, g) | Stop e => Stop e end
       end.

Definition mem_put (p : option Z) (bs : list Z) : G unit := fun g =>
  match p with
  | None => Stop NullDeref
  | Some a => match st_bytes (gpu_shm g) a bs with
              | Ret s => Ret (tt, g <| gpu_shm := s |>) | Stop e => Stop e end
  end.

(** [cmd->iov[k]] *)
Definition iov_at (cmd : virtio_gpu_command) (k : Z) : G iovec :=
  match nthZ (c_iov cmd) k with
  | None => halt OobAccess
  | Some None => halt Uninit
  | Some (Some io) => mret io
  end.

(** [memcpy(&req, cmd->iov[0].iov_base, n)] *)
Definition read_req (cmd : virtio_gpu_command) (n : Z) : G (list Z) :=
  io ← iov_at cmd 0; mem_read (iov_base io) n.

(** [memcpy(cmd->iov[k].iov_base, &resp, sizeof(resp))] *)
Definition put_resp (cmd : virtio_gpu_command) (k : Z) (bs : list Z) : G unit :=
  io ← iov_at cmd k; mem_put (iov_base io) bs.

(** Fields of a request. *)
Definition fld32 (req : list Z) (off : nat) : Z := le_decode (take 4 (drop off req)).
Definition fld64 (req : list Z) (off : nat) : Z := le_decode (take 8 (drop off req)).
Definition fld_rect (req : list Z) (off : nat) : virtio_gpu_rect :=
  mkRect (fld32 req off) (fld32 req (off + 4)) (fld32 req (off + 8)) (fld32 req (off + 12)).

Definition hdr_of (bs : list Z) : virtio_gpu_ctrl_hdr := mkHdr (fld32 bs 0) (fld32 bs 4) (fld64 bs 8).
Definition hdr_bytes (h : virtio_gpu_ctrl_hdr) : list Z :=
  le_encode 4 (h_type h) ++ le_encode 4 (h_flags h) ++ le_encode 8 (h_fence_id h) ++ replicate 8 0.

(** Heap operations lifted to the device. *)
Definition on_heap (f : heap -> outcome heap) : G unit := fun g =>
  match f (gpu_heap g) with Ret h => Ret (tt, g <| gpu_heap := h |>) | Stop e => Stop e end.
Definition ask_heap {A} (f : heap -> outcome A) : G A := fun g =>
  match f (gpu_heap g) with Ret a => Ret (a, g) | Stop e => Stop e end.

Definition image_ref (p : option nat) : G unit := on_heap (fun h => pixman_image_ref h p).
Definition image_unref (p : option nat) : G unit := on_heap (fun h => pixman_image_unref h p).

Definition new_image (im : image) : G nat := fun g =>
  let i := fresh (dom (gpu_heap g)) in Ret (i, g <| gpu_heap ::= <[i := im]> |>).

Definition image_create (env : gpu_env) (format width height : Z) : G (option nat) :=
  a1 ← alloc env;
  a2 ← alloc env;
  r ← lift (pixman_image_create_bits a1 a2 format width height);
  match r with
  | None => mret None
  | Some im => i ← new_image im; mret (Some i)
  end.

Definition dmabuf_at (g : virtio_gpu) (i : nat) : outcome dma_buf_info :=
  match gpu_dmabufs g !! i with Some b => Ret b | None => Stop UseAfterFree end.

Definition virtio_gpu_dmabuf_ref (p : option nat) : G unit := fun g =>
  match p with
  | None => Ret (tt, g)
  | Some i =>
    b ← dmabuf_at g i;
    Ret (tt, g <| gpu_dmabufs ::= <[i := b <| db_ref_count ::= fun n => n + 1 |>]> |>)
  end.

Definition virtio_gpu_dmabuf_unref (p : option nat) : G unit := fun g =>
  match p with
  | None => Ret (tt, g)
  | Some i =>
    b ← dmabuf_at g i;
    if db_ref_count b - 1 =? 0 then
      Ret (tt, (if 0 <? db_fd b then g <| gpu_closed ::= fun l => l ++ [db_fd b] |> else g)
                 <| gpu_dmabufs ::= delete i |>)
    else Ret (tt, g <| gpu_dmabufs ::= <[i := b <| db_ref_count ::= fun n => n - 1 |>]> |>)
  end.

(** [free] of an array. *)
Definition free_iov (p : iov_ptr) : G unit :=
  match p with IovFreed => halt UseAfterFree | _ => mret tt end.

(** ** Resources *)

(** [virtio_gpu_find_resource_2d]: the first resource with the id, and where. *)
Definition virtio_gpu_find_resource_2d (g : virtio_gpu) (id : Z) : option (nat * virtio_gpu_resource_2d) :=
  list_find (fun r => resource_id r = id) (r2d_list g).

Definition upd_r2d (i : nat) (f : virtio_gpu_resource_2d -> virtio_gpu_resource_2d) : G unit :=
  modify (fun g => g <| r2d_list ::= alter f i |>).

(** What is given back when a resource goes away. *)
Definition release_r2d (r : virtio_gpu_resource_2d) : G unit :=
  _ ← (match rd_image r with Some _ => image_unref (rd_image r) | None => mret tt end);
  _ ← (if blob r then virtio_gpu_dmabuf_unref (dma_info r) else mret tt);
  match rd_iov r with IovNull => mret tt | p => free_iov p end.

Definition virtio_gpu_get_pixman_format (format : Z) : Z :=
  switch format
    [ ([VIRTIO_GPU_FORMAT_B8G8R8X8_UNORM], PIXMAN_x8r8g8b8);
      ([VIRTIO_GPU_FORMAT_B8G8R8A8_UNORM], PIXMAN_a8r8g8b8);
      ([VIRTIO_GPU_FORMAT_X8R8G8B8_UNORM], PIXMAN_b8g8r8x8);
      ([VIRTIO_GPU_FORMAT_A8R8G8B8_UNORM], PIXMAN_b8g8r8a8);
      ([VIRTIO_GPU_FORMAT_R8G8B8X8_UNORM], PIXMAN_x8b8g8r8);
      ([VIRTIO_GPU_FORMAT_R8G8B8A8_UNORM], PIXMAN_a8b8g8r8);
      ([VIRTIO_GPU_FORMAT_X8B8G8R8_UNORM], PIXMAN_r8g8b8x8);
      ([VIRTIO_GPU_FORMAT_A8B8G8R8_UNORM], PIXMAN_r8g8b8a8) ]
    0.

(** [gpu->gpu_scanouts + i] *)
Definition get_scanout (i : Z) : G virtio_gpu_scanout := fun g =>
  match nthZ (gpu_scanouts g) i with Some s => Ret (s, g) | None => Stop OobAccess end.
Definition upd_scanout (i : Z) (f : virtio_gpu_scanout -> virtio_gpu_scanout) : G unit :=
  s ← get_scanout i; modify (fun g => g <| gpu_scanouts ::= fun l => setZ l i (f s) |>).

Definition virtio_gpu_update_scanout (scanout_id rid : Z) (scan_rect : virtio_gpu_rect) : G unit :=
  s ← get_scanout scanout_id;
  _ ← (match dma_buf s with
       | Some _ => _ ← virtio_gpu_dmabuf_unref (dma_buf s);
                   upd_scanout scanout_id (fun s => s <| dma_buf := None |>)
       | None => mret tt
       end);
  _ ← (match cur_img s with
       | Some _ => _ ← image_unref (cur_img s);
                   upd_scanout scanout_id (fun s => s <| cur_img := None |>)
       | None => mret tt
       end);
  _ ← upd_scanout scanout_id (fun s => s <| sc_resource_id := rid |>);
  g ← get;
  _ ← (match virtio_gpu_find_resource_2d g rid with
       | Some (_, r2d) =>
         _ ← upd_scanout scanout_id (fun s => s <| sc_is_active := true |>);
         if blob r2d then
           _ ← virtio_gpu_dmabuf_ref (dma_info r2d);
           upd_scanout scanout_id (fun s => s <| dma_buf := dma_info r2d |>)
         else
           _ ← image_ref (rd_image r2d);
           upd_scanout scanout_id (fun s => s <| cur_img := rd_image r2d |>)
       | None => upd_scanout scanout_id (fun s => s <| sc_is_active := false |>)
       end);
  upd_scanout scanout_id (fun s => s <| scanout_rect := scan_rect |>).

(** ** Commands *)

Definition answer (type : Z) : virtio_gpu_ctrl_hdr := mkHdr type 0 0.

Definition virtio_gpu_update_resp_fence (hdr resp : virtio_gpu_ctrl_hdr) : virtio_gpu_ctrl_hdr :=
  if has (h_flags hdr) VIRTIO_GPU_FLAG_FENCE then
    resp <| h_flags ::= fun f => Z.lor f VIRTIO_GPU_FLAG_FENCE |> <| h_fence_id := h_fence_id hdr |>
  else resp.

Definition sizeof_hdr := 24.

(** Answer with a fenced header of the given type in buffer [k]. *)
Definition respond (cmd : virtio_gpu_command) (k type : Z) : G unit :=
  put_resp cmd k (hdr_bytes (virtio_gpu_update_resp_fence (c_hdr cmd) (answer type))).
(** The buffer of the last segment, as an unsigned index. *)
Definition last_seg (cmd : virtio_gpu_command) : Z := u32 (c_iovcnt cmd - 1).

Definition virtio_gpu_cmd_unspec (cmd : virtio_gpu_command) : G Z :=
  _ ← respond cmd (last_seg cmd) VIRTIO_GPU_RESP_ERR_UNSPEC; mret sizeof_hdr.

Definition virtio_gpu_cmd_get_edid (cmd : virtio_gpu_command) : G Z :=
  req ← read_req cmd 32;
  g ← get;
  let size := 24 + 4 + 4 + 1024 in
  let scanout := fld32 req 24 in
  let resp t sz edid :=
    hdr_bytes (virtio_gpu_update_resp_fence (c_hdr cmd) (answer t)) ++ le_encode 4 sz ++ le_encode 4 0 ++ edid in
  if u32 (scanout_num g) <=? scanout then
    _ ← put_resp cmd 1 (resp VIRTIO_GPU_RESP_ERR_INVALID_SCANOUT_ID 0 (replicate 1024 0));
    mret size
  else
    edid ← on_dpy (vdpy_get_edid (vdpy_handle g) (s32 scanout) (replicate 1024 0)
                     (Z.to_nat VIRTIO_GPU_EDID_SIZE));
    _ ← put_resp cmd 1 (resp VIRTIO_GPU_RESP_OK_EDID VIRTIO_GPU_EDID_SIZE edid);
    mret size.

(** The loop over the scanouts from [i] on: the [pmodes] it fills. *)
Fixpoint display_modes (n : nat) (i : Z) (inf : option display_info) (pmodes : list (list Z))
  : G (list (list Z)) :=
  match n with
  | O => mret pmodes
  | S n' =>
    g ← get;
    inf ← on_dpy (vdpy_get_display_info (vdpy_handle g) i inf);
    match inf with
    | None => halt Uninit
    | Some v =>
      if VIRTIO_GPU_MAX_SCANOUTS <=? i then halt OobAccess
      else display_modes n' (i + 1) inf
             (setZ pmodes i (le_encode 4 0 ++ le_encode 4 0 ++ le_encode 4 (di_width v) ++
                             le_encode 4 (di_height v) ++ le_encode 4 1 ++ le_encode 4 0))
    end
  end.

Definition virtio_gpu_cmd_get_display_info (cmd : virtio_gpu_command) : G Z :=
  g ← get;
  pmodes ← display_modes (Z.to_nat (scanout_num g)) 0 None
             (replicate (Z.to_nat VIRTIO_GPU_MAX_SCANOUTS) (replicate 24 0));
  _ ← put_resp cmd 1
        (hdr_bytes (virtio_gpu_update_resp_fence (c_hdr cmd) (answer VIRTIO_GPU_RESP_OK_DISPLAY_INFO)) ++
         concat pmodes);
  mret (24 + 24 * VIRTIO_GPU_MAX_SCANOUTS).

(** The resource created and its table entry, or the error. *)
Definition create_resource (env : gpu_env) (rid format width height : Z) : G Z :=
  g ← get;
  match virtio_gpu_find_resource_2d g rid with
  | Some _ => mret VIRTIO_GPU_RESP_ERR_INVALID_RESOURCE_ID
  | None =>
    a ← alloc env;
    if (a : bool) then
      let format := virtio_gpu_get_pixman_format format in
      img ← image_create env format width height;
      match img with
      | None => mret VIRTIO_GPU_RESP_ERR_OUT_OF_MEMORY
      | Some _ =>
        _ ← modify (fun g => g <| r2d_list ::=
              cons (mkR2d rid width height format img IovNull 0 false None) |>);
        mret VIRTIO_GPU_RESP_OK_NODATA
      end
    else mret VIRTIO_GPU_RESP_ERR_OUT_OF_MEMORY
  end.

Definition virtio_gpu_cmd_resource_create_2d (env : gpu_env) (cmd : virtio_gpu_command) : G Z :=
  req ← read_req cmd 40;
  t ← create_resource env (fld32 req 24) (fld32 req 28) (fld32 req 32) (fld32 req 36);
  _ ← respond cmd 1 t;
  mret sizeof_hdr.

(** The resource leaves the table, and what it holds is given back. *)
Definition destroy_resource (rid : Z) : G Z :=
  g ← get;
  match virtio_gpu_find_resource_2d g rid with
  | None => mret VIRTIO_GPU_RESP_ERR_INVALID_RESOURCE_ID
  | Some (i, r2d) =>
    _ ← release_r2d r2d;
    _ ← modify (fun g => g <| r2d_list ::= delete i |>);
    mret VIRTIO_GPU_RESP_OK_NODATA
  end.

Definition virtio_gpu_cmd_resource_unref (cmd : virtio_gpu_command) : G Z :=
  req ← read_req cmd 32;
  t ← destroy_resource (fld32 req 24);
  _ ← respond cmd 1 t;
  mret sizeof_hdr.

(** *** Backing memory *)

(** The loop that gathers the segments [i .. n) into the buffer of entries. *)
Fixpoint gather (n : nat) (cmd : virtio_gpu_command) (i off : Z) (buf : list Z) : G (list Z) :=
  match n with
  | O => mret buf
  | S n' =>
    io ← iov_at cmd i;
    bs ← mem_read (iov_base io) (iov_len io);
    if off + iov_len io <=? Z.of_nat (length buf)
    then gather n' cmd (i + 1) (off + iov_len io) (splice buf (Z.to_nat off) bs)
    else halt OobAccess
  end.

(** The [struct virtio_gpu_mem_entry] at index [i]: address and length. *)
Definition entry_at (buf : list Z) (i : nat) : Z * Z := (fld64 buf (16 * i), fld32 buf (16 * i + 8)).
Definition entries_of (buf : list Z) (n : nat) : list (Z * Z) := map (entry_at buf) (seq 0 n).

(** The entries of a command with [nr] of them in segments 1 to [iovcnt - 2]. *)
Definition read_entries (cmd : virtio_gpu_command) (nr : Z) : G (list (Z * Z)) :=
  buf ← gather (Z.to_nat (last_seg cmd - 1)) cmd 1 0 (replicate (Z.to_nat (nr * 16)) 0);
  mret (entries_of buf (Z.to_nat nr)).

Definition backing (s : shmem_info) (es : list (Z * Z)) : list iovec :=
  map (fun e => mkIovec (paddr_guest2host s e.1 e.2) e.2) es.

(** The body for a resource at index [i] with [nr > 0] entries: whether it
    went through, [false] for a failed allocation. *)
Definition attach_entries (env : gpu_env) (cmd : virtio_gpu_command) (i : nat) (nr : Z) : G bool :=
  a ← alloc env;
  if (a : bool) then
    a ← alloc env;
    if (a : bool) then
      es ← read_entries cmd nr;
      g ← get;
      _ ← upd_r2d i (fun r => r <| rd_iov := IovLive (backing (gpu_shm g) es) |> <| rd_iovcnt := nr |>);
      mret true
    else
      (* [free(iov)], and the resource keeps pointing to it *)
      _ ← upd_r2d i (fun r => r <| rd_iov := IovFreed |> <| rd_iovcnt := nr |>);
      mret false
  else mret false.

Definition virtio_gpu_cmd_resource_attach_backing (env : gpu_env) (cmd : virtio_gpu_command) : G Z :=
  req ← read_req cmd 32;
  if c_iovcnt cmd <? 2 then
    _ ← put_resp cmd (last_seg cmd) (hdr_bytes (answer VIRTIO_GPU_RESP_ERR_INVALID_PARAMETER));
    mret (c_iolen cmd)
  else
    g ← get;
    t ← match virtio_gpu_find_resource_2d g (fld32 req 24) with
        | Some (i, _) =>
          if 0 <? fld32 req 28 then
            ok ← attach_entries env cmd i (fld32 req 28);
            mret (if (ok : bool) then VIRTIO_GPU_RESP_OK_NODATA else VIRTIO_GPU_RESP_ERR_OUT_OF_MEMORY)
          else mret VIRTIO_GPU_RESP_OK_NODATA
        | None =>
          (* the error is overwritten on the way out *)
          mret VIRTIO_GPU_RESP_OK_NODATA
        end;
    _ ← respond cmd (last_seg cmd) t;
    mret sizeof_hdr.

Definition virtio_gpu_cmd_resource_detach_backing (cmd : virtio_gpu_command) : G Z :=
  req ← read_req cmd 32;
  g ← get;
  _ ← match virtio_gpu_find_resource_2d g (fld32 req 24) with
      | Some (i, r2d) =>
        match rd_iov r2d with
        | IovNull => mret tt
        | p => _ ← free_iov p; upd_r2d i (fun r => r <| rd_iov := IovNull |>)
        end
      | None => mret tt
      end;
  _ ← respond cmd 1 VIRTIO_GPU_RESP_OK_NODATA;
  mret sizeof_hdr.

(** *** Scanout, transfer and flush *)

(** The rectangle leaves the resource: 32-bit arithmetic, as in the code. *)
Definition out_of_resource (r : virtio_gpu_rect) (r2d : virtio_gpu_resource_2d) : bool :=
  (rd_width r2d <? r_x r) || (rd_height r2d <? r_y r) ||
  (rd_width r2d <? r_width r) || (rd_height r2d <? r_height r) ||
  (rd_width r2d <? u32 (r_x r + r_width r)) || (rd_height r2d <? u32 (r_y r + r_height r)).

Definition bytes_per_pixel (format : Z) : Z := PIXMAN_FORMAT_BPP format / 8.

(** The [struct surface] for a rectangle of an image; the fields that stay
    unset are 0 here, nobody reads them. *)
Definition image_surface (r2d : virtio_gpu_resource_2d) (r : virtio_gpu_rect) : G surface :=
  data ← ask_heap (fun h => pixman_image_get_data h (rd_image r2d));
  stride ← ask_heap (fun h => pixman_image_get_stride h (rd_image r2d));
  let off := u32 (bytes_per_pixel (rd_format r2d) * r_x r) + u32 (r_y r * u32 stride) in
  mret (mkSurface SURFACE_PIXMAN (rd_format r2d) (r_x r) (r_y r) (r_width r) (r_height r) 0 (u32 stride)
          (match data with Some i => Some (i, off) | None => None end) 0 0 0).

Definition virtio_gpu_cmd_set_scanout (cmd : virtio_gpu_command) : G Z :=
  req ← read_req cmd 48;
  g ← get;
  let r := fld_rect req 24 in
  let id := fld32 req 40 in
  let rid := fld32 req 44 in
  if u32 (scanout_num g) <=? id then
    _ ← respond cmd 1 VIRTIO_GPU_RESP_ERR_INVALID_SCANOUT_ID; mret (c_iolen cmd)
  else
    _ ← upd_scanout id (fun s => s <| sc_scanout_id := s32 id |>);
    match (if rid =? 0 then None else virtio_gpu_find_resource_2d g rid) with
    | None =>
      _ ← virtio_gpu_update_scanout id 0 r;
      _ ← on_dpy (vdpy_surface_set (vdpy_handle g) (s32 id) None);
      _ ← respond cmd 1 VIRTIO_GPU_RESP_OK_NODATA;
      mret (c_iolen cmd)
    | Some (_, r2d) =>
      t ← (if out_of_resource r r2d then mret VIRTIO_GPU_RESP_ERR_INVALID_PARAMETER
           else
             _ ← virtio_gpu_update_scanout id rid r;
             _ ← image_ref (rd_image r2d);
             surf ← image_surface r2d r;
             _ ← on_dpy (vdpy_surface_set (vdpy_handle g) (s32 id) (Some surf));
             _ ← image_unref (rd_image r2d);
             mret VIRTIO_GPU_RESP_OK_NODATA);
      _ ← respond cmd 1 t;
      _ ← modify (fun g => g <| vga_enable := false |>);
      mret sizeof_hdr
    end.

(** One row: the inner loop of the transfer, over the backing entries.  [dst]
    is the byte offset in the image. *)
Fixpoint copy_row (iovs : list iovec) (img : option nat) (dst src_offset done total : Z) : G unit :=
  match iovs with
  | [] => mret tt
  | io :: rest =>
    match iov_base io with
    | None => copy_row rest img dst src_offset done total
    | Some base =>
      if iov_len io =? 0 then copy_row rest img dst src_offset done total
      else if src_offset <? iov_len io then
        let bytes := s32 (if u64 (total - done) <? u64 (iov_len io - src_offset) then total - done
                          else u64 (iov_len io - src_offset)) in
        bs ← mem_read (Some (base + src_offset)) bytes;
        _ ← on_heap (fun h => image_write h img (dst + done) bs);
        let done := s32 (done + bytes) in
        if total <=? done then mret tt else copy_row rest img dst 0 done total
      else copy_row rest img dst (u32 (src_offset - iov_len io)) done total
    end
  end.

(** [r2d->iov[0 .. iovcnt)], as the loop reads it. *)
Definition iov_entries (r2d : virtio_gpu_resource_2d) : outcome (list iovec) :=
  if rd_iovcnt r2d =? 0 then Ret []
  else match rd_iov r2d with
       | IovNull => Stop NullDeref
       | IovFreed => Stop UseAfterFree
       | IovLive l => if rd_iovcnt r2d <=? Z.of_nat (length l)
                      then Ret (take (Z.to_nat (rd_iovcnt r2d)) l) else Stop OobAccess
       end.

(** The rows [h .. h + n). *)
Fixpoint copy_rows (n : nat) (r2d : virtio_gpu_resource_2d) (r : virtio_gpu_rect)
    (offset stride bpp width h : Z) : G unit :=
  match n with
  | O => mret tt
  | S n' =>
    iovs ← lift (iov_entries r2d);
    _ ← copy_row iovs (rd_image r2d) (u32 (u32 (r_y r + h) * stride + r_x r * bpp))
          (u32 (offset + u32 (stride * h))) 0 (s32 (u32 (width * bpp)));
    copy_rows n' r2d r offset stride bpp width (h + 1)
  end.

(** The branch that copies. *)
Definition transfer_image (r2d : virtio_gpu_resource_2d) (r : virtio_gpu_rect) (offset : Z) : G unit :=
  _ ← image_ref (rd_image r2d);
  stride ← ask_heap (fun h => pixman_image_get_stride h (rd_image r2d));
  format ← ask_heap (fun h => pixman_image_get_format h (rd_image r2d));
  let width := s32 (if r_width r <? rd_width r2d then r_width r else rd_width r2d) in
  let height := s32 (if r_height r <? rd_height r2d then r_height r else rd_height r2d) in
  _ ← copy_rows (Z.to_nat (u32 height)) r2d r offset (u32 stride) (bytes_per_pixel format) width 0;
  image_unref (rd_image r2d).

Definition virtio_gpu_cmd_transfer_to_host_2d (cmd : virtio_gpu_command) : G Z :=
  req ← read_req cmd 56;
  g ← get;
  let r := fld_rect req 24 in
  match virtio_gpu_find_resource_2d g (fld32 req 48) with
  | None => _ ← respond cmd 1 VIRTIO_GPU_RESP_ERR_INVALID_RESOURCE_ID; mret (c_iolen cmd)
  | Some (_, r2d) =>
    if blob r2d then _ ← respond cmd 1 VIRTIO_GPU_RESP_OK_NODATA; mret (c_iolen cmd)
    else
      t ← (if out_of_resource r r2d then mret VIRTIO_GPU_RESP_ERR_INVALID_PARAMETER
           else _ ← transfer_image r2d r (fld64 req 40); mret VIRTIO_GPU_RESP_OK_NODATA);
      _ ← respond cmd 1 t;
      mret sizeof_hdr
  end.

Definition rect_region (r : virtio_gpu_rect) : region16 :=
  pixman_region_init_rect (s32 (r_x r)) (s32 (r_y r)) (r_width r) (r_height r).

Definition virtio_gpu_scanout_needs_flush (s : virtio_gpu_scanout) (rid : Z) (flush_rect : virtio_gpu_rect) : bool :=
  if negb (rid =? sc_resource_id s) then false
  else pixman_region_not_empty
         (pixman_region_intersect pixman_region_init (rect_region (scanout_rect s)) (rect_region flush_rect)).

(** The loop over the scanouts [i .. i + n); [surf] builds the surface. *)
Fixpoint flush_scanouts (n : nat) (i rid : Z) (r : virtio_gpu_rect)
    (surf : virtio_gpu_scanout -> G surface) : G unit :=
  match n with
  | O => mret tt
  | S n' =>
    s ← get_scanout i;
    _ ← (if virtio_gpu_scanout_needs_flush s rid r then
           sf ← surf s;
           g ← get;
           on_dpy (vdpy_surface_update (vdpy_handle g) i (Some sf))
         else mret tt);
    flush_scanouts n' (i + 1) rid r surf
  end.

Definition dmabuf_surface (r2d : virtio_gpu_resource_2d) : G surface := fun g =>
  match dma_info r2d with
  | None => Stop NullDeref
  | Some i => b ← dmabuf_at g i;
              Ret (mkSurface SURFACE_DMABUF 0 0 0 0 0 0 0 None (db_fd b) 0 0, g)
  end.

Definition virtio_gpu_cmd_resource_flush (cmd : virtio_gpu_command) : G Z :=
  req ← read_req cmd 48;
  g ← get;
  let r := fld_rect req 24 in
  let rid := fld32 req 40 in
  let n := Z.to_nat (scanout_num g) in
  match virtio_gpu_find_resource_2d g rid with
  | None => _ ← respond cmd 1 VIRTIO_GPU_RESP_ERR_INVALID_RESOURCE_ID; mret (c_iolen cmd)
  | Some (_, r2d) =>
    if blob r2d then
      _ ← virtio_gpu_dmabuf_ref (dma_info r2d);
      _ ← flush_scanouts n 0 rid r (fun _ => dmabuf_surface r2d);
      _ ← virtio_gpu_dmabuf_unref (dma_info r2d);
      _ ← respond cmd 1 VIRTIO_GPU_RESP_OK_NODATA;
      mret (c_iolen cmd)
    else
      _ ← image_ref (rd_image r2d);
      _ ← flush_scanouts n 0 rid r (fun s => image_surface r2d (scanout_rect s));
      _ ← image_unref (rd_image r2d);
      _ ← respond cmd 1 VIRTIO_GPU_RESP_OK_NODATA;
      mret sizeof_hdr
  end.

(** *** Blob resources *)

(** The list for the ioctl: an entry whose address is not in the memfd makes
    the creation fail. *)
Fixpoint udmabuf_items (s : shmem_info) (es : list (Z * Z)) : option (list (Z * Z * Z)) :=
  match es with
  | [] => Some []
  | (addr, len) :: es' =>
    match vm_find_memfd_region s addr with
    | None => None
    | Some rg => match udmabuf_items s es' with
                 | None => None
                 | Some l => Some ((rg_fd rg, rg_fd_offset rg, len) :: l)
                 end
    end
  end.

Definition new_dmabuf (b : dma_buf_info) : G nat := fun g =>
  let i := fresh (dom (gpu_dmabufs g)) in Ret (i, g <| gpu_dmabufs ::= <[i := b]> |>).

Definition create_list (env : gpu_env) (items : list (Z * Z * Z)) : G Z := fun g =>
  Ret (env_create env (gpu_ioctls g) items, g <| gpu_ioctls ::= S |>).

Definition virtio_gpu_create_udmabuf (env : gpu_env) (es : list (Z * Z)) : G (option nat) :=
  if negb (env_udmabuf env) then mret None
  else
    a1 ← alloc env;
    a2 ← alloc env;
    if negb (a1 && a2) then mret None
    else
      g ← get;
      fd ← (match udmabuf_items (gpu_shm g) es with
            | None => mret (-1)
            | Some items => create_list env items
            end);
      if fd <? 0 then mret None
      else i ← new_dmabuf (mkDmaBuf 1 fd); mret (Some i).

(** The part of the command behind the checks: the new resource, or the error
    of a failed allocation.  [nr] entries, [size] bytes. *)
Definition blob_resource (env : gpu_env) (cmd : virtio_gpu_command) (rid nr size : Z)
  : G (virtio_gpu_resource_2d + Z) :=
  let r2d := mkR2d rid 0 0 0 None IovNull 0 false None in
  if 0 <? nr then
    a ← alloc env;
    if negb a then mret (inr VIRTIO_GPU_RESP_ERR_OUT_OF_MEMORY)
    else
      es ← read_entries cmd nr;
      if CURSOR_BLOB_SIZE <? size then
        d ← virtio_gpu_create_udmabuf env (take (Z.to_nat (s32 nr)) es);
        match d with
        | None => mret (inr VIRTIO_GPU_RESP_ERR_UNSPEC)
        | Some i => mret (inl (r2d <| dma_info := Some i |> <| blob := true |>))
        end
      else
        img ← image_create env PIXMAN_a8r8g8b8 64 64;
        a ← alloc env;
        if negb a then mret (inr VIRTIO_GPU_RESP_ERR_OUT_OF_MEMORY)   (* the image is leaked *)
        else
          g ← get;
          mret (inl (r2d <| rd_width := 64 |> <| rd_height := 64 |> <| rd_format := PIXMAN_a8r8g8b8 |>
                         <| rd_image := img |> <| rd_iov := IovLive (backing (gpu_shm g) es) |>
                         <| rd_iovcnt := nr |>))
  else mret (inl r2d).

Definition virtio_gpu_cmd_create_blob (env : gpu_env) (cmd : virtio_gpu_command) : G Z :=
  req ← read_req cmd 56;
  let rid := fld32 req 24 in
  let done t := _ ← respond cmd (last_seg cmd) t; mret sizeof_hdr in
  if rid =? 0 then done VIRTIO_GPU_RESP_ERR_INVALID_RESOURCE_ID
  else if c_iovcnt cmd <? 2 then done VIRTIO_GPU_RESP_ERR_INVALID_PARAMETER
  else if negb (fld32 req 28 =? VIRTIO_GPU_BLOB_MEM_GUEST) ||
          negb (fld32 req 32 =? VIRTIO_GPU_BLOB_FLAG_USE_SHAREABLE) then
    done VIRTIO_GPU_RESP_ERR_INVALID_PARAMETER
  else
    g ← get;
    match virtio_gpu_find_resource_2d g rid with
    | Some _ => done VIRTIO_GPU_RESP_ERR_INVALID_RESOURCE_ID
    | None =>
      a ← alloc env;
      if negb a then done VIRTIO_GPU_RESP_ERR_OUT_OF_MEMORY
      else
        res ← blob_resource env cmd rid (fld32 req 36) (fld64 req 48);
        match res with
        | inr t => done t
        | inl r2d =>
          _ ← modify (fun g => g <| r2d_list ::= cons r2d |>);
          done VIRTIO_GPU_RESP_OK_NODATA
        end
    end.

Definition virtio_gpu_cmd_set_modifier (cmd : virtio_gpu_command) : G Z :=
  req ← read_req cmd 40;
  g ← get;
  t ← (if c_iovcnt cmd <? 2 then mret VIRTIO_GPU_RESP_ERR_INVALID_PARAMETER
       else
         _ ← on_dpy (vdpy_set_modifier (vdpy_handle g) (fld32 req 32) (fld64 req 24));
         mret VIRTIO_GPU_RESP_OK_NODATA);
  (* without the fence *)
  _ ← put_resp cmd (last_seg cmd) (hdr_bytes (answer t));
  mret sizeof_hdr.

Definition drm_fourcc (format : Z) : Z :=
  switch format
    [ ([VIRTIO_GPU_FORMAT_B8G8R8X8_UNORM], DRM_FORMAT_XRGB8888);
      ([VIRTIO_GPU_FORMAT_B8G8R8A8_UNORM], DRM_FORMAT_ARGB8888);
      ([VIRTIO_GPU_FORMAT_R8G8B8A8_UNORM], DRM_FORMAT_ABGR8888);
      ([VIRTIO_GPU_FORMAT_R8G8B8X8_UNORM], DRM_FORMAT_XBGR8888) ]
    DRM_FORMAT_ARGB8888.

Definition virtio_gpu_cmd_set_scanout_blob (cmd : virtio_gpu_command) : G Z :=
  req ← read_req cmd 96;
  _ ← modify (fun g => g <| vga_enable := false |>);
  g ← get;
  let r := fld_rect req 24 in
  let id := fld32 req 40 in
  let rid := fld32 req 44 in
  let done t := _ ← respond cmd (last_seg cmd) t; mret sizeof_hdr in
  if u32 (scanout_num g) <=? id then done VIRTIO_GPU_RESP_ERR_INVALID_SCANOUT_ID
  else
    _ ← upd_scanout id (fun s => s <| sc_scanout_id := s32 id |>);
    if rid =? 0 then
      _ ← virtio_gpu_update_scanout id 0 r;
      n ← done VIRTIO_GPU_RESP_OK_NODATA;
      _ ← on_dpy (vdpy_surface_set (vdpy_handle g) (s32 id) None);
      mret n
    else match virtio_gpu_find_resource_2d g rid with
    | None => done VIRTIO_GPU_RESP_ERR_INVALID_RESOURCE_ID
    | Some (_, r2d) =>
      if negb (blob r2d) then virtio_gpu_cmd_set_scanout (cmd <| c_iolen := sizeof_hdr |>)
      else
        _ ← virtio_gpu_update_scanout id rid r;
        _ ← virtio_gpu_dmabuf_ref (dma_info r2d);
        s ← dmabuf_surface r2d;
        let stride := fld32 req 64 in
        let off := u32 (fld32 req 80 + u32 (4 * r_x r) + u32 (r_y r * stride)) in
        let surf := mkSurface SURFACE_DMABUF 0 (r_x r) (r_y r) (r_width r) (r_height r) 0 stride None
                      (dmabuf_fd s) (drm_fourcc (fld32 req 56)) off in
        _ ← on_dpy (vdpy_surface_set (vdpy_handle g) (s32 id) (Some surf));
        n ← done VIRTIO_GPU_RESP_OK_NODATA;
        _ ← virtio_gpu_dmabuf_unref (dma_info r2d);
        mret n
    end.

(** *** Cursor commands *)

Definition virtio_gpu_cmd_update_cursor (cmd : virtio_gpu_command) : G Z :=
  req ← read_req cmd 56;
  g ← get;
  let rid := fld32 req 40 in
  if 0 <? rid then
    match virtio_gpu_find_resource_2d g rid with
    | None => mret (c_iolen cmd)
    | Some (_, r2d) =>
      _ ← image_ref (rd_image r2d);
      _ ← ask_heap (fun h => pixman_image_get_data h (rd_image r2d));
      _ ← on_dpy (vdpy_cursor_define (vdpy_handle g) (s32 (fld32 req 24)));
      _ ← image_unref (rd_image r2d);
      mret (c_iolen cmd)
    end
  else mret (c_iolen cmd).

Definition virtio_gpu_cmd_move_cursor (cmd : virtio_gpu_command) : G Z :=
  req ← read_req cmd 56;
  g ← get;
  _ ← on_dpy (vdpy_cursor_move (vdpy_handle g) (s32 (fld32 req 24)) (fld32 req 28) (fld32 req 32));
  mret (c_iolen cmd).

(** ** Dispatch *)

(** The [switch] of [virtio_gpu_ctrl_bh]. *)
Definition ctrl_command (env : gpu_env) (cmd : virtio_gpu_command) : G Z :=
  g ← get;
  switch (h_type (c_hdr cmd))
    [ ([VIRTIO_GPU_CMD_GET_EDID], virtio_gpu_cmd_get_edid cmd);
      ([VIRTIO_GPU_CMD_GET_DISPLAY_INFO], virtio_gpu_cmd_get_display_info cmd);
      ([VIRTIO_GPU_CMD_RESOURCE_CREATE_2D], virtio_gpu_cmd_resource_create_2d env cmd);
      ([VIRTIO_GPU_CMD_RESOURCE_UNREF], virtio_gpu_cmd_resource_unref cmd);
      ([VIRTIO_GPU_CMD_RESOURCE_ATTACH_BACKING], virtio_gpu_cmd_resource_attach_backing env cmd);
      ([VIRTIO_GPU_CMD_RESOURCE_DETACH_BACKING], virtio_gpu_cmd_resource_detach_backing cmd);
      ([VIRTIO_GPU_CMD_SET_SCANOUT], virtio_gpu_cmd_set_scanout cmd);
      ([VIRTIO_GPU_CMD_TRANSFER_TO_HOST_2D], virtio_gpu_cmd_transfer_to_host_2d cmd);
      ([VIRTIO_GPU_CMD_RESOURCE_FLUSH], virtio_gpu_cmd_resource_flush cmd);
      ([VIRTIO_GPU_CMD_RESOURCE_CREATE_BLOB],
        if is_blob_supported g then virtio_gpu_cmd_create_blob env cmd else virtio_gpu_cmd_unspec cmd);
      ([VIRTIO_GPU_CMD_SET_SCANOUT_BLOB],
        if is_blob_supported g then virtio_gpu_cmd_set_scanout_blob cmd else virtio_gpu_cmd_unspec cmd);
      ([VIRTIO_GPU_CMD_SET_MODIFIER], virtio_gpu_cmd_set_modifier cmd) ]
    (virtio_gpu_cmd_unspec cmd).

(** The [switch] of [virtio_gpu_cursor_bh]. *)
Definition cursor_command (cmd : virtio_gpu_command) : G Z :=
  switch (h_type (c_hdr cmd))
    [ ([VIRTIO_GPU_CMD_UPDATE_CURSOR], virtio_gpu_cmd_update_cursor cmd);
      ([VIRTIO_GPU_CMD_MOVE_CURSOR], virtio_gpu_cmd_move_cursor cmd) ]
    (mret (c_iolen cmd)).
