(* ===== verification/GpuInv.v ===== *)
(** * Reference counts of the virtio GPU

    The invariant of [struct virtio_gpu]: the resource table and the scanouts
    never hold more references to an image or to a dma-buf than its count
    says, so a held pointer is a live one.  A weakest-precondition calculus
    for the commands of [VirtioGpu.v], and the proof that every command
    preserves the invariant and never touches a freed object. *)
From S2P Require Import Prelude Shmem VirtQueue VirtioCore Edid Pixman Display VirtioGpu.

Create HintDb gpu.
Create HintDb gpu_cmd.

(** ** Counting references *)

(** 1 when [p] points to [j]. *)
Definition points (p : option nat) (j : nat) : Z := if decide (p = Some j) then 1 else 0.

Definition total {A} (f : A -> option nat) (l : list A) (j : nat) : Z :=
  foldr (fun x n => points (f x) j + n) 0 l.

Lemma points_bound p j : 0 <= points p j <= 1.
Proof. unfold points. case_decide; lia. Qed.

Lemma points_self i : points (Some i) i = 1.
Proof. unfold points. by rewrite decide_True. Qed.

Lemma points_none j : points None j = 0.
Proof. done. Qed.

Lemma total_nonneg {A} (f : A -> option nat) l j : 0 <= total f l j.
Proof. induction l as [|x l IH]; simpl; [done|]. pose proof (points_bound (f x) j). lia. Qed.

Lemma total_app {A} (f : A -> option nat) l1 l2 j : total f (l1 ++ l2) j = total f l1 j + total f l2 j.
Proof. induction l1 as [|x l1 IH]; simpl; lia. Qed.

Lemma total_delete {A} (f : A -> option nat) l k x j :
  l !! k = Some x -> total f (delete k l) j = total f l j - points (f x) j.
Proof.
  intros H. rewrite <- (take_drop_middle l k x H) at 2. rewrite delete_take_drop, !total_app. simpl. lia.
Qed.

Lemma total_insert {A} (f : A -> option nat) l k x y j :
  l !! k = Some x -> total f (<[k := y]> l) j = total f l j - points (f x) j + points (f y) j.
Proof.
  intros H. rewrite <- (take_drop_middle l k x H) at 2.
  rewrite insert_take_drop by (by eapply lookup_lt_Some). rewrite !total_app. simpl. lia.
Qed.

Lemma total_lower {A} (f : A -> option nat) l k x j : l !! k = Some x -> points (f x) j <= total f l j.
Proof.
  intros H. rewrite <- (take_drop_middle l k x H), total_app. simpl.
  pose proof (total_nonneg f (take k l) j). pose proof (total_nonneg f (drop (S k) l) j). lia.
Qed.

Lemma total_alter {A} (f : A -> option nat) g l k j :
  (forall x, f (g x) = f x) -> total f (alter g k l) j = total f l j.
Proof.
  intros H. revert k. induction l as [|x l IH]; intros [|k]; try done.
  - change (points (f (g x)) j + total f l j = points (f x) j + total f l j). by rewrite H.
  - change (points (f x) j + total f (alter g k l) j = points (f x) j + total f l j). by rewrite IH.
Qed.

(** The counts the heaps record; 0 for an absent object. *)
Definition img_count (h : heap) (j : nat) : Z := match h !! j with Some im => im_ref im | None => 0 end.
Definition dma_count (m : gmap nat dma_buf_info) (j : nat) : Z :=
  match m !! j with Some b => db_ref_count b | None => 0 end.

#[global] Arguments total : simpl never.
#[global] Arguments points : simpl never.
#[global] Arguments img_count : simpl never.
#[global] Arguments dma_count : simpl never.

(** ** The invariant

    [fi] and [fd] are the references a command holds at some point besides
    those of the table and the scanouts. *)
Definition freed (p : iov_ptr) : Prop := p = IovFreed.

(** The host's allocator refuses nothing. *)
Definition all_alloc (env : gpu_env) : Prop := forall n, env_alloc env n = true.

(** It has refused none of the requests made so far. *)
Definition granted (env : gpu_env) (g : virtio_gpu) : Prop :=
  forall n, (n < gpu_allocs g)%nat -> env_alloc env n = true.

(** No resource points to a backing array that is freed. *)
Definition arrays_live (g : virtio_gpu) : Prop := Forall (fun r => ~ freed (rd_iov r)) (r2d_list g).

(** Whether it is taken for granted that no resource does, whatever the allocator answers:
    this holds of the code that does not attach a backing. *)
Class Known := known : Prop.
#[export] Instance nothing_known : Known | 100 := False.

(** [c] covers the [a] references there are; nothing is leaked unless a request was refused. *)
Definition covers (ok : Prop) (a c : Z) : Prop := a <= c /\ (ok -> c = a).

(** Only an active scanout shows something. *)
Definition idle_ok (s : virtio_gpu_scanout) : Prop :=
  sc_is_active s = false -> cur_img s = None /\ dma_buf s = None.

(** The backing array has the recorded length. *)
Definition iov_ok (r : virtio_gpu_resource_2d) : Prop :=
  match rd_iov r with IovLive l => rd_iovcnt r = Z.of_nat (length l) | _ => True end.

Record ginv `{Known} (env : gpu_env) (fi fd : nat -> Z) (g : virtio_gpu) : Prop := {
  gi_heap : map_Forall (fun _ im => 1 <= im_ref im) (gpu_heap g);
  gi_img : forall j,
    covers (granted env g) (fi j + total rd_image (r2d_list g) j + total cur_img (gpu_scanouts g) j)
      (img_count (gpu_heap g) j);
  gi_dpos : map_Forall (fun _ b => 1 <= db_ref_count b) (gpu_dmabufs g);
  gi_dma : forall j,
    dma_count (gpu_dmabufs g) j = fd j + total dma_info (r2d_list g) j + total dma_buf (gpu_scanouts g) j;
  gi_ids : NoDup (map resource_id (r2d_list g));
  gi_blob : Forall (fun r => if blob r then dma_info r <> None /\ rd_image r = None else dma_info r = None)
              (r2d_list g);
  gi_iov : Forall iov_ok (r2d_list g);
  gi_freed : known \/ granted env g -> arrays_live g;
  gi_idle : Forall idle_ok (gpu_scanouts g);
  gi_num : Z.of_nat (length (gpu_scanouts g)) = scanout_num g
}.

Ltac cover_lia H :=
  let H1 := fresh in let H2 := fresh in
  pose proof H as [H1 H2]; split; [|let Ha := fresh in intros Ha; specialize (H2 Ha)]; lia.

Definition none : nat -> Z := fun _ => 0.

(** Between two commands no other reference is held. *)
Definition gpu_inv `{Known} (env : gpu_env) : virtio_gpu -> Prop := ginv env none none.

(** ** Weakest preconditions *)

Section Rules.
Context `{kn : Known} (env : gpu_env).

(** The stops a command may end in: a use after free only when the host's
    allocator refuses an allocation, and no array was known to be good. *)
Definition may_stop (e : stop) : Prop := e = UseAfterFree -> ~ (known \/ all_alloc env).

Definition wp {A} (m : G A) (Q : A -> virtio_gpu -> Prop) (g : virtio_gpu) : Prop :=
  match m g with Ret (a, g') => Q a g' | Stop e => may_stop e end.

Lemma wp_ret {A} (a : A) Q g : Q a g -> wp (mret a) Q g.
Proof. done. Qed.

Lemma wp_bind {A B} (m : G A) (f : A -> G B) Q g :
  wp m (fun a => wp (f a) Q) g -> wp (mbind f m) Q g.
Proof. unfold wp, mbind, M_bind. by destruct (m g) as [[a g']|e]. Qed.

Lemma wp_weaken {A} (m : G A) (P Q : A -> virtio_gpu -> Prop) g :
  wp m P g -> (forall a g', P a g' -> Q a g') -> wp m Q g.
Proof. unfold wp. destruct (m g) as [[a g']|e]; auto. Qed.

Lemma wp_get Q g : Q g g -> wp get Q g.
Proof. done. Qed.

Lemma wp_modify f Q g : Q tt (f g) -> wp (modify f) Q g.
Proof. done. Qed.

Lemma wp_halt {A} e (Q : A -> virtio_gpu -> Prop) g : e <> UseAfterFree -> wp (halt e) Q g.
Proof. intros H ?. done. Qed.

Lemma wp_lift {A} (o : outcome A) Q g :
  (forall a, o = Ret a -> Q a g) -> (forall e, o = Stop e -> may_stop e) -> wp (lift o) Q g.
Proof. unfold wp, lift. destruct o; auto. Qed.

Lemma wp_alloc Q g : Q (env_alloc env (gpu_allocs g)) (g <| gpu_allocs ::= S |>) -> wp (alloc env) Q g.
Proof. done. Qed.

Lemma mem_stop_may e : mem_stop e -> may_stop e.
Proof. intros [->| ->]; done. Qed.

Lemma wp_mem_read p n Q g : (forall bs, Q bs g) -> wp (mem_read p n) Q g.
Proof.
  intros H. unfold wp, mem_read. destruct (n =? 0); [done|]. destruct (n <? 0); [done|].
  destruct p as [a|]; [|done]. destruct (ld_bytes _ _ _) eqn:E; [done|].
  apply mem_stop_may. by eapply ld_bytes_stop.
Qed.

Lemma st_bytes_stop s p bs e : st_bytes s p bs = Stop e -> mem_stop e.
Proof. unfold st_bytes. destruct (in_bounds _ _ _); [done|]. intros [= <-]. by left. Qed.

Lemma wp_mem_put p bs Q g : (forall s, Q tt (g <| gpu_shm := s |>)) -> wp (mem_put p bs) Q g.
Proof.
  intros H. unfold wp, mem_put. destruct p as [a|]; [|done].
  destruct (st_bytes _ _ _) eqn:E; [done|]. apply mem_stop_may. by eapply st_bytes_stop.
Qed.

Lemma wp_iov_at cmd k Q g : (forall io, Q io g) -> wp (iov_at cmd k) Q g.
Proof. intros H. unfold iov_at. destruct (nthZ _ _) as [[io|]|]; [by apply wp_ret|done..]. Qed.

Lemma wp_read_req cmd n Q g : (forall bs, Q bs g) -> wp (read_req cmd n) Q g.
Proof. intros H. apply wp_bind, wp_iov_at. intros io. by apply wp_mem_read. Qed.

Lemma wp_put_resp cmd k bs Q g : (forall s, Q tt (g <| gpu_shm := s |>)) -> wp (put_resp cmd k bs) Q g.
Proof. intros H. apply wp_bind, wp_iov_at. intros io. by apply wp_mem_put. Qed.

Lemma wp_respond cmd k t Q g : (forall s, Q tt (g <| gpu_shm := s |>)) -> wp (respond cmd k t) Q g.
Proof. apply wp_put_resp. Qed.

(** A display call does not stop by a use after free. *)
Definition dpy_safe {A} (m : M display A) : Prop := forall d, m d <> Stop UseAfterFree.

Lemma wp_on_dpy {A} (m : M display A) Q g :
  dpy_safe m -> (forall a d, Q a (g <| vdpy := d |>)) -> wp (on_dpy m) Q g.
Proof.
  intros Hm H. unfold wp, on_dpy. destruct (m (vdpy g)) as [[a d]|e] eqn:E; [done|].
  intros ->. by destruct (Hm (vdpy g)).
Qed.
End Rules.

(** ** State changes under the invariant *)

Section Steps.
Context `{kn : Known} (env : gpu_env).
Implicit Types (fi fd : nat -> Z) (g : virtio_gpu).

Lemma ginv_ext fi fd fi' fd' g :
  (forall j, fi' j = fi j) -> (forall j, fd' j = fd j) -> ginv env fi fd g -> ginv env fi' fd' g.
Proof.
  intros Hi Hd []. split; try done; intros j; by rewrite ?Hi, ?Hd.
Qed.

(** Images may only be leaked once a request was refused. *)
Lemma ginv_leak fi fd fi' g :
  ~ granted env g -> (forall j, fi' j <= fi j) -> ginv env fi fd g -> ginv env fi' fd g.
Proof.
  intros Hn Hi []. split; try done. intros j. split; [|done]. destruct (gi_img0 j). specialize (Hi j). lia.
Qed.

Lemma ginv_set_scanout fi fd g id s s' :
  nthZ (gpu_scanouts g) id = Some s -> idle_ok s' -> ginv env fi fd g ->
  ginv env (fun j => fi j + points (cur_img s) j - points (cur_img s') j)
           (fun j => fd j + points (dma_buf s) j - points (dma_buf s') j)
           (g <| gpu_scanouts ::= fun l => setZ l id s' |>).
Proof.
  intros Hs Hs' []. unfold nthZ in Hs. destruct (Z.leb_spec 0 id) as [Hid|]; [|done].
  split; try done; cbn; unfold setZ; destruct (Z.leb_spec 0 id); try lia.
  - intros j. rewrite (total_insert _ _ _ _ _ _ Hs). cover_lia (gi_img0 j).
  - intros j. rewrite (total_insert _ _ _ _ _ _ Hs). (pose proof (gi_dma0 j); lia).
  - by apply Forall_insert.
  - by rewrite length_insert.
Qed.

(** Liveness of what the table and the scanouts point to. *)
Lemma r2d_image_live fi fd g k r i :
  ginv env fi fd g -> r2d_list g !! k = Some r -> rd_image r = Some i -> 0 <= fi i ->
  1 <= img_count (gpu_heap g) i.
Proof.
  intros [] Hk Hi Hf. destruct (gi_img0 i) as [Hle _].
  pose proof (total_lower rd_image _ _ _ i Hk) as Hl. rewrite Hi, points_self in Hl.
  pose proof (total_nonneg cur_img (gpu_scanouts g) i). lia.
Qed.

Lemma r2d_dma_live fi fd g k r i :
  ginv env fi fd g -> r2d_list g !! k = Some r -> dma_info r = Some i -> 0 <= fd i ->
  1 <= dma_count (gpu_dmabufs g) i.
Proof.
  intros [] Hk Hi Hf. pose proof (gi_dma0 i) as Hle.
  pose proof (total_lower dma_info _ _ _ i Hk) as Hl. rewrite Hi, points_self in Hl.
  pose proof (total_nonneg dma_buf (gpu_scanouts g) i). lia.
Qed.

Lemma scanout_image_live fi fd g id s i :
  ginv env fi fd g -> nthZ (gpu_scanouts g) id = Some s -> cur_img s = Some i -> 0 <= fi i ->
  1 <= img_count (gpu_heap g) i.
Proof.
  intros [] Hs Hi Hf. destruct (gi_img0 i) as [Hle _]. unfold nthZ in Hs. destruct (0 <=? id); [|done].
  pose proof (total_lower cur_img _ _ _ i Hs) as Hl. rewrite Hi, points_self in Hl.
  pose proof (total_nonneg rd_image (r2d_list g) i). lia.
Qed.

Lemma scanout_dma_live fi fd g id s i :
  ginv env fi fd g -> nthZ (gpu_scanouts g) id = Some s -> dma_buf s = Some i -> 0 <= fd i ->
  1 <= dma_count (gpu_dmabufs g) i.
Proof.
  intros [] Hs Hi Hf. pose proof (gi_dma0 i) as Hle. unfold nthZ in Hs. destruct (0 <=? id); [|done].
  pose proof (total_lower dma_buf _ _ _ i Hs) as Hl. rewrite Hi, points_self in Hl.
  pose proof (total_nonneg dma_info (r2d_list g) i). lia.
Qed.

(** ** The heap operations *)

Lemma img_count_live h i : 1 <= img_count h i -> exists im, h !! i = Some im /\ img_count h i = im_ref im.
Proof. unfold img_count. destruct (h !! i) as [im|]; [by exists im|lia]. Qed.

Lemma img_count_insert h i im j :
  img_count (<[i := im]> h) j = if decide (Some i = Some j) then im_ref im else img_count h j.
Proof.
  unfold img_count. case_decide as Hd.
  - injection Hd as ->. by rewrite lookup_insert_eq.
  - by rewrite lookup_insert_ne by congruence.
Qed.

Lemma image_ref_run h i :
  1 <= img_count h i -> map_Forall (fun _ im => 1 <= im_ref im) h ->
  exists h', pixman_image_ref h (Some i) = Ret h' /\ map_Forall (fun _ im => 1 <= im_ref im) h' /\
    forall j, img_count h' j = img_count h j + points (Some i) j.
Proof.
  intros Hi Hh. destruct (img_count_live h i Hi) as (im & Him & Hc).
  eexists. split; [unfold pixman_image_ref, image_at; rewrite Him; reflexivity|]. split.
  - apply map_Forall_insert_2; [cbn; lia|done].
  - intros j. rewrite img_count_insert. unfold points. case_decide as Hd; [|lia].
    injection Hd as <-. cbn. lia.
Qed.

Lemma image_unref_run h i :
  1 <= img_count h i -> map_Forall (fun _ im => 1 <= im_ref im) h ->
  exists h', pixman_image_unref h (Some i) = Ret h' /\ map_Forall (fun _ im => 1 <= im_ref im) h' /\
    forall j, img_count h' j = img_count h j - points (Some i) j.
Proof.
  intros Hi Hh. destruct (img_count_live h i Hi) as (im & Him & Hc).
  unfold pixman_image_unref, image_at. rewrite Him. cbn [mbind outcome_bind].
  destruct (Z.eqb_spec (im_ref im - 1) 0) as [Hz|Hz]; eexists; (split; [reflexivity|]); split.
  - by apply map_Forall_delete.
  - intros j. unfold points. case_decide as Hd.
    + injection Hd as <-. unfold img_count at 1. rewrite lookup_delete_eq. lia.
    + unfold img_count at 1. rewrite lookup_delete_ne by congruence. fold (img_count h j). lia.
  - apply map_Forall_insert_2; [cbn; lia|done].
  - intros j. rewrite img_count_insert. unfold points. case_decide as Hd; [|lia].
    injection Hd as <-. cbn. lia.
Qed.

Lemma wp_image_ref fi fd p Q g :
  ginv env fi fd g -> (forall i, p = Some i -> 1 <= img_count (gpu_heap g) i) ->
  (forall h, ginv env (fun j => fi j + points p j) fd (g <| gpu_heap := h |>) ->
     Q tt (g <| gpu_heap := h |>)) ->
  wp env (image_ref p) Q g.
Proof.
  intros Hg Hl HQ. unfold wp, image_ref, on_heap. destruct p as [i|]; [|done].
  destruct (image_ref_run (gpu_heap g) i) as (h & -> & Hh & Hc); [by apply Hl|apply Hg|].
  apply HQ. destruct Hg. split; try done. cbn. intros j. rewrite Hc. cover_lia (gi_img0 j).
Qed.

Lemma wp_image_unref fi fd p Q g :
  ginv env fi fd g -> (forall i, p = Some i -> 1 <= img_count (gpu_heap g) i) ->
  (forall h, ginv env (fun j => fi j - points p j) fd (g <| gpu_heap := h |>) ->
     Q tt (g <| gpu_heap := h |>)) ->
  wp env (image_unref p) Q g.
Proof.
  intros Hg Hl HQ. unfold wp, image_unref, on_heap. destruct p as [i|]; [|done].
  destruct (image_unref_run (gpu_heap g) i) as (h & -> & Hh & Hc); [by apply Hl|apply Hg|].
  apply HQ. destruct Hg. split; try done. cbn. intros j. rewrite Hc. cover_lia (gi_img0 j).
Qed.

(** The same for dma-bufs. *)
Lemma dma_count_insert m i b j :
  dma_count (<[i := b]> m) j = if decide (Some i = Some j) then db_ref_count b else dma_count m j.
Proof.
  unfold dma_count. case_decide as Hd.
  - injection Hd as ->. by rewrite lookup_insert_eq.
  - by rewrite lookup_insert_ne by congruence.
Qed.

Lemma dma_live g i : 1 <= dma_count (gpu_dmabufs g) i ->
  exists b, dmabuf_at g i = Ret b /\ dma_count (gpu_dmabufs g) i = db_ref_count b.
Proof. unfold dma_count, dmabuf_at. destruct (gpu_dmabufs g !! i) as [b|]; [by exists b|lia]. Qed.

Lemma wp_dmabuf_ref fi fd p Q g :
  ginv env fi fd g -> (forall i, p = Some i -> 1 <= dma_count (gpu_dmabufs g) i) ->
  (forall m, ginv env fi (fun j => fd j + points p j) (g <| gpu_dmabufs := m |>) ->
     Q tt (g <| gpu_dmabufs := m |>)) ->
  wp env (virtio_gpu_dmabuf_ref p) Q g.
Proof.
  intros Hg Hl HQ. unfold wp, virtio_gpu_dmabuf_ref. destruct p as [i|].
  - destruct (dma_live g i) as (b & -> & Hc); [by apply Hl|]. cbn [mbind outcome_bind].
    apply (HQ (<[i := _]> (gpu_dmabufs g))). destruct Hg. split; try done; cbn.
    + apply map_Forall_insert_2; [cbn|done]. specialize (Hl i eq_refl). lia.
    + intros j. rewrite dma_count_insert. unfold points at 1. specialize (gi_dma0 j).
      case_decide as Hd; [|lia]. injection Hd as <-. cbn. lia.
  - specialize (HQ (gpu_dmabufs g)). destruct g. apply HQ.
    eapply ginv_ext; [| |exact Hg]; intros j; rewrite ?points_none; lia.
Qed.

Lemma wp_dmabuf_unref fi fd p Q g :
  ginv env fi fd g -> (forall i, p = Some i -> 1 <= dma_count (gpu_dmabufs g) i) ->
  (forall m c, ginv env fi (fun j => fd j - points p j) (g <| gpu_closed := c |> <| gpu_dmabufs := m |>) ->
     Q tt (g <| gpu_closed := c |> <| gpu_dmabufs := m |>)) ->
  wp env (virtio_gpu_dmabuf_unref p) Q g.
Proof.
  intros Hg Hl HQ. unfold wp, virtio_gpu_dmabuf_unref. destruct p as [i|].
  - destruct (dma_live g i) as (b & -> & Hc); [by apply Hl|]. cbn [mbind outcome_bind].
    specialize (Hl i eq_refl).
    assert (Hstep : forall m c, map_Forall (fun _ b => 1 <= db_ref_count b) m ->
      (forall j, dma_count m j = dma_count (gpu_dmabufs g) j - points (Some i) j) ->
      Q tt (g <| gpu_closed := c |> <| gpu_dmabufs := m |>)).
    { intros m c Hm Hj. apply HQ. destruct Hg. split; try done. cbn. intros j. rewrite Hj.
      (pose proof (gi_dma0 j); lia). }
    destruct (Z.eqb_spec (db_ref_count b - 1) 0) as [Hz|Hz].
    + assert (Hdel : forall c, Q tt (g <| gpu_closed := c |> <| gpu_dmabufs := delete i (gpu_dmabufs g) |>)).
      { intros c. apply Hstep; [apply map_Forall_delete, Hg|]. intros j. unfold points.
        unfold dma_count at 1. case_decide as Hd.
        - injection Hd as <-. rewrite lookup_delete_eq. lia.
        - rewrite lookup_delete_ne by congruence. fold (dma_count (gpu_dmabufs g) j). lia. }
      destruct (0 <? db_fd b); [exact (Hdel _)|]. destruct g. exact (Hdel _).
    + assert (Hins : Q tt (g <| gpu_closed := gpu_closed g |>
          <| gpu_dmabufs := <[i := b <| db_ref_count ::= fun n => n - 1 |>]> (gpu_dmabufs g) |>)).
      { apply Hstep; [apply map_Forall_insert_2; [cbn; lia|apply Hg]|].
        intros j. rewrite dma_count_insert. unfold points. case_decide as Hd; [|lia].
        injection Hd as <-. cbn. lia. }
      destruct g. exact Hins.
  - specialize (HQ (gpu_dmabufs g) (gpu_closed g)). destruct g. apply HQ.
    eapply ginv_ext; [| |exact Hg]; intros j; rewrite ?points_none; lia.
Qed.
End Steps.

(** ** The display calls *)

Ltac split_if := cbv zeta; match goal with |- context [if ?b then _ else _] => destruct b end.

Lemma dpy_safe_bind {A B} (m : M display A) (f : A -> M display B) :
  dpy_safe m -> (forall a, dpy_safe (f a)) -> dpy_safe (mbind f m).
Proof.
  intros Hm Hf d. unfold mbind, M_bind. specialize (Hm d). destruct (m d) as [[a d']|e]; [|congruence].
  apply Hf.
Qed.

Lemma dpy_safe_ret {A} (a : A) : dpy_safe (mret a).
Proof. by intros d. Qed.

Lemma dpy_safe_send data : dpy_safe (_send data).
Proof.
  intros d. unfold _send.
  assert (H : forall script err data out e, send_loop script err data out = Stop e -> e = OutOfFuel).
  { induction script as [|[n|e] script IH]; intros err data0 out e0; cbn [send_loop]; [by intros [= <-]| |].
    - repeat case_match; try done; by apply IH.
    - case_match; [by apply IH|done]. }
  destruct (send_loop _ _ _ _) as [[[[? ?] ?] ?]|e] eqn:E; [done|]. apply H in E. by subst.
Qed.

Lemma dpy_safe_client_send t data : dpy_safe (client_send t data).
Proof.
  apply dpy_safe_bind; [by intros d|]. intros d. destruct (client_sock d =? -1); [apply dpy_safe_ret|].
  apply dpy_safe_bind; [apply dpy_safe_send|]. intros r. destruct (negb (r =? 12)); [apply dpy_safe_ret|].
  destruct data as [[|b bs]|]; [apply dpy_safe_ret| |apply dpy_safe_ret].
  apply dpy_safe_bind; [apply dpy_safe_send|]. intros r2. destruct (negb _); apply dpy_safe_ret.
Qed.

Lemma dpy_safe_send_fd fd : dpy_safe (client_send_fd fd).
Proof.
  intros d. unfold client_send_fd. destruct (client_sock d =? -1); [done|].
  assert (H : forall script err e, sendmsg_loop script err = Stop e -> e = OutOfFuel).
  { induction script as [|[n|e] script IH]; intros err e0; cbn [sendmsg_loop]; [by intros [= <-]| |].
    - repeat case_match; try done; by apply IH.
    - case_match; [by apply IH|done]. }
  destruct (sendmsg_loop _ _) as [[[? ?] ?]|e] eqn:E; [done|]. apply H in E. by subst.
Qed.

Lemma dpy_safe_surface_set h id s : dpy_safe (vdpy_surface_set h id s).
Proof.
  destruct s as [s|]; [|apply dpy_safe_ret]. cbn. destruct (surf_type s); [apply dpy_safe_ret|].
  apply dpy_safe_bind; [apply dpy_safe_client_send|]. intros _.
  apply dpy_safe_bind; [apply dpy_safe_send_fd|]. intros _. apply dpy_safe_ret.
Qed.

Lemma dpy_safe_surface_update h id s : dpy_safe (vdpy_surface_update h id s).
Proof.
  destruct s as [s|]; [|apply dpy_safe_ret]. cbn. destruct (surf_type s); [apply dpy_safe_ret|].
  apply dpy_safe_bind; [apply dpy_safe_client_send|]. intros _. apply dpy_safe_ret.
Qed.

Lemma dpy_safe_get_vscr id : dpy_safe (get_vscr id).
Proof. intros d. unfold get_vscr. by destruct (nthZ _ _). Qed.

Lemma dpy_safe_set_modifier h id m : dpy_safe (vdpy_set_modifier h id m).
Proof.
  apply dpy_safe_bind; [by intros d|]. intros d. split_if; [apply dpy_safe_ret|].
  apply dpy_safe_bind; [apply dpy_safe_get_vscr|]. intros v.
  apply dpy_safe_bind; [by intros d'|]. intros _.
  apply dpy_safe_bind; [apply dpy_safe_client_send|]. intros _. apply dpy_safe_ret.
Qed.

Lemma dpy_safe_get_display_info h id inf : dpy_safe (vdpy_get_display_info h id inf).
Proof.
  apply dpy_safe_bind; [by intros d|]. intros d. split_if; [apply dpy_safe_ret|].
  apply dpy_safe_bind; [apply dpy_safe_get_vscr|]. intros v. apply dpy_safe_ret.
Qed.

Lemma dpy_safe_get_edid h id edid : dpy_safe (vdpy_get_edid h id edid 256).
Proof.
  apply dpy_safe_bind; [by intros d|]. intros d. split_if; [apply dpy_safe_ret|].
  apply dpy_safe_bind; [apply dpy_safe_get_vscr|]. intros v.
  match goal with |- context [let '(_, _) := ?p in _] => destruct p as [px py] end.
  apply dpy_safe_bind.
  { intros d'. unfold lift. destruct (edid_generate_run px py) as (e & -> & _). done. }
  intros e d'. by destruct (256 <=? length edid)%nat.
Qed.

Lemma dpy_safe_cursor_define h id : dpy_safe (vdpy_cursor_define h id).
Proof. apply dpy_safe_ret. Qed.

Lemma dpy_safe_cursor_move h id x y : dpy_safe (vdpy_cursor_move h id x y).
Proof. apply dpy_safe_ret. Qed.

#[export] Hint Resolve dpy_safe_surface_set dpy_safe_surface_update dpy_safe_set_modifier
  dpy_safe_get_display_info dpy_safe_get_edid dpy_safe_cursor_define dpy_safe_cursor_move : gpu.

(** ** Operations on the table and the scanouts *)

Section Operations.
Context `{kn : Known} (env : gpu_env).

Lemma wp_get_scanout id Q g :
  (forall s, nthZ (gpu_scanouts g) id = Some s -> Q s g) -> wp env (get_scanout id) Q g.
Proof. intros H. unfold wp, get_scanout. destruct (nthZ _ _); [by apply H|done]. Qed.

(** A change that keeps the references. *)
Lemma ginv_scanout_keep fi fd g id s s' :
  nthZ (gpu_scanouts g) id = Some s -> cur_img s' = cur_img s -> dma_buf s' = dma_buf s ->
  idle_ok s' -> ginv env fi fd g -> ginv env fi fd (g <| gpu_scanouts ::= fun l => setZ l id s' |>).
Proof.
  intros Hs H1 H2 H3 Hg. eapply ginv_ext; [| |by apply (ginv_set_scanout _ fi fd _ _ s)];
    intros j; rewrite ?H1, ?H2; lia.
Qed.

Lemma scanout_idle fi fd g id s :
  ginv env fi fd g -> nthZ (gpu_scanouts g) id = Some s -> idle_ok s.
Proof.
  intros Hg. unfold nthZ. destruct (0 <=? id); [|done]. apply Forall_lookup_1, Hg.
Qed.

Lemma idle_drop s s' :
  idle_ok s -> sc_is_active s' = sc_is_active s ->
  (cur_img s' = cur_img s \/ cur_img s' = None) -> (dma_buf s' = dma_buf s \/ dma_buf s' = None) ->
  idle_ok s'.
Proof. intros H Ha Hc Hd E. rewrite Ha in E. destruct (H E). intuition congruence. Qed.

Lemma wp_upd_scanout_keep fi fd id f Q g :
  (forall s, nthZ (gpu_scanouts g) id = Some s -> idle_ok s ->
     cur_img (f s) = cur_img s /\ dma_buf (f s) = dma_buf s /\ idle_ok (f s)) ->
  ginv env fi fd g ->
  (forall s, nthZ (gpu_scanouts g) id = Some s ->
     ginv env fi fd (g <| gpu_scanouts ::= fun l => setZ l id (f s) |>) ->
     Q tt (g <| gpu_scanouts ::= fun l => setZ l id (f s) |>)) ->
  wp env (upd_scanout id f) Q g.
Proof.
  intros Hf Hg HQ. apply wp_bind, wp_get_scanout. intros s Hs. apply wp_modify.
  apply HQ; [done|]. destruct (Hf s) as (? & ? & ?); [done|by eapply scanout_idle|].
  by apply (ginv_scanout_keep _ _ _ _ s).
Qed.

(** Dropping what a scanout shows. *)
Lemma wp_drop_dma id s Q g :
  nthZ (gpu_scanouts g) id = Some s -> ginv env none none g ->
  (forall g', ginv env none none g' -> r2d_list g' = r2d_list g ->
     nthZ (gpu_scanouts g') id = Some (s <| dma_buf := None |>) -> Q tt g') ->
  wp env (match dma_buf s with
          | Some _ => _ ← virtio_gpu_dmabuf_unref (dma_buf s);
                      upd_scanout id (fun s => s <| dma_buf := None |>)
          | None => mret tt
          end) Q g.
Proof.
  intros Hs Hg HQ. destruct (dma_buf s) as [i|] eqn:Hd.
  - apply wp_bind. eapply wp_dmabuf_unref; [exact Hg| |].
    { intros j [= <-]. by eapply scanout_dma_live. }
    intros m c Hg1. apply wp_bind, wp_get_scanout. intros s' Hs'. apply wp_modify.
    cbn in Hs'. simplify_eq. apply HQ; [|done|by eapply nthZ_setZ_eq].
    eapply ginv_ext; [| |eapply ginv_set_scanout; [exact Hs|eapply idle_drop; [by eapply scanout_idle|done|by eauto..]|exact Hg1]]; intros j; cbn;
      rewrite ?Hd, ?points_none; unfold none; lia.
  - apply wp_ret, HQ; [done..|]. rewrite Hs. f_equal. destruct s. cbn in *. by subst.
Qed.

Lemma wp_drop_img id s (p : option nat) Q g :
  nthZ (gpu_scanouts g) id = Some s -> cur_img s = p -> ginv env none none g ->
  (forall g', ginv env none none g' -> r2d_list g' = r2d_list g ->
     nthZ (gpu_scanouts g') id = Some (s <| cur_img := None |>) -> Q tt g') ->
  wp env (match p with
          | Some _ => _ ← image_unref p; upd_scanout id (fun s => s <| cur_img := None |>)
          | None => mret tt
          end) Q g.
Proof.
  intros Hs Hp Hg HQ. destruct p as [i|].
  - apply wp_bind. eapply wp_image_unref; [exact Hg| |].
    { intros j [= <-]. by eapply scanout_image_live. }
    intros h Hg1. apply wp_bind, wp_get_scanout. intros s' Hs'. apply wp_modify.
    cbn in Hs'. simplify_eq. apply HQ; [|done|by eapply nthZ_setZ_eq].
    eapply ginv_ext; [| |eapply ginv_set_scanout; [exact Hs|eapply idle_drop; [by eapply scanout_idle|done|by eauto..]|exact Hg1]]; intros j; cbn;
      rewrite ?Hp, ?points_none; unfold none; lia.
  - apply wp_ret, HQ; [done..|]. rewrite Hs. f_equal. destruct s. cbn in *. by subst.
Qed.

Lemma find_resource_some g rid k r :
  virtio_gpu_find_resource_2d g rid = Some (k, r) -> r2d_list g !! k = Some r /\ resource_id r = rid.
Proof. intros H. by apply list_find_Some in H as (? & ? & _). Qed.

(** Showing a resource, or nothing. *)
Lemma wp_update_scanout id rid r Q g :
  ginv env none none g ->
  (forall g', ginv env none none g' -> r2d_list g' = r2d_list g -> Q tt g') ->
  wp env (virtio_gpu_update_scanout id rid r) Q g.
Proof.
  intros Hg HQ. apply wp_bind, wp_get_scanout. intros s Hs.
  apply wp_bind. apply (wp_drop_dma id s); [done|done|]. intros g1 Hg1 Hl1 Hs1.
  apply wp_bind. apply (wp_drop_img id (s <| dma_buf := None |>)); [done|done|done|].
  intros g2 Hg2 Hl2 Hs2.
  apply wp_bind. apply (wp_upd_scanout_keep none none); [done|done|]. intros s3 Hs3 Hg3.
  assert (s3 = s <| dma_buf := None |> <| cur_img := None |>) as -> by congruence. clear Hs3.
  apply nthZ_setZ_eq with (y := s <| dma_buf := None |> <| cur_img := None |> <| sc_resource_id := rid |>) in Hs2.
  set (g3 := g2 <| gpu_scanouts ::= _ |>) in *.
  change (nthZ (gpu_scanouts g3) id = Some (s <| dma_buf := None |> <| cur_img := None |> <| sc_resource_id := rid |>)) in Hs2.
  assert (Hl3 : r2d_list g3 = r2d_list g) by (by rewrite <- Hl1, <- Hl2).
  set (s3 := s <| dma_buf := None |> <| cur_img := None |> <| sc_resource_id := rid |>) in *.
  clearbody g3. clear Hg Hs Hg1 Hl1 Hs1 Hg2 Hl2.
  apply wp_bind, wp_get, wp_bind.
  apply wp_weaken with (P := fun _ g' => ginv env none none g' /\ r2d_list g' = r2d_list g).
  2:{ intros _ g4 [Hg4 Hl4]. apply (wp_upd_scanout_keep none none); [done|done|].
      intros s5 _ Hg5. by apply HQ. }
  destruct (virtio_gpu_find_resource_2d g3 rid) as [[k r2d]|] eqn:Hf.
  2:{ apply (wp_upd_scanout_keep none none); [|done|intros s4 _ Hg4; by split].
      intros s5 Hs5 _. rewrite Hs2 in Hs5. simplify_eq. by split_and!. }
  apply find_resource_some in Hf as [Hk _].
  apply wp_bind. apply (wp_upd_scanout_keep none none); [done|done|]. intros s4 Hs4 Hg4.
  simplify_eq. apply nthZ_setZ_eq with (y := s3 <| sc_is_active := true |>) in Hs2.
  set (g4 := g3 <| gpu_scanouts ::= _ |>) in *.
  change (nthZ (gpu_scanouts g4) id = Some (s3 <| sc_is_active := true |>)) in Hs2.
  change (r2d_list g3) with (r2d_list g4) in Hk, Hl3. clearbody g4.
  destruct (blob r2d) eqn:Hb.
  - apply wp_bind. eapply wp_dmabuf_ref; [exact Hg4| |].
    { intros i Hi. by eapply r2d_dma_live. }
    intros m Hg5. apply wp_bind, wp_get_scanout. intros s5 Hs5. apply wp_modify.
    cbn in Hs5. rewrite Hs2 in Hs5. simplify_eq. split; [|done].
    eapply ginv_ext; [| |eapply ginv_set_scanout; [exact Hs2|done|exact Hg5]]; intros j; cbn;
      rewrite ?points_none; unfold none; lia.
  - apply wp_bind. eapply wp_image_ref; [exact Hg4| |].
    { intros i Hi. by eapply r2d_image_live. }
    intros h Hg5. apply wp_bind, wp_get_scanout. intros s5 Hs5. apply wp_modify.
    cbn in Hs5. rewrite Hs2 in Hs5. simplify_eq. split; [|done].
    eapply ginv_ext; [| |eapply ginv_set_scanout; [exact Hs2|done|exact Hg5]]; intros j; cbn;
      rewrite ?points_none; unfold none; lia.
Qed.
End Operations.

(** ** The resource table *)

(** The side conditions of [ginv_core]. *)
Ltac core_done := first [done | cbn; lia].

Section Table.
Context `{kn : Known} (env : gpu_env).

(** What the invariant depends on. *)
Definition core (g : virtio_gpu) :=
  (r2d_list g, gpu_heap g, gpu_dmabufs g, gpu_scanouts g, scanout_num g).

Lemma granted_mono g g' : (gpu_allocs g <= gpu_allocs g')%nat -> granted env g' -> granted env g.
Proof. intros Hle H n Hn. apply H. lia. Qed.

(** The state may change elsewhere, and more memory may have been asked for. *)
Lemma ginv_core fi fd g g' :
  core g' = core g -> (gpu_allocs g <= gpu_allocs g')%nat -> ginv env fi fd g -> ginv env fi fd g'.
Proof.
  unfold core. intros [= E1 E2 E3 E4 E5] Hle []. split; unfold arrays_live; rewrite ?E1, ?E2, ?E3, ?E4, ?E5; try done.
  - intros j. destruct (gi_img0 j) as [H1 H2]. split; [done|]. intros Hok. by apply H2, (granted_mono g g').
  - intros [Hk|Hok]; apply gi_freed0; [by left|right]. by apply (granted_mono g g').
Qed.

(** [f] changes the backing of a resource only. *)
Definition same_refs (r r' : virtio_gpu_resource_2d) : Prop :=
  rd_image r' = rd_image r /\ dma_info r' = dma_info r /\ blob r' = blob r /\
  resource_id r' = resource_id r.

Lemma total_insert_same {A} (f : A -> option nat) l k x y j :
  l !! k = Some x -> f y = f x -> total f (<[k := y]> l) j = total f l j.
Proof. intros Hk Hf. rewrite (total_insert f l k x y j Hk), Hf. lia. Qed.

Lemma ginv_upd_r2d fi fd g k r f :
  r2d_list g !! k = Some r -> same_refs r (f r) -> iov_ok (f r) ->
  (known \/ granted env g -> ~ freed (rd_iov (f r))) ->
  ginv env fi fd g -> ginv env fi fd (g <| r2d_list ::= alter f k |>).
Proof.
  intros Hk (H1 & H2 & H3 & H4) Hiov Hfr [].
  assert (E : alter f k (r2d_list g) = <[k := f r]> (r2d_list g)).
  { apply list_eq. intros i. destruct (decide (i = k)) as [->|].
    - rewrite list_lookup_alter_eq, Hk, list_lookup_insert_eq by (by eapply lookup_lt_Some). done.
    - by rewrite list_lookup_alter_ne, list_lookup_insert_ne by done. }
  split; try done; unfold arrays_live; cbn; rewrite E.
  - intros j. rewrite (total_insert_same _ _ _ r) by done. apply gi_img0.
  - intros j. rewrite (total_insert_same _ _ _ r) by done. apply gi_dma0.
  - change (map resource_id) with (fmap (M := list) resource_id) in *. rewrite list_fmap_insert, H4, list_insert_id; [done|].
    by rewrite list_lookup_fmap, Hk.
  - apply Forall_insert; [done|]. rewrite H1, H2, H3. by apply (Forall_lookup_1 _ _ _ _ gi_blob0 Hk).
  - by apply Forall_insert.
  - intros Hn. apply Forall_insert; [by apply gi_freed0|by apply Hfr].
Qed.

Lemma ginv_delete fi fd g k r :
  r2d_list g !! k = Some r -> ginv env fi fd g ->
  ginv env (fun j => fi j + points (rd_image r) j) (fun j => fd j + points (dma_info r) j)
    (g <| r2d_list ::= delete k |>).
Proof.
  intros Hk []. split; try done; cbn.
  - intros j. rewrite (total_delete _ _ _ _ _ Hk). cover_lia (gi_img0 j).
  - intros j. rewrite (total_delete _ _ _ _ _ Hk). (pose proof (gi_dma0 j); lia).
  - change (map resource_id) with (fmap (M := list) resource_id) in *.
    eapply sublist_NoDup; [exact gi_ids0|]. apply fmap_sublist, sublist_delete.
  - by apply Forall_delete.
  - by apply Forall_delete.
  - intros Hn. apply Forall_delete. by apply gi_freed0.
Qed.

Lemma ginv_cons fi fd g r :
  (forall k r', r2d_list g !! k = Some r' -> resource_id r' <> resource_id r) ->
  (if blob r then dma_info r <> None /\ rd_image r = None else dma_info r = None) ->
  iov_ok r -> ~ freed (rd_iov r) ->
  ginv env fi fd g ->
  ginv env (fun j => fi j - points (rd_image r) j) (fun j => fd j - points (dma_info r) j)
    (g <| r2d_list ::= cons r |>).
Proof.
  intros Hid Hb Hiov Hfr []. split; try done; cbn.
  - intros j. change (total rd_image (r :: r2d_list g) j) with
      (points (rd_image r) j + total rd_image (r2d_list g) j). cover_lia (gi_img0 j).
  - intros j. change (total dma_info (r :: r2d_list g) j) with
      (points (dma_info r) j + total dma_info (r2d_list g) j). (pose proof (gi_dma0 j); lia).
  - constructor; [|done]. intros Hin. change (map resource_id) with (fmap (M := list) resource_id) in *. apply list_elem_of_fmap in Hin as (r' & Hr' & Hin).
    apply list_elem_of_lookup in Hin as [k Hk]. by apply (Hid k r').
  - by constructor.
  - by constructor.
  - intros Hn. constructor; [done|by apply gi_freed0].
Qed.

Lemma find_resource_none g rid :
  virtio_gpu_find_resource_2d g rid = None ->
  forall k r, r2d_list g !! k = Some r -> resource_id r <> rid.
Proof.
  intros H k r Hk. apply list_find_None in H. by apply (Forall_lookup_1 _ _ _ _ H Hk).
Qed.

(** ** New objects *)

Lemma create_bits_image_ref a1 a2 fmt w h im :
  pixman_image_create_bits a1 a2 fmt w h = Ret (Some im) -> im_ref im = 1.
Proof.
  unfold pixman_image_create_bits, _pixman_bits_image_init, mbind, outcome_bind.
  repeat case_match; intros [= <-]; done.
Qed.

Lemma create_bits_image_stop a1 a2 fmt w h e :
  pixman_image_create_bits a1 a2 fmt w h = Stop e -> e = DivByZero.
Proof.
  unfold pixman_image_create_bits, _pixman_bits_image_init, create_bits,
    _pixman_multiply_overflows_int, _pixman_multiply_overflows_size, mbind, outcome_bind.
  repeat case_match; congruence.
Qed.

(** A created image is held by the command until it is put somewhere. *)
Lemma wp_image_create fi fd fmt w h Q g :
  ginv env fi fd g ->
  (forall g', r2d_list g' = r2d_list g -> ginv env fi fd g' -> Q None g') ->
  (forall i g', r2d_list g' = r2d_list g -> ginv env (fun j => fi j + points (Some i) j) fd g' ->
     Q (Some i) g') ->
  wp env (image_create env fmt w h) Q g.
Proof.
  intros Hg HN HS. apply wp_bind, wp_alloc, wp_bind, wp_alloc, wp_bind, wp_lift.
  2:{ intros e He. apply create_bits_image_stop in He. by subst. }
  intros [im|] Him; [|apply wp_ret, HN; [done|]; (apply (ginv_core _ _ g); core_done)].
  apply create_bits_image_ref in Him.
  assert (Hg2 : ginv env fi fd (g <| gpu_allocs ::= S |> <| gpu_allocs ::= S |>)) by (apply (ginv_core _ _ g); core_done).
  apply wp_bind. unfold wp, new_image. apply wp_ret, HS; [done|]. destruct Hg2. cbn in *.
  set (i := fresh (dom (gpu_heap g))).
  assert (Hi : gpu_heap g !! i = None) by (apply not_elem_of_dom, is_fresh).
  split; try done; cbn.
  - apply map_Forall_insert_2; [lia|done].
  - intros j. rewrite img_count_insert. unfold points at 1. specialize (gi_img0 j).
    case_decide as Hd; [|cover_lia gi_img0]. injection Hd as <-. unfold img_count in gi_img0.
    rewrite Hi in gi_img0. cover_lia gi_img0.
Qed.

Lemma wp_new_dmabuf fi fd b Q g :
  ginv env fi fd g -> db_ref_count b = 1 ->
  (forall i g', r2d_list g' = r2d_list g -> ginv env fi (fun j => fd j + points (Some i) j) g' -> Q i g') ->
  wp env (new_dmabuf b) Q g.
Proof.
  intros Hg Hb HQ. unfold wp, new_dmabuf. apply HQ; [done|]. destruct Hg.
  set (i := fresh (dom (gpu_dmabufs g))).
  assert (Hi : gpu_dmabufs g !! i = None) by (apply not_elem_of_dom, is_fresh).
  split; try done; cbn.
  - apply map_Forall_insert_2; [lia|done].
  - intros j. rewrite dma_count_insert. unfold points at 1. specialize (gi_dma0 j).
    case_decide as Hd; [|lia]. injection Hd as <-. unfold dma_count in gi_dma0.
    rewrite Hi in gi_dma0. lia.
Qed.

(** The array of a listed resource. *)
Lemma listed_array fi fd g k r :
  ginv env fi fd g -> r2d_list g !! k = Some r -> known \/ all_alloc env -> ~ freed (rd_iov r).
Proof.
  intros Hg Hk Hn. assert (Ha : arrays_live g); [|by apply (Forall_lookup_1 _ _ _ _ Ha Hk)].
  apply (gi_freed _ _ _ _ Hg). destruct Hn as [|Hn]; [by left|]. right. intros n _. apply Hn.
Qed.

(** ** Giving a resource back

    The table still lists it, so its pointers are live; afterwards the table
    may hold one reference too many, until the entry goes. *)
Lemma wp_release_r2d k r Q g :
  ginv env none none g -> r2d_list g !! k = Some r ->
  (forall g', r2d_list g' = r2d_list g ->
     ginv env (fun j => - points (rd_image r) j) (fun j => - points (dma_info r) j) g' -> Q tt g') ->
  wp env (release_r2d r) Q g.
Proof.
  intros Hg Hk HQ.
  assert (Hblob : if blob r then dma_info r <> None /\ rd_image r = None else dma_info r = None)
    by (apply (Forall_lookup_1 _ _ _ _ (gi_blob _ _ _ _ Hg) Hk)).
  assert (Hfr : known \/ all_alloc env -> ~ freed (rd_iov r))
    by (intros Hn; by eapply listed_array).
  apply wp_bind.
  apply wp_weaken with (P := fun _ g1 => r2d_list g1 = r2d_list g /\
    ginv env (fun j => - points (rd_image r) j) none g1).
  { destruct (rd_image r) as [i|] eqn:Hi.
    - eapply wp_image_unref; [exact Hg| |].
      { intros j [= <-]. by eapply r2d_image_live. }
      intros h Hg1. split; [done|]. eapply ginv_ext; [| |exact Hg1]; intros j; unfold none; lia.
    - apply wp_ret. split; [done|]. eapply ginv_ext; [| |exact Hg]; intros j;
        rewrite ?points_none; unfold none; lia. }
  intros _ g1 [Hl1 Hg1]. apply wp_bind.
  apply wp_weaken with (P := fun _ g2 => r2d_list g2 = r2d_list g /\
    ginv env (fun j => - points (rd_image r) j) (fun j => - points (dma_info r) j) g2).
  { destruct (blob r).
    - eapply wp_dmabuf_unref; [exact Hg1| |].
      { intros j Hj. eapply r2d_dma_live; [exact Hg1|by rewrite Hl1|done|done]. }
      intros m c Hg2. split; [done|]. eapply ginv_ext; [| |exact Hg2]; intros j; unfold none; lia.
    - apply wp_ret. split; [done|]. rewrite Hblob. eapply ginv_ext; [| |exact Hg1]; intros j;
        rewrite ?points_none; unfold none; lia. }
  intros _ g2 [Hl2 Hg2]. destruct (rd_iov r); try (apply wp_ret; by apply HQ).
  intros _ Hn. by destruct (Hfr Hn).
Qed.
End Table.

(** ** The commands *)

(** A case that does not apply may be left out. *)
Lemma switch_skip {A} k x (cases : list (list Z * A)) dflt :
  (forall c, cases !! k = Some c -> existsb (Z.eqb x) c.1 = false) ->
  switch x cases dflt = switch x (delete k cases) dflt.
Proof.
  revert k. induction cases as [|[ks a] cases IH]; intros k Hk; [done|]. destruct k as [|k]; simpl.
  - pose proof (Hk (ks, a) eq_refl) as E. cbn in E. by rewrite E.
  - rewrite <- IH by (intros c Hc; by apply Hk). done.
Qed.

(** A change of the mapping, the display and the counters only. *)
Lemma inv_core `{kn : Known} env g g' :
  core g' = core g -> (gpu_allocs g <= gpu_allocs g')%nat -> gpu_inv env g -> gpu_inv env g'.
Proof. apply ginv_core. Qed.

Ltac wp_step :=
  lazymatch goal with
  | |- wp _ (mbind _ _) _ _ => apply wp_bind
  | |- wp _ (mret _) _ _ => apply wp_ret
  | |- wp _ get _ _ => apply wp_get
  | |- wp _ (modify _) _ _ => apply wp_modify
  | |- wp _ (upd_r2d _ _) _ _ => apply wp_modify
  | |- wp _ (halt _) _ _ => by apply wp_halt
  | |- wp _ (read_req _ _) _ _ => apply wp_read_req; intros ?
  | |- wp _ (mem_read _ _) _ _ => apply wp_mem_read; intros ?
  | |- wp _ (iov_at _ _) _ _ => apply wp_iov_at; intros ?
  | |- wp _ (respond _ _ _) _ _ => apply wp_respond; intros ?
  | |- wp _ (put_resp _ _ _) _ _ => apply wp_put_resp; intros ?
  | |- wp _ (alloc _) _ _ => apply wp_alloc
  | |- wp _ (on_dpy _) _ _ => apply wp_on_dpy; [auto with gpu|intros ? ?]
  | |- wp _ (if ?b then _ else _) _ _ => destruct b eqn:?
  | |- wp _ (let _ := _ in _) _ _ => cbv zeta
  end.

(** Straight-line code that leaves the core alone, to its end. *)
Ltac wp_core g := repeat wp_step; apply (inv_core _ g); core_done.

Section Commands.
Context `{kn : Known} (env : gpu_env).
Implicit Types g : virtio_gpu.

Lemma unspec_inv cmd g : gpu_inv env g -> wp env (virtio_gpu_cmd_unspec cmd) (fun _ => gpu_inv env) g.
Proof. intros Hg. unfold virtio_gpu_cmd_unspec. wp_core g. Qed.

Lemma get_edid_inv cmd g : gpu_inv env g -> wp env (virtio_gpu_cmd_get_edid cmd) (fun _ => gpu_inv env) g.
Proof. intros Hg. unfold virtio_gpu_cmd_get_edid. wp_core g. Qed.

Lemma wp_display_modes n i inf pm Q g :
  (forall pm' g', core g' = core g -> gpu_allocs g' = gpu_allocs g -> Q pm' g') -> wp env (display_modes n i inf pm) Q g.
Proof.
  revert i inf pm g. induction n as [|n IH]; intros i inf pm g HQ; cbn [display_modes].
  { by apply wp_ret, HQ. }
  do 4 wp_step. destruct a as [v|]; [|by wp_step]. wp_step; [by wp_step|].
  apply IH. intros pm' g' E E'. by apply HQ.
Qed.

Lemma get_display_info_inv cmd g :
  gpu_inv env g -> wp env (virtio_gpu_cmd_get_display_info cmd) (fun _ => gpu_inv env) g.
Proof.
  intros Hg. unfold virtio_gpu_cmd_get_display_info. do 3 wp_step. apply wp_display_modes.
  intros pm g' E E'. repeat wp_step. apply (inv_core _ g); [done|by cbn; rewrite E'|done].
Qed.

Lemma create_resource_inv rid fmt w h g :
  gpu_inv env g -> wp env (create_resource env rid fmt w h) (fun _ => gpu_inv env) g.
Proof.
  intros Hg. unfold create_resource. do 2 wp_step.
  destruct (virtio_gpu_find_resource_2d g rid) as [[k r]|] eqn:Hf; [by wp_step|].
  do 2 wp_step. wp_step; [|wp_step; (apply (inv_core _ g); core_done)].
  wp_step. eapply (wp_image_create env none none); [(apply (inv_core _ g); core_done)| |].
  { intros g' _ Hg'. by wp_step. }
  intros i g' Hl Hg'. repeat wp_step.
  eapply ginv_ext; [| |apply (ginv_cons env (fun j => none j + points (Some i) j) none);
    [|done|done|done|exact Hg']].
  - intros j. cbn. unfold none. lia.
  - intros j. cbn. change (points None j) with 0. unfold none. lia.
  - intros k r' Hk. cbn. rewrite Hl in Hk. eapply find_resource_none; [exact Hf|exact Hk].
Qed.

Lemma create_2d_inv cmd g :
  gpu_inv env g -> wp env (virtio_gpu_cmd_resource_create_2d env cmd) (fun _ => gpu_inv env) g.
Proof.
  intros Hg. unfold virtio_gpu_cmd_resource_create_2d. do 3 wp_step.
  eapply wp_weaken; [by apply create_resource_inv|]. intros t g' Hg'. wp_core g'.
Qed.

Lemma destroy_resource_inv rid g :
  gpu_inv env g -> wp env (destroy_resource rid) (fun _ => gpu_inv env) g.
Proof.
  intros Hg. unfold destroy_resource. do 2 wp_step.
  destruct (virtio_gpu_find_resource_2d g rid) as [[k r]|] eqn:Hf; [|by wp_step].
  apply find_resource_some in Hf as [Hk _].
  wp_step. eapply wp_release_r2d; [exact Hg|exact Hk|]. intros g' Hl Hg'. do 3 wp_step.
  eapply ginv_ext; [| |eapply ginv_delete; [by rewrite Hl|exact Hg']];
    intros j; cbn; unfold none; lia.
Qed.

Lemma unref_inv cmd g :
  gpu_inv env g -> wp env (virtio_gpu_cmd_resource_unref cmd) (fun _ => gpu_inv env) g.
Proof.
  intros Hg. unfold virtio_gpu_cmd_resource_unref. do 3 wp_step.
  eapply wp_weaken; [by apply destroy_resource_inv|]. intros t g' Hg'. wp_core g'.
Qed.

Lemma wp_gather n cmd i off buf Q g :
  (forall buf', Q buf' g) -> wp env (gather n cmd i off buf) Q g.
Proof.
  revert i off buf. induction n as [|n IH]; intros i off buf HQ; cbn [gather]; [by wp_step|].
  do 4 wp_step. wp_step; [by apply IH|by wp_step].
Qed.

Lemma wp_read_entries cmd nr Q g :
  (forall buf, Q (entries_of buf (Z.to_nat nr)) g) -> wp env (read_entries cmd nr) Q g.
Proof. intros HQ. apply wp_bind, wp_gather. intros buf. by apply wp_ret. Qed.

Lemma length_backing s buf nr :
  0 <= nr -> nr = Z.of_nat (length (backing s (entries_of buf (Z.to_nat nr)))).
Proof. intros. unfold backing, entries_of. rewrite !length_map, length_seq. lia. Qed.

(** Attaching a backing leaves a freed array behind when its second request is refused. *)
Definition attach_granted g : Prop := known -> env_alloc env (S (gpu_allocs g)) = true.

Lemma attach_entries_inv cmd k r nr g :
  r2d_list g !! k = Some r -> 0 <= nr -> attach_granted g ->
  gpu_inv env g -> wp env (attach_entries env cmd k nr) (fun _ => gpu_inv env) g.
Proof.
  intros Hk Hnr Hatt Hg. unfold attach_entries. do 2 wp_step. wp_step; [|wp_step; (apply (inv_core _ g); core_done)].
  do 2 wp_step. wp_step.
  - wp_step. apply wp_read_entries. intros buf. repeat wp_step.
    eapply ginv_upd_r2d; [exact Hk|done| |done|(apply (inv_core _ g); core_done)].
    by apply length_backing.
  - repeat wp_step. eapply ginv_upd_r2d; [exact Hk|done|done| |(apply (inv_core _ g); core_done)].
    cbn in *. intros [Hn|Hn]; [rewrite (Hatt Hn) in *; done|]. rewrite (Hn (S (gpu_allocs g))) in *; [done|cbn; lia].
Qed.

Lemma attach_inv cmd g :
  attach_granted g -> gpu_inv env g -> wp env (virtio_gpu_cmd_resource_attach_backing env cmd) (fun _ => gpu_inv env) g.
Proof.
  intros Hatt Hg. unfold virtio_gpu_cmd_resource_attach_backing. do 2 wp_step.
  wp_step; [wp_core g|]. do 3 wp_step.
  apply wp_weaken with (P := fun _ => gpu_inv env).
  2:{ intros t g' Hg'. wp_core g'. }
  destruct (virtio_gpu_find_resource_2d _ _) as [[k r]|] eqn:Hf; [|by wp_step].
  apply find_resource_some in Hf as [Hk _].
  wp_step; [|by wp_step]. wp_step. eapply wp_weaken; [eapply attach_entries_inv; [exact Hk|lia|done|done]|].
  intros ok g' Hg'. by wp_step.
Qed.

Lemma detach_inv cmd g :
  gpu_inv env g -> wp env (virtio_gpu_cmd_resource_detach_backing cmd) (fun _ => gpu_inv env) g.
Proof.
  intros Hg. unfold virtio_gpu_cmd_resource_detach_backing. do 5 wp_step.
  apply wp_weaken with (P := fun _ => gpu_inv env).
  2:{ intros t g' Hg'. wp_core g'. }
  destruct (virtio_gpu_find_resource_2d _ _) as [[k r]|] eqn:Hf; [|by wp_step].
  apply find_resource_some in Hf as [Hk _].
  destruct (rd_iov r) eqn:Hi; [by wp_step| |].
  - repeat wp_step. eapply ginv_upd_r2d; [exact Hk|done|done| |done]. by intros _.
  - wp_step. intros _ Hn. apply (listed_array _ _ _ _ _ _ Hg Hk Hn). by rewrite Hi.
Qed.

(** *** Scanout *)

Definition live g (p : option nat) : Prop := forall i, p = Some i -> 1 <= img_count (gpu_heap g) i.

Lemma r2d_live fi fd g k r :
  ginv env fi fd g -> r2d_list g !! k = Some r -> (forall j, 0 <= fi j) -> live g (rd_image r).
Proof. intros Hg Hk Hf i Hi. by eapply r2d_image_live. Qed.

Lemma image_at_live g p e : live g p -> image_at (gpu_heap g) p = Stop e -> e <> UseAfterFree.
Proof.
  intros Hl. unfold image_at. destruct p as [i|]; [|by intros [= <-]].
  destruct (img_count_live _ _ (Hl i eq_refl)) as (im & -> & _). done.
Qed.

Lemma wp_ask_heap {A} (f : heap -> outcome A) Q g :
  (forall a, Q a g) -> (forall e, f (gpu_heap g) = Stop e -> e <> UseAfterFree) ->
  wp env (ask_heap f) Q g.
Proof.
  intros HQ Hf. unfold wp, ask_heap. destruct (f (gpu_heap g)) eqn:E; [done|].
  intros ->. by destruct (Hf _ eq_refl).
Qed.

Lemma wp_get_data p Q g :
  live g p -> (forall a, Q a g) -> wp env (ask_heap (fun h => pixman_image_get_data h p)) Q g.
Proof.
  intros Hl HQ. apply wp_ask_heap; [done|]. intros e. unfold pixman_image_get_data, mbind, outcome_bind.
  destruct (image_at _ _) as [[]|] eqn:E; [done|]. intros [= <-]. by eapply image_at_live.
Qed.

Lemma wp_get_stride p Q g :
  live g p -> (forall a, Q a g) -> wp env (ask_heap (fun h => pixman_image_get_stride h p)) Q g.
Proof.
  intros Hl HQ. apply wp_ask_heap; [done|]. intros e. unfold pixman_image_get_stride, mbind, outcome_bind.
  destruct (image_at _ _) as [[]|] eqn:E; [done|]. intros [= <-]. by eapply image_at_live.
Qed.

Lemma wp_get_format p Q g :
  live g p -> (forall a, Q a g) -> wp env (ask_heap (fun h => pixman_image_get_format h p)) Q g.
Proof.
  intros Hl HQ. apply wp_ask_heap; [done|]. intros e. unfold pixman_image_get_format, mbind, outcome_bind.
  destruct (image_at _ _) as [[]|] eqn:E; [done|]. intros [= <-]. by eapply image_at_live.
Qed.

Lemma wp_image_surface r2d r Q g :
  live g (rd_image r2d) -> (forall sf, Q sf g) -> wp env (image_surface r2d r) Q g.
Proof.
  intros Hl HQ. apply wp_bind, wp_get_data; [done|]. intros data.
  apply wp_bind, wp_get_stride; [done|]. intros stride. cbv zeta. by wp_step.
Qed.

(** Taking a reference to a listed image, and giving it back. *)
Definition held p g : Prop := ginv env (points p) none g.

Lemma none_nonneg j : 0 <= none j.
Proof. done. Qed.

Lemma held_live p g k r :
  held p g -> r2d_list g !! k = Some r -> p = rd_image r -> live g p.
Proof. intros Hg Hk ->. eapply r2d_live; [exact Hg|exact Hk|]. intros j. apply points_bound. Qed.

Lemma wp_take_image k r Q g :
  gpu_inv env g -> r2d_list g !! k = Some r ->
  (forall g', held (rd_image r) g' -> r2d_list g' !! k = Some r -> Q tt g') ->
  wp env (image_ref (rd_image r)) Q g.
Proof.
  intros Hg Hk HQ. eapply wp_image_ref; [exact Hg|eapply r2d_live; [exact Hg|exact Hk|apply none_nonneg]|].
  intros h Hg1. apply HQ; [|done]. eapply ginv_ext; [| |exact Hg1]; intros j; unfold none; lia.
Qed.

Lemma wp_give_image k r Q g :
  held (rd_image r) g -> r2d_list g !! k = Some r ->
  (forall g', gpu_inv env g' -> r2d_list g' = r2d_list g -> Q tt g') ->
  wp env (image_unref (rd_image r)) Q g.
Proof.
  intros Hg Hk HQ. eapply wp_image_unref; [exact Hg|by eapply held_live|].
  intros h Hg1. apply HQ; [|done]. eapply ginv_ext; [| |exact Hg1]; intros j; unfold none; lia.
Qed.

Lemma set_scanout_inv cmd g :
  gpu_inv env g -> wp env (virtio_gpu_cmd_set_scanout cmd) (fun _ => gpu_inv env) g.
Proof.
  intros Hg. unfold virtio_gpu_cmd_set_scanout. wp_step. wp_step. wp_step. wp_step.
  cbv zeta. wp_step; [wp_core g|]. wp_step.
  apply (wp_upd_scanout_keep env none none); [done|done|]. intros s Hs Hg1.
  set (g1 := g <| gpu_scanouts ::= _ |>) in *.
  destruct (if _ =? 0 then None else _) as [[k r2d]|] eqn:Hf.
  2:{ wp_step. apply wp_update_scanout; [done|]. intros g2 Hg2 _. wp_core g2. }
  assert (Hk : r2d_list g1 !! k = Some r2d).
  { destruct (_ =? 0) in Hf; [done|]. by apply find_resource_some in Hf as [? _]. }
  clearbody g1. wp_step.
  apply wp_weaken with (P := fun _ => gpu_inv env); [|intros t g2 Hg2; wp_core g2].
  wp_step; [by wp_step|]. wp_step. apply wp_update_scanout; [done|]. intros g2 Hg2 Hl2.
  wp_step. eapply wp_take_image; [exact Hg2|by rewrite Hl2|]. intros g3 Hg3 Hk3.
  wp_step. apply wp_image_surface; [by eapply held_live|]. intros sf. do 2 wp_step.
  wp_step. eapply wp_give_image; [(apply (ginv_core _ _ _ g3); core_done)|exact Hk3|]. intros g4 Hg4 _. by wp_step.
Qed.

(** *** Transfer *)

Lemma wp_image_write k r off bs Q g :
  held (rd_image r) g -> r2d_list g !! k = Some r ->
  (forall g', held (rd_image r) g' -> r2d_list g' = r2d_list g -> Q tt g') ->
  wp env (on_heap (fun h => image_write h (rd_image r) off bs)) Q g.
Proof.
  intros Hg Hk HQ. unfold wp, on_heap, image_write.
  destruct bs as [|b bs]; [destruct g; by apply HQ|].
  destruct (image_at (gpu_heap g) (rd_image r)) as [[i im]|e] eqn:E.
  2:{ cbn. intros ->. exfalso. eapply image_at_live; [eapply held_live; [exact Hg|exact Hk|done]|exact E|done]. }
  cbn [mbind outcome_bind]. destruct (im_bits im) as [size|]; [|done].
  destruct (_ && _); [|done]. apply HQ; [|done].
  unfold image_at in E. destruct (rd_image r) as [i'|] eqn:Hr; [|done].
  destruct (gpu_heap g !! i') as [im'|] eqn:Hi; [|done]. inv_ret.
  destruct Hg. split; try done; cbn.
  - apply map_Forall_insert_2; [|done]. cbn. by apply (map_Forall_lookup_1 _ _ _ _ gi_heap0 Hi).
  - intros j. rewrite img_count_insert. specialize (gi_img0 j). case_decide as Hd; [|exact gi_img0].
    injection Hd as <-. unfold img_count in gi_img0. rewrite Hi in gi_img0. exact gi_img0.
Qed.

Lemma wp_copy_row iovs k r dst src_offset n total Q g :
  held (rd_image r) g -> r2d_list g !! k = Some r ->
  (forall g', held (rd_image r) g' -> r2d_list g' = r2d_list g -> Q tt g') ->
  wp env (copy_row iovs (rd_image r) dst src_offset n total) Q g.
Proof.
  intros Hg Hk HQ. revert src_offset n g Hg Hk HQ.
  induction iovs as [|io iovs IH]; intros src_offset n g Hg Hk HQ; cbn [copy_row].
  { wp_step. by apply HQ. }
  destruct (iov_base io) as [base|]; [|by apply IH].
  wp_step; [by apply IH|]. wp_step; [|by apply IH]. cbv zeta. do 2 wp_step.
  wp_step. eapply wp_image_write; [exact Hg|exact Hk|]. intros g1 Hg1 Hl1. cbv zeta.
  wp_step; [wp_step; by apply HQ|]. apply IH; [done|by rewrite Hl1|].
  intros g2 Hg2 Hl2. apply HQ; [done|congruence].
Qed.

Lemma iov_entries_stop g k r e :
  held (rd_image r) g -> r2d_list g !! k = Some r -> iov_entries r = Stop e -> may_stop env e.
Proof.
  intros Hg Hk. unfold iov_entries. destruct (_ =? 0); [done|].
  destruct (rd_iov r) as [|l|] eqn:Hi; [by intros [= <-]|by destruct (_ <=? _); intros [= <-]|].
  intros _ _ Hn. apply (listed_array _ _ _ _ _ _ Hg Hk Hn). by rewrite Hi.
Qed.

Lemma wp_copy_rows n k r rc offset stride bpp width h Q g :
  held (rd_image r) g -> r2d_list g !! k = Some r ->
  (forall g', held (rd_image r) g' -> r2d_list g' = r2d_list g -> Q tt g') ->
  wp env (copy_rows n r rc offset stride bpp width h) Q g.
Proof.
  revert h g. induction n as [|n IH]; intros h g Hg Hk HQ; cbn [copy_rows].
  { wp_step. by apply HQ. }
  wp_step. apply wp_lift; [|intros e He; by eapply iov_entries_stop]. intros iovs _.
  wp_step. eapply wp_copy_row; [exact Hg|exact Hk|]. intros g1 Hg1 Hl1.
  apply IH; [done|by rewrite Hl1|]. intros g2 Hg2 Hl2. apply HQ; [done|congruence].
Qed.

Lemma transfer_image_inv k r rc offset g :
  gpu_inv env g -> r2d_list g !! k = Some r ->
  wp env (transfer_image r rc offset) (fun _ => gpu_inv env) g.
Proof.
  intros Hg Hk. unfold transfer_image. wp_step. eapply wp_take_image; [exact Hg|exact Hk|].
  intros g1 Hg1 Hk1.
  wp_step. apply wp_get_stride; [by eapply held_live|]. intros stride.
  wp_step. apply wp_get_format; [by eapply held_live|]. intros fmt. cbv zeta.
  wp_step. eapply wp_copy_rows; [exact Hg1|exact Hk1|]. intros g2 Hg2 Hl2.
  eapply wp_give_image; [exact Hg2|by rewrite Hl2|]. by intros g3 Hg3 _.
Qed.

Lemma transfer_inv cmd g :
  gpu_inv env g -> wp env (virtio_gpu_cmd_transfer_to_host_2d cmd) (fun _ => gpu_inv env) g.
Proof.
  intros Hg. unfold virtio_gpu_cmd_transfer_to_host_2d. do 4 wp_step. cbv zeta.
  destruct (virtio_gpu_find_resource_2d _ _) as [[k r]|] eqn:Hf; [|wp_core g].
  apply find_resource_some in Hf as [Hk _]. wp_step; [wp_core g|]. wp_step.
  apply wp_weaken with (P := fun _ => gpu_inv env); [|intros t g2 Hg2; wp_core g2].
  wp_step; [by wp_step|]. wp_step.
  eapply wp_weaken; [by eapply transfer_image_inv|]. intros [] g1 Hg1. by wp_step.
Qed.

(** *** Flush *)

(** The surfaces are built from live objects. *)
Lemma wp_flush_scanouts (I : virtio_gpu -> Prop) n i rid r surf Q g :
  (forall d g, I g -> I (g <| vdpy := d |>)) ->
  (forall s g (Q' : surface -> virtio_gpu -> Prop), I g -> (forall sf, Q' sf g) -> wp env (surf s) Q' g) ->
  I g -> (forall g', I g' -> Q tt g') ->
  wp env (flush_scanouts n i rid r surf) Q g.
Proof.
  intros Hd Hs. revert i g. induction n as [|n IH]; intros i g Hg HQ; cbn [flush_scanouts].
  { wp_step. by apply HQ. }
  wp_step. apply wp_get_scanout. intros s _. wp_step.
  apply wp_weaken with (P := fun _ => I); [|intros _ g' Hg'; by apply IH].
  wp_step; [|by wp_step]. wp_step. apply Hs; [done|]. intros sf. wp_step. wp_step.
  apply wp_on_dpy; [auto with gpu|]. intros a d. by apply Hd.
Qed.

Lemma wp_dmabuf_surface r Q g :
  (forall i, dma_info r = Some i -> 1 <= dma_count (gpu_dmabufs g) i) ->
  (forall sf, Q sf g) -> wp env (dmabuf_surface r) Q g.
Proof.
  intros Hl HQ. unfold wp, dmabuf_surface. destruct (dma_info r) as [i|]; [|done].
  destruct (dma_live g i) as (b & -> & _); [by apply Hl|]. apply HQ.
Qed.

(** A reference to a listed dma-buf. *)
Definition dma_held p g : Prop := ginv env none (points p) g.

Lemma wp_take_dma k r Q g :
  gpu_inv env g -> r2d_list g !! k = Some r ->
  (forall g', dma_held (dma_info r) g' -> r2d_list g' !! k = Some r -> Q tt g') ->
  wp env (virtio_gpu_dmabuf_ref (dma_info r)) Q g.
Proof.
  intros Hg Hk HQ. eapply wp_dmabuf_ref; [exact Hg| |].
  { intros i Hi. by eapply r2d_dma_live. }
  intros m Hg1. apply HQ; [|done]. eapply ginv_ext; [| |exact Hg1]; intros j; unfold none; lia.
Qed.

Lemma dma_held_live p g k r :
  dma_held p g -> r2d_list g !! k = Some r -> p = dma_info r ->
  forall i, p = Some i -> 1 <= dma_count (gpu_dmabufs g) i.
Proof.
  intros Hg Hk -> i Hi. eapply r2d_dma_live; [exact Hg|exact Hk|done|apply points_bound].
Qed.

Lemma wp_give_dma k r Q g :
  dma_held (dma_info r) g -> r2d_list g !! k = Some r ->
  (forall g', gpu_inv env g' -> Q tt g') -> wp env (virtio_gpu_dmabuf_unref (dma_info r)) Q g.
Proof.
  intros Hg Hk HQ. eapply wp_dmabuf_unref; [exact Hg|by eapply dma_held_live|].
  intros m c Hg1. apply HQ. eapply ginv_ext; [| |exact Hg1]; intros j; unfold none; lia.
Qed.

Lemma flush_inv cmd g :
  gpu_inv env g -> wp env (virtio_gpu_cmd_resource_flush cmd) (fun _ => gpu_inv env) g.
Proof.
  intros Hg. unfold virtio_gpu_cmd_resource_flush. do 4 wp_step. cbv zeta.
  destruct (virtio_gpu_find_resource_2d _ _) as [[k r]|] eqn:Hf; [|wp_core g].
  apply find_resource_some in Hf as [Hk _]. wp_step.
  - wp_step. eapply wp_take_dma; [exact Hg|exact Hk|]. intros g1 Hg1 Hk1. wp_step.
    apply (wp_flush_scanouts (fun g => dma_held (dma_info r) g /\ r2d_list g !! k = Some r)).
    + intros d g2 [Hg2 Hk2]. split; [|done]. (apply (ginv_core _ _ _ g2); core_done).
    + intros s g2 Q' [Hg2 Hk2] HQ'. apply wp_dmabuf_surface; [by eapply dma_held_live|done].
    + done.
    + intros g2 [Hg2 Hk2]. wp_step. eapply wp_give_dma; [exact Hg2|exact Hk2|]. intros g3 Hg3. wp_core g3.
  - wp_step. eapply wp_take_image; [exact Hg|exact Hk|]. intros g1 Hg1 Hk1. wp_step.
    apply (wp_flush_scanouts (fun g => held (rd_image r) g /\ r2d_list g !! k = Some r)).
    + intros d g2 [Hg2 Hk2]. split; [|done]. (apply (ginv_core _ _ _ g2); core_done).
    + intros s g2 Q' [Hg2 Hk2] HQ'. apply wp_image_surface; [by eapply held_live|done].
    + done.
    + intros g2 [Hg2 Hk2]. wp_step. eapply wp_give_image; [exact Hg2|exact Hk2|]. intros g3 Hg3 _. wp_core g3.
Qed.

(** *** Blob resources *)

Lemma wp_create_udmabuf es Q g :
  gpu_inv env g ->
  (forall g', gpu_inv env g' -> r2d_list g' = r2d_list g -> Q None g') ->
  (forall i g', ginv env none (points (Some i)) g' -> r2d_list g' = r2d_list g -> Q (Some i) g') ->
  wp env (virtio_gpu_create_udmabuf env es) Q g.
Proof.
  intros Hg HN HS. unfold virtio_gpu_create_udmabuf. wp_step; [wp_step; by apply HN|].
  do 4 wp_step. wp_step; [wp_step; apply HN; [(apply (inv_core _ g); core_done)|done]|].
  do 3 wp_step.
  apply wp_weaken with (P := fun _ g' => gpu_inv env g' /\ r2d_list g' = r2d_list g).
  { destruct (udmabuf_items _ es) as [items|]; [|wp_step; split; [(apply (inv_core _ g); core_done)|done]].
    split; [(apply (inv_core _ g); core_done)|done]. }
  intros fd g1 [Hg1 Hl1]. wp_step; [wp_step; by apply HN|].
  wp_step. eapply wp_new_dmabuf; [exact Hg1|done|]. intros i g2 Hl2 Hg2. wp_step.
  apply HS; [|congruence]. eapply ginv_ext; [| |exact Hg2]; intros j; unfold none; lia.
Qed.

(** The resource a blob command is about to list, with what it points to. *)
Definition blob_ready rid l (res : virtio_gpu_resource_2d + Z) g : Prop :=
  r2d_list g = l /\
  match res with
  | inl r => resource_id r = rid /\ iov_ok r /\ ~ freed (rd_iov r) /\
             (if blob r then dma_info r <> None /\ rd_image r = None else dma_info r = None) /\
             ginv env (points (rd_image r)) (points (dma_info r)) g
  | inr _ => gpu_inv env g
  end.

Lemma blob_resource_ready cmd rid nr size g :
  gpu_inv env g ->
  wp env (blob_resource env cmd rid nr size) (blob_ready rid (r2d_list g)) g.
Proof.
  intros Hg. unfold blob_resource. wp_step.
  2:{ wp_step. split; [done|]. split_and!; try done. }
  do 2 wp_step. wp_step; [wp_step; split; [done|(apply (inv_core _ g); core_done)]|].
  wp_step. apply wp_read_entries. intros buf. wp_step.
  - wp_step. apply wp_create_udmabuf; [(apply (inv_core _ g); core_done)|..].
    + intros g1 Hg1 Hl1. wp_step. by split.
    + intros i g1 Hg1 Hl1. wp_step. split; [done|]. by split_and!.
  - wp_step. eapply (wp_image_create env none none); [(apply (inv_core _ g); core_done)|..].
    + intros g1 Hl1 Hg1. do 2 wp_step. wp_step; [wp_step; split; [done|(apply (inv_core _ g1); core_done)]|].
      do 3 wp_step. split; [done|]. split_and!; try done.
      * cbn. by apply length_backing, Z.lt_le_incl, Z.ltb_lt.
      * cbn. (apply (inv_core _ g1); core_done).
    + intros i g1 Hl1 Hg1.
      assert (Hh : ginv env (points (Some i)) none g1)
        by (eapply ginv_ext; [| |exact Hg1]; intros j; unfold none; lia).
      do 2 wp_step. wp_step.
      * wp_step. split; [done|]. eapply ginv_leak; [|intros j; apply points_bound|].
        -- intros Hn. match goal with H : negb _ = true |- _ => rewrite (Hn _ ltac:(apply Nat.lt_succ_diag_r)) in H; done end.
        -- apply (ginv_core _ _ _ g1); [done|core_done|exact Hh].
      * do 3 wp_step. split; [done|]. split_and!; try done.
        -- cbn. by apply length_backing, Z.lt_le_incl, Z.ltb_lt.
        -- cbn. eapply ginv_ext; [| |apply (ginv_core _ _ _ g1); [done|core_done|exact Hh]];
             intros j; unfold none; rewrite ?points_none; lia.
Qed.

Lemma create_blob_inv cmd g :
  gpu_inv env g -> wp env (virtio_gpu_cmd_create_blob env cmd) (fun _ => gpu_inv env) g.
Proof.
  intros Hg. unfold virtio_gpu_cmd_create_blob. do 2 wp_step. cbv zeta.
  wp_step; [wp_core g|]. wp_step; [wp_core g|]. wp_step; [wp_core g|]. do 2 wp_step.
  destruct (virtio_gpu_find_resource_2d _ _) as [[k r]|] eqn:Hf; [wp_core g|].
  do 2 wp_step. wp_step; [wp_core g|]. wp_step.
  eapply wp_weaken; [apply blob_resource_ready; (apply (inv_core _ g); core_done)|].
  intros [r|t] g1 [Hl1 H1]; [|wp_core g1].
  destruct H1 as (Hid & Hiov & Hfr & Hb & Hg1). do 4 wp_step.
  apply (inv_core _ (g1 <| r2d_list ::= cons r |>)); [done|core_done|].
  eapply ginv_ext; [| |apply (ginv_cons env (points (rd_image r)) (points (dma_info r)));
    [|exact Hb|exact Hiov|exact Hfr|exact Hg1]].
  - intros j. cbn. unfold none. lia.
  - intros j. cbn. unfold none. lia.
  - intros k r' Hk. rewrite Hid. rewrite Hl1 in Hk. eapply find_resource_none; [exact Hf|exact Hk].
Qed.

Lemma set_modifier_inv cmd g :
  gpu_inv env g -> wp env (virtio_gpu_cmd_set_modifier cmd) (fun _ => gpu_inv env) g.
Proof. intros Hg. unfold virtio_gpu_cmd_set_modifier. do 4 wp_step. wp_step; wp_core g. Qed.

Lemma set_scanout_blob_inv cmd g :
  gpu_inv env g -> wp env (virtio_gpu_cmd_set_scanout_blob cmd) (fun _ => gpu_inv env) g.
Proof.
  intros Hg. unfold virtio_gpu_cmd_set_scanout_blob. do 6 wp_step. cbv zeta.
  wp_step; [wp_core g|]. wp_step.
  apply (wp_upd_scanout_keep env none none); [done|(apply (inv_core _ g); core_done)|]. intros s Hs Hg1.
  set (g0 := g <| vga_enable := false |>) in *. set (g1 := _ <| gpu_scanouts ::= _ |>) in *.
  assert (Hl1 : r2d_list g1 = r2d_list g0) by done. clearbody g1.
  wp_step.
  { wp_step. apply wp_update_scanout; [done|]. intros g2 Hg2 _. wp_core g2. }
  destruct (virtio_gpu_find_resource_2d _ _) as [[k r2d]|] eqn:Hf; [|wp_core g1].
  apply find_resource_some in Hf as [Hk _]. wp_step; [by apply set_scanout_inv|].
  wp_step. apply wp_update_scanout; [done|]. intros g2 Hg2 Hl2. wp_step.
  eapply wp_take_dma; [exact Hg2|by rewrite Hl2, Hl1|]. intros g3 Hg3 Hk3. wp_step.
  apply wp_dmabuf_surface; [by eapply dma_held_live|]. intros sf. do 7 wp_step.
  eapply wp_give_dma; [(apply (ginv_core _ _ _ g3); core_done)|exact Hk3|]. intros g4 Hg4. by wp_step.
Qed.

(** *** Cursor *)

Lemma update_cursor_inv cmd g :
  gpu_inv env g -> wp env (virtio_gpu_cmd_update_cursor cmd) (fun _ => gpu_inv env) g.
Proof.
  intros Hg. unfold virtio_gpu_cmd_update_cursor. do 4 wp_step. cbv zeta. wp_step; [|by wp_step].
  destruct (virtio_gpu_find_resource_2d _ _) as [[k r]|] eqn:Hf; [|by wp_step].
  apply find_resource_some in Hf as [Hk _]. wp_step.
  eapply wp_take_image; [exact Hg|exact Hk|]. intros g1 Hg1 Hk1. wp_step.
  apply wp_get_data; [by eapply held_live|]. intros data. do 3 wp_step.
  eapply wp_give_image; [(apply (ginv_core _ _ _ g1); core_done)|exact Hk1|]. intros g2 Hg2 _. by wp_step.
Qed.

Lemma move_cursor_inv cmd g :
  gpu_inv env g -> wp env (virtio_gpu_cmd_move_cursor cmd) (fun _ => gpu_inv env) g.
Proof. intros Hg. unfold virtio_gpu_cmd_move_cursor. wp_core g. Qed.

(** *** Dispatch *)

#[local] Hint Resolve unspec_inv get_edid_inv get_display_info_inv create_2d_inv unref_inv attach_inv
  detach_inv set_scanout_inv transfer_inv flush_inv create_blob_inv set_scanout_blob_inv
  set_modifier_inv update_cursor_inv move_cursor_inv : gpu_cmd.

(** Only one command attaches a backing. *)
Lemma ctrl_command_inv cmd g :
  (h_type (c_hdr cmd) = VIRTIO_GPU_CMD_RESOURCE_ATTACH_BACKING -> attach_granted g) ->
  gpu_inv env g -> wp env (ctrl_command env cmd) (fun _ => gpu_inv env) g.
Proof.
  intros Hatt Hg. unfold ctrl_command. do 2 wp_step.
  destruct (Z.eqb_spec (h_type (c_hdr cmd)) VIRTIO_GPU_CMD_RESOURCE_ATTACH_BACKING) as [E|E].
  - rewrite E. apply attach_inv; auto.
  - rewrite (switch_skip 4) by (intros c [= <-]; apply orb_false_iff; split; [by apply Z.eqb_neq|done]).
    apply (switch_ind (fun m => wp env m (fun _ => gpu_inv env) g)); [|auto with gpu_cmd].
    repeat constructor; simpl; auto with gpu_cmd; case_match; auto with gpu_cmd.
Qed.

Lemma cursor_command_inv cmd g :
  gpu_inv env g -> wp env (cursor_command cmd) (fun _ => gpu_inv env) g.
Proof.
  intros Hg. unfold cursor_command.
  apply (switch_ind (fun m => wp env m (fun _ => gpu_inv env) g)); [|by wp_step].
  repeat constructor; simpl; auto with gpu_cmd.
Qed.
End Commands.
