(* ===== verification/GpuCtrl.v ===== *)
(** * The virtio GPU as a virtio device

    [src/devicemodel/hw/pci/virtio/virtio_gpu.c]: the callbacks of
    [virtio_gpu_ops], the bottom halves that serve the two queues, the hotplug
    trigger and the tear-down; the instance of the interface of the virtio
    core; and the safety of every reachable state.

    The loop of a bottom half takes fuel: the guest may go on adding chains. *)
From S2P Require Import Prelude Shmem VirtQueue VirtioCore Pixman Display VirtioGpu GpuInv.

Create HintDb safe.

(** ** Callbacks of [virtio_gpu_ops] *)

Definition virtio_gpu_set_status (status : Z) : G unit :=
  modify (fun g => g <| gpu_base ::= fun b => b <| VirtioCore.status := u8 status |> |>).

(** [while (LIST_FIRST(&gpu->r2d_list))]; [n] bounds the rounds. *)
Fixpoint release_resources (n : nat) : G unit :=
  match n with
  | O => halt OutOfFuel
  | S n' =>
    g ← get;
    match r2d_list g with
    | [] => mret tt
    | r2d :: _ =>
      _ ← release_r2d r2d;
      _ ← modify (fun g => g <| r2d_list ::= delete 0%nat |>);
      release_resources n'
    end
  end.

(** [vga.enable] and the thread that renders are set going again. *)
Definition virtio_gpu_reset : G unit :=
  g ← get;
  _ ← release_resources (S (length (r2d_list g)));
  _ ← modify (fun g => g <| vga_enable := true |> <| vga_running := true |>);
  g ← get;
  b ← lift (virtio_reset_dev (gpu_base g));
  modify (fun g => g <| gpu_base := b |>).

Definition cfg_bytes (c : virtio_gpu_config) : list Z :=
  le_encode 4 (events_read c) ++ le_encode 4 (events_clear c) ++
  le_encode 4 (num_scanouts c) ++ le_encode 4 (num_capsets c).
Definition cfg_of_bytes (bs : list Z) : virtio_gpu_config :=
  mkCfg (fld32 bs 0) (fld32 bs 4) (fld32 bs 8) (fld32 bs 12).

(** The [memcpy] out of [gpu->cfg]: its result code and the bytes. *)
Definition virtio_gpu_cfgread (offset size : Z) (g : virtio_gpu) : outcome (Z * list Z) :=
  if size =? 0 then Ret (0, [])
  else if (0 <=? offset) && (0 <? size) && (offset + size <=? 16) then
    Ret (0, take (Z.to_nat size) (drop (Z.to_nat offset) (cfg_bytes (cfg g))))
  else Stop OobAccess.

(** [value] is a four-byte parameter: a longer [memcpy] reads past it. *)
Definition virtio_gpu_cfgwrite (offset size value : Z) : G Z :=
  _ ← (if offset =? 4 then
         if (size <? 0) || (4 <? size) then halt OobAccess
         else modify (fun g =>
           let c := cfg_of_bytes (splice (cfg_bytes (cfg g)) 4 (take (Z.to_nat size) (le_encode 4 value))) in
           g <| cfg := c <| events_read ::= fun e => clear_bits 32 e value |>
                         <| events_clear ::= fun e => clear_bits 32 e value |> |>)
       else mret tt);
  mret 0.

(** The same body on a pointer that is not a [struct virtio_gpu]. *)
Definition virtio_gpu_cfgwrite_pci (offset size value : Z) : G Z :=
  if offset =? 4 then halt TypeConfusion else mret 0.

Definition virtio_gpu_neg_features (negotiated_features : Z) : G unit :=
  modify (fun g => g <| gpu_base ::= fun b => b <| negotiated_caps := negotiated_features |> |>).

(** The bottom halves in the order [virtio_gpu_init] sets them up. *)
Definition CTRL_BH := 0%nat.
Definition CURSOR_BH := 1%nat.
Definition VGA_BH := 2%nat.

Definition virtio_gpu_notify_controlq : G unit :=
  g ← get; _ ← on_dpy (vdpy_submit_bh (vdpy_handle g) CTRL_BH); mret tt.
Definition virtio_gpu_notify_cursorq : G unit :=
  g ← get; _ ← on_dpy (vdpy_submit_bh (vdpy_handle g) CURSOR_BH); mret tt.

(** [virtio_gpu_ops]; [notify] of a queue holds the number of its callback. *)
#[export] Instance virtio_gpu_ops : VirtioDev virtio_gpu := {
  vbase := gpu_base;
  set_vbase b g := g <| gpu_base := b |>;
  vmctx := gpu_shm;
  set_vmctx s g := g <| gpu_shm := s |>;
  nvq := VIRTIO_GPU_QNUM;
  cfgsize := 16;
  dev_reset := Some virtio_gpu_reset;
  dev_qnotify := None;
  dev_cfgread := Some virtio_gpu_cfgread;
  dev_cfgwrite := Some virtio_gpu_cfgwrite;
  dev_cfgwrite_pci := virtio_gpu_cfgwrite_pci;
  dev_apply_features := Some virtio_gpu_neg_features;
  dev_set_status := Some virtio_gpu_set_status;
  dev_notify f _ := if (f =? 0)%nat then virtio_gpu_notify_controlq else virtio_gpu_notify_cursorq
}.

Definition triger_hotplug : G unit :=
  _ ← modify (fun g => g <| cfg ::= fun c => c <| events_read := 1 |> |>);
  virtio_config_changed.

(** ** Bottom halves *)

Definition get_queue (i : Z) : G virtio_vq_info := fun g =>
  match nthZ (queues (gpu_base g)) i with Some q => Ret (q, g) | None => Stop OobAccess end.
Definition set_queue (i : Z) (q : virtio_vq_info) : G unit :=
  modify (fun g => g <| gpu_base ::= fun b => b <| queues ::= fun l => setZ l i q |> |>).

(** One chain of queue [i]: [None] when there is none to serve, or the buffers
    for the next round and [cmd.iolen].  [Inl] is a [return] out of the loop. *)
Inductive bh_round := BhIdle | BhReturn | BhServed (b : chain_buf) (iolen : Z).

Definition serve_chain (run : virtio_gpu_command -> G Z) (i : Z) (b : chain_buf) (iolen : Z)
  : G bh_round :=
  q ← get_queue i;
  g ← get;
  more ← lift (vq_has_descs (gpu_shm g) q);
  if negb (more : bool) then mret BhIdle
  else
    r ← lift (vq_getchain (gpu_shm g) (device_caps (gpu_base g)) q b VIRTIO_GPU_MAXSEGS);
    _ ← set_queue i (gc_vq r);
    if gc_ret r <=? 0 then mret BhReturn
    else match gc_idx r with
    | None => halt Uninit
    | Some idx =>
      let cmd := mkCommand (mkHdr 0 0 0) (cb_iov (gc_buf r)) (u32 (gc_ret r)) iolen in
      hdr ← read_req cmd sizeof_hdr;
      iolen ← run (cmd <| c_hdr := hdr_of hdr |>);
      q ← get_queue i;
      g ← get;
      s ← lift (vq_relchain (gpu_shm g) q idx iolen);
      _ ← modify (fun g => g <| gpu_shm := s |>);
      mret (BhServed (gc_buf r) iolen)
    end.

(** [true] when the queue ran empty, [false] for a [return]. *)
Fixpoint bh_loop (run : virtio_gpu_command -> G Z) (fuel : nat) (i : Z) (b : chain_buf) (iolen : Z)
  : G bool :=
  match fuel with
  | O => halt OutOfFuel
  | S fuel' =>
    r ← serve_chain run i b iolen;
    match r with
    | BhIdle => mret true
    | BhReturn => mret false
    | BhServed b' iolen' => bh_loop run fuel' i b' iolen'
    end
  end.

Definition serve_queue (run : virtio_gpu_command -> G Z) (fuel : nat) (i : Z)
    (flags : option (list (option Z))) : G unit :=
  drained ← bh_loop run fuel i (mkBuf (replicate (Z.to_nat VIRTIO_GPU_MAXSEGS) None) flags) 0;
  if (drained : bool) then endchains i true else mret tt.

Definition virtio_gpu_ctrl_bh (env : gpu_env) (fuel : nat) : G unit :=
  serve_queue (ctrl_command env) fuel 0 (Some (replicate (Z.to_nat VIRTIO_GPU_MAXSEGS) None)).

Definition virtio_gpu_cursor_bh (fuel : nat) : G unit :=
  serve_queue cursor_command fuel 1 None.

(** ** Tear-down *)

(** The body of the loop over the scanouts. *)
Definition release_scanout (i : Z) : G unit :=
  s ← get_scanout i;
  if sc_is_active s then
    _ ← (match cur_img s with
         | Some _ => _ ← image_unref (cur_img s); upd_scanout i (fun s => s <| cur_img := None |>)
         | None => mret tt
         end);
    _ ← (match dma_buf s with
         | Some _ => _ ← virtio_gpu_dmabuf_unref (dma_buf s);
                     upd_scanout i (fun s => s <| dma_buf := None |>)
         | None => mret tt
         end);
    upd_scanout i (fun s => s <| sc_is_active := false |>)
  else mret tt.

(** The scanouts [i .. i + n). *)
Fixpoint release_scanouts (n : nat) (i : Z) : G unit :=
  match n with
  | O => mret tt
  | S n' => _ ← release_scanout i; release_scanouts n' (i + 1)
  end.

(** [virtio_gpu_deinit], without the VGA part and the window.  The array of the
    scanouts goes last here, before the table in the code; the loop over the
    table does not look at it. *)
Definition virtio_gpu_deinit : G unit :=
  g ← get;
  _ ← modify (fun g => g <| vga_enable := false |> <| vga_running := false |>);
  _ ← release_scanouts (Z.to_nat (scanout_num g)) 0;
  g ← get;
  _ ← release_resources (S (length (r2d_list g)));
  modify (fun g => g <| gpu_scanouts := [] |>).

(** ** Giving everything back *)

(** What releasing resources leaves alone. *)
Definition kept (g : virtio_gpu) := (gpu_base g, gpu_shm g, gpu_scanouts g, vdpy g, vdpy_handle g, cfg g, gpu_allocs g).

Lemma image_unref_out i g :
  (exists g', image_unref (Some i) g = Ret (tt, g') /\ kept g' = kept g /\ r2d_list g' = r2d_list g) \/
  image_unref (Some i) g = Stop UseAfterFree.
Proof.
  unfold image_unref, on_heap, pixman_image_unref.
  unfold image_at. destruct (gpu_heap g !! i) as [im|]; [|by right].
  cbn [mbind outcome_bind]. destruct (im_ref im - 1 =? 0); (left; eexists; split; [reflexivity|by split]).
Qed.

Lemma dmabuf_unref_out p g :
  (exists g', virtio_gpu_dmabuf_unref p g = Ret (tt, g') /\ kept g' = kept g /\
     r2d_list g' = r2d_list g) \/
  virtio_gpu_dmabuf_unref p g = Stop UseAfterFree.
Proof.
  unfold virtio_gpu_dmabuf_unref, dmabuf_at. destruct p as [i|]; [|(left; eexists; split; [reflexivity|by split])].
  destruct (gpu_dmabufs g !! i) as [b|]; [|by right]. cbn [mbind outcome_bind].
  repeat case_match; (left; eexists; split; [reflexivity|by split]).
Qed.

Lemma release_r2d_out r g :
  (exists g', release_r2d r g = Ret (tt, g') /\ kept g' = kept g /\ r2d_list g' = r2d_list g) \/
  release_r2d r g = Stop UseAfterFree.
Proof.
  unfold release_r2d, mbind, M_bind.
  assert (H1 : (exists g', (match rd_image r with Some _ => image_unref (rd_image r) | None => mret tt end) g
             = Ret (tt, g') /\ kept g' = kept g /\ r2d_list g' = r2d_list g) \/
    (match rd_image r with Some _ => image_unref (rd_image r) | None => mret tt end) g = Stop UseAfterFree).
  { destruct (rd_image r); [apply image_unref_out|(left; eexists; split; [reflexivity|by split])]. }
  destruct H1 as [(g1 & -> & Hk1 & Hl1)| ->]; [|by right].
  assert (H2 : (exists g', (if blob r then virtio_gpu_dmabuf_unref (dma_info r) else mret tt) g1
             = Ret (tt, g') /\ kept g' = kept g1 /\ r2d_list g' = r2d_list g1) \/
    (if blob r then virtio_gpu_dmabuf_unref (dma_info r) else mret tt) g1 = Stop UseAfterFree).
  { destruct (blob r); [apply dmabuf_unref_out|(left; eexists; split; [reflexivity|by split])]. }
  destruct H2 as [(g2 & -> & Hk2 & Hl2)| ->]; [|by right].
  destruct (rd_iov r); [left|left|by right]; exists g2; (split; [done|]); split; by etrans.
Qed.

Section Releases.
Context `{kn : Known} (env : gpu_env).

(** When no array is freed, releasing a listed resource returns. *)
Lemma release_head g r l :
  known \/ all_alloc env -> gpu_inv env g -> r2d_list g = r :: l ->
  exists g', release_r2d r g = Ret (tt, g') /\ kept g' = kept g /\
    gpu_inv env (g' <| r2d_list ::= delete 0%nat |>) /\ r2d_list g' = r :: l.
Proof.
  intros Ha Hg Hl. assert (H0 : r2d_list g !! 0%nat = Some r) by (by rewrite Hl).
  pose proof (wp_release_r2d env 0 r (fun _ g' => r2d_list g' = r2d_list g /\
    ginv env (fun j => - points (rd_image r) j) (fun j => - points (dma_info r) j) g') g Hg H0) as Hw.
  unfold wp in Hw. destruct (release_r2d_out r g) as [(g' & E & Hk & Hl')|E]; rewrite E in Hw.
  - destruct Hw as [_ Hg']; [by intros|]. exists g'. split_and!; [done|done| |congruence].
    eapply ginv_ext; [| |eapply (ginv_delete _ _ _ _ 0 r); [by rewrite Hl', Hl|exact Hg']];
      intros j; cbn; unfold none; lia.
  - exfalso. by apply Hw.
Qed.

Lemma release_resources_run n g :
  known \/ all_alloc env -> gpu_inv env g -> (length (r2d_list g) < n)%nat ->
  exists g', release_resources n g = Ret (tt, g') /\ kept g' = kept g /\ gpu_inv env g' /\
    r2d_list g' = [].
Proof.
  intros Ha. revert g. induction n as [|n IH]; intros g Hg Hn; [lia|].
  cbn [release_resources]. unfold mbind, M_bind, get.
  destruct (r2d_list g) as [|r l] eqn:Hl; [by exists g|].
  destruct (release_head g r l Ha Hg Hl) as (g1 & -> & Hk & Hg1 & Hl1). cbn [modify].
  destruct (IH _ Hg1) as (g2 & -> & Hk2 & Hg2 & Hl2).
  { cbn. rewrite Hl1. cbn in Hn |- *. lia. }
  exists g2. split_and!; [done| |done|done]. rewrite Hk2. exact Hk.
Qed.
End Releases.

(** A scanout in range gives back what it shows. *)
Lemma upd_scanout_run i f g s :
  nthZ (gpu_scanouts g) i = Some s ->
  upd_scanout i f g = Ret (tt, g <| gpu_scanouts ::= fun l => setZ l i (f s) |>).
Proof. intros H. unfold upd_scanout, get_scanout, mbind, M_bind. by rewrite H. Qed.

Section Scanouts.
Context `{kn : Known} (env : gpu_env) (Hall : known \/ all_alloc env).

Definition dropped (f : virtio_gpu_scanout -> virtio_gpu_scanout) i s (m : G unit) (g : virtio_gpu) : Prop :=
  exists g', m g = Ret (tt, g') /\ gpu_inv env g' /\ r2d_list g' = r2d_list g /\
    gpu_scanouts g' = setZ (gpu_scanouts g) i (f s) /\ gpu_allocs g' = gpu_allocs g.

Lemma drop_img_run i s g :
  nthZ (gpu_scanouts g) i = Some s -> gpu_inv env g ->
  dropped (fun s => s <| cur_img := None |>) i s
    (match cur_img s with
     | Some _ => _ ← image_unref (cur_img s); upd_scanout i (fun s => s <| cur_img := None |>)
     | None => mret tt
     end) g.
Proof.
  intros Hs Hg. pose proof (wp_drop_img env i s (cur_img s) (fun _ => gpu_inv env) g Hs eq_refl Hg
    (fun g' H _ _ => H)) as Hw. unfold wp in Hw. unfold dropped.
  destruct (cur_img s) as [j|] eqn:Hj.
  - unfold mbind, M_bind in *. destruct (image_unref_out j g) as [(g1 & E & Hk & Hl)|E]; rewrite E in *.
    2:{ exfalso. by apply Hw. }
    injection Hk as _ _ Hk _ _ _ Ha. rewrite (upd_scanout_run i _ g1 s) in * by (by rewrite Hk).
    eexists. split; [reflexivity|]. split_and!; [done|done| |done]. cbn. by rewrite Hk.
  - exists g. split_and!; [done..| |done]. rewrite setZ_id; [done|]. rewrite Hs. f_equal. destruct s. cbn in *. by subst.
Qed.

Lemma drop_dma_run i s g :
  nthZ (gpu_scanouts g) i = Some s -> gpu_inv env g ->
  dropped (fun s => s <| dma_buf := None |>) i s
    (match dma_buf s with
     | Some _ => _ ← virtio_gpu_dmabuf_unref (dma_buf s); upd_scanout i (fun s => s <| dma_buf := None |>)
     | None => mret tt
     end) g.
Proof.
  intros Hs Hg. pose proof (wp_drop_dma env i s (fun _ => gpu_inv env) g Hs Hg (fun g' H _ _ => H)) as Hw.
  unfold wp in Hw. unfold dropped. destruct (dma_buf s) as [j|] eqn:Hj.
  - unfold mbind, M_bind in *. destruct (dmabuf_unref_out (Some j) g) as [(g1 & E & Hk & Hl)|E]; rewrite E in *.
    2:{ exfalso. by apply Hw. }
    injection Hk as _ _ Hk _ _ _ Ha. rewrite (upd_scanout_run i _ g1 s) in * by (by rewrite Hk).
    eexists. split; [reflexivity|]. split_and!; [done|done| |done]. cbn. by rewrite Hk.
  - exists g. split_and!; [done..| |done]. rewrite setZ_id; [done|]. rewrite Hs. f_equal. destruct s. cbn in *. by subst.
Qed.

Definition shows_nothing (s : virtio_gpu_scanout) : Prop := cur_img s = None /\ dma_buf s = None.

Lemma release_scanout_run i s g :
  nthZ (gpu_scanouts g) i = Some s -> gpu_inv env g ->
  exists g' s', release_scanout i g = Ret (tt, g') /\ gpu_inv env g' /\ r2d_list g' = r2d_list g /\
    gpu_scanouts g' = setZ (gpu_scanouts g) i s' /\ shows_nothing s' /\ gpu_allocs g' = gpu_allocs g.
Proof.
  intros Hs Hg. unfold release_scanout, mbind at 1, M_bind at 1, get_scanout at 1. rewrite Hs.
  destruct (sc_is_active s) eqn:Ha.
  2:{ exists g, s. rewrite setZ_id by done. split_and!; try done. by eapply scanout_idle. }
  destruct (drop_img_run i s g Hs Hg) as (g1 & E1 & Hg1 & Hl1 & Hs1 & Ha1).
  assert (Hn1 : nthZ (gpu_scanouts g1) i = Some (s <| cur_img := None |>))
    by (rewrite Hs1; by eapply nthZ_setZ_eq).
  destruct (drop_dma_run i _ g1 Hn1 Hg1) as (g2 & E2 & Hg2 & Hl2 & Hs2 & Ha2).
  assert (Hn2 : nthZ (gpu_scanouts g2) i = Some (s <| cur_img := None |> <| dma_buf := None |>))
    by (rewrite Hs2; by eapply nthZ_setZ_eq).
  unfold mbind, M_bind in E1, E2 |- *. rewrite E1. cbn in E2 |- *. rewrite E2.
  rewrite (upd_scanout_run i _ g2 _ Hn2). eexists _, _. split; [reflexivity|]. split_and!.
  - apply (ginv_scanout_keep env _ _ g2 i _ _ Hn2); done.
  - by cbn; rewrite Hl2.
  - cbn. by rewrite Hs2, Hs1, !setZ_setZ.
  - done.
  - cbn. by rewrite Ha2.
Qed.

Lemma take_insert_snoc {A} (l : list A) k x : (k < length l)%nat -> take (S k) (<[k := x]> l) = take k l ++ [x].
Proof.
  intros H. rewrite (take_S_r _ _ x) by (by apply list_lookup_insert_eq). by rewrite take_insert_ge.
Qed.

Lemma release_scanouts_run n k g :
  gpu_inv env g -> length (gpu_scanouts g) = (k + n)%nat ->
  Forall shows_nothing (take k (gpu_scanouts g)) ->
  exists g', release_scanouts n (Z.of_nat k) g = Ret (tt, g') /\ gpu_inv env g' /\
    Forall shows_nothing (gpu_scanouts g') /\ gpu_allocs g' = gpu_allocs g.
Proof.
  revert k g. induction n as [|n IH]; intros k g Hg Hlen Hk; cbn [release_scanouts].
  { exists g. split_and!; [done|done| |done]. rewrite take_ge in Hk by lia. done. }
  destruct (lookup_lt_is_Some_2 (gpu_scanouts g) k) as [s Hs]; [lia|].
  destruct (release_scanout_run (Z.of_nat k) s g) as (g1 & s' & E & Hg1 & _ & Hsc & Hn & Ha); [|done|].
  { unfold nthZ. rewrite (proj2 (Z.leb_le _ _)) by lia. by rewrite Nat2Z.id. }
  unfold setZ in Hsc. rewrite (proj2 (Z.leb_le _ _)) in Hsc by lia. rewrite Nat2Z.id in Hsc.
  unfold mbind, M_bind. rewrite E. replace (Z.of_nat k + 1) with (Z.of_nat (S k)) by lia.
  rewrite <- Ha. apply IH; [done|rewrite Hsc, length_insert; lia|].
  rewrite Hsc, take_insert_snoc by lia. apply Forall_app. by split; [|constructor].
Qed.

(** The tear-down returns, and the objects are all gone. *)
Lemma total_nothing l j : Forall shows_nothing l -> total cur_img l j = 0 /\ total dma_buf l j = 0.
Proof.
  induction 1 as [|s l [H1 H2] _ IH]; [done|]. unfold total in *. cbn. rewrite H1, H2. change (points None j) with 0. lia.
Qed.

Lemma empty_heap (h : heap) :
  map_Forall (fun _ im => 1 <= im_ref im) h -> (forall j, img_count h j = 0) -> h = ∅.
Proof.
  intros Hh H0. apply map_empty. intros j. destruct (h !! j) as [im|] eqn:E; [|done].
  specialize (H0 j). unfold img_count in H0. rewrite E in H0.
  pose proof (map_Forall_lookup_1 _ _ _ _ Hh E). cbn in *. lia.
Qed.

Lemma empty_dmabufs (m : gmap nat dma_buf_info) :
  map_Forall (fun _ b => 1 <= db_ref_count b) m -> (forall j, dma_count m j = 0) -> m = ∅.
Proof.
  intros Hh H0. apply map_empty. intros j. destruct (m !! j) as [b|] eqn:E; [|done].
  specialize (H0 j). unfold dma_count in H0. rewrite E in H0.
  pose proof (map_Forall_lookup_1 _ _ _ _ Hh E). cbn in *. lia.
Qed.

Lemma deinit_run g :
  gpu_inv env g ->
  exists g', virtio_gpu_deinit g = Ret (tt, g') /\ r2d_list g' = [] /\ Forall shows_nothing (gpu_scanouts g') /\
    gpu_dmabufs g' = ∅ /\ (granted env g -> gpu_heap g' = ∅).
Proof.
  intros Hg. unfold virtio_gpu_deinit, mbind, M_bind, get, modify.
  set (g0 := g <| vga_enable := false |> <| vga_running := false |>).
  assert (Hg0 : gpu_inv env g0) by (apply (inv_core _ g); core_done).
  assert (Hnum : Z.to_nat (scanout_num g) = length (gpu_scanouts g0)).
  { pose proof (gi_num _ _ _ _ Hg). cbn. lia. }
  rewrite Hnum. destruct (release_scanouts_run (length (gpu_scanouts g0)) 0 g0 Hg0) as (g1 & E & Hg1 & Hn & Ha1);
    [done|constructor|]. change (Z.of_nat 0) with 0 in E. rewrite E.
  destruct (release_resources_run env (S (length (r2d_list g1))) g1 Hall Hg1) as (g2 & -> & Hk & Hg2 & Hl2); [lia|].
  unfold kept in Hk. injection Hk as _ _ Hsc _ _ _ Ha2.
  rewrite <- Hsc in Hn. eexists. split; [reflexivity|]. cbn. split_and!; [done|done| |].
  - apply empty_dmabufs; [apply Hg2|]. intros j. destruct (total_nothing _ j Hn) as [_ H2].
    by rewrite (gi_dma _ _ _ _ Hg2 j), Hl2, H2.
  - intros Hok. apply empty_heap; [apply Hg2|]. intros j. destruct (total_nothing _ j Hn) as [H1 _].
    destruct (gi_img _ _ _ _ Hg2 j) as [_ H]. rewrite H, Hl2, H1; [done|].
    apply (granted_mono _ g2 g); [|done]. rewrite Ha2, Ha1. done.
Qed.
End Scanouts.

(** The reset callback: what the table holds is given back, once each; the
    scanouts keep what they show. *)
Lemma reset_run env g :
  all_alloc env -> gpu_inv env g -> isr (gpu_base g) = 0 ->
  exists g', virtio_gpu_reset g = Ret (tt, g') /\ gpu_inv env g' /\
    virtio_reset_dev (gpu_base g) = Ret (gpu_base g') /\ gpu_shm g' = gpu_shm g /\
    gpu_scanouts g' = gpu_scanouts g /\ r2d_list g' = [] /\
    vga_enable g' = true /\ vga_running g' = true.
Proof.
  intros Ha Hg Hi. unfold virtio_gpu_reset, mbind, M_bind, get, modify, lift.
  destruct (release_resources_run env (S (length (r2d_list g))) g (or_intror Ha) Hg) as (g1 & -> & Hk & Hg1 & Hl1); [lia|].
  unfold kept in Hk. injection Hk as Hb Hs Hsc Hd Hh Hc _. cbn. rewrite Hb.
  rewrite virtio_reset_dev_ret by done. eexists. split; [reflexivity|]. split_and!; [(apply (inv_core _ g1); core_done)|done..].
Qed.

(** *** The promises of the interface *)

Definition willing_host : gpu_env := mkEnv (fun _ => true) false (fun _ _ => -1).

#[export] Instance virtio_gpu_laws : VirtioDevLaws virtio_gpu.
Proof.
  refine {| dev_inv := gpu_inv willing_host |}; try done.
  - intros b g. (apply inv_core; core_done).
  - intros s g _. (apply inv_core; core_done).
  - intros cb caps g [= <-] Hg. eexists. split; [reflexivity|]. split_and!; try done. (apply (inv_core _ g); core_done).
  - intros cb st g [= <-] Hg. eexists. split; [reflexivity|]. split_and!; try done. (apply (inv_core _ g); core_done).
  - intros cb g [= <-] Hg Hi. destruct (reset_run willing_host g) as (g' & E & Hg' & Hb & Hs & _); [done..|].
    exists g'. split_and!; [done|done| |done]. change (mem_size (gpu_shm g') = mem_size (gpu_shm g)). by rewrite Hs.
Defined.

(** ** Invariance of the callbacks and the bottom halves *)

(** What the invariant looks at. *)
Definition core_at (g : virtio_gpu) := (core g, gpu_allocs g).

Section Callbacks.
Context `{kn : Known} (env : gpu_env).
Implicit Types g : virtio_gpu.

(** Code that changes nothing the invariant looks at and cannot touch a freed
    object. *)
Definition harmless {A} (m : G A) : Prop := forall g,
  match m g with Ret (_, g') => core_at g' = core_at g | Stop e => e <> UseAfterFree end.

Lemma harmless_wp {A} (m : G A) (Q : A -> virtio_gpu -> Prop) g :
  harmless m -> (forall a g', core_at g' = core_at g -> Q a g') -> wp env m Q g.
Proof.
  intros Hm HQ. specialize (Hm g). unfold wp. destruct (m g) as [[a g']|e]; [by apply HQ|].
  intros ->. done.
Qed.

Lemma harmless_bind {A B} (m : G A) (f : A -> G B) :
  harmless m -> (forall a, harmless (f a)) -> harmless (mbind f m).
Proof.
  intros Hm Hf g. unfold mbind, M_bind. specialize (Hm g). destruct (m g) as [[a g1]|e]; [|done].
  specialize (Hf a g1). destruct (f a g1) as [[b g2]|e]; [congruence|done].
Qed.

Lemma harmless_ret {A} (a : A) : harmless (mret a).
Proof. done. Qed.

Lemma harmless_get : harmless get.
Proof. done. Qed.

Lemma harmless_modify f : (forall g, core_at (f g) = core_at g) -> harmless (modify f).
Proof. intros H g. apply H. Qed.

Lemma harmless_halt {A} e : e <> UseAfterFree -> harmless (A := A) (halt e).
Proof. intros H g. done. Qed.

Lemma harmless_lift {A} (o : outcome A) : o <> Stop UseAfterFree -> harmless (lift o).
Proof. intros H g. unfold lift. destruct o; congruence. Qed.

Lemma harmless_on_dpy {A} (m : M display A) : dpy_safe m -> harmless (on_dpy m).
Proof.
  intros H g. unfold on_dpy. specialize (H (vdpy g)). destruct (m (vdpy g)) as [[a d]|e]; [done|congruence].
Qed.

Lemma harmless_mem_read p n : harmless (mem_read p n).
Proof.
  intros g. unfold mem_read. repeat case_match; simplify_eq; try done.
  match goal with H : ld_bytes _ _ _ = Stop _ |- _ => by destruct (ld_bytes_stop _ _ _ _ H) as [->| ->] end.
Qed.

(** *** The rings *)

Lemma mem_stop_safe {A} (o : outcome A) : (forall e, o = Stop e -> mem_stop e) -> o <> Stop UseAfterFree.
Proof. intros H ->. by destruct (H _ eq_refl). Qed.

Lemma outcome_bind_safe {A B} (o : outcome A) (f : A -> outcome B) :
  o <> Stop UseAfterFree -> (forall a, f a <> Stop UseAfterFree) -> (o ≫= f) <> Stop UseAfterFree.
Proof. intros Ho Hf. destruct o; [apply Hf|]. cbn. congruence. Qed.

Lemma deref_safe p : deref p <> Stop UseAfterFree.
Proof. apply mem_stop_safe, deref_stop. Qed.

Lemma ld_le_safe s p n : ld_le s p n <> Stop UseAfterFree.
Proof. apply mem_stop_safe. intros e. apply ld_le_stop. Qed.

Lemma st_le_safe s p n v : st_le s p n v <> Stop UseAfterFree.
Proof. apply mem_stop_safe. intros e. apply st_bytes_stop. Qed.

#[local] Hint Resolve deref_safe ld_le_safe st_le_safe : safe.

Ltac safe_binds :=
  repeat first
    [ solve [auto with safe] | done | apply outcome_bind_safe; [|intros ?]
    | match goal with |- context [match ?x with _ => _ end] => destruct x end ].

Lemma has_descs_safe s q : vq_has_descs s q <> Stop UseAfterFree.
Proof. unfold vq_has_descs, avail_idx. safe_binds. Qed.

Lemma relchain_safe s q idx iolen : vq_relchain s q idx iolen <> Stop UseAfterFree.
Proof. unfold vq_relchain. safe_binds. Qed.

Lemma endchains_safe s caps q all : vq_endchains s caps q all <> Stop UseAfterFree.
Proof. unfold vq_endchains, used_idx, VQ_USED_EVENT_IDX, avail_ring, avail_flags. safe_binds. Qed.

Lemma msix_safe s i : pci_generate_msix s i <> Stop UseAfterFree.
Proof. unfold pci_generate_msix. safe_binds. Qed.

Lemma msix_config_safe s i : pci_generate_msix_config s i <> Stop UseAfterFree.
Proof. unfold pci_generate_msix_config. safe_binds. Qed.

Lemma getchain_safe s caps q b n : vq_getchain s caps q b n <> Stop UseAfterFree.
Proof. apply mem_stop_safe. intros e. apply getchain_stop. Qed.

#[local] Hint Resolve has_descs_safe relchain_safe endchains_safe msix_safe msix_config_safe
  getchain_safe : safe.

(** *** The core's entry points *)

Lemma harmless_upd_base f : harmless (upd_base f).
Proof. done. Qed.

Lemma harmless_lift_shm f : (forall s, f s <> Stop UseAfterFree) -> harmless (lift_shm f).
Proof.
  intros H g. unfold lift_shm. specialize (H (vmctx g)). destruct (f (vmctx g)); [done|congruence].
Qed.

#[local] Hint Resolve harmless_ret harmless_get harmless_upd_base : safe.

(** Code without loops. *)
Ltac harmless :=
  repeat first
    [ solve [auto with safe] | done | apply harmless_bind; [|intros ?]
    | apply harmless_lift; solve [auto with safe | done]
    | apply harmless_lift_shm; solve [auto with safe]
    | apply harmless_modify; done | apply harmless_halt; done
    | apply harmless_on_dpy; solve [auto with gpu]
    | match goal with |- harmless (match ?x with _ => _ end) => destruct x end ].

Lemma harmless_vq_interrupt q : harmless (vq_interrupt q).
Proof. unfold vq_interrupt, get_base. harmless. Qed.

Lemma harmless_config_changed : harmless virtio_config_changed.
Proof. unfold virtio_config_changed, get_base. harmless. Qed.

Lemma harmless_endchains i all : harmless (endchains (D := virtio_gpu) i all).
Proof.
  unfold endchains. harmless.
Qed.

(** A command that keeps the invariant, on its own. *)
Definition keeps {A} (m : G A) : Prop :=
  forall g, gpu_inv env g -> wp env m (fun _ => gpu_inv env) g.

Lemma harmless_keeps {A} (m : G A) : harmless m -> keeps m.
Proof. intros Hm g Hg. apply harmless_wp; [done|]. intros _ g' E. apply (inv_core _ g); [exact (f_equal fst E)|exact (Nat.eq_le_incl _ _ (eq_sym (f_equal snd E)))|done]. Qed.

Lemma gpu_keeps_bind {A B} (m : G A) (f : A -> G B) : keeps m -> (forall a, keeps (f a)) -> keeps (mbind f m).
Proof.
  intros Hm Hf g Hg. apply wp_bind. eapply wp_weaken; [by apply Hm|]. intros a g' Hg'. by apply Hf.
Qed.

Lemma harmless_read_req cmd n : harmless (read_req cmd n).
Proof. unfold read_req, iov_at. harmless. apply harmless_mem_read. Qed.

Lemma harmless_get_queue i : harmless (get_queue i).
Proof. intros g. unfold get_queue. by destruct (nthZ _ _). Qed.

#[local] Hint Resolve harmless_read_req harmless_get_queue harmless_vq_interrupt harmless_config_changed
  harmless_endchains : safe.

Lemma serve_chain_keeps run i b iolen : (forall cmd, keeps (run cmd)) -> keeps (serve_chain run i b iolen).
Proof.
  intros Hrun. unfold serve_chain.
  apply gpu_keeps_bind; [apply harmless_keeps; auto with safe|intros q].
  apply gpu_keeps_bind; [by apply harmless_keeps|intros g].
  apply gpu_keeps_bind; [apply harmless_keeps; harmless|intros [|]; [|by apply harmless_keeps]]. cbn [negb].
  apply gpu_keeps_bind; [apply harmless_keeps; harmless|intros r].
  apply gpu_keeps_bind; [by apply harmless_keeps|intros _].
  destruct (gc_ret r <=? 0); [by apply harmless_keeps|].
  destruct (gc_idx r) as [idx|]; [|by apply harmless_keeps]. cbv zeta.
  apply gpu_keeps_bind; [apply harmless_keeps; auto with safe|intros hdr].
  apply gpu_keeps_bind; [apply Hrun|intros iolen']. apply harmless_keeps. harmless.
Qed.

Lemma bh_loop_keeps run fuel i b iolen : (forall cmd, keeps (run cmd)) -> keeps (bh_loop run fuel i b iolen).
Proof.
  intros Hrun. revert b iolen. induction fuel as [|fuel IH]; intros b iolen; cbn [bh_loop].
  { by apply harmless_keeps. }
  apply gpu_keeps_bind; [by apply serve_chain_keeps|]. intros [| |b' iolen']; [by apply harmless_keeps..|apply IH].
Qed.

Lemma serve_queue_keeps run fuel i fl : (forall cmd, keeps (run cmd)) -> keeps (serve_queue run fuel i fl).
Proof.
  intros Hrun. apply gpu_keeps_bind; [by apply bh_loop_keeps|]. intros [|]; apply harmless_keeps; harmless.
Qed.

Lemma ctrl_bh_keeps fuel : ~ known -> keeps (virtio_gpu_ctrl_bh env fuel).
Proof. intros Hk. apply serve_queue_keeps. intros cmd g. apply ctrl_command_inv. by intros _ ?. Qed.

Lemma cursor_bh_keeps fuel : keeps (virtio_gpu_cursor_bh fuel).
Proof. apply serve_queue_keeps. intros cmd g. apply cursor_command_inv. Qed.

Lemma release_resources_keeps n : keeps (release_resources n).
Proof.
  induction n as [|n IH]; intros g Hg; cbn [release_resources]; [by apply wp_halt|].
  wp_step. wp_step. destruct (r2d_list g) as [|r l] eqn:Hl; [by wp_step|].
  wp_step. apply (wp_release_r2d env 0 r); [done|by rewrite Hl|]. intros g1 Hl1 Hg1. wp_step. wp_step.
  apply IH. eapply ginv_ext; [| |eapply (ginv_delete _ _ _ _ 0 r); [by rewrite Hl1, Hl|exact Hg1]];
    intros j; cbn; unfold none; lia.
Qed.

Lemma reset_keeps : keeps virtio_gpu_reset.
Proof.
  unfold virtio_gpu_reset. apply gpu_keeps_bind; [by apply harmless_keeps|intros g].
  apply gpu_keeps_bind; [apply release_resources_keeps|intros _]. apply harmless_keeps.
  harmless. apply harmless_lift. unfold virtio_reset_dev, pci_lintr_deassert. by destruct (z2b _).
Qed.

Lemma cfgwrite_harmless off sz v : harmless (virtio_gpu_cfgwrite off sz v).
Proof. unfold virtio_gpu_cfgwrite. harmless. Qed.

Lemma dpy_safe_submit h bh : dpy_safe (vdpy_submit_bh h bh).
Proof.
  intros d. unfold vdpy_submit_bh, mbind, M_bind, get, mret, M_ret, enqueue. repeat case_match; done.
Qed.
#[local] Hint Resolve dpy_safe_submit : gpu.

Lemma notify_harmless f i : harmless (dev_notify f i).
Proof.
  cbn [dev_notify virtio_gpu_ops]. unfold virtio_gpu_notify_controlq, virtio_gpu_notify_cursorq.
  destruct (f =? 0)%nat; harmless.
Qed.

Lemma keeps_switch {A} x (cases : list (list Z * G A)) dflt :
  Forall (fun c => keeps c.2) cases -> keeps dflt -> keeps (switch x cases dflt).
Proof. apply (switch_ind keeps). Qed.

Lemma upd_curq_harmless f : harmless (upd_curq f).
Proof. unfold upd_curq, get_base. harmless. Qed.
#[local] Hint Resolve upd_curq_harmless notify_harmless cfgwrite_harmless : safe.

Lemma common_cfg_store_keeps off v : keeps (common_cfg_store off v).
Proof.
  unfold common_cfg_store. apply keeps_switch; [|by apply harmless_keeps].
  repeat apply Forall_cons_2; try apply Forall_nil_2; cbn [snd];
    try (apply harmless_keeps; solve [auto with safe]).
  - apply harmless_keeps. unfold write_guest_features, get_base. harmless.
  - unfold write_status, get_base. cbn [call dev_set_status virtio_gpu_ops].
    apply gpu_keeps_bind; [apply harmless_keeps; harmless|intros _].
    apply gpu_keeps_bind; [by apply harmless_keeps, harmless_modify|intros _].
    apply gpu_keeps_bind; [apply harmless_keeps; harmless|intros b].
    destruct (_ =? 0); [apply reset_keeps|by apply harmless_keeps].
  - apply harmless_keeps. intros g. apply upd_curq_harmless.
Qed.

Lemma find_cr_safe fuel tbl lo hi off : find_cr_loop fuel tbl lo hi off <> Stop UseAfterFree.
Proof.
  revert lo hi. induction fuel as [|fuel IH]; intros lo hi; cbn [find_cr_loop]; [done|].
  destruct (lo <=? hi); [|done]. cbv zeta. destruct (nthZ _ _) as [cr|]; [|done].
  destruct (_ =? _); [done|]. destruct (_ <? _); apply IH.
Qed.

Lemma common_cfg_write_keeps off sz v : keeps (virtio_common_cfg_write off sz v).
Proof.
  unfold virtio_common_cfg_write. apply gpu_keeps_bind.
  { apply harmless_keeps, harmless_lift, find_cr_safe. }
  intros [cr|]; [|by apply harmless_keeps]. destruct (_ || _); [by apply harmless_keeps|].
  apply common_cfg_store_keeps.
Qed.

Lemma device_cfg_write_keeps off sz v : keeps (virtio_device_cfg_write off sz v).
Proof. apply harmless_keeps. unfold virtio_device_cfg_write. cbn [dev_cfgwrite virtio_gpu_ops]. harmless. Qed.

Lemma notify_cfg_write_keeps off : keeps (virtio_notify_cfg_write off).
Proof.
  apply harmless_keeps. unfold virtio_notify_cfg_write, get_base, notify_queue.
  cbn [dev_qnotify virtio_gpu_ops call]. harmless.
Qed.

Lemma isr_cfg_read_keeps : keeps virtio_isr_cfg_read.
Proof. apply harmless_keeps. unfold virtio_isr_cfg_read, get_base, pci_lintr_deassert. harmless. Qed.

Lemma hotplug_keeps : keeps triger_hotplug.
Proof. apply harmless_keeps. unfold triger_hotplug. harmless. Qed.
End Callbacks.

(** ** Initialisation *)

Definition VIRTIO_GPU_RINGSZ := 64.
Definition VIRTIO_GPU_F_EDID := 1.
Definition VIRTIO_GPU_F_RESOURCE_BLOB := 3.
Definition VIRTIO_GPU_F_MODIFIER := 5.
Definition VIRTIO_GPU_S_HOSTCAPS : Z :=
  Z.lor (Z.lor (Z.shiftl 1 VIRTIO_F_VERSION_1) (Z.shiftl 1 VIRTIO_GPU_F_EDID))
    (Z.shiftl 1 VIRTIO_GPU_F_MODIFIER).

(** What the host answers: the allocations of the device and of the scanouts,
    the result of setting up the mutex, the allocation in [vdpy_init], the
    number in [udmabuf/parameters/list_limit] when that file can be opened,
    [vga_init], and the results of [virtio_intr_init] and
    [virtio_set_modern_pio_bar]. *)
Record init_host := mkHost {
  ih_device : bool; ih_mutex : Z; ih_vdpy : bool; ih_scanouts : bool;
  ih_list_limit : option Z; ih_vga : bool; ih_intr : Z; ih_pio : Z }.

(** [is_blob_supported] *)
Definition blob_decision (h : init_host) (s : shmem_info) : bool :=
  vm_allow_dmabuf s && match ih_list_limit h with Some n => 4096 <=? n | None => false end.

Definition fresh_vq (notify : nat) : virtio_vq_info :=
  mkVq VIRTIO_GPU_RINGSZ (Some notify) 0 0 0 0 0 0 None None None 0 0 0 0 0 0 false.

Definition BACKEND_VBSU := 1.

(** [gpu->base] after [calloc], [virtio_linkup] and the assignments of
    [virtio_gpu_init] up to the interrupt set-up. *)
Definition init_base (pci : pci_vdev) (blobs : bool) : virtio_base :=
  let zero := mkBase 0 (mkPci false false) 0 0 [] 0 0 0 0 0 0 0 0 0 in
  let qs := [fresh_vq CTRL_BH; fresh_vq CURSOR_BH] in
  let caps := VIRTIO_GPU_S_HOSTCAPS in
  virtio_linkup zero true pci qs BACKEND_VBSU
    <| device_caps := if blobs then Z.lor caps (Z.shiftl 1 VIRTIO_GPU_F_RESOURCE_BLOB) else caps |>.

(** [virtio_gpu_init]: its result, and the device where there is one.  [cnt] is
    [virtio_gpu_device_cnt].  The registers of the PCI configuration space and
    the VGA part are not in the state. *)
Definition virtio_gpu_init (cnt : Z) (h : init_host) (s : shmem_info) (pci : pci_vdev) (d : display)
  : outcome (Z * option virtio_gpu) :=
  if z2b cnt then Ret (-1, None)
  else if negb (ih_device h) then Ret (-1, None)
  else if z2b (ih_mutex h) then Ret (ih_mutex h, None)
  else
    let '(handle, d) := vdpy_init (ih_vdpy h) d in
    let n := if 0 <? handle then vscrs_num d else 1 in
    if (n <? 0) || (VDPY_MAX_NUM <? n) then Ret (-1, None)
    else if negb (ih_scanouts h) then Ret (-1, None)
    else
      let blobs := blob_decision h s in
      let g := mkGpu (init_base pci blobs) s (mkCfg 0 0 (u32 n) 0) handle [] ∅ ∅ n
                 (replicate (Z.to_nat n) (mkScanout 0 0 (mkRect 0 0 0 0) None None false))
                 false false (replicate 256 0) blobs d 0 0 [] in
      '(edid, d) ← vdpy_get_edid handle 0 (replicate 256 0) 256 d;
      let g := g <| gpu_edid := edid |> <| vdpy := d |> in
      if negb (ih_vga h) then Ret (-1, None)
      else
        b ← virtio_intr_init (gpu_base g);
        let g := g <| gpu_base := b |> in
        if z2b (ih_intr h) then Ret (ih_intr h, Some g)
        else if z2b (ih_pio h) then Ret (ih_pio h, Some g)
        else Ret (0, Some (g <| vga_enable := true |> <| vga_running := true |>)).

(** Attaching a backing reads no image, dma-buf or array. *)
Lemma ctrl_attach env cmd g : h_type (c_hdr cmd) = VIRTIO_GPU_CMD_RESOURCE_ATTACH_BACKING ->
  ctrl_command env cmd g = virtio_gpu_cmd_resource_attach_backing env cmd g.
Proof. intros E. unfold ctrl_command, mbind, M_bind, get. by rewrite E. Qed.

Lemma attach_spares env cmd g : virtio_gpu_cmd_resource_attach_backing env cmd g <> Stop UseAfterFree.
Proof.
  assert (Hw : wp (kn := True) env (virtio_gpu_cmd_resource_attach_backing env cmd) (fun _ _ => True) g).
  { unfold virtio_gpu_cmd_resource_attach_backing. do 2 wp_step. wp_step; [by repeat wp_step|]. do 3 wp_step.
    apply wp_weaken with (P := fun _ _ => True); [|intros; by repeat wp_step].
    destruct (virtio_gpu_find_resource_2d _ _) as [[k r]|]; [|by wp_step]. wp_step; [|by wp_step]. wp_step.
    apply wp_weaken with (P := fun _ _ => True); [|intros; by wp_step]. unfold attach_entries. do 2 wp_step.
    wp_step; [|by wp_step]. do 2 wp_step. wp_step; [|by repeat wp_step].
    wp_step. apply wp_read_entries. intros buf. by repeat wp_step. }
  intros E. unfold wp in Hw. rewrite E in Hw. apply (Hw eq_refl). by left.
Qed.

(** ** Properties *)

(** What may happen to the device: the bottom halves run, the guest writes a
    register or its memory, the host changes the screens, the display thread
    and the client work. *)
Inductive gpu_step (env : gpu_env) (g : virtio_gpu) : virtio_gpu -> Prop :=
  | step_ctrl fuel g' : virtio_gpu_ctrl_bh env fuel g = Ret (tt, g') -> gpu_step env g g'
  | step_cursor fuel g' : virtio_gpu_cursor_bh fuel g = Ret (tt, g') -> gpu_step env g g'
  | step_common off sz v g' : virtio_common_cfg_write off sz v g = Ret (tt, g') -> gpu_step env g g'
  | step_config off sz v g' : virtio_device_cfg_write off sz v g = Ret (tt, g') -> gpu_step env g g'
  | step_notify off g' : virtio_notify_cfg_write off g = Ret (tt, g') -> gpu_step env g g'
  | step_isr i g' : virtio_isr_cfg_read g = Ret (i, g') -> gpu_step env g g'
  | step_hotplug g' : triger_hotplug g = Ret (tt, g') -> gpu_step env g g'
  | step_guest s : gpu_step env g (g <| gpu_shm := s |>)
  | step_display d : gpu_step env g (g <| vdpy := d |>).

(** A device [virtio_gpu_init] has set up. *)
Definition gpu_fresh (g : virtio_gpu) : Prop :=
  exists cnt h s pci d, virtio_gpu_init cnt h s pci d = Ret (0, Some g).

Lemma gpu_keeps_ret `{kn : Known} {A} env (m : G A) a g g' : keeps env m -> gpu_inv env g -> m g = Ret (a, g') -> gpu_inv env g'.
Proof. intros Hm Hg E. specialize (Hm g Hg). unfold wp in Hm. by rewrite E in Hm. Qed.

Lemma keeps_stop `{kn : Known} {A} env (m : G A) g :
  keeps env m -> known \/ all_alloc env -> gpu_inv env g -> m g <> Stop UseAfterFree.
Proof. intros Hm Ha Hg E. specialize (Hm g Hg). unfold wp in Hm. rewrite E in Hm. by apply Hm. Qed.

(** That no array is freed may be added to what is known. *)
Lemma inv_known env fi fd g : ginv env fi fd g -> arrays_live g -> ginv (H := True) env fi fd g.
Proof. intros [] Ha. by split. Qed.

Lemma fresh_inv env g : gpu_fresh g -> gpu_inv env g.
Proof.
  intros (cnt & h & s & pci & d & E). unfold virtio_gpu_init in E.
  destruct (z2b cnt); [done|]. destruct (negb (ih_device h)); [done|].
  destruct (z2b (ih_mutex h)) eqn:Hm; [by injection E as E; rewrite E in Hm|].
  destruct (vdpy_init _ _) as [handle d1]. cbv zeta in E.
  set (n := if 0 <? handle then vscrs_num d1 else 1) in *.
  destruct ((n <? 0) || (VDPY_MAX_NUM <? n)) eqn:Hn; [done|]. destruct (negb (ih_scanouts h)); [done|].
  destruct (vdpy_get_edid _ _ _ _ _) as [[edid d2]|]; [|done]. cbn [mbind outcome_bind] in E.
  destruct (negb (ih_vga h)); [done|]. destruct (virtio_intr_init _) as [b|]; [|done]. cbn [mbind outcome_bind] in E.
  destruct (z2b (ih_intr h)) eqn:Hi; [by injection E as E; rewrite E in Hi|].
  destruct (z2b (ih_pio h)) eqn:Hp; [by injection E as E; rewrite E in Hp|].
  injection E as <-. apply orb_false_iff in Hn as [Hn%Z.ltb_ge _].
  assert (Hz : Forall shows_nothing (replicate (Z.to_nat n) (mkScanout 0 0 (mkRect 0 0 0 0) None None false)))
    by (by apply Forall_replicate).
  split; try done; cbn.
  - intros j. destruct (total_nothing _ j Hz) as [-> _]. split; [done|]. done.
  - intros j. by destruct (total_nothing _ j Hz) as [_ ->].
  - constructor.
  - intros _. constructor.
  - by apply Forall_replicate.
  - rewrite length_replicate. lia.
Qed.

Lemma step_inv env g g' : gpu_inv env g -> gpu_step env g g' -> gpu_inv env g'.
Proof.
  intros Hg [fuel g1 E|fuel g1 E|off sz v g1 E|off sz v g1 E|off g1 E|i g1 E|g1 E|s|d].
  - eapply gpu_keeps_ret; [by apply ctrl_bh_keeps; intros []|done|exact E].
  - eapply gpu_keeps_ret; [apply cursor_bh_keeps|done|exact E].
  - eapply gpu_keeps_ret; [apply common_cfg_write_keeps|done|exact E].
  - eapply gpu_keeps_ret; [apply device_cfg_write_keeps|done|exact E].
  - eapply gpu_keeps_ret; [apply notify_cfg_write_keeps|done|exact E].
  - eapply gpu_keeps_ret; [apply isr_cfg_read_keeps|done|exact E].
  - eapply gpu_keeps_ret; [apply hotplug_keeps|done|exact E].
  - (apply (inv_core _ g); core_done).
  - (apply (inv_core _ g); core_done).
Qed.

Lemma reachable_inv env g0 g : gpu_inv env g0 -> rtc (gpu_step env) g0 g -> gpu_inv env g.
Proof. intros H0 Hr. induction Hr as [g|g g1 g2 H1 _ IH]; [done|]. apply IH. by eapply step_inv. Qed.

Lemma known_live env fi fd g : ginv (H := True) env fi fd g -> arrays_live g.
Proof. intros [? ? ? ? ? ? ? Hf ? ?]. apply Hf. by left. Qed.

(** What the table and the scanouts point to is there. *)
Definition refs_live (g : virtio_gpu) : Prop :=
  (forall k r, r2d_list g !! k = Some r ->
     (forall i, rd_image r = Some i -> is_Some (gpu_heap g !! i)) /\
     (forall i, dma_info r = Some i -> is_Some (gpu_dmabufs g !! i))) /\
  (forall k s, gpu_scanouts g !! k = Some s ->
     (forall i, cur_img s = Some i -> is_Some (gpu_heap g !! i)) /\
     (forall i, dma_buf s = Some i -> is_Some (gpu_dmabufs g !! i))).

Lemma count_live h m i : (1 <= img_count h i -> is_Some (h !! i)) /\ (1 <= dma_count m i -> is_Some (m !! i)).
Proof. unfold img_count, dma_count. destruct (h !! i), (m !! i); split; done || lia. Qed.

Lemma inv_refs_live env g : gpu_inv env g -> refs_live g.
Proof.
  intros Hg. split; intros k r Hk; split; intros i Hi; apply (count_live (gpu_heap g) (gpu_dmabufs g) i).
  - by apply (r2d_image_live env none none g k r).
  - by apply (r2d_dma_live env none none g k r).
  - apply (scanout_image_live env none none g (Z.of_nat k) r i Hg); [|done|done]. by rewrite nthZ_lookup, Nat2Z.id by lia.
  - apply (scanout_dma_live env none none g (Z.of_nat k) r i Hg); [|done|done]. by rewrite nthZ_lookup, Nat2Z.id by lia.
Qed.

(** A command, from a state with no freed array. *)
Lemma command_safe env g cmd : gpu_inv env g -> arrays_live g ->
  ctrl_command env cmd g <> Stop UseAfterFree /\ cursor_command cmd g <> Stop UseAfterFree /\
  forall n g', ctrl_command env cmd g = Ret (n, g') -> arrays_live g' \/
    h_type (c_hdr cmd) = VIRTIO_GPU_CMD_RESOURCE_ATTACH_BACKING /\ env_alloc env (S (gpu_allocs g)) = false.
Proof.
  intros Hg Ha. pose proof (inv_known _ _ _ _ Hg Ha) as Hk.
  split_and!.
  - destruct (Z.eqb_spec (h_type (c_hdr cmd)) VIRTIO_GPU_CMD_RESOURCE_ATTACH_BACKING) as [E|E].
    + rewrite (ctrl_attach env cmd g E). apply attach_spares.
    + intros Es. pose proof (ctrl_command_inv (kn := True) env cmd g ltac:(done) Hk) as Hw. unfold wp in Hw.
      rewrite Es in Hw. apply (Hw eq_refl). by left.
  - intros Es. pose proof (cursor_command_inv (kn := True) env cmd g Hk) as Hw. unfold wp in Hw.
    rewrite Es in Hw. apply (Hw eq_refl). by left.
  - intros n g' Es. destruct (Z.eqb_spec (h_type (c_hdr cmd)) VIRTIO_GPU_CMD_RESOURCE_ATTACH_BACKING) as [E|E];
      [destruct (env_alloc env (S (gpu_allocs g))) eqn:Hal; [|by right]|]; left;
      pose proof (ctrl_command_inv (kn := True) env cmd g) as Hw; unfold wp in Hw; rewrite Es in Hw;
      (apply (known_live env none none), Hw; [by intros ? ?|exact Hk]).
Qed.



(** The reset callback returns when no legacy interrupt is pending: the
    resource table is empty, the images and dma-bufs left are exactly those the
    scanouts still show, the queues and features are reset and the VGA
    output runs again. *)
Theorem gpu_reset_releases env g :
  all_alloc env -> gpu_inv env g -> isr (vbase g) = 0 ->
  exists g', virtio_gpu_reset g = Ret (tt, g') /\
    r2d_list g' = [] /\ gpu_scanouts g' = gpu_scanouts g /\
    (forall j, img_count (gpu_heap g') j = total cur_img (gpu_scanouts g) j) /\
    (forall j, dma_count (gpu_dmabufs g') j = total dma_buf (gpu_scanouts g) j) /\
    virtio_reset_dev (vbase g) = Ret (vbase g') /\ vga_enable g' = true /\ vga_running g' = true.
Proof.
  intros Ha Hg Hi. destruct (reset_run env g Ha Hg Hi) as (g' & E & Hg' & Hb & _ & Hs & Hl & Hv & Hr).
  exists g'. split_and!; try done; intros j.
  - destruct (gi_img _ _ _ _ Hg' j) as [_ H]. by rewrite (H ltac:(intros n _; apply Ha)), Hl, Hs.
  - by rewrite (gi_dma _ _ _ _ Hg' j), Hl, Hs.
Qed.

(** Every read of the device's configuration through its BAR window
    returns: inside [struct virtio_gpu_config] a dword gives the field, what
    leaves the struct gives all ones and touches nothing. *)
Theorem gpu_config_read (g : virtio_gpu) off sz :
  0 <= off < 0x1000 -> 0 <= sz <= 4 ->
  exists v, virtio_device_cfg_read g off sz = Ret v /\
    (16 < off + sz -> v = bad_value sz) /\
    (sz = 4 -> off + sz <= 16 -> v = fld32 (cfg_bytes (cfg g)) (Z.to_nat off)).
Proof.
  intros Ho Hs. unfold virtio_device_cfg_read, cfg_max. cbn [cfgsize dev_cfgread virtio_gpu_ops].
  change (if 16 =? 0 then 0x100000000 else 16) with 16.
  replace (u64 (off + sz)) with (off + sz) by wrap_lia. destruct (Z.ltb_spec 16 (off + sz)) as [Hout|Hin]; [exists (bad_value sz); split_and!; [done|done|lia]|].
  unfold virtio_gpu_cfgread. replace (s32 off) with off by wrap_lia.
  destruct (Z.eqb_spec sz 0) as [->|Hz]; [eexists; split; [reflexivity|]; split; [lia|done]|].
  rewrite (proj2 (Z.leb_le 0 off)), (proj2 (Z.ltb_lt 0 sz)), (proj2 (Z.leb_le (off + sz) 16)) by lia.
  set (bytes := take _ _). assert (Hlen : length bytes = Z.to_nat sz).
  { unfold bytes. rewrite length_take, length_drop. cbn. lia. }
  cbn [andb mbind outcome_bind z2b]. change (z2b 0) with false. cbn iota.
  destruct (Nat.ltb_spec 4 (length bytes)); [lia|].
  eexists. split; [reflexivity|]. split; [lia|]. intros -> _.
  unfold splice. rewrite take_0, Hlen, drop_ge, app_nil_r by (rewrite length_le_encode; lia). done.
Qed.

Definition cfg_fits (c : virtio_gpu_config) : Prop :=
  fits 32 (events_read c) /\ fits 32 (events_clear c) /\ fits 32 (num_scanouts c) /\ fits 32 (num_capsets c).

Lemma clear_bits_ldiff x m : fits 32 x -> clear_bits 32 x m = Z.ldiff x m.
Proof.
  intros Hx. unfold clear_bits. rewrite wrap_land by lia. rewrite (Z.land_comm (Z.lnot m)), Z.land_assoc.
  rewrite <- (wrap_land 32 x), wrap_small by (done || lia). by rewrite <- Z.ldiff_land.
Qed.

Lemma le_word_at pre v post :
  fits 32 v -> fld32 (pre ++ le_encode 4 v ++ post) (length pre) = v.
Proof.
  intros Hv. unfold fld32. rewrite drop_app_length. change (take 4 (le_encode 4 v ++ post)) with (le_encode 4 v).
  rewrite le_decode_encode. by apply wrap_small.
Qed.

(** A dword stored over [events_clear]. *)
Lemma cfg_write_clear c v :
  cfg_fits c -> fits 32 v ->
  cfg_of_bytes (splice (cfg_bytes c) 4 (take (Z.to_nat 4) (le_encode 4 v))) = c <| events_clear := v |>.
Proof.
  intros (H1 & H2 & H3 & H4) Hv. destruct c as [r e n k]. cbn in H1, H2, H3, H4.
  change (take (Z.to_nat 4) (le_encode 4 v)) with (le_encode 4 v).
  assert (E : splice (cfg_bytes (mkCfg r e n k)) 4 (le_encode 4 v) = cfg_bytes (mkCfg r v n k)) by done.
  rewrite E. change (_ <| events_clear := v |>) with (mkCfg r v n k). unfold cfg_of_bytes, cfg_bytes. cbn [events_read events_clear num_scanouts num_capsets]. f_equal.
  - by apply (le_word_at []).
  - by apply (le_word_at (le_encode 4 r)).
  - rewrite (app_assoc (le_encode 4 r)). by apply (le_word_at (le_encode 4 r ++ le_encode 4 v)).
  - rewrite <- (app_nil_r (le_encode 4 k)), (app_assoc (le_encode 4 r)), (app_assoc (_ ++ _)).
    by apply (le_word_at ((le_encode 4 r ++ le_encode 4 v) ++ le_encode 4 n)).
Qed.

(** Acknowledging events: a dword written to [events_clear] clears its
    bits in [events_read] and reads back as 0 afterwards; after a hotplug the
    event the guest acknowledges is gone.  No other offset changes anything. *)
Theorem gpu_events_ack g off v :
  cfg_fits (cfg g) -> fits 32 v ->
  exists g', virtio_gpu_cfgwrite off 4 v g = Ret (0, g') /\
    cfg g' = (if off =? 4 then cfg g <| events_read ::= fun e => Z.ldiff e v |> <| events_clear := 0 |>
              else cfg g) /\
    gpu_base g' = gpu_base g /\ gpu_shm g' = gpu_shm g.
Proof.
  intros Hc Hv. unfold virtio_gpu_cfgwrite. destruct (off =? 4); [|by exists g].
  change ((4 <? 0) || (4 <? 4)) with false. cbn iota.
  cbv beta zeta delta [modify mbind M_bind mret M_ret]. rewrite cfg_write_clear by done.
  eexists. split; [reflexivity|]. split; [|done].
  destruct (cfg g) as [r c n k], Hc as (Hr & _). cbn in Hr.
  change (mkCfg (clear_bits 32 r v) (clear_bits 32 v v) n k = mkCfg (Z.ldiff r v) 0 n k). f_equal.
  - by apply clear_bits_ldiff.
  - rewrite clear_bits_ldiff by done. apply Z.ldiff_diag.
Qed.

(** ** A device that serves a command *)

Module GpuDemo.
Import VirtQueue.Demo.

Definition request (type flags fence : Z) (ws : list Z) : list Z :=
  hdr_bytes (mkHdr type flags fence) ++ flat_map (le_encode 4) ws.

(** One chain in queue 0: a fenced RESOURCE_CREATE_2D of a 16x16 resource 7,
    and room for the answer. *)
Definition memory : gmap Z Z := fold_left place
  [(256, desc_bytes (mkDesc 1024 40 VRING_DESC_F_NEXT 1)); (272, desc_bytes (mkDesc 1536 24 VRING_DESC_F_WRITE 0));
   (1024, request VIRTIO_GPU_CMD_RESOURCE_CREATE_2D 1 9 [7; 1; 16; 16]);
   (514, le_encode 2 1); (516, le_encode 2 0)] ∅.
Definition shm : shmem_info := mkShmem 5 4096 0 1 8 memory [].

Definition host : init_host := mkHost true 0 true true (Some 4096) true 0 0.
Definition dpy : display := mkDisplay false 0 0 [] [] [0; 0; 0] (-1) 0 [] [] [].

(** The device after its initialisation, and with queue 0 enabled. *)
Definition g0 : virtio_gpu := Eval vm_compute in
  match virtio_gpu_init 0 host shm (mkPci true false) dpy with
  | Ret (_, Some g) => g
  | _ => mkGpu (init_base (mkPci true false) false) shm (mkCfg 0 0 0 0) 0 [] ∅ ∅ 0 [] false false [] false dpy 0 0 []
  end.
Definition g1 : virtio_gpu := g0 <| gpu_base ::= fun b => b <| queues ::= fun l => setZ l 0 vq |> |>.

Lemma g0_fresh : gpu_fresh g0.
Proof. exists 0, host, shm, (mkPci true false), dpy. vm_compute. reflexivity. Defined.

Lemma willing : all_alloc willing_host.
Proof. done. Defined.

(** The host announces a change of its screens. *)
Definition hot : virtio_gpu := g0 <| cfg ::= fun c => c <| events_read := 1 |> |>.
Lemma hot_step : gpu_step willing_host g0 hot.
Proof. apply step_hotplug. vm_compute. reflexivity. Qed.

(** Serving it creates the resource and publishes a fenced OK. *)
Definition served : outcome (list Z * list Z) :=
  '(_, g) ← virtio_gpu_ctrl_bh willing_host 3 g1;
  bs ← ld_bytes (gpu_shm g) 1536 16;
  Ret (map resource_id (r2d_list g), bs).
End GpuDemo.

Example create_2d_served :
  GpuDemo.served = Ret ([7], le_encode 4 VIRTIO_GPU_RESP_OK_NODATA ++ le_encode 4 1 ++ le_encode 8 9).
Proof. vm_compute. reflexivity. Qed.

(** An allocator that refuses the fifth request, the second of an attach: the array is freed and the
    resource keeps pointing to it, so that destroying the resource frees it again. *)
Definition fifth_refused : gpu_env := mkEnv (fun n => negb (n =? 4)%nat) false (fun _ _ => -1).
Example attach_frees_twice (cmd : virtio_gpu_command) :
  (_ ← create_resource fifth_refused 7 1 16 16; _ ← attach_entries fifth_refused cmd 0 1; destroy_resource 7) GpuDemo.g0 =
    Stop UseAfterFree.
Proof. vm_compute. reflexivity. Qed.



Lemma gpu_reset_releases_witness :
  exists g', virtio_gpu_reset GpuDemo.g0 = Ret (tt, g') /\ r2d_list g' = [] /\ vga_running g' = true.
Proof.
  destruct (gpu_reset_releases willing_host GpuDemo.g0) as (g' & H1 & H2 & _ & _ & _ & _ & _ & H3);
    [exact GpuDemo.willing|apply fresh_inv, GpuDemo.g0_fresh|reflexivity|].
  exists g'. split; [exact H1|]. split; [exact H2|exact H3].
Defined.

Lemma gpu_config_read_witness : exists v, virtio_device_cfg_read GpuDemo.g0 8 4 = Ret v /\ v = 1.
Proof.
  destruct (gpu_config_read GpuDemo.g0 8 4) as (v & H1 & _ & H2); [lia|lia|].
  exists v. split; [exact H1|]. rewrite H2 by lia. vm_compute. reflexivity.
Defined.

Lemma gpu_events_ack_witness :
  exists g', virtio_gpu_cfgwrite 4 4 1 GpuDemo.g0 = Ret (0, g') /\ cfg g' = mkCfg 0 0 1 0.
Proof.
  destruct (gpu_events_ack GpuDemo.g0 4 1) as (g' & H1 & H2 & _).
  - unfold cfg_fits, fits. vm_compute. repeat split; congruence.
  - unfold fits. lia.
  - exists g'. split; [exact H1|]. rewrite H2. vm_compute. reflexivity.
Defined.
