(* ===== verification/GpuSpec.v ===== *)
(** * What the 2D commands of the virtio GPU do

    [src/devicemodel/hw/pci/virtio/virtio_gpu.c]: functional specifications of
    the operations of [VirtioGpu.v] behind RESOURCE_CREATE_2D and
    RESOURCE_UNREF, TRANSFER_TO_HOST_2D and RESOURCE_FLUSH.  The transfer is
    compared with a reference that says, for every byte of the image, which
    byte of the backing memory it holds afterwards. *)
From S2P Require Import Prelude Shmem VirtQueue VirtioCore Edid Pixman Display VirtioGpu GpuInv GpuCtrl.

(** ** Creating and destroying a resource *)

(** A format the code knows: the pixman format has 32 bits per pixel. *)
Definition known_format (format : Z) : Prop := PIXMAN_FORMAT_BPP (virtio_gpu_get_pixman_format format) = 32.

Lemma known_format_depth format :
  known_format format ->
  PIXMAN_FORMAT_DEPTH (virtio_gpu_get_pixman_format format) <= 32.
Proof.
  unfold known_format, virtio_gpu_get_pixman_format. intros _.
  apply switch_ind; [|by vm_compute].
  repeat (apply Forall_cons_2; [by vm_compute|]). by apply Forall_nil_2.
Qed.

(** An image of 32-bit pixels that fits the limits of [create_bits]. *)
Lemma create_bits_32 format width height :
  PIXMAN_FORMAT_BPP format = 32 -> 0 < width < 67108863 -> 0 < height < 2 ^ 31 ->
  create_bits true format width height = Ret (Some (4 * width, height * (4 * width))).
Proof.
  intros Hb Hw Hh. unfold create_bits, _pixman_multiply_overflows_int. rewrite Hb.
  change (2 ^ 31) with 2147483648 in Hh.
  change (u32 32) with 32. change (32 =? 0) with false. cbn [mbind outcome_bind]. change (INT32_MAX / 32) with 67108863.
  assert (Ew : u32 width = width) by (apply wrap_small; unfold fits; change (2 ^ 32) with 4294967296; lia).
  rewrite Ew. destruct (Z.leb_spec 67108863 width); [lia|].
  unfold s32, swrap. change (2 ^ (32 - 1)) with 2147483648.
  rewrite (wrap_small 32) by (unfold fits; change (2 ^ 32) with 4294967296; lia).
  rewrite Z.add_simpl_r. unfold _pixman_addition_overflows_int.
  change (u32 (INT32_MAX - u32 31)) with 2147483616.
  assert (E2 : u32 (width * 32) = width * 32)
    by (apply wrap_small; unfold fits; change (2 ^ 32) with 4294967296; lia).
  rewrite E2. destruct (Z.ltb_spec 2147483616 (width * 32)); [lia|].
  rewrite Z.shiftr_div_pow2 by done. change (2 ^ 5) with 32.
  replace ((width * 32 + 31) / 32 * 4) with (4 * width) by (Z.div_mod_to_equations; lia).
  unfold _pixman_multiply_overflows_size.
  assert (Es : u64 (4 * width) = 4 * width)
    by (apply wrap_small; unfold fits; change (2 ^ 64) with 18446744073709551616; lia).
  rewrite Es. destruct (Z.eqb_spec (4 * width) 0); [lia|]. cbn [mbind outcome_bind].
  assert (Eh : u64 height = height)
    by (apply wrap_small; unfold fits; change (2 ^ 64) with 18446744073709551616; lia).
  rewrite Eh. unfold SIZE_MAX. change (2 ^ 64 - 1) with 18446744073709551615.
  assert (Hq : height < 18446744073709551615 / (4 * width)) by (Z.div_mod_to_equations; nia).
  destruct (Z.leb_spec (18446744073709551615 / (4 * width)) height); [lia|].
  cbn [mbind outcome_bind]. do 3 f_equal. apply wrap_small. unfold fits. change (2 ^ 64) with 18446744073709551616. nia.
Qed.

(** The image a successful RESOURCE_CREATE_2D makes. *)
Definition new_2d (format width height : Z) : image :=
  mkImage 1 (virtio_gpu_get_pixman_format format) width height width (Some (height * (4 * width))) ∅.

Lemma image_create_2d env format width height g :
  all_alloc env -> known_format format -> 0 < width < 67108863 -> 0 < height < 2 ^ 31 ->
  exists i, gpu_heap g !! i = None /\
    image_create env (virtio_gpu_get_pixman_format format) width height g =
    Ret (Some i, g <| gpu_allocs ::= S |> <| gpu_allocs ::= S |>
                   <| gpu_heap ::= <[i := new_2d format width height]> |>).
Proof.
  intros Ha Hf Hw Hh. exists (fresh (dom (gpu_heap g))). split; [apply not_elem_of_dom, is_fresh|].
  unfold image_create, alloc, mbind, M_bind. rewrite !Ha. unfold lift, pixman_image_create_bits.
  pose proof (known_format_depth format Hf) as Hd. red in Hf. rewrite Hf.
  destruct (Z.ltb_spec 32 (PIXMAN_FORMAT_DEPTH (virtio_gpu_get_pixman_format format))); [lia|].
  change (2 ^ 31) with 2147483648 in Hh.
  assert (Es : forall x, 0 <= x < 2147483648 -> s32 x = x).
  { intros x Hx. unfold s32, swrap. change (2 ^ (32 - 1)) with 2147483648.
    rewrite wrap_small by (unfold fits; change (2 ^ 32) with 4294967296; lia). lia. }
  rewrite !Es by lia. unfold _pixman_bits_image_init. rewrite Hf. cbn [Z.eqb Pos.eqb andb].
  unfold z2b. destruct (Z.eqb_spec width 0); [lia|]. destruct (Z.eqb_spec height 0); [lia|]. cbn [negb andb].
  rewrite create_bits_32 by done. cbn [mbind outcome_bind].
  replace (4 * width / 4) with width by (Z.div_mod_to_equations; lia). done.
Qed.

(** The table entry of a resource just created. *)
Definition new_r2d (rid format width height : Z) (i : nat) : virtio_gpu_resource_2d :=
  mkR2d rid width height (virtio_gpu_get_pixman_format format) (Some i) IovNull 0 false None.

Lemma create_resource_run env rid format width height g :
  all_alloc env -> virtio_gpu_find_resource_2d g rid = None ->
  known_format format -> 0 < width < 67108863 -> 0 < height < 2 ^ 31 ->
  exists i g', create_resource env rid format width height g = Ret (VIRTIO_GPU_RESP_OK_NODATA, g') /\
    gpu_heap g !! i = None /\
    gpu_heap g' = <[i := new_2d format width height]> (gpu_heap g) /\
    r2d_list g' = new_r2d rid format width height i :: r2d_list g /\
    gpu_dmabufs g' = gpu_dmabufs g /\ gpu_scanouts g' = gpu_scanouts g.
Proof.
  intros Ha Hr Hf Hw Hh.
  destruct (image_create_2d env format width height (g <| gpu_allocs ::= S |>)) as (i & Hi & E); [done..|].
  exists i. eexists. split.
  - unfold create_resource, mbind, M_bind, get. rewrite Hr. unfold alloc. rewrite Ha, E. reflexivity.
  - by split_and!.
Qed.

Lemma find_head g r l rid :
  r2d_list g = r :: l -> resource_id r = rid -> virtio_gpu_find_resource_2d g rid = Some (0%nat, r).
Proof. intros E H. unfold virtio_gpu_find_resource_2d. rewrite E. cbn. by rewrite decide_True. Qed.

Lemma destroy_resource_run g rid format width height i im h l :
  r2d_list g = new_r2d rid format width height i :: l ->
  gpu_heap g = <[i := im]> h -> im_ref im = 1 -> h !! i = None ->
  destroy_resource rid g = Ret (VIRTIO_GPU_RESP_OK_NODATA, g <| gpu_heap := h |> <| r2d_list := l |>).
Proof.
  intros Hl Hh Hi Hn. unfold destroy_resource, mbind, M_bind, get.
  erewrite find_head by done. unfold release_r2d, mbind, M_bind, image_unref, on_heap, pixman_image_unref.
  cbn [rd_image new_r2d image_at]. rewrite Hh, lookup_insert_eq. cbn [mbind outcome_bind].
  rewrite Hi. change (1 - 1 =? 0) with true. rewrite delete_insert_id by done.
  destruct g. cbn in *. by subst.
Qed.

(** ** Transfer: the reference *)

(** The bytes of the mapping a list of backing entries stands for; an entry
    whose address was not in the mapping is left out. *)
Fixpoint backing_bytes (s : shmem_info) (iovs : list iovec) : list Z :=
  match iovs with
  | [] => []
  | io :: rest =>
    match iov_base io with
    | None => backing_bytes s rest
    | Some base => map (byte_at (mem s)) (seqZ base (iov_len io)) ++ backing_bytes s rest
    end
  end.

(** The rows [lo .. hi) of the rectangle [r] are copied: the offset in the
    backing memory that byte [p] of the image comes from, if any.  The backing
    is laid out with the image's own [stride], from [offset]. *)
Definition pixel_source (r : virtio_gpu_rect) (offset stride bpp width : Z) (lo hi p : Z) : option Z :=
  let h := p / stride - r_y r in
  let c := p mod stride - r_x r * bpp in
  if (lo <=? h) && (h <? hi) && (0 <=? c) && (c <? width * bpp)
  then Some (offset + stride * h + c) else None.

(** What byte [p] holds then, [old] if nothing was copied there. *)
Definition pixel_after (flat : list Z) (src : option Z) (old : Z) : Z :=
  match src with
  | Some o => match nthZ flat o with Some b => b | None => old end
  | None => old
  end.

(** Every entry lies in the mapping. *)
Definition entry_ok (s : shmem_info) (io : iovec) : Prop :=
  fits 32 (iov_len io) /\
  match iov_base io with Some base => 0 <= base /\ base + iov_len io <= mem_size s | None => True end.

(** ** Transfer: the code *)

Lemma mem_write_insert_out m a b p bs :
  a < p \/ p + Z.of_nat (length bs) <= a ->
  mem_write (<[a := b]> m) p bs = <[a := b]> (mem_write m p bs).
Proof.
  revert p. induction bs as [|c bs IH]; intros p H; cbn [mem_write length] in *; [done|].
  rewrite IH by lia. apply insert_insert_ne. lia.
Qed.

Lemma mem_write_app m p xs ys :
  mem_write (mem_write m p xs) (p + Z.of_nat (length xs)) ys = mem_write m p (xs ++ ys).
Proof.
  revert p. induction xs as [|x xs IH]; intros p; cbn [mem_write length app].
  - by rewrite Z.add_0_r.
  - rewrite mem_write_insert_out by lia. f_equal. rewrite <- IH. f_equal. lia.
Qed.

(** Writing bytes into the pixels of image [i]. *)
Definition repaint (i : nat) (f : gmap Z Z -> gmap Z Z) (g : virtio_gpu) : virtio_gpu :=
  g <| gpu_heap ::= alter (fun im => im <| im_pix ::= f |>) i |>.

Lemma heap_upd_ext (f f' : heap -> heap) g :
  f (gpu_heap g) = f' (gpu_heap g) -> g <| gpu_heap ::= f |> = g <| gpu_heap ::= f' |>.
Proof. intros H. unfold field_upd. by rewrite H. Qed.

Lemma heap_upd_id (f : heap -> heap) g : f (gpu_heap g) = gpu_heap g -> g <| gpu_heap ::= f |> = g.
Proof. intros H. unfold field_upd. rewrite H. by destruct g. Qed.

Lemma repaint_id i f g : (forall m, f m = m) -> repaint i f g = g.
Proof. intros H. apply heap_upd_id, alter_id. intros im _. unfold field_upd. rewrite H. by destruct im. Qed.

Lemma repaint_repaint i f f' g : repaint i f' (repaint i f g) = repaint i (fun m => f' (f m)) g.
Proof.
  change (repaint i f' (repaint i f g)) with
    (g <| gpu_heap ::= fun h => alter (fun im => im <| im_pix ::= f' |>) i
                                  (alter (fun im => im <| im_pix ::= f |>) i h) |>).
  apply heap_upd_ext. apply alter_alter_eq.
Qed.

Lemma repaint_ext i f f' g : (forall m, f m = f' m) -> repaint i f g = repaint i f' g.
Proof. intros H. apply heap_upd_ext, alter_ext. intros im _. unfold field_upd. by rewrite H. Qed.

Lemma repaint_lookup i f g im :
  gpu_heap g !! i = Some im -> gpu_heap (repaint i f g) !! i = Some (im <| im_pix ::= f |>).
Proof. intros H. unfold repaint. cbn. by rewrite lookup_alter_eq, H. Qed.

Lemma image_write_run i p bs g im size :
  gpu_heap g !! i = Some im -> im_bits im = Some size -> 0 <= p -> p + Z.of_nat (length bs) <= size ->
  on_heap (fun h => image_write h (Some i) p bs) g = Ret (tt, repaint i (fun m => mem_write m p bs) g).
Proof.
  intros Hi Hb Hp Hs. unfold on_heap, image_write. destruct bs as [|b bs].
  - rewrite repaint_id by done. by destruct g.
  - cbn [image_at]. rewrite Hi. cbn [mbind outcome_bind]. rewrite Hb.
    destruct (Z.leb_spec 0 p); [|lia]. destruct (Z.leb_spec (p + Z.of_nat (length (b :: bs))) size); [|lia].
    cbn [andb]. do 2 f_equal. apply (heap_upd_ext (fun _ => _)). symmetry. by apply alter_alt_Some.
Qed.

(** A piece of a block of the mapping. *)
Lemma piece s base len a n :
  0 <= a -> 0 <= n -> a + n <= len ->
  take (Z.to_nat n) (drop (Z.to_nat a) (map (byte_at (mem s)) (seqZ base len))) =
  map (byte_at (mem s)) (seqZ (base + a) n).
Proof.
  intros Ha Hn Hl. replace len with (a + (n + (len - a - n))) by lia.
  rewrite !seqZ_app by lia. rewrite !map_app.
  rewrite drop_app_length' by (rewrite length_map, length_seqZ; lia).
  by rewrite take_app_length' by (rewrite length_map, length_seqZ; lia).
Qed.

Lemma u64_small x : 0 <= x < 2 ^ 32 -> u64 x = x.
Proof. intros H. apply wrap_small, (fits_mono 32); [lia|done]. Qed.

Lemma u32_small x : 0 <= x < 2 ^ 32 -> u32 x = x.
Proof. intros H. by apply wrap_small. Qed.

(** The number of bytes taken from one entry. *)
Lemma row_chunk total done len src :
  0 <= done < total -> total < 2 ^ 31 -> 0 <= src < len -> len < 2 ^ 32 ->
  s32 (if u64 (total - done) <? u64 (len - src) then total - done else u64 (len - src)) =
  Z.min (total - done) (len - src).
Proof.
  intros Hd Ht Hs Hl. change (2 ^ 31) with 2147483648 in Ht. change (2 ^ 32) with 4294967296 in Hl.
  rewrite !u64_small by (change (2 ^ 32) with 4294967296; lia).
  destruct (Z.ltb_spec (total - done) (len - src)); rewrite s32_small; change (2 ^ 31) with 2147483648; lia.
Qed.

(** One row: the next bytes of the backing memory reach the image. *)
Lemma copy_row_run iovs i dst size total : forall src done g im,
  Forall (entry_ok (gpu_shm g)) iovs ->
  gpu_heap g !! i = Some im -> im_bits im = Some size ->
  0 <= dst -> dst + total <= size -> 0 <= done < total -> total < 2 ^ 31 -> 0 <= src < 2 ^ 32 ->
  copy_row iovs (Some i) dst src done total g =
  Ret (tt, repaint i (fun m => mem_write m (dst + done)
             (take (Z.to_nat (total - done)) (drop (Z.to_nat src) (backing_bytes (gpu_shm g) iovs)))) g).
Proof.
  induction iovs as [|[[base|] len] iovs IH]; intros src done g im Hok Hi Hb Hd Hs Hdone Ht Hsrc;
    cbn [copy_row backing_bytes iov_base iov_len].
  - rewrite repaint_id; [done|]. intros m. by rewrite drop_nil, take_nil.
  - apply Forall_cons in Hok as [[Hlen Hin] Hok]. cbn in Hlen, Hin. unfold fits in Hlen.
    assert (Hll : length (map (byte_at (mem (gpu_shm g))) (seqZ base len)) = Z.to_nat len)
      by (by rewrite length_map, length_seqZ).
    destruct (Z.eqb_spec len 0) as [->|Hl0]; [by eapply IH|].
    destruct (Z.ltb_spec src len) as [Hlt|Hge].
    + rewrite row_chunk by lia. set (n := Z.min (total - done) (len - src)).
      assert (Hn : 0 < n <= total - done /\ n <= len - src) by lia.
      unfold mbind, M_bind, mem_read. destruct (Z.eqb_spec n 0); [lia|]. destruct (Z.ltb_spec n 0); [lia|].
      unfold ld_bytes. rewrite Z2Nat.id by lia.
      replace (in_bounds (gpu_shm g) (base + src) n) with true by (symmetry; apply in_bounds_spec; lia).
      set (xs := map (byte_at (mem (gpu_shm g))) (seqZ (base + src) n)).
      assert (Hx : length xs = Z.to_nat n) by (subst xs; by rewrite length_map, length_seqZ).
      erewrite image_write_run by (done || lia).
      rewrite s32_small by lia. destruct (Z.leb_spec total (done + n)) as [Hall|Hmore].
      * assert (En : n = total - done) by lia. unfold mret, M_ret. do 2 f_equal. apply repaint_ext. intros m.
        rewrite drop_app_le by lia. rewrite take_app_le by (rewrite length_drop; lia).
        rewrite piece by lia. by rewrite <- En.
      * assert (En : n = len - src) by lia.
        erewrite IH; [|done|by apply repaint_lookup|done|lia|lia|lia|lia|done].
        do 2 f_equal. rewrite repaint_repaint. apply repaint_ext. intros m.
        replace (dst + (done + n)) with (dst + done + Z.of_nat (length xs)) by lia.
        change (gpu_shm (repaint _ _ g)) with (gpu_shm g). rewrite mem_write_app. f_equal.
        rewrite drop_app_le by lia. rewrite take_app_ge by (rewrite length_drop; lia).
        f_equal.
        -- subst xs. rewrite <- (piece _ _ len) by lia. apply take_ge. rewrite length_drop. lia.
        -- rewrite length_drop, Hll, drop_0. f_equal. lia.
    + rewrite u32_small by lia. erewrite IH by (done || lia).
      do 2 f_equal. apply repaint_ext. intros m. do 2 f_equal.
      rewrite drop_app_ge by lia. f_equal. lia.
  - apply Forall_cons in Hok as [_ Hok]. by eapply IH.
Qed.

(** The rows [h .. h + n). *)
Fixpoint rows_pix (n : nat) (flat : list Z) (r : virtio_gpu_rect) (offset stride bpp width h : Z)
    (m : gmap Z Z) : gmap Z Z :=
  match n with
  | O => m
  | S n' =>
    rows_pix n' flat r offset stride bpp width (h + 1)
      (mem_write m ((r_y r + h) * stride + r_x r * bpp)
         (take (Z.to_nat (width * bpp)) (drop (Z.to_nat (offset + stride * h)) flat)))
  end.

Lemma copy_rows_run n r2d r iovs i size offset stride bpp width : forall h g im,
  rd_image r2d = Some i -> rd_iov r2d = IovLive iovs -> rd_iovcnt r2d = Z.of_nat (length iovs) ->
  Forall (entry_ok (gpu_shm g)) iovs -> gpu_heap g !! i = Some im -> im_bits im = Some size ->
  0 <= r_x r -> 0 <= r_y r -> 0 <= h -> 0 < stride -> 0 < width * bpp < 2 ^ 31 -> 0 <= bpp -> 0 <= offset ->
  r_x r * bpp + width * bpp <= stride ->
  (r_y r + h + Z.of_nat n) * stride <= size < 2 ^ 32 ->
  offset + stride * (h + Z.of_nat n) < 2 ^ 32 ->
  copy_rows n r2d r offset stride bpp width h g =
  Ret (tt, repaint i (rows_pix n (backing_bytes (gpu_shm g) iovs) r offset stride bpp width h) g).
Proof.
  induction n as [|n IH]; intros h g im Him Hiov Hcnt Hok Hi Hb Hx Hy Hh Hst Hw Hbpp Ho Hfit Hsize Hsrc;
    cbn [copy_rows rows_pix].
  - by rewrite repaint_id.
  - unfold mbind, M_bind, lift, iov_entries. rewrite Hiov, Hcnt.
    assert (El : (if Z.of_nat (length iovs) =? 0 then Ret []
       else if Z.of_nat (length iovs) <=? Z.of_nat (length iovs)
            then Ret (take (Z.to_nat (Z.of_nat (length iovs))) iovs) else Stop OobAccess) = Ret iovs).
    { rewrite Z.leb_refl, Nat2Z.id, firstn_all. destruct (Z.eqb_spec (Z.of_nat (length iovs)) 0); [|done].
      destruct iovs; [done|]. simpl in *. lia. }
    rewrite El, Him. change (2 ^ 32) with 4294967296 in *. change (2 ^ 31) with 2147483648 in *.
    assert (Hrow : (r_y r + h + 1) * stride <= size) by nia.
    assert (0 <= stride * h) by nia. assert (0 <= (r_y r + h) * stride) by nia.
    assert (stride * (h + 1) <= stride * (h + Z.of_nat (S n))) by nia. assert (r_y r + h < 4294967296) by nia.
    rewrite (u32_small (r_y r + h)) by lia.
    rewrite (u32_small (_ * stride + _)) by nia.
    rewrite (u32_small (stride * h)) by nia. rewrite (u32_small (offset + _)) by nia.
    rewrite (u32_small (width * bpp)), (s32_small (width * bpp)) by lia.
    erewrite copy_row_run; [|done|done|done|nia|nia|lia|lia|nia].
    erewrite IH; [|done|done|done|done|by apply repaint_lookup|done|lia|lia|lia|lia|lia|lia|lia|lia|nia|nia].
    do 2 f_equal. rewrite repaint_repaint. apply repaint_ext. intros m.
    change (gpu_shm (repaint _ _ g)) with (gpu_shm g). by rewrite Z.add_0_r, Z.sub_0_r.
Qed.

(** One row, byte by byte. *)
Lemma row_byte flat start src n m p :
  0 <= src -> 0 <= n ->
  byte_at (mem_write m start (take (Z.to_nat n) (drop (Z.to_nat src) flat))) p =
  pixel_after flat (if (start <=? p) && (p <? start + n) then Some (src + (p - start)) else None) (byte_at m p).
Proof.
  intros Hs Hn. set (xs := take _ _).
  assert (Hx : Z.of_nat (length xs) <= n) by (subst xs; rewrite length_take; lia).
  destruct (Z.leb_spec start p); cbn [andb pixel_after];
    [|apply byte_at_write_ne; lia].
  destruct (Z.ltb_spec p (start + n)); cbn [pixel_after]; [|apply byte_at_write_ne; lia].
  assert (E : xs !! Z.to_nat (p - start) = nthZ flat (src + (p - start))).
  { subst xs. rewrite lookup_take_lt by lia. rewrite lookup_drop, nthZ_lookup by lia. f_equal. lia. }
  rewrite <- E. destruct (xs !! Z.to_nat (p - start)) as [b|] eqn:Hb.
  - apply (byte_at_write_eq m start) in Hb. rewrite <- Hb. f_equal. lia.
  - apply lookup_ge_None in Hb. apply byte_at_write_ne. lia.
Qed.

(** A byte of the image is in row [h] of the rectangle exactly when it lies in
    the bytes that row occupies. *)
Lemma in_row r stride bpp width h p :
  0 < stride -> 0 <= r_x r * bpp -> r_x r * bpp + width * bpp <= stride ->
  let start := (r_y r + h) * stride + r_x r * bpp in
  start <= p < start + width * bpp <->
  p / stride - r_y r = h /\ 0 <= p mod stride - r_x r * bpp < width * bpp.
Proof.
  intros Hs Hx Hw start. subst start. pose proof (Z.div_mod p stride ltac:(lia)) as Hdm.
  pose proof (Z.mod_pos_bound p stride Hs) as Hm.
  split.
  - intros Hp. assert (E : p / stride = r_y r + h).
    { symmetry. apply (Z.div_unique_pos _ _ _ (p - (r_y r + h) * stride)); nia. }
    rewrite E in *. nia.
  - intros [<- Hc]. nia.
Qed.

Lemma rows_pix_byte n flat r offset stride bpp width : forall h m p,
  0 < stride -> 0 <= r_x r * bpp -> 0 <= width * bpp -> r_x r * bpp + width * bpp <= stride ->
  0 <= h -> 0 <= offset ->
  byte_at (rows_pix n flat r offset stride bpp width h m) p =
  pixel_after flat (pixel_source r offset stride bpp width h (h + Z.of_nat n) p) (byte_at m p).
Proof.
  induction n as [|n IH]; intros h m p Hs Hx Hw Hfit Hh Ho; cbn [rows_pix].
  - unfold pixel_source. destruct (Z.leb_spec h (p / stride - r_y r)); [|done].
    destruct (Z.ltb_spec (p / stride - r_y r) (h + Z.of_nat 0)); [lia|done].
  - rewrite IH, row_byte by nia. pose proof (in_row r stride bpp width h p Hs Hx Hfit) as Hrow.
    cbv zeta in Hrow. revert Hrow. set (start := (r_y r + h) * stride + r_x r * bpp). intros Hrow.
    unfold pixel_source. replace (h + 1 + Z.of_nat n) with (h + Z.of_nat (S n)) by lia.
    destruct (decide (start <= p < start + width * bpp)) as [Hin|Hout].
    + assert (E1 : (start <=? p) && (p <? start + width * bpp) = true) by lia. rewrite E1.
      apply Hrow in Hin as Hc. destruct Hc as [Hq Hc]. rewrite Hq.
      assert (E2 : (h + 1 <=? h) = false) by lia. rewrite E2. cbn [andb].
      assert (E3 : (h <=? h) && (h <? h + Z.of_nat (S n)) && (0 <=? p mod stride - r_x r * bpp) &&
         (p mod stride - r_x r * bpp <? width * bpp) = true).
      { destruct Hc as [Hc1%Z.leb_le Hc2%Z.ltb_lt]. rewrite Hc1, Hc2, Z.leb_refl. cbn [andb].
        rewrite !andb_true_r. apply Z.ltb_lt. clear. lia. }
      rewrite E3.
      cbn [pixel_after]. assert (E4 : offset + stride * h + (p - start) =
        offset + stride * h + (p mod stride - r_x r * bpp)); [|by rewrite E4].
      pose proof (Z.div_mod p stride ltac:(lia)). subst start. nia.
    + assert (E1 : (start <=? p) && (p <? start + width * bpp) = false) by lia. rewrite E1.
      cbn [pixel_after]. f_equal.
      destruct (decide (p / stride - r_y r = h /\ 0 <= p mod stride - r_x r * bpp < width * bpp)) as [Hc|Hc];
        [by apply Hrow in Hc|].
      clear -Hc. generalize dependent (p mod stride - r_x r * bpp). intros c Hc.
      destruct (Z.leb_spec (h + 1) (p / stride - r_y r)), (Z.leb_spec h (p / stride - r_y r)); try done; try lia.
      destruct (Z.leb_spec 0 c), (Z.ltb_spec c (width * bpp)); rewrite ?andb_false_r; try done.
      exfalso. apply Hc. lia.
Qed.

(** The image behind a 2D resource, as [new_2d] makes it. *)
Record image_of (r2d : virtio_gpu_resource_2d) (im : image) : Prop := {
  io_ref : 1 <= im_ref im;
  io_format : im_format im = rd_format r2d;
  io_bpp : PIXMAN_FORMAT_BPP (rd_format r2d) = 32;
  io_width : 0 < rd_width r2d < 67108863;
  io_height : 0 < rd_height r2d < 2 ^ 31;
  io_stride : im_rowstride im = rd_width r2d;
  io_size : im_bits im = Some (rd_height r2d * (4 * rd_width r2d))
}.

(** The rectangle lies in the resource, exactly. *)
Record rect_in (r : virtio_gpu_rect) (r2d : virtio_gpu_resource_2d) : Prop := {
  ri_x : 0 <= r_x r; ri_y : 0 <= r_y r; ri_width : 0 < r_width r; ri_height : 0 <= r_height r;
  ri_right : r_x r + r_width r <= rd_width r2d; ri_bottom : r_y r + r_height r <= rd_height r2d
}.

Lemma held_image g i im :
  gpu_heap g !! i = Some im -> 1 <= im_ref im ->
  exists im1, gpu_heap (g <| gpu_heap := <[i := im1]> (gpu_heap g) |>) !! i = Some im1 /\
    image_ref (Some i) g = Ret (tt, g <| gpu_heap := <[i := im1]> (gpu_heap g) |>) /\
    im1 = im <| im_ref ::= fun n => n + 1 |>.
Proof.
  intros Hi Hr. eexists. split; [apply lookup_insert_eq|]. split; [|reflexivity].
  unfold image_ref, on_heap, pixman_image_ref, image_at. by rewrite Hi.
Qed.

(** Holding a reference around a piece of code that only paints. *)
Lemma released_image g i im f :
  gpu_heap g !! i = Some im -> 1 <= im_ref im ->
  image_unref (Some i) (repaint i f (g <| gpu_heap := <[i := im <| im_ref ::= fun n => n + 1 |>]> (gpu_heap g) |>)) =
  Ret (tt, repaint i f g).
Proof.
  intros Hi Hr. unfold image_unref, on_heap, pixman_image_unref, image_at, repaint. cbn -[Z.sub].
  rewrite lookup_alter_eq, lookup_insert_eq. cbn -[Z.sub].
  destruct (Z.eqb_spec (im_ref im + 1 - 1) 0); [lia|]. unfold field_upd. cbn. do 3 f_equal.
  apply map_eq. intros j. destruct (decide (j = i)) as [->|].
  - rewrite lookup_insert_eq, lookup_alter_eq, Hi. cbn. f_equal. f_equal. lia.
  - by rewrite lookup_insert_ne, !lookup_alter_ne, lookup_insert_ne by done.
Qed.

Lemma rect_region_spec r :
  0 <= r_x r -> 0 <= r_y r -> 0 < r_width r -> 0 < r_height r ->
  r_x r + r_width r < 2 ^ 15 -> r_y r + r_height r < 2 ^ 15 ->
  rect_region r = mkRegion16 (mkBox (r_x r) (r_y r) (r_x r + r_width r) (r_y r + r_height r)) false.
Proof.
  intros Hx Hy Hw Hh Hr Hb. change (2 ^ 15) with 32768 in *.
  assert (E16 : forall x, 0 <= x < 32768 -> s16 x = x).
  { intros x H. unfold s16, swrap. change (2 ^ (16 - 1)) with 32768.
    rewrite wrap_small by (unfold fits; change (2 ^ 16) with 65536; lia). lia. }
  unfold rect_region, pixman_region_init_rect, GOOD_RECT.
  rewrite !s32_small by (change (2 ^ 31) with 2147483648; lia).
  rewrite !E16 by lia. cbn [x1 x2 y1 y2].
  destruct (Z.ltb_spec (r_x r) (r_x r + r_width r)); [|lia].
  by destruct (Z.ltb_spec (r_y r) (r_y r + r_height r)); [|lia].
Qed.

(** The pixel (x, y) is in the rectangle. *)
Definition covers_pixel (r : virtio_gpu_rect) (x y : Z) : Prop :=
  r_x r <= x < r_x r + r_width r /\ r_y r <= y < r_y r + r_height r.

(** A rectangle that is not empty and whose edges are 15-bit numbers. *)
Definition small_rect (r : virtio_gpu_rect) : Prop :=
  0 <= r_x r /\ 0 <= r_y r /\ 0 < r_width r /\ 0 < r_height r /\
  r_x r + r_width r < 2 ^ 15 /\ r_y r + r_height r < 2 ^ 15.

(** ** Properties *)

(** Round trip of RESOURCE_CREATE_2D and RESOURCE_UNREF: with a host that
    refuses no allocation, a fresh id, a known format and a size pixman can
    represent, the resource is created with its own cleared image of
    [height] rows of [4 * width] bytes and can be found under its id; destroying it
    restores the table and the heap. *)
Theorem create_destroy_roundtrip env rid format width height g :
  all_alloc env -> virtio_gpu_find_resource_2d g rid = None ->
  known_format format -> 0 < width < 67108863 -> 0 < height < 2 ^ 31 ->
  exists i g1 g2, create_resource env rid format width height g = Ret (VIRTIO_GPU_RESP_OK_NODATA, g1) /\
    virtio_gpu_find_resource_2d g1 rid = Some (0%nat, new_r2d rid format width height i) /\
    gpu_heap g1 !! i = Some (new_2d format width height) /\
    destroy_resource rid g1 = Ret (VIRTIO_GPU_RESP_OK_NODATA, g2) /\
    gpu_heap g2 = gpu_heap g /\ r2d_list g2 = r2d_list g /\
    gpu_dmabufs g2 = gpu_dmabufs g /\ gpu_scanouts g2 = gpu_scanouts g.
Proof.
  intros Ha Hr Hf Hw Hh.
  destruct (create_resource_run env rid format width height g Ha Hr Hf Hw Hh)
    as (i & g1 & E & Hi & Hheap & Hl & Hd & Hs).
  exists i, g1. eexists. split; [exact E|]. split; [by eapply find_head|].
  split; [by rewrite Hheap, lookup_insert_eq|].
  split; [by eapply (destroy_resource_run g1)|]. by split_and!.
Qed.

(** C4. TRANSFER_TO_HOST_2D copies exactly the rectangle: for a rectangle
    inside the resource and a backing whose entries lie in the mapping, the
    copy returns, every byte of the rectangle's rows holds the byte of the
    backing at [offset + stride * row + column], as far as the backing
    reaches, and no other byte of any image changes; the image keeps its
    references. *)
Theorem transfer_copies_rect r2d r offset iovs i im g :
  rd_image r2d = Some i -> gpu_heap g !! i = Some im -> image_of r2d im -> rect_in r r2d ->
  rd_iov r2d = IovLive iovs -> rd_iovcnt r2d = Z.of_nat (length iovs) ->
  Forall (entry_ok (gpu_shm g)) iovs ->
  let stride := 4 * rd_width r2d in
  0 <= offset -> offset + stride * r_height r < 2 ^ 32 -> rd_height r2d * stride < 2 ^ 32 ->
  exists f, transfer_image r2d r offset g = Ret (tt, repaint i f g) /\
    forall m p, byte_at (f m) p =
      pixel_after (backing_bytes (gpu_shm g) iovs)
        (pixel_source r offset stride 4 (r_width r) 0 (r_height r) p) (byte_at m p).
Proof.
  intros Him Hi [Href Hform Hbpp Hw Hh Hst Hsz] [Hx Hy Hrw Hrh Hr Hb] Hiov Hcnt Hok stride Ho Hos Hsize.
  destruct (held_image g i im Hi Href) as (im1 & Hi1 & E1 & Him1).
  subst stride. change (2 ^ 31) with 2147483648 in *. change (2 ^ 32) with 4294967296 in *.
  exists (rows_pix (Z.to_nat (r_height r)) (backing_bytes (gpu_shm g) iovs) r offset (4 * rd_width r2d) 4 (r_width r) 0).
  split.
  - unfold transfer_image, mbind, M_bind. rewrite Him, E1.
    unfold ask_heap, pixman_image_get_stride, pixman_image_get_format, image_at.
    rewrite Hi1. cbn [mbind outcome_bind]. rewrite Hi1. cbn [mbind outcome_bind]. replace (im_rowstride im1) with (im_rowstride im) by (by rewrite Him1).
    replace (im_format im1) with (im_format im) by (by rewrite Him1). rewrite Hst, Hform.
    unfold bytes_per_pixel. rewrite Hbpp. change (32 / 8) with 4.
    rewrite !s32_small by (change (2 ^ 31) with 2147483648; repeat case_match; lia).
    rewrite !u32_small by (change (2 ^ 32) with 4294967296; repeat case_match; lia).
    replace (if r_width r <? rd_width r2d then r_width r else rd_width r2d) with (r_width r) by (case_match; lia).
    replace (if r_height r <? rd_height r2d then r_height r else rd_height r2d) with (r_height r) by (case_match; lia).
    replace (rd_width r2d * 4) with (4 * rd_width r2d) by lia.
    assert (Hb1 : im_bits im1 = Some (rd_height r2d * (4 * rd_width r2d))) by (by rewrite Him1).
    match type of E1 with _ = Ret (_, ?s) => assert (Hok1 : Forall (entry_ok (gpu_shm s)) iovs) by exact Hok end.
    rewrite (copy_rows_run (Z.to_nat (r_height r)) r2d r iovs i _ offset (4 * rd_width r2d) 4 (r_width r) 0
      _ im1 Him Hiov Hcnt Hok1 Hi1 Hb1); try lia.
    + subst im1. by apply released_image.
    + change (2 ^ 32) with 4294967296. rewrite Z2Nat.id by lia.
      split; [apply Z.mul_le_mono_nonneg_r; lia|lia].
  - intros m p. rewrite rows_pix_byte by lia. by rewrite Z.add_0_l, Z2Nat.id by lia.
Qed.

(** RESOURCE_FLUSH updates a screen exactly when the screen shows the
    flushed resource and the flushed rectangle and the screen's own rectangle
    have a pixel in common (edges below 2^15, the range of pixman's 16-bit
    regions). *)
Theorem needs_flush_overlap s rid r :
  small_rect (scanout_rect s) -> small_rect r ->
  virtio_gpu_scanout_needs_flush s rid r = true <->
  rid = sc_resource_id s /\ exists x y, covers_pixel (scanout_rect s) x y /\ covers_pixel r x y.
Proof.
  intros (? & ? & ? & ? & ? & ?) (? & ? & ? & ? & ? & ?). unfold virtio_gpu_scanout_needs_flush.
  rewrite !rect_region_spec by done. destruct (Z.eqb_spec rid (sc_resource_id s)) as [->|Hne]; cbn [negb];
    [|split; [done|by intros [? _]]].
  unfold pixman_region_intersect, pixman_region_not_empty, EXTENTCHECK.
  set (a := scanout_rect s) in *. cbn [empty_data extents x1 x2 y1 y2 orb].
  destruct (Z.leb_spec (r_x a + r_width a) (r_x r)), (Z.leb_spec (r_x r + r_width r) (r_x a)),
    (Z.leb_spec (r_y a + r_height a) (r_y r)), (Z.leb_spec (r_y r + r_height r) (r_y a));
    cbn; (split; [first [done|intros _; split; [done|]]|unfold covers_pixel; intros [_ (x & y & ? & ?)]; first [done|lia]]).
  exists (Z.max (r_x a) (r_x r)), (Z.max (r_y a) (r_y r)). unfold covers_pixel. lia.
Qed.

(** ** The properties at concrete inputs *)

Module SpecDemo.

(** A 4x2 resource whose backing is two entries of the mapping, 24 and 8 bytes
    long, with an entry between them that is not in the mapping. *)
Definition r2d : virtio_gpu_resource_2d :=
  mkR2d 7 4 2 PIXMAN_a8r8g8b8 (Some 0%nat)
    (IovLive [mkIovec (Some 512) 24; mkIovec None 4; mkIovec (Some 1024) 8]) 3 false None.
Definition g : virtio_gpu := GpuDemo.g0 <| r2d_list := [r2d] |> <| gpu_heap := {[ 0%nat := new_2d 1 4 2 ]} |>
  <| gpu_shm := mkShmem 5 4096 0 1 8 (mem_write (mem_write ∅ 512 (seqZ 1 24)) 1024 (seqZ 100 8)) [] |>.

(** Rows 0 and 1, columns 1 to 2. *)
Definition r : virtio_gpu_rect := mkRect 1 0 2 2.

Lemma image : image_of r2d (new_2d 1 4 2).
Proof. by split. Defined.

Lemma rect : rect_in r r2d.
Proof. by split. Defined.

Definition scanout : virtio_gpu_scanout := mkScanout 0 7 (mkRect 0 0 640 480) None None true.
End SpecDemo.

Lemma create_destroy_roundtrip_witness :
  exists g1, create_resource willing_host 7 VIRTIO_GPU_FORMAT_B8G8R8A8_UNORM 64 48 GpuDemo.g0 =
    Ret (VIRTIO_GPU_RESP_OK_NODATA, g1) /\ length (r2d_list g1) = 1%nat.
Proof.
  destruct (create_destroy_roundtrip willing_host 7 VIRTIO_GPU_FORMAT_B8G8R8A8_UNORM 64 48 GpuDemo.g0
    GpuDemo.willing eq_refl eq_refl ltac:(done) ltac:(done)) as (i & g1 & g2 & E & _).
  exists g1. split; [exact E|]. revert E. vm_compute. intros E. injection E as <-. reflexivity.
Defined.

(** Row 0 gets backing bytes 0 to 7, row 1 bytes 16 to 23; the rest stays 0. *)
Lemma transfer_copies_rect_witness :
  exists f, transfer_image SpecDemo.r2d SpecDemo.r 0 SpecDemo.g = Ret (tt, repaint 0 f SpecDemo.g) /\
    map (byte_at (f ∅)) (seqZ 0 32) =
    replicate 4 0 ++ seqZ 1 8 ++ replicate 8 0 ++ seqZ 17 8 ++ replicate 4 0.
Proof.
  destruct (transfer_copies_rect SpecDemo.r2d SpecDemo.r 0
    [mkIovec (Some 512) 24; mkIovec None 4; mkIovec (Some 1024) 8] 0 (new_2d 1 4 2) SpecDemo.g)
    as (f & E & Hf); [done|done|exact SpecDemo.image|exact SpecDemo.rect|done|done| |done|done|done|].
  - repeat (apply Forall_cons_2; [by split|]). by apply Forall_nil_2.
  - exists f. split; [exact E|].
    rewrite (map_ext _ _ (Hf ∅)). vm_compute. reflexivity.
Defined.

Lemma needs_flush_overlap_witness :
  exists x y, covers_pixel (scanout_rect SpecDemo.scanout) x y /\ covers_pixel (mkRect 600 470 64 64) x y.
Proof.
  refine (proj2 (proj1 (needs_flush_overlap SpecDemo.scanout 7 (mkRect 600 470 64 64) _ _) eq_refl));
    by repeat split.
Defined.
