(* ===== verification/Vga.v ===== *)
(** * VGA emulation

    [src/devicemodel/hw/vga.c] and [gc.c]: the registers of the VGA and their
    I/O ports, the four planes of its memory, rendering into the image of a
    [struct gfx_ctx], and the Bochs VBE registers next to it.

    [struct vga_vdev] is split like in the code, a record for each group of
    registers; its pointer [gc_image] and the caller's [gc] name the same image,
    which is [gi_*] in [vga_hw]. *)
From S2P Require Import Prelude.

Definition KB := 1024.

(** ** Ports and register bits (vga.h) *)

Definition VGA_IOPORT_START := 0x3c0.
Definition VGA_IOPORT_END := 0x3df.
Definition GEN_INPUT_STS0_PORT := 0x3c2.
Definition GEN_FEATURE_CTRL_PORT := 0x3ca.
Definition GEN_MISC_OUTPUT_PORT := 0x3cc.
Definition GEN_INPUT_STS1_MONO_PORT := 0x3ba.
Definition GEN_INPUT_STS1_COLOR_PORT := 0x3da.
Definition GEN_IS1_VR := 0x08.
Definition GEN_IS1_DE := 0x01.
Definition ATC_IDX_PORT := 0x3c0.
Definition ATC_DATA_PORT := 0x3c1.
Definition ATC_IDX_MASK := 0x1f.
Definition ATC_PALETTE0 := 0.
Definition ATC_PALETTE15 := 15.
Definition ATC_MODE_CONTROL := 16.
Definition ATC_MC_IPS := 0x80.
Definition ATC_MC_GA := 0x01.
Definition ATC_OVERSCAN_COLOR := 17.
Definition ATC_COLOR_PLANE_ENABLE := 18.
Definition ATC_HORIZ_PIXEL_PANNING := 19.
Definition ATC_COLOR_SELECT := 20.
Definition ATC_CS_C67 := 0x0c.
Definition ATC_CS_C45 := 0x03.
Definition SEQ_IDX_PORT := 0x3c4.
Definition SEQ_DATA_PORT := 0x3c5.
Definition SEQ_RESET := 0.
Definition SEQ_RESET_ASYNC := 0x1.
Definition SEQ_RESET_SYNC := 0x2.
Definition SEQ_CLOCKING_MODE := 1.
Definition SEQ_CM_SO := 0x20.
Definition SEQ_CM_89 := 0x01.
Definition SEQ_MAP_MASK := 2.
Definition SEQ_CHAR_MAP_SELECT := 3.
Definition SEQ_CMS_SAH := 0x20.
Definition SEQ_CMS_SAH_SHIFT := 5.
Definition SEQ_CMS_SA := 0x0c.
Definition SEQ_CMS_SA_SHIFT := 2.
Definition SEQ_CMS_SBH := 0x10.
Definition SEQ_CMS_SBH_SHIFT := 4.
Definition SEQ_CMS_SB := 0x03.
Definition SEQ_CMS_SB_SHIFT := 0.
Definition SEQ_MEMORY_MODE := 4.
Definition SEQ_MM_C4 := 0x08.
Definition SEQ_MM_OE := 0x04.
Definition SEQ_MM_EM := 0x02.
Definition GC_IDX_PORT := 0x3ce.
Definition GC_DATA_PORT := 0x3cf.
Definition GC_SET_RESET := 0.
Definition GC_ENABLE_SET_RESET := 1.
Definition GC_COLOR_COMPARE := 2.
Definition GC_DATA_ROTATE := 3.
Definition GC_READ_MAP_SELECT := 4.
Definition GC_MODE := 5.
Definition GC_MODE_OE := 0x10.
Definition GC_MODE_C4 := 0x04.
Definition GC_MISCELLANEOUS := 6.
Definition GC_MISC_GM := 0x01.
Definition GC_MISC_MM := 0x0c.
Definition GC_MISC_MM_SHIFT := 2.
Definition GC_COLOR_DONT_CARE := 7.
Definition GC_BIT_MASK := 8.
Definition CRTC_IDX_MONO_PORT := 0x3b4.
Definition CRTC_DATA_MONO_PORT := 0x3b5.
Definition CRTC_IDX_COLOR_PORT := 0x3d4.
Definition CRTC_DATA_COLOR_PORT := 0x3d5.
Definition CRTC_HORIZ_TOTAL := 0.
Definition CRTC_HORIZ_DISP_END := 1.
Definition CRTC_START_HORIZ_BLANK := 2.
Definition CRTC_END_HORIZ_BLANK := 3.
Definition CRTC_START_HORIZ_RETRACE := 4.
Definition CRTC_END_HORIZ_RETRACE := 5.
Definition CRTC_VERT_TOTAL := 6.
Definition CRTC_OVERFLOW := 7.
Definition CRTC_OF_VDE9 := 0x40.
Definition CRTC_OF_VDE9_SHIFT := 6.
Definition CRTC_OF_VDE8 := 0x02.
Definition CRTC_OF_VDE8_SHIFT := 1.
Definition CRTC_PRESET_ROW_SCAN := 8.
Definition CRTC_MAX_SCAN_LINE := 9.
Definition CRTC_CURSOR_START := 10.
Definition CRTC_CS_CO := 0x20.
Definition CRTC_CS_CS := 0x1f.
Definition CRTC_CURSOR_END := 11.
Definition CRTC_CE_CE := 0x1f.
Definition CRTC_START_ADDR_HIGH := 12.
Definition CRTC_START_ADDR_LOW := 13.
Definition CRTC_CURSOR_LOC_HIGH := 14.
Definition CRTC_CURSOR_LOC_LOW := 15.
Definition CRTC_VERT_RETRACE_START := 16.
Definition CRTC_VERT_RETRACE_END := 17.
Definition CRTC_VERT_DISP_END := 18.
Definition CRTC_OFFSET := 19.
Definition CRTC_UNDERLINE_LOC := 20.
Definition CRTC_START_VERT_BLANK := 21.
Definition CRTC_END_VERT_BLANK := 22.
Definition CRTC_MODE_CONTROL := 23.
Definition CRTC_MC_TE := 0x80.
Definition CRTC_LINE_COMPARE := 24.
Definition DAC_MASK := 0x3c6.
Definition DAC_IDX_RD_PORT := 0x3c7.
Definition DAC_IDX_WR_PORT := 0x3c8.
Definition DAC_DATA_PORT := 0x3c9.
Definition VBE_DISPI_INDEX_ENABLE := 0x4.
Definition VBE_DISPI_DISABLED := 0x00.
Definition VBE_DISPI_ENABLED := 0x01.
Definition VBE_DISPI_ID0 := 0xB0C0.

(** ** State *)

Record vga_seq_regs := mkSeq {
  seq_index : Z; seq_reset : Z; seq_clock_mode : Z; seq_cm_dots : Z; seq_map_mask : Z;
  seq_cmap_sel : Z; seq_cmap_pri_off : Z; seq_cmap_sec_off : Z; seq_mm : Z
}.
#[export] Instance vga_seq_regs_eta : Settable vga_seq_regs := fun r =>
  mkSeq (seq_index r) (seq_reset r) (seq_clock_mode r) (seq_cm_dots r) (seq_map_mask r)
    (seq_cmap_sel r) (seq_cmap_pri_off r) (seq_cmap_sec_off r) (seq_mm r).

Record vga_crtc_regs := mkCrtc {
  crtc_index : Z; crtc_mode_ctrl : Z; crtc_horiz_total : Z; crtc_horiz_disp_end : Z;
  crtc_start_horiz_blank : Z; crtc_end_horiz_blank : Z; crtc_start_horiz_retrace : Z;
  crtc_end_horiz_retrace : Z; crtc_vert_total : Z; crtc_overflow : Z; crtc_present_row_scan : Z;
  crtc_max_scan_line : Z; crtc_cursor_start : Z; crtc_cursor_on : Z; crtc_cursor_end : Z;
  crtc_start_addr_high : Z; crtc_start_addr_low : Z; crtc_start_addr : Z;
  crtc_cursor_loc_low : Z; crtc_cursor_loc_high : Z; crtc_cursor_loc : Z;
  crtc_vert_retrace_start : Z; crtc_vert_retrace_end : Z; crtc_vert_disp_end : Z;
  crtc_offset : Z; crtc_underline_loc : Z; crtc_start_vert_blank : Z; crtc_end_vert_blank : Z;
  crtc_line_compare : Z
}.
#[export] Instance vga_crtc_regs_eta : Settable vga_crtc_regs := fun r =>
  mkCrtc (crtc_index r) (crtc_mode_ctrl r) (crtc_horiz_total r) (crtc_horiz_disp_end r)
    (crtc_start_horiz_blank r) (crtc_end_horiz_blank r) (crtc_start_horiz_retrace r)
    (crtc_end_horiz_retrace r) (crtc_vert_total r) (crtc_overflow r) (crtc_present_row_scan r)
    (crtc_max_scan_line r) (crtc_cursor_start r) (crtc_cursor_on r) (crtc_cursor_end r)
    (crtc_start_addr_high r) (crtc_start_addr_low r) (crtc_start_addr r) (crtc_cursor_loc_low r)
    (crtc_cursor_loc_high r) (crtc_cursor_loc r) (crtc_vert_retrace_start r)
    (crtc_vert_retrace_end r) (crtc_vert_disp_end r) (crtc_offset r) (crtc_underline_loc r)
    (crtc_start_vert_blank r) (crtc_end_vert_blank r) (crtc_line_compare r).

Record vga_gc_regs := mkGc {
  gc_index : Z; gc_set_reset : Z; gc_enb_set_reset : Z; gc_color_compare : Z; gc_rotate : Z;
  gc_op : Z; gc_read_map_sel : Z; gc_mode : Z; gc_mode_c4 : bool; gc_mode_oe : bool;
  gc_mode_rm : Z; gc_mode_wm : Z; gc_misc : Z; gc_misc_gm : Z; gc_misc_mm : Z;
  gc_color_dont_care : Z; gc_bit_mask : Z; gc_latch0 : Z; gc_latch1 : Z; gc_latch2 : Z;
  gc_latch3 : Z
}.
#[export] Instance vga_gc_regs_eta : Settable vga_gc_regs := fun r =>
  mkGc (gc_index r) (gc_set_reset r) (gc_enb_set_reset r) (gc_color_compare r) (gc_rotate r)
    (gc_op r) (gc_read_map_sel r) (gc_mode r) (gc_mode_c4 r) (gc_mode_oe r) (gc_mode_rm r)
    (gc_mode_wm r) (gc_misc r) (gc_misc_gm r) (gc_misc_mm r) (gc_color_dont_care r)
    (gc_bit_mask r) (gc_latch0 r) (gc_latch1 r) (gc_latch2 r) (gc_latch3 r).

Record vga_atc_regs := mkAtc {
  atc_flipflop : Z; atc_index : Z; atc_palette : list Z; atc_mode : Z; atc_overscan_color : Z;
  atc_color_plane_enb : Z; atc_horiz_pixel_panning : Z; atc_color_select : Z;
  atc_color_select_45 : Z; atc_color_select_67 : Z
}.
#[export] Instance vga_atc_regs_eta : Settable vga_atc_regs := fun r =>
  mkAtc (atc_flipflop r) (atc_index r) (atc_palette r) (atc_mode r) (atc_overscan_color r)
    (atc_color_plane_enb r) (atc_horiz_pixel_panning r) (atc_color_select r)
    (atc_color_select_45 r) (atc_color_select_67 r).

Record vga_dac_regs := mkDac {
  dac_state : Z; dac_rd_index : Z; dac_rd_subindex : Z; dac_wr_index : Z; dac_wr_subindex : Z;
  dac_palette : list Z; dac_palette_rgb : list Z
}.
#[export] Instance vga_dac_regs_eta : Settable vga_dac_regs := fun r =>
  mkDac (dac_state r) (dac_rd_index r) (dac_rd_subindex r) (dac_wr_index r) (dac_wr_subindex r)
    (dac_palette r) (dac_palette_rgb r).

(** [struct gfx_ctx] with its image; [gi_data] is the pixel array, as long as
    the memory behind the pointer, [None] for a null pointer. *)
Record gfx_ctx := mkGfx {
  gi_vgamode : bool; gi_width : Z; gi_height : Z; gi_data : option (list Z); raw : bool
}.
#[export] Instance gfx_ctx_eta : Settable gfx_ctx := fun r =>
  mkGfx (gi_vgamode r) (gi_width r) (gi_height r) (gi_data r) (raw r).

(** [vga_ram] is null when only the ports are emulated. *)
Record vga_vdev := mkVdev {
  gc_width : Z; gc_height : Z;
  vga_ram : option (gmap Z Z);
  vga_misc : Z; vga_sts1 : Z;
  vga_seq : vga_seq_regs; vga_crtc : vga_crtc_regs; vga_gc : vga_gc_regs;
  vga_atc : vga_atc_regs; vga_dac : vga_dac_regs
}.
#[export] Instance vga_vdev_eta : Settable vga_vdev := fun r =>
  mkVdev (gc_width r) (gc_height r) (vga_ram r) (vga_misc r) (vga_sts1 r) (vga_seq r) (vga_crtc r)
    (vga_gc r) (vga_atc r) (vga_dac r).

(** The device and the context whose image it shares. *)
Record vga_hw := mkHw { vd : vga_vdev; gctx : gfx_ctx }.
#[export] Instance vga_hw_eta : Settable vga_hw := fun r => mkHw (vd r) (gctx r).

Definition V (A : Type) := M vga_hw A.

(** ** The graphics context (gc.c) *)

(** [calloc] and [realloc] of the pixels: zeroed, or null. *)
Definition new_pixels (alloc : bool) (n : Z) : option (list Z) :=
  if alloc then Some (replicate (Z.to_nat n) 0) else None.

(** The two small allocations are asserted. [fbaddr] is memory of the caller. *)
Definition gc_init (alloc : bool) (width height : Z) (fbaddr : option (list Z)) : gfx_ctx :=
  match fbaddr with
  | Some fb => mkGfx false width height (Some fb) true
  | None => mkGfx false width height (new_pixels alloc (u64 (s32 (width * height)))) false
  end.

Definition gc_resize (alloc : bool) (width height : Z) (gc : gfx_ctx) : gfx_ctx :=
  let gc := gc <| gi_width := width |> <| gi_height := height |> in
  if raw gc then gc
  else gc <| gi_data := new_pixels alloc (u64 (s32 (width * height) * 4) / 4) |>.

(** ** Memory *)

Definition PLANE := 64 * KB.

(** [vd->vga_ram[off]] *)
Definition ram_rd (off : Z) : V Z := fun h =>
  match vga_ram (vd h) with
  | None => Stop NullDeref
  | Some m => if (0 <=? off) && (off <? 4 * PLANE) then Ret (default 0 (m !! off), h) else Stop OobAccess
  end.

Definition ram_wr (off b : Z) : V unit := fun h =>
  match vga_ram (vd h) with
  | None => Stop NullDeref
  | Some m => if (0 <=? off) && (off <? 4 * PLANE)
              then Ret (tt, h <| vd ::= fun d => d <| vga_ram := Some (<[off := b]> m) |> |>)
              else Stop OobAccess
  end.

(** The switch over the memory map: the offset of [addr], or none for an
    address in front of the window. *)
Definition mem_offset (mm addr : Z) : option Z :=
  let offset := s32 addr in
  let window base size := if base <=? offset then Some (Z.land (offset - base) (size - 1)) else None in
  switch mm
    [ ([0], window 0xa0000 (128 * KB)); ([1], window 0xa0000 (64 * KB));
      ([2], window 0xb0000 (32 * KB)); ([3], window 0xb8000 (32 * KB)) ]
    (Some offset).

Definition vga_mem_rd_handler (addr : Z) : V Z :=
  h ← get;
  let g := vga_gc (vd h) in
  match mem_offset (gc_misc_mm g) addr with
  | None => mret 0xFFFFFFFF
  | Some offset =>
    l0 ← ram_rd (offset + 0 * PLANE);
    l1 ← ram_rd (offset + 1 * PLANE);
    l2 ← ram_rd (offset + 2 * PLANE);
    l3 ← ram_rd (offset + 3 * PLANE);
    _ ← modify (fun h => h <| vd ::= fun d => d <| vga_gc ::= fun g =>
          g <| gc_latch0 := l0 |> <| gc_latch1 := l1 |> <| gc_latch2 := l2 |> <| gc_latch3 := l3 |> |> |>);
    if z2b (gc_mode_rm g) then mret 0xFFFFFFFF
    else if gc_mode_oe g
         then ram_rd (Z.land offset (Z.lnot 1) + Z.lor (gc_read_map_sel g) (Z.land offset 1) * PLANE)
         else ram_rd (offset + gc_read_map_sel g * PLANE)
  end.

(** Rotation of a byte to the right; shifting by more than 8 shifts to the left
    by a negative amount. *)
Definition rotate (val r : Z) : outcome Z :=
  if 8 <? r then Stop BadShift else Ret (u8 (Z.lor (Z.shiftr val r) (Z.shiftl val (8 - r)))).

(** Plane [k] in write mode 0; [c] is its latch. *)
Definition mode0_plane (op mask set_reset enb_set_reset val : Z) (k c : Z) : Z :=
  let s := Z.testbit set_reset k in
  let e := Z.testbit enb_set_reset k in
  let m := if s then mask else 0x00 in
  switch op
    [ ([0x00], Z.lor (if e then Z.land c (Z.lnot mask) else Z.land val mask) m);
      ([0x08], let m := if s then 0xff else u8 (Z.lnot mask) in if e then Z.land c m else Z.land val m);
      ([0x10], if e then Z.lor c m else Z.lor val m);
      ([0x18], if e then Z.lxor c m else Z.lxor val m) ]
    c.

(** Write modes 2 and 3: [bits] are [val], respectively [set_reset]. *)
Definition mode23_plane (op mask bits : Z) (k c : Z) : Z :=
  let b := if Z.testbit bits k then 0xff else 0x00 in
  switch op
    [ ([0x00], Z.lor (Z.land c (Z.lnot mask)) (Z.land b mask));
      ([0x08], Z.land c (u8 (Z.lor b (Z.lnot mask))));
      ([0x10], Z.lor c (Z.land b mask));
      ([0x18], Z.lxor c (Z.land b mask)) ]
    c.

(** What the write mode makes of plane [k]. *)
Definition plane_value (g : vga_gc_regs) (val : Z) : outcome (Z -> Z -> Z) :=
  let keep := fun _ c => c in
  switch (gc_mode_wm g)
    [ ([0], val ← rotate val (gc_rotate g);
            Ret (mode0_plane (gc_op g) (gc_bit_mask g) (gc_set_reset g) (gc_enb_set_reset g) val));
      ([1], Ret keep);
      ([2], Ret (mode23_plane (gc_op g) (gc_bit_mask g) val));
      ([3], _ ← rotate val (gc_rotate g);
            Ret (mode23_plane (gc_op g) (Z.land (gc_bit_mask g) val) (gc_set_reset g))) ]
    (Ret keep).

Definition wr_plane (map_mask offset : Z) (k c : Z) : V unit :=
  if Z.testbit map_mask k then ram_wr (offset + k * PLANE) c else mret tt.

Definition vga_mem_wr_handler (addr val : Z) : V unit :=
  h ← get;
  let g := vga_gc (vd h) in
  let mm := seq_map_mask (vga_seq (vd h)) in
  match mem_offset (gc_misc_mm g) addr with
  | None => mret tt
  | Some offset =>
    f ← lift (plane_value g val);
    let c0 := f 0 (gc_latch0 g) in let c1 := f 1 (gc_latch1 g) in
    let c2 := f 2 (gc_latch2 g) in let c3 := f 3 (gc_latch3 g) in
    if gc_mode_oe g then
      if Z.testbit offset 0 then
        let offset := Z.land offset (Z.lnot 1) in
        _ ← wr_plane mm offset 1 c1; wr_plane mm offset 3 c3
      else _ ← wr_plane mm offset 0 c0; wr_plane mm offset 2 c2
    else
      _ ← wr_plane mm offset 0 c0; _ ← wr_plane mm offset 1 c1;
      _ ← wr_plane mm offset 2 c2; wr_plane mm offset 3 c3
  end.

(** The bytes [i .. i + n) of an access, the lowest first. *)
Fixpoint mem_wr_bytes (n : nat) (addr val i : Z) : V unit :=
  match n with
  | O => mret tt
  | S n' => _ ← vga_mem_wr_handler (u64 (addr + i)) (u8 (Z.shiftr val (8 * i)));
            mem_wr_bytes n' addr val (i + 1)
  end.

Fixpoint mem_rd_bytes (n : nat) (addr i acc : Z) : V Z :=
  match n with
  | O => mret acc
  | S n' => b ← vga_mem_rd_handler (u64 (addr + i));
            mem_rd_bytes n' addr (i + 1) (Z.lor acc (u64 (Z.shiftl b (8 * i))))
  end.

(** [*val] afterwards; sizes other than 1, 2, 4 and 8 do nothing. *)
Definition vga_mem_handler (write : bool) (addr size val : Z) : V Z :=
  let access := if write then _ ← mem_wr_bytes (Z.to_nat size) addr val 0; mret val
                else mem_rd_bytes (Z.to_nat size) addr 0 0 in
  switch size [ ([1; 2; 4; 8], access) ] (mret val).

(** ** I/O ports *)

Definition crtc_in (r : vga_crtc_regs) : Z :=
  switch (crtc_index r)
    [ ([CRTC_HORIZ_TOTAL], crtc_horiz_total r); ([CRTC_HORIZ_DISP_END], crtc_horiz_disp_end r);
      ([CRTC_START_HORIZ_BLANK], crtc_start_horiz_blank r);
      ([CRTC_END_HORIZ_BLANK], crtc_end_horiz_blank r);
      ([CRTC_START_HORIZ_RETRACE], crtc_start_horiz_retrace r);
      ([CRTC_END_HORIZ_RETRACE], crtc_end_horiz_retrace r);
      ([CRTC_VERT_TOTAL], crtc_vert_total r); ([CRTC_OVERFLOW], crtc_overflow r);
      ([CRTC_PRESET_ROW_SCAN], crtc_present_row_scan r);
      ([CRTC_MAX_SCAN_LINE], crtc_max_scan_line r); ([CRTC_CURSOR_START], crtc_cursor_start r);
      ([CRTC_CURSOR_END], crtc_cursor_end r); ([CRTC_START_ADDR_HIGH], crtc_start_addr_high r);
      ([CRTC_START_ADDR_LOW], crtc_start_addr_low r);
      ([CRTC_CURSOR_LOC_HIGH], crtc_cursor_loc_high r);
      ([CRTC_CURSOR_LOC_LOW], crtc_cursor_loc_low r);
      ([CRTC_VERT_RETRACE_START], crtc_vert_retrace_start r);
      ([CRTC_VERT_RETRACE_END], crtc_vert_retrace_end r);
      ([CRTC_VERT_DISP_END], crtc_vert_disp_end r); ([CRTC_OFFSET], crtc_offset r);
      ([CRTC_UNDERLINE_LOC], crtc_underline_loc r);
      ([CRTC_START_VERT_BLANK], crtc_start_vert_blank r);
      ([CRTC_END_VERT_BLANK], crtc_end_vert_blank r); ([CRTC_MODE_CONTROL], crtc_mode_ctrl r);
      ([CRTC_LINE_COMPARE], crtc_line_compare r) ]
    0xFF.

(** The two halves of a 16-bit register. *)
Definition set_high (val x : Z) : Z := Z.lor (Z.land x 0x00ff) (u16 (Z.shiftl val 8)).
Definition set_low (val x : Z) : Z := Z.lor (Z.land x 0xff00) (Z.land val 0xff).

Definition crtc_out (val : Z) (r : vga_crtc_regs) : vga_crtc_regs :=
  switch (crtc_index r)
    [ ([CRTC_HORIZ_TOTAL], r <| crtc_horiz_total := val |>);
      ([CRTC_HORIZ_DISP_END], r <| crtc_horiz_disp_end := val |>);
      ([CRTC_START_HORIZ_BLANK], r <| crtc_start_horiz_blank := val |>);
      ([CRTC_END_HORIZ_BLANK], r <| crtc_end_horiz_blank := val |>);
      ([CRTC_START_HORIZ_RETRACE], r <| crtc_start_horiz_retrace := val |>);
      ([CRTC_END_HORIZ_RETRACE], r <| crtc_end_horiz_retrace := val |>);
      ([CRTC_VERT_TOTAL], r <| crtc_vert_total := val |>);
      ([CRTC_OVERFLOW], r <| crtc_overflow := val |>);
      ([CRTC_PRESET_ROW_SCAN], r <| crtc_present_row_scan := val |>);
      ([CRTC_MAX_SCAN_LINE], r <| crtc_max_scan_line := val |>);
      ([CRTC_CURSOR_START], r <| crtc_cursor_start := val |> <| crtc_cursor_on := b2z (negb (has val CRTC_CS_CO)) |>);
      ([CRTC_CURSOR_END], r <| crtc_cursor_end := val |>);
      ([CRTC_START_ADDR_HIGH], r <| crtc_start_addr_high := val |> <| crtc_start_addr ::= set_high val |>);
      ([CRTC_START_ADDR_LOW], r <| crtc_start_addr_low := val |> <| crtc_start_addr ::= set_low val |>);
      ([CRTC_CURSOR_LOC_HIGH], r <| crtc_cursor_loc_high := val |> <| crtc_cursor_loc ::= set_high val |>);
      ([CRTC_CURSOR_LOC_LOW], r <| crtc_cursor_loc_low := val |> <| crtc_cursor_loc ::= set_low val |>);
      ([CRTC_VERT_RETRACE_START], r <| crtc_vert_retrace_start := val |>);
      ([CRTC_VERT_RETRACE_END], r <| crtc_vert_retrace_end := val |>);
      ([CRTC_VERT_DISP_END], r <| crtc_vert_disp_end := val |>);
      ([CRTC_OFFSET], r <| crtc_offset := val |>);
      ([CRTC_UNDERLINE_LOC], r <| crtc_underline_loc := val |>);
      ([CRTC_START_VERT_BLANK], r <| crtc_start_vert_blank := val |>);
      ([CRTC_END_VERT_BLANK], r <| crtc_end_vert_blank := val |>);
      ([CRTC_MODE_CONTROL], r <| crtc_mode_ctrl := val |>);
      ([CRTC_LINE_COMPARE], r <| crtc_line_compare := val |>) ]
    r.

Definition atc_in (r : vga_atc_regs) : outcome Z :=
  switch (atc_index r)
    [ (seqZ ATC_PALETTE0 (ATC_PALETTE15 + 1),
        match nthZ (atc_palette r) (atc_index r) with Some v => Ret v | None => Stop OobAccess end);
      ([ATC_MODE_CONTROL], Ret (atc_mode r));
      ([ATC_OVERSCAN_COLOR], Ret (atc_overscan_color r));
      ([ATC_COLOR_PLANE_ENABLE], Ret (atc_color_plane_enb r));
      ([ATC_HORIZ_PIXEL_PANNING], Ret (atc_horiz_pixel_panning r));
      ([ATC_COLOR_SELECT], Ret (atc_color_select r)) ]
    (Ret 0xFF).

(** The index port: index and data in turn. *)
Definition atc_out (val : Z) (r : vga_atc_regs) : vga_atc_regs :=
  if (atc_flipflop r =? 0) && has (atc_index r) 0x20 then r
  else
    (if atc_flipflop r =? 0 then r <| atc_index := Z.land val ATC_IDX_MASK |>
     else switch (atc_index r)
       [ (seqZ ATC_PALETTE0 (ATC_PALETTE15 + 1),
           r <| atc_palette ::= fun l => setZ l (atc_index r) (Z.land val 0x3f) |>);
         ([ATC_MODE_CONTROL], r <| atc_mode := val |>);
         ([ATC_OVERSCAN_COLOR], r <| atc_overscan_color := val |>);
         ([ATC_COLOR_PLANE_ENABLE], r <| atc_color_plane_enb := val |>);
         ([ATC_HORIZ_PIXEL_PANNING], r <| atc_horiz_pixel_panning := val |>);
         ([ATC_COLOR_SELECT], r <| atc_color_select := val |>
            <| atc_color_select_45 := u8 (Z.shiftl (Z.land val ATC_CS_C45) 4) |>
            <| atc_color_select_67 := u8 (Z.shiftl (Z.shiftr (Z.land val ATC_CS_C67) 2) 6) |>) ]
       r)
    <| atc_flipflop ::= fun f => Z.lxor f 1 |>.

Definition seq_in (r : vga_seq_regs) : Z :=
  switch (seq_index r)
    [ ([SEQ_RESET], seq_reset r); ([SEQ_CLOCKING_MODE], seq_clock_mode r);
      ([SEQ_MAP_MASK], seq_map_mask r); ([SEQ_CHAR_MAP_SELECT], seq_cmap_sel r);
      ([SEQ_MEMORY_MODE], seq_mm r) ]
    0xFF.

(** Offset of a character map: two select bits and the third one. *)
Definition cmap_off (lo lo_shift hi hi_shift val : Z) : Z :=
  (Z.shiftr (Z.land val lo) lo_shift * 2 + Z.shiftr (Z.land val hi) hi_shift) * 8 * KB.

Definition seq_out (val : Z) (r : vga_seq_regs) : vga_seq_regs :=
  switch (seq_index r)
    [ ([SEQ_RESET], r <| seq_reset := val |>);
      ([SEQ_CLOCKING_MODE], r <| seq_clock_mode := val |>
         <| seq_cm_dots := if has val SEQ_CM_89 then 8 else 9 |>);
      ([SEQ_MAP_MASK], r <| seq_map_mask := val |>);
      ([SEQ_CHAR_MAP_SELECT], r <| seq_cmap_sel := val |>
         <| seq_cmap_pri_off := cmap_off SEQ_CMS_SA SEQ_CMS_SA_SHIFT SEQ_CMS_SAH SEQ_CMS_SAH_SHIFT val |>
         <| seq_cmap_sec_off := cmap_off SEQ_CMS_SB SEQ_CMS_SB_SHIFT SEQ_CMS_SBH SEQ_CMS_SBH_SHIFT val |>);
      ([SEQ_MEMORY_MODE], r <| seq_mm := val |>) ]
    r.

Definition gc_in (r : vga_gc_regs) : Z :=
  switch (gc_index r)
    [ ([GC_SET_RESET], gc_set_reset r); ([GC_ENABLE_SET_RESET], gc_enb_set_reset r);
      ([GC_COLOR_COMPARE], gc_color_compare r); ([GC_DATA_ROTATE], gc_rotate r);
      ([GC_READ_MAP_SELECT], gc_read_map_sel r); ([GC_MODE], gc_mode r);
      ([GC_MISCELLANEOUS], gc_misc r); ([GC_COLOR_DONT_CARE], gc_color_dont_care r);
      ([GC_BIT_MASK], gc_bit_mask r) ]
    0xFF.

Definition gc_out (val : Z) (r : vga_gc_regs) : vga_gc_regs :=
  switch (gc_index r)
    [ ([GC_SET_RESET], r <| gc_set_reset := val |>);
      ([GC_ENABLE_SET_RESET], r <| gc_enb_set_reset := val |>);
      ([GC_COLOR_COMPARE], r <| gc_color_compare := val |>);
      ([GC_DATA_ROTATE], r <| gc_rotate := val |> <| gc_op := Z.land (Z.shiftr val 3) 0x3 |>);
      ([GC_READ_MAP_SELECT], r <| gc_read_map_sel := val |>);
      ([GC_MODE], r <| gc_mode := val |> <| gc_mode_c4 := has val GC_MODE_C4 |>
         <| gc_mode_oe := has val GC_MODE_OE |> <| gc_mode_rm := Z.land (Z.shiftr val 3) 0x1 |>
         <| gc_mode_wm := Z.land val 0x3 |>);
      ([GC_MISCELLANEOUS], r <| gc_misc := val |> <| gc_misc_gm := Z.land val GC_MISC_GM |>
         <| gc_misc_mm := Z.shiftr (Z.land val GC_MISC_MM) GC_MISC_MM_SHIFT |>);
      ([GC_COLOR_DONT_CARE], r <| gc_color_dont_care := val |>);
      ([GC_BIT_MASK], r <| gc_bit_mask := val |>) ]
    r.

(** Entry [i] of the palette. *)
Definition dac_at (r : vga_dac_regs) (i : Z) : outcome Z :=
  match nthZ (dac_palette r) i with Some v => Ret v | None => Stop OobAccess end.

Definition dac_in (r : vga_dac_regs) : outcome (Z * vga_dac_regs) :=
  v ← dac_at r (3 * dac_rd_index r + dac_rd_subindex r);
  let r := r <| dac_rd_subindex ::= fun i => u8 (i + 1) |> in
  Ret (v, if dac_rd_subindex r =? 3
          then r <| dac_rd_index ::= fun i => u8 (i + 1) |> <| dac_rd_subindex := 0 |> else r).

(** A 6-bit component as 8 bits, as the code widens it. *)
Definition widen (p : Z) : Z := Z.lor (Z.lor (Z.shiftl p 2) (Z.shiftl (Z.land p 0x1) 1)) (Z.land p 0x1).
Definition dac_rgb (r : vga_dac_regs) (i : Z) : outcome Z :=
  p0 ← dac_at r (3 * i + 0);
  p1 ← dac_at r (3 * i + 1);
  p2 ← dac_at r (3 * i + 2);
  Ret (u32 (Z.lor (Z.lor (Z.shiftl (widen p0) 16) (Z.shiftl (widen p1) 8)) (widen p2))).

Definition dac_out (val : Z) (r : vga_dac_regs) : outcome vga_dac_regs :=
  let i := 3 * dac_wr_index r + dac_wr_subindex r in
  _ ← dac_at r i;
  let r := r <| dac_palette ::= fun l => setZ l i val |> <| dac_wr_subindex ::= fun i => u8 (i + 1) |> in
  if dac_wr_subindex r =? 3 then
    rgb ← dac_rgb r (dac_wr_index r);
    if dac_wr_index r <? Z.of_nat (length (dac_palette_rgb r)) then
      Ret (r <| dac_palette_rgb ::= fun l => setZ l (dac_wr_index r) rgb |>
             <| dac_wr_index ::= fun i => u8 (i + 1) |> <| dac_wr_subindex := 0 |>)
    else Stop OobAccess
  else Ret r.

Definition on_vd {A} (f : vga_vdev -> outcome (A * vga_vdev)) : V A := fun h =>
  match f (vd h) with Ret (a, d) => Ret (a, h <| vd := d |>) | Stop e => Stop e end.
Definition upd_vd (f : vga_vdev -> vga_vdev) : V unit := modify (fun h => h <| vd ::= f |>).

(** The byte read; [old] is the caller's variable, which one port leaves as it
    is.  The result code is always 0. *)
Definition vga_port_in_handler (port : Z) (old : option Z) : V (option Z) :=
  h ← get;
  let d := vd h in
  let found v := mret (Some v) in
  switch port
    [ ([CRTC_IDX_MONO_PORT; CRTC_IDX_COLOR_PORT], found (u8 (crtc_index (vga_crtc d))));
      ([CRTC_DATA_MONO_PORT; CRTC_DATA_COLOR_PORT], found (crtc_in (vga_crtc d)));
      ([ATC_IDX_PORT], found (u8 (atc_index (vga_atc d))));
      ([ATC_DATA_PORT], v ← lift (atc_in (vga_atc d)); found v);
      ([SEQ_IDX_PORT], found (u8 (seq_index (vga_seq d))));
      ([SEQ_DATA_PORT], found (seq_in (vga_seq d)));
      ([DAC_DATA_PORT], '(v, r) ← lift (dac_in (vga_dac d));
                        _ ← upd_vd (fun d => d <| vga_dac := r |>); found v);
      ([GC_IDX_PORT], found (u8 (gc_index (vga_gc d))));
      ([GC_DATA_PORT], found (gc_in (vga_gc d)));
      ([GEN_MISC_OUTPUT_PORT], found (vga_misc d));
      ([GEN_INPUT_STS0_PORT], mret old);
      ([GEN_INPUT_STS1_MONO_PORT; GEN_INPUT_STS1_COLOR_PORT],
        let sts1 := Z.lor GEN_IS1_VR GEN_IS1_DE in
        _ ← upd_vd (fun d => d <| vga_atc ::= fun r => r <| atc_flipflop := 0 |> |> <| vga_sts1 := sts1 |>);
        found sts1);
      ([GEN_FEATURE_CTRL_PORT], found 0);
      ([0x3c3], found 0) ]
    (found 0xFF).

(** The result code; [val] is a byte. *)
Definition vga_port_out_handler (port val : Z) : V Z :=
  let done f := _ ← upd_vd f; mret 0 in
  switch port
    [ ([CRTC_IDX_MONO_PORT; CRTC_IDX_COLOR_PORT],
        done (fun d => d <| vga_crtc ::= fun r => r <| crtc_index := val |> |>));
      ([CRTC_DATA_MONO_PORT; CRTC_DATA_COLOR_PORT], done (fun d => d <| vga_crtc ::= crtc_out val |>));
      ([ATC_IDX_PORT], done (fun d => d <| vga_atc ::= atc_out val |>));
      ([ATC_DATA_PORT], mret 0);
      ([SEQ_IDX_PORT], done (fun d => d <| vga_seq ::= fun r => r <| seq_index := Z.land val 0x1f |> |>));
      ([SEQ_DATA_PORT], done (fun d => d <| vga_seq ::= seq_out val |>));
      ([DAC_MASK], mret 0);
      ([DAC_IDX_RD_PORT], done (fun d => d <| vga_dac ::= fun r =>
         r <| dac_rd_index := val |> <| dac_rd_subindex := 0 |> |>));
      ([DAC_IDX_WR_PORT], done (fun d => d <| vga_dac ::= fun r =>
         r <| dac_wr_index := val |> <| dac_wr_subindex := 0 |> |>));
      ([DAC_DATA_PORT], h ← get; r ← lift (dac_out val (vga_dac (vd h)));
                        done (fun d => d <| vga_dac := r |>));
      ([GC_IDX_PORT], done (fun d => d <| vga_gc ::= fun r => r <| gc_index := val |> |>));
      ([GC_DATA_PORT], h ← get;
         _ ← when (gc_index (vga_gc (vd h)) =? GC_MODE)
               (modify (fun h => h <| gctx ::= fun c => c <| gi_vgamode := true |> |>));
         done (fun d => d <| vga_gc ::= gc_out val |>));
      ([GEN_INPUT_STS0_PORT], done (fun d => d <| vga_misc := val |>));
      ([GEN_INPUT_STS1_MONO_PORT; GEN_INPUT_STS1_COLOR_PORT], mret 0) ]
    (mret (-1)).

(** The byte a port handler has filled in. *)
Definition filled (v : option Z) : V Z := match v with Some v => mret v | None => halt Uninit end.

(** The result code and [*eax] afterwards. *)
Definition vga_port_handler (is_in : bool) (port bytes eax : Z) : V (Z * Z) :=
  switch bytes
    [ ([1],
        if is_in then
          v ← vga_port_in_handler port None; b ← filled v;
          mret (0, Z.lor (clear_bits 32 eax 0xff) b)
        else e ← vga_port_out_handler port (Z.land eax 0xff); mret (e, eax));
      ([2],
        if is_in then
          v ← vga_port_in_handler port None; b ← filled v;
          w ← vga_port_in_handler (port + 1) v; c ← filled w;
          mret (0, Z.lor (Z.lor (clear_bits 32 eax 0xffff) b) (Z.shiftl c 8))
        else
          _ ← vga_port_out_handler port (Z.land eax 0xff);
          e ← vga_port_out_handler (port + 1) (Z.land (Z.shiftr eax 8) 0xff); mret (e, eax)) ]
    (mret (-1, eax)).

(** ** Rendering *)

Definition vga_in_reset (d : vga_vdev) : bool :=
  has (seq_clock_mode (vga_seq d)) SEQ_CM_SO ||
  negb (has (seq_reset (vga_seq d)) SEQ_RESET_ASYNC) ||
  negb (has (seq_reset (vga_seq d)) SEQ_RESET_SYNC) ||
  negb (has (crtc_mode_ctrl (vga_crtc d)) CRTC_MC_TE).

(** The size the CRT controller is programmed to. *)
Definition crtc_width (d : vga_vdev) : Z :=
  (crtc_horiz_disp_end (vga_crtc d) + 1) * seq_cm_dots (vga_seq d).
Definition crtc_height (d : vga_vdev) : Z :=
  let c := vga_crtc d in
  Z.lor (Z.lor (crtc_vert_disp_end c)
           (Z.shiftl (Z.shiftr (Z.land (crtc_overflow c) CRTC_OF_VDE8) CRTC_OF_VDE8_SHIFT) 8))
    (Z.shiftl (Z.shiftr (Z.land (crtc_overflow c) CRTC_OF_VDE9) CRTC_OF_VDE9_SHIFT) 9) + 1.

Definition vga_check_size (alloc : bool) : V unit := modify (fun h =>
  if vga_in_reset (vd h) then h
  else
    let w := crtc_width (vd h) in
    let ht := crtc_height (vd h) in
    let h := h <| vd ::= fun d => d <| gc_width := w |> <| gc_height := ht |> |> in
    if negb (gi_width (gctx h) =? w) || negb (gi_height (gctx h) =? ht)
    then h <| gctx ::= gc_resize alloc w ht |> else h).

(** [l[i]] of one of the small tables. *)
Definition tbl (l : list Z) (i : Z) : outcome Z :=
  match nthZ l i with Some v => Ret v | None => Stop OobAccess end.

(** [(vga_ram[offset + k * 64*KB] >> bit) & 1] for the four planes. *)
Definition plane_bits (offset bit : Z) : V Z :=
  b0 ← ram_rd (offset + 0 * PLANE);
  b1 ← ram_rd (offset + 1 * PLANE);
  b2 ← ram_rd (offset + 2 * PLANE);
  b3 ← ram_rd (offset + 3 * PLANE);
  let at_ b k := Z.shiftl (Z.land (Z.shiftr b bit) 0x1) k in
  mret (Z.lor (Z.lor (Z.lor (at_ b0 0) (at_ b1 1)) (at_ b2 2)) (at_ b3 3)).

Definition vga_get_pixel (x y : Z) : V Z :=
  h ← get;
  let a := vga_atc (vd h) in
  data ← plane_bits (y * gc_width (vd h) / 8 + x / 8) (7 - x mod 8);
  p ← lift (tbl (atc_palette a) (Z.land data (atc_color_plane_enb a)));
  let idx := if has (atc_mode a) ATC_MC_IPS then Z.lor (Z.land p 0x0f) (atc_color_select_45 a) else p in
  lift (tbl (dac_palette_rgb (vga_dac (vd h))) (Z.lor idx (atc_color_select_67 a))).

(** The cursor is on this pixel of the cell at [offset]. *)
Definition at_cursor (c : vga_crtc_regs) (offset y : Z) : bool :=
  z2b (crtc_cursor_on c) && (offset =? crtc_cursor_loc c * 2) &&
  (Z.land (crtc_cursor_start c) CRTC_CS_CS <=? y mod 16) &&
  (y mod 16 <=? Z.land (crtc_cursor_end c) CRTC_CE_CE).

Definition div_c (a b : Z) : outcome Z := if b =? 0 then Stop DivByZero else Ret (a / b).

Definition vga_get_text_pixel (x y : Z) : V Z :=
  h ← get;
  let d := vd h in
  let a := vga_atc d in
  let s := vga_seq d in
  let dots := seq_cm_dots s in
  let color i := p ← tbl (atc_palette a) i; tbl (dac_palette_rgb (vga_dac d)) p in
  cells ← lift (div_c (y / 16 * gc_width d) dots);
  col ← lift (div_c x dots);
  let offset := 2 * crtc_start_addr (vga_crtc d) + (cells * 2 + col * 2) in
  let rem := x - col * dots in
  let bit := 7 - (if 7 <? rem then 7 else rem) in
  ch ← ram_rd (offset + 0 * PLANE);
  attr ← ram_rd (offset + 1 * PLANE);
  if at_cursor (vga_crtc d) offset y then lift (color (Z.land attr 0xf))
  else
    let two_maps := has (seq_mm s) SEQ_MM_EM && negb (seq_cmap_pri_off s =? seq_cmap_sec_off s) in
    let base := if two_maps then if has attr 0x8 then seq_cmap_pri_off s else seq_cmap_sec_off s else 0 in
    let attr := if two_maps then Z.land attr (Z.lnot 0x8) else attr in
    font ← ram_rd (base + Z.shiftl ch 5 + y mod 16 + 2 * PLANE);
    lift (color (if Z.testbit font bit then Z.land attr 0xf else Z.shiftr attr 4)).

(** [gc_image->data[offset] = v] *)
Definition put_pixel (offset v : Z) : V unit := fun h =>
  match gi_data (gctx h) with
  | None => Stop NullDeref
  | Some l =>
    if (0 <=? offset) && (offset <? Z.of_nat (length l))
    then Ret (tt, h <| gctx ::= fun c => c <| gi_data := Some (setZ l offset v) |> |>)
    else Stop OobAccess
  end.

(** The pixels [x .. x + n) of row [y], and the rows [y .. y + n). *)
Fixpoint render_row (get_pixel : Z -> Z -> V Z) (n : nat) (x y : Z) : V unit :=
  match n with
  | O => mret tt
  | S n' =>
    h ← get;
    v ← get_pixel x y;
    _ ← put_pixel (y * gc_width (vd h) + x) v;
    render_row get_pixel n' (x + 1) y
  end.

Fixpoint render_rows (get_pixel : Z -> Z -> V Z) (n : nat) (y : Z) : V unit :=
  match n with
  | O => mret tt
  | S n' =>
    h ← get;
    _ ← render_row get_pixel (Z.to_nat (gc_width (vd h))) 0 y;
    render_rows get_pixel n' (y + 1)
  end.

Definition vga_render_graphics : V unit :=
  h ← get; render_rows vga_get_pixel (Z.to_nat (gc_height (vd h))) 0.
Definition vga_render_text : V unit :=
  h ← get; render_rows vga_get_text_pixel (Z.to_nat (gc_height (vd h))) 0.

(** [memset] of the first [n] pixels. *)
Definition clear_pixels (n : Z) : V unit := fun h =>
  if n =? 0 then Ret (tt, h)
  else match gi_data (gctx h) with
       | None => Stop NullDeref
       | Some l =>
         if (0 <=? n) && (n <=? Z.of_nat (length l)) then
           Ret (tt, h <| gctx ::= fun c => c <| gi_data :=
                        Some (replicate (Z.to_nat n) 0 ++ drop (Z.to_nat n) l) |> |>)
         else Stop OobAccess
       end.

(** The graphics branch is taken in a graphics mode of both controllers. *)
Definition graphics_mode (d : vga_vdev) : bool :=
  z2b (gc_misc_gm (vga_gc d)) && has (atc_mode (vga_atc d)) ATC_MC_GA.

Definition vga_render (alloc : bool) : V unit :=
  _ ← vga_check_size alloc;
  h ← get;
  if vga_in_reset (vd h) then clear_pixels (s32 (gi_width (gctx h) * gi_height (gctx h)))
  else if graphics_mode (vd h) then vga_render_graphics else vga_render_text.

(** ** Initialisation *)

(** The 16 colours the palette starts with. *)
Definition palette : list Z :=
  [ 0x00;0x00;0x00; 0x00;0x00;0x2a; 0x00;0x2a;0x00; 0x00;0x2a;0x2a;
    0x2a;0x00;0x00; 0x2a;0x00;0x2a; 0x2a;0x2a;0x00; 0x2a;0x2a;0x2a;
    0x00;0x00;0x15; 0x00;0x00;0x3f; 0x00;0x2a;0x15; 0x00;0x2a;0x3f;
    0x2a;0x00;0x15; 0x2a;0x00;0x3f; 0x2a;0x2a;0x15; 0x2a;0x2a;0x3f ].

Definition zero_vdev : vga_vdev :=
  mkVdev 0 0 None 0 0 (mkSeq 0 0 0 0 0 0 0 0 0)
    (mkCrtc 0 0 0 0 0 0 0 0 0 0 0 0 0 0 0 0 0 0 0 0 0 0 0 0 0 0 0 0 0)
    (mkGc 0 0 0 0 0 0 0 0 false false 0 0 0 0 0 0 0 0 0 0 0)
    (mkAtc 0 0 (replicate 16 0) 0 0 0 0 0 0 0)
    (mkDac 0 0 0 0 0 (replicate 768 0) (replicate 256 0)).

(** The loop over the palette: the colours [i .. i + n). *)
Fixpoint init_rgb (n : nat) (i : Z) (r : vga_dac_regs) : outcome vga_dac_regs :=
  match n with
  | O => Ret r
  | S n' => rgb ← dac_rgb r i; init_rgb n' (i + 1) (r <| dac_palette_rgb ::= fun l => setZ l i rgb |>)
  end.

(** What the host answers: the allocation of the device, the registration of
    each port, of the memory range, and the allocation of the memory. *)
Record vga_host := mkVgaHost {
  vh_device : bool; vh_inout : Z -> Z; vh_mem : Z; vh_ram : bool }.

Definition vga_init (host : vga_host) (io_only : bool) : outcome (option vga_vdev) :=
  if negb (vh_device host) then Ret None
  else if existsb (fun port => vh_inout host port =? -1)
            (seqZ VGA_IOPORT_START (VGA_IOPORT_END - VGA_IOPORT_START + 1)) then Ret None
  else if io_only then Ret (Some zero_vdev)
  else if vh_mem host =? -1 then Ret None
  else if negb (vh_ram host) then Ret None
  else
    let dac := vga_dac zero_vdev <| dac_palette ::= fun l => splice l 0 palette |> in
    dac ← init_rgb 16 0 dac;
    Ret (Some (zero_vdev <| vga_ram := Some ∅ |> <| vga_dac := dac |>)).

(** ** [struct vga]: the windows of the BAR *)

(** [vberegs] as its 22 bytes. *)
Record vga := mkVga {
  enable : bool;
  dev : option vga_vdev;
  gc : gfx_ctx;
  surf_width : Z; surf_height : Z; surf_stride : Z;
  vberegs : list Z
}.
#[export] Instance vga_eta : Settable vga := fun r =>
  mkVga (enable r) (dev r) (gc r) (surf_width r) (surf_height r) (surf_stride r) (vberegs r).

Definition sizeof_vberegs := 22.
Definition VBE_XRES := 2%nat.
Definition VBE_YRES := 4%nat.
Definition VBE_ENABLE := 8%nat.
Definition VBE_VIRT_WIDTH := 12%nat.
Definition VBE_X_OFFSET := 16%nat.
Definition VBE_Y_OFFSET := 18%nat.

(** A 16-bit register of the packed struct. *)
Definition vbe (v : vga) (off : nat) : Z := le_decode (take 2 (drop off (vberegs v))).
Definition set_vbe (off : nat) (x : Z) (v : vga) : vga :=
  v <| vberegs ::= fun l => splice l off (le_encode 2 x) |>.

(** Running a port handler on the device. *)
Definition on_dev {A} (m : V A) : M vga A := fun v =>
  match dev v with
  | None => Stop NullDeref
  | Some d => match m (mkHw d (gc v)) with
              | Ret (a, h) => Ret (a, v <| dev := Some (vd h) |> <| gc := gctx h |>)
              | Stop e => Stop e
              end
  end.

(** Size 1 falls through into size 2. *)
Definition vga_ioport_write (offset size value : Z) : M vga unit :=
  let port := s32 offset in
  let out p v := _ ← on_dev (vga_port_out_handler p v); mret tt in
  let both := _ ← out port (Z.land value 0xff); out (port + 1) (Z.land (Z.shiftr value 8) 0xff) in
  switch size [ ([1], _ ← out port (Z.land value 0xff); both); ([2], both) ] (mret tt).

Definition vga_ioport_read (offset size : Z) : M vga Z :=
  let port := s32 offset in
  let both value val :=
    v ← on_dev (vga_port_in_handler port val); b ← on_dev (filled v);
    w ← on_dev (vga_port_in_handler (port + 1) v); c ← on_dev (filled w);
    mret (Z.lor (Z.lor value b) (Z.shiftl c 8)) in
  switch size
    [ ([1], v ← on_dev (vga_port_in_handler port None); b ← on_dev (filled v); both b v);
      ([2], both 0 None) ]
    (mret 0).

(** Access to [vberegs] at a byte offset. *)
Definition vbe_bytes (offset size : Z) (v : vga) : outcome (list Z) :=
  if (0 <=? offset) && (offset + size <=? sizeof_vberegs)
  then Ret (take (Z.to_nat size) (drop (Z.to_nat offset) (vberegs v))) else Stop OobAccess.

(** The switch over the offset, which the code compares with the index of a
    16-bit register. *)
Definition vbe_enable (value : Z) (v : vga) : vga :=
  if has value VBE_DISPI_ENABLED && negb (has (vbe v VBE_ENABLE) VBE_DISPI_ENABLED) then
    set_vbe VBE_ENABLE VBE_DISPI_ENABLED (set_vbe VBE_Y_OFFSET 0 (set_vbe VBE_X_OFFSET 0 (set_vbe VBE_VIRT_WIDTH 0 v)))
      <| enable := true |> <| surf_width := 0 |> <| surf_stride := 0 |>
  else if has value VBE_DISPI_DISABLED && negb (has (vbe v VBE_ENABLE) VBE_DISPI_DISABLED) then
    set_vbe VBE_ENABLE VBE_DISPI_DISABLED v <| enable := false |>
  else v.

(** Switching between the VGA and the VESA mode. *)
Definition vbe_mode (v : vga) : vga :=
  if negb (gi_vgamode (gc v)) && (vbe v VBE_XRES =? 0) && (vbe v VBE_YRES =? 0) then
    v <| gc ::= fun c => c <| gi_vgamode := true |> <| gi_width := 0 |> <| gi_height := 0 |> |>
  else if gi_vgamode (gc v) && negb (vbe v VBE_XRES =? 0) && negb (vbe v VBE_YRES =? 0) then
    v <| gc ::= fun c => c <| gi_vgamode := false |> |>
  else v.

Definition vga_vbe_write (offset size value : Z) : M vga unit :=
  if (size =? 1) || (size =? 2) then
    v ← get;
    _ ← lift (vbe_bytes offset size v);
    _ ← modify (fun v => v <| vberegs ::= fun l =>
          splice l (Z.to_nat offset) (le_encode (Z.to_nat size) value) |>);
    _ ← when (offset =? VBE_DISPI_INDEX_ENABLE) (modify (vbe_enable value));
    modify vbe_mode
  else mret tt.

Definition vga_vbe_read (offset size : Z) (v : vga) : outcome Z :=
  if (size =? 1) || (size =? 2) then bs ← vbe_bytes offset size v; Ret (le_decode bs) else Ret 0.

(** Only called while there is a device. *)
Definition vga_deinit : M vga unit := fun v =>
  match dev v with Some _ => Ret (tt, v <| dev := None |>) | None => Stop NullDeref end.
