(* ===== verification/VgaSpec.v ===== *)
(** * What the VGA emulation does

    [src/devicemodel/hw/vga.c]: the type invariant of the registers and tables
    of [Vga.v], kept by every port access, memory access and frame; round trips
    of the registers and of the palette; the planar memory; and rendering,
    which stays in bounds and paints every pixel of the programmed size. *)
From S2P Require Import Prelude Vga.

(** ** The type of the state

    Every register stays within the width of its C type, or within the range
    the code reduces it to, and the tables keep their sizes. *)

Record seq_ok (r : vga_seq_regs) : Prop := {
  so_index : fits 8 (seq_index r);
  so_regs : Forall (fits 8) [seq_reset r; seq_clock_mode r; seq_map_mask r; seq_cmap_sel r; seq_mm r];
  so_dots : seq_cm_dots r = 0 \/ seq_cm_dots r = 8 \/ seq_cm_dots r = 9;
  so_pri : 0 <= seq_cmap_pri_off r <= 56 * KB;
  so_sec : 0 <= seq_cmap_sec_off r <= 56 * KB
}.

Definition crtc_bytes (r : vga_crtc_regs) : list Z :=
  [ crtc_index r; crtc_mode_ctrl r; crtc_horiz_total r; crtc_horiz_disp_end r; crtc_start_horiz_blank r;
    crtc_end_horiz_blank r; crtc_start_horiz_retrace r; crtc_end_horiz_retrace r; crtc_vert_total r;
    crtc_overflow r; crtc_present_row_scan r; crtc_max_scan_line r; crtc_cursor_start r; crtc_cursor_on r;
    crtc_cursor_end r; crtc_start_addr_high r; crtc_start_addr_low r; crtc_cursor_loc_low r;
    crtc_cursor_loc_high r; crtc_vert_retrace_start r; crtc_vert_retrace_end r; crtc_vert_disp_end r;
    crtc_offset r; crtc_underline_loc r; crtc_start_vert_blank r; crtc_end_vert_blank r;
    crtc_line_compare r ].
Record crtc_ok (r : vga_crtc_regs) : Prop := {
  co_bytes : Forall (fits 8) (crtc_bytes r);
  co_start : fits 16 (crtc_start_addr r);
  co_cursor : fits 16 (crtc_cursor_loc r)
}.

Definition gc_bytes (r : vga_gc_regs) : list Z :=
  [ gc_index r; gc_set_reset r; gc_enb_set_reset r; gc_color_compare r; gc_rotate r; gc_read_map_sel r;
    gc_mode r; gc_misc r; gc_color_dont_care r; gc_bit_mask r ].
Record gc_ok (r : vga_gc_regs) : Prop := {
  go_bytes : Forall (fits 8) (gc_bytes r);
  go_latches : Forall (fits 8) [gc_latch0 r; gc_latch1 r; gc_latch2 r; gc_latch3 r];
  go_op : fits 2 (gc_op r);
  go_mm : fits 2 (gc_misc_mm r);
  go_wm : fits 2 (gc_mode_wm r)
}.

Record atc_ok (r : vga_atc_regs) : Prop := {
  ao_index : fits 5 (atc_index r);
  ao_flipflop : fits 1 (atc_flipflop r);
  ao_length : length (atc_palette r) = 16%nat;
  ao_palette : Forall (fits 6) (atc_palette r);
  ao_regs : Forall (fits 8) [atc_mode r; atc_overscan_color r; atc_color_plane_enb r;
                             atc_horiz_pixel_panning r; atc_color_select r];
  ao_45 : fits 6 (atc_color_select_45 r);
  ao_67 : fits 8 (atc_color_select_67 r)
}.

Record dac_ok (r : vga_dac_regs) : Prop := {
  do_rd : fits 8 (dac_rd_index r);
  do_rd_sub : 0 <= dac_rd_subindex r < 3;
  do_wr : fits 8 (dac_wr_index r);
  do_wr_sub : 0 <= dac_wr_subindex r < 3;
  do_length : length (dac_palette r) = 768%nat;
  do_palette : Forall (fits 8) (dac_palette r);
  do_rgb : length (dac_palette_rgb r) = 256%nat
}.

Definition ram_ok (m : option (gmap Z Z)) : Prop :=
  match m with Some m => map_Forall (fun _ b => fits 8 b) m | None => False end.

Record vga_ok (d : vga_vdev) : Prop := {
  vo_ram : ram_ok (vga_ram d);
  vo_misc : fits 8 (vga_misc d);
  vo_seq : seq_ok (vga_seq d);
  vo_crtc : crtc_ok (vga_crtc d);
  vo_gc : gc_ok (vga_gc d);
  vo_atc : atc_ok (vga_atc d);
  vo_dac : dac_ok (vga_dac d)
}.

(** *** Small facts about bytes *)

Lemma fits_le w x n : 0 <= x <= n -> n < 2 ^ w -> fits w x.
Proof. unfold fits. lia. Qed.

Lemma land_le x m : 0 <= x -> 0 <= m -> 0 <= Z.land x m <= m.
Proof.
  intros Hx Hm. split; [apply Z.land_nonneg; by left|].
  destruct (decide (m = 0)) as [->|]; [by rewrite Z.land_0_r|].
  apply Z.ldiff_le; [done|]. apply Z.bits_inj'. intros i Hi.
  rewrite Z.ldiff_spec, Z.land_spec, Z.bits_0. by destruct (Z.testbit x i), (Z.testbit m i).
Qed.

Lemma fits_shl w n x : 0 <= n <= w -> fits (w - n) x -> fits w (Z.shiftl x n).
Proof.
  intros Hn [H0 H1]. rewrite Z.shiftl_mul_pow2 by lia. unfold fits.
  replace (2 ^ w) with (2 ^ (w - n) * 2 ^ n) by (rewrite <- Z.pow_add_r by lia; f_equal; lia).
  assert (0 < 2 ^ n) by (apply pow2_pos; lia). nia.
Qed.

Lemma fits_u8 x : fits 8 (u8 x).
Proof. by apply wrap_fits. Qed.

Lemma fits_nonneg w x : fits w x -> 0 <= x.
Proof. by intros []. Qed.

Lemma fits_set_high val x : fits 8 val -> fits 16 x -> fits 16 (set_high val x).
Proof.
  intros Hv Hx. apply fits_lor; [done| |by apply wrap_fits].
  apply fits_land_r; [done|done].
Qed.

Lemma fits_set_low val x : fits 8 val -> fits 16 x -> fits 16 (set_low val x).
Proof.
  intros Hv Hx. apply fits_lor; [done|by apply fits_land_r|].
  apply (fits_mono 8); [done|]. by apply fits_land_r.
Qed.

Create HintDb vga.
#[export] Hint Resolve fits_set_high fits_set_low fits_u8 fits_nonneg : vga.

Lemma b2z_fits b : fits 8 (b2z b).
Proof. by destruct b. Qed.
#[export] Hint Resolve b2z_fits : vga.

(** Register groups as conjunctions of facts about their fields. *)
Ltac list_facts :=
  repeat match goal with
         | H : Forall _ (_ :: _) |- _ => apply Forall_cons in H as [? H]
         | |- Forall _ (_ :: _) => apply Forall_cons_2
         | |- Forall _ [] => apply Forall_nil_2
         end.

Lemma crtc_out_ok val r : fits 8 val -> crtc_ok r -> crtc_ok (crtc_out val r).
Proof.
  intros Hv [Hb Hs Hc]. unfold crtc_bytes in Hb.
  unfold crtc_out. apply (switch_ind crtc_ok); [|by split]. list_facts;
    (split; [unfold crtc_bytes; cbn; list_facts; eauto with vga|cbn; eauto with vga..]).
Qed.

Lemma cmap_off_range lo ls hi hs val :
  0 <= val -> 0 <= Z.shiftr (Z.land val lo) ls <= 3 -> 0 <= Z.shiftr (Z.land val hi) hs <= 1 ->
  0 <= cmap_off lo ls hi hs val <= 56 * KB.
Proof. intros. unfold cmap_off, KB. lia. Qed.

(** A bit field of a register. *)
Lemma field_range val mask sh n :
  0 <= val -> 0 <= mask -> 0 <= sh -> Z.shiftr mask sh = n -> 0 <= Z.shiftr (Z.land val mask) sh <= n.
Proof. intros Hv Hm Hs <-. rewrite Z.shiftr_land. apply land_le; by apply Z.shiftr_nonneg. Qed.

Lemma seq_out_ok val r : fits 8 val -> seq_ok r -> seq_ok (seq_out val r).
Proof.
  intros Hv [Hi Hr Hd Hp Hs]. assert (Hv0 : 0 <= val) by apply Hv.
  unfold seq_out. apply (switch_ind seq_ok); [|by split].
  list_facts; (split; cbn; list_facts; try done).
  - case_match; [by right; left|by right; right].
  - apply cmap_off_range; [done|by apply field_range|by apply field_range].
  - apply cmap_off_range; [done|by apply field_range|by apply field_range].
Qed.

Lemma gc_out_ok val r : fits 8 val -> gc_ok r -> gc_ok (gc_out val r).
Proof.
  intros Hv [Hb Hl Ho Hm Hw]. assert (Hv0 : 0 <= val) by apply Hv. unfold gc_bytes in Hb.
  unfold gc_out. apply (switch_ind gc_ok); [|by split].
  list_facts; (split; unfold gc_bytes; cbn; list_facts; try done).
  - apply fits_land_l; [done|by apply Z.shiftr_nonneg|done].
  - by apply fits_land_l.
  - apply (fits_le _ _ 3); [by apply field_range|done].
Qed.

Lemma lxor_flip f : fits 1 f -> fits 1 (Z.lxor f 1).
Proof. intros H. by apply fits_lxor. Qed.

Lemma atc_out_ok val r : fits 8 val -> atc_ok r -> atc_ok (atc_out val r).
Proof.
  intros Hv [Hi Hf Hl Hp Hr H45 H67]. assert (Hv0 : 0 <= val) by apply Hv.
  unfold atc_out. destruct (_ && _); [by split|].
  assert (Hx : fits 1 (Z.lxor (atc_flipflop r) 1)) by by apply lxor_flip.
  destruct (atc_flipflop r =? 0).
  { split; cbn; try done. by apply fits_land_l. }
  match goal with |- atc_ok (switch ?x ?c ?d <| atc_flipflop ::= ?g |>) =>
    assert (Hsw : atc_ok (switch x c d) /\ atc_flipflop (switch x c d) = atc_flipflop r);
      [|revert Hsw; generalize (switch x c d); intros r1 [[] E]; split; cbn; try done; by rewrite E] end.
  apply (switch_ind (fun s => atc_ok s /\ atc_flipflop s = atc_flipflop r)); [|by split_and!].
  list_facts; (split; [|done]); split; cbn; list_facts; try done.
  - by rewrite length_setZ.
  - apply setZ_forall; [done|]. by apply fits_land_l.
  - apply (fits_le _ _ 48); [|done]. pose proof (land_le val ATC_CS_C45 Hv0 ltac:(done)) as Hb.
      assert (Hq : 0 <= Z.shiftl (Z.land val ATC_CS_C45) 4 <= 48)
        by (rewrite Z.shiftl_mul_pow2 by done; change (2 ^ 4) with 16; change ATC_CS_C45 with 3 in *; lia).
      unfold u8. by rewrite wrap_small by (unfold fits; change (2 ^ 8) with 256; lia).
  - apply fits_u8.
Qed.

Lemma nthZ_some {A} (l : list A) i : 0 <= i < Z.of_nat (length l) -> exists x, nthZ l i = Some x.
Proof.
  intros H. rewrite nthZ_lookup by lia. destruct (lookup_lt_is_Some_2 l (Z.to_nat i)) as [x Hx]; [lia|]. by exists x.
Qed.

Lemma nthZ_Forall {A} (P : A -> Prop) l i x : Forall P l -> nthZ l i = Some x -> P x.
Proof. unfold nthZ. destruct (0 <=? i); [|done]. intros H E. by eapply Forall_lookup_1 in E. Qed.

Lemma dac_at_ok r i : dac_ok r -> 0 <= i < 768 -> exists v, dac_at r i = Ret v /\ fits 8 v.
Proof.
  intros H Hi. unfold dac_at. destruct (nthZ_some (dac_palette r) i) as [v E]; [rewrite (do_length r H); lia|].
  rewrite E. exists v. split; [done|]. eapply nthZ_Forall; [apply (do_palette r H)|done].
Qed.

Lemma u8_small x : 0 <= x < 256 -> u8 x = x.
Proof. intros H. by apply wrap_small. Qed.

Lemma dac_in_ok r : dac_ok r -> exists v r', dac_in r = Ret (v, r') /\ fits 8 v /\ dac_ok r'.
Proof.
  intros H. pose proof (do_rd r H) as Hi. pose proof (do_rd_sub r H) as Hs. unfold fits in Hi.
  change (2 ^ 8) with 256 in Hi.
  destruct (dac_at_ok r (3 * dac_rd_index r + dac_rd_subindex r) H ltac:(lia)) as (v & E & Hv).
  exists v. eexists. split; [unfold dac_in; rewrite E; reflexivity|]. split; [done|].
  destruct H. cbn. rewrite u8_small by lia. case_match; split; cbn; try done; try apply fits_u8; rewrite ?u8_small by lia; lia.
Qed.

Lemma dac_rgb_ok r i : dac_ok r -> 0 <= i < 256 -> exists v, dac_rgb r i = Ret v.
Proof.
  intros H Hi. unfold dac_rgb.
  destruct (dac_at_ok r (3 * i + 0) H ltac:(lia)) as (v0 & -> & _).
  destruct (dac_at_ok r (3 * i + 1) H ltac:(lia)) as (v1 & -> & _).
  destruct (dac_at_ok r (3 * i + 2) H ltac:(lia)) as (v2 & -> & _). by eexists.
Qed.

(** The state right after a component was stored. *)
Lemma dac_store_ok val r :
  fits 8 val -> dac_ok r ->
  dac_ok (r <| dac_palette ::= fun l => setZ l (3 * dac_wr_index r + dac_wr_subindex r) val |>).
Proof.
  intros Hv []. split; cbn; try done; [by rewrite length_setZ|by apply setZ_forall].
Qed.

Lemma dac_out_ok val r : fits 8 val -> dac_ok r -> exists r', dac_out val r = Ret r' /\ dac_ok r'.
Proof.
  intros Hv H. pose proof (do_wr r H) as Hi. pose proof (do_wr_sub r H) as Hs. unfold fits in Hi.
  change (2 ^ 8) with 256 in Hi.
  destruct (dac_at_ok r (3 * dac_wr_index r + dac_wr_subindex r) H ltac:(lia)) as (v & E & _).
  pose proof (dac_store_ok val r Hv H) as Hst.
  unfold dac_out. rewrite E. cbn [mbind outcome_bind].
  set (r1 := r <| dac_palette ::= _ |>) in *.
  change (dac_wr_subindex (r1 <| dac_wr_subindex ::= _ |>)) with (u8 (dac_wr_subindex r + 1)).
  rewrite u8_small by lia. destruct (Z.eqb_spec (dac_wr_subindex r + 1) 3) as [E3|].
  - destruct (dac_rgb_ok r1 (dac_wr_index r) Hst ltac:(lia)) as (rgb & Er).
    change (dac_rgb (r1 <| dac_wr_subindex ::= _ |>) ?i) with (dac_rgb r1 (dac_wr_index r)).
    rewrite Er. cbn [mbind outcome_bind].
    change (dac_palette_rgb (r1 <| dac_wr_subindex ::= _ |>)) with (dac_palette_rgb r).
    rewrite (do_rgb r H). destruct (Z.ltb_spec (dac_wr_index (r1 <| dac_wr_subindex ::= fun i => u8 (i + 1) |>)) (Z.of_nat 256)) as [|Hn].
    + eexists. split; [reflexivity|]. destruct Hst. split; cbn; try done; [apply fits_u8|by rewrite length_setZ].
    + exfalso. change (dac_wr_index _) with (dac_wr_index r) in Hn. lia.
  - eexists. split; [reflexivity|]. destruct Hst. split; cbn; try done. rewrite u8_small by lia. lia.
Qed.

(** *** Reading *)

Lemma crtc_in_fits r : crtc_ok r -> fits 8 (crtc_in r).
Proof.
  intros [Hb _ _]. unfold crtc_bytes in Hb. unfold crtc_in.
  apply (switch_ind (fits 8)); [|done]. list_facts; done.
Qed.

Lemma seq_in_fits r : seq_ok r -> fits 8 (seq_in r).
Proof. intros [? Hr _ _ _]. unfold seq_in. apply (switch_ind (fits 8)); [|done]. list_facts; done. Qed.

Lemma gc_in_fits r : gc_ok r -> fits 8 (gc_in r).
Proof. intros [Hb _ _ _ _]. unfold gc_bytes in Hb. unfold gc_in. apply (switch_ind (fits 8)); [|done]. list_facts; done. Qed.

Lemma existsb_eqb x l : existsb (Z.eqb x) l = true <-> x ∈ l.
Proof.
  rewrite existsb_exists. split.
  - intros (y & Hy & E%Z.eqb_eq). subst. by apply list_elem_of_In.
  - intros H. exists x. split; [by apply list_elem_of_In|apply Z.eqb_refl].
Qed.

Lemma atc_in_ok r : atc_ok r -> exists v, atc_in r = Ret v /\ fits 8 v.
Proof.
  intros [_ _ Hl Hp Hr _ _]. unfold atc_in. cbn [switch].
  destruct (existsb (Z.eqb (atc_index r)) (seqZ ATC_PALETTE0 (ATC_PALETTE15 + 1))) eqn:E.
  - apply existsb_eqb, elem_of_seqZ in E. change ATC_PALETTE0 with 0 in E. change ATC_PALETTE15 with 15 in E.
    destruct (nthZ_some (atc_palette r) (atc_index r)) as [v Ev]; [rewrite Hl; lia|]. rewrite Ev.
    exists v. split; [done|]. apply (fits_mono 6); [done|]. by eapply nthZ_Forall.
  - list_facts. repeat case_match; eexists; done.
Qed.

(** *** Ports *)

#[export] Hint Resolve crtc_out_ok seq_out_ok gc_out_ok atc_out_ok : vga.

Lemma crtc_index_ok val r : fits 8 val -> crtc_ok r -> crtc_ok (r <| crtc_index := val |>).
Proof.
  intros Hv [Hb Hs Hc]. unfold crtc_bytes in Hb. list_facts. split; unfold crtc_bytes; cbn; list_facts; done.
Qed.
Lemma seq_index_ok val r : fits 8 val -> seq_ok r -> seq_ok (r <| seq_index := Z.land val 0x1f |>).
Proof. intros Hv []. split; cbn; try done. by apply fits_land_r. Qed.
Lemma gc_index_ok val r : fits 8 val -> gc_ok r -> gc_ok (r <| gc_index := val |>).
Proof. intros Hv [Hb ????]. unfold gc_bytes in Hb. list_facts. split; unfold gc_bytes; cbn; list_facts; done. Qed.
Lemma dac_rd_ok val r : fits 8 val -> dac_ok r -> dac_ok (r <| dac_rd_index := val |> <| dac_rd_subindex := 0 |>).
Proof. intros Hv []. by split. Qed.
Lemma dac_wr_ok val r : fits 8 val -> dac_ok r -> dac_ok (r <| dac_wr_index := val |> <| dac_wr_subindex := 0 |>).
Proof. intros Hv []. by split. Qed.
Lemma atc_reset_ok r : atc_ok r -> atc_ok (r <| atc_flipflop := 0 |>).
Proof. intros []. by split. Qed.
#[export] Hint Resolve crtc_index_ok seq_index_ok gc_index_ok dac_rd_ok dac_wr_ok atc_reset_ok : vga.

Lemma port_out_run port val h :
  fits 8 val -> vga_ok (vd h) ->
  exists e h', vga_port_out_handler port val h = Ret (e, h') /\ vga_ok (vd h').
Proof.
  intros Hv Hok. unfold vga_port_out_handler.
  apply (switch_ind (fun m : V Z => exists e h', m h = Ret (e, h') /\ vga_ok (vd h')));
    [|by exists (-1), h].
  pose proof (vo_dac _ Hok) as Hdac. destruct (dac_out_ok val (vga_dac (vd h)) Hv Hdac) as (r' & Er & Hr').
  list_facts;
    try (eexists; eexists; (split; [reflexivity|]); destruct Hok; split; cbn; eauto with vga; fail).
  - cbn [snd]. unfold mbind, M_bind, get, lift. rewrite Er. eexists. eexists. split; [reflexivity|].
    destruct Hok. by split.
  - cbn [snd]. unfold mbind, M_bind, get, when. destruct (_ =? GC_MODE); eexists; eexists;
      (split; [reflexivity|]); destruct Hok; split; cbn; eauto with vga.
Qed.

Lemma port_in_run port old h :
  fits 8 old -> vga_ok (vd h) ->
  exists v h', vga_port_in_handler port (Some old) h = Ret (Some v, h') /\ fits 8 v /\ vga_ok (vd h').
Proof.
  intros Hv Hok. unfold vga_port_in_handler, mbind at 1, M_bind at 1, get.
  apply (switch_ind (fun m : V (option Z) =>
    exists v h', m h = Ret (Some v, h') /\ fits 8 v /\ vga_ok (vd h')));
    [|by eexists; eexists].
  destruct (dac_in_ok _ (vo_dac _ Hok)) as (dv & r' & Er & Hdv & Hr').
  destruct (atc_in_ok _ (vo_atc _ Hok)) as (av & Ea & Hav).
  list_facts; try (eexists; eexists; (split; [reflexivity|]); split; [|done];
    eauto using crtc_in_fits, seq_in_fits, gc_in_fits, vo_crtc, vo_seq, vo_gc, vo_misc with vga; by vm_compute).
  - cbn [snd]. unfold mbind, M_bind, lift. rewrite Ea. by eexists; eexists.
  - cbn [snd]. unfold mbind, M_bind, lift. rewrite Er. eexists. eexists. split; [reflexivity|]. split; [done|].
    destruct Hok. by split.
  - eexists; eexists; (split; [reflexivity|]); split; [done|]. destruct Hok; split; cbn; eauto with vga.
Qed.

(** *** Memory accesses *)

Definition ram_byte (d : vga_vdev) (off : Z) : Z :=
  match vga_ram d with Some m => default 0 (m !! off) | None => 0 end.

Lemma ram_byte_fits d off : vga_ok d -> fits 8 (ram_byte d off).
Proof.
  intros H. pose proof (vo_ram d H) as Hr. unfold ram_byte, ram_ok in *. destruct (vga_ram d) as [m|]; [|done].
  destruct (m !! off) eqn:E; [by apply (Hr off)|done].
Qed.

Lemma ram_rd_run off h : vga_ok (vd h) -> 0 <= off < 4 * PLANE -> ram_rd off h = Ret (ram_byte (vd h) off, h).
Proof.
  intros H Ho. pose proof (vo_ram _ H) as Hr. unfold ram_rd, ram_byte, ram_ok in *.
  destruct (vga_ram (vd h)) as [m|]; [|done].
  destruct (Z.leb_spec 0 off), (Z.ltb_spec off (4 * PLANE)); try lia. done.
Qed.

(** The state after a store. *)
Definition poke (off b : Z) (h : vga_hw) : vga_hw :=
  h <| vd ::= fun d => d <| vga_ram ::= fmap <[off := b]> |> |>.

Lemma ram_wr_run off b h : vga_ok (vd h) -> 0 <= off < 4 * PLANE -> ram_wr off b h = Ret (tt, poke off b h).
Proof.
  intros H Ho. pose proof (vo_ram _ H) as Hr. unfold ram_wr, poke, ram_ok in *.
  destruct h as [d c]. cbn in *. destruct (vga_ram d) as [m|] eqn:E; [|done].
  destruct (Z.leb_spec 0 off), (Z.ltb_spec off (4 * PLANE)); try lia. cbn.
  unfold field_upd. cbn. by rewrite E.
Qed.

Lemma poke_ok off b h : fits 8 b -> vga_ok (vd h) -> vga_ok (vd (poke off b h)).
Proof.
  intros Hb []. split; cbn; try done. unfold ram_ok in *. destruct (vga_ram (vd h)); [|done]. cbn.
  by apply map_Forall_insert_2.
Qed.

Lemma poke_byte off b h a :
  vga_ok (vd h) -> ram_byte (vd (poke off b h)) a = if decide (a = off) then b else ram_byte (vd h) a.
Proof.
  intros H. pose proof (vo_ram _ H) as Hr. unfold ram_byte, poke, ram_ok in *. cbn.
  destruct (vga_ram (vd h)) as [m|]; [|done]. cbn. case_decide as Hd.
  - subst. by rewrite lookup_insert_eq.
  - by rewrite lookup_insert_ne by done.
Qed.

(** A window is at most a plane long unless the whole 128k are mapped. *)
Lemma mem_offset_range mm addr o :
  fits 2 mm -> mem_offset mm addr = Some o -> 0 <= o < (if mm =? 0 then 2 * PLANE else PLANE).
Proof.
  intros Hmm. unfold mem_offset.
  assert (Hw : forall base size, 0 < size -> forall o',
    (if base <=? s32 addr then Some (Z.land (s32 addr - base) (size - 1)) else None) = Some o' -> 0 <= o' < size).
  { intros base size Hs o'. destruct (Z.leb_spec base (s32 addr)); [|done]. intros [= <-].
    pose proof (land_le (s32 addr - base) (size - 1) ltac:(lia) ltac:(lia)). lia. }
  unfold fits in Hmm. change (2 ^ 2) with 4 in Hmm.
  assert (mm = 0 \/ mm = 1 \/ mm = 2 \/ mm = 3) as [->|[->|[->| ->]]] by lia; cbn -[s32 Z.land];
    intros H; apply Hw in H; unfold PLANE, KB in *; try done; case_match; lia.
Qed.

Lemma rotate_ok val r : 0 <= r <= 8 -> exists v, rotate val r = Ret v /\ fits 8 v.
Proof. intros H. unfold rotate. destruct (Z.ltb_spec 8 r); [lia|]. eexists. split; [done|]. apply fits_u8. Qed.

Lemma mode0_fits op mask sr enb val k c :
  fits 8 mask -> fits 8 val -> fits 8 c -> fits 8 (mode0_plane op mask sr enb val k c).
Proof.
  intros Hm Hv Hc. unfold mode0_plane.
  assert (Hs : fits 8 (if Z.testbit sr k then mask else 0x00)) by (by destruct (Z.testbit sr k)).
  apply (switch_ind (fits 8)); [|done]. list_facts; cbn [snd].
  - apply fits_lor; [done| |done]. destruct (Z.testbit enb k); by apply fits_land_r.
  - destruct (Z.testbit enb k); by apply fits_land_r.
  - destruct (Z.testbit enb k); by apply fits_lor.
  - destruct (Z.testbit enb k); by apply fits_lxor.
Qed.

Lemma mode23_fits op mask bits k c :
  fits 8 mask -> fits 8 c -> fits 8 (mode23_plane op mask bits k c).
Proof.
  intros Hm Hc. unfold mode23_plane.
  assert (Hs : fits 8 (Z.land (if Z.testbit bits k then 0xff else 0x00) mask))
    by (apply fits_land_r; [done|by destruct (Z.testbit bits k)]).
  apply (switch_ind (fits 8)); [|done]. list_facts; cbn [snd].
  - apply fits_lor; [done|by apply fits_land_r|done].
  - by apply fits_land_r.
  - by apply fits_lor.
  - by apply fits_lxor.
Qed.

Lemma plane_value_fits g val f k c :
  gc_ok g -> fits 8 val -> fits 8 c -> plane_value g val = Ret f -> fits 8 (f k c).
Proof.
  intros [Hb _ _ _ _] Hv Hc. unfold gc_bytes in Hb. unfold plane_value.
  apply (switch_ind (fun o => o = Ret f -> fits 8 (f k c))); [|by intros [= <-]].
  list_facts; cbn [snd].
  - unfold rotate. destruct (8 <? gc_rotate g); [done|]. intros [= <-]. apply mode0_fits; try done. apply fits_u8.
  - by intros [= <-].
  - intros [= <-]. by apply mode23_fits.
  - unfold rotate. destruct (8 <? gc_rotate g); [done|]. intros [= <-]. apply mode23_fits; [|done]. by apply fits_land_r.
Qed.

Lemma plane_value_ret g val : 0 <= gc_rotate g <= 8 -> exists f, plane_value g val = Ret f.
Proof.
  intros Hr. destruct (rotate_ok val _ Hr) as (v & E & _). unfold plane_value.
  apply (switch_ind (fun o => exists f, o = Ret f)); [|by eexists].
  list_facts; cbn [snd]; rewrite ?E; by eexists.
Qed.

(** The latch of plane [k]. *)
Definition latch (g : vga_gc_regs) (k : Z) : Z :=
  switch k [([0], gc_latch0 g); ([1], gc_latch1 g); ([2], gc_latch2 g)] (gc_latch3 g).

Lemma latch_fits g k : gc_ok g -> fits 8 (latch g k).
Proof. intros [_ Hl _ _ _]. list_facts. unfold latch. apply (switch_ind (fits 8)); [|done]. list_facts; done. Qed.

(** Storing into a plane, when its map bit is set. *)
Lemma wr_plane_run mm o k c h :
  vga_ok (vd h) -> fits 8 c -> 0 <= o < PLANE -> 0 <= k < 4 ->
  exists h', wr_plane mm o k c h = Ret (tt, h') /\ vga_ok (vd h') /\
    vga_gc (vd h') = vga_gc (vd h) /\ gctx h' = gctx h /\
    forall a, ram_byte (vd h') a = if decide (Z.testbit mm k = true /\ a = o + k * PLANE) then c else ram_byte (vd h) a.
Proof.
  intros H Hc Ho Hk. unfold wr_plane. unfold PLANE, KB in *. destruct (Z.testbit mm k).
  - rewrite ram_wr_run by (done || (unfold PLANE, KB; lia)). eexists. split; [done|].
    split; [by apply poke_ok|]. split_and!; [done|done|]. intros a. rewrite poke_byte by done.
    destruct (decide (a = o + k * (64 * 1024))); [by rewrite decide_True|by rewrite decide_False by (by intros [])].
  - exists h. by split_and!.
Qed.


Lemma plane_if b a o k k' (x y : Z) :
  0 <= a < PLANE -> 0 <= o < PLANE ->
  (if decide (b = true /\ a + k * PLANE = o + k' * PLANE) then x else y) =
  if (k =? k') && ((a =? o) && b) then x else y.
Proof.
  intros Ha Ho. unfold PLANE, KB in *. destruct (Z.eqb_spec k k') as [->|], (Z.eqb_spec a o) as [->|]; cbn [andb].
  - destruct b; [by rewrite decide_True|by rewrite decide_False by (by intros [])].
  - rewrite decide_False; [done|]. intros [_ ?]. lia.
  - rewrite decide_False; [done|]. intros [_ ?]. lia.
  - rewrite decide_False; [done|]. intros [_ ?]. lia.
Qed.

(** The four stores of a planar write. *)
Lemma wr_planes_run mm o (c : Z -> Z) h :
  vga_ok (vd h) -> (forall k, fits 8 (c k)) -> 0 <= o < PLANE ->
  exists h', (_ ← wr_plane mm o 0 (c 0); _ ← wr_plane mm o 1 (c 1); _ ← wr_plane mm o 2 (c 2);
              wr_plane mm o 3 (c 3)) h = Ret (tt, h') /\ vga_ok (vd h') /\
    vga_gc (vd h') = vga_gc (vd h) /\ gctx h' = gctx h /\
    forall k a, 0 <= k < 4 -> 0 <= a < PLANE ->
      ram_byte (vd h') (a + k * PLANE) =
      if (a =? o) && Z.testbit mm k then c k else ram_byte (vd h) (a + k * PLANE).
Proof.
  intros H Hc Ho. unfold mbind, M_bind.
  destruct (wr_plane_run mm o 0 (c 0) h) as (h0 & -> & H0 & G0 & C0 & B0); [done..|].
  destruct (wr_plane_run mm o 1 (c 1) h0) as (h1 & -> & H1 & G1 & C1 & B1); [done..|].
  destruct (wr_plane_run mm o 2 (c 2) h1) as (h2 & -> & H2 & G2 & C2 & B2); [done..|].
  destruct (wr_plane_run mm o 3 (c 3) h2) as (h3 & -> & H3 & G3 & C3 & B3); [done..|].
  exists h3. split; [done|]. split; [done|]. split; [congruence|]. split; [congruence|].
  intros k a Hk Ha. rewrite B3, B2, B1, B0, !plane_if by done.
  by assert (k = 0 \/ k = 1 \/ k = 2 \/ k = 3) as [->|[->|[->| ->]]] by lia.
Qed.

(** With odd/even addressing the lowest bit of the offset chooses between the even and the
    odd planes, and is cleared: where the byte goes, and whether to plane [k]. *)
Definition cell (g : vga_gc_regs) (o : Z) : Z := if gc_mode_oe g then Z.land o (Z.lnot 1) else o.
Definition lane (g : vga_gc_regs) (o k : Z) : bool := negb (gc_mode_oe g) || Bool.eqb (Z.testbit o 0) (Z.testbit k 0).
(** The plane that is read. *)
Definition read_plane (g : vga_gc_regs) (o : Z) : Z :=
  if gc_mode_oe g then Z.lor (gc_read_map_sel g) (Z.land o 1) else gc_read_map_sel g.

Lemma cell_range g o : 0 <= o < PLANE -> 0 <= cell g o < PLANE.
Proof.
  intros Ho. unfold cell. destruct (gc_mode_oe g); [|done]. change PLANE with (2 ^ 16) in *. by apply (fits_land_r 16).
Qed.
Lemma read_plane_range g o : 0 <= gc_read_map_sel g < 4 -> 0 <= read_plane g o < 4.
Proof.
  intros Hs. unfold read_plane. destruct (gc_mode_oe g); [|done]. change 4 with (2 ^ 2) in *. change (fits 2 (gc_read_map_sel g)) in Hs. apply (fits_lor 2); [done|done|]. rewrite Z.land_comm. by apply fits_land_r.
Qed.

(** Storing into some of the planes is storing with a smaller mask. *)
Lemma wr_plane_land mm m o k c : Z.testbit m k = true -> wr_plane (Z.land mm m) o k c = wr_plane mm o k c.
Proof. intros H. unfold wr_plane. by rewrite Z.land_spec, H, andb_true_r. Qed.
Lemma wr_plane_skip mm m o k c : Z.testbit m k = false -> wr_plane (Z.land mm m) o k c = mret tt.
Proof. intros H. unfold wr_plane. by rewrite Z.land_spec, H, andb_false_r. Qed.

(** A planar write. *)
Lemma mem_wr_run addr val o f h :
  vga_ok (vd h) -> fits 8 val ->
  let g := vga_gc (vd h) in
  mem_offset (gc_misc_mm g) addr = Some o -> 0 <= o < PLANE ->
  plane_value g val = Ret f ->
  exists h', vga_mem_wr_handler addr val h = Ret (tt, h') /\ vga_ok (vd h') /\
    vga_gc (vd h') = g /\ gctx h' = gctx h /\
    forall k a, 0 <= k < 4 -> 0 <= a < PLANE ->
      ram_byte (vd h') (a + k * PLANE) =
      if (a =? cell g o) && (Z.testbit (seq_map_mask (vga_seq (vd h))) k && lane g o k) then f k (latch g k)
      else ram_byte (vd h) (a + k * PLANE).
Proof.
  intros H Hv g Ho Hr Hf. set (c := fun k => f k (latch g k)). set (mm := seq_map_mask (vga_seq (vd h))).
  assert (Hc : forall k, fits 8 (c k)).
  { intros k. apply (plane_value_fits g val); try done; [apply (vo_gc _ H)|]. apply latch_fits, (vo_gc _ H). }
  set (m := if gc_mode_oe g then if Z.testbit o 0 then 10 else 5 else 15).
  destruct (wr_planes_run (Z.land mm m) (cell g o) c h H Hc (cell_range g o Hr)) as (h' & E & Hok & Hg & Hx & Hk).
  exists h'. split.
  - rewrite <- E. unfold vga_mem_wr_handler, mbind, M_bind, get, lift. fold g. fold mm. rewrite Ho, Hf. unfold cell, m.
    destruct (gc_mode_oe g); [destruct (Z.testbit o 0) eqn:Eo|]; repeat first [rewrite wr_plane_land by done|rewrite wr_plane_skip by done]; try done.
    replace (Z.land o (Z.lnot 1)) with o.
    { unfold mret, M_ret, c. cbv beta. change (latch g 0) with (gc_latch0 g). change (latch g 2) with (gc_latch2 g).
      destruct (wr_plane mm o 0 _ h) as [[[] s]|]; [|done]. by destruct (wr_plane mm o 2 _ s) as [[[] ?]|]. }
    rewrite <- Z.ldiff_land. apply Z.bits_inj'. intros j Hj. rewrite Z.ldiff_spec.
    destruct (Z.eq_dec j 0) as [-> |Hne]; [by rewrite Eo|]. rewrite (testbit_fits 1 1) by (first [lia|split; [lia|reflexivity]]). by rewrite andb_true_r.
  - split_and!; try done. intros k a Hk' Ha. rewrite Hk by done. rewrite Z.land_spec.
    replace (Z.testbit m k) with (lane g o k); [done|]. unfold lane, m.
    assert (k = 0 \/ k = 1 \/ k = 2 \/ k = 3) as [->|[->|[->| ->]]] by lia; by destruct (gc_mode_oe g), (Z.testbit o 0).
Qed.

(** A read: the latches are filled; in mode 0 one plane is returned, in mode 1 nothing. *)
Lemma mem_rd_run addr o h :
  vga_ok (vd h) ->
  let g := vga_gc (vd h) in
  (gc_mode_rm g = 0 -> 0 <= gc_read_map_sel g < 4) ->
  mem_offset (gc_misc_mm g) addr = Some o -> 0 <= o < PLANE ->
  exists h', vga_mem_rd_handler addr h =
      Ret (if gc_mode_rm g =? 0 then ram_byte (vd h) (cell g o + read_plane g o * PLANE) else 0xFFFFFFFF, h') /\
    vga_ok (vd h') /\ vga_ram (vd h') = vga_ram (vd h) /\ gctx h' = gctx h /\
    vga_seq (vd h') = vga_seq (vd h) /\
    forall k, 0 <= k < 4 -> latch (vga_gc (vd h')) k = ram_byte (vd h) (o + k * PLANE).
Proof.
  intros H g Hsel Ho Hr. unfold vga_mem_rd_handler, mbind, M_bind, get. subst g. rewrite Ho.
  rewrite !ram_rd_run by (done || (unfold PLANE, KB in *; lia)). unfold modify.
  pose proof (fun off => ram_byte_fits (vd h) off H) as Hb.
  match goal with |- context [(if z2b _ then _ else _) ?s] => set (h' := s) end.
  assert (Hh' : vga_ok (vd h')).
  { subst h'. destruct H. split; cbn; try done. destruct vo_gc0. split; cbn; list_facts; done. }
  exists h'. split.
  - unfold z2b. destruct (Z.eqb_spec (gc_mode_rm (vga_gc (vd h))) 0) as [Hrm|Hrm]; [|done]. cbn [negb].
    pose proof (cell_range (vga_gc (vd h)) o Hr) as H1. pose proof (read_plane_range (vga_gc (vd h)) o (Hsel Hrm)) as H2. unfold cell, read_plane in *.
    destruct (gc_mode_oe _); by rewrite ram_rd_run by (done || (unfold PLANE, KB in *; lia)).
  - split; [done|]. split_and!; try done.
    intros k Hk. assert (k = 0 \/ k = 1 \/ k = 2 \/ k = 3) as [->|[->|[->| ->]]] by lia; done.
Qed.

(** *** Rendering *)

(** [m] gives [v] and changes nothing, whatever the image is. *)
Definition reads (d : vga_vdev) (m : V Z) (v : Z) : Prop := forall c, m (mkHw d c) = Ret (v, mkHw d c).

Lemma reads_ram d off : vga_ok d -> 0 <= off < 4 * PLANE -> reads d (ram_rd off) (ram_byte d off).
Proof. intros H Ho c. by apply (ram_rd_run off (mkHw d c)). Qed.

Lemma reads_bind d m f v w : reads d m v -> reads d (f v) w -> reads d (mbind f m) w.
Proof. intros Hm Hf c. unfold mbind, M_bind. by rewrite Hm. Qed.

Lemma reads_lift d o v : o = Ret v -> reads d (lift o) v.
Proof. intros -> c. done. Qed.

Lemma tbl_ok l i : 0 <= i < Z.of_nat (length l) -> exists v, tbl l i = Ret v /\ v ∈ l.
Proof.
  intros H. unfold tbl. destruct (nthZ_some l i H) as [v E]. rewrite E. exists v. split; [done|].
  unfold nthZ in E. destruct (0 <=? i); [|done]. by eapply list_elem_of_lookup_2.
Qed.

(** A palette index always leads to a colour. *)
Lemma color_ok d i :
  vga_ok d -> 0 <= i < 16 ->
  exists v, (p ← tbl (atc_palette (vga_atc d)) i; tbl (dac_palette_rgb (vga_dac d)) p) = Ret v.
Proof.
  intros H Hi. destruct (vo_atc d H). destruct (vo_dac d H).
  destruct (tbl_ok (atc_palette (vga_atc d)) i) as (p & -> & Hp); [rewrite ao_length0; lia|].
  pose proof (proj1 (Forall_forall _ _) ao_palette0 p Hp) as Hp6. unfold fits in Hp6. change (2 ^ 6) with 64 in Hp6.
  destruct (tbl_ok (dac_palette_rgb (vga_dac d)) p) as (v & Ev & _); [rewrite do_rgb0; lia|]. by exists v.
Qed.

Lemma land1_bit b n : Z.land (Z.shiftr b n) 0x1 = 0 \/ Z.land (Z.shiftr b n) 0x1 = 1.
Proof.
  change (Z.land (Z.shiftr b n) 0x1) with (Z.land (Z.shiftr b n) (Z.ones 1)).
  rewrite Z.land_ones by done. change (2 ^ 1) with 2.
  pose proof (Z.mod_pos_bound (Z.shiftr b n) 2 ltac:(done)). lia.
Qed.

Lemma plane_bits_ok d offset bit :
  vga_ok d -> 0 <= offset < PLANE -> exists v, reads d (plane_bits offset bit) v /\ 0 <= v < 16.
Proof.
  intros H Ho. eexists. split.
  - unfold plane_bits. do 4 (eapply reads_bind; [apply reads_ram; [done|unfold PLANE, KB in *; lia]|]). by intros c.
  - assert (E : forall b k, Z.shiftl (Z.land (Z.shiftr b bit) 0x1) k = 0 \/ Z.shiftl (Z.land (Z.shiftr b bit) 0x1) k = Z.shiftl 1 k).
    { intros b k. destruct (land1_bit b bit) as [-> | ->]; [left; apply Z.shiftl_0_l|by right]. }
    cbv zeta. destruct (E (ram_byte d (offset + 0 * PLANE)) 0) as [-> | ->],
      (E (ram_byte d (offset + 1 * PLANE)) 1) as [-> | ->], (E (ram_byte d (offset + 2 * PLANE)) 2) as [-> | ->],
      (E (ram_byte d (offset + 3 * PLANE)) 3) as [-> | ->]; by vm_compute.
Qed.

Lemma get_pixel_ok d x y :
  vga_ok d -> 0 <= x < gc_width d -> 0 <= y < gc_height d -> gc_width d * gc_height d <= 8 * PLANE ->
  exists v, reads d (vga_get_pixel x y) v.
Proof.
  intros H Hx Hy Hs.
  assert (Ho : 0 <= y * gc_width d / 8 + x / 8 < PLANE).
  { assert (Hi : 0 <= y * gc_width d + x < 8 * PLANE) by nia. revert Hi.
    assert (0 <= y * gc_width d) as Hy0 by nia. revert Hy0. generalize (y * gc_width d). intros z Hz Hi.
    Z.div_mod_to_equations. lia. }
  destruct (plane_bits_ok d _ (7 - x mod 8) H Ho) as (v & Hv & Hv16).
  pose proof (vo_atc d H) as Ha. destruct Ha. list_facts.
  assert (Hd : 0 <= Z.land v (atc_color_plane_enb (vga_atc d)) < 16).
  { pose proof (fits_land_r 4 v (atc_color_plane_enb (vga_atc d)) ltac:(done)) as Hf. by apply Hf. }
  destruct (tbl_ok (atc_palette (vga_atc d)) (Z.land v (atc_color_plane_enb (vga_atc d)))) as (p & Ep & Hp);
    [rewrite ao_length0; lia|].
  pose proof (proj1 (Forall_forall _ _) ao_palette0 p Hp) as Hp6.
  assert (Hidx : fits 8 (Z.lor (if has (atc_mode (vga_atc d)) ATC_MC_IPS
      then Z.lor (Z.land p 0x0f) (atc_color_select_45 (vga_atc d)) else p) (atc_color_select_67 (vga_atc d)))).
  { apply fits_lor; [done| |done]. apply (fits_mono 6); [done|]. case_match; [|done].
    apply fits_lor; [done| |done]. by apply fits_land_r. }
  unfold fits in Hidx. change (2 ^ 8) with 256 in Hidx.
  destruct (tbl_ok (dac_palette_rgb (vga_dac d)) _ ltac:(rewrite (do_rgb _ (vo_dac d H)); exact Hidx)) as (w & Ew & _).
  exists w. intros c. unfold vga_get_pixel, mbind, M_bind, get. cbn [vd].
  rewrite Hv. unfold lift. rewrite Ep. cbv zeta. by rewrite Ew.
Qed.

Lemma crtc_byte d b : vga_ok d -> b ∈ crtc_bytes (vga_crtc d) -> 0 <= b < 256.
Proof. intros H Hb. exact (proj1 (Forall_forall _ _) (co_bytes _ (vo_crtc d H)) b Hb). Qed.

Lemma crtc_width_range d : vga_ok d -> 0 <= crtc_width d <= 2304.
Proof.
  intros H. pose proof (crtc_byte d (crtc_horiz_disp_end (vga_crtc d)) H) as Hb.
  destruct (so_dots _ (vo_seq d H)) as [E|[E|E]]; unfold crtc_width; rewrite E;
    (assert (0 <= crtc_horiz_disp_end (vga_crtc d) < 256); [|lia]); apply Hb; unfold crtc_bytes;
    do 3 apply list_elem_of_further; apply list_elem_of_here.
Qed.

Lemma crtc_height_range d : vga_ok d -> 1 <= crtc_height d <= 1024.
Proof.
  intros H. assert (Hv : 0 <= crtc_vert_disp_end (vga_crtc d) < 256).
  { apply (crtc_byte d _ H). unfold crtc_bytes. do 21 apply list_elem_of_further. apply list_elem_of_here. }
  assert (Ho : 0 <= crtc_overflow (vga_crtc d) < 256).
  { apply (crtc_byte d _ H). unfold crtc_bytes. do 9 apply list_elem_of_further. apply list_elem_of_here. }
  unfold crtc_height. cbv zeta.
  assert (Hf : fits 10 (Z.lor (Z.lor (crtc_vert_disp_end (vga_crtc d))
           (Z.shiftl (Z.shiftr (Z.land (crtc_overflow (vga_crtc d)) CRTC_OF_VDE8) CRTC_OF_VDE8_SHIFT) 8))
    (Z.shiftl (Z.shiftr (Z.land (crtc_overflow (vga_crtc d)) CRTC_OF_VDE9) CRTC_OF_VDE9_SHIFT) 9))).
  { repeat apply fits_lor; try done.
    - by apply (fits_mono 8).
    - apply fits_shl; [done|]. apply (fits_le _ _ 1); [|done]. apply field_range; (done || apply Ho).
    - apply fits_shl; [done|]. apply (fits_le _ _ 1); [|done]. apply field_range; (done || apply Ho). }
  unfold fits in Hf. change (2 ^ 10) with 1024 in Hf. lia.
Qed.

(** The cell of a pixel stays in the plane of the characters. *)
Lemma text_offset_range d x y :
  vga_ok d -> gc_width d = crtc_width d -> 0 <= x < crtc_width d -> 0 <= y < crtc_height d ->
  let dots := seq_cm_dots (vga_seq d) in
  let o := 2 * crtc_start_addr (vga_crtc d) + (y / 16 * gc_width d / dots * 2 + x / dots * 2) in
  (dots = 8 \/ dots = 9) /\ 0 <= o < 3 * PLANE.
Proof.
  intros H Hg Hx Hy dots o. pose proof (crtc_height_range d H) as Hh.
  assert (Hs : 0 <= crtc_start_addr (vga_crtc d) < 65536) by apply (co_start _ (vo_crtc d H)).
  assert (Hb : 0 <= crtc_horiz_disp_end (vga_crtc d) < 256).
  { apply (crtc_byte d _ H). unfold crtc_bytes. do 3 apply list_elem_of_further. apply list_elem_of_here. }
  assert (Hd : dots = 8 \/ dots = 9).
  { subst dots. destruct (so_dots _ (vo_seq d H)) as [E|]; [|done]. unfold crtc_width in Hx. rewrite E in Hx. lia. }
  split; [done|]. subst o. rewrite Hg. unfold crtc_width in *. fold dots in Hx |- *.
  rewrite Z.mul_assoc, Z.div_mul by lia.
  assert (0 <= y / 16 <= 63) by (Z.div_mod_to_equations; lia).
  assert (0 <= x / dots <= 255) by (destruct Hd as [-> | ->]; Z.div_mod_to_equations; lia).
  unfold PLANE, KB. nia.
Qed.

Lemma get_text_pixel_ok d x y :
  vga_ok d -> gc_width d = crtc_width d -> 0 <= x < crtc_width d -> 0 <= y < crtc_height d ->
  exists v, reads d (vga_get_text_pixel x y) v.
Proof.
  intros H Hg Hx Hy. destruct (text_offset_range d x y H Hg Hx Hy) as [Hd Ho]. cbv zeta in Ho.
  set (dots := seq_cm_dots (vga_seq d)) in *. set (o := 2 * _ + _) in Ho.
  assert (Hch : 0 <= ram_byte d (o + 0 * PLANE) < 256) by by apply ram_byte_fits.
  assert (Hat : 0 <= ram_byte d (o + 1 * PLANE) < 256) by by apply ram_byte_fits.
  set (ch := ram_byte d (o + 0 * PLANE)) in *. set (attr := ram_byte d (o + 1 * PLANE)) in *.
  set (two := has (seq_mm (vga_seq d)) SEQ_MM_EM && negb (seq_cmap_pri_off (vga_seq d) =? seq_cmap_sec_off (vga_seq d))).
  set (base := if two then if has attr 0x8 then seq_cmap_pri_off (vga_seq d) else seq_cmap_sec_off (vga_seq d) else 0).
  set (attr' := if two then Z.land attr (Z.lnot 0x8) else attr).
  assert (Hbase : 0 <= base <= 56 * KB).
  { destruct (vo_seq d H). subst base. unfold KB in *. repeat case_match; lia. }
  assert (Hattr' : 0 <= attr' < 256).
  { subst attr'. case_match; [|done]. exact (fits_land_r 8 attr _ ltac:(done) Hat). }
  destruct (color_ok d (Z.land attr 0xf) H (fits_land_l 4 attr 0xf ltac:(done) ltac:(lia) ltac:(done))) as (v1 & E1).
  destruct (color_ok d (Z.land attr' 0xf) H (fits_land_l 4 attr' 0xf ltac:(done) ltac:(lia) ltac:(done))) as (v2 & E2).
  destruct (color_ok d (Z.shiftr attr' 4) H) as (v3 & E3).
  { rewrite Z.shiftr_div_pow2 by done. change (2 ^ 4) with 16. Z.div_mod_to_equations. lia. }
  set (fo := base + Z.shiftl ch 5 + y mod 16 + 2 * PLANE).
  assert (Hfo : 0 <= fo < 4 * PLANE).
  { subst fo. rewrite Z.shiftl_mul_pow2 by done. change (2 ^ 5) with 32. unfold PLANE, KB in *.
    pose proof (Z.mod_pos_bound y 16 ltac:(done)). lia. }
  eexists. intros c. unfold vga_get_text_pixel, mbind, M_bind, get. cbn [vd]. fold dots.
  unfold div_c. destruct (Z.eqb_spec dots 0); [lia|]. unfold lift. fold o.
  rewrite (reads_ram d (o + 0 * PLANE) H) by (unfold PLANE, KB in *; lia). fold ch.
  rewrite (reads_ram d (o + 1 * PLANE) H) by (unfold PLANE, KB in *; lia). fold attr.
  unfold mbind in E1, E2, E3.
  instantiate (1 := if at_cursor (vga_crtc d) o y then v1 else _).
  destruct (at_cursor (vga_crtc d) o y); [by rewrite E1|].
  fold two. fold base. fold attr'. fold fo. rewrite (reads_ram d fo H Hfo).
  match goal with |- context [Z.testbit ?f ?b] => instantiate (1 := if Z.testbit f b then v2 else v3) end.
  destruct (Z.testbit _ _); [by rewrite E2|by rewrite E3].
Qed.

(** The value a pixel function gives for the device [d]. *)
Definition shown (d : vga_vdev) (get_pixel : Z -> Z -> V Z) (x y : Z) : Z :=
  match get_pixel x y (mkHw d (mkGfx false 0 0 None false)) with Ret (v, _) => v | Stop _ => 0 end.

Lemma shown_reads d gp x y v : reads d (gp x y) v -> shown d gp x y = v.
Proof. intros H. unfold shown. by rewrite H. Qed.

Lemma nthZ_setZ {A} (l : list A) i j x :
  0 <= i < Z.of_nat (length l) -> nthZ (setZ l i x) j = if j =? i then Some x else nthZ l j.
Proof.
  intros Hi. destruct (Z.eqb_spec j i) as [->|Hn]; [|by apply nthZ_setZ_ne].
  unfold nthZ, setZ. destruct (Z.leb_spec 0 i); [|lia]. apply list_lookup_insert_eq. lia.
Qed.

Section Render.
Context (d : vga_vdev) (gp : Z -> Z -> V Z) (w ht : Z).
Hypothesis gp_reads : forall x y, 0 <= x < w -> 0 <= y < ht -> exists v, reads d (gp x y) v.
Hypothesis width : gc_width d = w.

Lemma render_row_run n : forall x y c l,
  gi_data c = Some l -> 0 <= x -> x + Z.of_nat n <= w -> 0 <= y < ht -> w * ht <= Z.of_nat (length l) ->
  exists l', render_row gp n x y (mkHw d c) = Ret (tt, mkHw d (c <| gi_data := Some l' |>)) /\
    length l' = length l /\
    forall j, nthZ l' j = if (y * w + x <=? j) && (j <? y * w + x + Z.of_nat n)
                          then Some (shown d gp (j - y * w) y) else nthZ l j.
Proof.
  induction n as [|n IH]; intros x y c l Hl Hx Hn Hy Hlen; cbn [render_row].
  - exists l. split; [by destruct c; cbn in *; subst|]. split; [done|]. intros j.
    destruct (Z.leb_spec (y * w + x) j), (Z.ltb_spec j (y * w + x + Z.of_nat 0)); try done. lia.
  - destruct (gp_reads x y ltac:(lia) Hy) as [v Hv]. unfold mbind, M_bind, get. rewrite Hv. cbn [vd].
    assert (Hoff : 0 <= y * w + x < Z.of_nat (length l)) by nia.
    unfold put_pixel. cbn [gctx]. rewrite Hl, width.
    destruct (Z.leb_spec 0 (y * w + x)), (Z.ltb_spec (y * w + x) (Z.of_nat (length l))); try lia. cbn [andb].
    edestruct (IH (x + 1) y (c <| gi_data := Some (setZ l (y * w + x) v) |>)) as (l' & E & Hl' & Hj);
      [reflexivity|lia|lia|done|by rewrite length_setZ|].
    exists l'. split; [exact E|]. split; [by rewrite Hl', length_setZ|]. intros j. rewrite Hj, nthZ_setZ by done.
    destruct (Z.leb_spec (y * w + (x + 1)) j), (Z.leb_spec (y * w + x) j),
      (Z.ltb_spec j (y * w + (x + 1) + Z.of_nat n)), (Z.ltb_spec j (y * w + x + Z.of_nat (S n))),
      (Z.eqb_spec j (y * w + x)) as [->|]; cbn [andb]; try lia; try done.
    f_equal. rewrite <- (shown_reads d gp x y v Hv). f_equal. lia.
Qed.

(** The rows painted so far. *)
Lemma render_rows_run n : forall y c l,
  gi_data c = Some l -> 0 <= w -> 0 <= y -> y + Z.of_nat n <= ht -> w * ht <= Z.of_nat (length l) ->
  exists l', render_rows gp n y (mkHw d c) = Ret (tt, mkHw d (c <| gi_data := Some l' |>)) /\
    length l' = length l /\
    (forall a b, 0 <= a < w -> y <= b < y + Z.of_nat n -> nthZ l' (b * w + a) = Some (shown d gp a b)) /\
    forall j, j < y * w -> nthZ l' j = nthZ l j.
Proof.
  induction n as [|n IH]; intros y c l Hl Hw Hy Hn Hlen; cbn [render_rows].
  - exists l. split; [by destruct c; cbn in *; subst|]. split; [done|]. split; [intros; lia|done].
  - unfold mbind, M_bind, get. cbn [vd]. rewrite width.
    destruct (render_row_run (Z.to_nat w) 0 y c l Hl ltac:(lia) ltac:(lia) ltac:(lia) Hlen) as (l1 & -> & Hl1 & Hj1).
    edestruct (IH (y + 1) (c <| gi_data := Some l1 |>) l1) as (l' & E & Hl' & Hpix & Hj);
      [reflexivity|done|lia|lia|by rewrite Hl1|].
    exists l'. split; [exact E|]. split; [congruence|]. split.
    + intros a b Ha Hb. destruct (decide (b = y)) as [->|]; [|apply Hpix; lia].
      rewrite Hj, Hj1 by nia. rewrite Z2Nat.id by done.
      destruct (Z.leb_spec (y * w + 0) (y * w + a)), (Z.ltb_spec (y * w + a) (y * w + 0 + w)); try lia.
      cbn [andb]. do 2 f_equal. lia.
    + intros j Hlt. rewrite Hj, Hj1 by nia.
      destruct (Z.leb_spec (y * w + 0) j); [lia|done].
Qed.
End Render.

(** The image is large enough for its size, and a frame buffer of the caller for
    the largest size the CRT controller can be programmed to. *)
Definition image_fits (c : gfx_ctx) : Prop :=
  exists l, gi_data c = Some l /\ 0 <= gi_width c * gi_height c <= Z.of_nat (length l) /\
    Z.of_nat (length l) < 2 ^ 31 /\ (raw c = true -> 2304 * 1024 <= Z.of_nat (length l)).

Lemma resize_fits w ht c :
  image_fits c -> 0 <= w <= 2304 -> 0 <= ht <= 1024 ->
  image_fits (gc_resize true w ht c) /\ gi_width (gc_resize true w ht c) = w /\
  gi_height (gc_resize true w ht c) = ht.
Proof.
  intros (l & Hl & Hs & Hlt & Hraw) Hw Hh. unfold gc_resize. assert (0 <= w * ht <= 2359296) as Hp by nia.
  change (raw (c <| gi_width := w |> <| gi_height := ht |>)) with (raw c). change (2 ^ 31) with 2147483648 in *.
  destruct (raw c) eqn:Hr; (split; [|done]).
  - exists l. cbn. specialize (Hraw eq_refl). split_and!; try done; lia.
  - eexists. split; [reflexivity|]. cbn. rewrite length_replicate.
    unfold s32, swrap. change (2 ^ (32 - 1)) with 2147483648.
    rewrite wrap_small by (unfold fits; change (2 ^ 32) with 4294967296; lia).
    rewrite Z.add_simpl_r. unfold u64.
    rewrite wrap_small by (unfold fits; change (2 ^ 64) with 18446744073709551616; lia).
    rewrite Z.div_mul by done. rewrite Hr. split_and!; try done; lia.
Qed.

(** Resizing does not touch the registers. *)
Lemma check_size_run h :
  vga_ok (vd h) -> image_fits (gctx h) -> vga_in_reset (vd h) = false ->
  exists d' c', vga_check_size true h = Ret (tt, mkHw d' c') /\
    d' = vd h <| gc_width := crtc_width (vd h) |> <| gc_height := crtc_height (vd h) |> /\ vga_ok d' /\
    image_fits c' /\ gi_width c' = crtc_width (vd h) /\ gi_height c' = crtc_height (vd h).
Proof.
  intros H Hf Hr. pose proof (crtc_width_range _ H). pose proof (crtc_height_range _ H).
  unfold vga_check_size, modify. rewrite Hr. cbv zeta.
  set (d' := vd h <| gc_width := crtc_width (vd h) |> <| gc_height := crtc_height (vd h) |>).
  assert (Hd' : vga_ok d') by (destruct H; by split).
  change (gctx (h <| vd ::= ?f |>)) with (gctx h).
  destruct (negb (gi_width (gctx h) =? crtc_width (vd h)) || negb (gi_height (gctx h) =? crtc_height (vd h))) eqn:E.
  - destruct (resize_fits (crtc_width (vd h)) (crtc_height (vd h)) (gctx h) Hf) as (? & ? & ?); [lia..|].
    exists d', (gc_resize true (crtc_width (vd h)) (crtc_height (vd h)) (gctx h)). split_and!; done.
  - apply orb_false_iff in E as [E1%negb_false_iff%Z.eqb_eq E2%negb_false_iff%Z.eqb_eq].
    exists d', (gctx h). split_and!; done.
Qed.

(** *** Operations as steps on a typed state *)

(** Whatever [m] returns satisfies [P], and the state stays well typed. *)
Definition typed {A} (m : V A) (P : A -> Prop) : Prop := forall h, vga_ok (vd h) ->
  match m h with Ret (a, h') => P a /\ vga_ok (vd h') | Stop _ => True end.

Lemma typed_ret {A} (a : A) (P : A -> Prop) : P a -> typed (mret a) P.
Proof. intros H h Hh. done. Qed.

Lemma typed_bind {A B} (m : V A) (f : A -> V B) P Q :
  typed m P -> (forall a, P a -> typed (f a) Q) -> typed (mbind f m) Q.
Proof.
  intros Hm Hf h Hh. unfold mbind, M_bind. specialize (Hm h Hh). destruct (m h) as [[a h']|]; [|done].
  destruct Hm as [Ha Hh']. by apply Hf.
Qed.

Lemma typed_get : typed get (fun h => vga_ok (vd h)).
Proof. intros h Hh. done. Qed.

Lemma typed_lift {A} (o : outcome A) (P : A -> Prop) : (forall a, o = Ret a -> P a) -> typed (lift o) P.
Proof. intros H h Hh. unfold lift. destruct o; [by split; [apply H|]|done]. Qed.

Lemma typed_modify f : (forall h, vga_ok (vd h) -> vga_ok (vd (f h))) -> typed (modify f) (fun _ => True).
Proof. intros H h Hh. split; [done|by apply H]. Qed.

Lemma typed_weaken {A} (m : V A) (P Q : A -> Prop) : typed m P -> (forall a, P a -> Q a) -> typed m Q.
Proof. intros Hm HPQ h Hh. specialize (Hm h Hh). destruct (m h) as [[a h']|]; [|done].
  destruct Hm. split; auto. Qed.

Lemma typed_ram_rd off : typed (ram_rd off) (fits 8).
Proof.
  intros h Hh. pose proof (ram_byte_fits (vd h) off Hh) as Hb. unfold ram_rd, ram_byte in *.
  destruct (vga_ram (vd h)); [|done]. by destruct (_ && _).
Qed.

Lemma typed_ram_wr off b : fits 8 b -> typed (ram_wr off b) (fun _ => True).
Proof.
  intros Hb h Hh. pose proof (vo_ram _ Hh) as Hr. unfold ram_wr, ram_ok in *.
  destruct (vga_ram (vd h)) as [m|] eqn:E; [|done]. destruct (_ && _); [|done]. split; [done|].
  destruct Hh. split; cbn; try done. by apply map_Forall_insert_2.
Qed.

Lemma typed_wr_plane mm o k c : fits 8 c -> typed (wr_plane mm o k c) (fun _ => True).
Proof. intros Hc. unfold wr_plane. destruct (Z.testbit mm k); [by apply typed_ram_wr|by apply typed_ret]. Qed.

Lemma typed_mem_wr addr val : fits 8 val -> typed (vga_mem_wr_handler addr val) (fun _ => True).
Proof.
  intros Hv. eapply typed_bind; [apply typed_get|]. intros h Hh. cbv zeta.
  destruct (mem_offset _ _) as [o|]; [|by apply typed_ret].
  eapply (typed_bind _ _ (fun f => forall k c, fits 8 c -> fits 8 (f k c))).
  { apply typed_lift. intros f Ef k c Hc. by eapply plane_value_fits; [apply (vo_gc _ Hh)| | |exact Ef]. }
  intros f Hf. pose proof (go_latches _ (vo_gc _ Hh)) as Hl. list_facts.
  repeat case_match; repeat (eapply typed_bind; [by apply typed_wr_plane, Hf|intros _ _]);
    by apply typed_wr_plane, Hf.
Qed.

Lemma typed_mem_rd addr : typed (vga_mem_rd_handler addr) (fun _ => True).
Proof.
  eapply typed_bind; [apply typed_get|]. intros h Hh. cbv zeta.
  destruct (mem_offset _ _) as [o|]; [|by apply typed_ret].
  do 4 (eapply typed_bind; [apply typed_ram_rd|intros ? ?]).
  eapply typed_bind.
  { apply typed_modify. intros h' []. split; cbn; try done. destruct vo_gc0. split; cbn; list_facts; done. }
  intros _ _. repeat case_match; try by apply typed_ret.
  all: eapply typed_weaken; [apply typed_ram_rd|done].
Qed.

Lemma typed_in port old : typed (vga_port_in_handler port old) (fun v => v = old \/ exists b, v = Some b /\ fits 8 b).
Proof.
  eapply typed_bind; [apply typed_get|]. intros h Hh. cbv zeta.
  apply (switch_ind (fun m => typed m _)); [|by apply typed_ret; right; eexists].
  list_facts; cbn [snd]; try by (apply typed_ret; right; eexists; split;
    [reflexivity|eauto using crtc_in_fits, seq_in_fits, gc_in_fits, vo_crtc, vo_seq, vo_gc, vo_misc with vga]).
  - destruct (atc_in_ok _ (vo_atc _ Hh)) as (v & E & Hv). rewrite E.
    eapply (typed_bind _ _ (fits 8)); [apply typed_lift; by intros ? [= <-]|]. intros a Ha. apply typed_ret. eauto.
  - destruct (dac_in_ok _ (vo_dac _ Hh)) as (v & r & E & Hv & Hr). rewrite E.
    eapply (typed_bind _ _ (fun p => fits 8 p.1 /\ dac_ok p.2)); [apply typed_lift; by intros ? [= <-]|].
    intros [a r'] [Ha Hr']. eapply typed_bind; [apply typed_modify; intros h' []; by split|].
    intros _ _. apply typed_ret. eauto.
  - apply typed_ret. by left.
  - eapply typed_bind; [apply typed_modify; intros h' []; split; cbn; eauto with vga|].
    intros _ _. apply typed_ret. by right; eexists.
Qed.

(** Only the registers are typed, not the image. *)
Lemma typed_put_pixel off v : typed (put_pixel off v) (fun _ => True).
Proof. intros h Hh. unfold put_pixel. destruct (gi_data (gctx h)); [|done]. by destruct (_ && _). Qed.

Lemma typed_any {A} (o : outcome A) : typed (lift o) (fun _ => True).
Proof. by apply typed_lift. Qed.

Lemma typed_get_pixel x y : typed (vga_get_pixel x y) (fun _ => True).
Proof.
  unfold vga_get_pixel, plane_bits. eapply typed_bind; [apply typed_get|]. intros h Hh. cbv zeta.
  eapply (typed_bind _ _ (fun _ => True)).
  { do 4 (eapply typed_bind; [apply typed_ram_rd|intros ? ?]). by apply typed_ret. }
  intros b _. eapply typed_bind; [apply typed_any|]. intros p _. apply typed_any.
Qed.

Lemma typed_get_text_pixel x y : typed (vga_get_text_pixel x y) (fun _ => True).
Proof.
  unfold vga_get_text_pixel. eapply typed_bind; [apply typed_get|]. intros h Hh. cbv zeta.
  do 2 (eapply typed_bind; [apply typed_any|intros ? _]).
  do 2 (eapply typed_bind; [apply typed_ram_rd|intros ? _]).
  case_match; [apply typed_any|]. eapply typed_bind; [apply typed_ram_rd|]. intros ? _. apply typed_any.
Qed.

Lemma typed_render_rows gp n y : (forall x y, typed (gp x y) (fun _ => True)) -> typed (render_rows gp n y) (fun _ => True).
Proof.
  intros Hgp.
  assert (Hrow : forall n x y, typed (render_row gp n x y) (fun _ => True)).
  { intros m. induction m as [|m IH]; intros x y'; cbn [render_row]; [by apply typed_ret|].
    eapply typed_bind; [apply typed_get|]. intros h _. eapply typed_bind; [apply Hgp|]. intros v _.
    eapply typed_bind; [apply typed_put_pixel|]. intros _ _. apply IH. }
  revert y. induction n as [|n IH]; intros y; cbn [render_rows]; [by apply typed_ret|].
  eapply typed_bind; [apply typed_get|]. intros h _. eapply typed_bind; [apply Hrow|]. intros _ _. apply IH.
Qed.

Lemma typed_render alloc : typed (vga_render alloc) (fun _ => True).
Proof.
  eapply typed_bind.
  { apply typed_modify. intros h Hh. destruct (vga_in_reset (vd h)); [done|]. cbv zeta.
    case_match; destruct Hh; by split. }
  intros _ _. eapply typed_bind; [apply typed_get|]. intros h _.
  destruct (vga_in_reset (vd h)).
  - intros h' Hh'. unfold clear_pixels. destruct (_ =? 0); [done|]. destruct (gi_data (gctx h')); [|done].
    by destruct (_ && _).
  - destruct (graphics_mode (vd h)); (eapply typed_bind; [apply typed_get|]; intros h2 _);
      apply typed_render_rows; intros; [apply typed_get_pixel|apply typed_get_text_pixel].
Qed.

(** What the guest and the render thread do. *)
Inductive vga_step (h : vga_hw) : vga_hw -> Prop :=
  | vs_out port val e h' : fits 8 val -> vga_port_out_handler port val h = Ret (e, h') -> vga_step h h'
  | vs_in port old v h' : vga_port_in_handler port old h = Ret (v, h') -> vga_step h h'
  | vs_write addr val h' : fits 8 val -> vga_mem_wr_handler addr val h = Ret (tt, h') -> vga_step h h'
  | vs_read addr v h' : vga_mem_rd_handler addr h = Ret (v, h') -> vga_step h h'
  | vs_render alloc h' : vga_render alloc h = Ret (tt, h') -> vga_step h h'.

Lemma typed_run {A} (m : V A) P a h h' : typed m P -> vga_ok (vd h) -> m h = Ret (a, h') -> vga_ok (vd h').
Proof. intros Hm Hh E. specialize (Hm h Hh). rewrite E in Hm. apply Hm. Qed.

Lemma vga_step_ok h h' : vga_step h h' -> vga_ok (vd h) -> vga_ok (vd h').
Proof.
  intros [port val e h1 Hv E|port old v h1 E|addr val h1 Hv E|addr v h1 E|alloc h1 E] H.
  - destruct (port_out_run port val h Hv H) as (e1 & h2 & E1 & H2). rewrite E in E1. by injection E1 as <- <-.
  - by eapply typed_run; [apply typed_in| |exact E].
  - by eapply typed_run; [apply typed_mem_wr| |exact E].
  - by eapply typed_run; [apply typed_mem_rd| |exact E].
  - by eapply typed_run; [apply typed_render| |exact E].
Qed.

Lemma forallb_fits w l : forallb (fitsb w) l = true -> Forall (fits w) l.
Proof. rewrite forallb_forall. intros H. apply Forall_forall. intros x Hx. by apply fitsb_spec, H, list_elem_of_In. Qed.

Lemma vga_init_ok host d : vga_init host false = Ret (Some d) -> vga_ok d.
Proof.
  unfold vga_init. destruct (negb (vh_device host)); [done|]. destruct (existsb _ _); [done|].
  destruct (vh_mem host =? -1); [done|]. destruct (negb (vh_ram host)); [done|].
  match goal with |- (?a = _) -> _ => let x := eval vm_compute in a in change a with x end.
  intros [= <-]. split; [by intros ? ?|done| | | | |]; split; try done;
    try (apply forallb_fits; vm_compute; reflexivity). by left.
Qed.

(** *** Sequences of port accesses *)

Fixpoint outs (l : list (Z * Z)) : V unit :=
  match l with [] => mret tt | (port, val) :: l' => _ ← vga_port_out_handler port val; outs l' end.
Fixpoint ins (port : Z) (n : nat) : V (list Z) :=
  match n with
  | O => mret []
  | S n' => v ← vga_port_in_handler port None; b ← filled v; l ← ins port n'; mret (b :: l)
  end.

Lemma seqZ_each (P : Z -> Prop) n : Forall P (seqZ 0 n) -> forall i, 0 <= i < n -> P i.
Proof. intros H i Hi. eapply Forall_forall; [exact H|]. apply elem_of_seqZ. lia. Qed.

(** Index, data, and what the data port gives. *)
Definition write_read (idx data i v : Z) (h : vga_hw) : outcome (option Z) :=
  match outs [(idx, i); (data, v)] h with
  | Ret (_, h') => match vga_port_in_handler data None h' with Ret (r, _) => Ret r | Stop e => Stop e end
  | Stop e => Stop e
  end.

(** The same through the one port of the attribute controller; reading the
    status register first selects the index. *)
Definition atc_write_read (i v : Z) (h : vga_hw) : outcome (option Z) :=
  match (_ ← vga_port_in_handler GEN_INPUT_STS1_COLOR_PORT None; outs [(ATC_IDX_PORT, i); (ATC_IDX_PORT, v)]) h with
  | Ret (_, h') => match vga_port_in_handler ATC_DATA_PORT None h' with Ret (r, _) => Ret r | Stop e => Stop e end
  | Stop e => Stop e
  end.

Ltac each_index :=
  apply seqZ_each; match goal with |- Forall _ ?l => let l' := eval vm_compute in l in change l with l' end;
  repeat (apply Forall_cons_2; [vm_compute; reflexivity|]); apply Forall_nil_2.

Lemma crtc_readback v h : forall i, 0 <= i < 25 ->
  write_read CRTC_IDX_COLOR_PORT CRTC_DATA_COLOR_PORT i v h = Ret (Some v).
Proof. each_index. Qed.

Lemma seq_readback v h : forall i, 0 <= i < 5 -> write_read SEQ_IDX_PORT SEQ_DATA_PORT i v h = Ret (Some v).
Proof. each_index. Qed.

Lemma gc_readback v h : forall i, 0 <= i < 9 -> write_read GC_IDX_PORT GC_DATA_PORT i v h = Ret (Some v).
Proof. each_index. Qed.

(** *** The palette as a stream *)

(** The byte the next access to the data port concerns. *)
Definition wr_pos (r : vga_dac_regs) : Z := 3 * dac_wr_index r + dac_wr_subindex r.
Definition rd_pos (r : vga_dac_regs) : Z := 3 * dac_rd_index r + dac_rd_subindex r.

Lemma dac_out_step val r r' :
  dac_ok r -> dac_out val r = Ret r' ->
  dac_palette r' = setZ (dac_palette r) (wr_pos r) val /\ (wr_pos r < 767 -> wr_pos r' = wr_pos r + 1).
Proof.
  intros H. pose proof (do_wr r H) as Hi. pose proof (do_wr_sub r H) as Hs. unfold fits in Hi.
  change (2 ^ 8) with 256 in Hi.
  destruct (dac_at_ok r (3 * dac_wr_index r + dac_wr_subindex r) H ltac:(lia)) as (v & E & _).
  unfold dac_out. rewrite E. cbn [mbind outcome_bind]. cbv zeta.
  set (r1 := r <| dac_palette ::= _ |> <| dac_wr_subindex ::= _ |>).
  assert (E1 : dac_palette r1 = setZ (dac_palette r) (wr_pos r) val) by done.
  assert (E2 : dac_wr_subindex r1 = dac_wr_subindex r + 1) by (apply u8_small; lia).
  assert (E3 : dac_wr_index r1 = dac_wr_index r) by done.
  unfold wr_pos at 2 3. destruct (Z.eqb_spec (dac_wr_subindex r1) 3) as [E4|].
  - destruct (dac_rgb r1 (dac_wr_index r1)) as [rgb|]; [|done]. cbn [mbind outcome_bind].
    destruct (_ <? _); [|done]. intros [= <-]. split; [done|]. intros Hp. unfold wr_pos.
    cbn. change (dac_wr_index r1) with (dac_wr_index r). rewrite u8_small by lia. lia.
  - intros [= <-]. split; [done|]. unfold wr_pos. lia.
Qed.

Lemma dac_in_step v r r' :
  dac_ok r -> dac_in r = Ret (v, r') ->
  nthZ (dac_palette r) (rd_pos r) = Some v /\ dac_palette r' = dac_palette r /\
  (rd_pos r < 767 -> rd_pos r' = rd_pos r + 1).
Proof.
  intros H. pose proof (do_rd r H) as Hi. pose proof (do_rd_sub r H) as Hs. unfold fits in Hi.
  change (2 ^ 8) with 256 in Hi.
  unfold dac_in, dac_at. fold (rd_pos r). destruct (nthZ (dac_palette r) (rd_pos r)) as [b|] eqn:Eb; [|done].
  cbn [mbind outcome_bind]. cbv zeta. set (r1 := r <| dac_rd_subindex ::= _ |>).
  assert (E2 : dac_rd_subindex r1 = dac_rd_subindex r + 1) by (apply u8_small; lia).
  intros [= <- <-]. split; [done|]. change (u8 (dac_rd_subindex r + 1)) with (dac_rd_subindex r1).
  destruct (Z.eqb_spec (dac_rd_subindex r1) 3) as [E4|]; (split; [done|]).
  - intros Hp. unfold rd_pos in *. cbn. change (dac_rd_index r1) with (dac_rd_index r).
    rewrite u8_small by lia. lia.
  - unfold rd_pos. change (dac_rd_index r1) with (dac_rd_index r). lia.
Qed.

(** Writing a run of bytes. *)
Lemma dac_outs_run bs : forall h,
  vga_ok (vd h) -> Forall (fits 8) bs -> wr_pos (vga_dac (vd h)) + Z.of_nat (length bs) <= 768 ->
  exists h', outs (map (pair DAC_DATA_PORT) bs) h = Ret (tt, h') /\ vga_ok (vd h') /\
    forall k, 0 <= k -> nthZ (dac_palette (vga_dac (vd h'))) k =
      match nthZ bs (k - wr_pos (vga_dac (vd h))) with
      | Some b => Some b | None => nthZ (dac_palette (vga_dac (vd h))) k end.
Proof.
  induction bs as [|b bs IH]; intros h H Hb Hp.
  - exists h. split_and!; try done. intros k _. unfold nthZ at 2. destruct (0 <=? _); [by rewrite lookup_nil|done].
  - apply Forall_cons in Hb as [Hb Hbs]. cbn [length map outs] in *.
    destruct (dac_out_ok b (vga_dac (vd h)) Hb (vo_dac _ H)) as (r & Er & Hr).
    destruct (dac_out_step b _ r (vo_dac _ H) Er) as [Epal Epos].
    set (h1 := h <| vd ::= fun d => d <| vga_dac := r |> |>).
    assert (E1 : vga_port_out_handler DAC_DATA_PORT b h = Ret (0, h1)).
    { change (vga_port_out_handler DAC_DATA_PORT b h) with ((h0 ← get; r0 ← lift (dac_out b (vga_dac (vd h0))); _ ← upd_vd (fun d => d <| vga_dac := r0 |>); mret 0) h).
      unfold mbind, M_bind, get, lift. by rewrite Er. }
    unfold mbind, M_bind. rewrite E1.
    assert (H1 : vga_ok (vd h1)) by (destruct H; by split).
    pose proof (do_wr _ (vo_dac _ H)) as Hi. pose proof (do_wr_sub _ (vo_dac _ H)) as Hs.
    unfold fits in Hi. change (2 ^ 8) with 256 in Hi.
    assert (Hlen : length (dac_palette (vga_dac (vd h))) = 768%nat) by apply (do_length _ (vo_dac _ H)).
    destruct bs as [|b' bs].
    { exists h1. split; [done|]. split; [done|]. intros k Hk. change (vga_dac (vd h1)) with r. rewrite Epal.
      rewrite nthZ_setZ by (unfold wr_pos in *; lia). unfold nthZ at 2.
      destruct (Z.eqb_spec k (wr_pos (vga_dac (vd h)))) as [->|].
      - rewrite Z.sub_diag. done.
      - destruct (Z.leb_spec 0 (k - wr_pos (vga_dac (vd h)))); [|done].
        rewrite lookup_ge_None_2; [done|]. cbn. lia. }
    destruct (IH h1 H1 Hbs) as (h' & E' & H' & Hk').
    { change (vga_dac (vd h1)) with r. cbn [length] in *. rewrite Epos by lia. lia. }
    exists h'. split; [exact E'|]. split; [done|]. intros k Hk. rewrite Hk' by done.
    change (vga_dac (vd h1)) with r. cbn [length] in Hp. rewrite Epos, Epal by lia.
    rewrite nthZ_setZ by (unfold wr_pos in *; lia).
    destruct (Z.eqb_spec k (wr_pos (vga_dac (vd h)))) as [->|Hn].
    + unfold nthZ at 1. destruct (Z.leb_spec 0 (wr_pos (vga_dac (vd h)) - (wr_pos (vga_dac (vd h)) + 1))); [lia|].
      by rewrite Z.sub_diag.
    + unfold nthZ at 1 3. destruct (Z.leb_spec 0 (k - (wr_pos (vga_dac (vd h)) + 1))),
        (Z.leb_spec 0 (k - wr_pos (vga_dac (vd h)))); try lia; [|done].
      by replace (Z.to_nat (k - wr_pos (vga_dac (vd h)))) with (S (Z.to_nat (k - (wr_pos (vga_dac (vd h)) + 1)))) by lia.
Qed.

(** Reading a run of bytes. *)
Lemma dac_ins_run n : forall h,
  vga_ok (vd h) -> rd_pos (vga_dac (vd h)) + Z.of_nat n <= 768 ->
  exists l h', ins DAC_DATA_PORT n h = Ret (l, h') /\ length l = n /\
    forall k, 0 <= k < Z.of_nat n -> nthZ l k = nthZ (dac_palette (vga_dac (vd h))) (rd_pos (vga_dac (vd h)) + k).
Proof.
  induction n as [|n IH]; intros h H Hp; cbn [ins]; [exists [], h; split_and!; [done|done|lia]|].
  destruct (dac_in_ok _ (vo_dac _ H)) as (v & r & Er & Hv & Hr).
  destruct (dac_in_step v _ r (vo_dac _ H) Er) as (Ev & Epal & Epos).
  set (h1 := h <| vd ::= fun d => d <| vga_dac := r |> |>).
  assert (E1 : vga_port_in_handler DAC_DATA_PORT None h = Ret (Some v, h1)).
  { change (vga_port_in_handler DAC_DATA_PORT None h) with (('(v0, r0) ← lift (dac_in (vga_dac (vd h))); _ ← upd_vd (fun d => d <| vga_dac := r0 |>); mret (Some v0)) h).
    unfold mbind, M_bind, lift. by rewrite Er. }
  unfold mbind, M_bind. rewrite E1. cbn [filled].
  assert (H1 : vga_ok (vd h1)) by (destruct H; by split).
  assert (Hpos1 : (n = 0)%nat \/ rd_pos r = rd_pos (vga_dac (vd h)) + 1) by (destruct n; [by left|right; apply Epos; lia]).
  destruct Hpos1 as [->|Hpos1].
  { exists [v], h1. split; [done|]. split; [done|]. intros k Hk. replace k with 0 by lia. by rewrite Z.add_0_r, Ev. }
  destruct (IH h1 H1) as (l & h' & E' & Hl & Hk'); [change (vga_dac (vd h1)) with r; lia|].
  unfold mret, M_ret. rewrite E'. exists (v :: l), h'. split; [done|]. split; [by rewrite <- Hl|]. intros k Hk.
  destruct (decide (k = 0)) as [->|]; [by rewrite Z.add_0_r, Ev|].
  specialize (Hk' (k - 1) ltac:(lia)). change (vga_dac (vd h1)) with r in Hk'. rewrite Epal, Hpos1 in Hk'.
  replace (rd_pos (vga_dac (vd h)) + k) with (rd_pos (vga_dac (vd h)) + 1 + (k - 1)) by lia. rewrite <- Hk'.
  unfold nthZ. destruct (Z.leb_spec 0 k), (Z.leb_spec 0 (k - 1)); try lia.
  by replace (Z.to_nat k) with (S (Z.to_nat (k - 1))) by lia.
Qed.

(** *** The attribute controller *)

Lemma atc_index_bit i : fits 5 i -> has i 0x20 = false.
Proof.
  intros H. unfold has, z2b. apply negb_false_iff, Z.eqb_eq. apply Z.bits_inj'. intros n Hn.
  rewrite Z.land_spec, Z.bits_0. destruct (decide (n = 5)) as [->|].
  - by rewrite (testbit_fits 5 i 5) by done.
  - replace (Z.testbit 0x20 n) with false; [apply andb_false_r|].
    symmetry. change 0x20 with (2 ^ 5). apply Z.pow2_bits_false. done.
Qed.

Lemma atc_select r i :
  has (atc_index r) 0x20 = false ->
  atc_out i (r <| atc_flipflop := 0 |>) = r <| atc_index := Z.land i ATC_IDX_MASK |> <| atc_flipflop := 1 |>.
Proof. intros H. unfold atc_out. change (atc_index (r <| atc_flipflop := 0 |>)) with (atc_index r). by rewrite H. Qed.

Lemma atc_store_fetch r v :
  length (atc_palette r) = 16%nat -> forall i, 0 <= i < 21 ->
  atc_in (atc_out v (r <| atc_index := Z.land i ATC_IDX_MASK |> <| atc_flipflop := 1 |>)) =
  Ret (if i <? 16 then Z.land v 0x3f else v).
Proof.
  intros Hl. destruct r as [ff ix pal m oc cpe hpp cs c45 c67]. cbn in Hl.
  do 16 (destruct pal as [|? pal]; [done|]). destruct pal; [|done].
  each_index.
Qed.

Lemma atc_readback h v :
  length (atc_palette (vga_atc (vd h))) = 16%nat -> has (atc_index (vga_atc (vd h))) 0x20 = false ->
  forall i, 0 <= i < 21 -> atc_write_read i v h = Ret (Some (if i <? 16 then Z.land v 0x3f else v)).
Proof.
  intros Hl Hx i Hi. set (r := vga_atc (vd h)) in *.
  transitivity (match atc_in (atc_out v (atc_out i (r <| atc_flipflop := 0 |>))) with
                | Ret b => Ret (Some b) | Stop e => Stop e end).
  - unfold atc_write_read, mbind, M_bind.
    match goal with |- context [vga_port_in_handler GEN_INPUT_STS1_COLOR_PORT None h] =>
      let x := eval vm_compute in (Z.lor GEN_IS1_VR GEN_IS1_DE) in
      change (vga_port_in_handler GEN_INPUT_STS1_COLOR_PORT None h) with
        (@Ret (option Z * vga_hw) (Some x, h <| vd ::= fun d => d <| vga_atc ::= fun r => r <| atc_flipflop := 0 |> |>
           <| vga_sts1 := x |> |>)) end.
    cbv beta iota.
    match goal with |- context [outs _ ?s] =>
      change (outs [(ATC_IDX_PORT, i); (ATC_IDX_PORT, v)] s) with
        (@Ret (unit * vga_hw) (tt, s <| vd ::= fun d => d <| vga_atc ::= atc_out i |> |>
           <| vd ::= fun d => d <| vga_atc ::= atc_out v |> |>)) end.
    cbv beta iota.
    match goal with |- context [vga_port_in_handler ATC_DATA_PORT None ?s] =>
      change (vga_port_in_handler ATC_DATA_PORT None s) with
        ((v0 ← lift (atc_in (vga_atc (vd s))); mret (Some v0)) s) end.
    unfold mbind, M_bind, lift.
    match goal with |- context [atc_in (vga_atc (vd ?s))] =>
      change (vga_atc (vd s)) with (atc_out v (atc_out i (r <| atc_flipflop := 0 |>))) end.
    by destruct (atc_in _).
  - rewrite atc_select by done. by rewrite atc_store_fetch.
Qed.

(** *** Clearing and painting *)

Lemma check_size_reset h : vga_in_reset (vd h) = true -> vga_check_size true h = Ret (tt, h).
Proof. intros H. unfold vga_check_size, modify. by rewrite H. Qed.

Lemma clear_run h :
  image_fits (gctx h) ->
  exists l, clear_pixels (s32 (gi_width (gctx h) * gi_height (gctx h))) h =
    Ret (tt, h <| gctx ::= fun c => c <| gi_data := Some l |> |>) /\
    forall j, 0 <= j < gi_width (gctx h) * gi_height (gctx h) -> nthZ l j = Some 0.
Proof.
  intros (l & Hl & Hs & Hlt & _). set (n := gi_width (gctx h) * gi_height (gctx h)) in *.
  assert (En : s32 n = n).
  { unfold s32, swrap. change (2 ^ (32 - 1)) with 2147483648. change (2 ^ 31) with 2147483648 in Hlt.
    rewrite wrap_small by (unfold fits; change (2 ^ 32) with 4294967296; lia). lia. }
  rewrite En. unfold clear_pixels. destruct (Z.eqb_spec n 0) as [->|].
  - exists l. split; [|lia]. destruct h as [d [? ? ? ? ?]]. cbn in Hl. subst. done.
  - rewrite Hl. destruct (Z.leb_spec 0 n), (Z.leb_spec n (Z.of_nat (length l))); try lia. cbn [andb].
    eexists. split; [reflexivity|]. intros j Hj. rewrite nthZ_lookup by lia.
    rewrite lookup_app_l by (rewrite length_replicate; lia). apply lookup_replicate. lia.
Qed.

(** A whole frame. *)
Lemma render_run d c gp :
  vga_ok d -> image_fits c -> gc_width d = crtc_width d -> gc_height d = crtc_height d ->
  gi_width c = crtc_width d -> gi_height c = crtc_height d ->
  (forall x y, 0 <= x < crtc_width d -> 0 <= y < crtc_height d -> exists v, reads d (gp x y) v) ->
  exists l, (h ← get; render_rows gp (Z.to_nat (gc_height (vd h))) 0) (mkHw d c) =
    Ret (tt, mkHw d (c <| gi_data := Some l |>)) /\
    forall x y, 0 <= x < crtc_width d -> 0 <= y < crtc_height d ->
      nthZ l (y * crtc_width d + x) = Some (shown d gp x y).
Proof.
  intros H (l & Hl & Hs & _) Hw Hh Ew Eh Hgp. pose proof (crtc_width_range d H). pose proof (crtc_height_range d H).
  rewrite Ew, Eh in Hs. unfold mbind, M_bind, get. cbn [vd]. rewrite Hh.
  destruct (render_rows_run d gp (crtc_width d) (crtc_height d) Hgp Hw (Z.to_nat (crtc_height d)) 0 c l Hl)
    as (l' & E & _ & Hp & _); [lia..|].
  exists l'. split; [exact E|]. intros x y Hx Hy. apply Hp; lia.
Qed.

(** ** Properties *)

(** C21. The type invariant of the VGA: whatever the guest writes to the ports and
    to the memory window, and whenever a frame is rendered, every register of
    the device [vga_init] made stays within its width and every table keeps
    its size; so no port access leaves a table.  (One port gives nothing to
    read; the caller's byte is kept.) *)
Theorem vga_ports_typed host d c h :
  vga_init host false = Ret (Some d) -> rtc vga_step (mkHw d c) h ->
  vga_ok (vd h) /\
  (forall port val, fits 8 val -> returns (vga_port_out_handler port val h)) /\
  (forall port old, fits 8 old -> exists v h', vga_port_in_handler port (Some old) h = Ret (Some v, h') /\ fits 8 v).
Proof.
  intros Hi Hr. assert (H : vga_ok (vd h)).
  { assert (H0 : vga_ok (vd (mkHw d c))) by (by eapply vga_init_ok). clear Hi. revert H0.
    induction Hr as [|h1 h2 h3 H1 _ IH]; [done|]. intros H0. apply IH. by eapply vga_step_ok. }
  split; [done|]. split.
  - intros port val Hv. destruct (port_out_run port val h Hv H) as (e & h' & E & _). by eexists.
  - intros port old Ho. destruct (port_in_run port old h Ho H) as (v & h' & E & Hv & _). eauto.
Qed.

(** Round trip of the registers: every register of the CRT controller, the
    sequencer, the graphics and the attribute controller reads back what was
    last written to it (a colour index of the attribute controller 6 bits of
    it). *)
Theorem vga_register_readback h v :
  vga_ok (vd h) -> fits 8 v ->
  (forall i, 0 <= i < 25 -> write_read CRTC_IDX_COLOR_PORT CRTC_DATA_COLOR_PORT i v h = Ret (Some v)) /\
  (forall i, 0 <= i < 5 -> write_read SEQ_IDX_PORT SEQ_DATA_PORT i v h = Ret (Some v)) /\
  (forall i, 0 <= i < 9 -> write_read GC_IDX_PORT GC_DATA_PORT i v h = Ret (Some v)) /\
  (forall i, 0 <= i < 21 -> atc_write_read i v h = Ret (Some (if i <? 16 then Z.land v 0x3f else v))).
Proof.
  intros H _. split; [apply crtc_readback|]. split; [apply seq_readback|]. split; [apply gc_readback|].
  pose proof (ao_length _ (vo_atc _ H)) as Hl. pose proof (ao_index _ (vo_atc _ H)) as Hi.
  apply atc_readback; [done|]. by apply atc_index_bit.
Qed.

(** Round trip of the palette: the colour components written one after the
    other from an entry on are read back in order from that entry. *)
Theorem vga_dac_roundtrip h i bs :
  vga_ok (vd h) -> 0 <= i < 256 -> Forall (fits 8) bs -> 3 * i + Z.of_nat (length bs) <= 768 ->
  exists h', (_ ← outs ((DAC_IDX_WR_PORT, i) :: map (pair DAC_DATA_PORT) bs);
              _ ← outs [(DAC_IDX_RD_PORT, i)]; ins DAC_DATA_PORT (length bs)) h = Ret (bs, h').
Proof.
  intros H Hi Hb Hp.
  set (h1 := h <| vd ::= fun d => d <| vga_dac ::= fun r => r <| dac_wr_index := i |> <| dac_wr_subindex := 0 |> |> |>).
  assert (H1 : vga_ok (vd h1)) by (destruct H; split; cbn; try done; by apply dac_wr_ok).
  destruct (dac_outs_run bs h1 H1 Hb) as (h2 & E2 & H2 & Hk2).
  { change (wr_pos (vga_dac (vd h1))) with (3 * i + 0). lia. }
  change (wr_pos (vga_dac (vd h1))) with (3 * i + 0) in Hk2.
  set (h3 := h2 <| vd ::= fun d => d <| vga_dac ::= fun r => r <| dac_rd_index := i |> <| dac_rd_subindex := 0 |> |> |>).
  assert (H3 : vga_ok (vd h3)) by (destruct H2; split; cbn; try done; by apply dac_rd_ok).
  destruct (dac_ins_run (length bs) h3 H3) as (l & h4 & E4 & Hl & Hk4).
  { change (rd_pos (vga_dac (vd h3))) with (3 * i + 0). lia. }
  exists h4. unfold mbind, M_bind.
  change (outs ((DAC_IDX_WR_PORT, i) :: map (pair DAC_DATA_PORT) bs) h) with (outs (map (pair DAC_DATA_PORT) bs) h1).
  rewrite E2. change (outs [(DAC_IDX_RD_PORT, i)] h2) with (@Ret (unit * vga_hw) (tt, h3)). cbv beta iota.
  rewrite E4. do 2 f_equal. apply (list_eq_same_length _ _ (length bs)); [done|done|].
  intros k x y Hk Hx Hy. specialize (Hk4 (Z.of_nat k) ltac:(lia)).
  change (rd_pos (vga_dac (vd h3))) with (3 * i + 0) in Hk4.
  change (dac_palette (vga_dac (vd h3))) with (dac_palette (vga_dac (vd h2))) in Hk4.
  rewrite Hk2 in Hk4 by lia. replace (3 * i + 0 + Z.of_nat k - (3 * i + 0)) with (Z.of_nat k) in Hk4 by lia.
  rewrite !nthZ_lookup, !Nat2Z.id in Hk4 by lia. rewrite Hx, Hy in Hk4. congruence.
Qed.

(** C22. The planar memory: a byte written through a window of 64k or 32k (not the window of
    128k, in which the planes overlap), with a rotation count of at most 8 (the shifts allow
    no more), returns; it changes exactly the byte at its offset in the planes of the map mask,
    with odd/even addressing only the odd or only the even ones of them, to what the write
    mode makes of it and of the latches.  Reading the address then fills the
    latches, and gives in read mode 0, with a plane selected that there is, the byte of
    that plane, and in read mode 1, which the program refuses, all ones. *)
Theorem vga_planar_write h addr val o :
  vga_ok (vd h) -> fits 8 val ->
  let g := vga_gc (vd h) in
  gc_misc_mm g <> 0 -> gc_rotate g <= 8 -> (gc_mode_rm g = 0 -> gc_read_map_sel g < 4) ->
  mem_offset (gc_misc_mm g) addr = Some o ->
  exists f h1 h2, plane_value g val = Ret f /\
    vga_mem_wr_handler addr val h = Ret (tt, h1) /\
    (forall k a, 0 <= k < 4 -> 0 <= a < PLANE ->
       ram_byte (vd h1) (a + k * PLANE) =
       if (a =? cell g o) && (Z.testbit (seq_map_mask (vga_seq (vd h))) k && lane g o k) then f k (latch g k)
       else ram_byte (vd h) (a + k * PLANE)) /\
    vga_mem_rd_handler addr h1 =
      Ret (if gc_mode_rm g =? 0 then ram_byte (vd h1) (cell g o + read_plane g o * PLANE) else 0xFFFFFFFF, h2) /\
    (forall k, 0 <= k < 4 -> latch (vga_gc (vd h2)) k = ram_byte (vd h1) (o + k * PLANE)).
Proof.
  intros H Hv g Hmm Hrot Hsel Ho.
  assert (Hnn : 0 <= gc_rotate g /\ 0 <= gc_read_map_sel g).
  { pose proof (go_bytes _ (vo_gc _ H)) as Hb. unfold gc_bytes in Hb. list_facts. split; by apply (fits_nonneg 8). }
  assert (Hr : 0 <= o < PLANE).
  { pose proof (mem_offset_range _ _ _ (go_mm _ (vo_gc _ H)) Ho) as Hr. destruct (Z.eqb_spec (gc_misc_mm (vga_gc (vd h))) 0); [done|exact Hr]. }
  destruct (plane_value_ret g val) as [f Ef]; [by split; [apply Hnn|]|].
  destruct (mem_wr_run addr val o f h H Hv Ho Hr Ef) as (h1 & E1 & H1 & G1 & _ & Hk1).
  destruct (mem_rd_run addr o h1 H1) as (h2 & E2 & _ & _ & _ & _ & Hl); rewrite ?G1; try done.
  { intros Hm. split; [apply Hnn|by apply Hsel]. }
  rewrite G1 in E2. by exists f, h1, h2.
Qed.

(** C23. Rendering: given an image large enough for the programmed size, and in a graphics mode
    a programmed width and height whose product is at most the 8 * 64k pixels of a plane, a
    frame is rendered without leaving the memory of the VGA, its tables or the image; the
    image then shows at every (x, y) of the programmed size the pixel of the mode.  In reset
    the image is cleared.  In text mode no condition on the registers is needed; in a
    graphics mode it is: the registers reach to 2304 by 1024 pixels, for which
    [vga_get_pixel] reads behind the memory. *)
Theorem vga_render_paints h :
  vga_ok (vd h) -> image_fits (gctx h) ->
  (graphics_mode (vd h) = true -> crtc_width (vd h) * crtc_height (vd h) <= 8 * PLANE) ->
  exists h' l, vga_render true h = Ret (tt, h') /\ vga_ok (vd h') /\ gi_data (gctx h') = Some l /\
    if vga_in_reset (vd h)
    then forall j, 0 <= j < gi_width (gctx h) * gi_height (gctx h) -> nthZ l j = Some 0
    else gi_width (gctx h') = crtc_width (vd h) /\ gi_height (gctx h') = crtc_height (vd h) /\
      forall x y, 0 <= x < crtc_width (vd h) -> 0 <= y < crtc_height (vd h) ->
        nthZ l (y * crtc_width (vd h) + x) =
        Some (shown (vd h') (if graphics_mode (vd h) then vga_get_pixel else vga_get_text_pixel) x y).
Proof.
  intros H Hf Hg. unfold vga_render, mbind, M_bind. destruct (vga_in_reset (vd h)) eqn:Hr.
  - destruct (clear_run h Hf) as (l & E & Hl). rewrite (check_size_reset h Hr). unfold get at 1. rewrite Hr, E.
    eexists. exists l. split; [reflexivity|]. by split_and!.
  - destruct (check_size_run h H Hf Hr) as (d' & c' & E & Ed & Hd' & Hf' & Hw & Hh). rewrite E. unfold get at 1. cbn [vd gctx].
    assert (Er : vga_in_reset d' = false) by by rewrite Ed. assert (Eg : graphics_mode d' = graphics_mode (vd h)) by by rewrite Ed.
    assert (Ew : crtc_width d' = crtc_width (vd h)) by by rewrite Ed.
    assert (Eh : crtc_height d' = crtc_height (vd h)) by by rewrite Ed.
    assert (Egw : gc_width d' = crtc_width d') by by rewrite Ed. assert (Egh : gc_height d' = crtc_height d') by by rewrite Ed.
    rewrite Er, Eg. rewrite <- Ew, <- Eh in *.
    destruct (graphics_mode (vd h)) eqn:Hgm.
    + destruct (render_run d' c' vga_get_pixel Hd' Hf' Egw Egh Hw Hh) as (l & El & Hl).
      { intros x y Hx Hy. apply get_pixel_ok; rewrite ?Egw, ?Egh; auto. }
      exists (mkHw d' (c' <| gi_data := Some l |>)), l. split; [exact El|]. by split_and!.
    + destruct (render_run d' c' vga_get_text_pixel Hd' Hf' Egw Egh Hw Hh) as (l & El & Hl).
      { intros x y Hx Hy. by apply get_text_pixel_ok. }
      exists (mkHw d' (c' <| gi_data := Some l |>)), l. split; [exact El|]. by split_and!.
Qed.

(** ** The properties at concrete inputs *)

Module VgaDemo.

Definition host : vga_host := mkVgaHost true (fun _ => 0) 0 true.
Definition d0 : vga_vdev := Eval vm_compute in
  match vga_init host false with Ret (Some d) => d | _ => zero_vdev end.

Lemma d0_init : vga_init host false = Ret (Some d0).
Proof. vm_compute. reflexivity. Defined.

Lemma vdev_ok : vga_ok d0.
Proof. exact (vga_init_ok host d0 d0_init). Defined.

(** A context whose image has no pixels yet. *)
Definition c0 : gfx_ctx := mkGfx false 0 0 (Some []) false.
Definition h0 : vga_hw := mkHw d0 c0.

(** The device in the 64k window, with all planes mapped and a full bit mask. *)
Definition planar : vga_hw := mkHw
  (d0 <| vga_gc ::= fun r => r <| gc_misc_mm := 1 |> <| gc_bit_mask := 0xff |> <| gc_read_map_sel := 2 |> |>
      <| vga_seq ::= fun r => r <| seq_map_mask := 0x6 |> |>) c0.

Lemma planar_ok : vga_ok (vd planar).
Proof.
  destruct vdev_ok. split; try done.
  - destruct vo_seq0. split; try done. list_facts; try done.
  - destruct vo_gc0. split; try done. unfold gc_bytes in *. list_facts; done.
Defined.

(** A text screen of one character, 8 pixels wide and one line high: the letter
    with code 65 in colour 15, whose first font line is 0x18. *)
Definition text : vga_hw := mkHw
  (d0 <| vga_ram := Some (list_to_map [(0, 65); (PLANE, 0x0f); (65 * 32 + 2 * PLANE, 0x18)]) |>
      <| vga_seq ::= fun r => r <| seq_reset := 3 |> <| seq_clock_mode := 1 |> <| seq_cm_dots := 8 |> |>
      <| vga_crtc ::= fun r => r <| crtc_mode_ctrl := 0x80 |> |>
      <| vga_atc ::= fun r => r <| atc_palette ::= fun l => <[15%nat := 15]> l |> |>) c0.

Lemma text_ok : vga_ok (vd text).
Proof.
  destruct vdev_ok. split; try done.
  - repeat apply map_Forall_insert_2; done.
  - destruct vo_seq0. split; try done; [list_facts; done|by right; left].
  - destruct vo_crtc0. split; try done. unfold crtc_bytes in *. list_facts; done.
  - destruct vo_atc0. split; try done. cbn. list_facts; done.
Defined.
End VgaDemo.

Lemma vga_ports_typed_witness :
  exists h, rtc vga_step VgaDemo.h0 h /\ vga_ok (vd h) /\ crtc_index (vga_crtc (vd h)) = 9.
Proof.
  set (h := VgaDemo.h0 <| vd ::= fun d => d <| vga_crtc ::= fun r => r <| crtc_index := 9 |> |> |>).
  assert (Hs : rtc vga_step VgaDemo.h0 h).
  { apply rtc_once, (vs_out _ CRTC_IDX_COLOR_PORT 9 0); [done|reflexivity]. }
  exists h. split; [exact Hs|]. split; [|reflexivity].
  exact (proj1 (vga_ports_typed VgaDemo.host VgaDemo.d0 VgaDemo.c0 h VgaDemo.d0_init Hs)).
Defined.

Lemma vga_register_readback_witness :
  write_read CRTC_IDX_COLOR_PORT CRTC_DATA_COLOR_PORT CRTC_OFFSET 0x50 VgaDemo.h0 = Ret (Some 0x50) /\
  atc_write_read 3 0xff VgaDemo.h0 = Ret (Some 0x3f).
Proof.
  destruct (vga_register_readback VgaDemo.h0 0x50 VgaDemo.vdev_ok ltac:(done)) as (H & _).
  destruct (vga_register_readback VgaDemo.h0 0xff VgaDemo.vdev_ok ltac:(done)) as (_ & _ & _ & H').
  split; [by apply (H CRTC_OFFSET)|by apply (H' 3)].
Defined.

Lemma vga_dac_roundtrip_witness :
  exists h', (_ ← outs ((DAC_IDX_WR_PORT, 7) :: map (pair DAC_DATA_PORT) [1; 2; 3; 4]);
              _ ← outs [(DAC_IDX_RD_PORT, 7)]; ins DAC_DATA_PORT 4) VgaDemo.h0 = Ret ([1; 2; 3; 4], h').
Proof.
  apply (vga_dac_roundtrip VgaDemo.h0 7 [1; 2; 3; 4] VgaDemo.vdev_ok); [done| |done].
  repeat (apply Forall_cons_2; [done|]). by apply Forall_nil_2.
Defined.

Lemma vga_planar_write_witness :
  exists h1 h2, vga_mem_wr_handler 0xa0010 0x5a VgaDemo.planar = Ret (tt, h1) /\
    vga_mem_rd_handler 0xa0010 h1 = Ret (0x5a, h2) /\
    ram_byte (vd h1) (16 + 1 * PLANE) = 0x5a /\ ram_byte (vd h1) (16 + 0 * PLANE) = 0.
Proof.
  destruct (vga_planar_write VgaDemo.planar 0xa0010 0x5a 16 VgaDemo.planar_ok) as (f & h1 & h2 & Ef & E1 & Hb & E2 & _);
    try done.
  exists h1, h2. assert (Eff : f = mode0_plane 0 0xff 0 0 0x5a) by (vm_compute in Ef; injection Ef as <-; reflexivity).
  split; [exact E1|]. split.
  - rewrite E2. do 2 f_equal. change (16 + gc_read_map_sel _ * PLANE) with (16 + 2 * PLANE).
    rewrite Hb by done. by rewrite Eff.
  - rewrite !Hb by done. by rewrite Eff.
Defined.

(** The line of the letter appears in the image. *)
Lemma vga_render_paints_witness :
  exists h' l, vga_render true VgaDemo.text = Ret (tt, h') /\ gi_data (gctx h') = Some l /\
    map (fun x => nthZ l (0 * 8 + x)) (seqZ 0 8) =
    map Some [0; 0; 0; 0xa8a8ff; 0xa8a8ff; 0; 0; 0].
Proof.
  destruct (vga_render_paints VgaDemo.text VgaDemo.text_ok) as (h' & l & E & _ & Hl & Hp).
  - exists []. split_and!; try done.
  - done.
  - exists h', l. split; [exact E|]. split; [exact Hl|]. cbn in Hp.
    revert E. vm_compute. intros E. injection E as <-. cbn in Hl. injection Hl as <-. reflexivity.
Defined.
