(* ===== verification/GpuBar.v ===== *)
(** * The BARs of the virtio GPU, with its VGA part

    [src/devicemodel/hw/pci/virtio/virtio_gpu.c]: the access handlers of the
    device's BARs, which lead to the EDID, the VGA ports, the Bochs registers
    and the virtio configuration structures; the thread that renders the VGA
    screen; and the whole device, a [struct virtio_gpu] with its [struct vga].

    The thread shares [struct vga] with the handlers without a lock.  It goes
    from one [vga_pc] to the next in steps of its own, a test, a change of size or a single
    pixel each, and the accesses of the guest fall anywhere between them. *)
From S2P Require Import Prelude Shmem VirtQueue VirtioCore Pixman Display Vga VgaSpec VirtioGpu GpuInv GpuCtrl.

(** ** The map of BAR 2 *)

Definition VIRTIO_GPU_VGA_FB_SIZE := 16 * 1024 * 1024.
Definition VIRTIO_GPU_VGA_IOPORT_OFFSET := 0x400.
Definition VIRTIO_GPU_VGA_IOPORT_SIZE := 0x3e0 - 0x3c0.
Definition VIRTIO_GPU_VGA_VBE_OFFSET := 0x500.
Definition VIRTIO_GPU_VGA_VBE_SIZE := 0xb * 2.
Definition VIRTIO_GPU_CAP_COMMON_OFFSET := 0x1000.
Definition VIRTIO_GPU_CAP_COMMON_SIZE := 0x800.
Definition VIRTIO_GPU_CAP_ISR_OFFSET := 0x1800.
Definition VIRTIO_GPU_CAP_ISR_SIZE := 0x800.
Definition VIRTIO_CAP_DEVICE_OFFSET := 0x2000.
Definition VIRTIO_CAP_DEVICE_SIZE := 0x1000.
Definition VIRTIO_CAP_NOTIFY_OFFSET := 0x3000.
Definition VIRTIO_CAP_NOTIFY_SIZE := 0x1000.

(** ** The device *)

(** [struct virtio_gpu] with its [vga]; the flag [vga.enable] is [vga_enable] of
    the first part, and the copy in the second is not used. *)
Record gpu_dev := mkDev { dv_gpu : virtio_gpu; dv_vga : vga }.
#[export] Instance gpu_dev_eta : Settable gpu_dev := fun d => mkDev (dv_gpu d) (dv_vga d).

Definition B (A : Type) := M gpu_dev A.

Definition on_gpu {A} (m : G A) : B A := fun d =>
  match m (dv_gpu d) with Ret (a, g) => Ret (a, d <| dv_gpu := g |>) | Stop e => Stop e end.

(** [&gpu->vga] *)
Definition the_vga (d : gpu_dev) : vga := dv_vga d <| enable := vga_enable (dv_gpu d) |>.
Definition set_vga (v : vga) (d : gpu_dev) : gpu_dev :=
  mkDev (dv_gpu d <| vga_enable := enable v |>) (v <| enable := enable (dv_vga d) |>).
Definition on_vga {A} (m : M vga A) : B A := fun d =>
  match m (the_vga d) with Ret (a, v) => Ret (a, set_vga v d) | Stop e => Stop e end.

(** ** Access to the BARs *)

Definition in_window (offset base size : Z) : bool := (base <=? offset) && (offset <? base + size).

(** [offset] is checked against the size of the EDID, one byte too far. *)
Definition virtio_gpu_edid_read (offset size : Z) (g : virtio_gpu) : outcome Z :=
  switch size
    [ ([1; 2; 4; 8],
       if (0 <=? offset) && (offset + size <=? VIRTIO_GPU_EDID_SIZE)
       then Ret (le_decode (take (Z.to_nat size) (drop (Z.to_nat offset) (gpu_edid g))))
       else Stop OobAccess) ]
    (Ret 0).

(** Starting the thread again, under [vga_thread_mtx]. *)
Definition vga_thread_create : B unit :=
  on_gpu (modify (fun g => g <| vga_running := true |>)).

Definition virtio_gpu_write (baridx offset size value : Z) : B unit :=
  if baridx =? 0 then mret tt
  else if baridx =? 2 then
    if (0 <=? offset) && (offset <=? VIRTIO_GPU_EDID_SIZE) then mret tt
    else if in_window offset VIRTIO_GPU_VGA_IOPORT_OFFSET VIRTIO_GPU_VGA_IOPORT_SIZE then
      on_vga (vga_ioport_write (offset - VIRTIO_GPU_VGA_IOPORT_OFFSET) size value)
    else if in_window offset VIRTIO_GPU_VGA_VBE_OFFSET VIRTIO_GPU_VGA_VBE_SIZE then
      let offset := offset - VIRTIO_GPU_VGA_VBE_OFFSET in
      _ ← on_vga (vga_vbe_write offset size value);
      when ((offset =? VBE_DISPI_INDEX_ENABLE) && has value VBE_DISPI_ENABLED) vga_thread_create
    else if in_window offset VIRTIO_GPU_CAP_COMMON_OFFSET VIRTIO_GPU_CAP_COMMON_SIZE then
      on_gpu (virtio_common_cfg_write (offset - VIRTIO_GPU_CAP_COMMON_OFFSET) size value)
    else if in_window offset VIRTIO_CAP_DEVICE_OFFSET VIRTIO_CAP_DEVICE_SIZE then
      on_gpu (virtio_device_cfg_write (offset - VIRTIO_CAP_DEVICE_OFFSET) size value)
    else if in_window offset VIRTIO_CAP_NOTIFY_OFFSET VIRTIO_CAP_NOTIFY_SIZE then
      on_gpu (virtio_notify_cfg_write (offset - VIRTIO_CAP_NOTIFY_OFFSET))
    else on_gpu virtio_pci_write
  else on_gpu virtio_pci_write.

(** What a read that changes nothing answers. *)
Definition ask {S A} (f : S -> outcome A) : M S A := s ← get; lift (f s).

Definition virtio_gpu_read (baridx offset size : Z) : B Z :=
  if baridx =? 0 then mret 0
  else if baridx =? 2 then
    if (0 <=? offset) && (offset <=? VIRTIO_GPU_EDID_SIZE) then
      on_gpu (ask (virtio_gpu_edid_read offset size))
    else if in_window offset VIRTIO_GPU_VGA_IOPORT_OFFSET VIRTIO_GPU_VGA_IOPORT_SIZE then
      on_vga (vga_ioport_read (offset - VIRTIO_GPU_VGA_IOPORT_OFFSET) size)
    else if in_window offset VIRTIO_GPU_VGA_VBE_OFFSET VIRTIO_GPU_VGA_VBE_SIZE then
      on_vga (ask (vga_vbe_read (offset - VIRTIO_GPU_VGA_VBE_OFFSET) size))
    else if in_window offset VIRTIO_GPU_CAP_COMMON_OFFSET VIRTIO_GPU_CAP_COMMON_SIZE then
      on_gpu (ask (fun g => virtio_common_cfg_read g (offset - VIRTIO_GPU_CAP_COMMON_OFFSET) size))
    else if in_window offset VIRTIO_GPU_CAP_ISR_OFFSET VIRTIO_GPU_CAP_ISR_SIZE then
      on_gpu virtio_isr_cfg_read
    else if in_window offset VIRTIO_CAP_DEVICE_OFFSET VIRTIO_CAP_DEVICE_SIZE then
      on_gpu (ask (fun g => virtio_device_cfg_read g (offset - VIRTIO_CAP_DEVICE_OFFSET) size))
    else mret (virtio_pci_read size)
  else mret (virtio_pci_read size).

(** ** The thread of the VGA screen *)

Definition vga_thread_enter : B unit :=
  on_vga (modify (fun v => v <| surf_width := 0 |> <| surf_stride := 0 |>)).

(** One round of the loop of [virtio_gpu_vga_render]; [false] when it is left. *)
Definition vga_render_round (alloc : bool) : M vga bool :=
  v ← get;
  if negb (enable v) then mret false
  else if gi_vgamode (gc v) && bool_decide (is_Some (dev v)) then
    _ ← on_dev (vga_render alloc); mret false
  else
    _ ← when (negb (gi_width (gc v) =? vbe v VBE_XRES) || negb (gi_height (gc v) =? vbe v VBE_YRES))
          (modify (fun v => v <| gc ::= gc_resize alloc (vbe v VBE_XRES) (vbe v VBE_YRES) |>));
    mret true.

(** The round, and the end of the thread, when nothing comes in between. *)
Definition virtio_gpu_vga_render (alloc : bool) : B unit :=
  more ← on_vga (vga_render_round alloc);
  when (negb more) (on_gpu (modify (fun g => g <| vga_running := false |>))).

(** Where the thread is: at its start; at the test of the loop; at the test of the mode; in
    [vga_check_size]; at the test for the reset; at the choice of what to draw; at a pixel; at the comparison of
    the sizes; at its end. *)
Inductive vga_pc :=
  | PcEnter | PcLoop | PcMode | PcSize | PcReset | PcKind | PcPixel (graphics : bool) (y x : Z) | PcCompare | PcEnd.

(** A pixel of [vga_render_graphics] or [vga_render_text]; the bounds are read again each time. *)
Definition draw_pixel (graphics : bool) (y x : Z) : V vga_pc :=
  h ← get;
  if gc_height (vd h) <=? y then mret PcEnd
  else if gc_width (vd h) <=? x then mret (PcPixel graphics (y + 1) 0)
  else
    v ← (if graphics then vga_get_pixel x y else vga_get_text_pixel x y);
    _ ← put_pixel (y * gc_width (vd h) + x) v;
    mret (PcPixel graphics y (x + 1)).

(** One step of the thread, and where it is then, [None] when it has ended. *)
Definition vga_thread (alloc : bool) (pc : vga_pc) : B (option vga_pc) :=
  match pc with
  | PcEnter => _ ← vga_thread_enter; mret (Some PcLoop)
  | PcLoop => v ← on_vga get; mret (Some (if enable v then PcMode else PcEnd))
  | PcMode => v ← on_vga get;
              mret (Some (if gi_vgamode (gc v) && bool_decide (is_Some (dev v)) then PcSize else PcCompare))
  | PcSize => _ ← on_vga (on_dev (vga_check_size alloc)); mret (Some PcReset)
  | PcReset => reset ← on_vga (on_dev (h ← get;
                 if vga_in_reset (vd h) then
                   _ ← clear_pixels (s32 (gi_width (gctx h) * gi_height (gctx h))); mret true
                 else mret false));
               mret (Some (if (reset : bool) then PcEnd else PcKind))
  | PcKind => h ← on_vga (on_dev get); mret (Some (PcPixel (graphics_mode (vd h)) 0 0))
  | PcPixel graphics y x => pc ← on_vga (on_dev (draw_pixel graphics y x)); mret (Some pc)
  | PcCompare => v ← on_vga get;
      _ ← when (negb (gi_width (gc v) =? vbe v VBE_XRES) || negb (gi_height (gc v) =? vbe v VBE_YRES))
            (on_vga (modify (fun v => v <| gc ::= gc_resize alloc (vbe v VBE_XRES) (vbe v VBE_YRES) |>)));
      mret (Some PcLoop)
  | PcEnd => _ ← on_gpu (modify (fun g => g <| vga_running := false |>)); mret None
  end.

(** The surface shown: a pixman surface, whose pixel pointer the display does
    not look at. *)
Definition vga_surface (v : vga) : surface :=
  mkSurface SURFACE_PIXMAN PIXMAN_a8r8g8b8 0 0 (surf_width v) (surf_height v) 0 (surf_stride v) None 0 0 0.

(** The bottom half [vga_bh]; before the first change of size [surf] has no type
    yet, which the display treats the same. *)
Definition virtio_gpu_vga_bh : B unit :=
  d ← get;
  let c := gc (dv_vga d) in
  _ ← when (negb (surf_width (dv_vga d) =? gi_width c) || negb (surf_height (dv_vga d) =? gi_height c))
        (_ ← on_vga (modify (fun v => v <| surf_width := gi_width c |> <| surf_height := gi_height c |>
                                        <| surf_stride := u32 (gi_width c * 4) |>));
         d ← get;
         on_gpu (on_dpy (vdpy_surface_set (vdpy_handle (dv_gpu d)) 0 (Some (vga_surface (dv_vga d))))));
  d ← get;
  on_gpu (on_dpy (vdpy_surface_update (vdpy_handle (dv_gpu d)) 0 (Some (vga_surface (dv_vga d))))).

(** ** Initialisation *)

(** [vberegs] for a screen of the size [info] has. *)
Definition fresh_vberegs (inf : display_info) : list Z :=
  le_encode 2 VBE_DISPI_ID0 ++ le_encode 2 (di_width inf) ++ le_encode 2 (di_height inf) ++
  le_encode 2 32 ++ replicate 12 0 ++ le_encode 2 (Z.shiftr VIRTIO_GPU_VGA_FB_SIZE 16).

(** The VGA part of [virtio_gpu_init]: [fb] is what [ctx->fb_base] reads.  Here [ctx] is the address of a [struct
    shmem_info] behind a cast, which has no such field: [fb] may be anything, and the read itself is not modelled. *)
Definition init_vga (alloc : bool) (fb : option (list Z)) (inf : display_info) (dv : vga_vdev) : vga :=
  mkVga true (Some dv) (gc_init alloc (di_width inf) (di_height inf) fb) 0 0 0 (fresh_vberegs inf).

(** The whole of [virtio_gpu_init]: [ih_vga] is the answer of [vga_init]. *)
Definition gpu_dev_init (cnt : Z) (h : init_host) (vh : vga_host) (alloc : bool) (fb : option (list Z))
    (s : shmem_info) (pci : pci_vdev) (d : display) : outcome (Z * option gpu_dev) :=
  dv ← vga_init vh false;
  let h := mkHost (ih_device h) (ih_mutex h) (ih_vdpy h) (ih_scanouts h) (ih_list_limit h)
             (bool_decide (is_Some dv)) (ih_intr h) (ih_pio h) in
  '(rc, g) ← virtio_gpu_init cnt h s pci d;
  match g, dv with
  | Some g, Some dv =>
    '(inf, _) ← vdpy_get_display_info (vdpy_handle g) 0 None (vdpy g);
    match inf with
    | Some inf => Ret (rc, Some (mkDev g (init_vga alloc fb inf dv)))
    | None => Stop Uninit
    end
  | _, _ => Ret (rc, None)
  end.

(** ** The invariant *)

Record dev_ok `{Known} (env : gpu_env) (d : gpu_dev) : Prop := {
  do_gpu : gpu_inv env (dv_gpu d);
  do_vga : exists dv, dev (dv_vga d) = Some dv /\ vga_ok dv;
  do_vbe : length (vberegs (dv_vga d)) = 22%nat;
  do_vbe_bytes : bytes_ok (vberegs (dv_vga d))
}.

(** The part the VGA code owes. *)
Record vga_part_ok (v : vga) : Prop := {
  vp_dev : exists dv, dev v = Some dv /\ vga_ok dv;
  vp_len : length (vberegs v) = 22%nat;
  vp_bytes : bytes_ok (vberegs v)
}.

(** *** The port window of the BAR

    Its offsets start at 0, the ports of the handlers at 0x3b4: no access gets to
    a register. *)
Lemma switch_below {A} n x (cases : list (list Z * A)) dflt :
  forallb (Z.leb n) (concat (map fst cases)) = true -> x < n -> switch x cases dflt = dflt.
Proof.
  intros Hn Hx. apply switch_default. destruct (existsb _ _) eqn:E; [|done].
  apply existsb_exists in E as (y & Hy & <-%Z.eqb_eq). rewrite forallb_forall in Hn.
  specialize (Hn _ Hy). lia.
Qed.

Lemma no_port_out port val : port < 0x3b4 -> vga_port_out_handler port val = mret (-1).
Proof. by apply switch_below. Qed.

Lemma no_port_in port old h :
  port < 0x3b4 -> vga_port_in_handler port old h = Ret (Some 0xFF, h).
Proof.
  intros Hp. unfold vga_port_in_handler, mbind at 1, M_bind at 1, get. cbv zeta.
  by rewrite (switch_below 0x3b4).
Qed.

Lemma on_dev_same {A} (m : V A) v dv a :
  dev v = Some dv -> m (mkHw dv (gc v)) = Ret (a, mkHw dv (gc v)) -> on_dev m v = Ret (a, v).
Proof. intros Hd E. unfold on_dev. rewrite Hd, E. cbn. rewrite <- Hd. by destruct v. Qed.

Lemma ioport_write_nop offset size value v dv :
  0 <= offset < VIRTIO_GPU_VGA_IOPORT_SIZE -> dev v = Some dv ->
  vga_ioport_write offset size value v = Ret (tt, v).
Proof.
  intros Ho Hd. unfold VIRTIO_GPU_VGA_IOPORT_SIZE in Ho.
  assert (Hout : forall p x, p < 0x3b4 -> (_ ← on_dev (vga_port_out_handler p x); mret tt) v = Ret (tt, v)).
  { intros p x Hp. unfold mbind, M_bind. by rewrite no_port_out, (on_dev_same _ v dv (-1)). }
  unfold vga_ioport_write. replace (s32 offset) with offset by wrap_lia. cbv zeta.
  apply (switch_ind (fun m => m v = Ret (tt, v))); [|done].
  repeat apply Forall_cons_2; try apply Forall_nil_2; cbn [snd];
    unfold mbind at 1, M_bind at 1; rewrite Hout by lia; try (apply Hout; lia).
  unfold mbind at 1, M_bind at 1; rewrite Hout by lia. apply Hout; lia.
Qed.

(** A read gives all ones, two bytes of them also where one is asked for. *)
Lemma ioport_read_ones offset size v dv :
  0 <= offset < VIRTIO_GPU_VGA_IOPORT_SIZE -> dev v = Some dv ->
  vga_ioport_read offset size v = Ret (if (size =? 1) || (size =? 2) then 0xffff else 0, v).
Proof.
  intros Ho Hd. unfold VIRTIO_GPU_VGA_IOPORT_SIZE in Ho.
  assert (Hin : forall p old, p < 0x3b4 -> on_dev (vga_port_in_handler p old) v = Ret (Some 0xFF, v)).
  { intros p old Hp. apply (on_dev_same _ v dv); [done|]. by apply no_port_in. }
  assert (Hf : on_dev (filled (Some 0xFF)) v = Ret (0xFF, v)) by (by apply (on_dev_same _ v dv)).
  unfold vga_ioport_read. replace (s32 offset) with offset by wrap_lia. cbn [switch existsb].
  rewrite !orb_false_r.
  destruct (size =? 1), (size =? 2); cbn [orb]; try done;
    unfold mbind, M_bind; repeat first [rewrite Hin by lia | rewrite Hf | progress cbv beta iota]; reflexivity.
Qed.

(** *** No VGA code frees anything *)

Definition spares {S A} (m : M S A) : Prop := forall s, m s <> Stop UseAfterFree.

Lemma spares_bind {S A C} (m : M S A) (f : A -> M S C) : spares m -> (forall a, spares (f a)) -> spares (mbind f m).
Proof.
  intros Hm Hf s. unfold mbind, M_bind. specialize (Hm s). destruct (m s) as [[a s1]|e]; [apply Hf|congruence].
Qed.

Lemma spares_lift {S A} (o : outcome A) : o <> Stop UseAfterFree -> spares (S := S) (lift o).
Proof. intros H s. unfold lift. destruct o; congruence. Qed.

Lemma tbl_spares l i : tbl l i <> Stop UseAfterFree.
Proof. unfold tbl. by destruct (nthZ l i). Qed.
Lemma div_spares a b : div_c a b <> Stop UseAfterFree.
Proof. unfold div_c. by destruct (b =? 0). Qed.
Lemma ram_rd_spares off : spares (ram_rd off).
Proof. intros h. unfold ram_rd. destruct (vga_ram (vd h)); [|done]. by destruct (_ && _). Qed.
Lemma put_pixel_spares off v : spares (put_pixel off v).
Proof. intros h. unfold put_pixel. destruct (gi_data (gctx h)); [|done]. by destruct (_ && _). Qed.
#[local] Hint Resolve tbl_spares div_spares ram_rd_spares put_pixel_spares : vga.

Ltac spares :=
  repeat first
    [ solve [auto with vga] | apply spares_bind; [|intros ?] | apply outcome_bind_safe; [|intros ?]
    | apply spares_lift
    | match goal with
      | |- spares (let _ := _ in _) => cbv zeta
      | |- spares (match ?x with _ => _ end) => destruct x
      | |- spares _ => by intros ?
      end ].

Lemma get_pixel_spares x y : spares (vga_get_pixel x y).
Proof. unfold vga_get_pixel, plane_bits. spares. Qed.
Lemma get_text_pixel_spares x y : spares (vga_get_text_pixel x y).
Proof. unfold vga_get_text_pixel. spares. Qed.

Lemma render_rows_spares gp n y : (forall x y, spares (gp x y)) -> spares (render_rows gp n y).
Proof.
  intros Hgp.
  assert (Hrow : forall n x y, spares (render_row gp n x y)).
  { intros m. induction m as [|m IH]; intros x y'; cbn [render_row]; spares. }
  revert y. induction n as [|n IH]; intros y; cbn [render_rows]; spares.
Qed.

Lemma vga_render_spares alloc : spares (vga_render alloc).
Proof.
  unfold vga_render, vga_render_graphics, vga_render_text.
  apply spares_bind; [by intros h|intros _]. apply spares_bind; [by intros h|intros h].
  destruct (vga_in_reset (vd h)).
  { intros h'. unfold clear_pixels. destruct (_ =? 0); [done|]. destruct (gi_data (gctx h')); [|done].
    by destruct (_ && _). }
  destruct (graphics_mode (vd h)); (apply spares_bind; [by intros h'|intros h']);
    apply render_rows_spares; intros; [apply get_pixel_spares|apply get_text_pixel_spares].
Qed.

(** *** What the VGA part keeps *)

Definition vga_keeps {A} (m : M vga A) : Prop := forall v, vga_part_ok v ->
  match m v with Ret (_, v') => vga_part_ok v' | Stop e => e <> UseAfterFree end.

Lemma vga_keeps_bind {A C} (m : M vga A) (f : A -> M vga C) :
  vga_keeps m -> (forall a, vga_keeps (f a)) -> vga_keeps (mbind f m).
Proof.
  intros Hm Hf v Hv. unfold mbind, M_bind. specialize (Hm v Hv). destruct (m v) as [[a v1]|e]; [by apply Hf|done].
Qed.

(** The registers of the BAR are 22 bytes, whatever is written to them. *)
Lemma splice_keeps_22 l off bs :
  (off + length bs <= 22)%nat -> length l = 22%nat -> bytes_ok l -> bytes_ok bs ->
  length (splice l off bs) = 22%nat /\ bytes_ok (splice l off bs).
Proof.
  intros Ho Hl Hb Hbs. unfold splice, bytes_ok in *. split.
  - rewrite !length_app, length_take, length_drop. lia.
  - apply Forall_app; split; [by apply Forall_take|].
    apply Forall_app. split; [done|by apply Forall_drop].
Qed.

Lemma set_vbe_ok off x v : (off <= 20)%nat -> vga_part_ok v -> vga_part_ok (set_vbe off x v).
Proof.
  intros Ho []. destruct (splice_keeps_22 (vberegs v) off (le_encode 2 x)) as [H1 H2];
    [rewrite length_le_encode; lia|done|done|apply le_encode_bytes_ok|]. by split.
Qed.

(** The invariant looks at the device and the registers only. *)
Lemma vga_part_same v v' : vga_part_ok v -> dev v' = dev v -> vberegs v' = vberegs v -> vga_part_ok v'.
Proof. intros [] E1 E2. split; by rewrite ?E1, ?E2. Qed.

Lemma vbe_enable_ok value v : vga_part_ok v -> vga_part_ok (vbe_enable value v).
Proof.
  intros Hv. unfold vbe_enable. destruct (_ && _); [|destruct (_ && _); [|done]].
  - apply (vga_part_same (set_vbe VBE_ENABLE VBE_DISPI_ENABLED (set_vbe VBE_Y_OFFSET 0
      (set_vbe VBE_X_OFFSET 0 (set_vbe VBE_VIRT_WIDTH 0 v))))); [|reflexivity..].
    do 4 (apply set_vbe_ok; [apply Nat.leb_le; reflexivity|]). exact Hv.
  - apply (vga_part_same (set_vbe VBE_ENABLE VBE_DISPI_DISABLED v)); [|reflexivity..].
    apply set_vbe_ok; [apply Nat.leb_le; reflexivity|exact Hv].
Qed.

Lemma vbe_mode_ok v : vga_part_ok v -> vga_part_ok (vbe_mode v).
Proof. intros []. unfold vbe_mode. destruct (_ && _); [by split|]. destruct (_ && _); by split. Qed.

Lemma vbe_write_keeps off size value : vga_keeps (vga_vbe_write off size value).
Proof.
  intros v Hv. unfold vga_vbe_write. destruct ((size =? 1) || (size =? 2)) eqn:Hs; [|done].
  unfold mbind, M_bind, get, lift, vbe_bytes.
  destruct ((0 <=? off) && (off + size <=? sizeof_vberegs)) eqn:Hb; [|done]. cbn [modify].
  apply andb_true_iff in Hb as [H0%Z.leb_le H1%Z.leb_le]. unfold sizeof_vberegs in H1.
  set (v1 := v <| vberegs ::= fun l => splice l (Z.to_nat off) (le_encode (Z.to_nat size) value) |>).
  assert (Hv1 : vga_part_ok v1).
  { destruct Hv. assert (1 <= size) by (apply orb_true_iff in Hs as [->%Z.eqb_eq| ->%Z.eqb_eq]; lia).
    destruct (splice_keeps_22 (vberegs v) (Z.to_nat off) (le_encode (Z.to_nat size) value)) as [E1 E2];
      [rewrite length_le_encode; lia|done|done|apply le_encode_bytes_ok|]. by split. }
  unfold when. destruct (off =? VBE_DISPI_INDEX_ENABLE); cbn [modify mret M_ret];
    apply vbe_mode_ok; [by apply vbe_enable_ok|done].
Qed.

Lemma on_dev_render_keeps alloc : vga_keeps (on_dev (vga_render alloc)).
Proof.
  intros v [(dv & Hd & Hok) Hl Hb]. unfold on_dev. rewrite Hd.
  pose proof (vga_render_spares alloc (mkHw dv (gc v))) as Hs.
  pose proof (typed_render alloc (mkHw dv (gc v)) Hok) as Ht.
  destruct (vga_render alloc _) as [[a h]|e]; [|congruence]. destruct Ht as [_ Hh].
  split; [by exists (vd h)|done|done].
Qed.

Lemma vga_keeps_get : vga_keeps get.
Proof. by intros v Hv. Qed.

Lemma vga_keeps_dev {A} (m : V A) P : spares m -> typed m P -> vga_keeps (on_dev m).
Proof.
  intros Hs Ht v [(dv & Hd & Hok) Hl Hb]. unfold on_dev. rewrite Hd. specialize (Hs (mkHw dv (gc v))).
  specialize (Ht (mkHw dv (gc v)) Hok). destruct (m _) as [[a h]|e]; [|congruence]. destruct Ht as [_ Hh].
  split; [by exists (vd h)|done|done].
Qed.

Lemma render_round_keeps alloc : vga_keeps (vga_render_round alloc).
Proof.
  intros v Hv. unfold vga_render_round, mbind at 1, M_bind at 1, get.
  destruct (negb (enable v)); [done|]. destruct (_ && bool_decide _).
  - apply (vga_keeps_bind (on_dev (vga_render alloc)) (fun _ => mret false) (on_dev_render_keeps alloc)); [|done].
    by intros _ w Hw.
  - unfold mbind, M_bind, when. destruct (_ || _); [|done]. cbn. by apply (vga_part_same v).
Qed.

(** *** The whole device *)

Section Device.
Context `{kn : Known} (env : gpu_env).

Definition bar_keeps {A} (m : B A) : Prop := forall d, dev_ok env d ->
  match m d with Ret (_, d') => dev_ok env d' | Stop e => may_stop env e end.

Lemma dev_parts d : dev_ok env d <-> gpu_inv env (dv_gpu d) /\ vga_part_ok (the_vga d).
Proof. split; [intros []; split; [done|by split]|intros [H []]; by split]. Qed.

Lemma bar_keeps_bind {A C} (m : B A) (f : A -> B C) :
  bar_keeps m -> (forall a, bar_keeps (f a)) -> bar_keeps (mbind f m).
Proof.
  intros Hm Hf d Hd. unfold mbind, M_bind. specialize (Hm d Hd). destruct (m d) as [[a d1]|e]; [by apply Hf|done].
Qed.

Lemma bar_keeps_ret {A} (a : A) : bar_keeps (mret a).
Proof. by intros d Hd. Qed.

Lemma on_gpu_keeps {A} (m : G A) : keeps env m -> bar_keeps (on_gpu m).
Proof.
  intros Hm d []. unfold on_gpu. specialize (Hm _ do_gpu0). unfold wp in Hm.
  destruct (m (dv_gpu d)) as [[a g]|e]; [by split|done].
Qed.

Lemma on_vga_keeps {A} (m : M vga A) : vga_keeps m -> bar_keeps (on_vga m).
Proof.
  intros Hm d Hd. apply dev_parts in Hd as [Hg Hv]. unfold on_vga. specialize (Hm _ Hv).
  destruct (m (the_vga d)) as [[a v]|e]; [|by intros ->]. apply dev_parts. split.
  - (apply (inv_core _ (dv_gpu d)); core_done).
  - by apply (vga_part_same v).
Qed.

Lemma harmless_ask {A} (f : virtio_gpu -> outcome A) :
  (forall g, f g <> Stop UseAfterFree) -> keeps env (ask f).
Proof. intros H. apply harmless_keeps. intros g. unfold ask, mbind, M_bind, get, lift. specialize (H g). destruct (f g); congruence. Qed.

Lemma ask_vga {A} (f : vga -> outcome A) : (forall v, f v <> Stop UseAfterFree) -> vga_keeps (ask f).
Proof. intros H v Hv. unfold ask, mbind, M_bind, get, lift. specialize (H v). destruct (f v); congruence. Qed.

Lemma vbe_read_spares off size v : vga_vbe_read off size v <> Stop UseAfterFree.
Proof. unfold vga_vbe_read, vbe_bytes. destruct (_ || _); [|done]. by destruct (_ && _). Qed.

Lemma edid_read_spares off size g : virtio_gpu_edid_read off size g <> Stop UseAfterFree.
Proof. unfold virtio_gpu_edid_read. cbn [switch]. destruct (existsb _ _); [|done]. by destruct (_ && _). Qed.

Lemma device_read_spares off size (g : virtio_gpu) : virtio_device_cfg_read g off size <> Stop UseAfterFree.
Proof.
  unfold virtio_device_cfg_read. cbn [dev_cfgread virtio_gpu_ops]. destruct (_ <? _); [done|]. cbv zeta.
  unfold virtio_gpu_cfgread. repeat (case_match; cbn [mbind outcome_bind]); simplify_eq; done.
Qed.

Lemma common_read_spares off size (g : virtio_gpu) : virtio_common_cfg_read g off size <> Stop UseAfterFree.
Proof.
  unfold virtio_common_cfg_read. apply outcome_bind_safe; [apply find_cr_safe|intros [cr|]; [|done]].
  destruct (negb _); [done|]. apply outcome_bind_safe; [|done].
  unfold common_cfg_value. apply (switch_ind (fun o => o <> Stop UseAfterFree)); [|done].
  repeat apply Forall_cons_2; try apply Forall_nil_2; cbn [snd]; try done;
    unfold curq_reg; repeat case_match; done.
Qed.

Lemma ioport_write_keeps off size value :
  in_window off VIRTIO_GPU_VGA_IOPORT_OFFSET VIRTIO_GPU_VGA_IOPORT_SIZE = true ->
  vga_keeps (vga_ioport_write (off - VIRTIO_GPU_VGA_IOPORT_OFFSET) size value).
Proof.
  intros [H0%Z.leb_le H1%Z.ltb_lt]%andb_true_iff v Hv. destruct (vp_dev _ Hv) as (dv & Hd & _).
  by rewrite (ioport_write_nop _ _ _ _ dv) by (done || lia).
Qed.

Lemma ioport_read_keeps off size :
  in_window off VIRTIO_GPU_VGA_IOPORT_OFFSET VIRTIO_GPU_VGA_IOPORT_SIZE = true ->
  vga_keeps (vga_ioport_read (off - VIRTIO_GPU_VGA_IOPORT_OFFSET) size).
Proof.
  intros [H0%Z.leb_le H1%Z.ltb_lt]%andb_true_iff v Hv. destruct (vp_dev _ Hv) as (dv & Hd & _).
  by rewrite (ioport_read_ones _ _ _ dv) by (done || lia).
Qed.

Lemma virtio_pci_write_keeps : keeps env virtio_pci_write.
Proof. by intros g Hg. Qed.

Lemma thread_flag_keeps b : keeps env (modify (fun g => g <| vga_running := b |>)).
Proof. intros g Hg. (apply (inv_core _ g); core_done). Qed.

Lemma gpu_write_keeps bar off size value : bar_keeps (virtio_gpu_write bar off size value).
Proof.
  unfold virtio_gpu_write.
  destruct (bar =? 0); [apply bar_keeps_ret|].
  destruct (bar =? 2); [|apply on_gpu_keeps, virtio_pci_write_keeps].
  destruct (_ && _); [apply bar_keeps_ret|].
  destruct (in_window off VIRTIO_GPU_VGA_IOPORT_OFFSET _) eqn:Hio; [by apply on_vga_keeps, ioport_write_keeps|].
  destruct (in_window off VIRTIO_GPU_VGA_VBE_OFFSET _).
  { cbv zeta. apply bar_keeps_bind; [apply on_vga_keeps, vbe_write_keeps|intros _]. unfold when.
    destruct (_ && _); [apply on_gpu_keeps, thread_flag_keeps|apply bar_keeps_ret]. }
  repeat match goal with |- bar_keeps (if ?b then _ else _) => destruct b end; apply on_gpu_keeps;
    auto using common_cfg_write_keeps, device_cfg_write_keeps, notify_cfg_write_keeps, virtio_pci_write_keeps.
Qed.

Lemma gpu_read_keeps bar off size : bar_keeps (virtio_gpu_read bar off size).
Proof.
  unfold virtio_gpu_read.
  destruct (bar =? 0); [apply bar_keeps_ret|]. destruct (bar =? 2); [|apply bar_keeps_ret].
  destruct (_ && _); [apply on_gpu_keeps, harmless_ask, edid_read_spares|].
  destruct (in_window off VIRTIO_GPU_VGA_IOPORT_OFFSET _) eqn:Hio; [by apply on_vga_keeps, ioport_read_keeps|].
  destruct (in_window off VIRTIO_GPU_VGA_VBE_OFFSET _); [apply on_vga_keeps, ask_vga, vbe_read_spares|].
  repeat match goal with |- bar_keeps (if ?b then _ else _) => destruct b end; try apply bar_keeps_ret;
    apply on_gpu_keeps; [apply harmless_ask; intros; apply common_read_spares|apply isr_cfg_read_keeps|
      apply harmless_ask; intros; apply device_read_spares].
Qed.

Lemma vga_thread_keeps alloc : bar_keeps (virtio_gpu_vga_render alloc).
Proof.
  apply bar_keeps_bind; [apply on_vga_keeps, render_round_keeps|]. intros [|]; [apply bar_keeps_ret|].
  apply on_gpu_keeps, thread_flag_keeps.
Qed.

Lemma modify_keeps f : (forall v, vga_part_ok v -> vga_part_ok (f v)) -> vga_keeps (modify f).
Proof. intros H v Hv. by apply H. Qed.

(** *** The steps of the thread *)

Lemma clear_pixels_spares n : spares (clear_pixels n).
Proof. intros h. unfold clear_pixels. repeat case_match; done. Qed.
Lemma typed_clear_pixels n : typed (clear_pixels n) (fun _ => True).
Proof. intros h Hh. unfold clear_pixels. repeat case_match; try done; by simplify_eq. Qed.

Lemma check_size_keeps alloc : vga_keeps (on_dev (vga_check_size alloc)).
Proof.
  apply (vga_keeps_dev _ (fun _ => True)); [by intros h|]. apply typed_modify. intros h Hh.
  destruct (vga_in_reset (vd h)); [done|]. cbv zeta. case_match; destruct Hh; by split.
Qed.

Lemma draw_pixel_keeps gm y x : vga_keeps (on_dev (draw_pixel gm y x)).
Proof.
  apply (vga_keeps_dev _ (fun _ => True)).
  - apply spares_bind; [by intros h|intros h]. destruct (_ <=? _); [done|]. destruct (_ <=? _); [done|].
    apply spares_bind; [destruct gm; [apply get_pixel_spares|apply get_text_pixel_spares]|intros v].
    apply spares_bind; [apply put_pixel_spares|by intros _ h'].
  - eapply typed_bind; [apply typed_get|]. intros h _. destruct (_ <=? _); [by apply typed_ret|].
    destruct (_ <=? _); [by apply typed_ret|].
    eapply (typed_bind _ _ (fun _ => True)); [destruct gm; [apply typed_get_pixel|apply typed_get_text_pixel]|intros v _].
    eapply typed_bind; [apply typed_put_pixel|intros _ _]. by apply typed_ret.
Qed.

Lemma reset_test_keeps :
  vga_keeps (on_dev (h ← get; if vga_in_reset (vd h) then
    _ ← clear_pixels (s32 (gi_width (gctx h) * gi_height (gctx h))); mret true else mret false)).
Proof.
  apply (vga_keeps_dev _ (fun _ => True)).
  - apply spares_bind; [by intros h|intros h]. destruct (vga_in_reset _); [|done].
    apply spares_bind; [apply clear_pixels_spares|by intros _ h'].
  - eapply typed_bind; [apply typed_get|]. intros h _. destruct (vga_in_reset _); [|by apply typed_ret].
    eapply typed_bind; [apply typed_clear_pixels|intros _ _]. by apply typed_ret.
Qed.

Lemma thread_step_keeps alloc pc : bar_keeps (vga_thread alloc pc).
Proof.
  destruct pc; cbn [vga_thread]; (apply bar_keeps_bind; [|intros a; try apply bar_keeps_ret]).
  - apply on_vga_keeps, modify_keeps. intros v Hv. by apply (vga_part_same v).
  - apply on_vga_keeps, vga_keeps_get.
  - apply on_vga_keeps, vga_keeps_get.
  - apply on_vga_keeps, check_size_keeps.
  - apply on_vga_keeps, reset_test_keeps.
  - apply on_vga_keeps, (vga_keeps_dev _ (vga_ok ∘ vd)); [by intros h|]. apply typed_get.
  - apply on_vga_keeps, draw_pixel_keeps.
  - apply on_vga_keeps, vga_keeps_get.
  - apply bar_keeps_bind; [|intros _; apply bar_keeps_ret]. unfold when. destruct (_ || _); [|apply bar_keeps_ret].
    apply on_vga_keeps, modify_keeps. intros v Hv. by apply (vga_part_same v).
  - apply on_gpu_keeps, thread_flag_keeps.
Qed.

Lemma vga_bh_keeps : bar_keeps virtio_gpu_vga_bh.
Proof.
  apply bar_keeps_bind; [by intros d Hd|intros d]. cbv zeta.
  apply bar_keeps_bind.
  { unfold when. destruct (_ || _); [|apply bar_keeps_ret]. apply bar_keeps_bind.
    - apply on_vga_keeps, modify_keeps. intros v Hv. by apply (vga_part_same v).
    - intros _. apply bar_keeps_bind; [by intros d' Hd'|intros d'].
      apply on_gpu_keeps, harmless_keeps, harmless_on_dpy. by intros x. }
  intros _. apply bar_keeps_bind; [by intros d' Hd'|intros d'].
  apply on_gpu_keeps, harmless_keeps, harmless_on_dpy. by intros x.
Qed.
End Device.

(** ** Properties *)

(** What may happen to the device from outside: to its virtio part, on its BARs, on the VGA
    ports, memory and screen, and in its bottom half. *)
Inductive access_step (env : gpu_env) (d : gpu_dev) : gpu_dev -> Prop :=
  | as_gpu g : gpu_step env (dv_gpu d) g -> access_step env d (d <| dv_gpu := g |>)
  | as_write bar off sz value d' : virtio_gpu_write bar off sz value d = Ret (tt, d') -> access_step env d d'
  | as_read bar off sz v d' : virtio_gpu_read bar off sz d = Ret (v, d') -> access_step env d d'
  | as_vga dv h : dev (dv_vga d) = Some dv -> vga_step (mkHw dv (gc (dv_vga d))) h ->
      access_step env d (d <| dv_vga ::= fun v => v <| dev := Some (vd h) |> <| gc := gctx h |> |>)
  | as_bh d' : virtio_gpu_vga_bh d = Ret (tt, d') -> access_step env d d'.

(** The device and its thread; the status [VGA_THREAD_RUNNING] lets one be created, and
    its last action is to set [VGA_THREAD_EOL]. *)
Record bar_sys := mkBar { bar_dev : gpu_dev; bar_pc : option vga_pc }.

Inductive bar_step (env : gpu_env) : bar_sys -> bar_sys -> Prop :=
  | bs_access d d' pc : access_step env d d' -> bar_step env (mkBar d pc) (mkBar d' pc)
  | bs_create d : vga_running (dv_gpu d) = true -> bar_step env (mkBar d None) (mkBar d (Some PcEnter))
  | bs_thread alloc d pc pc' d' : vga_thread alloc pc d = Ret (pc', d') ->
      bar_step env (mkBar d (Some pc)) (mkBar d' pc').

(** A device [virtio_gpu_init] has set up. *)
Definition dev_fresh (d : gpu_dev) : Prop :=
  exists cnt h vh alloc fb s pci dpy, gpu_dev_init cnt h vh alloc fb s pci dpy = Ret (0, Some d).

Lemma bar_keeps_run {A} env (m : B A) a d d' : bar_keeps env m -> dev_ok env d -> m d = Ret (a, d') -> dev_ok env d'.
Proof. intros Hm Hd E. specialize (Hm d Hd). by rewrite E in Hm. Qed.

Lemma bar_keeps_stop `{kn : Known} {A} env (m : B A) d :
  bar_keeps env m -> known -> dev_ok env d -> m d <> Stop UseAfterFree.
Proof. intros Hm Ha Hd E. specialize (Hm d Hd). rewrite E in Hm. apply Hm; [done|by left]. Qed.

Lemma dev_known env d : dev_ok env d -> arrays_live (dv_gpu d) -> dev_ok (H := True) env d.
Proof. intros [] Ha. split; [by apply inv_known|done..]. Qed.

Lemma fresh_vberegs_ok inf : length (fresh_vberegs inf) = 22%nat /\ bytes_ok (fresh_vberegs inf).
Proof.
  split; [done|]. unfold fresh_vberegs, bytes_ok. repeat (apply Forall_app; split);
    try apply le_encode_bytes_ok. by apply Forall_replicate.
Qed.

Lemma dev_fresh_ok env d : dev_fresh d -> dev_ok env d.
Proof.
  intros (cnt & h & vh & alloc & fb & s & pci & dpy & E). unfold gpu_dev_init in E.
  destruct (vga_init vh false) as [[dv|]|] eqn:Hv; cbn [mbind outcome_bind] in E; [| |done].
  - destruct (virtio_gpu_init _ _ _ _ _) as [[rc [g|]]|] eqn:Hg; cbn [mbind outcome_bind] in E; [|done..].
    destruct (vdpy_get_display_info _ _ _ _) as [[[inf|] d1]|]; cbn [mbind outcome_bind] in E; [|done..].
    injection E as -> <-. destruct (fresh_vberegs_ok inf) as [H1 H2].
    split; [|exists dv; split; [done|by eapply vga_init_ok]|done|done].
    apply fresh_inv. by repeat eexists.
  - destruct (virtio_gpu_init _ _ _ _ _) as [[rc [g|]]|]; cbn [mbind outcome_bind] in E; done.
Qed.

Lemma access_step_ok env d d' : dev_ok env d -> access_step env d d' -> dev_ok env d'.
Proof.
  intros Hd [g H|bar off sz value d1 E|bar off sz v d1 E|dv h Hdv H|d1 E].
  - destruct Hd. split; [by eapply step_inv|done..].
  - eapply bar_keeps_run; [apply gpu_write_keeps|exact Hd|exact E].
  - eapply bar_keeps_run; [apply gpu_read_keeps|exact Hd|exact E].
  - destruct Hd as [Hg (dv' & Hdv' & Hok) Hl Hb]. split; [done| |done|done]. exists (vd h). split; [done|].
    apply (vga_step_ok _ _ H). cbn. congruence.
  - eapply bar_keeps_run; [apply vga_bh_keeps|exact Hd|exact E].
Qed.

Lemma bar_step_ok env y y' : dev_ok env (bar_dev y) -> bar_step env y y' -> dev_ok env (bar_dev y').
Proof.
  intros Hd Hs. destruct Hs as [d d2 pc H|d H|alloc d pc pc2 d2 E]; cbn in *; [by eapply access_step_ok|exact Hd|].
  eapply bar_keeps_run; [apply thread_step_keeps|exact Hd|exact E].
Qed.


(** *** What a read of BAR 2 answers *)

Lemma set_the_vga d : set_vga (the_vga d) d = d.
Proof. by destruct d as [[] []]. Qed.

Lemma on_vga_same {A} (m : M vga A) a d : m (the_vga d) = Ret (a, the_vga d) -> on_vga m d = Ret (a, d).
Proof. intros E. unfold on_vga. by rewrite E, set_the_vga. Qed.

Lemma on_gpu_ask {A} (f : virtio_gpu -> outcome A) d :
  on_gpu (ask f) d = match f (dv_gpu d) with Ret a => Ret (a, d) | Stop e => Stop e end.
Proof. unfold on_gpu, ask, mbind, M_bind, get, lift. destruct (f (dv_gpu d)); [|done]. by destruct d. Qed.

Lemma in_window_true off base n : base <= off < base + n -> in_window off base n = true.
Proof. intros H. unfold in_window. by rewrite (proj2 (Z.leb_le _ _)), (proj2 (Z.ltb_lt _ _)) by lia. Qed.
Lemma in_window_false off base n : off < base \/ base + n <= off -> in_window off base n = false.
Proof.
  intros H. unfold in_window. destruct (Z.leb_spec base off); [|done]. cbn [andb]. apply Z.ltb_ge. lia.
Qed.

(** The windows in order. *)
Ltac windows :=
  unfold VIRTIO_GPU_VGA_IOPORT_OFFSET, VIRTIO_GPU_VGA_IOPORT_SIZE, VIRTIO_GPU_VGA_VBE_OFFSET, VIRTIO_GPU_VGA_VBE_SIZE,
    VIRTIO_GPU_CAP_COMMON_OFFSET, VIRTIO_GPU_CAP_COMMON_SIZE, VIRTIO_GPU_CAP_ISR_OFFSET, VIRTIO_GPU_CAP_ISR_SIZE,
    VIRTIO_CAP_DEVICE_OFFSET, VIRTIO_CAP_DEVICE_SIZE, VIRTIO_GPU_EDID_SIZE in *.
Ltac in_edid := rewrite (proj2 (Z.leb_le 0 _)), (proj2 (Z.leb_le _ 256)) by lia; cbn [andb].
Ltac not_edid := rewrite (proj2 (Z.leb_gt _ 256)) by lia; rewrite andb_false_r.
Ltac pick_window :=
  repeat first [rewrite in_window_true by lia | rewrite in_window_false by lia].

Lemma read_edid off sz d :
  0 <= off -> sz = 1 \/ sz = 2 \/ sz = 4 -> off <= 256 ->
  virtio_gpu_read 2 off sz d =
    if off + sz <=? 256 then Ret (le_decode (take (Z.to_nat sz) (drop (Z.to_nat off) (gpu_edid (dv_gpu d)))), d)
    else Stop OobAccess.
Proof.
  intros H0 Hs H1. unfold virtio_gpu_read. cbn [Z.eqb]. change (2 =? 0) with false. change (2 =? 2) with true. windows.
  in_edid. rewrite on_gpu_ask. unfold virtio_gpu_edid_read, switch.
  replace (existsb (Z.eqb sz) [1; 2; 4; 8]) with true by (by destruct Hs as [->|[->| ->]]).
  rewrite (proj2 (Z.leb_le 0 _)) by lia. unfold VIRTIO_GPU_EDID_SIZE. cbn [andb]. by destruct (_ <=? _).
Qed.

Lemma read_vbe off sz d :
  0x500 <= off -> sz = 1 \/ sz = 2 -> off + sz <= 0x516 ->
  virtio_gpu_read 2 off sz d =
    Ret (le_decode (take (Z.to_nat sz) (drop (Z.to_nat (off - 0x500)) (vberegs (dv_vga d)))), d).
Proof.
  intros H0 Hs H1. unfold virtio_gpu_read. change (2 =? 0) with false. change (2 =? 2) with true. windows.
  not_edid. pick_window. apply on_vga_same. unfold ask, mbind, M_bind, get, lift, vga_vbe_read, vbe_bytes, sizeof_vberegs.
  rewrite (proj2 (Z.leb_le 0 _)), (proj2 (Z.leb_le _ 22)) by lia.
  by destruct Hs as [->| ->].
Qed.

Lemma read_ports off sz env d :
  dev_ok env d -> 0x400 <= off < 0x420 -> sz = 1 \/ sz = 2 -> virtio_gpu_read 2 off sz d = Ret (0xffff, d).
Proof.
  intros Hd H0 Hs. destruct (do_vga _ _ Hd) as (dv & Hdv & _).
  unfold virtio_gpu_read. change (2 =? 0) with false. change (2 =? 2) with true.
  replace ((0 <=? off) && (off <=? VIRTIO_GPU_EDID_SIZE)) with false by (windows; not_edid; done).
  rewrite in_window_true by (windows; lia). apply on_vga_same.
  rewrite (ioport_read_ones _ _ _ dv) by (windows; lia || done). by destruct Hs as [->| ->].
Qed.

Lemma read_gap off sz d :
  256 < off < 0x400 \/ 0x420 <= off < 0x500 \/ 0x516 <= off < 0x1000 \/ 0x3000 <= off ->
  virtio_gpu_read 2 off sz d = Ret (bad_value sz, d).
Proof.
  intros H0. unfold virtio_gpu_read. change (2 =? 0) with false. change (2 =? 2) with true. windows.
  not_edid. by pick_window.
Qed.

Lemma read_device_outside off sz d :
  0x2000 <= off < 0x3000 -> 0 <= sz <= 4 -> 16 < off - 0x2000 + sz ->
  virtio_gpu_read 2 off sz d = Ret (bad_value sz, d).
Proof.
  intros H0 Hs H1. unfold virtio_gpu_read. change (2 =? 0) with false. change (2 =? 2) with true. windows.
  not_edid. pick_window. rewrite on_gpu_ask. unfold virtio_device_cfg_read, cfg_max. cbn [cfgsize virtio_gpu_ops].
  change (if 16 =? 0 then 0x100000000 else 16) with 16.
  replace (u64 (off - 0x2000 + sz)) with (off - 0x2000 + sz) by wrap_lia. by rewrite (proj2 (Z.ltb_lt _ _)) by lia.
Qed.

(** Reads of BAR 2, by window, none of which changes the device: the EDID
    gives its bytes, and a read that starts at its end, or runs over it, leaves
    the buffer; the VGA ports give two bytes of ones, whatever the registers hold
    and also when one byte is asked for; the Bochs registers give their bytes;
    outside the windows, and behind [struct virtio_gpu_config], there are only
    ones. *)
Theorem bar_read_windows env d off sz :
  dev_ok env d -> 0 <= off -> sz = 1 \/ sz = 2 \/ sz = 4 ->
  (off <= 256 -> virtio_gpu_read 2 off sz d =
     if off + sz <=? 256 then Ret (le_decode (take (Z.to_nat sz) (drop (Z.to_nat off) (gpu_edid (dv_gpu d)))), d)
     else Stop OobAccess) /\
  (0x400 <= off < 0x420 -> sz <> 4 -> virtio_gpu_read 2 off sz d = Ret (0xffff, d)) /\
  (0x500 <= off -> off + sz <= 0x516 -> sz <> 4 ->
     virtio_gpu_read 2 off sz d =
       Ret (le_decode (take (Z.to_nat sz) (drop (Z.to_nat (off - 0x500)) (vberegs (dv_vga d)))), d)) /\
  (0x2000 <= off < 0x3000 -> 16 < off - 0x2000 + sz -> virtio_gpu_read 2 off sz d = Ret (bad_value sz, d)) /\
  (256 < off < 0x400 \/ 0x420 <= off < 0x500 \/ 0x516 <= off < 0x1000 \/ 0x3000 <= off ->
     virtio_gpu_read 2 off sz d = Ret (bad_value sz, d)).
Proof.
  intros Hd H0 Hs. split_and!; intros.
  - by apply read_edid.
  - eapply read_ports; [done|done|lia].
  - apply read_vbe; lia.
  - apply read_device_outside; lia.
  - by apply read_gap.
Qed.

(** ** The properties at a concrete device *)

Module BarDemo.

Definition d0 : gpu_dev := Eval vm_compute in
  match gpu_dev_init 0 GpuDemo.host VgaDemo.host true (Some []) GpuDemo.shm (mkPci true false) GpuDemo.dpy with
  | Ret (_, Some d) => d
  | _ => mkDev GpuDemo.g0 (init_vga true (Some []) (mkInfo 0 0 0 0) zero_vdev)
  end.

Lemma d0_fresh : dev_fresh d0.
Proof.
  exists 0, GpuDemo.host, VgaDemo.host, true, (Some []), GpuDemo.shm, (mkPci true false), GpuDemo.dpy.
  vm_compute. reflexivity.
Defined.

(** The guest clears the resolution, which switches to the VGA mode, after the thread has begun its round; the thread,
    with the VGA in reset, clears the pixels and ends. *)
Definition step {A} (m : B A) (d : gpu_dev) : gpu_dev := match m d with Ret (_, d') => d' | Stop _ => d end.
Definition d1 : gpu_dev := Eval vm_compute in step (vga_thread true PcEnter) d0.
Definition d2 : gpu_dev := Eval vm_compute in step (virtio_gpu_write 2 0x502 2 0) d1.
Definition d3 : gpu_dev := Eval vm_compute in step (virtio_gpu_write 2 0x504 2 0) d2.
Definition d4 : gpu_dev := Eval vm_compute in step (vga_thread true PcReset) d3.
Definition d5 : gpu_dev := Eval vm_compute in step (vga_thread true PcEnd) d4.

Ltac by_thread pc := apply (rtc_l _ _ pc); [apply (bs_thread _ true); vm_compute; reflexivity|].
Lemma d5_reachable : rtc (bar_step willing_host) (mkBar d0 None) (mkBar d5 None).
Proof.
  apply (rtc_l _ _ (mkBar d0 (Some PcEnter))); [apply bs_create; reflexivity|].
  by_thread (mkBar d1 (Some PcLoop)). by_thread (mkBar d1 (Some PcMode)).
  apply (rtc_l _ _ (mkBar d2 (Some PcMode))); [apply bs_access, (as_write _ _ 2 0x502 2 0); vm_compute; reflexivity|].
  apply (rtc_l _ _ (mkBar d3 (Some PcMode))); [apply bs_access, (as_write _ _ 2 0x504 2 0); vm_compute; reflexivity|].
  by_thread (mkBar d3 (Some PcSize)). by_thread (mkBar d3 (Some PcReset)). by_thread (mkBar d4 (Some PcEnd)).
  by_thread (mkBar d5 None). apply rtc_refl.
Qed.
End BarDemo.


(** The width in the Bochs registers, the header of the EDID, a VGA port, and
    the EDID read across its end. *)
Lemma bar_read_windows_witness :
  virtio_gpu_read 2 0x502 2 BarDemo.d0 = Ret (1920, BarDemo.d0) /\
  virtio_gpu_read 2 0 4 BarDemo.d0 = Ret (0xffffff00, BarDemo.d0) /\
  virtio_gpu_read 2 0x40f 1 BarDemo.d0 = Ret (0xffff, BarDemo.d0) /\
  virtio_gpu_read 2 256 1 BarDemo.d0 = Stop OobAccess.
Proof.
  pose proof (dev_fresh_ok willing_host _ BarDemo.d0_fresh) as Hd. split_and!.
  - destruct (bar_read_windows willing_host BarDemo.d0 0x502 2 Hd) as (_ & _ & H & _); [lia|lia|].
    rewrite H by lia. vm_compute. reflexivity.
  - destruct (bar_read_windows willing_host BarDemo.d0 0 4 Hd) as (H & _); [lia|lia|].
    rewrite H by lia. vm_compute. reflexivity.
  - destruct (bar_read_windows willing_host BarDemo.d0 0x40f 1 Hd) as (_ & H & _); [lia|lia|]. apply H; lia.
  - destruct (bar_read_windows willing_host BarDemo.d0 256 1 Hd) as (H & _); [lia|lia|]. rewrite H by lia. reflexivity.
Defined.
