(* ===== verification/BlockIf.v ===== *)
(** * The block interface

    [src/devicemodel/hw/block_if.c]: the requests of a block device emulation
    and the eight threads that serve them.

    A context owns 72 elements, each in one of three queues.  A pointer to an
    element is its index in [reqs]; a pointer to a request of the caller is a
    number, and the caller's requests are a map.  The code from taking the mutex
    to giving it back is one step; [blockif_proc] runs outside of it. *)
From S2P Require Import Prelude.

Definition BLOCKIF_NUMTHR := 8%nat.
Definition BLOCKIF_MAXREQ := (64 + BLOCKIF_NUMTHR)%nat.
Definition BLOCKIF_IOV_MAX := 256.
Definition MAX_DISCARD_SEGMENT := 256.
Definition DEV_BSIZE := 512.
Definition E2BIG := 7.
Definition EINVAL := 22.
Definition EBUSY := 16.
Definition EROFS := 30.
Definition EOPNOTSUPP := 95.

Inductive blockop := BOP_READ | BOP_WRITE | BOP_FLUSH | BOP_DISCARD.
Inductive blockstat := BST_FREE | BST_BLOCK | BST_PEND | BST_BUSY | BST_DONE.

#[export] Instance blockstat_eq_dec : EqDecision blockstat.
Proof. solve_decision. Defined.
#[export] Instance blockop_eq_dec : EqDecision blockop.
Proof. solve_decision. Defined.

(** [iov] is the array of (base, length) pairs. *)
Record blockif_req := mkReq { br_iov : list (Z * Z); br_iovcnt : Z; br_offset : Z; br_resid : Z }.
#[export] Instance blockif_req_eta : Settable blockif_req := fun r =>
  mkReq (br_iov r) (br_iovcnt r) (br_offset r) (br_resid r).

Record blockif_elem := mkElem { be_req : option nat; be_op : blockop; be_status : blockstat; be_tid : nat; be_block : Z }.
#[export] Instance blockif_elem_eta : Settable blockif_elem := fun e =>
  mkElem (be_req e) (be_op e) (be_status e) (be_tid e) (be_block e).

Record blockif_ctxt := mkCtxt {
  bc_isblk : bool; bc_candiscard : bool; bc_rdonly : bool;
  bc_size : Z; bc_sub_file_assign : bool; bc_sub_file_start_lba : Z;
  bc_sectsz : Z; bc_psectsz : Z; bc_psectoff : Z;
  bc_max_discard_sectors : Z; bc_max_discard_seg : Z; bc_discard_sector_alignment : Z;
  bc_closing : bool;
  freeq : list nat; pendq : list nat; busyq : list nat;
  reqs : list blockif_elem;
  bc_wce : Z
}.
#[export] Instance blockif_ctxt_eta : Settable blockif_ctxt := fun c =>
  mkCtxt (bc_isblk c) (bc_candiscard c) (bc_rdonly c) (bc_size c) (bc_sub_file_assign c)
    (bc_sub_file_start_lba c) (bc_sectsz c) (bc_psectsz c) (bc_psectoff c) (bc_max_discard_sectors c)
    (bc_max_discard_seg c) (bc_discard_sector_alignment c) (bc_closing c) (freeq c) (pendq c) (busyq c)
    (reqs c) (bc_wce c).

(** The caller's requests. *)
Notation "'breqs'" := (gmap nat blockif_req).

(** ** The queues *)

Definition elem_at (bc : blockif_ctxt) (i : nat) : outcome blockif_elem :=
  match reqs bc !! i with Some be => Ret be | None => Stop OobAccess end.
Definition upd_elem (i : nat) (f : blockif_elem -> blockif_elem) (bc : blockif_ctxt) : blockif_ctxt :=
  bc <| reqs ::= alter f i |>.
Definition req_at (rs : breqs) (r : nat) : outcome blockif_req :=
  match rs !! r with Some br => Ret br | None => Stop UseAfterFree end.

(** [TAILQ_FOREACH] up to the first element that satisfies [p]. *)
Fixpoint foreach (bc : blockif_ctxt) (p : blockif_elem -> bool) (l : list nat) : outcome (option nat) :=
  match l with
  | [] => Ret None
  | i :: l' => be ← elem_at bc i; if p be then Ret (Some i) else foreach bc p l'
  end.

(** The loop over the segments: [off += iov[i].iov_len]. *)
Fixpoint sum_iov (iov : list (Z * Z)) (n : nat) (off : Z) : outcome Z :=
  match n with
  | O => Ret off
  | S n' => match iov with
            | [] => Stop OobAccess
            | (_, len) :: iov' => sum_iov iov' n' (s64 (off + len))
            end
  end.

(** [1 << (sizeof(off_t) - 1)] where the largest [off_t] is meant. *)
Definition flush_block := Z.shiftl 1 (8 - 1).

Definition blockif_enqueue (bc : blockif_ctxt) (rs : breqs) (r : nat) (op : blockop)
  : outcome (bool * blockif_ctxt) :=
  match freeq bc with
  | [] => Ret (false, bc)
  | i :: rest =>
    be ← elem_at bc i;
    if negb (bool_decide (be_status be = BST_FREE)) then Ret (false, bc)
    else
      breq ← req_at rs r;
      off ← (match op with
             | BOP_READ | BOP_WRITE | BOP_DISCARD =>
               sum_iov (br_iov breq) (Z.to_nat (br_iovcnt breq)) (br_offset breq)
             | BOP_FLUSH => Ret flush_block
             end);
      let bc := upd_elem i (fun be => be <| be_req := Some r |> <| be_op := op |> <| be_block := off |>)
                  (bc <| freeq := rest |>) in
      tbe ← foreach bc (fun tbe => be_block tbe =? br_offset breq) (pendq bc);
      tbe ← (match tbe with
             | Some _ => Ret tbe
             | None => foreach bc (fun tbe => be_block tbe =? br_offset breq) (busyq bc)
             end);
      let st := match tbe with None => BST_PEND | Some _ => BST_BLOCK end in
      let bc := upd_elem i (fun be => be <| be_status := st |>) bc <| pendq ::= fun l => l ++ [i] |> in
      Ret (bool_decide (st = BST_PEND), bc)
  end.

(** The element taken, if there is one. *)
Definition blockif_dequeue (bc : blockif_ctxt) (t : nat) : outcome (option nat * blockif_ctxt) :=
  be ← foreach bc (fun be => bool_decide (be_status be = BST_PEND)) (pendq bc);
  match be with
  | None => Ret (None, bc)
  | Some i =>
    Ret (Some i, upd_elem i (fun be => be <| be_status := BST_BUSY |> <| be_tid := t |>)
                   (bc <| pendq ::= unlink i |>) <| busyq ::= fun l => l ++ [i] |>)
  end.

(** The loop over [pendq]: what waited for [block] is pending. *)
Fixpoint unblock (rs : breqs) (block : Z) (l : list nat) (bc : blockif_ctxt) : outcome blockif_ctxt :=
  match l with
  | [] => Ret bc
  | i :: l' =>
    tbe ← elem_at bc i;
    match be_req tbe with
    | None => Stop NullDeref
    | Some r =>
      breq ← req_at rs r;
      unblock rs block l'
        (if br_offset breq =? block then upd_elem i (fun be => be <| be_status := BST_PEND |>) bc else bc)
    end
  end.

Definition blockif_complete (bc : blockif_ctxt) (rs : breqs) (i : nat) : outcome blockif_ctxt :=
  be ← elem_at bc i;
  let bc := match be_status be with
            | BST_DONE | BST_BUSY => bc <| busyq ::= unlink i |>
            | _ => bc <| pendq ::= unlink i |>
            end in
  bc ← unblock rs (be_block be) (pendq bc) bc;
  Ret (upd_elem i (fun be => be <| be_tid := 0%nat |> <| be_status := BST_FREE |> <| be_req := None |>) bc
         <| freeq ::= fun l => l ++ [i] |>).

(** ** Carrying a request out *)

(** What a request does to the file, in order. *)
Inductive sys :=
  | SysRead (pos n : Z) | SysWrite (pos : Z) (bs : list Z) | SysFsync
  | SysDiscard (start len : Z) | SysPunch (start len : Z) | SysFdatasync.

(** What the operating system answers: the result of [lseek] is not negative;
    the bytes [read] gives, the count [write] takes, or an [errno]; the [errno]
    of [fsync], 0 for success; the results of the [n]-th discard. *)
Record io_answer := mkIo {
  io_seek : bool; io_read : list Z + Z; io_write : Z + Z; io_fsync : Z;
  io_discard : nat -> Z; io_fdatasync : nat -> Z }.

(** The array [iov] as the bytes it is in memory, a pointer and a length each. *)
Definition iov_bytes (iov : list (Z * Z)) : list Z :=
  flat_map (fun e => le_encode 8 e.1 ++ le_encode 8 e.2) iov.
Fixpoint iov_of_bytes (n : nat) (bs : list Z) : list (Z * Z) :=
  match n with
  | O => []
  | S n' => (le_decode (take 8 bs), le_decode (take 8 (drop 8 bs))) :: iov_of_bytes n' (drop 16 bs)
  end.

Definition blockif_flush_cache (bc : blockif_ctxt) (io : io_answer) : Z * list sys :=
  if bc_wce bc =? 0 then (io_fsync io, [SysFsync]) else (0, []).

(** 0 when the range may be discarded. *)
Definition discard_range_validate (bc : blockif_ctxt) (start size : Z) : Z :=
  let start_sector := Z.quot start DEV_BSIZE in
  let size_sector := Z.quot size DEV_BSIZE in
  if (size =? 0) || (bc_size bc + bc_sub_file_start_lba bc <? s64 (start + size)) then -1
  else if (bc_max_discard_sectors bc <? size_sector) ||
          (negb (bc_discard_sector_alignment bc =? 0) &&
           negb (Z.rem start_sector (bc_discard_sector_alignment bc) =? 0)) then -1
  else 0.

(** [struct discard_range] *)
Record discard_range := mkRange { dr_sector : Z; dr_num_sectors : Z; dr_flags : Z }.
Definition sizeof_range := 16.
Definition range_at (hmem : Z -> Z) (base : Z) (i : nat) : discard_range :=
  let byte k := hmem (base + 16 * Z.of_nat i + k) in
  mkRange (le_decode (map byte (seqZ 0 8))) (le_decode (map byte (seqZ 8 4))) (le_decode (map byte (seqZ 12 4))).

(** The loop that collects the ranges [i .. i + n): the segments, or [EINVAL].
    [arg] has room for 256. *)
Fixpoint collect_ranges (bc : blockif_ctxt) (hmem : Z -> Z) (base : Z) (n i : nat) (args : list (Z * Z))
  : outcome (Z + list (Z * Z)) :=
  match n with
  | O => Ret (inr args)
  | S n' =>
    if (256 <=? i)%nat then Stop OobAccess
    else
      let rg := range_at hmem base i in
      let start := s64 (dr_sector rg * DEV_BSIZE + bc_sub_file_start_lba bc) in
      let len := u32 (dr_num_sectors rg * DEV_BSIZE) in
      if bc_max_discard_seg bc <? Z.of_nat (S i) then Ret (inl EINVAL)
      else if negb (discard_range_validate bc start len =? 0) then Ret (inl EINVAL)
      else collect_ranges bc hmem base n' (S i) (args ++ [(start, len)])
  end.

(** The loop that discards; the result of the last call, and the calls. *)
Fixpoint discard_segments (bc : blockif_ctxt) (io : io_answer) (i : nat) (args : list (Z * Z)) (log : list sys)
  : Z * list sys :=
  match args with
  | [] => (0, log)
  | (start, len) :: args' =>
    let '(err, log) :=
      if bc_isblk bc then (io_discard io i, log ++ [SysDiscard start len])
      else if io_discard io i =? 0 then (io_fdatasync io i, log ++ [SysPunch start len; SysFdatasync])
      else (io_discard io i, log ++ [SysPunch start len]) in
    if negb (err =? 0) then (err, log) else discard_segments bc io (S i) args' log
  end.

Definition blockif_process_discard (bc : blockif_ctxt) (hmem : Z -> Z) (io : io_answer) (br : blockif_req)
  : outcome (Z * blockif_req * list sys) :=
  if negb (bc_candiscard bc) then Ret (EOPNOTSUPP, br, [])
  else if bc_rdonly bc then Ret (EROFS, br, [])
  else
    args ← (if br_iovcnt br =? 1 then
              match br_iov br with
              | [] => Stop OobAccess
              | (base, len) :: _ => collect_ranges bc hmem base (Z.to_nat (s32 (len / sizeof_range))) 0 []
              end
            else Ret (inr [(s64 (br_offset br + bc_sub_file_start_lba bc), br_resid br)]));
    match args with
    | inl err => Ret (err, br, [])
    | inr args =>
      let '(err, log) := discard_segments bc io 0 args [] in
      if negb (err =? 0) then Ret (err, br, log) else Ret (0, br <| br_resid := 0 |>, log)
    end.

(** [read] and [write] get the array [iov] itself as buffer and the number of
    its entries as length. *)
Definition blockif_proc_op (bc : blockif_ctxt) (hmem : Z -> Z) (io : io_answer) (op : blockop) (br : blockif_req)
  : outcome (Z * blockif_req * list sys) :=
  let pos := s64 (br_offset br + bc_sub_file_start_lba bc) in
  let n := Z.to_nat (br_iovcnt br) in
  let room := (0 <=? br_iovcnt br) && (br_iovcnt br <=? 16 * Z.of_nat (length (br_iov br))) in
  match op with
  | BOP_READ =>
    if negb (io_seek io) then Ret (0, br, [])
    else if negb room then Stop OobAccess
    else match io_read io with
         | inr errno => Ret (errno, br, [SysRead pos (br_iovcnt br)])
         | inl bs =>
           let bs := take n bs in
           let iov := iov_of_bytes (length (br_iov br)) (splice (iov_bytes (br_iov br)) 0 bs) in
           Ret (0, br <| br_iov := iov |> <| br_resid ::= fun r => s64 (r - Z.of_nat (length bs)) |>,
                [SysRead pos (br_iovcnt br)])
         end
  | BOP_WRITE =>
    if bc_rdonly bc then Ret (EROFS, br, [])
    else if negb (io_seek io) then Ret (0, br, [])
    else if negb room then Stop OobAccess
    else match io_write io with
         | inr errno => Ret (errno, br, [])
         | inl len =>
           let len := Z.max 0 (Z.min len (br_iovcnt br)) in
           let '(err, log) := blockif_flush_cache bc io in
           Ret (err, br <| br_resid ::= fun r => s64 (r - len) |>,
                SysWrite pos (take (Z.to_nat len) (iov_bytes (br_iov br))) :: log)
         end
  | BOP_FLUSH => Ret (io_fsync io, br, [SysFsync])
  | BOP_DISCARD => blockif_process_discard bc hmem io br
  end.

(** The element is done; the caller's callback is told the error. *)
Definition blockif_proc (bc : blockif_ctxt) (rs : breqs) (hmem : Z -> Z) (io : io_answer) (i : nat)
  : outcome (Z * list sys * blockif_ctxt * breqs) :=
  be ← elem_at bc i;
  match be_req be with
  | None => Stop NullDeref
  | Some r =>
    br ← req_at rs r;
    '(err, br, log) ← blockif_proc_op bc hmem io (be_op be) br;
    Ret (err, log, upd_elem i (fun be => be <| be_status := BST_DONE |>) bc, <[r := br]> rs)
  end.

(** ** The calls of the device emulation *)

(** The error code, and whether [cond] is signalled. *)
Definition blockif_request (bc : blockif_ctxt) (rs : breqs) (r : nat) (op : blockop)
  : outcome (Z * bool * blockif_ctxt) :=
  match freeq bc with
  | [] => Ret (E2BIG, false, bc)
  | _ => '(signal, bc) ← blockif_enqueue bc rs r op; Ret (0, signal, bc)
  end.

(** While the request is being carried out the caller waits, with the mutex. *)
Inductive cancel_result := CancelReturns (rc : Z) (bc : blockif_ctxt) | CancelWaits.

Definition blockif_cancel (bc : blockif_ctxt) (rs : breqs) (r : nat) : outcome cancel_result :=
  let mine be := bool_decide (be_req be = Some r) in
  be ← foreach bc mine (pendq bc);
  match be with
  | Some i => bc ← blockif_complete bc rs i; Ret (CancelReturns 0 bc)
  | None =>
    be ← foreach bc mine (busyq bc);
    match be with
    | None => Ret (CancelReturns (-1) bc)
    | Some i => be ← elem_at bc i;
                if bool_decide (be_status be = BST_BUSY) then Ret CancelWaits
                else Ret (CancelReturns (- EBUSY) bc)
    end
  end.

(** The queues as [blockif_open] leaves them. *)
Definition fresh_elem : blockif_elem := mkElem None BOP_READ BST_FREE 0 0.
Definition init_queues (bc : blockif_ctxt) : blockif_ctxt :=
  bc <| reqs := replicate BLOCKIF_MAXREQ fresh_elem |> <| freeq := reverse (seq 0 BLOCKIF_MAXREQ) |>
     <| pendq := [] |> <| busyq := [] |> <| bc_closing := false |>.

(** ** The threads *)

(** A thread of [blockif_thr] that has the mutex or will take it, that waits for
    [cond], that carries an element out, that has done so, that has ended. *)
Inductive worker := Awake | Waiting | Working (i : nat) | Finishing (i : nat) | Exited.

Record blk := mkBlk { ctxt : blockif_ctxt; the_reqs : breqs; workers : list worker }.
#[export] Instance blk_eta : Settable blk := fun b => mkBlk (ctxt b) (the_reqs b) (workers b).

Definition set_worker (t : nat) (w : worker) (b : blk) : blk := b <| workers ::= <[t := w]> |>.

(** [pthread_cond_signal] wakes a waiting thread, if there is one; also more may
    wake.  [pthread_cond_broadcast] wakes all. *)
Inductive woken : list worker -> list worker -> Prop :=
  | woken_none ws : Waiting ∉ ws -> woken ws ws
  | woken_one ws t : ws !! t = Some Waiting -> woken ws (<[t := Awake]> ws).
Definition wake (w : worker) : worker := match w with Waiting => Awake | _ => w end.

(** One step: of a caller, who may also fill in a request that is not pending, or
    of a thread. *)
Inductive blk_step (hmem : Z -> Z) (b : blk) : blk -> Prop :=
  | bk_prepare r br :
      (forall i be, i ∈ pendq (ctxt b) -> reqs (ctxt b) !! i = Some be -> be_req be <> Some r) ->
      blk_step hmem b (b <| the_reqs ::= <[r := br]> |>)
  | bk_request r op rc bc :
      blockif_request (ctxt b) (the_reqs b) r op = Ret (rc, false, bc) -> blk_step hmem b (b <| ctxt := bc |>)
  | bk_request_signal r op rc bc ws :
      blockif_request (ctxt b) (the_reqs b) r op = Ret (rc, true, bc) -> woken (workers b) ws ->
      blk_step hmem b (b <| ctxt := bc |> <| workers := ws |>)
  | bk_cancel r rc bc :
      blockif_cancel (ctxt b) (the_reqs b) r = Ret (CancelReturns rc bc) -> blk_step hmem b (b <| ctxt := bc |>)
  | bk_close : blk_step hmem b (b <| ctxt ::= (fun c => c <| bc_closing := true |>) |> <| workers ::= map wake |>)
  | bk_dequeue t i bc :
      workers b !! t = Some Awake -> blockif_dequeue (ctxt b) t = Ret (Some i, bc) ->
      blk_step hmem b (set_worker t (Working i) (b <| ctxt := bc |>))
  | bk_wait t :
      workers b !! t = Some Awake -> blockif_dequeue (ctxt b) t = Ret (None, ctxt b) ->
      blk_step hmem b (set_worker t (if bc_closing (ctxt b) then Exited else Waiting) b)
  | bk_spurious t : workers b !! t = Some Waiting -> blk_step hmem b (set_worker t Awake b)
  | bk_proc t i io err log bc rs :
      workers b !! t = Some (Working i) ->
      blockif_proc (ctxt b) (the_reqs b) hmem io i = Ret (err, log, bc, rs) ->
      blk_step hmem b (set_worker t (Finishing i) (mkBlk bc rs (workers b)))
  | bk_complete t i bc :
      workers b !! t = Some (Finishing i) -> blockif_complete (ctxt b) (the_reqs b) i = Ret bc ->
      blk_step hmem b (set_worker t Awake (b <| ctxt := bc |>)).

(** ** Geometry *)

(** Cylinders, heads and sectors of a track. *)
Definition blockif_chs (bc : blockif_ctxt) : outcome (Z * Z * Z) :=
  if bc_sectsz bc =? 0 then Stop DivByZero
  else
    let sectors := Z.quot (bc_size bc) (bc_sectsz bc) in
    let sectors := if 65535 * 16 * 255 <? u64 sectors then 65535 * 16 * 255 else sectors in
    let '(hcyl, heads, secpt) :=
      if 65536 * 16 * 63 <=? u64 sectors then (Z.quot sectors 255, 16, 255)
      else
        let hcyl := Z.quot sectors 17 in
        let heads := u8 (Z.quot (hcyl + 1023) 1024) in
        let heads := if heads <? 4 then 4 else heads in
        let '(hcyl, heads, secpt) :=
          if (heads * 1024 <=? hcyl) || (16 <? heads) then (Z.quot sectors 31, 16, 31) else (hcyl, heads, 17) in
        if heads * 1024 <=? hcyl then (Z.quot sectors 63, 16, 63) else (hcyl, heads, secpt) in
    Ret (u16 (Z.quot hcyl heads), heads, secpt).
