(* ===== verification/BlockSpec.v ===== *)
(** * The block interface loses no request

    [src/devicemodel/hw/block_if.c]: the invariant of the three queues and the
    threads of [BlockIf.v] in every reachable state, the absence of lost
    wake-ups, the geometry, and the ranges that are discarded. *)
From S2P Require Import Prelude BlockIf.

(** ** Walking a queue *)

Lemma foreach_none bc p l :
  foreach bc p l = Ret None -> forall k, k ∈ l -> exists e, reqs bc !! k = Some e /\ p e = false.
Proof.
  induction l as [|i l IH]; cbn [foreach]; intros H k Hk; [by apply elem_of_nil in Hk|].
  unfold elem_at in H. destruct (reqs bc !! i) as [e|] eqn:He; [|done]. cbn [mbind outcome_bind] in H.
  destruct (p e) eqn:Hp; [done|]. apply elem_of_cons in Hk as [->|Hk]; [by exists e|by apply IH].
Qed.

Lemma foreach_some bc p l i :
  foreach bc p l = Ret (Some i) ->
  exists l1 l2 e, l = l1 ++ i :: l2 /\ reqs bc !! i = Some e /\ p e = true.
Proof.
  induction l as [|k l IH]; cbn [foreach]; intros H; [done|].
  unfold elem_at in H. destruct (reqs bc !! k) as [e|] eqn:He; [|done]. cbn [mbind outcome_bind] in H.
  destruct (p e) eqn:Hp.
  - injection H as ->. by exists [], l, e.
  - destruct (IH H) as (l1 & l2 & e' & -> & H1 & H2). by exists (k :: l1), l2, e'.
Qed.

Lemma foreach_returns bc p l : (forall k, k ∈ l -> is_Some (reqs bc !! k)) -> exists o, foreach bc p l = Ret o.
Proof.
  induction l as [|i l IH]; cbn [foreach]; intros H; [by eexists|].
  destruct (H i) as [e He]; [by left|]. unfold elem_at. rewrite He. cbn [mbind outcome_bind].
  destruct (p e); [by eexists|]. apply IH. intros k Hk. apply H. by right.
Qed.

(** An element but for its status. *)
Definition same_but_status (e e' : blockif_elem) : Prop :=
  be_req e' = be_req e /\ be_op e' = be_op e /\ be_block e' = be_block e.

Lemma same_trans e1 e2 e3 : same_but_status e1 e2 -> same_but_status e2 e3 -> same_but_status e1 e3.
Proof. unfold same_but_status. intros (? & ? & ?) (? & ? & ?). split_and!; congruence. Qed.

Lemma upd_lookup i f bc k :
  reqs (upd_elem i f bc) !! k = if decide (k = i) then f <$> reqs bc !! k else reqs bc !! k.
Proof.
  change (reqs (upd_elem i f bc)) with (alter f i (reqs bc)). destruct (decide (k = i)) as [->|H].
  - apply list_lookup_alter_eq.
  - by apply list_lookup_alter_ne.
Qed.

(** *** The requests behind a queue *)

(** The element [k] and its request. *)
Definition holds (bc : blockif_ctxt) (rs : breqs) (k : nat) (e : blockif_elem) (br : blockif_req) : Prop :=
  reqs bc !! k = Some e /\ exists r, be_req e = Some r /\ rs !! r = Some br.

(** [unblock] changes statuses in [l] only, to pending, and of exactly those
    that waited for [block]. *)
Lemma unblock_run rs block l : forall bc,
  (forall k, k ∈ l -> exists e br, holds bc rs k e br) ->
  exists es, unblock rs block l bc = Ret (bc <| reqs := es |>) /\ length es = length (reqs bc) /\
    (forall k e, reqs bc !! k = Some e -> exists e', es !! k = Some e' /\ same_but_status e e' /\
       (k ∉ l -> e' = e) /\ (e' = e \/ be_status e' = BST_PEND) /\
       (forall br, k ∈ l -> holds bc rs k e br -> br_offset br = block -> be_status e' = BST_PEND)).
Proof.
  induction l as [|i l IH]; intros bc Hl; cbn [unblock].
  { exists (reqs bc). split_and!; [by destruct bc|done|]. intros k e He. exists e.
    split_and!; [done..|by left|]. intros br Hk. by apply elem_of_nil in Hk. }
  destruct (Hl i) as (e & br & He & r & Hr & Hbr); [by left|]. unfold elem_at, req_at. rewrite He.
  cbn [mbind outcome_bind]. rewrite Hr, Hbr. cbn [mbind outcome_bind].
  set (bc1 := if br_offset br =? block then upd_elem i (fun be => be <| be_status := BST_PEND |>) bc else bc).
  assert (H1 : forall k e, reqs bc !! k = Some e -> exists e1, reqs bc1 !! k = Some e1 /\ same_but_status e e1 /\
    (k <> i -> e1 = e) /\ (e1 = e \/ be_status e1 = BST_PEND) /\
    (k = i -> br_offset br = block -> be_status e1 = BST_PEND)).
  { intros k e0 H0. unfold bc1. destruct (Z.eqb_spec (br_offset br) block) as [E|E].
    - rewrite upd_lookup, H0. destruct (decide (k = i)) as [->|]; eexists; (split; [reflexivity|]);
        split_and!; try done; [by right|by left].
    - exists e0. split_and!; try done. by left. }
  assert (Hback : forall k e1 br', holds bc1 rs k e1 br' -> exists e0, holds bc rs k e0 br' /\ same_but_status e0 e1).
  { intros k e1 br' (Hk & r' & Hr' & Hb').
    destruct (reqs bc !! k) as [e0|] eqn:E0.
    2:{ exfalso. unfold bc1 in Hk. destruct (_ =? block); [rewrite upd_lookup in Hk; destruct (decide (k = i))|];
        rewrite E0 in Hk; done. }
    destruct (H1 k e0 E0) as (e1' & E1 & Hs & _). rewrite Hk in E1. injection E1 as <-. exists e0.
    split; [|done]. split; [done|]. exists r'. split; [|done]. destruct Hs as [<- _]. done. }
  destruct (IH bc1) as (es & E & Hlen & Hes).
  { intros k Hk. destruct (Hl k) as (e0 & br' & H0 & r' & Hr' & Hb'); [by right|].
    destruct (H1 k e0 H0) as (e1 & E1 & Hs & _). exists e1, br'. split; [done|]. exists r'. split; [|done].
    destruct Hs as [-> _]. done. }
  exists es. split_and!.
  - unfold bc1 in *. destruct (_ =? block); exact E.
  - rewrite Hlen. unfold bc1. destruct (_ =? block); [apply length_alter|done].
  - intros k e0 H0. destruct (H1 k e0 H0) as (e1 & E1 & Hs1 & Hk1 & Ho1 & Hp1).
    destruct (Hes k e1 E1) as (e' & E' & Hs & Hk & Ho & Hp). exists e'. split; [done|]. split_and!.
    + by eapply same_trans.
    + intros [Hni Hnl]%not_elem_of_cons. by rewrite Hk, Hk1.
    + destruct Ho as [->|]; [done|by right].
    + intros br' Hin Hh Hoff. destruct Ho as [->|]; [|done].
      destruct (decide (k ∈ l)) as [Hkl|Hkl].
      * apply (Hp br'); [done| |done]. destruct Hh as (_ & r' & Hr' & Hb'). split; [done|]. exists r'.
        split; [|done]. destruct Hs1 as [-> _]. done.
      * apply elem_of_cons in Hin as [->|]; [|done]. apply Hp1; [done|]. destruct Hh as (He0 & r' & Hr' & Hb').
        rewrite He in He0. injection He0 as <-. rewrite Hr in Hr'. injection Hr' as <-. congruence.
Qed.

(** ** The invariant of the queues

    The 72 elements are spread over the three queues; what the queues say of an
    element agrees with its status; and what is blocked waits for an element
    before it in the queue, or being carried out. *)
Record queues_ok (bc : blockif_ctxt) (rs : breqs) : Prop := {
  qo_len : length (reqs bc) = BLOCKIF_MAXREQ;
  qo_part : freeq bc ++ pendq bc ++ busyq bc ≡ₚ seq 0 BLOCKIF_MAXREQ;
  qo_free : forall i, i ∈ freeq bc -> exists e, reqs bc !! i = Some e /\ be_status e = BST_FREE /\ be_req e = None;
  qo_pend : forall i, i ∈ pendq bc -> exists e br, holds bc rs i e br /\ (be_status e = BST_PEND \/ be_status e = BST_BLOCK);
  qo_busy : forall i, i ∈ busyq bc -> exists e br, holds bc rs i e br /\ (be_status e = BST_BUSY \/ be_status e = BST_DONE);
  qo_blocked : forall l1 i l2 e br, pendq bc = l1 ++ i :: l2 -> holds bc rs i e br -> be_status e = BST_BLOCK ->
    exists j f, (j ∈ l1 \/ j ∈ busyq bc) /\ reqs bc !! j = Some f /\ be_block f = br_offset br
}.

Section Queues.
Context (bc : blockif_ctxt) (rs : breqs) (Hq : queues_ok bc rs).

Lemma queues_nodup : NoDup (freeq bc ++ pendq bc ++ busyq bc).
Proof. rewrite (qo_part _ _ Hq). apply NoDup_seq. Qed.

Lemma free_disjoint i : i ∈ freeq bc -> (i ∉ pendq bc) /\ (i ∉ busyq bc).
Proof. intros Hi. destruct (proj1 (NoDup_app _ _) queues_nodup) as (_ & H & _). specialize (H i Hi). set_solver. Qed.

Lemma pend_nodup : NoDup (pendq bc).
Proof. destruct (proj1 (NoDup_app _ _) queues_nodup) as (_ & _ & H). by apply NoDup_app in H as (? & _). Qed.
Lemma busy_nodup : NoDup (busyq bc).
Proof. destruct (proj1 (NoDup_app _ _) queues_nodup) as (_ & _ & H). by apply NoDup_app in H as (_ & _ & ?). Qed.
Lemma free_nodup : NoDup (freeq bc).
Proof. by destruct (proj1 (NoDup_app _ _) queues_nodup) as (? & _ & _). Qed.

Lemma pend_disjoint i : i ∈ pendq bc -> (i ∉ freeq bc) /\ (i ∉ busyq bc).
Proof.
  intros Hi. split; [intros Hf; by apply free_disjoint in Hf as [? _]|].
  destruct (proj1 (NoDup_app _ _) queues_nodup) as (_ & _ & H). apply NoDup_app in H as (_ & H & _). by apply H.
Qed.

Lemma busy_disjoint i : i ∈ busyq bc -> (i ∉ freeq bc) /\ (i ∉ pendq bc).
Proof.
  intros Hi. split; [intros Hf; by apply free_disjoint in Hf as [_ ?]|].
  intros Hp. by apply pend_disjoint in Hp as [_ ?].
Qed.

Lemma queue_elem i : i ∈ pendq bc ++ busyq bc -> is_Some (reqs bc !! i).
Proof.
  intros [Hi|Hi]%elem_of_app.
  - destruct (qo_pend _ _ Hq i Hi) as (e & br & [He _] & _). by eexists.
  - destruct (qo_busy _ _ Hq i Hi) as (e & br & [He _] & _). by eexists.
Qed.

(** What is first of the pending can be taken when nothing is being done. *)
Lemma head_pending : pendq bc <> [] -> busyq bc = [] ->
  exists i l e, pendq bc = i :: l /\ reqs bc !! i = Some e /\ be_status e = BST_PEND.
Proof.
  intros Hp Hb. destruct (pendq bc) as [|i l] eqn:E; [done|]. exists i, l.
  destruct (qo_pend _ _ Hq i) as (e & br & Hh & Hs); [rewrite E; by left|]. exists e.
  split; [done|]. split; [apply Hh|]. destruct Hs as [|Hs]; [done|].
  destruct (qo_blocked _ _ Hq [] i l e br E Hh Hs) as (j & f & [Hj|Hj] & _).
  - by apply elem_of_nil in Hj.
  - rewrite Hb in Hj. by apply elem_of_nil in Hj.
Qed.

Lemma dequeue_run t :
  exists o bc', blockif_dequeue bc t = Ret (o, bc') /\
    match o with
    | None => bc' = bc /\ forall k e, k ∈ pendq bc -> reqs bc !! k = Some e -> be_status e <> BST_PEND
    | Some i => exists l1 l2 e, pendq bc = l1 ++ i :: l2 /\ reqs bc !! i = Some e /\ be_status e = BST_PEND
    end.
Proof.
  unfold blockif_dequeue.
  destruct (foreach_returns bc (fun be => bool_decide (be_status be = BST_PEND)) (pendq bc)) as [[i|] E].
  { intros k Hk. apply queue_elem. by apply elem_of_app; left. }
  - rewrite E. cbn [mbind outcome_bind]. eexists _, _. split; [reflexivity|].
    apply foreach_some in E as (l1 & l2 & e & -> & He & Hp%bool_decide_eq_true). by exists l1, l2, e.
  - rewrite E. cbn [mbind outcome_bind]. eexists _, _. split; [reflexivity|]. split; [done|].
    intros k e Hk He. destruct (foreach_none _ _ _ E k Hk) as (e' & He' & Hp%bool_decide_eq_false). congruence.
Qed.
End Queues.

(** ** What each operation does to the queues *)

(** The shape of an element put into [pendq]. *)
Definition enqueued (bc : blockif_ctxt) (rs : breqs) (r : nat) (i : nat) (st : blockstat) (bc' : blockif_ctxt) : Prop :=
  exists rest br e, freeq bc = i :: rest /\ rs !! r = Some br /\
    reqs bc' !! i = Some e /\ be_req e = Some r /\ be_status e = st /\
    (forall k, k <> i -> reqs bc' !! k = reqs bc !! k) /\ length (reqs bc') = length (reqs bc) /\
    freeq bc' = rest /\ pendq bc' = pendq bc ++ [i] /\ busyq bc' = busyq bc /\ bc_closing bc' = bc_closing bc /\
    (st = BST_PEND \/ st = BST_BLOCK /\ exists j f, j ∈ pendq bc ++ busyq bc /\ j <> i /\
       reqs bc' !! j = Some f /\ be_block f = br_offset br).

Lemma enqueue_shape bc rs r op sig bc' :
  queues_ok bc rs -> freeq bc <> [] -> blockif_enqueue bc rs r op = Ret (sig, bc') ->
  exists i st, enqueued bc rs r i st bc' /\ sig = bool_decide (st = BST_PEND).
Proof.
  intros Hq Hne E. unfold blockif_enqueue in E. destruct (freeq bc) as [|i rest] eqn:Hf; [done|].
  assert (Hi : i ∈ freeq bc) by (rewrite Hf; by left).
  destruct (qo_free _ _ Hq i Hi) as (e0 & He0 & Hs0 & _). destruct (free_disjoint _ _ Hq i Hi) as [Hip Hib].
  unfold elem_at at 1 in E. rewrite He0 in E. cbn [mbind outcome_bind] in E.
  rewrite bool_decide_eq_true_2 in E by done. cbn [negb] in E.
  unfold req_at in E. destruct (rs !! r) as [br|] eqn:Hr; [|done]. cbn [mbind outcome_bind] in E.
  destruct (match op with BOP_FLUSH => _ | _ => _ end) as [off|]; [|done]. cbn [mbind outcome_bind] in E.
  set (bc1 := upd_elem i _ _) in E.
  assert (H1 : forall k, k <> i -> reqs bc1 !! k = reqs bc !! k).
  { intros k Hk. unfold bc1. rewrite upd_lookup. by destruct (decide (k = i)). }
  destruct (foreach bc1 _ (pendq bc1)) as [o1|] eqn:E1; [|done]. cbn [mbind outcome_bind] in E.
  set (o2 := match o1 with Some _ => _ | None => _ end) in E.
  destruct o2 as [tbe|] eqn:E2; [|done]. cbn [mbind outcome_bind] in E. injection E as <- <-.
  set (st := match tbe with None => BST_PEND | Some _ => BST_BLOCK end). exists i, st. split; [|done].
  set (bc2 := upd_elem i _ bc1).
  assert (H2 : forall k, k <> i -> reqs bc2 !! k = reqs bc1 !! k).
  { intros k Hk. unfold bc2. rewrite upd_lookup. by destruct (decide (k = i)). }
  assert (Hi2 : reqs bc2 !! i = Some (e0 <| be_req := Some r |> <| be_op := op |> <| be_block := off |>
                                         <| be_status := st |>)).
  { unfold bc2. rewrite upd_lookup, decide_True by done. unfold bc1. rewrite upd_lookup, decide_True by done.
    cbn. by rewrite He0. }
  eexists rest, br, _. split_and!; [done|done|exact Hi2|done|done| | |done..|].
  - intros k Hk. rewrite <- H1, <- H2 by done. done.
  - change (length (reqs bc2) = length (reqs bc)). unfold bc2, bc1, upd_elem. cbn. by rewrite !length_alter.
  - unfold st. destruct tbe as [j|]; [right; split; [done|]|by left].
    assert (Hj : exists f, j ∈ pendq bc ++ busyq bc /\ reqs bc1 !! j = Some f /\ be_block f = br_offset br).
    { destruct o1 as [j1|].
      - injection E2 as ->. apply foreach_some in E1 as (l1 & l2 & f & Hl & Hf1 & Hb%Z.eqb_eq). exists f.
        split; [|done]. apply elem_of_app; left. change (pendq bc) with (pendq bc1). rewrite Hl. apply elem_of_app; right; by left.
      - unfold o2 in E2. apply foreach_some in E2 as (l1 & l2 & f & Hl & Hf1 & Hb%Z.eqb_eq). exists f.
        split; [|done]. apply elem_of_app; right. change (busyq bc) with (busyq bc1). rewrite Hl. apply elem_of_app; right; by left. }
    destruct Hj as (f & Hin & Hf1 & Hb). assert (j <> i) by (intros ->; by apply elem_of_app in Hin as [?|?]). exists j, f.
    split_and!; try done. by rewrite <- Hf1, <- H2.
Qed.

(** Whatever still holds its request still does when only other elements, or the
    requests of no queued element, change. *)
Lemma holds_ext bc bc' rs k e br :
  reqs bc' !! k = reqs bc !! k -> holds bc rs k e br <-> holds bc' rs k e br.
Proof. intros E. unfold holds. by rewrite E. Qed.

Lemma snoc_split {A} (l l1 l2 : list A) x y :
  l ++ [x] = l1 ++ y :: l2 -> (l1 = l /\ y = x /\ l2 = []) \/ exists l2', l = l1 ++ y :: l2' /\ l2 = l2' ++ [x].
Proof.
  intros H. destruct l2 as [|z l2 _] using rev_ind.
  - left. apply app_inj_tail in H as [-> ->]. done.
  - right. exists l2. rewrite app_comm_cons, app_assoc in H. apply app_inj_tail in H as [-> ->]. done.
Qed.

Lemma unlink_split i l : forall l1 k l2, unlink i l = l1 ++ k :: l2 ->
  exists m1 m2, l = m1 ++ k :: m2 /\ forall j, j ∈ m1 -> j = i \/ j ∈ l1.
Proof.
  induction l as [|x l IH]; intros l1 k l2 H; [by destruct l1|]. unfold unlink in H.
  destruct (decide (x = i)) as [->|Hx].
  - rewrite filter_cons_False in H by (intros Hn; by apply Hn). destruct (IH _ _ _ H) as (m1 & m2 & -> & Hm).
    exists (i :: m1), m2. split; [done|]. intros j [->|Hj]%elem_of_cons; auto.
  - rewrite filter_cons_True in H by done. destruct l1 as [|y l1]; injection H as -> H.
    + exists [], l. split; [done|]. intros j Hj. by apply elem_of_nil in Hj.
    + destruct (IH _ _ _ H) as (m1 & m2 & -> & Hm). exists (y :: m1), m2. split; [done|].
      intros j [->|Hj]%elem_of_cons; [right; by left|]. destruct (Hm j Hj); [by left|right; by right].
Qed.

Lemma enqueued_ok bc rs r i st bc' : queues_ok bc rs -> enqueued bc rs r i st bc' -> queues_ok bc' rs.
Proof.
  intros Hq (rest & br & e & Hf & Hr & He & Her & Hes & Hk & Hlen & Hf' & Hp' & Hb' & _ & Hst).
  assert (Hi : i ∈ freeq bc) by (rewrite Hf; by left). destruct (free_disjoint _ _ Hq i Hi) as [Hip Hib].
  assert (Hrest : i ∉ rest) by (pose proof (free_nodup _ _ Hq) as Hn; rewrite Hf in Hn; by apply NoDup_cons in Hn as [? _]).
  assert (Hhi : holds bc' rs i e br) by (split; [done|by exists r]).
  split.
  - by rewrite Hlen, (qo_len _ _ Hq).
  - rewrite <- (qo_part _ _ Hq), Hf, Hf', Hp', Hb'. cbn. rewrite <- app_assoc. cbn. by rewrite !Permutation_middle.
  - intros k Hkf. rewrite Hf' in Hkf. rewrite Hk by (intros ->; done). apply (qo_free _ _ Hq). rewrite Hf. by right.
  - intros k Hkp. rewrite Hp' in Hkp. apply elem_of_app in Hkp as [Hkp| ->%list_elem_of_singleton].
    + destruct (qo_pend _ _ Hq k Hkp) as (e' & br' & Hh & Hs). exists e', br'. split; [|done].
      apply (holds_ext bc); [|done]. apply Hk. by intros ->.
    + exists e, br. split; [done|]. rewrite Hes. destruct Hst as [|[? _]]; auto.
  - intros k Hkb. rewrite Hb' in Hkb. destruct (qo_busy _ _ Hq k Hkb) as (e' & br' & Hh & Hs). exists e', br'.
    split; [|done]. apply (holds_ext bc); [|done]. apply Hk. by intros ->.
  - intros l1 k l2 e' br' Hl Hh Hs. rewrite Hp' in Hl. rewrite Hb'.
    apply snoc_split in Hl as [(-> & -> & ->)|(l2' & Hl & ->)].
    + destruct Hh as (He' & r' & Hr' & Hbr'). rewrite He in He'. injection He' as <-. rewrite Her in Hr'.
      injection Hr' as <-. rewrite Hr in Hbr'. injection Hbr' as <-.
      destruct Hst as [Hst|[_ (j & f & Hj & Hji & Hfj & Hb)]]; [congruence|].
      exists j, f. split; [by apply elem_of_app|done].
    + assert (Hkp : k ∈ pendq bc) by (rewrite Hl; apply elem_of_app; right; by left).
      apply (holds_ext bc) in Hh; [|apply Hk; by intros ->].
      destruct (qo_blocked _ _ Hq l1 k l2' e' br' Hl Hh Hs) as (j & f & Hj & Hfj & Hb). exists j, f.
      split; [done|]. split; [|done]. rewrite Hk; [done|]. intros ->.
      destruct Hj as [Hj|Hj]; [|done]. apply Hip. rewrite Hl. apply elem_of_app. by left.
Qed.

Lemma dequeue_ok bc rs t i bc' :
  queues_ok bc rs -> blockif_dequeue bc t = Ret (Some i, bc') ->
  queues_ok bc' rs /\ i ∈ pendq bc /\ (i ∉ busyq bc) /\ busyq bc' = busyq bc ++ [i] /\ bc_closing bc' = bc_closing bc /\
  (exists e, reqs bc' !! i = Some e /\ be_status e = BST_BUSY) /\ (forall k, k <> i -> reqs bc' !! k = reqs bc !! k).
Proof.
  intros Hq E. destruct (dequeue_run bc rs Hq t) as (o & bc1 & E1 & Ho). rewrite E in E1. injection E1 as <- <-.
  destruct Ho as (l1 & l2 & e & Hl & He & Hs). assert (Hi : i ∈ pendq bc) by (rewrite Hl; apply elem_of_app; right; by left).
  destruct (pend_disjoint _ _ Hq i Hi) as [Hif Hib].
  unfold blockif_dequeue in E. destruct (foreach _ _ _) as [[i'|]|]; [|done..]. cbn [mbind outcome_bind] in E.
  injection E as -> <-. set (bc1 := upd_elem i _ _).
  assert (H1 : forall k, k <> i -> reqs bc1 !! k = reqs bc !! k).
  { intros k Hk. unfold bc1. by rewrite upd_lookup, decide_False. }
  set (e1 := e <| be_status := BST_BUSY |> <| be_tid := t |>).
  assert (Hi1 : reqs bc1 !! i = Some e1) by (unfold bc1; rewrite upd_lookup, decide_True by done; cbn; by rewrite He).
  set (bc' := bc1 <| busyq ::= _ |>).
  assert (Hh : forall k e br, k <> i -> holds bc rs k e br <-> holds bc' rs k e br)
    by (intros; apply holds_ext; by apply H1).
  split_and!; try done; [|by exists e1]. split.
  - change (length (reqs bc1) = BLOCKIF_MAXREQ). unfold bc1, upd_elem. cbn. by rewrite length_alter, (qo_len _ _ Hq).
  - change (freeq bc ++ unlink i (pendq bc) ++ busyq bc ++ [i] ≡ₚ seq 0 BLOCKIF_MAXREQ).
    rewrite <- (qo_part _ _ Hq). rewrite (unlink_perm i (pendq bc)) at 2 by (done || apply (pend_nodup _ _ Hq)).
    rewrite <- Permutation_cons_append. cbn. by rewrite <- Permutation_middle.
  - intros k Hk. change (k ∈ freeq bc) in Hk. change (reqs bc') with (reqs bc1). rewrite H1 by (intros ->; done).
    by apply (qo_free _ _ Hq).
  - intros k Hk. change (k ∈ unlink i (pendq bc)) in Hk. apply elem_unlink in Hk as [Hne Hk].
    destruct (qo_pend _ _ Hq k Hk) as (e' & br & H & Hst). exists e', br. split; [by apply Hh|done].
  - intros k Hk. change (k ∈ busyq bc ++ [i]) in Hk. apply elem_of_app in Hk as [Hk| ->%list_elem_of_singleton].
    + destruct (qo_busy _ _ Hq k Hk) as (e' & br & H & Hst). exists e', br. split; [|done].
      apply Hh; [by intros ->|done].
    + destruct (qo_pend _ _ Hq i Hi) as (e' & br & (He' & r & Hr & Hbr) & _). rewrite He in He'. injection He' as <-.
      exists e1, br. split; [|by left]. split; [done|]. by exists r.
  - intros m1 k m2 e' br Hm Hk Hst. change (unlink i (pendq bc) = m1 ++ k :: m2) in Hm.
    assert (Hne : k <> i).
    { intros ->. assert (Hin : i ∈ unlink i (pendq bc)) by (rewrite Hm; apply elem_of_app; right; by left).
      by apply elem_unlink in Hin as [? _]. }
    apply unlink_split in Hm as (n1 & n2 & Hn & Hsub). apply Hh in Hk; [|done].
    destruct (qo_blocked _ _ Hq n1 k n2 e' br Hn Hk Hst) as (j & f & Hj & Hfj & Hb).
    destruct (decide (j = i)) as [->|Hji].
    + exists i, e1. split; [right; apply elem_of_app; right; by left|]. split; [done|].
      rewrite He in Hfj. injection Hfj as <-. done.
    + exists j, f. split; [|split; [by rewrite <- Hfj, <- H1|done]].
      destruct Hj as [Hj|Hj]; [|right; by apply elem_of_app; left]. destruct (Hsub j Hj); [done|by left].
Qed.

(** Taking an element out of the queue it is in. *)
Definition taken_out (i : nat) (bc : blockif_ctxt) : blockif_ctxt :=
  bc <| pendq ::= unlink i |> <| busyq ::= unlink i |>.

Lemma taken_pend i bc : i ∉ busyq bc -> bc <| pendq ::= unlink i |> = taken_out i bc.
Proof.
  intros Hb%unlink_notin. change (taken_out i bc) with (bc <| pendq ::= unlink i |> <| busyq := unlink i (busyq bc) |>).
  rewrite Hb. by destruct bc.
Qed.
Lemma taken_busy i bc : i ∉ pendq bc -> bc <| busyq ::= unlink i |> = taken_out i bc.
Proof.
  intros Hb%unlink_notin. change (taken_out i bc) with (bc <| busyq ::= unlink i |> <| pendq := unlink i (pendq bc) |>).
  rewrite Hb. by destruct bc.
Qed.

Lemma complete_run bc rs i :
  queues_ok bc rs -> i ∈ pendq bc ++ busyq bc ->
  exists e es, reqs bc !! i = Some e /\
    unblock rs (be_block e) (unlink i (pendq bc)) (taken_out i bc) = Ret (taken_out i bc <| reqs := es |>) /\
    blockif_complete bc rs i =
      Ret (upd_elem i (fun be => be <| be_tid := 0%nat |> <| be_status := BST_FREE |> <| be_req := None |>)
             (taken_out i bc <| reqs := es |>) <| freeq ::= fun l => l ++ [i] |>).
Proof.
  intros Hq Hi.
  assert (Hall : forall k, k ∈ unlink i (pendq bc) -> exists e br, holds (taken_out i bc) rs k e br).
  { intros k [_ Hk]%elem_unlink. destruct (qo_pend _ _ Hq k Hk) as (e & br & H & _). by exists e, br. }
  destruct (queue_elem _ _ Hq i Hi) as [e He].
  destruct (unblock_run rs (be_block e) (unlink i (pendq bc)) (taken_out i bc) Hall) as (es & E & _).
  exists e, es. split_and!; [done|exact E|].
  unfold blockif_complete, elem_at. rewrite He. cbn [mbind outcome_bind].
  assert (Hbc : match be_status e with
                | BST_DONE | BST_BUSY => bc <| busyq ::= unlink i |>
                | _ => bc <| pendq ::= unlink i |>
                end = taken_out i bc).
  { apply elem_of_app in Hi as [Hi|Hi].
    - destruct (pend_disjoint _ _ Hq i Hi) as [_ Hb]. destruct (qo_pend _ _ Hq i Hi) as (e' & br & [He' _] & Hs).
      rewrite He in He'. injection He' as <-. by destruct Hs as [-> | ->]; apply taken_pend.
    - destruct (busy_disjoint _ _ Hq i Hi) as [_ Hp]. destruct (qo_busy _ _ Hq i Hi) as (e' & br & [He' _] & Hs).
      rewrite He in He'. injection He' as <-. by destruct Hs as [-> | ->]; apply taken_busy. }
  rewrite Hbc. change (pendq (taken_out i bc)) with (unlink i (pendq bc)). rewrite E. reflexivity.
Qed.

Lemma complete_ok bc rs i :
  queues_ok bc rs -> i ∈ pendq bc ++ busyq bc ->
  exists bc', blockif_complete bc rs i = Ret bc' /\ queues_ok bc' rs /\
    busyq bc' = unlink i (busyq bc) /\ bc_closing bc' = bc_closing bc /\
    (forall k, k ∈ busyq bc -> k <> i -> reqs bc' !! k = reqs bc !! k).
Proof.
  intros Hq Hi. destruct (complete_run bc rs i Hq Hi) as (e & es & He & E & ->). eexists. split; [reflexivity|].
  set (bc' := upd_elem i _ _ <| freeq ::= _ |>).
  assert (Hall : forall k, k ∈ unlink i (pendq bc) -> exists e br, holds (taken_out i bc) rs k e br).
  { intros k [_ Hk]%elem_unlink. destruct (qo_pend _ _ Hq k Hk) as (e' & br & H & _). by exists e', br. }
  destruct (unblock_run rs (be_block e) (unlink i (pendq bc)) (taken_out i bc) Hall) as (es' & E' & Hlen & Hes).
  assert (es' = es) as ->.
  { rewrite E in E'. injection E' as E'. symmetry in E'. exact E'. }
  assert (Hne : forall k, k <> i -> reqs bc' !! k = es !! k).
  { intros k Hk. change (reqs bc') with (alter (fun be => be <| be_tid := 0%nat |> <| be_status := BST_FREE |>
      <| be_req := None |>) i es). by apply list_lookup_alter_ne. }
  assert (Hkeep : forall k e', reqs bc !! k = Some e' -> k ∉ unlink i (pendq bc) -> k <> i -> reqs bc' !! k = Some e').
  { intros k e' Hk Hn Hki. rewrite Hne by done. destruct (Hes k e' Hk) as (e'' & H1 & _ & H2 & _). by rewrite H1, H2. }
  (* the queued elements that stay, and their requests *)
  assert (Hstay : forall k e' br, k <> i -> holds bc rs k e' br -> exists e'', holds bc' rs k e'' br /\
    same_but_status e' e'' /\ (e'' = e' \/ be_status e'' = BST_PEND) /\
    (k ∈ pendq bc -> br_offset br = be_block e -> be_status e'' = BST_PEND)).
  { intros k e' br Hki (Hk & r & Hr & Hbr). destruct (Hes k e' Hk) as (e'' & H1 & Hs & _ & Ho & Hp). exists e''.
    split_and!; [|done|done|].
    - split; [by rewrite Hne|]. exists r. destruct Hs as [-> _]. done.
    - intros Hin Hoff. apply (Hp br); [by apply elem_unlink| |done]. split; [done|]. by exists r. }
  assert (Hback : forall k e'' br, k <> i -> k ∈ pendq bc ++ busyq bc -> holds bc' rs k e'' br ->
      exists e', holds bc rs k e' br /\ same_but_status e' e'' /\ (e'' = e' \/ be_status e'' = BST_PEND) /\
        (k ∈ pendq bc -> br_offset br = be_block e -> be_status e'' = BST_PEND)).
  { intros k e'' br Hki Hin Hh. destruct (queue_elem _ _ Hq k Hin) as [e' He'].
    assert (H0 : exists br', holds bc rs k e' br').
    { apply elem_of_app in Hin as [Hin|Hin];
        [destruct (qo_pend _ _ Hq k Hin) as (e0 & br0 & H & _)|destruct (qo_busy _ _ Hq k Hin) as (e0 & br0 & H & _)];
        exists br0; destruct H as [H Hr]; rewrite He' in H; injection H as <-; by split. }
    destruct H0 as [br' Hbr']. destruct (Hstay k e' br' Hki Hbr') as (e3 & H3 & Hs & Ho & Hp).
    destruct Hh as (Hk & r & Hr & Hbr), H3 as (Hk3 & r3 & Hr3 & Hbr3). rewrite Hk in Hk3. injection Hk3 as <-.
    rewrite Hr in Hr3. injection Hr3 as <-. rewrite Hbr in Hbr3. injection Hbr3 as <-. by exists e'. }
  assert (Hpart : freeq bc ++ [i] ++ unlink i (pendq bc) ++ unlink i (busyq bc) ≡ₚ seq 0 BLOCKIF_MAXREQ).
  { rewrite <- (qo_part _ _ Hq). apply Permutation_app_head. apply elem_of_app in Hi as [Hi|Hi].
    - rewrite (unlink_notin i (busyq bc)) by (by apply (pend_disjoint _ _ Hq)).
      rewrite (unlink_perm i (pendq bc)) at 2 by (done || apply (pend_nodup _ _ Hq)). done.
    - rewrite (unlink_notin i (pendq bc)) by (by apply (busy_disjoint _ _ Hq)).
      cbn [app]. etrans; [apply Permutation_middle|]. apply Permutation_app_head. symmetry.
      apply unlink_perm; [apply (busy_nodup _ _ Hq)|done]. }
  split_and!; [|done|done|].
  2:{ intros k Hk Hki. destruct (qo_busy _ _ Hq k Hk) as (e' & br & [He' _] & _). rewrite He'. apply Hkeep; [done| |done].
      intros [_ Hp]%elem_unlink. by apply (busy_disjoint _ _ Hq) in Hk as [_ ?]. }
  split.
  - change (length (alter (fun be => be <| be_tid := 0%nat |> <| be_status := BST_FREE |> <| be_req := None |>) i es) =
      BLOCKIF_MAXREQ). by rewrite length_alter, Hlen, <- (qo_len _ _ Hq).
  - change ((freeq bc ++ [i]) ++ unlink i (pendq bc) ++ unlink i (busyq bc) ≡ₚ seq 0 BLOCKIF_MAXREQ).
    by rewrite <- app_assoc.
  - intros k Hk. change (k ∈ freeq bc ++ [i]) in Hk. destruct (decide (k = i)) as [->|Hki].
    + destruct (Hes i e He) as (e'' & H1 & _).
      exists (e'' <| be_tid := 0%nat |> <| be_status := BST_FREE |> <| be_req := None |>). split; [|done].
      change (reqs bc') with (alter (fun be => be <| be_tid := 0%nat |> <| be_status := BST_FREE |>
        <| be_req := None |>) i es). by rewrite list_lookup_alter_eq, H1.
    + apply elem_of_app in Hk as [Hk| ->%list_elem_of_singleton]; [|done].
      destruct (qo_free _ _ Hq k Hk) as (e' & He' & Hst). exists e'. split; [|done]. apply Hkeep; [done| |done].
      intros [_ Hp]%elem_unlink. by apply (pend_disjoint _ _ Hq) in Hp as [? _].
  - intros k Hk. change (k ∈ unlink i (pendq bc)) in Hk. apply elem_unlink in Hk as [Hki Hk].
    destruct (qo_pend _ _ Hq k Hk) as (e' & br & H & Hst). destruct (Hstay k e' br Hki H) as (e'' & H' & _ & Ho & _).
    exists e'', br. split; [done|]. destruct Ho as [->|]; auto.
  - intros k Hk. change (k ∈ unlink i (busyq bc)) in Hk. apply elem_unlink in Hk as [Hki Hk].
    destruct (qo_busy _ _ Hq k Hk) as (e' & br & H & Hst). exists e', br. split; [|done].
    destruct H as [H Hr]. split; [|done]. apply Hkeep; [done| |done]. intros [_ Hp]%elem_unlink.
    by apply (busy_disjoint _ _ Hq) in Hk as [_ ?].
  - intros l1 k l2 e'' br Hl Hh Hst. change (unlink i (pendq bc) = l1 ++ k :: l2) in Hl.
    assert (Hk : k ∈ unlink i (pendq bc)) by (rewrite Hl; apply elem_of_app; right; by left).
    apply elem_unlink in Hk as [Hki Hk]. apply unlink_split in Hl as (m1 & m2 & Hm & Hsub).
    destruct (Hback k e'' br Hki) as (e' & Hh' & _ & Ho & Hp); [by apply elem_of_app; left|done|].
    destruct Ho as [->|Ho]; [|congruence].
    destruct (qo_blocked _ _ Hq m1 k m2 e' br Hm Hh' Hst) as (j & f & Hj & Hfj & Hb).
    assert (Hji : j <> i).
    { intros ->. rewrite He in Hfj. injection Hfj as <-. rewrite Hp in Hst by done. done. }
    destruct (Hes j f Hfj) as (f' & Hf' & (_ & _ & Hbl) & _). exists j, f'. split; [|split; [by rewrite Hne|congruence]].
    destruct Hj as [Hj|Hj]; [left|right].
    + by destruct (Hsub j Hj).
    + by apply elem_unlink.
Qed.

(** [blockif_proc] leaves the place of a request alone. *)
Lemma proc_op_offset bc hmem io op br err br' log :
  blockif_proc_op bc hmem io op br = Ret (err, br', log) -> br_offset br' = br_offset br.
Proof.
  unfold blockif_proc_op, blockif_process_discard, mbind, outcome_bind. intros H.
  destruct op; repeat case_match; simplify_eq; done.
Qed.

Lemma queues_ok_upd bc rs i f rs' :
  queues_ok bc rs -> i ∈ busyq bc ->
  (forall e, be_req (f e) = be_req e /\ be_block (f e) = be_block e /\
     (be_status (f e) = BST_BUSY \/ be_status (f e) = BST_DONE)) ->
  (forall r br, rs !! r = Some br -> exists br', rs' !! r = Some br' /\ br_offset br' = br_offset br) ->
  (forall r br', rs' !! r = Some br' -> is_Some (rs !! r)) ->
  queues_ok (upd_elem i f bc) rs'.
Proof.
  intros Hq Hi Hf Hrs Hback. destruct (busy_disjoint _ _ Hq i Hi) as [Hif Hip].
  assert (Hne : forall k, k <> i -> reqs (upd_elem i f bc) !! k = reqs bc !! k)
    by (intros k Hk; by rewrite upd_lookup, decide_False).
  assert (Hh : forall k e br, k <> i -> holds bc rs k e br -> exists br', holds (upd_elem i f bc) rs' k e br' /\
    br_offset br' = br_offset br).
  { intros k e br Hk (He & r & Hr & Hbr). destruct (Hrs r br Hbr) as (br' & H & Ho). exists br'. split; [|done].
    split; [by rewrite Hne|]. by exists r. }
  split; try apply Hq.
  - change (length (alter f i (reqs bc)) = BLOCKIF_MAXREQ). by rewrite length_alter, (qo_len _ _ Hq).
  - intros k Hk. change (k ∈ freeq bc) in Hk. rewrite Hne by (intros ->; done). by apply (qo_free _ _ Hq).
  - intros k Hk. change (k ∈ pendq bc) in Hk. destruct (qo_pend _ _ Hq k Hk) as (e & br & H & Hs).
    destruct (Hh k e br) as (br' & H' & _); [by intros ->|done|]. by exists e, br'.
  - intros k Hk. change (k ∈ busyq bc) in Hk. destruct (qo_busy _ _ Hq k Hk) as (e & br & H & Hs).
    destruct (decide (k = i)) as [->|Hki].
    + destruct H as (He & r & Hr & Hbr), (Hf e) as (F1 & _ & F3). destruct (Hrs r br Hbr) as (br' & H & _).
      exists (f e), br'. split; [|done]. split; [by rewrite upd_lookup, decide_True, He by done|]. exists r. by rewrite F1.
    + destruct (Hh k e br Hki H) as (br' & H' & _). by exists e, br'.
  - intros l1 k l2 e br' Hl (He & r & Hr & Hbr') Hst. change (pendq bc = l1 ++ k :: l2) in Hl.
    assert (Hk : k ∈ pendq bc) by (rewrite Hl; apply elem_of_app; right; by left).
    assert (Hki : k <> i) by (by intros ->). rewrite Hne in He by done.
    destruct (Hback r br' Hbr') as [br Hbr]. destruct (Hrs r br Hbr) as (br2 & H2 & Ho). rewrite Hbr' in H2.
    injection H2 as <-. destruct (qo_blocked _ _ Hq l1 k l2 e br Hl) as (j & g & Hj & Hg & Hb); [|done|].
    { split; [done|]. by exists r. }
    destruct (decide (j = i)) as [->|Hji].
    + exists i, (f g). split; [done|]. split; [by rewrite upd_lookup, decide_True, Hg by done|].
      destruct (Hf g) as (_ & -> & _). congruence.
    + exists j, g. split; [done|]. split; [by rewrite Hne|congruence].
Qed.

Lemma proc_ok bc rs hmem io i err log bc' rs' :
  queues_ok bc rs -> i ∈ busyq bc -> blockif_proc bc rs hmem io i = Ret (err, log, bc', rs') ->
  queues_ok bc' rs' /\ busyq bc' = busyq bc /\ pendq bc' = pendq bc /\ bc_closing bc' = bc_closing bc /\
  (exists e, reqs bc' !! i = Some e /\ be_status e = BST_DONE) /\ (forall k, k <> i -> reqs bc' !! k = reqs bc !! k).
Proof.
  intros Hq Hi E. destruct (qo_busy _ _ Hq i Hi) as (e & br & (He & r & Hr & Hbr) & _).
  unfold blockif_proc, elem_at, req_at in E. rewrite He in E. cbn [mbind outcome_bind] in E.
  rewrite Hr, Hbr in E. cbn [mbind outcome_bind] in E.
  destruct (blockif_proc_op _ _ _ _ _) as [[[err1 br1] log1]|] eqn:Eo; [|done]. cbn [mbind outcome_bind] in E.
  injection E as <- <- <- <-. apply proc_op_offset in Eo. split_and!; try done.
  - apply (queues_ok_upd bc rs); [done|done| | |].
    + intros e'. split_and!; [done|done|by right].
    + intros r' br' H. destruct (decide (r' = r)) as [->|].
      * exists br1. split; [apply lookup_insert_eq|congruence].
      * exists br'. split; [by rewrite lookup_insert_ne|done].
    + intros r' br' H. destruct (decide (r' = r)) as [->|]; [by exists br|].
      rewrite lookup_insert_ne in H by done. by exists br'.
  - eexists. rewrite upd_lookup, decide_True, He by done. done.
  - intros k Hk. by rewrite upd_lookup, decide_False.
Qed.

(** ** The invariant of the threads *)

Definition active (w : worker) : Prop := w <> Waiting /\ w <> Exited.
Definition in_hand (w : worker) (i : nat) : Prop := w = Working i \/ w = Finishing i.

Record blk_inv (b : blk) : Prop := {
  bi_q : queues_ok (ctxt b) (the_reqs b);
  bi_len : length (workers b) = BLOCKIF_NUMTHR;
  bi_hands : forall t w i, workers b !! t = Some w -> in_hand w i ->
    i ∈ busyq (ctxt b) /\ exists e, reqs (ctxt b) !! i = Some e /\
      be_status e = match w with Working _ => BST_BUSY | _ => BST_DONE end;
  bi_held : forall i, i ∈ busyq (ctxt b) -> exists t w, workers b !! t = Some w /\ in_hand w i;
  bi_unique : forall t1 t2 w1 w2 i, workers b !! t1 = Some w1 -> workers b !! t2 = Some w2 ->
    in_hand w1 i -> in_hand w2 i -> t1 = t2;
  bi_wake : forall i e, i ∈ pendq (ctxt b) -> reqs (ctxt b) !! i = Some e -> be_status e = BST_PEND ->
    bc_closing (ctxt b) = false -> exists t w, workers b !! t = Some w /\ active w;
  bi_open : bc_closing (ctxt b) = false -> Exited ∉ workers b
}.

(** While anything is queued some thread is at work or will look. *)
Lemma pending_active b :
  blk_inv b -> pendq (ctxt b) <> [] -> bc_closing (ctxt b) = false ->
  exists t w, workers b !! t = Some w /\ active w.
Proof.
  intros Hb Hp Hc. destruct (busyq (ctxt b)) as [|i l] eqn:E.
  - destruct (head_pending _ _ (bi_q _ Hb) Hp E) as (i & l & e & Hl & He & Hs).
    apply (bi_wake _ Hb i e); try done. rewrite Hl. by left.
  - destruct (bi_held _ Hb i) as (t & w & Hw & Hh); [rewrite E; by left|]. exists t, w. split; [done|].
    destruct Hh as [-> | ->]; by split.
Qed.

(** The part about elements in hand, when [busyq] and what is in hand stay. *)
Definition hands_ok (bc : blockif_ctxt) (ws : list worker) : Prop :=
  (forall t w i, ws !! t = Some w -> in_hand w i ->
     i ∈ busyq bc /\ exists e, reqs bc !! i = Some e /\
       be_status e = match w with Working _ => BST_BUSY | _ => BST_DONE end) /\
  (forall i, i ∈ busyq bc -> exists t w, ws !! t = Some w /\ in_hand w i) /\
  (forall t1 t2 w1 w2 i, ws !! t1 = Some w1 -> ws !! t2 = Some w2 -> in_hand w1 i -> in_hand w2 i -> t1 = t2).

Lemma blk_inv_hands b : blk_inv b -> hands_ok (ctxt b) (workers b).
Proof. intros []. by split_and!. Qed.

Lemma hands_ext bc bc' ws :
  busyq bc' = busyq bc -> (forall k, k ∈ busyq bc -> reqs bc' !! k = reqs bc !! k) ->
  hands_ok bc ws -> hands_ok bc' ws.
Proof.
  intros E1 E2 (H1 & H2 & H3). split_and!; [|by rewrite E1|done]. intros t w i Hw Hh.
  destruct (H1 t w i Hw Hh) as (Hi & e & He & Hs). rewrite E1. split; [done|]. exists e. by rewrite E2.
Qed.

(** A worker with nothing in hand may change to another such state. *)
Lemma hands_idle bc ws t w w' :
  ws !! t = Some w -> (forall i, ~ in_hand w i) -> (forall i, ~ in_hand w' i) ->
  hands_ok bc ws -> hands_ok bc (<[t := w']> ws).
Proof.
  intros Ht Hw Hw' (H1 & H2 & H3). pose proof (lookup_lt_Some _ _ _ Ht) as Hlt.
  assert (Hback : forall t1 w1 i, <[t := w']> ws !! t1 = Some w1 -> in_hand w1 i -> ws !! t1 = Some w1).
  { intros t1 w1 i H Hh. destruct (decide (t1 = t)) as [->|]; [|by rewrite list_lookup_insert_ne in H].
    rewrite list_lookup_insert_eq in H by done. injection H as <-. by apply Hw' in Hh. }
  split_and!.
  - intros t1 w1 i H Hh. eauto.
  - intros i Hi. destruct (H2 i Hi) as (t1 & w1 & H & Hh). exists t1, w1. split; [|done].
    rewrite list_lookup_insert_ne; [done|]. intros ->. rewrite Ht in H. injection H as ->. by apply Hw in Hh.
  - intros t1 t2 w1 w2 i Ht1 Ht2 Hh1 Hh2. apply (H3 t1 t2 w1 w2 i); eauto.
Qed.

Lemma waiting_idle i : ~ in_hand Waiting i.
Proof. by intros [?|?]. Qed.
Lemma awake_idle i : ~ in_hand Awake i.
Proof. by intros [?|?]. Qed.
Lemma exited_idle i : ~ in_hand Exited i.
Proof. by intros [?|?]. Qed.
#[local] Hint Resolve waiting_idle awake_idle exited_idle : core.

Lemma hands_woken bc ws ws' : woken ws ws' -> hands_ok bc ws -> hands_ok bc ws'.
Proof. intros [ws0 _|ws0 t H]; [done|]. by apply (hands_idle _ _ _ Waiting). Qed.

(** A worker picks an element that nobody has. *)
Lemma hands_pick bc bc' ws t i e :
  ws !! t = Some Awake -> i ∉ busyq bc -> busyq bc' = busyq bc ++ [i] ->
  reqs bc' !! i = Some e -> be_status e = BST_BUSY -> (forall k, k <> i -> reqs bc' !! k = reqs bc !! k) ->
  hands_ok bc ws -> hands_ok bc' (<[t := Working i]> ws).
Proof.
  intros Ht Hi Hb He Hs Hne (H1 & H2 & H3). pose proof (lookup_lt_Some _ _ _ Ht) as Hlt.
  assert (Hcase : forall t1 w1 k, <[t := Working i]> ws !! t1 = Some w1 -> in_hand w1 k ->
    (t1 = t /\ w1 = Working i /\ k = i) \/ (t1 <> t /\ ws !! t1 = Some w1 /\ k ∈ busyq bc /\ k <> i)).
  { intros t1 w1 k H Hh. destruct (decide (t1 = t)) as [->|].
    - rewrite list_lookup_insert_eq in H by done. injection H as <-. left. split_and!; [done..|].
      by destruct Hh as [[= ->]|?].
    - rewrite list_lookup_insert_ne in H by done. right. destruct (H1 _ _ _ H Hh) as [Hk _].
      split_and!; try done. by intros ->. }
  unfold hands_ok. rewrite Hb. split_and!.
  - intros t1 w1 k H Hh. destruct (Hcase t1 w1 k H Hh) as [(-> & -> & ->)|(Hn & H' & Hk & Hki)].
    + split; [apply elem_of_app; right; by left|]. by exists e.
    + destruct (H1 _ _ _ H' Hh) as (_ & e' & He' & Hs'). split; [by apply elem_of_app; left|]. exists e'. by rewrite Hne.
  - intros k [Hk| ->%list_elem_of_singleton]%elem_of_app.
    + destruct (H2 k Hk) as (t1 & w1 & H & Hh). exists t1, w1. split; [|done]. rewrite list_lookup_insert_ne; [done|].
      intros ->. rewrite Ht in H. injection H as <-. by apply awake_idle in Hh.
    + exists t, (Working i). split; [by apply list_lookup_insert_eq|by left].
  - intros t1 t2 w1 w2 k Ht1 Ht2 Hh1 Hh2.
    destruct (Hcase _ _ _ Ht1 Hh1) as [(-> & -> & ->)|(Hn1 & H1' & Hk1 & Hki1)],
      (Hcase _ _ _ Ht2 Hh2) as [(-> & -> & Ek)|(Hn2 & H2' & Hk2 & Hki2)]; try done.
    by apply (H3 t1 t2 w1 w2 k).
Qed.

(** A worker has carried its element out. *)
Lemma hands_done bc bc' ws t i e :
  ws !! t = Some (Working i) -> busyq bc' = busyq bc -> reqs bc' !! i = Some e -> be_status e = BST_DONE ->
  (forall k, k <> i -> reqs bc' !! k = reqs bc !! k) ->
  hands_ok bc ws -> hands_ok bc' (<[t := Finishing i]> ws).
Proof.
  intros Ht Hb He Hs Hne (H1 & H2 & H3). pose proof (lookup_lt_Some _ _ _ Ht) as Hlt.
  assert (Hcase : forall t1 w1 k, <[t := Finishing i]> ws !! t1 = Some w1 -> in_hand w1 k ->
    (t1 = t /\ w1 = Finishing i /\ k = i) \/ (t1 <> t /\ ws !! t1 = Some w1 /\ k <> i)).
  { intros t1 w1 k H Hh. destruct (decide (t1 = t)) as [->|Hn].
    - rewrite list_lookup_insert_eq in H by done. injection H as <-. left. split_and!; [done..|].
      by destruct Hh as [?|[= ->]].
    - rewrite list_lookup_insert_ne in H by done. right. split_and!; [done..|]. intros ->. apply Hn.
      apply (H3 t1 t w1 (Working i) i); [done..|by left]. }
  unfold hands_ok. rewrite Hb. split_and!.
  - intros t1 w1 k H Hh. destruct (Hcase t1 w1 k H Hh) as [(-> & -> & ->)|(Hn & H' & Hki)].
    + split; [by apply (H1 t (Working i) i Ht); left|]. by exists e.
    + destruct (H1 _ _ _ H' Hh) as (Hk & e' & He' & Hs'). split; [done|]. exists e'. by rewrite Hne.
  - intros k Hk. destruct (H2 k Hk) as (t1 & w1 & H & Hh). destruct (decide (t1 = t)) as [->|].
    + exists t, (Finishing i). split; [by apply list_lookup_insert_eq|]. rewrite Ht in H. injection H as <-.
      destruct Hh as [[= ->]|?]; [by right|done].
    + exists t1, w1. split; [|done]. by rewrite list_lookup_insert_ne.
  - intros t1 t2 w1 w2 k Ht1 Ht2 Hh1 Hh2.
    destruct (Hcase _ _ _ Ht1 Hh1) as [(-> & -> & ->)|(Hn1 & H1' & Hki1)],
      (Hcase _ _ _ Ht2 Hh2) as [(-> & -> & Ek)|(Hn2 & H2' & Hki2)]; try done.
    by apply (H3 t1 t2 w1 w2 k).
Qed.

(** A worker gives its element back. *)
Lemma hands_release bc bc' ws t i :
  ws !! t = Some (Finishing i) -> busyq bc' = unlink i (busyq bc) ->
  (forall k, k ∈ busyq bc -> k <> i -> reqs bc' !! k = reqs bc !! k) ->
  hands_ok bc ws -> hands_ok bc' (<[t := Awake]> ws).
Proof.
  intros Ht Hb Hne (H1 & H2 & H3). pose proof (lookup_lt_Some _ _ _ Ht) as Hlt.
  assert (Hcase : forall t1 w1 k, <[t := Awake]> ws !! t1 = Some w1 -> in_hand w1 k ->
    t1 <> t /\ ws !! t1 = Some w1 /\ k <> i).
  { intros t1 w1 k H Hh. destruct (decide (t1 = t)) as [->|Hn].
    - rewrite list_lookup_insert_eq in H by done. injection H as <-. by apply awake_idle in Hh.
    - rewrite list_lookup_insert_ne in H by done. split_and!; [done..|]. intros ->. apply Hn.
      apply (H3 t1 t w1 (Finishing i) i); [done..|by right]. }
  unfold hands_ok. rewrite Hb. split_and!.
  - intros t1 w1 k H Hh. destruct (Hcase t1 w1 k H Hh) as (_ & H' & Hki).
    destruct (H1 _ _ _ H' Hh) as (Hk & e' & He' & Hs'). split; [by apply elem_unlink|]. exists e'. by rewrite Hne.
  - intros k [Hki Hk]%elem_unlink. destruct (H2 k Hk) as (t1 & w1 & H & Hh). exists t1, w1. split; [|done].
    rewrite list_lookup_insert_ne; [done|]. intros ->. rewrite Ht in H. injection H as <-.
    destruct Hh as [?|[= ->]]; done.
  - intros t1 t2 w1 w2 k Ht1 Ht2 Hh1 Hh2. destruct (Hcase _ _ _ Ht1 Hh1) as (_ & H1' & _).
    destruct (Hcase _ _ _ Ht2 Hh2) as (_ & H2' & _). by apply (H3 t1 t2 w1 w2 k).
Qed.

(** ** Every step keeps the invariant *)

Lemma blk_inv_intro bc rs ws :
  queues_ok bc rs -> length ws = BLOCKIF_NUMTHR -> hands_ok bc ws ->
  (forall i e, i ∈ pendq bc -> reqs bc !! i = Some e -> be_status e = BST_PEND ->
     bc_closing bc = false -> exists t w, ws !! t = Some w /\ active w) ->
  (bc_closing bc = false -> Exited ∉ ws) -> blk_inv (mkBlk bc rs ws).
Proof. intros ? ? (? & ? & ?) ? ?. by split. Qed.

Lemma insert_active (t : nat) w (ws : list worker) : (t < length ws)%nat -> active w -> exists t' w', <[t := w]> ws !! t' = Some w' /\ active w'.
Proof. intros H Hw. exists t, w. split; [by apply list_lookup_insert_eq|done]. Qed.

Lemma insert_open (t : nat) w (ws : list worker) : w <> Exited -> Exited ∉ ws -> Exited ∉ <[t := w]> ws.
Proof.
  intros Hw H [i Hi]%list_elem_of_lookup. apply list_lookup_insert_Some in Hi as [(_ & ? & _)|[_ Hi]]; [done|].
  apply H. by eapply list_elem_of_lookup_2.
Qed.

Lemma woken_length ws ws' : woken ws ws' -> length ws' = length ws.
Proof. intros [|]; [done|apply length_insert]. Qed.

(** After a signal some thread is at work: one woken, or all were. *)
Lemma woken_active ws ws' : woken ws ws' -> Exited ∉ ws -> (0 < length ws)%nat ->
  exists t w, ws' !! t = Some w /\ active w.
Proof.
  intros [ws0 Hn|ws0 t Ht] He Hl.
  - destruct ws0 as [|w ws0]; [cbn in Hl; lia|]. exists 0%nat, w. split; [done|].
    split; intros ->; [apply Hn|apply He]; by left.
  - apply insert_active; [by eapply lookup_lt_Some|by split].
Qed.

Lemma woken_open ws ws' : woken ws ws' -> Exited ∉ ws -> Exited ∉ ws'.
Proof. intros [|]; [done|]. by apply insert_open. Qed.

Lemma prepare_ok bc rs r br :
  queues_ok bc rs -> (forall i be, i ∈ pendq bc -> reqs bc !! i = Some be -> be_req be <> Some r) ->
  queues_ok bc (<[r := br]> rs).
Proof.
  intros Hq Hr. assert (Hh : forall k e br', k ∈ pendq bc -> holds bc rs k e br' <-> holds bc (<[r := br]> rs) k e br').
  { intros k e br' Hk. unfold holds. split; intros (He & r' & Hr' & Hbr'); (split; [done|]); exists r'; (split; [done|]);
      assert (r' <> r) by (intros ->; by apply (Hr k e Hk He)).
    - by rewrite lookup_insert_ne.
    - by rewrite lookup_insert_ne in Hbr'. }
  split; try apply Hq.
  - intros k Hk. destruct (qo_pend _ _ Hq k Hk) as (e & br' & H & Hs). exists e, br'. split; [by apply Hh|done].
  - intros k Hk. destruct (qo_busy _ _ Hq k Hk) as (e & br' & (He & r' & Hr' & Hb') & Hs).
    destruct (decide (r' = r)) as [->|].
    + exists e, br. split; [|done]. split; [done|]. exists r. split; [done|]. apply lookup_insert_eq.
    + exists e, br'. split; [|done]. split; [done|]. exists r'. by rewrite lookup_insert_ne.
  - intros l1 k l2 e br' Hl H Hs. apply (qo_blocked _ _ Hq l1 k l2 e br' Hl); [|done].
    apply Hh; [|done]. rewrite Hl. apply elem_of_app; right; by left.
Qed.

Lemma request_shape bc rs r op rc sig bc' :
  queues_ok bc rs -> blockif_request bc rs r op = Ret (rc, sig, bc') ->
  (rc = E2BIG /\ sig = false /\ bc' = bc /\ freeq bc = []) \/
  exists i st, rc = 0 /\ enqueued bc rs r i st bc' /\ sig = bool_decide (st = BST_PEND).
Proof.
  intros Hq E. unfold blockif_request in E. destruct (freeq bc) eqn:Hf; [left; by injection E as <- <- <-|].
  destruct (blockif_enqueue _ _ _ _) as [[s bc1]|] eqn:E1; [|done]. cbn [mbind outcome_bind] in E. injection E as <- <- <-.
  right. assert (Hne : freeq bc <> []) by (by rewrite Hf).
  destruct (enqueue_shape _ _ _ _ _ _ Hq Hne E1) as (i & st & H & Hs). by exists i, st.
Qed.

(** The elements in hand do not notice a request. *)
Lemma enqueued_hands bc rs r i st bc' ws :
  queues_ok bc rs -> enqueued bc rs r i st bc' -> hands_ok bc ws -> hands_ok bc' ws.
Proof.
  intros Hq (rest & br & e & Hf & _ & _ & _ & _ & Hne & _ & _ & _ & Hb & _). apply hands_ext; [done|].
  intros k Hk. apply Hne. intros ->. apply (busy_disjoint _ _ Hq) in Hk as [Hk _]. apply Hk. rewrite Hf. by left.
Qed.

Lemma cancel_shape bc rs r rc bc' :
  queues_ok bc rs -> blockif_cancel bc rs r = Ret (CancelReturns rc bc') ->
  bc' = bc \/ exists i, i ∈ pendq bc /\ blockif_complete bc rs i = Ret bc'.
Proof.
  intros Hq E. unfold blockif_cancel in E.
  destruct (foreach bc _ (pendq bc)) as [[i|]|] eqn:E1; [| |done]; cbn [mbind outcome_bind] in E.
  - destruct (blockif_complete bc rs i) as [bc1|] eqn:E2; [|done]. cbn [mbind outcome_bind] in E. injection E as _ <-.
    right. exists i. split; [|done]. apply foreach_some in E1 as (l1 & l2 & e & -> & _). apply elem_of_app; right; by left.
  - left. destruct (foreach bc _ (busyq bc)) as [[i|]|] eqn:E2; [| |done]; cbn [mbind outcome_bind] in E.
    + unfold elem_at in E. destruct (reqs bc !! i); [|done]. cbn [mbind outcome_bind] in E.
      destruct (bool_decide _); [done|]. by injection E as _ <-.
    + by injection E as _ <-.
Qed.

Section Steps.
Context (hmem : Z -> Z) (b : blk) (Hb : blk_inv b).

Lemma prepare_inv r br :
  (forall i be, i ∈ pendq (ctxt b) -> reqs (ctxt b) !! i = Some be -> be_req be <> Some r) ->
  blk_inv (b <| the_reqs ::= <[r := br]> |>).
Proof.
  intros Hr. apply blk_inv_intro.
  - apply prepare_ok; [apply Hb|done].
  - apply Hb.
  - by apply (blk_inv_hands b).
  - apply (bi_wake _ Hb).
  - apply (bi_open _ Hb).
Qed.

Lemma request_inv r op rc bc :
  blockif_request (ctxt b) (the_reqs b) r op = Ret (rc, false, bc) -> blk_inv (b <| ctxt := bc |>).
Proof.
  intros E. destruct (request_shape _ _ _ _ _ _ _ (bi_q _ Hb) E) as [(_ & _ & -> & _)|(i & st & _ & He & Hs)].
  { by destruct b. }
  symmetry in Hs. apply bool_decide_eq_false in Hs. pose proof (enqueued_ok _ _ _ _ _ _ (bi_q _ Hb) He) as Hq'.
  pose proof He as (rest & br & e & Hf & _ & He1 & _ & Hes & Hne & _ & _ & Hp & _ & Hc & _).
  apply blk_inv_intro.
  - exact Hq'.
  - apply Hb.
  - apply (enqueued_hands _ _ _ _ _ _ _ (bi_q _ Hb) He). by apply blk_inv_hands.
  - cbn. intros k e' Hk Hk' Hst Hcl. rewrite Hp in Hk. apply elem_of_app in Hk as [Hk| ->%list_elem_of_singleton].
    + rewrite Hne in Hk'; [apply (bi_wake _ Hb k e'); [done..|congruence]|].
      intros ->. apply (pend_disjoint _ _ (bi_q _ Hb)) in Hk as [Hk _]. apply Hk. rewrite Hf. by left.
    + congruence.
  - cbn. rewrite Hc. apply Hb.
Qed.

Lemma request_signal_inv r op rc bc ws :
  blockif_request (ctxt b) (the_reqs b) r op = Ret (rc, true, bc) -> woken (workers b) ws ->
  blk_inv (b <| ctxt := bc |> <| workers := ws |>).
Proof.
  intros E Hw. destruct (request_shape _ _ _ _ _ _ _ (bi_q _ Hb) E) as [(_ & ? & _)|(i & st & _ & He & _)]; [done|].
  pose proof (enqueued_ok _ _ _ _ _ _ (bi_q _ Hb) He) as Hq'.
  pose proof He as (_ & _ & _ & _ & _ & _ & _ & _ & _ & _ & _ & _ & _ & Hc & _).
  apply blk_inv_intro.
  - exact Hq'.
  - cbn. rewrite (woken_length _ _ Hw). apply Hb.
  - cbn. apply (hands_woken _ _ _ Hw), (enqueued_hands _ _ _ _ _ _ _ (bi_q _ Hb) He). by apply blk_inv_hands.
  - cbn. intros _ _ _ _ _ Hcl. rewrite Hc in Hcl. apply (woken_active _ _ Hw); [by apply (bi_open _ Hb)|].
    rewrite (bi_len _ Hb). unfold BLOCKIF_NUMTHR. lia.
  - cbn. intros Hcl. rewrite Hc in Hcl. apply (woken_open _ _ Hw). by apply (bi_open _ Hb).
Qed.

Lemma cancel_inv r rc bc :
  blockif_cancel (ctxt b) (the_reqs b) r = Ret (CancelReturns rc bc) -> blk_inv (b <| ctxt := bc |>).
Proof.
  intros E. destruct (cancel_shape _ _ _ _ _ (bi_q _ Hb) E) as [->|(i & Hi & Ec)]; [by destruct b|].
  destruct (complete_ok _ _ i (bi_q _ Hb)) as (bc' & Ec' & Hq' & Hbq & Hc & Hne); [by apply elem_of_app; left|].
  rewrite Ec in Ec'. injection Ec' as <-. destruct (pend_disjoint _ _ (bi_q _ Hb) i Hi) as [_ Hib].
  rewrite (unlink_notin i) in Hbq by done. apply blk_inv_intro.
  - exact Hq'.
  - apply Hb.
  - apply (hands_ext (ctxt b)); [exact Hbq| |by apply blk_inv_hands]. intros k Hk. apply Hne; [done|by intros ->].
  - cbn. intros _ _ _ _ _ Hcl. rewrite Hc in Hcl. apply pending_active; [done| |done].
    intros Hn. rewrite Hn in Hi. by apply elem_of_nil in Hi.
  - cbn. rewrite Hc. apply Hb.
Qed.

Lemma close_inv : blk_inv (b <| ctxt ::= (fun c => c <| bc_closing := true |>) |> <| workers ::= map wake |>).
Proof.
  assert (Hl : forall t w, map wake (workers b) !! t = Some w -> forall i, in_hand w i -> workers b !! t = Some w).
  { intros t w H i Hi. rewrite list_lookup_fmap in H. destruct (workers b !! t) as [w0|]; [|done].
    injection H as <-. destruct w0; try done. by apply awake_idle in Hi. }
  destruct (blk_inv_hands _ Hb) as (H1 & H2 & H3). apply blk_inv_intro; try done.
  - destruct (bi_q _ Hb). by split.
  - cbn. rewrite length_map. apply Hb.
  - split_and!.
    + intros t w i H Hi. apply (H1 t w i); [by eapply Hl|done].
    + intros i Hi. destruct (H2 i Hi) as (t & w & Hw & Hh). exists t, w. split; [|done].
      cbn. rewrite list_lookup_fmap, Hw. cbn. by destruct Hh as [-> | ->].
    + intros t1 t2 w1 w2 i Ht1 Ht2 Hi1 Hi2. apply (H3 t1 t2 w1 w2 i); [by eapply Hl|by eapply Hl|done|done].
Qed.

Lemma dequeue_inv t i bc :
  workers b !! t = Some Awake -> blockif_dequeue (ctxt b) t = Ret (Some i, bc) ->
  blk_inv (set_worker t (Working i) (b <| ctxt := bc |>)).
Proof.
  intros Ht E. destruct (dequeue_ok _ _ _ _ _ (bi_q _ Hb) E) as (Hq' & Hi & Hib & Hbq & Hc & (e & He & Hs) & Hne).
  pose proof (lookup_lt_Some _ _ _ Ht) as Hlt. apply blk_inv_intro.
  - exact Hq'.
  - cbn. rewrite length_insert. apply Hb.
  - cbn. apply (hands_pick (ctxt b) bc _ _ _ e); try done. by apply blk_inv_hands.
  - cbn. intros. by apply insert_active.
  - cbn. intros Hcl. rewrite Hc in Hcl. apply insert_open; [done|]. by apply (bi_open _ Hb).
Qed.

(** A thread waits only when nothing can be taken. *)
Lemma wait_inv t :
  workers b !! t = Some Awake -> blockif_dequeue (ctxt b) t = Ret (None, ctxt b) ->
  blk_inv (set_worker t (if bc_closing (ctxt b) then Exited else Waiting) b).
Proof.
  intros Ht E. destruct (dequeue_run _ _ (bi_q _ Hb) t) as (o & bc' & E' & Ho). rewrite E in E'. injection E' as <- <-.
  destruct Ho as [_ Ho]. apply blk_inv_intro.
  - apply Hb.
  - cbn. rewrite length_insert. apply Hb.
  - cbn. apply (hands_idle _ _ _ Awake); [done|auto| |by apply blk_inv_hands]. intros i. destruct (bc_closing (ctxt b)); auto.
  - cbn. intros i e Hi He Hs. by apply Ho in He.
  - cbn. intros Hcl. rewrite Hcl. apply insert_open; [done|]. by apply (bi_open _ Hb).
Qed.

Lemma spurious_inv t : workers b !! t = Some Waiting -> blk_inv (set_worker t Awake b).
Proof.
  intros Ht. pose proof (lookup_lt_Some _ _ _ Ht) as Hlt. apply blk_inv_intro.
  - apply Hb.
  - cbn. rewrite length_insert. apply Hb.
  - cbn. apply (hands_idle _ _ _ Waiting); [done|auto|auto|by apply blk_inv_hands].
  - cbn. intros. by apply insert_active.
  - cbn. intros Hcl. apply insert_open; [done|]. by apply (bi_open _ Hb).
Qed.

Lemma proc_inv t i io err log bc rs :
  workers b !! t = Some (Working i) -> blockif_proc (ctxt b) (the_reqs b) hmem io i = Ret (err, log, bc, rs) ->
  blk_inv (set_worker t (Finishing i) (mkBlk bc rs (workers b))).
Proof.
  intros Ht E. pose proof (lookup_lt_Some _ _ _ Ht) as Hlt.
  destruct (bi_hands _ Hb t (Working i) i Ht) as [Hi _]; [by left|].
  destruct (proc_ok _ _ _ _ _ _ _ _ _ (bi_q _ Hb) Hi E) as (Hq' & Hbq & Hp & Hc & (e & He & Hs) & Hne).
  apply blk_inv_intro.
  - exact Hq'.
  - cbn. rewrite length_insert. apply Hb.
  - cbn. apply (hands_done (ctxt b) bc _ _ _ e); try done. by apply blk_inv_hands.
  - cbn. intros. by apply insert_active.
  - cbn. intros Hcl. rewrite Hc in Hcl. apply insert_open; [done|]. by apply (bi_open _ Hb).
Qed.

Lemma complete_inv t i bc :
  workers b !! t = Some (Finishing i) -> blockif_complete (ctxt b) (the_reqs b) i = Ret bc ->
  blk_inv (set_worker t Awake (b <| ctxt := bc |>)).
Proof.
  intros Ht E. pose proof (lookup_lt_Some _ _ _ Ht) as Hlt.
  destruct (bi_hands _ Hb t (Finishing i) i Ht) as [Hi _]; [by right|].
  destruct (complete_ok _ _ i (bi_q _ Hb)) as (bc' & E' & Hq' & Hbq & Hc & Hne); [by apply elem_of_app; right|].
  rewrite E in E'. injection E' as <-. apply blk_inv_intro.
  - exact Hq'.
  - cbn. rewrite length_insert. apply Hb.
  - cbn. apply (hands_release (ctxt b) bc _ _ i); try done. by apply blk_inv_hands.
  - cbn. intros. by apply insert_active.
  - cbn. intros Hcl. rewrite Hc in Hcl. apply insert_open; [done|]. by apply (bi_open _ Hb).
Qed.
End Steps.

Lemma blk_step_inv hmem b b' : blk_inv b -> blk_step hmem b b' -> blk_inv b'.
Proof.
  intros Hb [].
  - by apply prepare_inv.
  - by eapply request_inv.
  - by eapply request_signal_inv.
  - by eapply cancel_inv.
  - by apply close_inv.
  - by apply dequeue_inv.
  - by apply wait_inv.
  - by apply spurious_inv.
  - by eapply proc_inv.
  - by eapply complete_inv.
Qed.

(** As [blockif_open] leaves the context: all elements free, and the threads
    about to look for work. *)
Definition blk_init (bc : blockif_ctxt) (rs : breqs) : blk :=
  mkBlk (init_queues bc) rs (replicate BLOCKIF_NUMTHR Awake).

Lemma blk_init_inv bc rs : blk_inv (blk_init bc rs).
Proof.
  apply blk_inv_intro; try (by cbn; intros; repeat match goal with H : _ ∈ [] |- _ => by apply elem_of_nil in H end).
  - split; try (cbn; intros; match goal with H : _ ∈ [] |- _ => by apply elem_of_nil in H end).
    + reflexivity.
    + change (reverse (seq 0 BLOCKIF_MAXREQ) ++ [] ≡ₚ seq 0 BLOCKIF_MAXREQ). by rewrite app_nil_r, reverse_Permutation.
    + intros i Hi. change (i ∈ reverse (seq 0 BLOCKIF_MAXREQ)) in Hi. exists fresh_elem. split; [|done].
      change (replicate BLOCKIF_MAXREQ fresh_elem !! i = Some fresh_elem).
      rewrite reverse_Permutation in Hi. apply elem_of_seq in Hi. apply lookup_replicate. split; [done|lia].
    + intros l1 i l2 e br Hl. change ([] = l1 ++ i :: l2) in Hl. by destruct l1.
  - assert (Hn : forall t w i, replicate BLOCKIF_NUMTHR Awake !! t = Some w -> ~ in_hand w i)
      by (intros t w i [-> _]%lookup_replicate; auto).
    split_and!.
    + intros t w i Hw Hh. by apply (Hn t w i) in Hw.
    + intros i Hi. by apply elem_of_nil in Hi.
    + intros t1 t2 w1 w2 i Ht1 _ Hh. by apply (Hn t1 w1 i) in Ht1.
  - intros _ H. by apply elem_of_replicate in H as [? _].
Qed.

Lemma blk_reachable_inv hmem bc rs b : rtc (blk_step hmem) (blk_init bc rs) b -> blk_inv b.
Proof.
  intros Hr. assert (H0 := blk_init_inv bc rs). induction Hr as [|b0 b1 b2 Hs _ IH]; [done|].
  by apply IH, (blk_step_inv _ _ _ H0 Hs).
Qed.

(** ** No request is lost *)

Lemma head_dequeued bc t i l e :
  pendq bc = i :: l -> reqs bc !! i = Some e -> be_status e = BST_PEND ->
  exists bc', blockif_dequeue bc t = Ret (Some i, bc').
Proof.
  intros Hl He Hs. unfold blockif_dequeue. rewrite Hl. cbn [foreach]. unfold elem_at. rewrite He.
  cbn [mbind outcome_bind]. rewrite bool_decide_eq_true_2 by done. cbn [mbind outcome_bind]. by eexists.
Qed.

Lemma cancel_returns bc rs r : queues_ok bc rs -> exists c, blockif_cancel bc rs r = Ret c.
Proof.
  intros Hq. unfold blockif_cancel. set (mine := fun be => bool_decide (be_req be = Some r)).
  destruct (foreach_returns bc mine (pendq bc)) as [[i|] E].
  { intros k Hk. apply (queue_elem _ _ Hq). by apply elem_of_app; left. }
  - rewrite E. cbn [mbind outcome_bind]. apply foreach_some in E as (l1 & l2 & e & Hl & _).
    destruct (complete_ok _ _ i Hq) as (bc' & -> & _); [rewrite Hl; set_solver|]. by eexists.
  - rewrite E. cbn [mbind outcome_bind]. destruct (foreach_returns bc mine (busyq bc)) as [[i|] E2].
    { intros k Hk. apply (queue_elem _ _ Hq). by apply elem_of_app; right. }
    + rewrite E2. cbn [mbind outcome_bind]. apply foreach_some in E2 as (l1 & l2 & e & Hl & He & _).
      unfold elem_at. rewrite He. cbn [mbind outcome_bind]. case_bool_decide; by eexists.
    + rewrite E2. cbn [mbind outcome_bind]. by eexists.
Qed.

(** C9. However callers and threads interleave, the 72 elements stay spread
    over the three queues, each with the status its queue says and, when it
    is queued, with a request that exists; a blocked one waits for one before it
    or one being carried out, and each of those is in the hands of exactly one
    thread.  So nothing that is done with the mutex can follow a bad pointer. *)
Theorem blk_queues_ok hmem bc rs b :
  rtc (blk_step hmem) (blk_init bc rs) b ->
  queues_ok (ctxt b) (the_reqs b) /\
  (forall i, i ∈ busyq (ctxt b) -> exists t w, workers b !! t = Some w /\ in_hand w i /\
     forall t' w', workers b !! t' = Some w' -> in_hand w' i -> t' = t) /\
  (forall t, exists o, blockif_dequeue (ctxt b) t = Ret o) /\
  (forall t i, workers b !! t = Some (Finishing i) -> exists bc', blockif_complete (ctxt b) (the_reqs b) i = Ret bc') /\
  (forall r, exists c, blockif_cancel (ctxt b) (the_reqs b) r = Ret c).
Proof.
  intros Hb%blk_reachable_inv. pose proof (bi_q _ Hb) as Hq. split_and!; [done|..].
  - intros i Hi. destruct (bi_held _ Hb i Hi) as (t & w & Hw & Hh). exists t, w. split_and!; [done..|].
    intros t' w' Hw' Hh'. by apply (bi_unique _ Hb t' t w' w i).
  - intros t. destruct (dequeue_run _ _ Hq t) as (o & bc' & -> & _). by eexists.
  - intros t i Ht. destruct (bi_hands _ Hb t _ i Ht) as [Hi _]; [by right|].
    destruct (complete_ok _ _ i Hq) as (bc' & -> & _); [by apply elem_of_app; right|]. by eexists.
  - intros r. by apply cancel_returns.
Qed.

(** C10. No wake-up is lost: until the context closes, whenever requests are
    queued some thread gets on with them.  Either one is carrying a request out
    or giving it back, which it can; or nothing is in the works, and a
    thread is up that will take the request at the head. *)
Theorem blk_never_stuck hmem bc rs b :
  rtc (blk_step hmem) (blk_init bc rs) b -> bc_closing (ctxt b) = false -> pendq (ctxt b) <> [] ->
  (exists t i, workers b !! t = Some (Working i) /\ i ∈ busyq (ctxt b)) \/
  (exists t i bc', workers b !! t = Some (Finishing i) /\ blockif_complete (ctxt b) (the_reqs b) i = Ret bc') \/
  (busyq (ctxt b) = [] /\ exists t i l bc', workers b !! t = Some Awake /\ pendq (ctxt b) = i :: l /\
     blockif_dequeue (ctxt b) t = Ret (Some i, bc')).
Proof.
  intros Hb%blk_reachable_inv Hc Hp. pose proof (bi_q _ Hb) as Hq.
  destruct (busyq (ctxt b)) as [|i l] eqn:Hbq.
  - right; right. split; [done|]. destruct (pending_active b Hb Hp Hc) as (t & w & Hw & Hnw & Hne).
    assert (w = Awake) as ->.
    { destruct w as [| |i|i|]; try done; destruct (bi_hands _ Hb t _ i Hw) as [Hi _];
        [by left| |by right|]; rewrite Hbq in Hi; by apply elem_of_nil in Hi. }
    destruct (head_pending _ _ Hq Hp Hbq) as (i & l & e & Hl & He & Hs).
    destruct (head_dequeued (ctxt b) t i l e Hl He Hs) as [bc' E]. by exists t, i, l, bc'.
  - destruct (bi_held _ Hb i) as (t & w & Hw & Hh); [rewrite Hbq; by left|]. destruct Hh as [-> | ->].
    + left. exists t, i. split; [done|by left].
    + right; left. destruct (complete_ok _ _ i Hq) as (bc' & E & _).
      { rewrite Hbq. apply elem_of_app; right; by left. }
      by exists t, i, bc'.
Qed.

(** ** Geometry *)

(** The cylinders, heads and sectors told to the guest fit their fields:
    the intermediate number of heads, which is cut to 8 bits, is only kept when it
    was at most 16.  They address the whole disk but for less than one cylinder,
    up to the largest disk that they can describe. *)
Theorem blockif_chs_bounds bc :
  0 <= bc_size bc < 2 ^ 63 -> 0 < bc_sectsz bc ->
  exists c h s, blockif_chs bc = Ret (c, h, s) /\ 0 <= c <= 65535 /\ 4 <= h <= 16 /\ s ∈ [17; 31; 63; 255] /\
    c = Z.min (bc_size bc / bc_sectsz bc) (65535 * 16 * 255) / (h * s).
Proof.
  intros Hsize Hsect. unfold blockif_chs. rewrite (proj2 (Z.eqb_neq (bc_sectsz bc) 0)) by lia.
  rewrite Z.quot_div_nonneg by lia. set (n := bc_size bc / bc_sectsz bc).
  assert (Hn : 0 <= n < 2 ^ 63) by (unfold n; split; [apply Z.div_pos; lia|apply Z.div_lt_upper_bound; nia]).
  assert (Hu : forall x, 0 <= x < 2 ^ 63 -> u64 x = x) by (intros; apply wrap_small; unfold fits; lia).
  rewrite (Hu n) by lia.
  assert (Hm : (if 65535 * 16 * 255 <? n then 65535 * 16 * 255 else n) = Z.min n (65535 * 16 * 255))
    by (destruct (Z.ltb_spec (65535 * 16 * 255) n); lia).
  rewrite Hm. set (m := Z.min n (65535 * 16 * 255)). assert (0 <= m <= 65535 * 16 * 255) by (unfold m; lia).
  clearbody m. clear Hm. rewrite (Hu m) by lia.
  assert (Hfin : forall h s, 4 <= h <= 16 -> s ∈ [17; 31; 63; 255] -> m < 65536 * (h * s) ->
    exists c h' s', Ret (u16 (Z.quot (Z.quot m s) h), h, s) = Ret (c, h', s') /\ 0 <= c <= 65535 /\ 4 <= h' <= 16 /\
      s' ∈ [17; 31; 63; 255] /\ c = m / (h' * s')).
  { intros h s Hh Hs Hlt. exists (m / (h * s)), h, s.
    assert (0 < s) by (rewrite !elem_of_cons, elem_of_nil in Hs; lia).
    rewrite (Z.quot_div_nonneg m s), Z.quot_div_nonneg by (try apply Z.div_pos; lia).
    rewrite Z.div_div, (Z.mul_comm s h) by lia.
    assert (0 <= m / (h * s) < 65536) by (split; [apply Z.div_pos; nia|apply Z.div_lt_upper_bound; nia]).
    unfold u16. rewrite wrap_small by (unfold fits; lia). split_and!; try done; lia. }
  destruct (Z.leb_spec (65536 * 16 * 63) m).
  { apply Hfin; [lia|rewrite !elem_of_cons; lia|lia]. }
  rewrite (Z.quot_div_nonneg m 17) by lia.
  set (heads := if u8 (Z.quot (m / 17 + 1023) 1024) <? 4 then 4 else u8 (Z.quot (m / 17 + 1023) 1024)).
  assert (4 <= heads) by (unfold heads; destruct (Z.ltb_spec (u8 (Z.quot (m / 17 + 1023) 1024)) 4); lia).
  destruct ((heads * 1024 <=? m / 17) || (16 <? heads)) eqn:Ec.
  - rewrite (Z.quot_div_nonneg m 31) by lia. destruct (Z.leb_spec (16 * 1024) (m / 31)) as [Hh|Hh].
    + apply Hfin; [lia|rewrite !elem_of_cons; lia|lia].
    + rewrite <- (Z.quot_div_nonneg m 31) by lia. apply Hfin; [lia|rewrite !elem_of_cons; lia|]. Z.div_mod_to_equations. lia.
  - apply orb_false_iff in Ec as [Hh%Z.leb_gt H16%Z.ltb_ge]. rewrite (proj2 (Z.leb_gt _ _) Hh).
    rewrite <- (Z.quot_div_nonneg m 17) by lia. apply Hfin; [lia|rewrite !elem_of_cons; lia|]. clearbody heads. Z.div_mod_to_equations. nia.
Qed.

(** ** What is discarded *)

(** The [i]-th range of the guest, as it is handed on. *)
Definition segment (bc : blockif_ctxt) (hmem : Z -> Z) (base : Z) (i : nat) : Z * Z :=
  let rg := range_at hmem base i in
  (s64 (dr_sector rg * DEV_BSIZE + bc_sub_file_start_lba bc), u32 (dr_num_sectors rg * DEV_BSIZE)).

Definition discarded (s : sys) : option (Z * Z) :=
  match s with SysDiscard start len | SysPunch start len => Some (start, len) | _ => None end.

Lemma collect_ok bc hmem base n : forall i args args',
  collect_ranges bc hmem base n i args = Ret (inr args') ->
  args' = args ++ map (segment bc hmem base) (seq i n) /\
  (n = 0%nat \/ Z.of_nat (i + n) <= bc_max_discard_seg bc) /\
  Forall (fun sg => discard_range_validate bc sg.1 sg.2 = 0) (map (segment bc hmem base) (seq i n)).
Proof.
  induction n as [|n IH]; intros i args args' E; cbn [collect_ranges] in E.
  - injection E as <-. split_and!; [by rewrite app_nil_r|by left|constructor].
  - destruct (256 <=? i)%nat; [done|]. destruct (Z.ltb_spec (bc_max_discard_seg bc) (Z.of_nat (S i))); [done|].
    destruct (discard_range_validate _ _ _ =? 0) eqn:Ev; [|done]. cbn [negb] in E. apply IH in E as (-> & Hn & Hf).
    apply Z.eqb_eq in Ev. split_and!.
    + by rewrite <- app_assoc.
    + right. destruct Hn as [->|]; lia.
    + cbn [seq map]. by constructor.
Qed.

Lemma omap_snoc {A B} (f : A -> option B) l x : omap f (l ++ [x]) = omap f l ++ omap f [x].
Proof. apply omap_app. Qed.

Lemma segments_ok bc io args : forall i log0 err log,
  discard_segments bc io i args log0 = (err, log) ->
  exists k, omap discarded log = omap discarded log0 ++ take k args /\ (err = 0 -> k = length args).
Proof.
  induction args as [|[start len] args IH]; intros i log0 err log E; cbn [discard_segments] in E.
  - injection E as <- <-. exists 0%nat. by rewrite app_nil_r.
  - set (r := if bc_isblk bc then _ else _) in E. destruct r as [e1 log1] eqn:Er.
    assert (H1 : omap discarded log1 = omap discarded log0 ++ [(start, len)]).
    { unfold r in Er. repeat case_match; injection Er as <- <-; by rewrite omap_app. }
    destruct (Z.eqb_spec e1 0) as [->|He]; cbn [negb] in E.
    + destruct (IH _ _ _ _ E) as (k & Hk & Hl). exists (S k). split.
      * by rewrite Hk, H1, <- app_assoc.
      * intros He. cbn. by rewrite Hl.
    + injection E as <- <-. exists 1%nat. split; [by rewrite H1; cbn; rewrite take_0|done].
Qed.

Lemma validate_ok bc start len :
  discard_range_validate bc start len = 0 ->
  len <> 0 /\ s64 (start + len) <= bc_size bc + bc_sub_file_start_lba bc /\
  Z.quot len DEV_BSIZE <= bc_max_discard_sectors bc /\
  (bc_discard_sector_alignment bc = 0 \/ Z.rem (Z.quot start DEV_BSIZE) (bc_discard_sector_alignment bc) = 0).
Proof.
  unfold discard_range_validate. intros H.
  destruct (Z.eqb_spec len 0), (Z.ltb_spec (bc_size bc + bc_sub_file_start_lba bc) (s64 (start + len))); try done.
  destruct (Z.ltb_spec (bc_max_discard_sectors bc) (Z.quot len DEV_BSIZE)); [done|].
  destruct (Z.eqb_spec (bc_discard_sector_alignment bc) 0); [lia|].
  destruct (Z.eqb_spec (Z.rem (Z.quot start DEV_BSIZE) (bc_discard_sector_alignment bc)) 0); [|done].
  lia.
Qed.

(** C11. A discard of ranges that the guest lists is all or nothing as far as
    the checks go: if anything at all is discarded, the device may discard and be
    written, the ranges are no more than allowed, and every one of them ends in
    the disk, is not too long and starts aligned.  What is then discarded is the
    ranges listed, in order, up to one that fails, and when no error is reported
    all of them. *)
Theorem discard_in_range bc hmem io br base len iov err br' log :
  br_iovcnt br = 1 -> br_iov br = (base, len) :: iov ->
  blockif_process_discard bc hmem io br = Ret (err, br', log) ->
  let n := Z.to_nat (s32 (len / sizeof_range)) in
  (log <> [] ->
     bc_candiscard bc = true /\ bc_rdonly bc = false /\ Z.of_nat n <= bc_max_discard_seg bc /\
     forall i, (i < n)%nat -> let '(start, size) := segment bc hmem base i in
       size <> 0 /\ s64 (start + size) <= bc_size bc + bc_sub_file_start_lba bc /\
       Z.quot size DEV_BSIZE <= bc_max_discard_sectors bc /\
       (bc_discard_sector_alignment bc = 0 \/ Z.rem (Z.quot start DEV_BSIZE) (bc_discard_sector_alignment bc) = 0)) /\
  (exists k, omap discarded log = take k (map (segment bc hmem base) (seq 0 n)) /\
     (err = 0 -> k = n /\ br_resid br' = 0)).
Proof.
  intros Hc Hiov E. unfold blockif_process_discard in E. rewrite Hc, Hiov in E.
  destruct (bc_candiscard bc) eqn:Hcd; [|injection E as <- <- <-; split; [done|by exists 0%nat]].
  destruct (bc_rdonly bc) eqn:Hro; [injection E as <- <- <-; split; [done|by exists 0%nat]|].
  set (n := Z.to_nat _) in E. destruct (collect_ranges bc hmem base n 0 []) as [[e|args]|] eqn:Ea; [| |done].
  - assert (e = EINVAL) as ->.
    { clear -Ea. revert Ea. generalize 0%nat, (@nil (Z * Z)). induction n as [|n IH]; intros i l E; [done|].
      cbn [collect_ranges] in E. repeat (case_match; try done); try (by injection E). by eapply IH. }
    injection E as <- <- <-. split; [done|by exists 0%nat].
  - apply collect_ok in Ea as (-> & Hmax & Hf). rewrite app_nil_l in E.
    change (1 =? 1) with true in E. cbn [negb mbind outcome_bind] in E.
    destruct (discard_segments _ _ _ _ _) as [e1 log1] eqn:Es.
    destruct (segments_ok _ _ _ _ _ _ _ Es) as (k & Hk & Hlen). rewrite length_map, length_seq in Hlen.
    assert (log1 = log) as <- by (destruct (e1 =? 0); by injection E).
    split.
    + intros Hne. split_and!; [done..| |].
      * destruct Hmax as [Hn|]; [|done]. rewrite Hn in Es. by injection Es as <- <-.
      * intros i Hi. rewrite Forall_map, Forall_forall in Hf. specialize (Hf i). rewrite elem_of_seq in Hf.
        specialize (Hf ltac:(lia)). apply validate_ok in Hf. by destruct (segment bc hmem base i).
    + exists k. split; [done|]. intros ->. destruct (Z.eqb_spec e1 0) as [->|]; cbn [negb] in E.
      * injection E as <-. split; [by apply Hlen|done].
      * injection E as ?. done.
Qed.

(** ** Two writes, the second where the first ends *)

Definition disk : blockif_ctxt :=
  mkCtxt true true false (2 ^ 20) false 0 512 512 0 64 4 1 false [] [] [] [] 1.
Definition writes : breqs :=
  {[0%nat := mkReq [(0x1000, 512)] 1 0 512; 1%nat := mkReq [(0x2000, 512)] 1 512 512]}.
Definition asked (b : blk) (r : nat) : blk :=
  match blockif_request (ctxt b) (the_reqs b) r BOP_WRITE with Ret (_, _, bc) => b <| ctxt := bc |> | _ => b end.
Definition b1 : blk := asked (blk_init disk writes) 0.
Definition b2 : blk := asked b1 1.

(** The second waits for the first, so nobody is woken for it. *)
Example b2_blocked :
  option_map be_status (reqs (ctxt b2) !! 71%nat) = Some BST_PEND /\
  option_map be_status (reqs (ctxt b2) !! 70%nat) = Some BST_BLOCK /\ pendq (ctxt b2) = [71; 70]%nat.
Proof. by vm_compute. Qed.

Lemma asked_step hmem b r : Waiting ∉ workers b -> rtc (blk_step hmem) b (asked b r).
Proof.
  intros Hw. unfold asked. destruct (blockif_request _ _ _ _) as [[[rc sig] bc]|] eqn:E; [|done]. apply rtc_once.
  destruct sig; [|by eapply bk_request].
  change (b <| ctxt := bc |>) with (b <| ctxt := bc |> <| workers := workers b |>).
  apply (bk_request_signal _ _ r BOP_WRITE rc bc); [done|by apply woken_none].
Qed.

Lemma asked_workers b r : workers (asked b r) = workers b.
Proof. unfold asked. by repeat case_match. Qed.

Lemma b2_reachable : rtc (blk_step (fun _ => 0)) (blk_init disk writes) b2.
Proof.
  assert (Hw : Waiting ∉ workers (blk_init disk writes))
    by (change (Waiting ∉ replicate BLOCKIF_NUMTHR Awake); by intros [? _]%elem_of_replicate).
  transitivity b1; apply asked_step; [done|]. unfold b1. by rewrite asked_workers.
Qed.

Lemma blk_queues_ok_witness :
  rtc (blk_step (fun _ => 0)) (blk_init disk writes) b2 /\ queues_ok (ctxt b2) (the_reqs b2).
Proof. split; [apply b2_reachable|]. apply (blk_queues_ok (fun _ => 0) disk writes b2 b2_reachable). Defined.

Lemma b2_idle : busyq (ctxt b2) = [].
Proof. vm_compute. reflexivity. Qed.

Lemma b2_workers : workers b2 = replicate BLOCKIF_NUMTHR Awake.
Proof. vm_compute. reflexivity. Qed.
Lemma b2_open : bc_closing (ctxt b2) = false.
Proof. vm_compute. reflexivity. Qed.

Lemma blk_never_stuck_witness :
  exists t i l bc', workers b2 !! t = Some Awake /\ pendq (ctxt b2) = i :: l /\
    blockif_dequeue (ctxt b2) t = Ret (Some i, bc').
Proof.
  destruct (blk_never_stuck (fun _ => 0) disk writes b2 b2_reachable) as [(t & i & _ & Hi)|[(t & i & bc' & Hw & _)|[_ H]]].
  - exact b2_open.
  - by rewrite (proj2 (proj2 b2_blocked)).
  - rewrite b2_idle in Hi. by apply elem_of_nil in Hi.
  - rewrite b2_workers in Hw. by apply lookup_replicate in Hw as [? _].
  - exact H.
Defined.

(** 8 GiB. *)
Definition big_disk : blockif_ctxt := disk <| bc_size := 2 ^ 33 |>.

Lemma blockif_chs_bounds_witness :
  exists c h s, blockif_chs big_disk = Ret (c, h, s) /\ 0 <= c <= 65535 /\ 4 <= h <= 16 /\ s ∈ [17; 31; 63; 255] /\
    c = Z.min (bc_size big_disk / bc_sectsz big_disk) (65535 * 16 * 255) / (h * s).
Proof. apply (blockif_chs_bounds big_disk); vm_compute; [split; [discriminate|reflexivity]|reflexivity]. Defined.

(** Two ranges: sectors 8..9 and 100..103. *)
Definition range_mem (a : Z) : Z := if a =? 0x1000 then 8 else if a =? 0x1008 then 2 else if a =? 0x1010 then 100
  else if a =? 0x1018 then 4 else 0.
Definition ranges : blockif_req := mkReq [(0x1000, 32)] 1 0 32.
Definition obliging : io_answer := mkIo true (inl []) (inl 0) 0 (fun _ => 0) (fun _ => 0).

Lemma discard_in_range_witness :
  exists err br' log, blockif_process_discard disk range_mem obliging ranges = Ret (err, br', log) /\
    log = [SysDiscard 4096 1024; SysDiscard 51200 2048] /\
    (err = 0 -> exists k, omap discarded log = take k (map (segment disk range_mem 0x1000) (seq 0 2)) /\ k = 2%nat).
Proof.
  eexists _, _, _. split; [vm_compute; reflexivity|]. split; [reflexivity|]. intros He.
  destruct (discard_in_range disk range_mem obliging ranges 0x1000 32 [] 0 (mkReq [(0x1000, 32)] 1 0 0)
    [SysDiscard 4096 1024; SysDiscard 51200 2048]) as [_ (k & Hk & Hn)];
    [reflexivity|reflexivity|vm_compute; reflexivity|].
  exists k. split; [exact Hk|]. by destruct (Hn eq_refl) as [Hn' _].
Defined.
