(* ===== verification/Mevent.v ===== *)
(** * The event loop

    [src/devicemodel/core/mevent.c]: events on file descriptors, the thread that
    waits for them and the deletions that other threads leave to it.

    A pointer to a [struct mevent] is its number in [heap]; a freed one has no
    entry, and its number may be used again.  [epoll] is the interest list of
    the kernel, as [epoll_ctl] documents it: by descriptor, what is waited
    for and the pointer that is handed back.  Closing a descriptor takes it out
    of the list (no descriptor is duplicated).  What a function does under the mutex is a
    step, and what it does after giving the mutex back is another: so an event
    that [mevent_enable] has found in the list may be deleted before its fields are
    read, and one that [mevent_handle] has seen running before its handler is called. *)
From S2P Require Import Prelude.

Definition MEVENT_MAX := 64.
Definition EPOLLIN := 1.
Definition EPOLLOUT := 4.
Definition EPOLLET := Z.shiftl 1 31.
Definition EEXIST := 17.
Definition ENOENT := 2.
Definition STDIN_FILENO := 0.
(** The capacity of a pipe. *)
Definition PIPE_SIZE := 65536.

Inductive ev_type := EVF_READ | EVF_WRITE | EVF_READ_ET | EVF_WRITE_ET | EVF_TIMER | EVF_SIGNAL.
#[export] Instance ev_type_eq_dec : EqDecision ev_type.
Proof. solve_decision. Defined.

(** Functions and their arguments are numbers; function 0 is [mevent_pipe_read]. *)
Definition fn_mevent_pipe_read := 0%nat.

Record mevent := mkMevent {
  run : nat; run_param : nat; teardown : option nat; teardown_param : nat;
  me_fd : Z; me_type : ev_type; me_state : Z; closefd : Z
}.
#[export] Instance mevent_eta : Settable mevent := fun e =>
  mkMevent (run e) (run_param e) (teardown e) (teardown_param e) (me_fd e) (me_type e) (me_state e) (closefd e).

(** What an observer sees. *)
Inductive act := Run (f : nat) (fd : Z) (t : ev_type) (param : nat) | Teardown (f param : nat) | Close (fd : Z).

(** The globals of the file; [pipe] is the number of bytes in it. *)
Record mev := mkMev {
  heap : gmap nat mevent;
  global_head : list nat;
  del_head : list nat;
  epoll : gmap Z (Z * nat);
  pipe : Z;
  mevent_pipefd : Z * Z;
  acts : list act
}.
#[export] Instance mev_eta : Settable mev := fun s =>
  mkMev (heap s) (global_head s) (del_head s) (epoll s) (pipe s) (mevent_pipefd s) (acts s).

(** ** Memory, lists and descriptors *)

Definition deref (p : nat) : M mev mevent := fun s =>
  match heap s !! p with Some e => Ret (e, s) | None => Stop UseAfterFree end.
Definition store (p : nat) (f : mevent -> mevent) : M mev unit :=
  _ ← deref p; modify (fun s => s <| heap ::= alter f p |>).
Definition free (p : nat) : M mev unit := _ ← deref p; modify (fun s => s <| heap ::= delete p |>).
Definition log (a : act) : M mev unit := modify (fun s => s <| acts ::= fun l => l ++ [a] |>).

(** [LIST_REMOVE]: the links tell which list it is. *)
Definition list_remove (p : nat) : M mev unit := fun s =>
  if bool_decide (p ∈ global_head s) then Ret (tt, s <| global_head ::= unlink p |>)
  else if bool_decide (p ∈ del_head s) then Ret (tt, s <| del_head ::= unlink p |>)
  else Stop OobAccess.

(** The [errno]; [answer] is the kernel's when the descriptor is not in the list. *)
Definition epoll_ctl_add (answer fd ev : Z) (p : nat) : M mev Z := fun s =>
  match epoll s !! fd with
  | Some _ => Ret (EEXIST, s)
  | None => if answer =? 0 then Ret (0, s <| epoll ::= <[fd := (ev, p)]> |>) else Ret (answer, s)
  end.
Definition epoll_ctl_del (fd : Z) : M mev Z := fun s =>
  match epoll s !! fd with
  | Some _ => Ret (0, s <| epoll ::= delete fd |>)
  | None => Ret (ENOENT, s)
  end.
Definition close (fd : Z) : M mev unit :=
  _ ← modify (fun s => s <| epoll ::= delete fd |>); log (Close fd).

(** ** The pipe *)

(** [read] of at most [n] bytes from the pipe, which does not block: -1 when
    there is nothing. *)
Definition read_pipe (n : Z) : M mev Z := fun s =>
  if pipe s =? 0 then Ret (-1, s) else Ret (Z.min n (pipe s), s <| pipe ::= fun b => b - Z.min n b |>).

Fixpoint pipe_read_loop (fuel : nat) : M mev unit :=
  match fuel with
  | O => halt OutOfFuel
  | S fuel => status ← read_pipe MEVENT_MAX; if status =? MEVENT_MAX then pipe_read_loop fuel else mret tt
  end.
(** A round for each [MEVENT_MAX] bytes and one more. *)
Definition mevent_pipe_read : M mev unit := fun s => pipe_read_loop (S (Z.to_nat (pipe s / MEVENT_MAX))) s.

Definition mevent_notify (is_dispatch_thread : bool) : M mev Z := fun s =>
  if negb (snd (mevent_pipefd s) =? 0) && negb is_dispatch_thread then
    if PIPE_SIZE <=? pipe s then Ret (-1, s) else Ret (0, s <| pipe ::= fun b => b + 1 |>)
  else Ret (0, s).

(** ** Adding *)

Definition mevent_kq_filter (mevp : mevent) : Z :=
  let retval := 0 in
  let retval := if bool_decide (me_type mevp = EVF_READ) then EPOLLIN else retval in
  let retval := if bool_decide (me_type mevp = EVF_READ_ET) then Z.lor EPOLLIN EPOLLET else retval in
  let retval := if bool_decide (me_type mevp = EVF_WRITE) then EPOLLOUT else retval in
  if bool_decide (me_type mevp = EVF_WRITE_ET) then Z.lor EPOLLOUT EPOLLET else retval.

(** The loop over [global_head], with the mutex. *)
Fixpoint find_tuple (tfd : Z) (type : ev_type) (l : list nat) : M mev (option nat) :=
  match l with
  | [] => mret None
  | lp :: l => e ← deref lp;
               if bool_decide (me_fd e = tfd /\ me_type e = type) then mret (Some lp) else find_tuple tfd type l
  end.
Definition add_find (tfd : Z) (type : ev_type) : M mev (option nat) := s ← get; find_tuple tfd type (global_head s).

(** What the caller asks for. *)
Record add_args := mkArgs { a_fd : Z; a_type : ev_type; a_run : option nat; a_run_param : nat;
  a_teardown : option nat; a_teardown_param : nat }.
Definition new_event (a : add_args) (run : nat) : mevent :=
  mkMevent run (a_run_param a) (a_teardown a) (a_teardown_param a) (a_fd a) (a_type a) 1 0.

(** Without the mutex: allocate, fill in, register.  [calloc] is the address. *)
Definition add_register (calloc : option nat) (answer : Z) (a : add_args) (run : nat) : M mev (option nat) :=
  match calloc with
  | None => mret None
  | Some mevp =>
    let e := new_event a run in
    _ ← modify (fun s => s <| heap ::= <[mevp := e]> |>);
    ret ← epoll_ctl_add answer (me_fd e) (mevent_kq_filter e) mevp;
    if ret =? 0 then mret (Some mevp) else _ ← free mevp; mret None
  end.
Definition add_insert (mevp : nat) : M mev unit := modify (fun s => s <| global_head ::= cons mevp |>).

Definition mevent_add (calloc : option nat) (answer : Z) (a : add_args) : M mev (option nat) :=
  match a_run a with
  | None => mret None
  | Some run =>
    if a_fd a <? 0 then mret None
    else if bool_decide (a_type a = EVF_TIMER) then mret None
    else
      lp ← add_find (a_fd a) (a_type a);
      match lp with
      | Some lp => mret (Some lp)
      | None =>
        mevp ← add_register calloc answer a run;
        match mevp with
        | Some mevp => _ ← add_insert mevp; mret (Some mevp)
        | None => mret None
        end
      end
  end.

(** ** Enabling and disabling *)

(** The loop over [global_head], with the mutex. *)
Definition enable_find (evp : nat) : M mev bool := fun s => Ret (bool_decide (evp ∈ global_head s), s).
(** Without the mutex: the fields are read and the event is registered. *)
Definition enable_register (answer : Z) (evp : nat) : M mev Z :=
  e ← deref evp;
  ret ← epoll_ctl_add answer (me_fd e) (mevent_kq_filter e) evp;
  mret (if (ret =? 0) || (ret =? EEXIST) then 0 else -1).
Definition mevent_enable (answer : Z) (evp : nat) : M mev Z :=
  found ← enable_find evp;
  if (found : bool) then enable_register answer evp else mret (-1).

(** [evp->me_fd] is read, then the kernel is called; there is no mutex. *)
Definition disable_fd (evp : nat) : M mev Z := e ← deref evp; mret (me_fd e).
Definition disable_unregister (fd : Z) : M mev Z :=
  ret ← epoll_ctl_del fd;
  mret (if (ret =? 0) || (ret =? ENOENT) then 0 else -1).
Definition mevent_disable (evp : nat) : M mev Z := fd ← disable_fd evp; disable_unregister fd.

(** ** Deleting *)

Definition run_teardown (e : mevent) : M mev unit :=
  match teardown e with Some f => log (Teardown f (teardown_param e)) | None => mret tt end.

(** The end of an event: its descriptor, its teardown, its memory. *)
Definition finish_event (evp : nat) : M mev unit :=
  e ← deref evp;
  _ ← when (negb (closefd e =? 0)) (close (me_fd e));
  _ ← run_teardown e;
  free evp.

Definition mevent_add_to_del_list (evp : nat) : M mev Z :=
  _ ← modify (fun s => s <| del_head ::= cons evp |>);
  mevent_notify false.

Definition delete_mark (evp : nat) (closefd' : Z) : M mev unit :=
  store evp (fun e => e <| me_state := 0 |> <| closefd := closefd' |>).
Definition delete_unregister (evp : nat) : M mev unit := e ← deref evp; _ ← epoll_ctl_del (me_fd e); mret tt.

Definition mevent_delete_event (is_dispatch_thread : bool) (evp : nat) (closefd' : Z) : M mev Z :=
  _ ← list_remove evp;
  _ ← delete_mark evp closefd';
  _ ← delete_unregister evp;
  _ ← (if negb is_dispatch_thread then _ ← mevent_add_to_del_list evp; mret tt else finish_event evp);
  mret 0.
Definition mevent_delete (is_dispatch_thread : bool) (evp : nat) : M mev Z :=
  mevent_delete_event is_dispatch_thread evp 0.
Definition mevent_delete_close (is_dispatch_thread : bool) (evp : nat) : M mev Z :=
  mevent_delete_event is_dispatch_thread evp 1.

(** [list_foreach_safe] over what [l] was when the loop began. *)
Fixpoint drain_each (l : list nat) : M mev unit :=
  match l with
  | [] => mret tt
  | evp :: l => _ ← list_remove evp; _ ← finish_event evp; drain_each l
  end.
Definition mevent_drain_del_list : M mev unit := s ← get; drain_each (del_head s).

(** *** The end of the program *)

Definition io_type (t : ev_type) : bool :=
  match t with EVF_READ | EVF_READ_ET | EVF_WRITE | EVF_WRITE_ET => true | _ => false end.

Definition destroy_event (mevp : nat) : M mev unit :=
  e ← deref mevp;
  _ ← when (io_type (me_type e) && negb (me_fd e =? STDIN_FILENO)) (close (me_fd e));
  _ ← run_teardown e;
  free mevp.
Fixpoint destroy_global (l : list nat) : M mev unit :=
  match l with
  | [] => mret tt
  | mevp :: l =>
    _ ← list_remove mevp;
    e ← deref mevp;
    _ ← epoll_ctl_del (me_fd e);
    _ ← destroy_event mevp;
    destroy_global l
  end.
Fixpoint destroy_deleted (l : list nat) : M mev unit :=
  match l with
  | [] => mret tt
  | mevp :: l => _ ← list_remove mevp; _ ← destroy_event mevp; destroy_deleted l
  end.
Definition mevent_destroy : M mev unit :=
  s ← get;
  _ ← destroy_global (global_head s);
  s ← get;
  destroy_deleted (del_head s).

(** ** Dispatching *)

(** Handlers but the one of the pipe are only recorded here; what they do to
    events are calls of the dispatch thread. *)
Definition call_run (f : nat) (fd : Z) (t : ev_type) (param : nat) : M mev unit :=
  if (f =? fn_mevent_pipe_read)%nat then mevent_pipe_read else log (Run f fd t param).

(** [if (mevp->me_state)], and the call; another thread can come between them. *)
Definition handle_check (mevp : nat) : M mev bool := e ← deref mevp; mret (negb (me_state e =? 0)).
Definition handle_run (mevp : nat) : M mev unit :=
  e ← deref mevp; call_run (run e) (me_fd e) (me_type e) (run_param e).
Definition handle_one (mevp : nat) : M mev unit :=
  live ← handle_check mevp;
  if (live : bool) then handle_run mevp else mret tt.
Fixpoint mevent_handle (kev : list nat) : M mev unit :=
  match kev with
  | [] => mret tt
  | mevp :: kev => _ ← handle_one mevp; mevent_handle kev
  end.

(** The globals when the loop begins: the pipe is open and its event is added. *)
Definition no_events (pipefd : Z * Z) : mev := mkMev ∅ [] [] ∅ 0 pipefd [].
Definition pipe_args (pipefd : Z * Z) : add_args := mkArgs (fst pipefd) EVF_READ (Some fn_mevent_pipe_read) 0 None 0.
Definition pipev := 0%nat.
Definition dispatch_begin (pipefd : Z * Z) : outcome (option nat * mev) :=
  mevent_add (Some pipev) 0 (pipe_args pipefd) (no_events pipefd).

(** ** The threads *)

(** What a call is in the middle of: an event is looked up and not there; it is
    registered with the kernel and not in the list yet; one to be enabled was found
    in the list; the descriptor to be disabled is read; one is taken out of the list,
    marked, taken out of the kernel's list; the dispatch thread is to be told. *)
Inductive op :=
  | OpAdd (a : add_args) (run : nat)
  | OpInsert (p : nat)
  | OpEnable (p : nat)
  | OpDisable (fd : Z)
  | OpMark (p : nat) (closefd : Z)
  | OpUnregister (p : nat)
  | OpDefer (p : nat)
  | OpNotify.

(** Where the dispatch thread is: in [epoll_wait]; in [mevent_handle], with [kev]
    still to do; there, with [p] seen running and its handler about to be called. *)
Inductive phase := Waiting | Handling (kev : list nat) | Running (p : nat) (kev : list nat).
Definition reported (d : phase) : list nat :=
  match d with Waiting => [] | Handling kev => kev | Running p kev => p :: kev end.

Record mev_sys := mkSys { st : mev; disp : phase; ops : list op }.

(** The calls follow the rules of the interface: an event is used while it is in
    the list and deleted once; it is not deleted while another thread is in the middle
    of enabling it; the event of the pipe and its descriptor are left
    alone; and a handler does not delete an event that the same [epoll_wait]
    reported and that is still to be handled.  The file checks none of these.  A deletion
    by the dispatch thread is one step: from the unlinking on no other
    thread has the event. *)
Inductive mev_step : mev_sys -> mev_sys -> Prop :=
  (* the dispatch thread *)
  | ms_wait s o kev :
      Z.of_nat (length kev) <= MEVENT_MAX ->
      (forall p, p ∈ kev -> exists fd ev, epoll s !! fd = Some (ev, p)) ->
      mev_step (mkSys s Waiting o) (mkSys s (Handling kev) o)
  | ms_check s o p kev (b : bool) s' :
      handle_check p s = Ret (b, s') ->
      mev_step (mkSys s (Handling (p :: kev)) o) (mkSys s' (if b then Running p kev else Handling kev) o)
  | ms_run s o p kev s' :
      handle_run p s = Ret (tt, s') -> mev_step (mkSys s (Running p kev) o) (mkSys s' (Handling kev) o)
  | ms_drain s o s' :
      mevent_drain_del_list s = Ret (tt, s') -> mev_step (mkSys s (Handling []) o) (mkSys s' Waiting o)
  | ms_delete s o kev p c r s' :
      p ∈ global_head s -> p <> pipev -> (p ∉ kev) -> (OpEnable p ∉ o) ->
      mevent_delete_event true p c s = Ret (r, s') -> mev_step (mkSys s (Handling kev) o) (mkSys s' (Handling kev) o)
  (* any thread *)
  | ms_add s d o a run :
      a_run a = Some run -> 0 <= a_fd a -> a_type a <> EVF_TIMER -> a_fd a <> fst (mevent_pipefd s) ->
      add_find (a_fd a) (a_type a) s = Ret (None, s) -> mev_step (mkSys s d o) (mkSys s d (OpAdd a run :: o))
  | ms_register s d o o' a run calloc answer mevp s' :
      o ≡ₚ OpAdd a run :: o' -> (forall p, calloc = Some p -> heap s !! p = None) ->
      add_register calloc answer a run s = Ret (mevp, s') ->
      mev_step (mkSys s d o) (mkSys s' d (match mevp with Some p => OpInsert p :: o' | None => o' end))
  | ms_insert s d o o' p s' :
      o ≡ₚ OpInsert p :: o' -> add_insert p s = Ret (tt, s') -> mev_step (mkSys s d o) (mkSys s' d o')
  | ms_enable s d o p s' :
      enable_find p s = Ret (true, s') -> mev_step (mkSys s d o) (mkSys s' d (OpEnable p :: o))
  | ms_enabled s d o o' p answer r s' :
      o ≡ₚ OpEnable p :: o' -> enable_register answer p s = Ret (r, s') -> mev_step (mkSys s d o) (mkSys s' d o')
  | ms_disable s d o p fd s' :
      p ∈ global_head s -> p <> pipev -> disable_fd p s = Ret (fd, s') ->
      mev_step (mkSys s d o) (mkSys s' d (OpDisable fd :: o))
  | ms_disabled s d o o' fd r s' :
      o ≡ₚ OpDisable fd :: o' -> disable_unregister fd s = Ret (r, s') -> mev_step (mkSys s d o) (mkSys s' d o')
  | ms_close s d o fd s' :
      fd <> fst (mevent_pipefd s) -> close fd s = Ret (tt, s') -> mev_step (mkSys s d o) (mkSys s' d o)
  (* [mevent_delete_event] of another thread *)
  | ms_unlink s d o p c s' :
      p ∈ global_head s -> p <> pipev -> (OpEnable p ∉ o) -> list_remove p s = Ret (tt, s') ->
      mev_step (mkSys s d o) (mkSys s' d (OpMark p c :: o))
  | ms_mark s d o o' p c s' :
      o ≡ₚ OpMark p c :: o' -> delete_mark p c s = Ret (tt, s') -> mev_step (mkSys s d o) (mkSys s' d (OpUnregister p :: o'))
  | ms_unregister s d o o' p s' :
      o ≡ₚ OpUnregister p :: o' -> delete_unregister p s = Ret (tt, s') ->
      mev_step (mkSys s d o) (mkSys s' d (OpDefer p :: o'))
  | ms_defer s d o o' p :
      o ≡ₚ OpDefer p :: o' -> mev_step (mkSys s d o) (mkSys (s <| del_head ::= cons p |>) d (OpNotify :: o'))
  | ms_notify s d o o' r s' :
      o ≡ₚ OpNotify :: o' -> mevent_notify false s = Ret (r, s') -> mev_step (mkSys s d o) (mkSys s' d o').
