(* ===== verification/MeventSpec.v ===== *)
(** * The event loop frees nothing too early and forgets nothing

    [src/devicemodel/core/mevent.c]: what the operations of [Mevent.v] do, the
    invariant of the lists and of the kernel's interest list in every reachable
    state, and that a deferred deletion wakes the dispatch thread. *)
From S2P Require Import Prelude Mevent.

(** ** What the operations do *)

Lemma deref_run p e s : heap s !! p = Some e -> deref p s = Ret (e, s).
Proof. intros H. unfold deref. by rewrite H. Qed.

Lemma free_run p e s : heap s !! p = Some e -> free p s = Ret (tt, s <| heap ::= delete p |>).
Proof. intros H. unfold free, mbind, M_bind. by rewrite (deref_run _ _ _ H). Qed.

(** The descriptor of an event that is closed is no longer waited for. *)
Definition finish_epoll (e : mevent) (ep : gmap Z (Z * nat)) : gmap Z (Z * nat) :=
  if closefd e =? 0 then ep else delete (me_fd e) ep.
Definition teardown_acts (e : mevent) : list act :=
  match teardown e with Some f => [Teardown f (teardown_param e)] | None => [] end.
Definition finish_acts (e : mevent) : list act :=
  (if closefd e =? 0 then [] else [Close (me_fd e)]) ++ teardown_acts e.

Lemma finish_event_run p e s :
  heap s !! p = Some e ->
  finish_event p s = Ret (tt, mkMev (delete p (heap s)) (global_head s) (del_head s) (finish_epoll e (epoll s))
    (pipe s) (mevent_pipefd s) (acts s ++ finish_acts e)).
Proof.
  intros H. unfold finish_event, mbind, M_bind. rewrite (deref_run _ _ _ H).
  unfold finish_epoll, finish_acts, when, close, run_teardown, teardown_acts, free, log, modify, mret, M_ret, mbind, M_bind, deref.
  destruct s. cbn in H |- *. destruct (closefd e =? 0), (teardown e); cbn; rewrite H; unfold field_upd; cbn;
    by rewrite ?app_nil_r, <- ?app_assoc.
Qed.

Lemma list_remove_run p s : p ∈ global_head s -> list_remove p s = Ret (tt, s <| global_head ::= unlink p |>).
Proof. intros H. unfold list_remove. by rewrite bool_decide_eq_true_2. Qed.

Lemma unlink_head p l : p ∉ l -> unlink p (p :: l) = l.
Proof.
  intros H. unfold unlink. rewrite filter_cons_False by (intros Hn; by apply Hn). by apply unlink_notin.
Qed.

(** One round of the loop over the deleted events. *)
Lemma drain_step p l s e :
  del_head s = p :: l -> (p ∉ l) -> (p ∉ global_head s) -> heap s !! p = Some e ->
  (_ ← list_remove p; _ ← finish_event p; drain_each l) s =
  drain_each l (mkMev (delete p (heap s)) (global_head s) l (finish_epoll e (epoll s)) (pipe s) (mevent_pipefd s)
    (acts s ++ finish_acts e)).
Proof.
  intros Hd Hl Hg He. unfold mbind at 1, M_bind at 1. unfold list_remove.
  rewrite bool_decide_eq_false_2 by done. rewrite bool_decide_eq_true_2 by (rewrite Hd; by left).
  unfold mbind, M_bind. rewrite (finish_event_run p e) by done. unfold field_upd. cbn.
  by rewrite Hd, unlink_head.
Qed.

Record drained (l : list nat) (s s' : mev) : Prop := {
  dr_del : del_head s' = [];
  dr_global : global_head s' = global_head s;
  dr_heap : forall q, heap s' !! q = if decide (q ∈ l) then None else heap s !! q;
  dr_epoll : forall fd x, epoll s' !! fd = Some x -> epoll s !! fd = Some x;
  dr_keep : forall fd, (forall p e, p ∈ l -> heap s !! p = Some e -> me_fd e <> fd) -> epoll s' !! fd = epoll s !! fd;
  dr_pipe : pipe s' = pipe s /\ mevent_pipefd s' = mevent_pipefd s;
  dr_acts : acts s' = acts s ++ flat_map (fun p => match heap s !! p with Some e => finish_acts e | None => [] end) l
}.

Lemma finish_epoll_sub e ep fd x : finish_epoll e ep !! fd = Some x -> ep !! fd = Some x.
Proof. unfold finish_epoll. destruct (_ =? 0); [done|]. by intros [_ ?]%lookup_delete_Some. Qed.
Lemma finish_epoll_ne e ep fd : me_fd e <> fd -> finish_epoll e ep !! fd = ep !! fd.
Proof. unfold finish_epoll. destruct (_ =? 0); [done|]. intros. by apply lookup_delete_ne. Qed.

Lemma drain_each_run l : forall s,
  del_head s = l -> NoDup l -> (forall p, p ∈ l -> (p ∉ global_head s) /\ is_Some (heap s !! p)) ->
  exists s', drain_each l s = Ret (tt, s') /\ drained l s s'.
Proof.
  induction l as [|p l IH]; intros s Hd Hn Hl.
  { exists s. split; [done|]. split; try done. cbn. by rewrite app_nil_r. }
  apply NoDup_cons in Hn as [Hp Hn]. destruct (Hl p) as [Hg [e He]]; [by left|].
  cbn [drain_each]. rewrite (drain_step p l s e) by done.
  set (s1 := mkMev _ _ _ _ _ _ _). destruct (IH s1) as (s' & E & Hs'); [done|done| |].
  { intros q Hq. destruct (Hl q) as [Hqg Hqh]; [by right|]. split; [done|]. cbn.
    rewrite lookup_delete_ne; [done|]. by intros ->. }
  exists s'. split; [done|]. destruct Hs' as [D1 D2 D3 D4 D5 D6 D7]. split; try done.
  - intros q. rewrite D3. cbn. destruct (decide (q = p)) as [->|Hq].
    + rewrite decide_False by done. rewrite decide_True by (by left). apply lookup_delete_eq.
    + rewrite lookup_delete_ne by done. destruct (decide (q ∈ l)).
      * by rewrite decide_True by (by right).
      * rewrite decide_False; [done|]. by intros [|]%elem_of_cons.
  - intros fd x Hx%D4. by apply finish_epoll_sub in Hx.
  - intros fd Hfd. rewrite D5.
    + cbn. apply finish_epoll_ne. apply (Hfd p e); [by left|done].
    + intros q f Hq Hf. cbn in Hf. apply lookup_delete_Some in Hf as [_ Hf]. apply (Hfd q f); [by right|done].
  - rewrite D7. cbn. rewrite He, <- app_assoc. do 2 f_equal. clear -Hp. induction l as [|q l IH]; [done|]. cbn.
    apply not_elem_of_cons in Hp as [Hq Hp]. rewrite lookup_delete_ne by done. f_equal. by apply IH.
Qed.

(** *** The pipe *)

Definition set_pipe (n : Z) (s : mev) : mev := s <| pipe := n |>.

Lemma pipe_read_loop_run fuel : forall s,
  0 <= pipe s -> pipe s / MEVENT_MAX < Z.of_nat fuel -> pipe_read_loop fuel s = Ret (tt, set_pipe 0 s).
Proof.
  unfold MEVENT_MAX. induction fuel as [|fuel IH]; intros s Hp Hf.
  { Z.div_mod_to_equations. lia. }
  cbn [pipe_read_loop]. unfold mbind, M_bind, read_pipe, MEVENT_MAX. destruct (Z.eqb_spec (pipe s) 0) as [E|E].
  - unfold mret, M_ret. cbn. do 2 f_equal. unfold set_pipe. destruct s. cbn in E. by subst.
  - destruct (Z.eqb_spec (Z.min 64 (pipe s)) 64) as [E1|E1].
    + rewrite IH; [by destruct s| |]; destruct s; unfold field_upd; cbn in *; [lia|].
      Z.div_mod_to_equations. lia.
    + unfold mret, M_ret. do 2 f_equal. destruct s. unfold set_pipe, field_upd. cbn in *. f_equal. lia.
Qed.

Lemma mevent_pipe_read_run s : 0 <= pipe s -> mevent_pipe_read s = Ret (tt, set_pipe 0 s).
Proof.
  intros Hp. apply pipe_read_loop_run; [done|].
  assert (0 <= pipe s / MEVENT_MAX) by (apply Z.div_pos; [done|unfold MEVENT_MAX; lia]). lia.
Qed.

(** ** The invariant *)

(** The events that an unfinished call has taken out of, or not put into, a list;
    those of them the kernel may still know; those that no longer run. *)
Definition op_ids (o : op) : list nat :=
  match o with OpInsert p | OpMark p _ | OpUnregister p | OpDefer p => [p] | _ => [] end.
Definition op_reg (o : op) : list nat :=
  match o with OpInsert p | OpMark p _ | OpUnregister p => [p] | _ => [] end.
Definition op_dead (o : op) : list nat := match o with OpUnregister p | OpDefer p => [p] | _ => [] end.
(** What a descriptor may not be: that of the pipe. *)
Definition op_fds (o : op) : list Z := match o with OpAdd a _ => [a_fd a] | OpDisable fd => [fd] | _ => [] end.
(** The events that are being enabled. *)
Definition op_uses (o : op) : list nat := match o with OpEnable p => [p] | _ => [] end.

Definition ids (s : mev) (o : list op) : list nat := global_head s ++ del_head s ++ flat_map op_ids o.

(** The heap holds exactly these, once each. *)
Definition owns (h : gmap nat mevent) (l : list nat) : Prop := NoDup l /\ forall p, is_Some (h !! p) <-> p ∈ l.

Definition pipe_event (fd : Z) : mevent := mkMevent fn_mevent_pipe_read 0 None 0 fd EVF_READ 1 0.

Record mev_inv (s : mev) (d : phase) (o : list op) : Prop := {
  mi_owns : owns (heap s) (ids s o);
  mi_epoll : forall fd ev p, epoll s !! fd = Some (ev, p) ->
    (exists e, heap s !! p = Some e /\ me_fd e = fd) /\ p ∈ global_head s ++ flat_map op_reg o;
  mi_batch : forall p, p ∈ reported d -> is_Some (heap s !! p);
  mi_dead : forall p e, p ∈ del_head s ++ flat_map op_dead o -> heap s !! p = Some e -> me_state e = 0;
  mi_pipefd : snd (mevent_pipefd s) <> 0 /\ 0 <= pipe s;
  mi_pipev : pipev ∈ global_head s /\ heap s !! pipev = Some (pipe_event (fst (mevent_pipefd s))) /\
    epoll s !! fst (mevent_pipefd s) = Some (EPOLLIN, pipev);
  mi_fd : (forall p e, heap s !! p = Some e -> me_fd e = fst (mevent_pipefd s) -> p = pipev) /\
    (fst (mevent_pipefd s) ∉ flat_map op_fds o);
  mi_wake : del_head s <> [] -> d <> Waiting \/ 0 < pipe s \/ OpNotify ∈ o;
  mi_uses : forall p, p ∈ flat_map op_uses o -> p ∈ global_head s
}.

Lemma elem_of_flat_map {A B} (f : A -> list B) l y : y ∈ flat_map f l <-> exists x, x ∈ l /\ y ∈ f x.
Proof. rewrite list_elem_of_In, in_flat_map. by setoid_rewrite list_elem_of_In. Qed.

Lemma owns_perm h l l' : l ≡ₚ l' -> owns h l -> owns h l'.
Proof. intros E [H1 H2]. split; [by rewrite <- E|]. intros p. by rewrite <- E. Qed.
Lemma owns_same h h' l : (forall p, is_Some (h' !! p) <-> is_Some (h !! p)) -> owns h l -> owns h' l.
Proof. intros E [H1 H2]. split; [done|]. intros p. by rewrite E. Qed.
Lemma owns_insert h p e l : h !! p = None -> owns h l -> owns (<[p := e]> h) (p :: l).
Proof.
  intros Hp [H1 H2]. split.
  - apply NoDup_cons. split; [|done]. intros [x Hx]%H2. by rewrite Hp in Hx.
  - intros q. rewrite elem_of_cons, <- H2. destruct (decide (q = p)) as [->|Hq].
    + rewrite lookup_insert_eq. split; [by left|by eexists].
    + rewrite lookup_insert_ne by done. tauto.
Qed.
Lemma owns_delete h p l : owns h (p :: l) -> owns (delete p h) l.
Proof.
  intros [[Hp H1]%NoDup_cons H2]. split; [done|]. intros q. destruct (decide (q = p)) as [->|Hq].
  - rewrite lookup_delete_eq. split; [by intros [? ?]|done].
  - rewrite lookup_delete_ne by done. rewrite H2, elem_of_cons. tauto.
Qed.

#[export] Instance flat_map_perm {A B} (f : A -> list B) : Proper ((≡ₚ) ==> (≡ₚ)) (flat_map f).
Proof. intros l l' H. by apply Permutation_flat_map. Qed.

Lemma owns_drop h l l' h' :
  NoDup (l ++ l') -> owns h (l ++ l') -> (forall q, h' !! q = if decide (q ∈ l) then None else h !! q) -> owns h' l'.
Proof.
  intros Hn [_ H2] Hh. apply NoDup_app in Hn as (_ & Hll & Hn'). split; [done|]. intros q. rewrite Hh.
  destruct (decide (q ∈ l)) as [Hq|Hq].
  - split; [by intros [? ?]|]. intros Hq'. by destruct (Hll q Hq).
  - rewrite H2, elem_of_app. tauto.
Qed.

Lemma ids_del s o : ids s o ≡ₚ del_head s ++ global_head s ++ flat_map op_ids o.
Proof. unfold ids. rewrite !app_assoc. f_equiv. apply Permutation_app_comm. Qed.

(** Only what calls are unfinished counts, not their order. *)
Lemma mev_inv_perm s d o o' : o ≡ₚ o' -> mev_inv s d o -> mev_inv s d o'.
Proof.
  intros E [I1 I2 I3 I4 I5 I6 I7 I8 I9]. split; try done.
  - revert I1. apply owns_perm. unfold ids. by rewrite E.
  - intros fd ev p H. rewrite <- E. by apply (I2 fd ev).
  - intros p e. rewrite <- E. by apply I4.
  - by rewrite <- E.
  - by rewrite <- E.
  - intros p. rewrite <- E. by apply I9.
Qed.

Lemma handle_check_run p s e : heap s !! p = Some e -> handle_check p s = Ret (negb (me_state e =? 0), s).
Proof. intros He. unfold handle_check, mbind, M_bind. by rewrite (deref_run _ _ _ He). Qed.

(** What a handler leaves alone. *)
Record handled (s s' : mev) : Prop := {
  ha_heap : heap s' = heap s; ha_global : global_head s' = global_head s; ha_del : del_head s' = del_head s;
  ha_epoll : epoll s' = epoll s; ha_pipefd : mevent_pipefd s' = mevent_pipefd s; ha_pipe : 0 <= pipe s'
}.

(** The handler of the pipe and the others touch no event. *)
Lemma handle_run_run p s e :
  heap s !! p = Some e -> 0 <= pipe s ->
  exists s', handle_run p s = Ret (tt, s') /\ handled s s' /\
    acts s' = acts s ++ (if (run e =? fn_mevent_pipe_read)%nat then [] else [Run (run e) (me_fd e) (me_type e) (run_param e)]).
Proof.
  intros He Hp. unfold handle_run, mbind, M_bind. rewrite (deref_run _ _ _ He).
  unfold call_run. destruct (run e =? fn_mevent_pipe_read)%nat.
  - rewrite mevent_pipe_read_run by done. eexists. split; [reflexivity|]. unfold set_pipe, field_upd. destruct s. cbn.
    split; [by split|]. by rewrite app_nil_r.
  - unfold log, modify, field_upd. eexists. split; [reflexivity|]. destruct s. split; [by split|done].
Qed.

Lemma handle_one_run p s e :
  heap s !! p = Some e -> 0 <= pipe s ->
  exists s', handle_one p s = Ret (tt, s') /\ handled s s' /\
    acts s' = acts s ++ (if (me_state e =? 0) || (run e =? fn_mevent_pipe_read)%nat then []
                         else [Run (run e) (me_fd e) (me_type e) (run_param e)]).
Proof.
  intros He Hp. unfold handle_one, mbind, M_bind. rewrite (handle_check_run _ _ _ He).
  destruct (me_state e =? 0); cbn [negb orb].
  - exists s. split_and!; [done|by split|by rewrite app_nil_r].
  - by apply handle_run_run.
Qed.

Section Kept.
Context (s : mev) (o : list op).

Lemma await_inv kev :
  mev_inv s Waiting o -> (forall p, p ∈ kev -> exists fd ev, epoll s !! fd = Some (ev, p)) -> mev_inv s (Handling kev) o.
Proof.
  intros [I1 I2 I3 I4 I5 I6 I7 I8 I9] Hk. split; try done.
  - intros p Hp. destruct (Hk p Hp) as (fd & ev & H). destruct (I2 _ _ _ H) as [(e & He & _) _]. by exists e.
  - intros _. by left.
Qed.

(** The dispatch thread goes on in its round. *)
Lemma phase_inv d d' : mev_inv s d o -> d' <> Waiting -> (forall p, p ∈ reported d' -> p ∈ reported d) -> mev_inv s d' o.
Proof. intros [I1 I2 I3 I4 I5 I6 I7 I8 I9] Hd Hk. split; try done; [auto|]. intros _. by left. Qed.

Lemma handled_inv d s' : mev_inv s d o -> d <> Waiting -> handled s s' -> mev_inv s' d o.
Proof.
  intros [I1 I2 I3 I4 I5 I6 I7 I8 I9] Hd [H1 H2 H3 H4 H5 H6]. unfold ids in *.
  split; unfold ids; rewrite ?H1, ?H2, ?H3, ?H4, ?H5; try done.
  - split; [apply I5|done].
  - intros _. by left.
Qed.

Lemma check_inv p kev b s' :
  mev_inv s (Handling (p :: kev)) o -> handle_check p s = Ret (b, s') ->
  mev_inv s' (if b then Running p kev else Handling kev) o.
Proof.
  intros I E. destruct (mi_batch _ _ _ I p) as [e He]; [by left|]. rewrite (handle_check_run p s e He) in E.
  injection E as <- <-. apply (phase_inv _ _ I); destruct (negb _); try done. intros q Hq. by right.
Qed.

Lemma run_inv p kev s' :
  mev_inv s (Running p kev) o -> handle_run p s = Ret (tt, s') -> mev_inv s' (Handling kev) o.
Proof.
  intros I E. destruct (mi_batch _ _ _ I p) as [e He]; [by left|].
  destruct (handle_run_run p s e He) as (s1 & E1 & H & _); [apply I|]. rewrite E in E1. injection E1 as <-.
  apply (handled_inv (Handling kev)); [|done|done]. apply (phase_inv _ _ I); [done|]. intros q Hq. by right.
Qed.

Lemma drain_inv kev s' :
  mev_inv s (Handling kev) o -> mevent_drain_del_list s = Ret (tt, s') -> mev_inv s' Waiting o.
Proof.
  intros [I1 I2 I3 I4 I5 I6 I7 I8 I9] E. unfold mevent_drain_del_list, get, mbind, M_bind in E.
  assert (Hd : forall p, p ∈ del_head s -> (p ∉ global_head s) /\ is_Some (heap s !! p)).
  { destruct I1 as [Hn Hh]. intros p Hp. split.
    - intros Hg. destruct (proj1 (NoDup_app _ _) Hn) as (_ & Hgd & _). apply (Hgd p Hg). apply elem_of_app. by left.
    - apply Hh. unfold ids. rewrite !elem_of_app. auto. }
  assert (Hnd : NoDup (del_head s)).
  { destruct I1 as [Hn _]. destruct (proj1 (NoDup_app _ _) Hn) as (_ & _ & Hn2). by apply NoDup_app in Hn2 as (? & _). }
  destruct (drain_each_run (del_head s) s eq_refl Hnd Hd) as (s1 & E1 & [D1 D2 D3 D4 D5 [D6 D6'] D7]).
  rewrite E in E1. injection E1 as <-.
  assert (Hp : pipev ∉ del_head s) by (intros Hp; destruct (Hd _ Hp) as [Hg _]; by apply Hg, I6).
  split; rewrite ?D1, ?D2, ?D6, ?D6'; try done.
  - unfold ids. rewrite D1, D2. cbn. apply (owns_drop (heap s) (del_head s)); [| |done].
    + rewrite <- ids_del. apply I1.
    + revert I1. by apply owns_perm, ids_del.
  - intros fd ev p Hx%D4. destruct (I2 _ _ _ Hx) as [(e & He & Hfd) Hin]. split; [|done]. exists e. split; [|done].
    rewrite D3, decide_False; [done|]. intros Hdel. destruct (proj1 (NoDup_app _ _) (proj1 I1)) as (_ & Hgd & Hn2).
    apply elem_of_app in Hin as [Hin|Hin]; [apply (Hgd p Hin); apply elem_of_app; by left|].
    apply NoDup_app in Hn2 as (_ & Hdo & _). apply (Hdo p Hdel). clear -Hin.
    apply elem_of_flat_map in Hin as (x & Hx & Hin). apply elem_of_flat_map. exists x. split; [done|]. destruct x; try done; by apply elem_of_nil in Hin.
  - intros p Hp'. by apply elem_of_nil in Hp'.
  - intros p e Hdead He. rewrite D3 in He. destruct (decide (p ∈ del_head s)); [done|]. apply (I4 p); [|done].
    apply elem_of_app. by right.
  - rewrite D3, decide_False by done. split; [apply I6|]. split; [apply I6|]. rewrite D5; [apply I6|].
    intros p e Hin He Hfd. apply Hp. by rewrite <- (proj1 I7 p e He Hfd).
  - split; [|apply I7]. intros p e He. rewrite D3 in He. destruct (decide (p ∈ del_head s)); [done|]. by apply I7.
Qed.

(** *** The calls of any thread *)

Lemma epoll_ctl_del_run fd s' : exists r, epoll_ctl_del fd s' = Ret (r, s' <| epoll ::= delete fd |>).
Proof.
  unfold epoll_ctl_del. destruct (epoll s' !! fd) eqn:E; [by eexists|]. eexists. do 2 f_equal.
  destruct s'. unfold field_upd. cbn in *. by rewrite delete_id.
Qed.

Lemma acts_inv a d : mev_inv s d o -> mev_inv (s <| acts := a |>) d o.
Proof. by intros []. Qed.

(** A descriptor other than the pipe's may leave the interest list. *)
Lemma epoll_inv fd d : fd <> fst (mevent_pipefd s) -> mev_inv s d o -> mev_inv (s <| epoll ::= delete fd |>) d o.
Proof.
  intros Hfd [I1 I2 I3 I4 I5 I6 I7 I8 I9]. split; try done.
  - intros fd' ev p H. change (delete fd (epoll s) !! fd' = Some (ev, p)) in H.
    apply lookup_delete_Some in H as [_ H]. by apply (I2 fd' ev).
  - destruct I6 as (P1 & P2 & P3). split_and!; [done..|].
    change (delete fd (epoll s) !! fst (mevent_pipefd s) = Some (EPOLLIN, pipev)). by apply lookup_delete_Some.
Qed.

Lemma fd_close_inv fd d s' :
  fd <> fst (mevent_pipefd s) -> mev_inv s d o -> close fd s = Ret (tt, s') -> mev_inv s' d o.
Proof. intros Hfd I E. injection E as <-. apply (epoll_inv fd d Hfd) in I. by destruct I. Qed.

Lemma add_inv a run d :
  a_fd a <> fst (mevent_pipefd s) -> mev_inv s d o -> mev_inv s d (OpAdd a run :: o).
Proof.
  intros Hfd [I1 I2 I3 I4 I5 I6 I7 I8 I9]. split; try done.
  - split; [apply I7|]. cbn. intros [H|H]%elem_of_cons; [by apply Hfd|by apply I7].
  - intros H. destruct (I8 H) as [|[|]]; auto. right; right. by right.
Qed.

Lemma insert_inv p d : mev_inv s d (OpInsert p :: o) -> mev_inv (s <| global_head ::= cons p |>) d o.
Proof.
  intros [I1 I2 I3 I4 I5 I6 I7 I8 I9]. split; try done.
  - revert I1. apply owns_perm. unfold ids. change (flat_map op_ids (OpInsert p :: o)) with (p :: flat_map op_ids o).
    change (global_head (s <| global_head ::= cons p |>)) with (p :: global_head s).
    change (del_head (s <| global_head ::= cons p |>)) with (del_head s).
    rewrite !app_assoc. symmetry. apply Permutation_middle.
  - intros fd ev q H. destruct (I2 fd ev q H) as [? Hin]. split; [done|].
    change (q ∈ (p :: global_head s) ++ flat_map op_reg o). cbn in Hin. rewrite elem_of_app, elem_of_cons in Hin |- *. tauto.
  - destruct I6 as (P1 & P2 & P3). split_and!; [by right|done..].
  - intros H. destruct (I8 H) as [|[|Hn]]; auto. apply elem_of_cons in Hn as [|]; auto.
  - intros q Hq. right. by apply I9.
Qed.

Lemma notify_inv d r s' :
  mev_inv s d (OpNotify :: o) -> mevent_notify false s = Ret (r, s') -> mev_inv s' d o.
Proof.
  intros [I1 I2 I3 I4 I5 I6 I7 I8 I9] E. unfold mevent_notify in E.
  assert (Hp : heap s' = heap s /\ global_head s' = global_head s /\ del_head s' = del_head s /\ epoll s' = epoll s /\
    mevent_pipefd s' = mevent_pipefd s /\ 0 < pipe s').
  { destruct (Z.eqb_spec (snd (mevent_pipefd s)) 0) as [Hz|_]; [by destruct I5|]. cbn in E. destruct I5 as [_ I5].
    destruct (Z.leb_spec PIPE_SIZE (pipe s)); injection E as _ <-; unfold PIPE_SIZE in *; split_and!; try done; try lia.
    change (0 < pipe s + 1). lia. }
  destruct Hp as (H1 & H2 & H3 & H4 & H5 & H6). split; unfold ids; rewrite ?H1, ?H2, ?H3, ?H4, ?H5; try done.
  - split; [apply I5|lia].
  - auto.
Qed.

Lemma defer_inv p d : mev_inv s d (OpDefer p :: o) -> mev_inv (s <| del_head ::= cons p |>) d (OpNotify :: o).
Proof.
  intros [I1 I2 I3 I4 I5 I6 I7 I8 I9]. split; try done.
  - revert I1. apply owns_perm. unfold ids.
    change (global_head s ++ del_head s ++ p :: flat_map op_ids o ≡ₚ global_head s ++ (p :: del_head s) ++ flat_map op_ids o).
    apply Permutation_app_head. cbn. symmetry. apply Permutation_middle.
  - intros q e Hq. apply I4. change (q ∈ (p :: del_head s) ++ flat_map op_dead o) in Hq.
    cbn. rewrite elem_of_app, elem_of_cons in Hq |- *. tauto.
  - intros _. right; right. by left.
Qed.

(** An event that no thread is enabling may go. *)
Lemma uses_unlink p d : (OpEnable p ∉ o) -> mev_inv s d o -> forall q, q ∈ flat_map op_uses o -> q ∈ unlink p (global_head s).
Proof.
  intros Hn I q Hq. apply elem_unlink. split; [|by apply (mi_uses _ _ _ I)]. intros ->. apply Hn.
  apply elem_of_flat_map in Hq as (x & Hx & Hq). destruct x; try by apply elem_of_nil in Hq.
  apply list_elem_of_singleton in Hq as ->. done.
Qed.

Lemma unlink_inv p c d : p ∈ global_head s -> p <> pipev -> (OpEnable p ∉ o) -> mev_inv s d o ->
  mev_inv (s <| global_head ::= unlink p |>) d (OpMark p c :: o).
Proof.
  intros Hp Hpv Hu I. pose proof (uses_unlink p d Hu I) as I9'. destruct I as [I1 I2 I3 I4 I5 I6 I7 I8 I9].
  assert (Hg : global_head s ≡ₚ p :: unlink p (global_head s)).
  { apply unlink_perm; [|done]. by destruct (proj1 (NoDup_app _ _) (proj1 I1)) as (? & _). }
  split; try done.
  - revert I1. apply owns_perm. unfold ids.
    change (global_head s ++ del_head s ++ flat_map op_ids o ≡ₚ
      unlink p (global_head s) ++ del_head s ++ p :: flat_map op_ids o).
    rewrite Hg at 1. cbn. by rewrite !app_assoc, Permutation_middle.
  - intros fd ev q H. destruct (I2 fd ev q H) as [? Hin]. split; [done|].
    change (q ∈ unlink p (global_head s) ++ p :: flat_map op_reg o). rewrite Hg in Hin. cbn in Hin.
    rewrite elem_of_app, elem_of_cons. rewrite elem_of_cons, elem_of_app in Hin. tauto.
  - destruct I6 as (P1 & P2 & P3). split_and!; [|done..]. by apply elem_unlink.
  - intros H. destruct (I8 H) as [|[|]]; auto. right; right. by right.
Qed.

(** The event of an unfinished call is not the pipe's. *)
Lemma op_not_pipev p x d : mev_inv s d (x :: o) -> op_ids x = [p] -> p <> pipev.
Proof.
  intros I E ->. destruct (proj1 (NoDup_app _ _) (proj1 (mi_owns _ _ _ I))) as (_ & H & _).
  apply (H pipev); [apply (mi_pipev _ _ _ I)|]. apply elem_of_app. right. cbn. rewrite E. by left.
Qed.

Lemma mark_inv p c d : mev_inv s d (OpMark p c :: o) ->
  mev_inv (s <| heap ::= alter (fun e => e <| me_state := 0 |> <| closefd := c |>) p |>) d (OpUnregister p :: o).
Proof.
  intros I. pose proof (op_not_pipev p _ d I eq_refl) as Hpv. destruct I as [I1 I2 I3 I4 I5 I6 I7 I8 I9].
  set (f := fun e => e <| me_state := 0 |> <| closefd := c |>).
  assert (Hh : forall q e, alter f p (heap s) !! q = Some e ->
    exists e0, heap s !! q = Some e0 /\ me_fd e = me_fd e0 /\ (me_state e = 0 \/ q <> p /\ e = e0)).
  { intros q e H. destruct (decide (q = p)) as [->|Hq].
    - rewrite lookup_alter_eq in H. destruct (heap s !! p) as [e0|]; [|done]. injection H as <-. exists e0. auto.
    - rewrite lookup_alter_ne in H by done. exists e. auto. }
  assert (Hs : forall q, is_Some (alter f p (heap s) !! q) <-> is_Some (heap s !! q)).
  { intros q. by rewrite lookup_alter_is_Some. }
  split; try done.
  - revert I1. by apply owns_same.
  - intros fd ev q H. destruct (I2 fd ev q H) as [(e & He & Hfd) Hin]. split; [|done].
    destruct (proj2 (Hs q)) as [e' He']; [by eexists|]. exists e'. split; [done|].
    destruct (Hh q e' He') as (e0 & He0 & -> & _). congruence.
  - intros q Hq. apply Hs. by apply I3.
  - intros q e Hq He. destruct (Hh q e He) as (e0 & He0 & _ & [|[Hqp ->]]); [done|]. apply (I4 q); [|done].
    cbn in Hq. rewrite elem_of_app, elem_of_cons in Hq. rewrite elem_of_app. cbn. tauto.
  - destruct I6 as (P1 & P2 & P3). split_and!; [done| |done].
    change (alter f p (heap s) !! pipev = Some (pipe_event (fst (mevent_pipefd s)))). by rewrite lookup_alter_ne.
  - split; [|apply I7]. intros q e He. destruct (Hh q e He) as (e0 & He0 & -> & _). by apply I7.
  - intros H. destruct (I8 H) as [|[|Hn]]; auto. apply elem_of_cons in Hn as [|]; [done|]. right; right. by right.
Qed.

Lemma unregister_inv p e d : mev_inv s d (OpUnregister p :: o) -> heap s !! p = Some e ->
  mev_inv (s <| epoll ::= delete (me_fd e) |>) d (OpDefer p :: o).
Proof.
  intros I He. pose proof (op_not_pipev p _ d I eq_refl) as Hpv.
  assert (Hfd : me_fd e <> fst (mevent_pipefd s)) by (intros H; by apply Hpv, (mi_fd _ _ _ I) with e).
  destruct I as [I1 I2 I3 I4 I5 I6 I7 I8 I9]. split; try done.
  - intros fd ev q H. change (delete (me_fd e) (epoll s) !! fd = Some (ev, q)) in H.
    apply lookup_delete_Some in H as [Hne H]. destruct (I2 fd ev q H) as [(e' & He' & Hfd') Hin]. split; [by exists e'|].
    cbn in Hin. rewrite elem_of_app, elem_of_cons in Hin. change (q ∈ global_head s ++ flat_map op_reg o).
    rewrite elem_of_app. destruct Hin as [|[->|]]; auto. congruence.
  - destruct I6 as (P1 & P2 & P3). split_and!; [done..|].
    change (delete (me_fd e) (epoll s) !! fst (mevent_pipefd s) = Some (EPOLLIN, pipev)). by apply lookup_delete_Some.
  - intros H. destruct (I8 H) as [|[|Hn]]; auto. apply elem_of_cons in Hn as [|]; [done|]. right; right. by right.
Qed.

(** An event that is owned may enter the interest list at its descriptor. *)
Lemma epoll_insert_inv p e ev d : mev_inv s d o -> heap s !! p = Some e -> p ∈ global_head s ++ flat_map op_reg o ->
  epoll s !! me_fd e = None -> mev_inv (s <| epoll ::= <[me_fd e := (ev, p)]> |>) d o.
Proof.
  intros [I1 I2 I3 I4 I5 I6 I7 I8 I9] He Hp Hnone. split; try done.
  - intros fd ev' q H. change (<[me_fd e := (ev, p)]> (epoll s) !! fd = Some (ev', q)) in H.
    apply lookup_insert_Some in H as [(<- & [= <- <-])|[_ H]]; [|by apply (I2 fd ev')]. split; [by exists e|done].
  - destruct I6 as (P1 & P2 & P3). split_and!; [done..|].
    change (<[me_fd e := (ev, p)]> (epoll s) !! fst (mevent_pipefd s) = Some (EPOLLIN, pipev)).
    rewrite lookup_insert_ne; [done|]. intros H. by rewrite H, P3 in Hnone.
Qed.

(** A call that leaves nothing behind. *)
Lemma drop_inv x d : op_ids x = [] -> x <> OpNotify -> mev_inv s d (x :: o) -> mev_inv s d o.
Proof.
  intros Hx Hn [I1 I2 I3 I4 I5 I6 I7 I8 I9].
  assert (H : op_reg x = [] /\ op_dead x = []) by (by destruct x). destruct H as [Hr Hd]. split; try done.
  - revert I1. apply owns_perm. unfold ids. cbn. by rewrite Hx.
  - intros fd ev p H. destruct (I2 fd ev p H) as [? Hin]. cbn in Hin. rewrite Hr in Hin. done.
  - intros p e H. apply I4. cbn. by rewrite Hd.
  - split; [apply I7|]. destruct I7 as [_ H]. cbn in H. intros Hin. apply H, elem_of_app. by right.
  - intros H. destruct (I8 H) as [|[|Hi]]; auto. apply elem_of_cons in Hi as [|]; [by subst|]. by right; right.
  - intros p Hp. apply I9. cbn. apply elem_of_app. by right.
Qed.

Lemma enable_inv p s' d : mev_inv s d o -> enable_find p s = Ret (true, s') -> mev_inv s' d (OpEnable p :: o).
Proof.
  intros [I1 I2 I3 I4 I5 I6 I7 I8 I9] E. unfold enable_find in E.
  injection E as Hp <-. apply bool_decide_eq_true in Hp. split; try done.
  - intros H. destruct (I8 H) as [|[|]]; auto. right; right. by right.
  - intros q [->|Hq]%elem_of_cons; [done|by apply I9].
Qed.

Lemma enabled_inv p answer r d s' :
  mev_inv s d (OpEnable p :: o) -> enable_register answer p s = Ret (r, s') -> mev_inv s' d o.
Proof.
  intros I E. pose proof (mi_uses _ _ _ I p ltac:(by left)) as Hp. apply drop_inv in I; [|done|done].
  unfold enable_register, mbind, M_bind, deref, mret, M_ret in E.
  destruct (heap s !! p) as [e|] eqn:He; [|done]. unfold epoll_ctl_add in E.
  destruct (epoll s !! me_fd e) eqn:Hn; [by injection E as _ <-|].
  destruct (answer =? 0); injection E as _ <-; [|done]. apply epoll_insert_inv; try done. apply elem_of_app. by left.
Qed.

Lemma disable_inv p fd d s' :
  mev_inv s d o -> p <> pipev -> disable_fd p s = Ret (fd, s') -> mev_inv s' d (OpDisable fd :: o).
Proof.
  intros I Hp E. unfold disable_fd, mbind, M_bind, deref, mret, M_ret in E.
  destruct (heap s !! p) as [e|] eqn:He; [|done]. injection E as <- <-.
  assert (Hfd : me_fd e <> fst (mevent_pipefd s)) by (intros H; by apply Hp, (mi_fd _ _ _ I) with e).
  destruct I as [I1 I2 I3 I4 I5 I6 I7 I8 I9]. split; try done.
  - split; [apply I7|]. cbn. intros [H|H]%elem_of_cons; [by apply Hfd|by apply I7].
  - intros H. destruct (I8 H) as [|[|]]; auto. right; right. by right.
Qed.

Lemma disabled_inv fd r d s' :
  mev_inv s d (OpDisable fd :: o) -> disable_unregister fd s = Ret (r, s') -> mev_inv s' d o.
Proof.
  intros I E. assert (Hfd : fd <> fst (mevent_pipefd s)).
  { intros ->. destruct (mi_fd _ _ _ I) as [_ H]. apply H. by left. }
  apply drop_inv in I; [|done|done]. unfold disable_unregister, mbind, M_bind, mret, M_ret in E.
  destruct (epoll_ctl_del_run fd s) as [r' E1]. rewrite E1 in E. injection E as _ <-. by apply epoll_inv.
Qed.

(** A fresh event. *)
Lemma alloc_inv p a run d : heap s !! p = None -> mev_inv s d (OpAdd a run :: o) ->
  mev_inv (s <| heap ::= <[p := new_event a run]> |>) d (OpInsert p :: o).
Proof.
  intros Hp [I1 I2 I3 I4 I5 I6 I7 I8 I9].
  assert (Hstill : forall q e, heap s !! q = Some e -> <[p := new_event a run]> (heap s) !! q = Some e)
    by (intros q e Hq; rewrite lookup_insert_ne; [done|]; intros ->; by rewrite Hp in Hq).
  split; try done.
  - apply (owns_insert _ p (new_event a run) _ Hp) in I1. revert I1. apply owns_perm. unfold ids.
    change (p :: global_head s ++ del_head s ++ flat_map op_ids o ≡ₚ global_head s ++ del_head s ++ p :: flat_map op_ids o).
    by rewrite !app_assoc, Permutation_middle.
  - intros fd ev q H. destruct (I2 fd ev q H) as [(e & He & Hfd) Hin]. split; [exists e; by split; [apply Hstill|]|].
    cbn. change (q ∈ global_head s ++ p :: flat_map op_reg o). cbn in Hin.
    rewrite elem_of_app, elem_of_cons. rewrite elem_of_app in Hin. tauto.
  - intros q Hq. destruct (I3 q Hq) as [e He]. exists e. by apply Hstill.
  - intros q e Hq He. change (<[p := new_event a run]> (heap s) !! q = Some e) in He.
    apply lookup_insert_Some in He as [[<- _]|[_ He]]; [|by apply (I4 q)]. exfalso.
    destruct I1 as [_ I1]. assert (Hin : is_Some (heap s !! p)); [|rewrite Hp in Hin; by destruct Hin].
    apply I1. unfold ids. cbn in Hq |- *. rewrite !elem_of_app. apply elem_of_app in Hq as [Hq|Hq]; [auto|].
    right; right. apply elem_of_flat_map in Hq as (x & Hx & Hq). apply elem_of_flat_map. exists x. split; [done|].
    destruct x; try done; by apply elem_of_nil in Hq.
  - destruct I6 as (P1 & P2 & P3). split_and!; [done| |done]. by apply Hstill.
  - destruct I7 as [I7 I7']. cbn in I7'. apply not_elem_of_cons in I7' as [Ha I7']. split; [|done]. intros q e He Hfd.
    change (<[p := new_event a run]> (heap s) !! q = Some e) in He.
    apply lookup_insert_Some in He as [[_ <-]|[_ He]]; [|by apply (I7 q e)]. by symmetry in Hfd.
  - intros H. destruct (I8 H) as [|[|Hn]]; auto. apply elem_of_cons in Hn as [|]; [done|]. right; right. by right.
Qed.
End Kept.

Lemma register_inv s o d a run calloc answer mevp s' :
  mev_inv s d (OpAdd a run :: o) -> (forall p, calloc = Some p -> heap s !! p = None) ->
  add_register calloc answer a run s = Ret (mevp, s') ->
  mev_inv s' d (match mevp with Some p => OpInsert p :: o | None => o end).
Proof.
  intros I Hc E. destruct calloc as [p|]; [|injection E as <- <-; by apply drop_inv in I].
  specialize (Hc p eq_refl). pose proof (alloc_inv s o p a run d Hc I) as I1.
  unfold add_register in E. set (e := new_event a run) in *. set (s1 := s <| heap ::= <[p := e]> |>) in *.
  unfold mbind, M_bind, modify in E. fold s1 in E. unfold epoll_ctl_add in E.
  assert (Hfail : free p s1 = Ret (tt, s)).
  { unfold free, mbind, M_bind, deref, modify, s1, field_upd. destruct s. cbn.
    rewrite lookup_insert_eq. cbn in Hc.
    cbn. by rewrite delete_insert_id. }
  destruct (epoll s1 !! me_fd e) eqn:Hn.
  { change (EEXIST =? 0) with false in E. cbv beta iota in E. rewrite Hfail in E. injection E as <- <-.
    by apply drop_inv in I. }
  destruct (Z.eqb_spec answer 0) as [->|Ha].
  - change (0 =? 0) with true in E. cbv iota in E. injection E as <- <-. apply (epoll_insert_inv s1 (OpInsert p :: o) p e (mevent_kq_filter e) d); try done.
    + unfold s1. apply lookup_insert_eq.
    + rewrite elem_of_app. right. by left.
  - rewrite (proj2 (Z.eqb_neq answer 0)) in E by done. cbv beta iota in E. rewrite Hfail in E. injection E as <- <-.
    by apply drop_inv in I.
Qed.

(** The events that the three functions share: taken out of the list, marked, and
    no longer waited for. *)
Definition marked (c : Z) (e : mevent) : mevent := e <| me_state := 0 |> <| closefd := c |>.

Lemma delete_alter_same {A} (f : A -> A) p (m : gmap nat A) : delete p (alter f p m) = delete p m.
Proof.
  apply map_eq. intros q. destruct (decide (q = p)) as [->|Hq].
  - by rewrite !lookup_delete_eq.
  - by rewrite !lookup_delete_ne, lookup_alter_ne.
Qed.

Lemma delete_run b p c s e :
  p ∈ global_head s -> heap s !! p = Some e ->
  mevent_delete_event b p c s =
  (_ ← (if negb b then _ ← mevent_add_to_del_list p; mret tt else finish_event p); mret 0)
    (mkMev (alter (marked c) p (heap s)) (unlink p (global_head s)) (del_head s) (delete (me_fd e) (epoll s)) (pipe s)
       (mevent_pipefd s) (acts s)).
Proof.
  intros Hp He. unfold mevent_delete_event, delete_mark, store, delete_unregister, modify, mbind, M_bind.
  rewrite (list_remove_run p s Hp), (deref_run p e) by done. set (s1 := (s <| global_head ::= unlink p |>) <| heap ::= _ |>).
  assert (H1 : heap s1 !! p = Some (marked c e)).
  { change (heap s1) with (alter (marked c) p (heap s)). by rewrite lookup_alter_eq, He. }
  rewrite (deref_run _ _ _ H1).
  destruct (epoll_ctl_del_run (me_fd e) s1) as [r E]. change (me_fd (marked c e)) with (me_fd e). rewrite E. done.
Qed.

Lemma delete_dispatch_run p c s e :
  p ∈ global_head s -> heap s !! p = Some e ->
  mevent_delete_event true p c s = Ret (0, mkMev (delete p (heap s)) (unlink p (global_head s)) (del_head s)
    (delete (me_fd e) (epoll s)) (pipe s) (mevent_pipefd s) (acts s ++ finish_acts (marked c e))).
Proof.
  intros Hp He. rewrite (delete_run true p c s e) by done. unfold mbind, M_bind. cbn [negb].
  rewrite (finish_event_run p (marked c e)) by (cbn; by rewrite lookup_alter_eq, He).
  unfold mret, M_ret. cbn. rewrite delete_alter_same. unfold finish_epoll. change (me_fd (marked c e)) with (me_fd e).
  destruct (closefd (marked c e) =? 0); [done|]. do 3 f_equal. apply map_eq. intros fd.
  destruct (decide (fd = me_fd e)) as [->|]; [by rewrite !lookup_delete_eq|by rewrite !lookup_delete_ne].
Qed.

Lemma dispatch_delete_inv s o kev p c r s' :
  mev_inv s (Handling kev) o -> p ∈ global_head s -> p <> pipev -> (p ∉ kev) -> (OpEnable p ∉ o) ->
  mevent_delete_event true p c s = Ret (r, s') -> mev_inv s' (Handling kev) o.
Proof.
  intros I Hp Hpv Hk Hu E. pose proof (uses_unlink s o p _ Hu I) as I9'. destruct I as [I1 I2 I3 I4 I5 I6 I7 I8 I9].
  assert (is_Some (heap s !! p)) as [e He] by (apply I1; apply elem_of_app; by left).
  rewrite (delete_dispatch_run p c s e) in E by done. injection E as _ <-.
  assert (Hg : global_head s ≡ₚ p :: unlink p (global_head s)).
  { apply unlink_perm; [|done]. by destruct (proj1 (NoDup_app _ _) (proj1 I1)) as (? & _). }
  assert (Hstill : forall q f, delete p (heap s) !! q = Some f -> heap s !! q = Some f)
    by (intros q f H; by apply lookup_delete_Some in H as [_ H]).
  split; cbn; try done.
  - apply (owns_delete _ p). revert I1. apply owns_perm. unfold ids. cbn. by rewrite Hg at 1.
  - intros fd ev q H. apply lookup_delete_Some in H as [Hne H]. destruct (I2 fd ev q H) as [(f & Hf & Hfd) Hin].
    assert (Hq : q <> p) by (intros ->; congruence). split; [exists f; by rewrite lookup_delete_ne|].
    rewrite Hg in Hin. cbn in Hin. by apply elem_of_cons in Hin as [|].
  - intros q Hq. rewrite lookup_delete_ne; [by apply I3|]. by intros ->.
  - intros q f Hq Hf%Hstill. by apply (I4 q).
  - destruct I6 as (P1 & P2 & P3). split_and!; [by apply elem_unlink|by rewrite lookup_delete_ne|].
    rewrite lookup_delete_ne; [done|]. intros H. by apply Hpv, (proj1 I7 p e).
  - split; [|apply I7]. intros q f Hf%Hstill. by apply I7.
Qed.

(** ** Every reachable state *)

Definition sys_inv (y : mev_sys) : Prop := mev_inv (st y) (disp y) (ops y).

Lemma mev_step_inv y y' : sys_inv y -> mev_step y y' -> sys_inv y'.
Proof.
  intros I H. inversion H; subst; unfold sys_inv in *; cbn [st disp ops] in *.
  - by apply await_inv.
  - by eapply check_inv.
  - by eapply run_inv.
  - by eapply drain_inv.
  - by eapply dispatch_delete_inv.
  - by apply add_inv.
  - eapply register_inv; [by eapply mev_inv_perm|done|done].
  - apply (mev_inv_perm _ _ _ _ H0) in I. match goal with H : add_insert _ _ = _ |- _ => injection H as <- end. by apply insert_inv.
  - by eapply enable_inv.
  - eapply enabled_inv; [by eapply mev_inv_perm|done].
  - by eapply disable_inv.
  - eapply disabled_inv; [by eapply mev_inv_perm|done].
  - by eapply fd_close_inv.
  - rewrite list_remove_run in * by done. match goal with H : Ret _ = Ret _ |- _ => injection H as <- end. by apply unlink_inv.
  - apply (mev_inv_perm _ _ _ _ H0) in I. unfold delete_mark, store, mbind, M_bind, deref, modify in *.
    destruct (heap s !! p); [|done]. match goal with H : Ret _ = Ret _ |- _ => injection H as <- end. by apply mark_inv.
  - apply (mev_inv_perm _ _ _ _ H0) in I. unfold delete_unregister, mbind, M_bind, deref in *.
    destruct (heap s !! p) as [e|] eqn:He; [|done]. destruct (epoll_ctl_del_run (me_fd e) s) as [r E]. rewrite E in *.
    match goal with H : _ = Ret _ |- _ => injection H as <- end. by apply unregister_inv.
  - apply (mev_inv_perm _ _ _ _ H0) in I. by apply defer_inv.
  - apply (mev_inv_perm _ _ _ _ H0) in I. by eapply notify_inv.
Qed.

(** The globals when the loop begins, in full. *)
Definition begun (pipefd : Z * Z) : mev :=
  mkMev {[pipev := pipe_event (fst pipefd)]} [pipev] [] {[fst pipefd := (EPOLLIN, pipev)]} 0 pipefd [].

Lemma dispatch_begin_run pipefd : 0 <= fst pipefd -> dispatch_begin pipefd = Ret (Some pipev, begun pipefd).
Proof.
  intros H. unfold dispatch_begin, mevent_add. cbn [a_run a_fd a_type pipe_args].
  rewrite (proj2 (Z.ltb_ge (fst pipefd) 0)) by done. reflexivity.
Qed.

Lemma begun_inv pipefd : snd pipefd <> 0 -> sys_inv (mkSys (begun pipefd) Waiting []).
Proof.
  intros H1. unfold sys_inv, begun.
  split; cbn [st disp ops heap global_head del_head epoll pipe mevent_pipefd].
  - split; [apply NoDup_singleton|]. intros q. change (is_Some (({[pipev := pipe_event (fst pipefd)]} : gmap nat mevent) !! q) <-> q ∈ [pipev]).
    rewrite lookup_singleton_is_Some, list_elem_of_singleton. done.
  - intros fd ev q [<- [= <- <-]]%lookup_singleton_Some. split; [|by left]. eexists. split; [apply lookup_singleton_eq|done].
  - intros q Hq. by apply elem_of_nil in Hq.
  - intros q e Hq. by apply elem_of_nil in Hq.
  - done.
  - split_and!; [by left|apply lookup_singleton_eq|apply lookup_singleton_eq].
  - split; [|apply not_elem_of_nil]. by intros q e [<- _]%lookup_singleton_Some.
  - done.
  - intros q Hq. by apply elem_of_nil in Hq.
Qed.

Lemma mev_reachable_inv pipefd p s0 y :
  0 <= fst pipefd -> snd pipefd <> 0 -> dispatch_begin pipefd = Ret (p, s0) ->
  rtc mev_step (mkSys s0 Waiting []) y -> sys_inv y.
Proof.
  intros H0 H1 E Hr. rewrite dispatch_begin_run in E by done. injection E as _ <-. pose proof (begun_inv _ H1) as I.
  induction Hr as [|y0 y1 y2 Hs _ IH]; [done|]. by apply IH, (mev_step_inv _ _ I Hs).
Qed.

(** ** What one can rely on *)

Lemma find_tuple_returns fd type l : forall s, (forall p, p ∈ l -> is_Some (heap s !! p)) ->
  exists o, find_tuple fd type l s = Ret (o, s).
Proof.
  induction l as [|p l IH]; intros s Hl; [by eexists|]. destruct (Hl p) as [e He]; [by left|].
  cbn [find_tuple]. unfold mbind, M_bind. rewrite (deref_run _ _ _ He). case_bool_decide; [by eexists|].
  apply IH. intros q Hq. apply Hl. by right.
Qed.

Lemma inv_drains s d o : mev_inv s d o -> exists s', mevent_drain_del_list s = Ret (tt, s') /\ drained (del_head s) s s'.
Proof.
  intros I. unfold mevent_drain_del_list, mbind, M_bind, get.
  destruct (proj1 (NoDup_app _ _) (proj1 (mi_owns _ _ _ I))) as (_ & Hgd & Hn).
  apply drain_each_run; [done|by apply NoDup_app in Hn as (? & _)|]. intros p Hp.
  split; [intros Hg; apply (Hgd p Hg)|apply (mi_owns _ _ _ I); unfold ids]; rewrite !elem_of_app; auto.
Qed.

(** An event whose deletion was left to the loop is not run. *)
Lemma check_dead s d o p : mev_inv s d o -> p ∈ reported d ->
  exists b, handle_check p s = Ret (b, s) /\ (p ∈ del_head s -> b = false).
Proof.
  intros I Hp. destruct (mi_batch _ _ _ I p Hp) as [e He]. eexists. split; [by apply handle_check_run|].
  intros Hd. rewrite (mi_dead _ _ _ I p e); [done| |done]. apply elem_of_app. by left.
Qed.

Lemma enable_returns s p answer : is_Some (heap s !! p) -> exists r s', enable_register answer p s = Ret (r, s').
Proof.
  intros [e He]. unfold enable_register, mbind, M_bind. rewrite (deref_run p e) by done.
  unfold epoll_ctl_add. destruct (epoll s !! me_fd e); [by eexists _, _|]. destruct (answer =? 0); by eexists _, _.
Qed.

Lemma delete_returns s b p c : p ∈ global_head s -> is_Some (heap s !! p) -> exists s', mevent_delete_event b p c s = Ret (0, s').
Proof.
  intros Hp [e He]. destruct b; [rewrite (delete_dispatch_run p c s e) by done; by eexists|].
  rewrite (delete_run false p c s e) by done. unfold mbind, M_bind, mevent_add_to_del_list, modify, mevent_notify, mret, M_ret.
  cbn. unfold mbind, M_bind. repeat case_match; simplify_eq; by eexists.
Qed.

(** The events of unfinished calls are there. *)
Lemma op_heap s d o x p : mev_inv s d o -> x ∈ o -> p ∈ op_ids x -> is_Some (heap s !! p).
Proof.
  intros I Hx Hp. apply (mi_owns _ _ _ I). unfold ids. rewrite !elem_of_app. right; right.
  apply elem_of_flat_map. by exists x.
Qed.

(** What a call of another thread does next. *)
Definition op_next (x : op) (s : mev) : Prop :=
  match x with
  | OpAdd a run => forall calloc answer, exists p s', add_register calloc answer a run s = Ret (p, s')
  | OpInsert p => exists s', add_insert p s = Ret (tt, s')
  | OpEnable p => forall answer, exists r s', enable_register answer p s = Ret (r, s')
  | OpDisable fd => exists r s', disable_unregister fd s = Ret (r, s')
  | OpMark p c => exists s', delete_mark p c s = Ret (tt, s')
  | OpUnregister p => exists s', delete_unregister p s = Ret (tt, s')
  | OpDefer p => is_Some (heap s !! p)
  | OpNotify => exists r s', mevent_notify false s = Ret (r, s')
  end.

Lemma op_goes_on s d o x : mev_inv s d o -> x ∈ o -> op_next x s.
Proof.
  intros I Hx. pose proof (op_heap s d o x) as Hh. destruct x as [a run|p|p|fd|p c|p|p|]; cbn.
  - intros [p|] answer; [|by eexists _, _]. unfold add_register, mbind, M_bind, modify. set (s1 := s <| heap ::= _ |>).
    assert (Hf : free p s1 = Ret (tt, s1 <| heap ::= delete p |>)) by (apply (free_run p (new_event a run)), lookup_insert_eq).
    unfold epoll_ctl_add. destruct (epoll s1 !! _); [change (EEXIST =? 0) with false; cbv beta iota; rewrite Hf; by eexists _, _|].
    destruct (answer =? 0) eqn:E; [by eexists _, _|]. rewrite E, Hf. by eexists _, _.
  - by eexists.
  - intros answer. apply enable_returns. apply (mi_owns _ _ _ I), elem_of_app. left. apply (mi_uses _ _ _ I).
    apply elem_of_flat_map. exists (OpEnable p). split; [done|by left].
  - unfold disable_unregister, mbind, M_bind. destruct (epoll_ctl_del_run fd s) as [r ->]. by eexists _, _.
  - destruct (Hh p I Hx) as [e He]; [by left|]. unfold delete_mark, store, mbind, M_bind. rewrite (deref_run p e) by done. by eexists.
  - destruct (Hh p I Hx) as [e He]; [by left|]. unfold delete_unregister, mbind, M_bind. rewrite (deref_run p e) by done.
    destruct (epoll_ctl_del_run (me_fd e) s) as [r ->]. by eexists.
  - apply (Hh p I Hx). by left.
  - unfold mevent_notify. repeat case_match; by eexists _, _.
Qed.

(** C12. However handlers and other threads add, enable, disable, close and delete
    events, as long as no event is deleted while a thread is in the middle of enabling it and no
    handler deletes one that the same [epoll_wait] reported, nothing of the loop touches a
    freed event.  What [epoll_wait] reported can be looked at, and an event whose deletion was left
    to the loop before that is not run; one that was seen running can be called, whatever came in between;
    the deleted events can be freed; every call of another thread goes on from
    where it is; an event of the list can be looked up, enabled, disabled and deleted.  Memory is
    held by exactly the events in a list or in an unfinished call, once each, and the kernel knows
    none but these. *)
Theorem mevent_no_use_after_free pipefd p0 s0 y :
  0 <= fst pipefd -> snd pipefd <> 0 -> dispatch_begin pipefd = Ret (p0, s0) ->
  rtc mev_step (mkSys s0 Waiting []) y ->
  let s := st y in
  (forall p, p ∈ reported (disp y) -> exists b, handle_check p s = Ret (b, s) /\ (p ∈ del_head s -> b = false)) /\
  (forall p kev, disp y = Running p kev -> exists s', handle_run p s = Ret (tt, s')) /\
  (exists s', mevent_drain_del_list s = Ret (tt, s')) /\
  (forall fd type, exists o, add_find fd type s = Ret (o, s)) /\
  (forall x, x ∈ ops y -> op_next x s) /\
  (forall p, p ∈ global_head s ->
     (forall answer, exists r s', mevent_enable answer p s = Ret (r, s')) /\
     (exists r s', mevent_disable p s = Ret (r, s')) /\
     (forall b c, exists s', mevent_delete_event b p c s = Ret (0, s'))) /\
  owns (heap s) (ids s (ops y)) /\
  (forall fd ev p, epoll s !! fd = Some (ev, p) -> exists e, heap s !! p = Some e /\ me_fd e = fd).
Proof.
  intros H0 H1 E Hr. pose proof (mev_reachable_inv _ _ _ _ H0 H1 E Hr) as I. intros s. unfold sys_inv in I. fold s in I.
  assert (Hg : forall p, p ∈ global_head s -> is_Some (heap s !! p)).
  { intros p Hp. apply (mi_owns _ _ _ I). apply elem_of_app. by left. }
  split_and!.
  - intros p Hp. by eapply check_dead.
  - intros p kev Hd. destruct (mi_batch _ _ _ I p) as [e He]; [rewrite Hd; by left|].
    destruct (handle_run_run p s e He) as (s' & Es & _); [apply I|]. by exists s'.
  - destruct (inv_drains _ _ _ I) as (s' & -> & _). by exists s'.
  - intros fd type. apply find_tuple_returns. intros p Hp. by apply Hg.
  - intros x. by eapply op_goes_on.
  - intros p Hp. split_and!; [| |intros b c; by apply delete_returns, Hg].
    + intros answer. unfold mevent_enable, enable_find, mbind, M_bind.
      rewrite bool_decide_eq_true_2 by done. by apply enable_returns, Hg.
    + destruct (Hg p Hp) as [e He]. unfold mevent_disable, disable_fd, disable_unregister, mbind, M_bind.
      rewrite (deref_run p e) by done. unfold mret, M_ret. destruct (epoll_ctl_del_run (me_fd e) s) as [r ->]. by eexists _, _.
  - apply I.
  - intros fd ev p H. apply (mi_epoll _ _ _ I _ _ _ H).
Qed.

(** What is left of a round of the dispatch thread. *)
Definition rest_of_round (d : phase) : M mev unit :=
  match d with
  | Waiting => mret tt
  | Handling kev => _ ← mevent_handle kev; mevent_drain_del_list
  | Running p kev => _ ← handle_run p; _ ← mevent_handle kev; mevent_drain_del_list
  end.

Lemma handle_all s o kev : mev_inv s (Handling kev) o ->
  exists s', mevent_handle kev s = Ret (tt, s') /\ mev_inv s' (Handling []) o /\ del_head s' = del_head s.
Proof.
  revert s. induction kev as [|p kev IH]; intros s I; [by exists s|].
  destruct (mi_batch _ _ _ I p) as [e He]; [by left|].
  destruct (handle_one_run p s e He) as (s1 & E & Hs & _); [apply I|].
  destruct (IH s1) as (s' & E' & I' & Hd).
  - apply (handled_inv s o (Handling kev)); [|done|done]. apply (phase_inv _ _ _ _ I); [done|]. intros q Hq. by right.
  - exists s'. split; [|by rewrite Hd, (ha_del _ _ Hs)]. cbn [mevent_handle]. unfold mbind, M_bind. by rewrite E.
Qed.

Lemma round_ends s o d : mev_inv s d o -> d <> Waiting ->
  exists s', rest_of_round d s = Ret (tt, s') /\ del_head s' = [] /\ forall p, p ∈ del_head s -> heap s' !! p = None.
Proof.
  assert (Hh : forall s kev, mev_inv s (Handling kev) o -> exists s', rest_of_round (Handling kev) s = Ret (tt, s') /\
    del_head s' = [] /\ forall p, p ∈ del_head s -> heap s' !! p = None).
  { clear s d. intros s kev I. destruct (handle_all s o kev I) as (s1 & E1 & I1 & Hd).
    destruct (inv_drains _ _ _ I1) as (s' & E' & D). exists s'. unfold rest_of_round, mbind, M_bind. rewrite E1.
    split; [done|]. split; [apply D|]. intros p Hp. rewrite (dr_heap _ _ _ D), Hd. by rewrite decide_True. }
  intros I Hw. destruct d as [|kev|p kev]; [done|by apply Hh|].
  destruct (mi_batch _ _ _ I p) as [e He]; [by left|].
  destruct (handle_run_run p s e He) as (s1 & E1 & Hs & _); [apply I|].
  destruct (Hh s1 kev) as (s' & E' & H); [by eapply run_inv|].
  exists s'. split; [|by rewrite <- (ha_del _ _ Hs)]. cbn [rest_of_round] in *. unfold mbind, M_bind in *. by rewrite E1.
Qed.

(** C13. Once the loop has opened its pipe no deferred deletion is forgotten.  When one waits while the
    dispatch thread is in [epoll_wait], the thread that left it is about to write to the pipe, or the
    pipe holds a byte and its descriptor is in the interest list, so the wait ends.
    And a round that has begun, wherever it is, ends with every deleted event freed. *)
Theorem mevent_deferred_wakes pipefd p0 s0 y :
  0 <= fst pipefd -> snd pipefd <> 0 -> dispatch_begin pipefd = Ret (p0, s0) ->
  rtc mev_step (mkSys s0 Waiting []) y ->
  (disp y = Waiting -> del_head (st y) <> [] -> OpNotify ∈ ops y \/
     0 < pipe (st y) /\ epoll (st y) !! fst (mevent_pipefd (st y)) = Some (EPOLLIN, pipev)) /\
  (disp y <> Waiting -> exists s', rest_of_round (disp y) (st y) = Ret (tt, s') /\ del_head s' = [] /\
     forall p, p ∈ del_head (st y) -> heap s' !! p = None).
Proof.
  intros H0 H1 E Hr. pose proof (mev_reachable_inv _ _ _ _ H0 H1 E Hr) as I. unfold sys_inv in I. split.
  - intros Hw Hd. destruct (mi_wake _ _ _ I Hd) as [|[|]]; [done| |by left]. right. split; [done|apply I].
  - intros Hw. by apply (round_ends _ _ _ I).
Qed.

(** *** The end *)

Definition destroy_closes (e : mevent) : bool := io_type (me_type e) && negb (me_fd e =? STDIN_FILENO).
Definition destroy_acts (e : mevent) : list act :=
  (if destroy_closes e then [Close (me_fd e)] else []) ++ teardown_acts e.

Lemma destroy_event_run p e s :
  heap s !! p = Some e ->
  exists ep, destroy_event p s = Ret (tt, mkMev (delete p (heap s)) (global_head s) (del_head s) ep
    (pipe s) (mevent_pipefd s) (acts s ++ destroy_acts e)) /\ (ep = epoll s \/ ep = delete (me_fd e) (epoll s)).
Proof.
  intros H. unfold destroy_event, mbind, M_bind. rewrite (deref_run _ _ _ H).
  unfold destroy_acts. fold (destroy_closes e).
  unfold when, close, run_teardown, teardown_acts, free, log, modify, mret, M_ret, mbind, M_bind, deref.
  destruct s. cbn in H |- *. destruct (destroy_closes e), (teardown e); cbn; rewrite H; unfold field_upd; cbn;
    rewrite ?app_nil_r, <- ?app_assoc; eexists; (split; [reflexivity|]); auto.
Qed.

Definition all_acts (h : gmap nat mevent) (l : list nat) : list act :=
  flat_map (fun p => match h !! p with Some e => destroy_acts e | None => [] end) l.

Lemma all_acts_delete h p l : p ∉ l -> all_acts (delete p h) l = all_acts h l.
Proof.
  induction l as [|q l IH]; intros Hp; [done|]. apply not_elem_of_cons in Hp as [Hq Hp]. cbn.
  rewrite lookup_delete_ne by done. f_equal. by apply IH.
Qed.

(** What both loops do to the events [l]; [dereg] for the first. *)
Record destroyed (dereg : bool) (l : list nat) (s s' : mev) : Prop := {
  de_heap : forall q, heap s' !! q = if decide (q ∈ l) then None else heap s !! q;
  de_epoll : forall fd x, epoll s' !! fd = Some x -> epoll s !! fd = Some x /\
    (dereg = true -> forall p e, p ∈ l -> heap s !! p = Some e -> me_fd e <> fd);
  de_acts : acts s' = acts s ++ all_acts (heap s) l
}.

Lemma destroyed_nil dereg s : destroyed dereg [] s s.
Proof.
  split; [done| |by rewrite app_nil_r]. intros fd x Hx. split; [done|]. intros _ p e Hp. by apply elem_of_nil in Hp.
Qed.

(** One round of either loop, then the rest. *)
Lemma destroyed_cons dereg p l s s1 s' e ep :
  heap s !! p = Some e -> (p ∉ l) -> heap s1 = delete p (heap s) -> acts s1 = acts s ++ destroy_acts e ->
  epoll s1 = ep -> ep = delete (me_fd e) (epoll s) \/ (dereg = false /\ ep = epoll s) ->
  destroyed dereg l s1 s' -> destroyed dereg (p :: l) s s'.
Proof.
  intros He Hp H1 H2 H3 H4 [D1 D2 D3]. split.
  - intros q. rewrite D1, H1. destruct (decide (q = p)) as [->|Hq].
    + rewrite decide_False by done. rewrite decide_True by (by left). apply lookup_delete_eq.
    + rewrite lookup_delete_ne by done. destruct (decide (q ∈ l)).
      * by rewrite decide_True by (by right).
      * rewrite decide_False; [done|]. by intros [|]%elem_of_cons.
  - intros fd x Hx. apply D2 in Hx as [Hx Hn]. rewrite H3 in Hx. split.
    + destruct H4 as [->|[_ ->]]; [by apply lookup_delete_Some in Hx as [_ ?]|done].
    + intros -> q f Hq Hf. destruct H4 as [->|[? _]]; [|done]. apply lookup_delete_Some in Hx as [Hne _].
      apply elem_of_cons in Hq as [->|Hq]; [congruence|]. apply (Hn eq_refl q f Hq). rewrite H1.
      rewrite lookup_delete_ne; [done|]. by intros ->.
  - rewrite D3, H1, H2, all_acts_delete, <- app_assoc by done. cbn. by rewrite He.
Qed.

Lemma destroy_global_run l : forall s,
  global_head s = l -> NoDup l -> (forall p, p ∈ l -> is_Some (heap s !! p)) ->
  exists s', destroy_global l s = Ret (tt, s') /\ global_head s' = [] /\ del_head s' = del_head s /\
    mevent_pipefd s' = mevent_pipefd s /\ destroyed true l s s'.
Proof.
  induction l as [|p l IH]; intros s Hg Hn Hl.
  { exists s. split_and!; try done. apply destroyed_nil. }
  apply NoDup_cons in Hn as [Hp Hn]. destruct (Hl p) as [e He]; [by left|].
  cbn [destroy_global]. unfold mbind, M_bind. rewrite list_remove_run by (rewrite Hg; by left).
  set (s1 := s <| global_head ::= _ |>). rewrite (deref_run p e s1 He).
  destruct (epoll_ctl_del_run (me_fd e) s1) as [r ->]. set (s2 := s1 <| epoll ::= _ |>).
  destruct (destroy_event_run p e s2 He) as (ep & -> & Hep). set (s3 := mkMev _ _ _ _ _ _ _).
  destruct (IH s3) as (s' & E & G & D & Pf & Hs'); [|done| |].
  - change (unlink p (global_head s) = l). by rewrite Hg, unlink_head.
  - intros q Hq. change (is_Some (delete p (heap s) !! q)). rewrite lookup_delete_ne by (by intros ->).
    apply Hl. by right.
  - exists s'. split_and!; [done..|]. apply (destroyed_cons true p l s s3 s' e ep); try done. left.
    change (epoll s2) with (delete (me_fd e) (epoll s)) in Hep. destruct Hep as [-> | ->]; [done|].
    apply map_eq. intros fd. destruct (decide (fd = me_fd e)) as [->|]; [by rewrite !lookup_delete_eq|by rewrite !lookup_delete_ne].
Qed.

Lemma destroy_deleted_run l : forall s,
  del_head s = l -> global_head s = [] -> NoDup l -> (forall p, p ∈ l -> is_Some (heap s !! p)) ->
  exists s', destroy_deleted l s = Ret (tt, s') /\ global_head s' = [] /\ del_head s' = [] /\
    mevent_pipefd s' = mevent_pipefd s /\ destroyed false l s s'.
Proof.
  induction l as [|p l IH]; intros s Hd Hg Hn Hl.
  { exists s. split_and!; try done. apply destroyed_nil. }
  apply NoDup_cons in Hn as [Hp Hn]. destruct (Hl p) as [e He]; [by left|].
  cbn [destroy_deleted]. unfold mbind, M_bind, list_remove.
  rewrite bool_decide_eq_false_2 by (rewrite Hg; apply not_elem_of_nil). rewrite bool_decide_eq_true_2 by (rewrite Hd; by left).
  set (s1 := s <| del_head ::= _ |>).
  destruct (destroy_event_run p e s1 He) as (ep & -> & Hep). set (s3 := mkMev _ _ _ _ _ _ _).
  destruct (IH s3) as (s' & E & G & D & Pf & Hs'); [|done|done| |].
  - change (unlink p (del_head s) = l). by rewrite Hd, unlink_head.
  - intros q Hq. change (is_Some (delete p (heap s) !! q)). rewrite lookup_delete_ne by (by intros ->).
    apply Hl. by right.
  - exists s'. split_and!; [done..|]. apply (destroyed_cons false p l s s3 s' e ep); try done.
    destruct Hep as [-> | ->]; [by right|by left].
Qed.

(** From events that are each in one list, and an interest list that knows only those of
    the first. *)
Lemma mevent_destroy_run s :
  owns (heap s) (global_head s ++ del_head s) ->
  (forall fd ev p, epoll s !! fd = Some (ev, p) -> p ∈ global_head s /\ exists e, heap s !! p = Some e /\ me_fd e = fd) ->
  exists s', mevent_destroy s = Ret (tt, s') /\ heap s' = ∅ /\ global_head s' = [] /\ del_head s' = [] /\ epoll s' = ∅ /\
    mevent_pipefd s' = mevent_pipefd s /\ acts s' = acts s ++ all_acts (heap s) (global_head s ++ del_head s).
Proof.
  intros [Hn Hh] Hep. destruct (proj1 (NoDup_app _ _) Hn) as (Hn1 & Hgd & Hn2).
  destruct (destroy_global_run (global_head s) s) as (s1 & E1 & G1 & D1 & P1 & [A1 A2 A3]); [done|done| |].
  { intros p Hp. apply Hh. apply elem_of_app. by left. }
  destruct (destroy_deleted_run (del_head s) s1) as (s2 & E2 & G2 & D2 & P2 & [B1 B2 B3]); [done|done|done| |].
  { intros p Hp. rewrite A1, decide_False; [|intros Hg; by apply (Hgd p Hg)]. apply Hh. apply elem_of_app. by right. }
  exists s2. unfold mevent_destroy, mbind, M_bind, get. rewrite E1, D1. split_and!; try done.
  - apply map_eq. intros p. rewrite lookup_empty, B1, A1. destruct (decide (p ∈ del_head s)) as [|Hnd]; [done|].
    destruct (decide (p ∈ global_head s)) as [|Hng]; [done|]. apply eq_None_not_Some. rewrite Hh, elem_of_app. tauto.
  - apply map_eq. intros fd. rewrite lookup_empty. destruct (epoll s2 !! fd) as [[ev p]|] eqn:Hx; [|done].
    apply B2 in Hx as [Hx _]. apply A2 in Hx as [Hx Hne]. destruct (Hep _ _ _ Hx) as [Hin (e & He & Hfd)].
    by destruct (Hne eq_refl p e Hin He).
  - by rewrite P2.
  - rewrite B3, A3, <- app_assoc. do 2 f_equal. unfold all_acts. rewrite flat_map_app. f_equal.
    clear -A1 Hgd. induction (del_head s) as [|q l IH]; [done|]. cbn. rewrite A1.
    rewrite decide_False by (intros Hg; apply (Hgd q Hg); by left). f_equal. apply IH.
    intros p Hp Hpl. apply (Hgd p Hp). by right.
Qed.

(** When no call is unfinished [mevent_destroy] frees every event and empties the
    lists and the interest list; every event has its teardown run exactly once,
    and its descriptor closed unless that is the standard input. *)
Theorem mevent_destroy_frees pipefd p0 s0 y :
  0 <= fst pipefd -> snd pipefd <> 0 -> dispatch_begin pipefd = Ret (p0, s0) ->
  rtc mev_step (mkSys s0 Waiting []) y -> ops y = [] ->
  let s := st y in
  exists s', mevent_destroy s = Ret (tt, s') /\ heap s' = ∅ /\ global_head s' = [] /\ del_head s' = [] /\ epoll s' = ∅ /\
    acts s' = acts s ++ all_acts (heap s) (global_head s ++ del_head s).
Proof.
  intros H0 H1 E Hr Ho s. pose proof (mev_reachable_inv _ _ _ _ H0 H1 E Hr) as I. unfold sys_inv in I. fold s in I.
  rewrite Ho in I. destruct (mevent_destroy_run s) as (s' & Ed & Hh & Hg & Hd & He & _ & Ha).
  - pose proof (mi_owns _ _ _ I) as Hn. unfold ids in Hn. cbn [flat_map] in Hn. by rewrite app_nil_r in Hn.
  - intros fd ev p Hx. destruct (mi_epoll _ _ _ I _ _ _ Hx) as [(e & He & Hfd) Hin]. cbn [flat_map] in Hin.
    rewrite app_nil_r in Hin. split; [done|by exists e].
  - by exists s'.
Qed.

(** *** Adding and deleting *)

Lemma tuple_head fd type p l e s : heap s !! p = Some e -> me_fd e = fd -> me_type e = type ->
  find_tuple fd type (p :: l) s = Ret (Some p, s).
Proof.
  intros He Hfd Ht. cbn [find_tuple]. unfold mbind, M_bind. rewrite (deref_run _ _ _ He).
  by rewrite bool_decide_eq_true_2.
Qed.

Definition added (p : nat) (a : add_args) (run : nat) (s : mev) : mev :=
  mkMev (<[p := new_event a run]> (heap s)) (p :: global_head s) (del_head s)
    (<[a_fd a := (mevent_kq_filter (new_event a run), p)]> (epoll s)) (pipe s) (mevent_pipefd s) (acts s).

Section Add.
Context (a : add_args) (run : nat) (Hr : a_run a = Some run) (Hfd : 0 <= a_fd a) (Ht : a_type a <> EVF_TIMER).

Lemma add_fresh s p answer :
  heap s !! p = None -> epoll s !! a_fd a = None -> add_find (a_fd a) (a_type a) s = Ret (None, s) ->
  mevent_add (Some p) answer a s = if answer =? 0 then Ret (Some p, added p a run s) else Ret (None, s).
Proof.
  intros Hh He Hf. unfold mevent_add. rewrite Hr.
  rewrite (proj2 (Z.ltb_ge (a_fd a) 0)), bool_decide_eq_false_2 by done.
  unfold mbind, M_bind. rewrite Hf. unfold add_register, mbind, M_bind, modify.
  set (s1 := s <| heap ::= _ |>). unfold epoll_ctl_add. change (epoll s1) with (epoll s).
  change (me_fd (new_event a run)) with (a_fd a). rewrite He. destruct (Z.eqb_spec answer 0) as [->|Ha]; [by destruct s|].
  rewrite (proj2 (Z.eqb_neq answer 0)) by done. unfold free, deref, modify, mbind, M_bind, mret, M_ret, s1, field_upd.
  destruct s. cbn in Hh |- *. rewrite lookup_insert_eq. cbn. by rewrite delete_insert_id.
Qed.

Lemma add_again s p l calloc answer :
  heap s !! p = Some (new_event a run) -> global_head s = p :: l -> mevent_add calloc answer a s = Ret (Some p, s).
Proof.
  intros Hh Hg. unfold mevent_add. rewrite Hr.
  rewrite (proj2 (Z.ltb_ge (a_fd a) 0)), bool_decide_eq_false_2 by done.
  unfold mbind, M_bind, add_find, get. unfold mbind, M_bind. rewrite Hg.
  by rewrite (tuple_head _ _ p _ (new_event a run)).
Qed.
End Add.

(** A new event is registered for its descriptor, at the head of the list and
    running; adding the same descriptor and type again gives the same event and changes
    nothing; deleting it from the dispatch thread undoes the addition.  When
    the kernel refuses the descriptor nothing is left behind. *)
Theorem add_delete_roundtrip s p a run c answer :
  a_run a = Some run -> 0 <= a_fd a -> a_type a <> EVF_TIMER ->
  heap s !! p = None -> (p ∉ global_head s) -> epoll s !! a_fd a = None ->
  add_find (a_fd a) (a_type a) s = Ret (None, s) ->
  (answer <> 0 -> mevent_add (Some p) answer a s = Ret (None, s)) /\
  exists s1, mevent_add (Some p) 0 a s = Ret (Some p, s1) /\
    heap s1 !! p = Some (new_event a run) /\ global_head s1 = p :: global_head s /\
    epoll s1 = <[a_fd a := (mevent_kq_filter (new_event a run), p)]> (epoll s) /\
    (forall calloc answer', mevent_add calloc answer' a s1 = Ret (Some p, s1)) /\
    mevent_delete_event true p c s1 =
      Ret (0, s <| acts ::= fun l => l ++ finish_acts (marked c (new_event a run)) |>).
Proof.
  intros Hr Hfd Ht Hh Hp He Hf. split.
  { intros Ha. rewrite (add_fresh a run) by done. by rewrite (proj2 (Z.eqb_neq answer 0)). }
  assert (H1 : heap (added p a run s) !! p = Some (new_event a run)) by apply lookup_insert_eq.
  exists (added p a run s). split_and!; [by rewrite (add_fresh a run)|done|done|done| |].
  - intros calloc answer'. by apply (add_again a run Hr Hfd Ht _ p (global_head s)).
  - rewrite (delete_dispatch_run p c (added p a run s) (new_event a run)) by (done || by left). do 2 f_equal.
    unfold field_upd, added. cbn. by rewrite !delete_insert_id, unlink_head.
Qed.

(** ** An event is added, and another thread deletes it *)

Definition fds : Z * Z := (3, 4).
Definition reader (fd : Z) : add_args := mkArgs fd EVF_READ (Some 7%nat) 0 None 0.
Definition after {A} (m : outcome (A * mev)) (s : mev) : mev := match m with Ret (_, s') => s' | Stop _ => s end.

Definition e1 : mev := after (add_register (Some 1%nat) 0 (reader 5) 7 (begun fds)) (begun fds).
Definition e2 : mev := after (add_insert 1 e1) e1.
Definition e3 : mev := after (list_remove 1 e2) e2.
Definition e4 : mev := after (delete_mark 1 1 e3) e3.
Definition e5 : mev := after (delete_unregister 1 e4) e4.
Definition e6 : mev := e5 <| del_head ::= cons 1%nat |>.
Definition e7 : mev := after (mevent_notify false e6) e6.

Example e7_waits : del_head e7 = [1%nat] /\ pipe e7 = 1 /\ epoll e7 = {[3 := (EPOLLIN, pipev)]}.
Proof. by vm_compute. Qed.

Lemma e7_reachable : rtc mev_step (mkSys (begun fds) Waiting []) (mkSys e7 Waiting []).
Proof.
  apply (rtc_l _ _ (mkSys (begun fds) Waiting [OpAdd (reader 5) 7])); [by constructor|].
  apply (rtc_l _ _ (mkSys e1 Waiting [OpInsert 1])).
  { by apply (ms_register _ _ _ [] (reader 5) 7 (Some 1%nat) 0 (Some 1%nat)); [|intros ? [= <-]|]. }
  apply (rtc_l _ _ (mkSys e2 Waiting [])); [by eapply ms_insert|].
  apply (rtc_l _ _ (mkSys e3 Waiting [OpMark 1 1])); [apply ms_unlink; [by left|done|apply not_elem_of_nil|done]|].
  apply (rtc_l _ _ (mkSys e4 Waiting [OpUnregister 1])); [by eapply ms_mark|].
  apply (rtc_l _ _ (mkSys e5 Waiting [OpDefer 1])); [by eapply ms_unregister|].
  apply (rtc_l _ _ (mkSys e6 Waiting [OpNotify])); [by apply ms_defer|].
  apply rtc_once. by eapply ms_notify.
Qed.

(** A handler that deletes an event which the same [epoll_wait] reported: the
    next round of [mevent_handle] reads freed memory. *)
Definition f1 : mev := after (mevent_add (Some 1%nat) 0 (reader 5) (begun fds)) (begun fds).
Definition f2 : mev := after (mevent_add (Some 2%nat) 0 (reader 6) f1) f1.
Example batch_delete_uaf :
  handle_one 1 f2 = Ret (tt, f2 <| acts := [Run 7 5 EVF_READ 0] |>) /\
  handle_one 2 (after (mevent_delete_event true 2 1 f2) f2) = Stop UseAfterFree.
Proof. by vm_compute. Qed.

(** A thread has found event 1 in the list and is about to enable it when the dispatch thread deletes it:
    its fields are read after they are freed.  When another thread deletes it and the enabling comes before
    the drain, the drain leaves the interest list with the freed event, which the next [epoll_wait]
    that reports the descriptor hands to [mevent_handle]. *)
Definition g1 : mev := after (mevent_delete_event true 1 0 f1) f1.
Definition g2 : mev := after (enable_register 0 1 (after (mevent_delete_event false 1 0 f1) f1)) f1.
Definition g3 : mev := after (mevent_drain_del_list g2) g2.
Example enable_delete_uaf :
  enable_find 1 f1 = Ret (true, f1) /\ enable_register 0 1 g1 = Stop UseAfterFree /\
  epoll g3 !! 5 = Some (EPOLLIN, 1%nat) /\ handle_check 1 g3 = Stop UseAfterFree.
Proof. by vm_compute. Qed.

(** A handler that was seen running is called although another thread has deleted its event meanwhile. *)
Example run_after_delete :
  handle_check 1 f1 = Ret (true, f1) /\
  acts (after (handle_run 1 (after (mevent_delete_event false 1 0 f1) f1)) f1) = [Run 7 5 EVF_READ 0].
Proof. by vm_compute. Qed.

Lemma mevent_no_use_after_free_witness : owns (heap e7) (ids e7 []).
Proof.
  destruct (mevent_no_use_after_free fds (Some pipev) (begun fds) (mkSys e7 Waiting [])) as (_ & _ & _ & _ & _ & _ & H & _);
    [done|done|reflexivity|exact e7_reachable|exact H].
Defined.

Lemma mevent_deferred_wakes_witness : OpNotify ∈ [] \/ 0 < pipe e7 /\ epoll e7 !! 3 = Some (EPOLLIN, pipev).
Proof.
  apply (proj1 (mevent_deferred_wakes fds (Some pipev) (begun fds) (mkSys e7 Waiting []) ltac:(done) ltac:(done) eq_refl e7_reachable)); [done|].
  change (del_head e7 <> []). by rewrite (proj1 e7_waits).
Defined.

Lemma mevent_destroy_frees_witness :
  exists s', mevent_destroy e7 = Ret (tt, s') /\ heap s' = ∅ /\ acts s' = [Close 3; Close 5].
Proof.
  destruct (mevent_destroy_frees fds (Some pipev) (begun fds) (mkSys e7 Waiting [])) as (s' & E & H & _ & _ & _ & Ha);
    [done|done|reflexivity|exact e7_reachable|reflexivity|].
  exists s'. split; [exact E|]. split; [exact H|]. rewrite Ha. reflexivity.
Defined.

Lemma add_delete_roundtrip_witness :
  exists s1, mevent_add (Some 1%nat) 0 (reader 5) (begun fds) = Ret (Some 1%nat, s1) /\
    mevent_delete_event true 1 1 s1 = Ret (0, begun fds <| acts := [Close 5] |>).
Proof.
  destruct (add_delete_roundtrip (begun fds) 1 (reader 5) 7 1 0) as (_ & s1 & E & _ & _ & _ & _ & D);
    [reflexivity|done|done|reflexivity|by intros ?%list_elem_of_singleton|reflexivity|reflexivity|].
  by exists s1.
Defined.
