(* ===== verification/Timer.v ===== *)
(** * Timers

    [src/devicemodel/core/timer.c] and the conversions of [timer.h]: a timer is a
    descriptor of the kernel and an event of the loop.  The descriptor that
    [timerfd_create] gives and what [read] and [timerfd_settime] answer are
    arguments. *)
From S2P Require Import Prelude Mevent MeventSpec.

Definition CLOCK_REALTIME := 0.
Definition CLOCK_MONOTONIC := 1.
Definition TFD_TIMER_ABSTIME := 1.
Definition NS_PER_SEC := 1000000000.

(** The handler of timers, as a function number of the event loop. *)
Definition fn_timer_handler := 1%nat.

Record acrn_timer := mkTimer {
  fd : Z; clockid : Z; mevp : option nat; callback : option nat; callback_param : nat
}.
#[export] Instance acrn_timer_eta : Settable acrn_timer := fun t =>
  mkTimer (fd t) (clockid t) (mevp t) (callback t) (callback_param t).

(** ** Ticks *)

Record timespec := mkTs { tv_sec : Z; tv_nsec : Z }.

Definition ts_to_ticks (freq : Z) (ts : timespec) : Z :=
  let tv_sec_ticks := u64 (s64 (tv_sec ts * freq)) in
  let tv_nsec_ticks := u64 (s64 (tv_nsec ts * freq)) / NS_PER_SEC in
  u64 (tv_sec_ticks + tv_nsec_ticks).

(** [howmany] rounds up. *)
Definition ticks_to_ts (freq ticks : Z) : outcome timespec :=
  if freq =? 0 then Stop DivByZero
  else
    let ns := u64 (u64 (ticks * NS_PER_SEC) + u32 (freq - 1)) / freq in
    Ret (mkTs (s64 (ns / NS_PER_SEC)) (s64 (ns mod NS_PER_SEC))).

(** ** The calls *)

(** The call of the callback, if there is one; [read] gives a size and the
    number of expirations. *)
Definition timer_handler (arg : option acrn_timer) (read : Z * Z) : option (nat * nat * Z) :=
  match arg with
  | None => None
  | Some timer =>
    let '(size, nexp) := read in
    if size <? 0 then None
    else if (size =? 0) || (nexp =? 0) then None
    else match callback timer with Some cb => Some (cb, callback_param timer, nexp) | None => None end
  end.

Section Init.
(** [timerfd_create] of a clock; the address [calloc] gives; what [epoll_ctl] says;
    the address of the timer. *)
Context (timerfd_create : Z -> Z) (calloc : option nat) (answer : Z) (addr : nat).

Definition timer_args (tfd : Z) : add_args := mkArgs tfd EVF_READ (Some fn_timer_handler) addr None 0.

Definition acrn_timer_init (timer : option acrn_timer) (cb : option nat) (param : nat)
  : M mev (Z * option acrn_timer) :=
  match timer, cb with
  | Some timer, Some cb =>
    let timer := timer <| fd := -1 |> in
    let timer := if (clockid timer =? CLOCK_REALTIME) || (clockid timer =? CLOCK_MONOTONIC)
                 then timer <| fd := timerfd_create (clockid timer) |> else timer in
    if fd timer <=? 0 then mret (-1, Some timer)
    else
      p ← mevent_add calloc answer (timer_args (fd timer));
      let timer := timer <| mevp := p |> in
      match p with
      | None => _ ← close (fd timer); mret (-1, Some timer)
      | Some _ => mret (0, Some (timer <| callback := Some cb |> <| callback_param := param |>))
      end
  | _, _ => mret (-1, timer)
  end.
End Init.

Definition acrn_timer_deinit (is_dispatch_thread : bool) (timer : option acrn_timer) : M mev (option acrn_timer) :=
  match timer with
  | None => mret None
  | Some timer =>
    timer ← (match mevp timer with
             | Some p => _ ← mevent_delete_close is_dispatch_thread p; mret (timer <| mevp := None |>)
             | None => mret timer
             end);
    mret (Some (timer <| fd := -1 |> <| callback := None |> <| callback_param := 0%nat |>))
  end.

(** The result; [timerfd_settime] is asked with the descriptor, the flags and the value. *)
Section Kernel.
Context {itimerspec : Type} (timerfd_settime : Z -> Z -> itimerspec -> Z) (timerfd_gettime : Z -> Z * itimerspec).

Definition acrn_timer_settime (timer : option acrn_timer) (new_value : itimerspec) : Z :=
  match timer with Some timer => timerfd_settime (fd timer) 0 new_value | None => -1 end.
Definition acrn_timer_settime_abs (timer : option acrn_timer) (new_value : itimerspec) : Z :=
  match timer with Some timer => timerfd_settime (fd timer) TFD_TIMER_ABSTIME new_value | None => -1 end.
Definition acrn_timer_gettime (timer : option acrn_timer) : option (Z * itimerspec) :=
  match timer with Some timer => Some (timerfd_gettime (fd timer)) | None => None end.
End Kernel.

(** ** Properties *)

(** Ticks survive the conversion to seconds and nanoseconds and back, for any
    frequency up to a tick per nanosecond, as long as the nanoseconds fit 64 bits:
    rounding up one way and down the other loses nothing. *)
Theorem ticks_roundtrip freq ticks :
  0 < freq <= NS_PER_SEC -> 0 <= ticks -> ticks * NS_PER_SEC + freq - 1 < 2 ^ 64 ->
  exists ts, ticks_to_ts freq ticks = Ret ts /\ 0 <= tv_sec ts /\ 0 <= tv_nsec ts < NS_PER_SEC /\ ts_to_ticks freq ts = ticks.
Proof.
  unfold NS_PER_SEC. intros Hf Ht Hmax. unfold ticks_to_ts, ts_to_ticks, NS_PER_SEC.
  rewrite (proj2 (Z.eqb_neq freq 0)) by lia. change (2 ^ 64) with 18446744073709551616 in *.
  assert (Hu : forall x, 0 <= x < 18446744073709551616 -> u64 x = x) by (intros x Hx; by apply wrap_small).
  assert (Hs : forall x, 0 <= x < 9223372036854775808 -> s64 x = x) by (intros x Hx; wrap_lia).
  rewrite (Hu (ticks * 1000000000)) by lia.
  replace (u32 (freq - 1)) with (freq - 1) by (symmetry; apply wrap_small; unfold fits; lia).
  rewrite Hu by lia. set (ns := (ticks * 1000000000 + (freq - 1)) / freq).
  (* [ns] is the quotient, rounded up *)
  assert (Hns : ticks * 1000000000 <= ns * freq < ticks * 1000000000 + freq) by (unfold ns; Z.div_mod_to_equations; nia).
  clearbody ns. assert (Hns0 : 0 <= ns) by nia.
  set (s := ns / 1000000000). set (n := ns mod 1000000000).
  assert (Esn : ns = 1000000000 * s + n) by (apply Z.div_mod; lia).
  assert (Hn : 0 <= n < 1000000000) by (apply Z.mod_pos_bound; lia).
  assert (Hs0 : 0 <= s) by (apply Z.div_pos; lia). clearbody s n.
  assert (Hsf : s * freq <= ticks) by nia.
  assert (Hs1 : s <= ticks) by nia.
  eexists. split; [reflexivity|]. cbn [tv_sec tv_nsec]. rewrite (Hs s), (Hs n) by lia.
  split; [done|]. split; [done|].
  assert (Hnf : 0 <= n * freq < 9223372036854775808) by nia.
  rewrite (Hs (s * freq)), (Hs (n * freq)) by nia. rewrite (Hu (s * freq)), (Hu (n * freq)) by nia.
  assert (Hd : n * freq / 1000000000 = ticks - s * freq).
  { symmetry. apply Z.div_unique with (n * freq - 1000000000 * (ticks - s * freq)); [left; nia|lia]. }
  rewrite Hd, Hu by lia. lia.
Qed.

(** A timer that is set up has its descriptor watched by the loop, and an
    expiration reaches its callback with the number of periods; taking it down leaves
    the loop as it was, with the descriptor closed and nothing left to call.  When the
    loop refuses the descriptor it is closed as well and nothing else happens. *)
Theorem timer_init_deinit timerfd_create p addr t cb param answer s :
  let tfd := timerfd_create (clockid t) in
  clockid t = CLOCK_REALTIME \/ clockid t = CLOCK_MONOTONIC -> 0 < tfd ->
  heap s !! p = None -> (p ∉ global_head s) -> epoll s !! tfd = None -> 0 <= pipe s ->
  add_find tfd EVF_READ s = Ret (None, s) ->
  let closed := s <| acts ::= fun l => l ++ [Close tfd] |> in
  (answer <> 0 -> exists t1,
     acrn_timer_init timerfd_create (Some p) answer addr (Some t) (Some cb) param s = Ret ((-1, Some t1), closed) /\
     mevp t1 = None) /\
  exists t1 s1,
    acrn_timer_init timerfd_create (Some p) 0 addr (Some t) (Some cb) param s = Ret ((0, Some t1), s1) /\
    epoll s1 !! tfd = Some (EPOLLIN, p) /\
    (exists s2, handle_one p s1 = Ret (tt, s2) /\ acts s2 = acts s1 ++ [Run fn_timer_handler tfd EVF_READ addr]) /\
    (forall n, n <> 0 -> timer_handler (Some t1) (8, n) = Some (cb, param, n)) /\
    acrn_timer_deinit true (Some t1) s1 = Ret (Some (mkTimer (-1) (clockid t) None None 0), closed).
Proof.
  intros tfd Hc Htfd Hh Hp He Hpipe Hf closed. unfold acrn_timer_init.
  set (t0 := t <| fd := -1 |>). change (clockid t0) with (clockid t).
  replace ((clockid t =? CLOCK_REALTIME) || (clockid t =? CLOCK_MONOTONIC)) with true by (destruct Hc as [-> | ->]; done).
  set (t1 := t0 <| fd := timerfd_create (clockid t) |>). change (fd t1) with tfd.
  rewrite (proj2 (Z.leb_gt tfd 0)) by done.
  pose proof (add_fresh (timer_args addr tfd) fn_timer_handler eq_refl ltac:(cbn; lia) ltac:(done) s p) as Hadd.
  split.
  - intros Ha. exists (t1 <| mevp := None |>). split; [|done]. unfold mbind, M_bind. rewrite Hadd by done.
    rewrite (proj2 (Z.eqb_neq answer 0)) by done. unfold close, log, modify, mbind, M_bind, mret, M_ret, closed, field_upd.
    destruct s. cbn in He |- *. by rewrite delete_id.
  - set (s1 := added p (timer_args addr tfd) fn_timer_handler s).
    assert (H1 : heap s1 !! p = Some (new_event (timer_args addr tfd) fn_timer_handler)) by apply lookup_insert_eq.
    exists (t1 <| mevp := Some p |> <| callback := Some cb |> <| callback_param := param |>), s1. split_and!.
    + unfold mbind, M_bind. by rewrite Hadd.
    + apply lookup_insert_eq.
    + destruct (handle_one_run p s1 _ H1 Hpipe) as (s2 & E & _ & Ha). exists s2. by split.
    + intros n Hn. unfold timer_handler. rewrite (proj2 (Z.eqb_neq n 0)) by done. reflexivity.
    + unfold acrn_timer_deinit, mbind, M_bind, mevent_delete_close.
      change (mevp (t1 <| mevp := Some p |> <| callback := Some cb |> <| callback_param := param |>)) with (Some p).
      cbv beta iota. rewrite (delete_dispatch_run p 1 s1 _ ltac:(by left) H1).
      unfold mret, M_ret, closed, field_upd, s1, added. destruct s. cbn in *. by rewrite !delete_insert_id, unlink_head.
Qed.

(** ** A timer of the display *)

Definition ui_timer : acrn_timer := mkTimer 0 CLOCK_MONOTONIC None None 0.

Lemma ticks_roundtrip_witness :
  exists ts, ticks_to_ts 14318180 1000000 = Ret ts /\ ts_to_ticks 14318180 ts = 1000000.
Proof.
  destruct (ticks_roundtrip 14318180 1000000) as (ts & E & _ & _ & H);
    [split; vm_compute; congruence|vm_compute; congruence|vm_compute; reflexivity|by exists ts].
Defined.

Lemma timer_init_deinit_witness :
  exists t1 s1,
    acrn_timer_init (fun _ => 9) (Some 1%nat) 0 5 (Some ui_timer) (Some 8%nat) 2 (begun fds) = Ret ((0, Some t1), s1) /\
    timer_handler (Some t1) (8, 3) = Some (8%nat, 2%nat, 3) /\
    acrn_timer_deinit true (Some t1) s1 =
      Ret (Some (mkTimer (-1) CLOCK_MONOTONIC None None 0), begun fds <| acts := [Close 9] |>).
Proof.
  destruct (timer_init_deinit (fun _ => 9) 1 5 ui_timer 8 2 0 (begun fds)) as (_ & t1 & s1 & E & _ & _ & H & D);
    [by right|done|reflexivity|by intros ?%list_elem_of_singleton|reflexivity|done|reflexivity|].
  exists t1, s1. split; [exact E|]. split; [by apply H|exact D].
Defined.
