(* ===== verification/IvshmemBlock.v ===== *)
(** * The stand-alone block backend

    [src/virtio-ivshmem-block.c]: a block device of one queue over the shared
    mapping, with a file as disk.  The device's registers are the header of
    the mapping, [struct virtio_shmem_block]; the rings are where the guest put
    them.  A host pointer into the mapping is its offset. *)
From S2P Require Import Prelude Shmem VirtQueue VirtioCore.

(** [linux/virtio_blk.h] and [virtio_ids.h]. *)
Definition VIRTIO_BLK_T_IN := 0.
Definition VIRTIO_BLK_T_OUT := 1.
Definition VIRTIO_BLK_T_FLUSH := 4.
Definition VIRTIO_BLK_T_GET_ID := 8.
Definition VIRTIO_BLK_S_OK := 0.
Definition VIRTIO_BLK_S_IOERR := 1.
Definition VIRTIO_BLK_S_UNSUPP := 2.
Definition VIRTIO_BLK_F_SIZE_MAX := 1.
Definition VIRTIO_BLK_F_SEG_MAX := 2.
Definition VIRTIO_BLK_F_FLUSH := 9.
Definition VIRTIO_F_VERSION_1 := 32.
Definition VIRTIO_F_IOMMU_PLATFORM := 33.
Definition VIRTIO_F_ORDER_PLATFORM := 36.
Definition VIRTIO_ID_BLOCK := 2.
(** [struct virtio_blk_outhdr]: type, priority, sector. *)
Definition sizeof_outhdr := 16.

(** The globals of the program.  [image] is the content of the file, [num] and
    the three pointers are [vring]. *)
Record blkdev := mkBlkdev {
  shm : shmem_info; image : list Z;
  vr_num : Z; vr_desc : option Z; vr_avail : option Z; vr_used : option Z;
  next_idx : Z
}.
#[export] Instance blkdev_eta : Settable blkdev := fun d =>
  mkBlkdev (shm d) (image d) (vr_num d) (vr_desc d) (vr_avail d) (vr_used d) (next_idx d).

Definition ld (p : Z) (n : nat) : M blkdev Z := fun d => v ← ld_le (shm d) p n; Ret (v, d).
Definition st (p : Z) (n : nat) (v : Z) : M blkdev unit := fun d => s ← st_le (shm d) p n v; Ret (tt, d <| shm := s |>).

(** The registers, [vb->common_config]. *)
Definition reg (r : Z) : Z := HDR_common_config + r.

Definition avail_ptr : M blkdev Z := fun d => a ← VirtQueue.deref (vr_avail d); Ret (a, d).
Definition used_ptr : M blkdev Z := fun d => u ← VirtQueue.deref (vr_used d); Ret (u, d).
(** [&vring.desc[i]], and the descriptor there. *)
Definition desc_at (i : Z) : M blkdev vring_desc := fun d =>
  t ← VirtQueue.deref (vr_desc d); v ← ld_desc (shm d) (t + 16 * i); Ret (v, d).
Definition assert (b : bool) : M blkdev unit := if b then mret tt else halt ProcessExit.

(** [i % vring.num] *)
Definition ring_index (i : Z) : M blkdev Z := fun d =>
  if vr_num d =? 0 then Stop DivByZero else Ret (i mod vr_num d, d).

(** ** The file

    [limit] is how much the kernel transfers at most, negative for an error. *)
Definition pread (limit buf size offset : Z) : M blkdev Z := fun d =>
  if (limit <? 0) || (offset <? 0) then Ret (-1, d)
  else
    let bs := take (Z.to_nat (Z.min limit size)) (drop (Z.to_nat offset) (image d)) in
    if decide (bs = []) then Ret (0, d)
    else s ← st_bytes (shm d) buf bs; Ret (Z.of_nat (length bs), d <| shm := s |>).

Definition grow (n : nat) (bs : list Z) : list Z := bs ++ replicate (n - length bs) 0.

Definition pwrite (limit buf size offset : Z) : M blkdev Z := fun d =>
  if (limit <? 0) || (offset <? 0) then Ret (-1, d)
  else
    bs ← ld_bytes (shm d) buf (Z.to_nat (Z.min limit size));
    Ret (Z.of_nat (length bs),
         if decide (bs = []) then d
         else d <| image ::= fun im => splice (grow (Z.to_nat offset) im) (Z.to_nat offset) bs |>).

(** [ret == size], an [int] against a [size_t]. *)
Definition transferred (ret size : Z) : bool := u64 (s32 ret) =? size.

(** [req->sector * 512] as an offset in the file. *)
Definition sector_offset (sector : Z) : Z := s64 (u64 (sector * 512)).

(** ** The queue *)

(** The [switch] over the type of the request at [req]: the descriptor it ends at, the status
    and the bytes written for the guest. *)
Definition serve (limit : Z) (type sector : Z) (desc : vring_desc) : M blkdev (vring_desc * Z * Z) :=
  switch type
    [([VIRTIO_BLK_T_IN],
      desc ← desc_at (d_next desc);
      _ ← assert (has (d_flags desc) 1);
      ret ← pread limit (d_addr desc) (d_len desc) (sector_offset sector);
      mret (if transferred ret (d_len desc) then (desc, VIRTIO_BLK_S_OK, u32 (1 + d_len desc))
            else (desc, VIRTIO_BLK_S_IOERR, 1)));
     ([VIRTIO_BLK_T_OUT],
      desc ← desc_at (d_next desc);
      _ ← assert (has (d_flags desc) 1);
      ret ← pwrite limit (d_addr desc) (d_len desc) (sector_offset sector);
      mret (desc, if transferred ret (d_len desc) then VIRTIO_BLK_S_OK else VIRTIO_BLK_S_IOERR, 1));
     ([VIRTIO_BLK_T_FLUSH], mret (desc, if 0 <=? limit then VIRTIO_BLK_S_OK else VIRTIO_BLK_S_IOERR, 1));
     ([VIRTIO_BLK_T_GET_ID],
      desc ← desc_at (d_next desc);
      _ ← assert (has (d_flags desc) 1);
      let len := if 0 <? d_len desc then 1 else 0 in
      _ ← st (d_addr desc) (Z.to_nat len) 0;
      mret (desc, VIRTIO_BLK_S_OK, len))]
    (mret (desc, VIRTIO_BLK_S_UNSUPP, 1)).

Definition publish (idx len : Z) : M blkdev unit :=
  u ← used_ptr;
  i ← ld (u + 2) 2;
  used_idx ← ring_index i;
  _ ← st (u + 4 + 8 * used_idx) 4 idx;
  _ ← st (u + 4 + 8 * used_idx + 4) 4 len;
  i ← ld (u + 2) 2;
  _ ← st (u + 2) 2 (i + 1);
  modify (fun d => d <| next_idx ::= fun i => u16 (i + 1) |>).

(** The end of [process_queue]: the status, the used ring, the interrupt. *)
Definition finish (idx : Z) (desc : vring_desc) (status len : Z) : M blkdev Z :=
  desc ← desc_at (d_next desc);
  _ ← assert (negb (has (d_flags desc) 1));
  _ ← st (d_addr desc) 1 status;
  _ ← publish idx len;
  _ ← st HDR_queue_event 1 1;
  vector ← ld (reg VIRTIO_PCI_COMMON_Q_MSIX) 2;
  _ ← modify (fun d => d <| shm ::= fun s => notify_peer s vector |>);
  mret 1.

Definition process_queue (limit : Z) : M blkdev Z :=
  a ← avail_ptr;
  i ← ld (a + 2) 2;
  d ← get;
  if next_idx d =? i then mret 0
  else
    n ← ring_index (next_idx d);
    idx ← ld (a + 4 + 2 * n) 2;
    desc ← desc_at idx;
    _ ← assert (d_len desc =? sizeof_outhdr);
    _ ← assert (has (d_flags desc) 1);
    type ← ld (d_addr desc) 4;
    sector ← (if bool_decide (type ∈ [VIRTIO_BLK_T_IN; VIRTIO_BLK_T_OUT]) then ld (d_addr desc + 8) 8 else mret 0);
    '(desc, status, len) ← serve limit type sector desc;
    finish idx desc status len.

(** ** The registers *)

Definition device_features (select : Z) : Z :=
  if select =? 1 then
    Z.lor (Z.lor (Z.shiftl 1 (VIRTIO_F_VERSION_1 - 32)) (Z.shiftl 1 (VIRTIO_F_IOMMU_PLATFORM - 32)))
      (Z.shiftl 1 (VIRTIO_F_ORDER_PLATFORM - 32))
  else
    Z.lor (Z.lor (Z.shiftl 1 VIRTIO_BLK_F_SIZE_MAX) (Z.shiftl 1 VIRTIO_BLK_F_SEG_MAX)) (Z.shiftl 1 VIRTIO_BLK_F_FLUSH).

(** An address in two registers. *)
Definition ld_addr (lo hi : Z) : M blkdev Z :=
  l ← ld (reg lo) 4; h ← ld (reg hi) 4; mret (u64 (l + Z.shiftl h 32)).

Definition enable_queue : M blkdev unit :=
  enable ← ld (reg VIRTIO_PCI_COMMON_Q_ENABLE) 2;
  if enable =? 0 then mret tt
  else
    n ← ld (reg VIRTIO_PCI_COMMON_Q_SIZE) 2;
    d ← ld_addr VIRTIO_PCI_COMMON_Q_DESCLO VIRTIO_PCI_COMMON_Q_DESCHI;
    a ← ld_addr VIRTIO_PCI_COMMON_Q_AVAILLO VIRTIO_PCI_COMMON_Q_AVAILHI;
    u ← ld_addr VIRTIO_PCI_COMMON_Q_USEDLO VIRTIO_PCI_COMMON_Q_USEDHI;
    modify (fun s => s <| vr_num := n |> <| vr_desc := Some d |> <| vr_avail := Some a |> <| vr_used := Some u |>
                       <| next_idx := 0 |>).

(** The other registers are only printed. *)
Definition process_write_transaction : M blkdev Z :=
  offset ← ld HDR_write_offset 2;
  if offset =? 0 then mret 0
  else
    _ ← switch offset
          [([reg VIRTIO_PCI_COMMON_DFSELECT],
            select ← ld (reg VIRTIO_PCI_COMMON_DFSELECT) 4;
            st (reg VIRTIO_PCI_COMMON_DF) 4 (device_features select));
           ([reg VIRTIO_PCI_COMMON_Q_SELECT], st (reg VIRTIO_PCI_COMMON_Q_SIZE) 2 8);
           ([reg VIRTIO_PCI_COMMON_Q_ENABLE], enable_queue)]
          (mret tt);
    _ ← st HDR_write_transaction 4 0;
    mret 1.

(** ** The program *)

(** The header as the program starts with it.  [sizeof_vb] is the size of the
    structure, which depends on the kernel's headers; [size_max] is computed from
    a variable that nothing has set. *)
Definition init_device (sizeof_vb : nat) (st_size size_max : Z) : M blkdev unit :=
  _ ← (fun d => s ← st_bytes (shm d) 0 (replicate sizeof_vb 0); Ret (tt, d <| shm := s |>));
  _ ← st HDR_revision 4 1;
  _ ← st HDR_size 4 (Z.of_nat sizeof_vb);
  _ ← st HDR_device_id 4 VIRTIO_ID_BLOCK;
  _ ← st HDR_vendor_id 4 0;
  _ ← st (reg VIRTIO_PCI_COMMON_Q_SIZE) 2 8;
  _ ← st HDR_config 8 (Z.quot st_size 512);
  _ ← st (HDR_config + 8) 4 size_max;
  st (HDR_config + 12) 4 1.

(** A round of the loop: whether anything happened; otherwise it waits. *)
Definition main_round (limit : Z) : M blkdev bool :=
  event ← process_write_transaction;
  status ← ld (reg VIRTIO_PCI_COMMON_STATUS) 1;
  if status =? 0xf then more ← process_queue limit; mret (negb (Z.lor event more =? 0))
  else mret (negb (event =? 0)).

(** ** Memory *)

Definition apart (p n q k : Z) : Prop := p + n <= q \/ q + k <= p.

Lemma st_run p n v d :
  0 <= p -> p + Z.of_nat n <= mem_size (shm d) ->
  exists s, st_le (shm d) p n v = Ret s /\ mem_size s = mem_size (shm d) /\ st p n v d = Ret (tt, d <| shm := s |>).
Proof.
  intros H0 H1. destruct (st_bytes_returns (shm d) p (le_encode n v)) as [s E]; [done|by rewrite length_le_encode|].
  exists s. split; [done|]. split; [by apply st_bytes_ret in E as (_ & _ & ->)|].
  unfold st, st_le. by rewrite E.
Qed.

Lemma st_le_regs s p n v s' : st_le s p n v = Ret s' -> peer_id s' = peer_id s /\ doorbell s' = doorbell s.
Proof. by intros (_ & _ & ->)%st_bytes_ret. Qed.

Lemma ld_run p n v d : ld_le (shm d) p n = Ret v -> ld p n d = Ret (v, d).
Proof. intros H. unfold ld. by rewrite H. Qed.

Lemma ld_desc_ext s s' p : ld_bytes s' p 16 = ld_bytes s p 16 -> ld_desc s' p = ld_desc s p.
Proof. intros H. unfold ld_desc. by rewrite H. Qed.

Lemma st_le_disjoint s p n v s' q k :
  st_le s p n v = Ret s' -> apart p (Z.of_nat n) q (Z.of_nat k) -> ld_bytes s' q k = ld_bytes s q k.
Proof. intros H Ha. apply (ld_st_disjoint _ _ _ _ q k) in H; [done|]. rewrite length_le_encode. unfold apart in Ha. lia. Qed.

(** ** The end of a request *)

Section Finish.
Context (d : blkdev) (t u : Z) (desc sd : vring_desc) (ui : Z).
Context (Ht : vr_desc d = Some t) (Hu : vr_used d = Some u) (Hnum : 0 < vr_num d).
Context (Hsd : ld_desc (shm d) (t + 16 * d_next desc) = Ret sd) (Hlast : has (d_flags sd) 1 = false).
Context (Hui : ld_le (shm d) (u + 2) 2 = Ret ui).
Context (Hs0 : 0 <= d_addr sd) (Hs1 : d_addr sd + 1 <= mem_size (shm d)).
Context (Hu0 : 0 <= u) (Hu1 : u + 4 + 8 * vr_num d <= mem_size (shm d)) (Hh : HDR_config <= mem_size (shm d)).
Context (Hsu : apart (d_addr sd) 1 u (4 + 8 * vr_num d)) (Hsh : apart (d_addr sd) 1 0 HDR_config).
Context (Huh : apart u (4 + 8 * vr_num d) 0 HDR_config).

Let slot := u + 4 + 8 * (ui mod vr_num d).

Lemma finish_run idx status len :
  exists s vector, finish idx desc status len d = Ret (1, d <| shm := notify_peer s vector |> <| next_idx ::= fun i => u16 (i + 1) |>) /\
    mem_size s = mem_size (shm d) /\ peer_id s = peer_id (shm d) /\ doorbell s = doorbell (shm d) /\
    ld_le s (d_addr sd) 1 = Ret (u8 status) /\
    ld_le s (u + 2) 2 = Ret (u16 (ui + 1)) /\
    ld_le s slot 4 = Ret (u32 idx) /\ ld_le s (slot + 4) 4 = Ret (u32 len) /\
    ld_le s HDR_queue_event 1 = Ret 1 /\
    (forall q k, apart (d_addr sd) 1 q (Z.of_nat k) -> apart u (4 + 8 * vr_num d) q (Z.of_nat k) ->
       apart 0 HDR_config q (Z.of_nat k) -> ld_bytes s q k = ld_bytes (shm d) q k).
Proof.
  unfold apart, HDR_config in *. pose proof (Z.mod_pos_bound ui (vr_num d) Hnum) as Hslot. fold slot.
  assert (Hsl : u + 4 <= slot /\ slot + 8 <= u + 4 + 8 * vr_num d) by (unfold slot; lia).
  unfold finish, mbind, M_bind, desc_at. rewrite Ht. cbn [VirtQueue.deref mbind outcome_bind]. rewrite Hsd.
  cbn [mbind outcome_bind]. rewrite Hlast. cbn [negb assert]. unfold mret, M_ret.
  destruct (st_run (d_addr sd) 1 status d Hs0 Hs1) as (s1 & W1 & Z1 & ->).
  set (d1 := d <| shm := s1 |>).
  assert (L1 : ld_le (shm d1) (u + 2) 2 = Ret ui) by (change (shm d1) with s1; rewrite (ld_st_le_disjoint _ _ _ _ _ _ _ W1); [done|lia]).
  unfold publish, used_ptr, mbind, M_bind. change (vr_used d1) with (vr_used d). rewrite Hu.
  cbn [VirtQueue.deref mbind outcome_bind]. rewrite (ld_run _ _ _ _ L1). unfold ring_index.
  change (vr_num d1) with (vr_num d). rewrite (proj2 (Z.eqb_neq (vr_num d) 0)) by lia. fold slot.
  destruct (st_run slot 4 idx d1) as (s2 & W2 & Z2 & ->); [lia|change (shm d1) with s1; lia|].
  set (d2 := d1 <| shm := s2 |>).
  destruct (st_run (slot + 4) 4 len d2) as (s3 & W3 & Z3 & ->); [lia|change (shm d2) with s2; change (shm d1) with s1 in *; lia|].
  set (d3 := d2 <| shm := s3 |>). change (shm d1) with s1 in *. change (shm d2) with s2 in *.
  assert (L3 : ld_le (shm d3) (u + 2) 2 = Ret ui).
  { change (shm d3) with s3. rewrite (ld_st_le_disjoint _ _ _ _ _ _ _ W3) by lia.
    by rewrite (ld_st_le_disjoint _ _ _ _ _ _ _ W2) by lia. }
  rewrite (ld_run _ _ _ _ L3). change (shm d3) with s3 in *.
  destruct (st_run (u + 2) 2 (ui + 1) d3) as (s4 & W4 & Z4 & ->); [lia|change (shm d3) with s3; lia|].
  set (d4 := d3 <| shm := s4 |>). change (shm d3) with s3 in *. unfold modify.
  set (d5 := d4 <| next_idx ::= _ |>). unfold HDR_queue_event.
  destruct (st_run 21 1 1 d5) as (s5 & W5 & Z5 & ->); [lia|change (shm d5) with s4; lia|].
  change (shm d5) with s4 in *. set (d6 := d5 <| shm := s5 |>).
  destruct (ld_bytes_returns s5 (reg VIRTIO_PCI_COMMON_Q_MSIX) 2) as [bs Hbs];
    [vm_compute; congruence|unfold reg, HDR_common_config, VIRTIO_PCI_COMMON_Q_MSIX; lia|].
  assert (L6 : ld_le (shm d6) (reg VIRTIO_PCI_COMMON_Q_MSIX) 2 = Ret (le_decode bs)) by (unfold ld_le; change (shm d6) with s5; by rewrite Hbs).
  rewrite (ld_run _ _ _ _ L6). exists s5, (le_decode bs). split; [by destruct d|].
  apply st_le_regs in W1 as R1, W2 as R2, W3 as R3, W4 as R4, W5 as R5.
  split; [lia|]. split_and!; [destruct_and!; congruence..| | | | | |].
  - rewrite (ld_st_le_disjoint _ _ _ _ _ _ _ W5), (ld_st_le_disjoint _ _ _ _ _ _ _ W4),
      (ld_st_le_disjoint _ _ _ _ _ _ _ W3), (ld_st_le_disjoint _ _ _ _ _ _ _ W2) by lia. apply (ld_st_le_same _ _ _ _ _ W1).
  - rewrite (ld_st_le_disjoint _ _ _ _ _ _ _ W5) by lia. apply (ld_st_le_same _ _ _ _ _ W4).
  - rewrite (ld_st_le_disjoint _ _ _ _ _ _ _ W5), (ld_st_le_disjoint _ _ _ _ _ _ _ W4),
      (ld_st_le_disjoint _ _ _ _ _ _ _ W3) by lia. apply (ld_st_le_same _ _ _ _ _ W2).
  - rewrite (ld_st_le_disjoint _ _ _ _ _ _ _ W5), (ld_st_le_disjoint _ _ _ _ _ _ _ W4) by lia. apply (ld_st_le_same _ _ _ _ _ W3).
  - apply (ld_st_le_same _ _ _ _ _ W5).
  - intros q k Ha1 Ha2 Ha3.
    rewrite (st_le_disjoint _ _ _ _ _ q k W5), (st_le_disjoint _ _ _ _ _ q k W4), (st_le_disjoint _ _ _ _ _ q k W3),
      (st_le_disjoint _ _ _ _ _ q k W2), (st_le_disjoint _ _ _ _ _ q k W1) by (unfold apart; lia). done.
Qed.
End Finish.

(** ** The disk the guest sees *)

Definition disk_read (im : list Z) (sector : Z) (n : nat) : list Z := take n (drop (Z.to_nat (sector * 512)) im).
Definition disk_write (im : list Z) (sector : Z) (bs : list Z) : list Z := splice im (Z.to_nat (sector * 512)) bs.

(** A request of the guest: the queue has a new one, its head is [idx], and the
    three descriptors are the header [hd], the data [dd] and the status [sd]; none of the
    areas that are written lies over another, the table or the registers. *)
Record request (d : blkdev) (t a u idx : Z) (hd dd sd : vring_desc) (type sector ui : Z) : Prop := {
  rq_ptrs : vr_desc d = Some t /\ vr_avail d = Some a /\ vr_used d = Some u;
  rq_num : 0 < vr_num d;
  rq_new : exists i, ld_le (shm d) (a + 2) 2 = Ret i /\ next_idx d <> i;
  rq_idx : ld_le (shm d) (a + 4 + 2 * (next_idx d mod vr_num d)) 2 = Ret idx;
  rq_hd : ld_desc (shm d) (t + 16 * idx) = Ret hd /\ d_len hd = sizeof_outhdr /\ has (d_flags hd) 1 = true;
  rq_type : ld_le (shm d) (d_addr hd) 4 = Ret type /\ ld_le (shm d) (d_addr hd + 8) 8 = Ret sector;
  rq_dd : ld_desc (shm d) (t + 16 * d_next hd) = Ret dd /\ has (d_flags dd) 1 = true;
  rq_sd : ld_desc (shm d) (t + 16 * d_next dd) = Ret sd /\ has (d_flags sd) 1 = false;
  rq_ui : ld_le (shm d) (u + 2) 2 = Ret ui;
  rq_data : 0 <= d_addr dd /\ 0 <= d_len dd < 2 ^ 31 /\ d_addr dd + d_len dd <= mem_size (shm d);
  rq_status : 0 <= d_addr sd /\ d_addr sd + 1 <= mem_size (shm d);
  rq_used : 0 <= u /\ u + 4 + 8 * vr_num d <= mem_size (shm d) /\ HDR_config <= mem_size (shm d);
  rq_apart : apart (d_addr sd) 1 u (4 + 8 * vr_num d) /\ apart (d_addr sd) 1 0 HDR_config /\
    apart u (4 + 8 * vr_num d) 0 HDR_config;
  rq_apart_data : apart (d_addr dd) (d_len dd) (t + 16 * d_next dd) 16 /\ apart (d_addr dd) (d_len dd) u (4 + 8 * vr_num d) /\
    apart (d_addr dd) (d_len dd) (d_addr sd) 1 /\ apart (d_addr dd) (d_len dd) 0 HDR_config;
  rq_sector : 0 <= sector /\ sector * 512 + d_len dd <= Z.of_nat (length (image d)) /\ Z.of_nat (length (image d)) < 2 ^ 63
}.

(** What the guest finds when its request is done. *)
Record completed (d d' : blkdev) (u idx : Z) (sd : vring_desc) (ui status len : Z) : Prop := {
  cp_status : ld_le (shm d') (d_addr sd) 1 = Ret status;
  cp_used : ld_le (shm d') (u + 2) 2 = Ret (u16 (ui + 1));
  cp_id : ld_le (shm d') (u + 4 + 8 * (ui mod vr_num d)) 4 = Ret (u32 idx);
  cp_len : ld_le (shm d') (u + 4 + 8 * (ui mod vr_num d) + 4) 4 = Ret (u32 len);
  cp_event : ld_le (shm d') HDR_queue_event 1 = Ret 1;
  cp_bell : exists vector, doorbell (shm d') = u32 (Z.lor (Z.shiftl (peer_id (shm d)) 16) vector) :: doorbell (shm d);
  cp_next : next_idx d' = u16 (next_idx d + 1)
}.

Lemma sector_offset_ok sector n : 0 <= sector -> sector * 512 + n < 2 ^ 63 -> 0 <= n -> sector_offset sector = sector * 512.
Proof.
  intros H0 H1 H2. unfold sector_offset. change (2 ^ 63) with 9223372036854775808 in H1. wrap_lia.
Qed.

Lemma transferred_all n : 0 <= n < 2 ^ 31 -> transferred n n = true.
Proof. intros H. unfold transferred. apply Z.eqb_eq. change (2 ^ 31) with 2147483648 in H. wrap_lia. Qed.
Lemma transferred_error n : 0 <= n < 2 ^ 31 -> transferred (-1) n = false.
Proof. intros H. unfold transferred. apply Z.eqb_neq. change (2 ^ 31) with 2147483648 in H. vm_compute (u64 (s32 (-1))). lia. Qed.

Lemma pread_run limit d buf n sector :
  0 <= n <= limit -> 0 <= sector -> sector * 512 + n <= Z.of_nat (length (image d)) ->
  0 <= buf -> buf + n <= mem_size (shm d) ->
  let bs := disk_read (image d) sector (Z.to_nat n) in
  exists s, pread limit buf n (sector * 512) d = Ret (n, d <| shm := s |>) /\ length bs = Z.to_nat n /\
    st_bytes (shm d) buf bs = Ret s.
Proof.
  intros Hn Hs Hlen Hb0 Hb1 bs. unfold pread. rewrite (proj2 (Z.ltb_ge limit 0)), (proj2 (Z.ltb_ge (sector * 512) 0)) by lia.
  cbn [orb]. rewrite Z.min_r by lia. fold (disk_read (image d) sector (Z.to_nat n)). fold bs.
  assert (Hl : length bs = Z.to_nat n) by (unfold bs, disk_read; rewrite length_take, length_drop; lia).
  case_decide as Hbs.
  - assert (n = 0) as -> by (rewrite Hbs in Hl; cbn in Hl; lia). rewrite Hbs. exists (shm d). split_and!; [by destruct d|done|].
    unfold st_bytes. rewrite (proj2 (in_bounds_spec _ _ _)) by (cbn; lia). unfold field_upd. by destruct (shm d).
  - destruct (st_bytes_returns (shm d) buf bs) as [s E]; [done|lia|]. exists s. rewrite E. cbn [mbind outcome_bind].
    split_and!; [|done|done]. do 2 f_equal. lia.
Qed.

Lemma pwrite_run limit d buf n sector :
  0 <= n <= limit -> 0 <= sector -> sector * 512 + n <= Z.of_nat (length (image d)) ->
  0 <= buf -> buf + n <= mem_size (shm d) ->
  exists bs, ld_bytes (shm d) buf (Z.to_nat n) = Ret bs /\ length bs = Z.to_nat n /\
    pwrite limit buf n (sector * 512) d = Ret (n, d <| image := disk_write (image d) sector bs |>).
Proof.
  intros Hn Hs Hlen Hb0 Hb1. unfold pwrite. rewrite (proj2 (Z.ltb_ge limit 0)), (proj2 (Z.ltb_ge (sector * 512) 0)) by lia.
  cbn [orb]. rewrite Z.min_r by lia. destruct (ld_bytes_returns (shm d) buf (Z.to_nat n)) as [bs E]; [done|lia|].
  exists bs. pose proof (ld_bytes_ret _ _ _ _ E) as (_ & _ & Hl). split_and!; [done|done|]. rewrite E.
  cbn [mbind outcome_bind]. assert (Hg : grow (Z.to_nat (sector * 512)) (image d) = image d).
  { unfold grow. rewrite (proj2 (Nat.sub_0_le _ _)) by lia. by rewrite app_nil_r. }
  case_decide as Hbs.
  - subst bs. cbn in Hl. do 2 f_equal; [cbn; lia|]. destruct d. unfold disk_write, splice, field_upd. cbn in *.
    by rewrite Nat.add_0_r, take_drop.
  - do 2 f_equal; [lia|]. unfold field_upd, disk_write. destruct d. cbn in *. by rewrite Hg.
Qed.

(** *** A request is served *)

Lemma process_queue_start limit d t a u idx hd dd sd type sector ui :
  request d t a u idx hd dd sd type sector ui -> type = VIRTIO_BLK_T_IN \/ type = VIRTIO_BLK_T_OUT ->
  process_queue limit d = ('(desc, status, len) ← serve limit type sector hd; finish idx desc status len) d.
Proof.
  intros [(Pt & Pa & Pu) Hn (i & Hi & Hne) Hidx (Hhd & Hl & Hf) (Hty & Hsec) _ _ _ _ _ _ _ _ _] Hc.
  unfold process_queue, avail_ptr, mbind, M_bind. rewrite Pa. cbn [VirtQueue.deref mbind outcome_bind].
  rewrite (ld_run _ _ _ _ Hi). unfold get. rewrite (proj2 (Z.eqb_neq _ _) Hne).
  unfold ring_index. rewrite (proj2 (Z.eqb_neq (vr_num d) 0)) by lia. rewrite (ld_run _ _ _ _ Hidx).
  unfold desc_at. rewrite Pt. cbn [VirtQueue.deref mbind outcome_bind]. rewrite Hhd. cbn [mbind outcome_bind].
  rewrite (proj2 (Z.eqb_eq _ _) Hl), Hf. cbn [assert]. unfold mret, M_ret.
  rewrite (ld_run _ _ _ _ Hty). rewrite bool_decide_eq_true_2 by (rewrite !elem_of_cons; tauto).
  by rewrite (ld_run _ _ _ _ Hsec).
Qed.

Lemma data_desc d t a u idx hd dd sd type sector ui :
  request d t a u idx hd dd sd type sector ui -> desc_at (d_next hd) d = Ret (dd, d).
Proof.
  intros [(Pt & _ & _) _ _ _ _ _ (Hdd & _) _ _ _ _ _ _ _ _]. unfold desc_at. rewrite Pt.
  cbn [VirtQueue.deref mbind outcome_bind]. by rewrite Hdd.
Qed.

(** The end of a request of which the data area was filled, or not. *)
Lemma request_finish d t a u idx hd dd sd type sector ui d1 status len :
  request d t a u idx hd dd sd type sector ui ->
  vr_num d1 = vr_num d -> vr_desc d1 = vr_desc d -> vr_used d1 = vr_used d -> next_idx d1 = next_idx d ->
  mem_size (shm d1) = mem_size (shm d) -> peer_id (shm d1) = peer_id (shm d) -> doorbell (shm d1) = doorbell (shm d) ->
  (forall q k, apart (d_addr dd) (d_len dd) q (Z.of_nat k) -> ld_bytes (shm d1) q k = ld_bytes (shm d) q k) ->
  exists d', finish idx dd status len d1 = Ret (1, d') /\ image d' = image d1 /\
    completed d d' u idx sd ui (u8 status) len /\
    ld_bytes (shm d') (d_addr dd) (Z.to_nat (d_len dd)) = ld_bytes (shm d1) (d_addr dd) (Z.to_nat (d_len dd)).
Proof.
  intros [(Pt & Pa & Pu) Hn Hi Hidx Hhd Hty Hdd (Hsd & Hlast) Hui Hdata Hst (Hu0 & Hu1 & Hh) (A1 & A2 & A3) (B1 & B2 & B3 & B4) _]
    E1 E2 E3 E4 E5 E6 E7 Hld.
  assert (Hsd' : ld_desc (shm d1) (t + 16 * d_next dd) = Ret sd) by (rewrite <- Hsd; by apply ld_desc_ext, Hld).
  assert (Hui' : ld_le (shm d1) (u + 2) 2 = Ret ui).
  { rewrite <- Hui. unfold ld_le. rewrite Hld; [done|]. clear -B2 Hn. unfold apart in *. lia. }
  destruct (finish_run d1 t u dd sd ui) with (idx := idx) (status := status) (len := len)
    as (s & vector & E & M1 & M2 & M3 & F1 & F2 & F3 & F4 & F5 & F6); try (rewrite ?E1, ?E2, ?E3, ?E5; done || lia || apply Hst).
  exists (d1 <| shm := notify_peer s vector |> <| next_idx ::= fun i => u16 (i + 1) |>).
  split; [done|]. split; [done|]. split.
  - split; try done.
    + by rewrite <- E1.
    + by rewrite <- E1.
    + exists vector. cbn. unfold field_upd. by rewrite M2, M3, E6, E7.
    + cbn. unfold field_upd. by rewrite E4.
  - change (ld_bytes s (d_addr dd) (Z.to_nat (d_len dd)) = ld_bytes (shm d1) (d_addr dd) (Z.to_nat (d_len dd))).
    apply F6; unfold apart in *; rewrite ?E1; lia.
Qed.

(** The data descriptor is there and has a successor. *)
Lemma serve_in limit sector desc dd d r d' :
  desc_at (d_next desc) d = Ret (dd, d) -> has (d_flags dd) 1 = true ->
  pread limit (d_addr dd) (d_len dd) (sector_offset sector) d = Ret (r, d') ->
  serve limit VIRTIO_BLK_T_IN sector desc d =
    Ret (if transferred r (d_len dd) then (dd, VIRTIO_BLK_S_OK, u32 (1 + d_len dd)) else (dd, VIRTIO_BLK_S_IOERR, 1), d').
Proof.
  intros Hd Hf E. unfold serve. cbn [switch existsb]. change (VIRTIO_BLK_T_IN =? VIRTIO_BLK_T_IN) with true. cbn [orb].
  unfold mbind, M_bind. rewrite Hd, Hf. cbn [assert]. unfold mret, M_ret. by rewrite E.
Qed.

Lemma serve_out limit sector desc dd d r d' :
  desc_at (d_next desc) d = Ret (dd, d) -> has (d_flags dd) 1 = true ->
  pwrite limit (d_addr dd) (d_len dd) (sector_offset sector) d = Ret (r, d') ->
  serve limit VIRTIO_BLK_T_OUT sector desc d =
    Ret (dd, if transferred r (d_len dd) then VIRTIO_BLK_S_OK else VIRTIO_BLK_S_IOERR, 1, d').
Proof.
  intros Hd Hf E. unfold serve. cbn [switch existsb]. change (VIRTIO_BLK_T_OUT =? VIRTIO_BLK_T_IN) with false.
  change (VIRTIO_BLK_T_OUT =? VIRTIO_BLK_T_OUT) with true. cbn [orb].
  unfold mbind, M_bind. rewrite Hd, Hf. cbn [assert]. unfold mret, M_ret. by rewrite E.
Qed.

(** What a request of type [type] does to the disk and to the guest's buffer. *)
Definition effect (type sector : Z) (dd : vring_desc) (d d' : blkdev) : Prop :=
  let n := Z.to_nat (d_len dd) in
  if type =? VIRTIO_BLK_T_IN then
    image d' = image d /\ ld_bytes (shm d') (d_addr dd) n = Ret (disk_read (image d) sector n)
  else exists bs, ld_bytes (shm d) (d_addr dd) n = Ret bs /\ image d' = disk_write (image d) sector bs.

Section Served.
Context (limit : Z) (d : blkdev) (t a u idx : Z) (hd dd sd : vring_desc) (sector ui : Z).

Lemma rq_offset type : request d t a u idx hd dd sd type sector ui -> sector_offset sector = sector * 512.
Proof.
  intros R. destruct (rq_data _ _ _ _ _ _ _ _ _ _ _ R) as (_ & [H _] & _), (rq_sector _ _ _ _ _ _ _ _ _ _ _ R) as (S0 & S1 & S2).
  apply (sector_offset_ok sector (d_len dd)); lia.
Qed.

Lemma read_served :
  request d t a u idx hd dd sd VIRTIO_BLK_T_IN sector ui -> d_len dd <= limit ->
  exists d', process_queue limit d = Ret (1, d') /\ effect VIRTIO_BLK_T_IN sector dd d d' /\
    completed d d' u idx sd ui VIRTIO_BLK_S_OK (1 + d_len dd).
Proof.
  intros R Hlim. rewrite (process_queue_start limit _ _ _ _ _ _ _ _ _ _ _ R) by (by left).
  pose proof (data_desc _ _ _ _ _ _ _ _ _ _ _ R) as Hdd. pose proof (rq_offset _ R) as Hso.
  pose proof R as [_ Hn _ _ _ _ (_ & Hf) _ _ (D0 & D1 & D2) _ _ _ _ (S0 & S1 & S2)].
  unfold mbind at 1, M_bind at 1.
  destruct (pread_run limit d (d_addr dd) (d_len dd) sector) as (s & E & Hl & W); [lia|done..|].
  destruct (request_finish _ _ _ _ _ _ _ _ _ _ _ (d <| shm := s |>) VIRTIO_BLK_S_OK (1 + d_len dd) R) as (d' & Ef & I & C & L);
    try done; try (apply st_bytes_ret in W as (_ & _ & ->); done).
  { intros q k Hq. apply (ld_st_disjoint _ _ _ _ _ _ W). rewrite Hl. unfold apart in Hq. lia. }
  exists d'. split; [|split; [|exact C]].
  - rewrite (serve_in limit sector hd dd d (d_len dd) (d <| shm := s |>)) by (done || by rewrite Hso).
    rewrite transferred_all by done. replace (u32 (1 + d_len dd)) with (1 + d_len dd); [exact Ef|].
    symmetry. apply wrap_small. change (2 ^ 31) with 2147483648 in D1. unfold fits. lia.
  - unfold effect. change (VIRTIO_BLK_T_IN =? VIRTIO_BLK_T_IN) with true. cbv iota.
    split; [done|]. rewrite L. apply ld_st_same in W. rewrite Hl in W. exact W.
Qed.

Lemma write_served :
  request d t a u idx hd dd sd VIRTIO_BLK_T_OUT sector ui -> d_len dd <= limit ->
  exists d', process_queue limit d = Ret (1, d') /\ effect VIRTIO_BLK_T_OUT sector dd d d' /\
    completed d d' u idx sd ui VIRTIO_BLK_S_OK 1.
Proof.
  intros R Hlim. rewrite (process_queue_start limit _ _ _ _ _ _ _ _ _ _ _ R) by (by right).
  pose proof (data_desc _ _ _ _ _ _ _ _ _ _ _ R) as Hdd. pose proof (rq_offset _ R) as Hso.
  pose proof R as [_ Hn _ _ _ _ (_ & Hf) _ _ (D0 & D1 & D2) _ _ _ _ (S0 & S1 & S2)].
  unfold mbind at 1, M_bind at 1.
  destruct (pwrite_run limit d (d_addr dd) (d_len dd) sector) as (bs & Hb & Hl & E); [lia|done..|].
  destruct (request_finish _ _ _ _ _ _ _ _ _ _ _ (d <| image := disk_write (image d) sector bs |>) VIRTIO_BLK_S_OK 1 R)
    as (d' & Ef & I & C & L); try done.
  exists d'. split; [|split; [|exact C]].
  - rewrite (serve_out limit sector hd dd d (d_len dd) (d <| image := disk_write (image d) sector bs |>))
      by (done || by rewrite Hso). rewrite transferred_all by done. exact Ef.
  - unfold effect. change (VIRTIO_BLK_T_OUT =? VIRTIO_BLK_T_IN) with false. cbv iota. by exists bs.
Qed.

Lemma failed_served type :
  request d t a u idx hd dd sd type sector ui -> type = VIRTIO_BLK_T_IN \/ type = VIRTIO_BLK_T_OUT -> limit < 0 ->
  exists d', process_queue limit d = Ret (1, d') /\ image d' = image d /\
    completed d d' u idx sd ui VIRTIO_BLK_S_IOERR 1 /\
    ld_bytes (shm d') (d_addr dd) (Z.to_nat (d_len dd)) = ld_bytes (shm d) (d_addr dd) (Z.to_nat (d_len dd)).
Proof.
  intros R Hty Hneg. rewrite (process_queue_start limit _ _ _ _ _ _ _ _ _ _ _ R Hty).
  pose proof (data_desc _ _ _ _ _ _ _ _ _ _ _ R) as Hdd. pose proof (rq_offset _ R) as Hso.
  pose proof R as [_ Hn _ _ _ _ (_ & Hf) _ _ (D0 & D1 & D2) _ _ _ _ _]. unfold mbind at 1, M_bind at 1.
  assert (Hr : forall buf, pread limit buf (d_len dd) (sector * 512) d = Ret (-1, d) /\
    pwrite limit buf (d_len dd) (sector * 512) d = Ret (-1, d)).
  { intros buf. unfold pread, pwrite. by rewrite (proj2 (Z.ltb_lt limit 0)). }
  destruct (request_finish _ _ _ _ _ _ _ _ _ _ _ d VIRTIO_BLK_S_IOERR 1 R) as (d' & E & I & C & L); try done.
  exists d'. split; [|done]. destruct Hty as [-> | ->].
  - rewrite (serve_in limit sector hd dd d (-1) d) by (done || (rewrite Hso; apply Hr)). by rewrite transferred_error.
  - rewrite (serve_out limit sector hd dd d (-1) d) by (done || (rewrite Hso; apply Hr)). by rewrite transferred_error.
Qed.
End Served.

(** C8. A request to read or write some sectors of the disk is carried out as one
    on an abstract disk: a read puts the bytes of the sectors into the guest's buffer
    and leaves the disk, a write puts the buffer's bytes on the disk.  The
    status says so, the used ring gets the head and the length, the interrupt is
    raised and the queue moves on.  When the host reports an error the status is
    an I/O error and neither the disk nor the buffer is touched. *)
Theorem request_served limit d t a u idx hd dd sd type sector ui :
  request d t a u idx hd dd sd type sector ui -> type = VIRTIO_BLK_T_IN \/ type = VIRTIO_BLK_T_OUT ->
  limit < 0 \/ d_len dd <= limit ->
  exists d', process_queue limit d = Ret (1, d') /\
    (0 <= limit -> effect type sector dd d d' /\
       completed d d' u idx sd ui VIRTIO_BLK_S_OK (if type =? VIRTIO_BLK_T_IN then 1 + d_len dd else 1)) /\
    (limit < 0 -> image d' = image d /\ completed d d' u idx sd ui VIRTIO_BLK_S_IOERR 1 /\
       ld_bytes (shm d') (d_addr dd) (Z.to_nat (d_len dd)) = ld_bytes (shm d) (d_addr dd) (Z.to_nat (d_len dd))).
Proof.
  intros R Hty Hlim. destruct (rq_data _ _ _ _ _ _ _ _ _ _ _ R) as (_ & [D0 _] & _).
  destruct (Z.ltb_spec limit 0) as [Hneg|Hpos].
  - destruct (failed_served limit _ _ _ _ _ _ _ _ _ _ _ R Hty Hneg) as (d' & E & H). exists d'. split; [done|]. split; [lia|done].
  - destruct Hlim as [|Hlim]; [lia|]. destruct Hty as [-> | ->].
    + destruct (read_served limit _ _ _ _ _ _ _ _ _ _ R Hlim) as (d' & E & H). exists d'. split; [done|]. split; [done|lia].
    + destruct (write_served limit _ _ _ _ _ _ _ _ _ _ R Hlim) as (d' & E & H). exists d'. split; [done|]. split; [done|lia].
Qed.

Lemma disk_read_write im sector bs :
  (Z.to_nat (sector * 512) + length bs <= length im)%nat -> disk_read (disk_write im sector bs) sector (length bs) = bs.
Proof.
  intros H. unfold disk_read, disk_write, splice. rewrite drop_app_length' by (rewrite length_take; lia).
  apply take_app_length'. done.
Qed.

(** What the guest writes to some sectors it reads back from them: whatever it does to
    the mapping in between, a read of the same sectors puts the same bytes into
    the buffer of the read. *)
Theorem write_then_read l1 l2 d t a u idx hd dd sd sector ui d1 d2 t' a' u' idx' hd' dd' sd' ui' :
  request d t a u idx hd dd sd VIRTIO_BLK_T_OUT sector ui -> d_len dd <= l1 ->
  process_queue l1 d = Ret (1, d1) ->
  image d2 = image d1 ->
  request d2 t' a' u' idx' hd' dd' sd' VIRTIO_BLK_T_IN sector ui' -> d_len dd' <= l2 -> d_len dd' = d_len dd ->
  exists d3, process_queue l2 d2 = Ret (1, d3) /\
    ld_bytes (shm d3) (d_addr dd') (Z.to_nat (d_len dd')) = ld_bytes (shm d) (d_addr dd) (Z.to_nat (d_len dd)).
Proof.
  intros R H1 E1 Hi R' H2 Hlen. destruct (write_served l1 _ _ _ _ _ _ _ _ _ _ R H1) as (x & E & F & _).
  rewrite E1 in E. injection E as <-. destruct (read_served l2 _ _ _ _ _ _ _ _ _ _ R' H2) as (d3 & E3 & G & _).
  exists d3. split; [done|]. unfold effect in F, G. change (VIRTIO_BLK_T_OUT =? VIRTIO_BLK_T_IN) with false in F.
  change (VIRTIO_BLK_T_IN =? VIRTIO_BLK_T_IN) with true in G. cbv iota in F, G.
  destruct F as (bs & Hb & Hw), G as [_ Hr]. rewrite Hr, Hb, Hi, Hw, Hlen.
  pose proof (ld_bytes_ret _ _ _ _ Hb) as (_ & _ & Hl). rewrite <- Hl, disk_read_write; [done|].
  destruct (rq_data _ _ _ _ _ _ _ _ _ _ _ R) as (_ & [D0 _] & _), (rq_sector _ _ _ _ _ _ _ _ _ _ _ R) as (S0 & S1 & _). lia.
Qed.

(** *** The registers *)

Lemma ld_total p n d : 0 <= p -> p + Z.of_nat n <= mem_size (shm d) -> exists v, ld p n d = Ret (v, d) /\ ld_le (shm d) p n = Ret v.
Proof.
  intros H0 H1. destruct (ld_bytes_returns (shm d) p n H0 H1) as [bs E]. exists (le_decode bs).
  assert (ld_le (shm d) p n = Ret (le_decode bs)) as L by (unfold ld_le; by rewrite E). split; [by apply ld_run|done].
Qed.

Lemma enable_queue_run d : HDR_config <= mem_size (shm d) ->
  exists d', enable_queue d = Ret (tt, d') /\ shm d' = shm d /\ image d' = image d /\
    (d' = d \/ next_idx d' = 0 /\ ld_le (shm d) (reg VIRTIO_PCI_COMMON_Q_SIZE) 2 = Ret (vr_num d') /\
                is_Some (vr_desc d') /\ is_Some (vr_avail d') /\ is_Some (vr_used d')).
Proof.
  unfold HDR_config. intros H. unfold enable_queue, ld_addr, mbind, M_bind, mret, M_ret.
  assert (Ht : forall r n, 0 <= r -> r + Z.of_nat n <= 56 ->
    exists v, ld (reg r) n d = Ret (v, d) /\ ld_le (shm d) (reg r) n = Ret v)
    by (intros r n Hr Hn; apply ld_total; unfold reg, HDR_common_config; lia).
  destruct (Ht VIRTIO_PCI_COMMON_Q_ENABLE 2%nat) as (e & -> & _); [done|done|]. destruct (e =? 0); [exists d; auto|].
  destruct (Ht VIRTIO_PCI_COMMON_Q_SIZE 2%nat) as (n & -> & Hn); [done|done|].
  destruct (Ht VIRTIO_PCI_COMMON_Q_DESCLO 4%nat) as (? & -> & _); [done|done|].
  destruct (Ht VIRTIO_PCI_COMMON_Q_DESCHI 4%nat) as (? & -> & _); [done|done|].
  destruct (Ht VIRTIO_PCI_COMMON_Q_AVAILLO 4%nat) as (? & -> & _); [done|done|].
  destruct (Ht VIRTIO_PCI_COMMON_Q_AVAILHI 4%nat) as (? & -> & _); [done|done|].
  destruct (Ht VIRTIO_PCI_COMMON_Q_USEDLO 4%nat) as (? & -> & _); [done|done|].
  destruct (Ht VIRTIO_PCI_COMMON_Q_USEDHI 4%nat) as (? & -> & _); [done|done|].
  unfold modify. eexists. split; [reflexivity|]. split; [done|]. split; [done|]. right.
  split; [done|]. split; [exact Hn|]. split_and!; by eexists.
Qed.

(** What a transaction may do: to the registers in the header, or to the queue. *)
Definition touches_header (d d' : blkdev) : Prop :=
  mem_size (shm d') = mem_size (shm d) /\ doorbell (shm d') = doorbell (shm d) /\ image d' = image d /\
  forall q k, HDR_config <= q -> ld_bytes (shm d') q k = ld_bytes (shm d) q k.

Lemma st_header p n v d : 0 <= p -> p + Z.of_nat n <= HDR_config -> HDR_config <= mem_size (shm d) ->
  exists d', st p n v d = Ret (tt, d') /\ touches_header d d' /\ ld_le (shm d') p n = Ret (wrap (8 * Z.of_nat n) v).
Proof.
  intros H0 H1 H2. destruct (st_run p n v d) as (s & W & M1 & E); [done|lia|]. exists (d <| shm := s |>). split; [done|].
  split; [|by apply ld_st_le_same in W]. pose proof (st_le_regs _ _ _ _ _ W) as [_ M3]. split_and!; [done|done|done|].
  intros q k Hq. apply (st_le_disjoint _ _ _ _ _ _ _ W). unfold apart. lia.
Qed.

Lemma touches_trans d1 d2 d3 : touches_header d1 d2 -> touches_header d2 d3 -> touches_header d1 d3.
Proof.
  unfold touches_header. intros (A1 & A2 & A3 & A4) (B1 & B2 & B3 & B4). split_and!; try congruence.
  intros q k Hq. rewrite B4, A4; done.
Qed.

(** A register write of the guest is always carried out and acknowledged, whatever
    offset it names: with no write pending nothing changes; otherwise the transaction word is
    cleared, and besides the registers of the header and the queue's place nothing is
    touched. *)
Theorem block_transaction_acked d :
  HDR_config <= mem_size (shm d) ->
  exists r d', process_write_transaction d = Ret (r, d') /\ touches_header d d' /\
    (ld_le (shm d) HDR_write_offset 2 = Ret 0 -> r = 0 /\ d' = d) /\
    (ld_le (shm d) HDR_write_offset 2 <> Ret 0 -> r = 1 /\ ld_le (shm d') HDR_write_transaction 4 = Ret 0).
Proof.
  intros H. unfold process_write_transaction, mbind at 1, M_bind at 1.
  destruct (ld_total HDR_write_offset 2 d) as (o & -> & Ho); [done|unfold HDR_config, HDR_write_offset in *; lia|]. rewrite Ho.
  assert (Hrefl : touches_header d d) by done.
  destruct (Z.eqb_spec o 0) as [->|Hz]; [exists 0, d; by split_and!|].
  assert (Hsw : forall m : M blkdev unit, (exists d1, m d = Ret (tt, d1) /\ touches_header d d1) ->
    exists d', (_ ← m; _ ← st HDR_write_transaction 4 0; mret 1) d = Ret (1, d') /\ touches_header d d' /\
      ld_le (shm d') HDR_write_transaction 4 = Ret 0).
  { intros m (d1 & E1 & T1). unfold mbind, M_bind. rewrite E1.
    destruct (st_header HDR_write_transaction 4 0 d1) as (d2 & -> & T2 & L); [done|done|by rewrite (proj1 T1)|].
    exists d2. split; [done|]. split; [by eapply touches_trans|]. by rewrite L. }
  edestruct Hsw as (d' & E & T & L); [|exists 1, d'; split; [exact E|]; split_and!; try done; by intros [= ->]].
  apply (switch_ind (fun m : M blkdev unit => exists d1, m d = Ret (tt, d1) /\ touches_header d d1)); [|by exists d].
  repeat constructor; cbn [snd].
  - unfold mbind, M_bind. destruct (ld_total (reg VIRTIO_PCI_COMMON_DFSELECT) 4 d) as (s & -> & _);
      [done|unfold HDR_config, reg, HDR_common_config, VIRTIO_PCI_COMMON_DFSELECT in *; lia|].
    destruct (st_header (reg VIRTIO_PCI_COMMON_DF) 4 (device_features s) d) as (d1 & -> & T & _); [done|done|done|by exists d1].
  - destruct (st_header (reg VIRTIO_PCI_COMMON_Q_SIZE) 2 8 d) as (d1 & -> & T & _); [done|done|done|by exists d1].
  - destruct (enable_queue_run d H) as (d1 & -> & S & I & _). exists d1. split; [done|]. unfold touches_header. by rewrite S.
Qed.

(** ** A sector is written and read back *)

Definition put (l : list (Z * list Z)) : gmap Z Z := fold_right (fun e m => mem_write m e.1 e.2) ∅ l.
Definition desc_bytes (addr len flags next : Z) : list Z :=
  le_encode 8 addr ++ le_encode 4 len ++ le_encode 2 flags ++ le_encode 2 next.
(** The guest's memory: a table of descriptors at 0x200, the rings at 0x400 and 0x500,
    the header of a request at 0x600, its data at 0x700 and its status at 0x780. *)
Definition guest (type : Z) (data : list Z) (avail : Z) : shmem_info :=
  mkShmem 5 0x800 0 1 2
    (put [(0x200, desc_bytes 0x600 16 1 1); (0x210, desc_bytes 0x700 4 1 2); (0x220, desc_bytes 0x780 1 2 0);
          (0x402, le_encode 2 avail); (0x600, le_encode 4 type ++ le_encode 4 0 ++ le_encode 8 1); (0x700, data)]) [].
Definition disk0 : list Z := replicate 2048 7.
Definition w0 : blkdev := mkBlkdev (guest VIRTIO_BLK_T_OUT [1; 2; 3; 4] 1) disk0 8 (Some 0x200) (Some 0x400) (Some 0x500) 0.
Definition w1 : blkdev := match process_queue 4096 w0 with Ret (_, d) => d | Stop _ => w0 end.
Definition w2 : blkdev := w1 <| shm := guest VIRTIO_BLK_T_IN [0; 0; 0; 0] 2 |>.

Definition hd0 : vring_desc := mkDesc 0x600 16 1 1.
Definition dd0 : vring_desc := mkDesc 0x700 4 1 2.
Definition sd0 : vring_desc := mkDesc 0x780 1 2 0.

(** Both sides of a layout condition are numbers. *)
Ltac by_layout :=
  repeat match goal with |- _ /\ _ => split end;
  first [reflexivity | vm_compute; congruence | left; vm_compute; congruence | right; vm_compute; congruence].

Lemma w0_request : request w0 0x200 0x400 0x500 0 hd0 dd0 sd0 VIRTIO_BLK_T_OUT 1 0.
Proof. split; unfold apart; try by_layout. exists 1. by_layout. Qed.

Lemma w1_run : process_queue 4096 w0 = Ret (1, w1).
Proof. vm_compute. reflexivity. Qed.

Lemma w2_image : image w2 = image w1.
Proof. vm_compute. reflexivity. Qed.

Lemma w2_request : request w2 0x200 0x400 0x500 0 hd0 dd0 sd0 VIRTIO_BLK_T_IN 1 0.
Proof. split; unfold apart; try by_layout. exists 2. by_layout. Qed.

Lemma request_served_witness :
  exists d', process_queue 4096 w0 = Ret (1, d') /\ effect VIRTIO_BLK_T_OUT 1 dd0 w0 d'.
Proof.
  destruct (request_served 4096 w0 0x200 0x400 0x500 0 hd0 dd0 sd0 VIRTIO_BLK_T_OUT 1 0 w0_request) as (d' & E & H & _);
    [right; reflexivity|right; vm_compute; congruence|]. exists d'. split; [exact E|]. apply H. vm_compute. congruence.
Defined.

Lemma write_then_read_witness :
  exists d3, process_queue 512 w2 = Ret (1, d3) /\ ld_bytes (shm d3) 0x700 4 = Ret [1; 2; 3; 4].
Proof.
  destruct (write_then_read 4096 512 w0 0x200 0x400 0x500 0 hd0 dd0 sd0 1 0 w1 w2 0x200 0x400 0x500 0 hd0 dd0 sd0 0
    w0_request) as (d3 & E & H); [vm_compute; congruence|exact w1_run|exact w2_image|exact w2_request|vm_compute; congruence|reflexivity|].
  exists d3. split; [exact E|]. etransitivity; [exact H|]. vm_compute. reflexivity.
Defined.

Lemma block_transaction_acked_witness : exists r d', process_write_transaction w0 = Ret (r, d') /\ touches_header w0 d'.
Proof.
  destruct (block_transaction_acked w0) as (r & d' & E & T & _); [vm_compute; congruence|]. by exists r, d'.
Defined.

(** A request of a type the program does not know, with a data descriptor: the
    descriptor after the header has a successor, and the assertion ends the program. *)
Definition odd : blkdev := w0 <| shm := guest 11 [] 1 |>.
Example unknown_type_exits : process_queue 4096 odd = Stop ProcessExit.
Proof. by vm_compute. Qed.
