(* ===== verification/BlockOpen.v ===== *)
(** * Opening a block device

    [blockif_open] of [src/devicemodel/hw/block_if.c] and the number parsing of
    [src/devicemodel/lib/dm_string.c].  A C string is a [string]; a pointer into it is
    what is left of it, NULL is [None].  [errno] is passed along.  What the file is,
    and what the calls on it answer, is a record. *)
From S2P Require Import Prelude BlockIf BlockSpec.
From Stdlib Require Import Ascii String.

#[local] Open Scope string_scope.
#[local] Open Scope Z_scope.

Definition ERANGE := 34.
Definition LONG_MAX := 2 ^ 63 - 1.
Definition LONG_MIN := - 2 ^ 63.

(** ** strtol *)

Definition is_space (c : ascii) : bool :=
  let n := Z.of_nat (nat_of_ascii c) in (n =? 32) || ((9 <=? n) && (n <=? 13)).

Definition digit_value (c : ascii) : option Z :=
  let n := Z.of_nat (nat_of_ascii c) in
  if (48 <=? n) && (n <=? 57) then Some (n - 48)
  else if (65 <=? n) && (n <=? 90) then Some (n - 55)
  else if (97 <=? n) && (n <=? 122) then Some (n - 87)
  else None.

Definition digit (base : Z) (c : ascii) : option Z :=
  match digit_value c with Some v => if v <? base then Some v else None | None => None end.

(** The value of the digits at the front, and what follows them. *)
Fixpoint digits (base acc : Z) (s : string) : Z * string :=
  match s with
  | EmptyString => (acc, s)
  | String c s' => match digit base c with Some v => digits base (acc * base + v) s' | None => (acc, s) end
  end.

Fixpoint skip_space (s : string) : string :=
  match s with String c s' => if is_space c then skip_space s' else s | EmptyString => s end.

Definition sign (s : string) : bool * string :=
  match s with
  | String c s' => if Ascii.eqb c "-" then (true, s') else if Ascii.eqb c "+" then (false, s') else (false, s)
  | EmptyString => (false, s)
  end.

Definition starts_with_digit (base : Z) (s : string) : bool :=
  match s with String c _ => bool_decide (is_Some (digit base c)) | EmptyString => false end.

(** A prefix 0x that a hexadecimal digit follows, or 0, in the bases that have it. *)
Definition prefix_base (base : Z) (s : string) : Z * string :=
  match s with
  | String c0 (String c1 s') =>
    if Ascii.eqb c0 "0" && (Ascii.eqb c1 "x" || Ascii.eqb c1 "X") && ((base =? 0) || (base =? 16)) &&
       starts_with_digit 16 s' then (16, s')
    else (if base =? 0 then if Ascii.eqb c0 "0" then 8 else 10 else base, s)
  | String c0 EmptyString => (if base =? 0 then if Ascii.eqb c0 "0" then 8 else 10 else base, s)
  | EmptyString => (base, s)
  end.

(** The number before it is cut to a width, and the end; [None] when there is none. *)
Definition number (base : Z) (s : string) : option (Z * string) :=
  let '(neg, s) := sign (skip_space s) in
  let '(base, s) := prefix_base base s in
  if starts_with_digit base s then
    let '(v, rest) := digits base 0 s in Some (if neg then - v else v, rest)
  else None.

(** The value, the end and [errno]. *)
Definition strtol (errno base : Z) (s : string) : Z * string * Z :=
  match number base s with
  | None => (0, s, errno)
  | Some (v, rest) =>
    if LONG_MAX <? v then (LONG_MAX, rest, ERANGE)
    else if v <? LONG_MIN then (LONG_MIN, rest, ERANGE)
    else (v, rest, errno)
  end.

Definition strtoul (errno base : Z) (s : string) : Z * string * Z :=
  match number base s with
  | None => (0, s, errno)
  | Some (v, rest) =>
    if 2 ^ 64 - 1 <? Z.abs v then (2 ^ 64 - 1, rest, ERANGE) else (u64 v, rest, errno)
  end.

(** ** dm_string.c

    The result, what is stored in [val] if anything is, and [*end] and [errno]. *)
Record parsed := mkParsed { p_ret : Z; p_val : option Z; p_end : option string; p_errno : Z }.

Section Parse.
Context (strto : Z -> Z -> string -> Z * string * Z).

(** [dm_strtol] and [dm_strtoul], with a pointer for the end. *)
Definition dm_strto (errno : Z) (s : option string) (base : Z) : parsed :=
  match s with
  | None => mkParsed (-1) None None errno
  | Some s =>
    let '(val, rest, errno) := strto errno base s in
    if String.eqb rest s || (errno =? ERANGE) then mkParsed (-1) (Some val) (Some rest) errno
    else mkParsed 0 (Some val) (Some rest) errno
  end.
End Parse.

Definition dm_strtol (errno : Z) (s : option string) (base : Z) : parsed := dm_strto strtol errno s base.
Definition dm_strtoul (errno : Z) (s : option string) (base : Z) : parsed := dm_strto strtoul errno s base.

(** The narrow ones keep the low half, and store only what was read. *)
Definition narrow (cut : Z -> Z) (p : parsed) : parsed :=
  if p_ret p =? 0 then mkParsed 0 (option_map cut (p_val p)) (p_end p) (p_errno p)
  else mkParsed (p_ret p) None (p_end p) (p_errno p).
Definition dm_strtoi (errno : Z) (s : option string) (base : Z) : parsed := narrow s32 (dm_strtol errno s base).
Definition dm_strtoui (errno : Z) (s : option string) (base : Z) : parsed := narrow u32 (dm_strtoul errno s base).

(** ** Options *)

(** The locals of [blockif_open] that the options set. *)
Record options := mkOptions {
  writeback : bool; ro : bool; candiscard : bool; ssopt : Z; pssopt : Z;
  max_discard_sectors : Z; max_discard_seg : Z; discard_sector_alignment : Z;
  sub_file_assign : bool; sub_file_start_lba : Z; sub_file_size : Z
}.
#[export] Instance options_eta : Settable options := fun o =>
  mkOptions (writeback o) (ro o) (candiscard o) (ssopt o) (pssopt o) (max_discard_sectors o) (max_discard_seg o)
    (discard_sector_alignment o) (sub_file_assign o) (sub_file_start_lba o) (sub_file_size o).
Definition no_options : options := mkOptions false false false 0 0 (-1) (-1) (-1) false 0 0.

(** [strsep]: the token, and the rest when the delimiter was found. *)
Fixpoint strsep (delim : ascii) (s : string) : string * option string :=
  match s with
  | EmptyString => (EmptyString, None)
  | String c s' => if Ascii.eqb c delim then (EmptyString, Some s')
                   else let '(tok, rest) := strsep delim s' in (String c tok, rest)
  end.

(** [*cp == c] and then a number: [&&] of the two, as the code chains them. *)
Definition after (c : ascii) (p : option string) : option (option string) :=
  match p with Some (String c' s) => if Ascii.eqb c' c then Some (Some s) else None | _ => None end.

(** A number read by [f], or [None] when that failed. *)
Definition num (p : parsed) : option (Z * option string) :=
  if p_ret p =? 0 then match p_val p with Some v => Some (v, p_end p) | None => None end else None.

Definition discard_option (errno : Z) (cp : option string) (o : options) : option options :=
  match cp with
  | None => Some (o <| candiscard := true |>)
  | Some _ =>
    '(v1, cp) ← num (dm_strtoi errno cp 10); cp ← after ":" cp;
    '(v2, cp) ← num (dm_strtoi errno cp 10); cp ← after ":" cp;
    '(v3, _) ← num (dm_strtoi errno cp 10);
    Some (o <| max_discard_sectors := v1 |> <| max_discard_seg := v2 |> <| discard_sector_alignment := v3 |>
            <| candiscard := true |>)
  end.

Definition sectorsize_option (errno : Z) (cp : option string) (o : options) : option options :=
  '(v, cp) ← num (dm_strtoi errno cp 10);
  let o := o <| ssopt := v |> <| pssopt := v |> in
  match after "/" cp with
  | None => Some o
  | Some cp => '(v, _) ← num (dm_strtoi errno cp 10); Some (o <| pssopt := v |>)
  end.

Definition range_option (errno : Z) (cp : option string) (o : options) : option options :=
  '(v1, cp) ← num (dm_strtol errno cp 10); cp ← after "/" cp;
  '(v2, _) ← num (dm_strtol errno cp 10);
  Some (o <| sub_file_start_lba := v1 |> <| sub_file_size := v2 |> <| sub_file_assign := true |>).

(** One option; [None] for an error. *)
Definition parse_option (errno : Z) (cp : string) (o : options) : option options :=
  if String.eqb cp "writeback" then Some (o <| writeback := true |>)
  else if String.eqb cp "writethru" then Some (o <| writeback := false |>)
  else if String.eqb cp "ro" then Some (o <| ro := true |>)
  else if String.prefix "discard" cp then discard_option errno (snd (strsep "=" cp)) o
  else if String.prefix "sectorsize" cp then sectorsize_option errno (snd (strsep "=" cp)) o
  else if String.prefix "range" cp then range_option errno (snd (strsep "=" cp)) o
  else None.

(** The loop over the options, with a round for each character and one more. *)
Fixpoint parse_options (fuel : nat) (errno : Z) (xopts : option string) (o : options) : outcome (option options) :=
  match xopts with
  | None => Ret (Some o)
  | Some s =>
    match fuel with
    | O => Stop OutOfFuel
    | S fuel =>
      let '(cp, rest) := strsep "," s in
      match parse_option errno cp o with
      | None => Ret None
      | Some o => parse_options fuel errno rest o
      end
    end
  end.

(** The path, and the options or [None]. *)
Definition parse_optstr (errno : Z) (optstr : string) : outcome (string * option options) :=
  let '(nopt, rest) := strsep "," optstr in
  o ← parse_options (S (String.length optstr)) errno rest no_options; Ret (nopt, o).

(** ** Opening *)

Inductive file_kind := S_ISBLK | S_ISCHR | S_OTHER.

(** The file behind the path: what [open] gives with and without write access, negative
    for a failure; [fstat]; the answers of the requests to a block device, [None] for a
    failure; the descriptor lock; memory. *)
Record host_file := mkHost {
  open_rw : Z; open_ro : Z; fstat_ok : bool; kind : file_kind; st_size : Z; st_blksize : Z;
  blkgetsize : option Z; blkgetsize64 : option Z; blkpbszget : option Z; blkdiscard_ok : bool;
  setlk_ok : bool; calloc_ok : bool
}.

Definition powerof2 (x : Z) : bool := Z.land (x - 1) x =? 0.

(** The size of a block device in bytes.  When only the second request fails the
    size is computed from a variable that nothing has set. *)
Definition block_size (f : host_file) : outcome Z :=
  match blkgetsize f with
  | None => Ret (st_size f)
  | Some sz =>
    match blkgetsize64 f with
    | None => Stop Uninit
    | Some b => if (b =? 0) || (b =? sz) then Ret (s64 (b * DEV_BSIZE)) else Ret b
    end
  end.

(** Size, physical sector size and whether discarding works; [None] for an error. *)
Definition probe (f : host_file) (candiscard : bool) : outcome (option (Z * Z * bool)) :=
  match kind f with
  | S_ISBLK =>
    size ← block_size f;
    Ret (Some (size, default DEV_BSIZE (blkpbszget f), candiscard && blkdiscard_ok f))
  | _ =>
    if (st_size f <? DEV_BSIZE) || negb (Z.land (st_size f) (DEV_BSIZE - 1) =? 0) then Ret None
    else Ret (Some (st_size f, st_blksize f, candiscard))
  end.

(** Logical and physical sector size. *)
Definition sector_sizes (f : host_file) (o : options) (psectsz : Z) : option (Z * Z) :=
  if negb (ssopt o =? 0) then
    if negb (powerof2 (ssopt o)) || negb (powerof2 (pssopt o)) || (ssopt o <? 512) || (pssopt o <? ssopt o) then None
    else match kind f with
         | S_ISCHR => if (ssopt o <? DEV_BSIZE) || negb (Z.rem (ssopt o) DEV_BSIZE =? 0) then None
                      else Some (ssopt o, pssopt o)
         | _ => Some (ssopt o, pssopt o)
         end
  else Some (DEV_BSIZE, psectsz).

(** The end of [blockif_open]: the context is filled in.  The threads are started by
    [blk_init]. *)
Definition fill_ctxt (f : host_file) (o : options) (ro candiscard : bool) (size sectsz psectsz : Z)
  : outcome blockif_ctxt :=
  let start := if sub_file_assign o then s64 (sub_file_start_lba o * sectsz) else 0 in
  let size := if sub_file_assign o then s64 (sub_file_size o * sectsz) else size in
  if sub_file_assign o && negb (setlk_ok f) then Stop ProcessExit
  else
    let dflt x v := if candiscard then if negb (x =? -1) then x else v else 0 in
    Ret (init_queues (mkCtxt (match kind f with S_ISBLK => true | _ => false end) candiscard ro size
           (sub_file_assign o) start sectsz (s32 psectsz) 0
           (dflt (max_discard_sectors o) (s32 (Z.quot size DEV_BSIZE))) (dflt (max_discard_seg o) 1)
           (dflt (discard_sector_alignment o) 0) false [] [] [] [] (b2z (writeback o)))).

(** [None] for NULL. *)
Definition blockif_open (errno : Z) (f : host_file) (optstr : string) : outcome (option blockif_ctxt) :=
  '(nopt, o) ← parse_optstr errno optstr;
  match o with
  | None => Ret None
  | Some o =>
    let fd := if ro o then open_ro f else open_rw f in
    let '(fd, ro) := if (fd <? 0) && negb (ro o) then (open_ro f, true) else (fd, ro o) in
    if fd <? 0 then Ret None
    else if negb (fstat_ok f) then Ret None
    else
      p ← probe f (candiscard o);
      match p with
      | None => Ret None
      | Some (size, psectsz, candiscard) =>
        match sector_sizes f o psectsz with
        | None => Ret None
        | Some (sectsz, psectsz) =>
          if negb (calloc_ok f) then Ret None
          else bc ← fill_ctxt f o ro candiscard size sectsz psectsz; Ret (Some bc)
        end
      end
  end.

(** ** Accessors *)

Definition blockif_size := bc_size.
Definition blockif_sectsz := bc_sectsz.
Definition blockif_psectsz (bc : blockif_ctxt) : Z * Z := (bc_psectsz bc, bc_psectoff bc).
Definition blockif_queuesz : nat := (BLOCKIF_MAXREQ - 1)%nat.
Definition blockif_is_ro := bc_rdonly.
Definition blockif_candiscard := bc_candiscard.
Definition blockif_max_discard_sectors := bc_max_discard_sectors.
Definition blockif_max_discard_seg := bc_max_discard_seg.
Definition blockif_discard_sector_alignment := bc_discard_sector_alignment.
Definition blockif_get_wce := bc_wce.
Definition blockif_set_wce (bc : blockif_ctxt) (wce : Z) : blockif_ctxt := bc <| bc_wce := wce |>.
(** The [errno] of [fsync]. *)
Definition blockif_flush_all (io : io_answer) : Z * list sys := (io_fsync io, [SysFsync]).

(** ** Lemmas *)

Lemma powerof2_spec x : 0 < x -> powerof2 x = true -> exists k, 0 <= k /\ x = 2 ^ k.
Proof.
  intros Hx H. apply Z.eqb_eq in H. exists (Z.log2 x). split; [apply Z.log2_nonneg|].
  destruct (Z.log2_spec x Hx) as [Hlo Hhi]. apply Z.le_lteq in Hlo as [Hlo|]; [exfalso|done].
  assert (Z.testbit (Z.land (x - 1) x) (Z.log2 x) = true); [|by rewrite H, Z.bits_0 in *].
  rewrite Z.land_spec, Z.bit_log2 by done. rewrite andb_true_r.
  assert (Z.log2 (x - 1) = Z.log2 x) as <-.
  { apply Z.log2_unique; [apply Z.log2_nonneg|]. split; lia. }
  apply Z.bit_log2. pose proof (Z.pow_pos_nonneg 2 (Z.log2 x) ltac:(lia) (Z.log2_nonneg x)). lia.
Qed.

Lemma strsep_length delim s tok rest : strsep delim s = (tok, Some rest) -> (String.length rest < String.length s)%nat.
Proof.
  revert tok. induction s as [|c s IH]; intros tok; cbn [strsep]; [done|].
  destruct (Ascii.eqb c delim); [intros [= <- <-]; cbn; lia|].
  destruct (strsep delim s) as [t r] eqn:E. intros [= <- ->]. cbn. specialize (IH t eq_refl). lia.
Qed.

Lemma parse_options_returns fuel : forall errno xopts o,
  (match xopts with Some s => String.length s < fuel | None => True end)%nat ->
  exists r, parse_options fuel errno xopts o = Ret r.
Proof.
  induction fuel as [|fuel IH]; intros errno [s|] o Hl; cbn [parse_options]; try (by eexists); [lia|].
  destruct (strsep "," s) as [cp rest] eqn:E. destruct (parse_option errno cp o) as [o'|]; [|by eexists].
  apply IH. destruct rest as [s'|]; [|done]. apply strsep_length in E. lia.
Qed.

Lemma parse_optstr_returns errno s : exists nopt o, parse_optstr errno s = Ret (nopt, o).
Proof.
  unfold parse_optstr. destruct (strsep "," s) as [nopt rest] eqn:E.
  destruct (parse_options_returns (S (String.length s)) errno rest no_options) as [o ->]; [|by exists nopt, o].
  destruct rest as [s'|]; [|done]. apply strsep_length in E. lia.
Qed.

(** ** What has been opened *)

(** A context the threads can be started with: sectors of 512 bytes or a power of two
    above, a whole number of them for a file that is not split, no limits
    for discarding when it is off, and the queues as the threads expect them. *)
Record opened (f : host_file) (bc : blockif_ctxt) : Prop := {
  op_sectsz : exists k, 9 <= k /\ bc_sectsz bc = 2 ^ k;
  op_size : kind f <> S_ISBLK -> bc_sub_file_assign bc = false -> 512 <= bc_size bc /\ bc_size bc mod 512 = 0;
  op_whole : bc_sub_file_assign bc = false -> bc_sub_file_start_lba bc = 0;
  op_discard : bc_candiscard bc = false ->
    bc_max_discard_sectors bc = 0 /\ bc_max_discard_seg bc = 0 /\ bc_discard_sector_alignment bc = 0;
  op_rw : bc_rdonly bc = false -> 0 <= open_rw f;
  op_queues : init_queues bc = bc
}.

Lemma sector_sizes_ok f o ps s p : sector_sizes f o ps = Some (s, p) -> exists k, 9 <= k /\ s = 2 ^ k.
Proof.
  unfold sector_sizes. destruct (ssopt o =? 0); cbn [negb]; [intros [= <- <-]; by exists 9|].
  destruct (powerof2 (ssopt o)) eqn:Hp; cbn [negb orb]; [|done].
  destruct (powerof2 (pssopt o)); cbn [negb orb]; [|done].
  destruct (Z.ltb_spec (ssopt o) 512) as [|Hs]; cbn [orb]; [done|]. destruct (pssopt o <? ssopt o); cbn [orb]; [done|].
  intros H. assert (s = ssopt o) as -> by (repeat case_match; congruence).
  apply powerof2_spec in Hp as (k & Hk & E); [|lia]. exists k. split; [|done]. rewrite E in Hs.
  destruct (Z.le_gt_cases 9 k) as [|Hlt]; [done|]. assert (2 ^ k <= 2 ^ 8) by (apply Z.pow_le_mono_r; lia).
  change (2 ^ 8) with 256 in *. lia.
Qed.

Lemma probe_ok f c size ps c' : probe f c = Ret (Some (size, ps, c')) ->
  kind f <> S_ISBLK -> 512 <= size /\ size mod 512 = 0.
Proof.
  unfold probe, DEV_BSIZE. intros H Hk. destruct (kind f); [done|..];
    (destruct (Z.ltb_spec (st_size f) 512); [done|]; destruct (Z.eqb_spec (Z.land (st_size f) (512 - 1)) 0) as [E|]; [|done];
     injection H as <- _ _; split; [done|]; change (512 - 1) with (Z.ones 9) in E; by rewrite Z.land_ones in E).
Qed.

Lemma probe_fuel f c : probe f c <> Stop OutOfFuel.
Proof. unfold probe, block_size. intros H. repeat (case_match; simplify_eq; try done). Qed.

Lemma init_queues_eq bc : init_queues bc =
  mkCtxt (bc_isblk bc) (bc_candiscard bc) (bc_rdonly bc) (bc_size bc) (bc_sub_file_assign bc) (bc_sub_file_start_lba bc)
    (bc_sectsz bc) (bc_psectsz bc) (bc_psectoff bc) (bc_max_discard_sectors bc) (bc_max_discard_seg bc)
    (bc_discard_sector_alignment bc) false (reverse (seq 0 BLOCKIF_MAXREQ)) [] [] (replicate BLOCKIF_MAXREQ fresh_elem) (bc_wce bc).
Proof. by destruct bc. Qed.

Lemma fill_ctxt_ok f o ro c size s ps bc :
  fill_ctxt f o ro c size s ps = Ret bc ->
  bc_sectsz bc = s /\ bc_rdonly bc = ro /\ init_queues bc = bc /\
  (bc_sub_file_assign bc = false -> bc_size bc = size /\ bc_sub_file_start_lba bc = 0) /\
  (bc_candiscard bc = false ->
    bc_max_discard_sectors bc = 0 /\ bc_max_discard_seg bc = 0 /\ bc_discard_sector_alignment bc = 0).
Proof.
  unfold fill_ctxt. destruct (sub_file_assign o && negb (setlk_ok f)); [done|]. intros [= <-].
  rewrite !init_queues_eq. generalize (reverse (seq 0 BLOCKIF_MAXREQ)) (replicate BLOCKIF_MAXREQ fresh_elem). intros fq rq. cbn.
  split_and!; try done.
  - by destruct (sub_file_assign o).
  - by destruct c.
Qed.

Lemma open_opened errno f s bc : blockif_open errno f s = Ret (Some bc) -> opened f bc.
Proof.
  unfold blockif_open. destruct (parse_optstr errno s) as [[nopt [o|]]|]; cbn [mbind outcome_bind]; [|done..].
  set (q := if ((if ro o then open_ro f else open_rw f) <? 0) && negb (ro o) then _ else _).
  assert (Hq : snd q = false -> fst q = open_rw f).
  { unfold q. destruct (ro o); [by rewrite andb_false_r|]. rewrite andb_true_r. by destruct (open_rw f <? 0). }
  destruct q as [fd r]. destruct (Z.ltb_spec fd 0) as [|Hfd]; [done|]. destruct (fstat_ok f); cbn [negb]; [|done].
  destruct (probe f (candiscard o)) as [[[[size ps] c]|]|] eqn:Ep; cbn [mbind outcome_bind]; [|done..].
  destruct (sector_sizes f o ps) as [[ss ps']|] eqn:Es; [|done]. destruct (calloc_ok f); cbn [negb]; [|done].
  destruct (fill_ctxt f o r c size ss ps') as [bc'|] eqn:Ef; cbn [mbind outcome_bind]; [|done]. intros [= ->].
  apply sector_sizes_ok in Es. apply fill_ctxt_ok in Ef as (F1 & F2 & F3 & F4 & F5). split; try done.
  - by rewrite F1.
  - intros Hk Hs. destruct (F4 Hs) as [-> _]. by apply (probe_ok _ _ _ _ _ Ep).
  - intros Hs. by apply F4.
  - rewrite F2. intros Hr. cbn in Hq. by rewrite <- (Hq Hr).
Qed.

(** C27. [blockif_open] ends for every option string, and what it gives is fit for
    use: the sector size is a power of two of at least 512, so the geometry can be
    computed; a whole file is a positive number of sectors; without discarding there are no limits
    for it; and the queues are such that the threads, once started, are in a state
    from which no request is lost. *)
Theorem blockif_open_valid errno f s :
  blockif_open errno f s <> Stop OutOfFuel /\
  forall bc, blockif_open errno f s = Ret (Some bc) ->
    opened f bc /\ (exists chs, blockif_chs bc = Ret chs) /\
    forall rs, blk_inv (mkBlk bc rs (replicate BLOCKIF_NUMTHR Awake)).
Proof.
  split.
  - unfold blockif_open. destruct (parse_optstr_returns errno s) as (nopt & o & ->). cbn [mbind outcome_bind].
    destruct o as [o|]; [|done]. destruct (if _ && _ then _ else _) as [fd r].
    destruct (fd <? 0); [done|]. destruct (fstat_ok f); cbn [negb]; [|done].
    destruct (probe f (candiscard o)) as [[[[size ps] c]|]|e] eqn:Ep; cbn [mbind outcome_bind];
      [|done|intros [= ->]; by apply probe_fuel in Ep].
    destruct (sector_sizes f o ps) as [[ss ps']|]; [|done]. destruct (calloc_ok f); cbn [negb]; [|done].
    unfold fill_ctxt. by destruct (sub_file_assign o && _).
  - intros bc H. apply open_opened in H as O. split; [done|]. split.
    + destruct (op_sectsz _ _ O) as (k & Hk & E). unfold blockif_chs. rewrite (proj2 (Z.eqb_neq (bc_sectsz bc) 0)).
      { repeat case_match; by eexists. }
      rewrite E. pose proof (Z.pow_pos_nonneg 2 k). lia.
    + intros rs. pose proof (blk_init_inv bc rs) as I. unfold blk_init in I. by rewrite (op_queues _ _ O) in I.
Qed.

(** ** Numbers *)

Definition decimal (ds : list nat) : string := string_of_list_ascii (map (fun d => ascii_of_nat (48 + d)) ds).
Definition value (ds : list nat) : Z := fold_left (fun acc d => acc * 10 + Z.of_nat d) ds 0.
Definition signed (neg : bool) (s : string) : string := if neg then String "-" s else s.
Definition decimal_ok (ds : list nat) : Prop := ds <> [] /\ Forall (fun d => (d < 10)%nat) ds.

(** A digit, case by case. *)
Ltac each_digit d := do 10 (destruct d as [|d]; [try reflexivity|]); exfalso; lia.

Lemma digit_ascii d : (d < 10)%nat -> digit 10 (ascii_of_nat (48 + d)) = Some (Z.of_nat d).
Proof. intros H. each_digit d. Qed.
Lemma digit_no_space d : (d < 10)%nat -> is_space (ascii_of_nat (48 + d)) = false.
Proof. intros H. each_digit d. Qed.
Lemma digit_no_sign d s : (d < 10)%nat -> sign (String (ascii_of_nat (48 + d)) s) = (false, String (ascii_of_nat (48 + d)) s).
Proof. intros H. each_digit d. Qed.

Lemma digits_decimal ds rest : forall acc,
  Forall (fun d => (d < 10)%nat) ds -> starts_with_digit 10 rest = false ->
  digits 10 acc (decimal ds ++ rest)%string = (fold_left (fun acc d => acc * 10 + Z.of_nat d) ds acc, rest).
Proof.
  induction ds as [|d ds IH]; intros acc Hd Hr.
  - change (decimal [] ++ rest)%string with rest. destruct rest as [|c rest]; [done|]. cbn in Hr |- *. apply bool_decide_eq_false in Hr.
    destruct (digit 10 c); [by destruct Hr; eexists|done].
  - inversion_clear Hd. change (decimal (d :: ds) ++ rest)%string with (String (ascii_of_nat (48 + d)) (decimal ds ++ rest)).
    cbn [digits fold_left]. rewrite digit_ascii by done. by apply IH.
Qed.

Lemma prefix_base_10 s : s <> EmptyString -> prefix_base 10 s = (10, s).
Proof. destruct s as [|c0 [|c1 s]]; intros H; [done|done|]. cbn. by rewrite andb_false_r. Qed.

Lemma number_decimal neg ds rest :
  decimal_ok ds -> starts_with_digit 10 rest = false ->
  number 10 (signed neg (decimal ds ++ rest)) = Some (if neg then - value ds else value ds, rest).
Proof.
  intros [Hne Hd] Hr. destruct ds as [|d ds]; [done|]. inversion_clear Hd as [|? ? Hd0 Hds].
  assert (E : sign (skip_space (signed neg (decimal (d :: ds) ++ rest))) = (neg, (decimal (d :: ds) ++ rest)%string)).
  { change (decimal (d :: ds) ++ rest)%string with (String (ascii_of_nat (48 + d)) (decimal ds ++ rest)).
    destruct neg; cbn [signed].
    - reflexivity.
    - cbn [skip_space]. rewrite digit_no_space by done. by apply digit_no_sign. }
  unfold number. rewrite E, prefix_base_10 by done.
  replace (starts_with_digit 10 (decimal (d :: ds) ++ rest)) with true.
  2:{ symmetry. apply bool_decide_eq_true. change (is_Some (digit 10 (ascii_of_nat (48 + d)))). rewrite digit_ascii by done.
      by eexists. }
  rewrite digits_decimal by (done || by constructor). reflexivity.
Qed.

Lemma string_length_app s t : String.length (s ++ t)%string = (String.length s + String.length t)%nat.
Proof. induction s as [|c s IH]; [done|]. change (String c s ++ t)%string with (String c (s ++ t)). cbn. by rewrite IH. Qed.

Lemma app_longer s rest : s <> EmptyString -> String.eqb rest (s ++ rest) = false.
Proof.
  intros Hs. apply String.eqb_neq. intros E. assert (String.length rest = String.length (s ++ rest)) by (by rewrite <- E).
  rewrite string_length_app in *. destruct s; [done|]. cbn in *. lia.
Qed.

(** A decimal number is read as such, up to the first character that is not a
    digit, as long as it fits and nothing has left [ERANGE] in [errno]: [dm_strtol] does
    not clear it, so an old overflow fails every later number.  One that does
    not fit fails.  [dm_strtoi] cuts what fits a [long] to 32 bits without a word. *)
Theorem dm_strtol_decimal errno neg ds rest :
  decimal_ok ds -> starts_with_digit 10 rest = false ->
  let s := signed neg (decimal ds ++ rest) in
  let v := if neg then - value ds else value ds in
  (LONG_MIN <= v <= LONG_MAX -> errno <> ERANGE ->
     dm_strtol errno (Some s) 10 = mkParsed 0 (Some v) (Some rest) errno /\
     dm_strtoi errno (Some s) 10 = mkParsed 0 (Some (s32 v)) (Some rest) errno) /\
  (v < LONG_MIN \/ LONG_MAX < v \/ errno = ERANGE ->
     p_ret (dm_strtol errno (Some s) 10) = -1 /\ p_errno (dm_strtol errno (Some s) 10) = ERANGE /\
     p_val (dm_strtoi errno (Some s) 10) = None).
Proof.
  intros Hds Hr s v. pose proof (number_decimal neg ds rest Hds Hr) as Hn. fold s v in Hn.
  assert (Hlong : String.eqb rest s = false).
  { unfold s. destruct neg; cbn [signed].
    - apply (app_longer (String "-" (decimal ds))). done.
    - apply app_longer. destruct Hds as [Hne _]. by destruct ds. }
  unfold dm_strtoi, dm_strtol, dm_strto, strtol. rewrite Hn. split.
  - intros [Hlo Hhi] He. rewrite (proj2 (Z.ltb_ge LONG_MAX v)), (proj2 (Z.ltb_ge v LONG_MIN)) by done. cbv beta iota.
    rewrite Hlong, (proj2 (Z.eqb_neq errno ERANGE)) by done. done.
  - intros Hbad. destruct (Z.ltb_spec LONG_MAX v); [by rewrite Hlong|]. destruct (Z.ltb_spec v LONG_MIN); [by rewrite Hlong|].
    destruct Hbad as [ | [ | -> ]]; [lia|lia|]. by rewrite Hlong.
Qed.

(** ** A disk of 1 MiB with its own sector size *)

Definition file : host_file := mkHost 3 3 true S_OTHER (2 ^ 20) 4096 None None None true true true.
Definition file_opts : string := "/dev/disk,writeback,sectorsize=512/4096,discard=128:4:1".

Example file_opens :
  exists bc, blockif_open 0 file file_opts = Ret (Some bc) /\ blockif_size bc = 2 ^ 20 /\ blockif_psectsz bc = (4096, 0) /\
    blockif_max_discard_seg bc = 4 /\ blockif_get_wce bc = 1.
Proof. eexists. split; [vm_compute; reflexivity|]. by vm_compute. Qed.

Example unknown_option : blockif_open 0 file "/dev/disk,rw" = Ret None.
Proof. by vm_compute. Qed.

(** A 64-bit size that cannot be had is used all the same. *)
Example size_uninit :
  blockif_open 0 (mkHost 3 3 true S_ISBLK 0 4096 (Some 2048) None None true true true) "/dev/sda" = Stop Uninit.
Proof. by vm_compute. Qed.

Definition file_ctxt : blockif_ctxt :=
  match blockif_open 0 file file_opts with Ret (Some bc) => bc | _ => init_queues disk end.
Lemma file_ctxt_opens : blockif_open 0 file file_opts = Ret (Some file_ctxt).
Proof. vm_compute. reflexivity. Qed.

Lemma blockif_open_valid_witness : opened file file_ctxt.
Proof. apply (proj2 (blockif_open_valid 0 file file_opts) file_ctxt). exact file_ctxt_opens. Defined.

Lemma dm_strtol_decimal_witness : dm_strtol 0 (Some "-512/4096") 10 = mkParsed 0 (Some (-512)) (Some "/4096") 0.
Proof.
  apply (dm_strtol_decimal 0 true [5; 1; 2]%nat "/4096"); try (vm_compute; congruence).
  - split; [done|]. repeat constructor.
  - split; vm_compute; congruence.
Defined.
