(* ===== verification/Vhost.v ===== *)
(** * Vhost

    [src/devicemodel/hw/pci/virtio/vhost.c]: a virtio device whose rings are served by
    the kernel.  Everything the code asks of the host (descriptors, the requests of
    the vhost device, the event descriptors of the virtual machine) is a
    call that is entered in a log with its answer; what the kernel makes of the
    calls is a function of the log. *)
From S2P Require Import Prelude Shmem VirtQueue VirtioCore.

(** ** Calls *)

(** [struct vhost_memory_region] *)
Record vhost_memory_region := mkMemRegion { guest_phys_addr : Z; memory_size : Z; userspace_addr : Z }.

(** The calls that leave the program, with what they are given: [eventfd], [close],
    [read] of an event descriptor; [virtio_register_ioeventfd], [vm_irqfd] (its descriptor, message
    and deassign flag) and [vm_ioeventfd] (of a zeroed argument); the requests of [ioctl]
    on the vhost device. *)
Inductive call :=
  | Eventfd
  | Close (fd : Z)
  | ReadEvent (fd : Z)
  | RegisterIoeventfd (idx : Z) (is_register : bool) (fd : Z)
  | Irqfd (fd : Z) (msi : Z * Z) (deassign : bool)
  | Ioeventfd (deassign : bool)
  | SetOwner
  | ResetOwner
  | GetFeatures
  | SetFeatures (features : Z)
  | SetMemTable (regions : list vhost_memory_region)
  | SetVringNum (index num : Z)
  | SetVringBase (index num : Z)
  | GetVringBase (index : Z)
  | SetVringAddr (index : Z) (desc avail used : option Z)
  | SetVringKick (index fd : Z)
  | SetVringCall (index fd : Z)
  | SetBusyloop (index num : Z).

(** The latest call first. *)
Definition calls := list (call * Z).

(** ** Data *)

Record vhost_vq := mkVhostVq { kick_fd : Z; call_fd : Z; vidx : Z }.
#[export] Instance vhost_vq_eta : Settable vhost_vq := fun v => mkVhostVq (kick_fd v) (call_fd v) (vidx v).

(** [has_base]: [base] points to the device of the state below and not to NULL. *)
Record vhost_dev := mkVhost {
  has_base : bool; vqs : option (list vhost_vq); nvqs : Z; vfd : Z; vq_idx : Z;
  vhost_features : Z; vhost_ext_features : Z; busyloop_timeout : Z; started : bool
}.
#[export] Instance vhost_dev_eta : Settable vhost_dev := fun v =>
  mkVhost (has_base v) (vqs v) (nvqs v) (vfd v) (vq_idx v) (vhost_features v) (vhost_ext_features v)
    (busyloop_timeout v) (started v).

(** The fields of [struct vmctx] in use. *)
Record vmctx := mkVmctx { lowmem : Z; highmem : Z; highmem_gpa_base : Z; baseaddr : Z }.

(** The device, the virtio device it is for ([has_queues] and [ops_nvq]: its pointers
    [queues] and [vops], the latter with the number of queues), the table of [msix] as pairs of address
    and data, the machine, the memory of the rings, and the log. *)
Record host := mkHost {
  vdev : vhost_dev; base : virtio_base; has_queues : bool; ops_nvq : option Z;
  msix_table : list (Z * Z); ctx : vmctx; ram : shmem_info; log : calls
}.
#[export] Instance host_eta : Settable host := fun h =>
  mkHost (vdev h) (base h) (has_queues h) (ops_nvq h) (msix_table h) (ctx h) (ram h) (log h).

Section Vhost.
(** What a call answers, after the calls so far; what the requests that give something give. *)
Context (answer : calls -> call -> outcome Z) (features_of : calls -> Z) (base_of : calls -> Z -> Z).

Definition sys (c : call) : M host Z := fun h =>
  match answer (log h) c with Ret rc => Ret (rc, h <| log ::= cons (c, rc) |>) | Stop e => Stop e end.

(** A call, and where to go on when it failed and when not. *)
Definition attempt {A} (c : call) (fail next : M host A) : M host A :=
  rc ← sys c; if rc <? 0 then fail else next.

Definition upd_vdev (f : vhost_dev -> vhost_dev) : M host unit := modify (fun h => h <| vdev ::= f |>).

Definition vq_at (idx : Z) : M host vhost_vq :=
  h ← get;
  match vqs (vdev h) with
  | None => halt NullDeref
  | Some l => match nthZ l idx with Some vq => mret vq | None => halt OobAccess end
  end.
Definition upd_vq (idx : Z) (f : vhost_vq -> vhost_vq) : M host unit :=
  vq ← vq_at idx; upd_vdev (fun v => v <| vqs ::= option_map (fun l => setZ l idx (f vq)) |>).

Definition queue_at (q : Z) : M host virtio_vq_info :=
  h ← get; match nthZ (queues (base h)) q with Some v => mret v | None => halt OobAccess end.
Definition upd_queue (q : Z) (f : virtio_vq_info -> virtio_vq_info) : M host unit :=
  v ← queue_at q; modify (fun h => h <| base ::= fun b => b <| queues ::= fun l => setZ l q (f v) |> |>).

(** [for (i = 0; i < nvqs; i++)], left at the first [i] for which [f] gives a negative
    number. *)
Fixpoint for_vqs (n : nat) (i : Z) (f : Z -> M host Z) : M host (option Z) :=
  match n with
  | O => mret None
  | S n => rc ← f i; if rc <? 0 then mret (Some i) else for_vqs n (i + 1) f
  end.

(** ** The vhost device *)

Definition vhost_kernel_init (fd vqidx timeout : Z) : M host unit :=
  upd_vdev (fun v => v <| has_base := true |> <| vfd := fd |> <| vq_idx := vqidx |> <| busyloop_timeout := timeout |>).

Definition vhost_kernel_deinit : M host unit :=
  _ ← upd_vdev (fun v => v <| has_base := false |> <| vq_idx := 0 |> <| busyloop_timeout := 0 |>);
  h ← get;
  if 0 <? vfd (vdev h) then _ ← sys (Close (vfd (vdev h))); upd_vdev (fun v => v <| vfd := -1 |>) else mret tt.

Definition vhost_kernel_get_features : M host (Z * Z) :=
  h ← get; rc ← sys GetFeatures; mret (rc, features_of (log h)).

Definition vhost_kernel_get_vring_base (idx : Z) : M host (Z * Z) :=
  h ← get; rc ← sys (GetVringBase idx); mret (rc, base_of (log h) idx).

Definition vhost_eventfd_test_and_clear (fd : Z) : M host Z :=
  rc ← sys (ReadEvent fd); mret (if 0 <? rc then 1 else 0).

(** ** Queues *)

Definition vhost_vq_register_eventfd (idx : Z) (is_register : bool) : M host Z :=
  h ← get;
  vqi ← queue_at (s32 (vq_idx (vdev h) + idx));
  vq ← vq_at idx;
  _ ← sys (RegisterIoeventfd idx is_register (kick_fd vq));
  match nthZ (msix_table h) (msix_idx vqi) with
  | None => halt OobAccess
  | Some msi =>
    attempt (Irqfd (call_fd vq) msi (negb is_register))
      (_ ← (if is_register then sys (Ioeventfd true) else mret 0); mret (-1))
      (mret 0)
  end.

Definition vhost_vq_init (idx : Z) : M host Z :=
  h ← get;
  match vqs (vdev h) with
  | None => mret (-1)
  | Some _ =>
    let fail_kick := _ ← upd_vq idx (fun v => v <| kick_fd := -1 |> <| call_fd := -1 |>); mret (-1) in
    fd ← sys Eventfd;
    _ ← upd_vq idx (fun v => v <| kick_fd := fd |>);
    if fd <? 0 then fail_kick
    else
      cfd ← sys Eventfd;
      _ ← upd_vq idx (fun v => v <| call_fd := cfd |>);
      if cfd <? 0 then _ ← sys (Close fd); fail_kick
      else _ ← upd_vq idx (fun v => v <| vidx := idx |>); mret 0
  end.

(** [vq] is NULL only when the array is and [idx] is 0. *)
Definition vhost_vq_deinit (idx : Z) : M host Z :=
  h ← get;
  if negb (bool_decide (is_Some (vqs (vdev h)))) && (idx =? 0) then mret (-1)
  else
  vq ← vq_at idx;
  _ ← (if 0 <? call_fd vq then _ ← sys (Close (call_fd vq)); upd_vq idx (fun v => v <| call_fd := -1 |>) else mret tt);
  _ ← (if 0 <? kick_fd vq then _ ← sys (Close (kick_fd vq)); upd_vq idx (fun v => v <| kick_fd := -1 |>) else mret tt);
  mret 0.

(** [!vdev->base || !vdev->base->queues || !vdev->base->vops] *)
Definition no_base (h : host) : bool :=
  negb (has_base (vdev h)) || negb (has_queues h) || negb (bool_decide (is_Some (ops_nvq h))).
Definition no_vqs (h : host) : bool := negb (bool_decide (is_Some (vqs (vdev h)))).
Definition nvq_of (h : host) : Z := default 0 (ops_nvq h).

Definition vhost_vq_start (idx : Z) : M host Z :=
  h ← get;
  if no_base h || no_vqs h then mret (-1)
  else
    let q_idx := s32 (idx + vq_idx (vdev h)) in
    if nvq_of h <=? q_idx then mret (-1)
    else
      vqi ← queue_at q_idx; vq ← vq_at idx;
      _ ← vhost_eventfd_test_and_clear (kick_fd vq);
      _ ← vhost_eventfd_test_and_clear (call_fd vq);
      rc ← vhost_vq_register_eventfd idx true;
      if rc <? 0 then mret (-1)
      else
        let fail_vring := _ ← vhost_vq_register_eventfd idx false; mret (-1) in
        let fail_vring_kick := _ ← sys (SetVringCall idx (-1)); fail_vring in
        attempt (SetVringNum idx (qsize vqi)) fail_vring (
        attempt (SetVringBase idx (last_avail vqi)) fail_vring (
        attempt (SetVringAddr idx (desc vqi) (avail vqi) (used vqi)) fail_vring (
        attempt (SetVringCall idx (call_fd vq)) fail_vring (
        attempt (SetVringKick idx (kick_fd vq)) fail_vring_kick (
        mret 0))))).

Definition vhost_vq_stop (idx : Z) : M host Z :=
  h ← get;
  if no_base h || no_vqs h then mret (-1)
  else
    let q_idx := s32 (idx + vq_idx (vdev h)) in
    if nvq_of h <=? q_idx then mret (-1)
    else
      _ ← queue_at q_idx;
      _ ← sys (SetVringKick idx (-1));
      _ ← sys (SetVringCall idx (-1));
      '(rc, num) ← vhost_kernel_get_vring_base idx;
      _ ← (if rc <? 0 then mret tt else upd_queue q_idx (fun v => v <| last_avail := u16 num |>));
      vqi ← queue_at q_idx;
      uidx ← lift (used_idx (ram h) vqi);
      _ ← upd_queue q_idx (fun v => v <| save_used := uidx |>);
      vhost_vq_register_eventfd idx false.

Definition mem_regions (c : vmctx) : list vhost_memory_region :=
  (if 0 <? lowmem c then [mkMemRegion 0 (lowmem c) (baseaddr c)] else []) ++
  (if 0 <? highmem c then
     [mkMemRegion (highmem_gpa_base c) (highmem c) (u64 (baseaddr c + highmem_gpa_base c))] else []).

(** [calloc_ok]: there is memory for the table. *)
Definition vhost_set_mem_table (calloc_ok : bool) : M host Z :=
  h ← get;
  if negb calloc_ok then mret (-1)
  else attempt (SetMemTable (mem_regions (ctx h))) (mret (-1)) (mret 0).

(** ** The interface *)

Definition vhost_dev_deinit : M host Z :=
  h ← get;
  if no_base h then mret (-1)
  else
    _ ← for_vqs (Z.to_nat (nvqs (vdev h))) 0 (fun i => _ ← vhost_vq_deinit i; mret 0);
    _ ← vhost_kernel_deinit;
    mret 0.

(** [base]: the pointer to the virtio device is not NULL. *)
Definition vhost_dev_init (base_ok : bool) (fd vqidx features ext_features timeout : Z) : M host Z :=
  let fail := _ ← vhost_dev_deinit; mret (-1) in
  h ← get;
  if negb base_ok || negb (has_queues h) || negb (bool_decide (is_Some (ops_nvq h))) then fail
  else if no_vqs h || (nvqs (vdev h) =? 0) then fail
  else if nvq_of h <? s32 (vqidx + nvqs (vdev h)) then fail
  else
    _ ← vhost_kernel_init fd vqidx timeout;
    '(rc, kernel) ← vhost_kernel_get_features;
    if rc <? 0 then fail
    else
      failed ← for_vqs (Z.to_nat (nvqs (vdev h))) 0 vhost_vq_init;
      match failed with
      | Some _ => fail
      | None =>
        _ ← upd_vdev (fun v => v <| vhost_ext_features := Z.land ext_features kernel |>
                                 <| vhost_features := Z.land features kernel |>);
        _ ← modify (fun h => h <| base ::= fun b =>
              b <| device_caps ::= fun c => clear_bits 64 c (Z.lxor features kernel) |> |>);
        _ ← upd_vdev (fun v => v <| started := false |>);
        mret 0
      end.

(** [while (--i >= 0)] *)
Fixpoint stop_down (i : nat) : M host unit :=
  match i with O => mret tt | S i => _ ← vhost_vq_stop (Z.of_nat i); stop_down i end.

Definition vhost_dev_start (calloc_ok : bool) : M host Z :=
  h ← get;
  let v := vdev h in
  let n := Z.to_nat (nvqs v) in
  if started v then mret 0
  else if no_base h then mret (-1)
  else if negb (has (status (base h)) VIRTIO_CONFIG_S_DRIVER_OK) then mret (-1)
  else if negb (pci_msix_enabled (dev (base h))) then mret (-1)
  else
    attempt SetOwner (mret (-1)) (
    attempt (SetFeatures (Z.lor (Z.land (negotiated_caps (base h)) (vhost_features v)) (vhost_ext_features v)))
      (mret (-1)) (
    rc ← vhost_set_mem_table calloc_ok;
    if rc <? 0 then mret (-1)
    else
      failed ← (if busyloop_timeout v =? 0 then mret None
                else for_vqs n 0 (fun i => sys (SetBusyloop i (busyloop_timeout v))));
      match failed with
      | Some _ => mret (-1)
      | None =>
        failed ← for_vqs n 0 vhost_vq_start;
        match failed with
        | Some i => _ ← stop_down (Z.to_nat i); mret (-1)
        | None => _ ← upd_vdev (fun v => v <| started := true |>); mret 0
        end
      end)).

Definition vhost_dev_stop : M host Z :=
  h ← get;
  _ ← for_vqs (Z.to_nat (nvqs (vdev h))) 0 (fun i => _ ← vhost_vq_stop i; mret 0);
  rc ← sys ResetOwner;
  let rc := if rc <? 0 then -1 else rc in
  _ ← upd_vdev (fun v => v <| started := false |>);
  mret rc.
End Vhost.

(** ** What the kernel makes of the calls

    An attribute of the kernel is what the latest accepted call that sets it has set. *)

Fixpoint latest {A} (sel : call -> option A) (d : A) (l : calls) : A :=
  match l with
  | [] => d
  | (c, rc) :: l => if rc <? 0 then latest sel d l else default (latest sel d l) (sel c)
  end.

(** The request to give the device up resets its queues. *)
Definition ring_num (i : Z) := latest (fun c =>
  match c with SetVringNum j n => if j =? i then Some n else None | ResetOwner => Some 0 | _ => None end) 0.
Definition ring_base (i : Z) := latest (fun c =>
  match c with SetVringBase j n => if j =? i then Some n else None | ResetOwner => Some 0 | _ => None end) 0.
Definition ring_addr (i : Z) := latest (fun c =>
  match c with SetVringAddr j d a u => if j =? i then Some (d, a, u) else None
             | ResetOwner => Some (None, None, None) | _ => None end) (None, None, None).
Definition ring_call (i : Z) := latest (fun c =>
  match c with SetVringCall j fd => if j =? i then Some fd else None | ResetOwner => Some (-1) | _ => None end) (-1).
Definition ring_kick (i : Z) := latest (fun c =>
  match c with SetVringKick j fd => if j =? i then Some fd else None | ResetOwner => Some (-1) | _ => None end) (-1).
Definition irqfd_of (fd : Z) := latest (fun c =>
  match c with Irqfd f msi off => if f =? fd then Some (if off then None else Some msi) else None | _ => None end) None.
Definition owned := latest (fun c =>
  match c with SetOwner => Some true | ResetOwner => Some false | _ => None end) false.
Definition features_set := latest (fun c => match c with SetFeatures f => Some f | _ => None end) 0.
Definition mem_set := latest (fun c => match c with SetMemTable m => Some m | _ => None end) [].

(** The vring of a queue as the kernel has it. *)
Record vring := mkVring {
  v_num : Z; v_base : Z; v_addr : option Z * option Z * option Z; v_call : Z; v_kick : Z
}.
Definition vring_of (i : Z) (l : calls) : vring :=
  mkVring (ring_num i l) (ring_base i l) (ring_addr i l) (ring_call i l) (ring_kick i l).

(** What the queues of the device ask for. *)
Definition wanted (q : virtio_vq_info) (vq : vhost_vq) : vring :=
  mkVring (qsize q) (last_avail q) (desc q, avail q, used q) (call_fd vq) (kick_fd vq).

(** The kernel does not serve queue [i], and interrupts of the descriptor [fd] go nowhere. *)
Definition unserved (i fd : Z) (l : calls) : Prop :=
  ring_call i l = -1 /\ ring_kick i l = -1 /\ irqfd_of fd l = None.

(** The calls that take something back. *)
Definition withdraws (c : call) : bool :=
  match c with Irqfd _ _ off => off | SetVringKick _ fd | SetVringCall _ fd => fd =? -1 | _ => false end.

Definition vq_of (h : host) (i : Z) : option vhost_vq :=
  match vqs (vdev h) with Some l => nthZ l i | None => None end.
Definition q_of (h : host) (i : Z) : option virtio_vq_info := nthZ (queues (base h)) (vq_idx (vdev h) + i).

(** A device that can be started: it is linked to its virtio device, its queues are
    among that one's, each with a vector in the table and rings in the
    mapping, and no two share an event descriptor. *)
Record ready (h : host) : Prop := {
  rd_base : no_base h = false;
  rd_vqs : no_vqs h = false;
  rd_range : 0 <= vq_idx (vdev h) /\ 0 <= nvqs (vdev h) /\ vq_idx (vdev h) + nvqs (vdev h) <= nvq_of h < 2 ^ 31;
  rd_vq : forall i, 0 <= i < nvqs (vdev h) -> is_Some (vq_of h i);
  rd_q : forall i, 0 <= i < nvqs (vdev h) -> exists q msi u,
    q_of h i = Some q /\ nthZ (msix_table h) (msix_idx q) = Some msi /\ used_idx (ram h) q = Ret u;
  rd_distinct : forall i j vi vj, vq_of h i = Some vi -> vq_of h j = Some vj -> call_fd vi = call_fd vj -> i = j
}.

(** What serving queue [j] with descriptor [fd] leaves alone. *)
Definition apart (j fd : Z) (l l' : calls) : Prop :=
  (forall i, i <> j -> vring_of i l' = vring_of i l) /\ (forall f, f <> fd -> irqfd_of f l' = irqfd_of f l) /\
  owned l' = owned l /\ features_set l' = features_set l /\ mem_set l' = mem_set l.

Lemma apart_refl j fd l : apart j fd l l.
Proof. done. Qed.

Lemma apart_trans j fd l1 l2 l3 : apart j fd l1 l2 -> apart j fd l2 l3 -> apart j fd l1 l3.
Proof.
  intros (A1 & A2 & A3 & A4 & A5) (B1 & B2 & B3 & B4 & B5). split_and!; try congruence.
  - intros i Hi. by rewrite B1, A1.
  - intros f Hf. by rewrite B2, A2.
Qed.

Lemma ready_index h i : ready h -> 0 <= i < nvqs (vdev h) ->
  s32 (i + vq_idx (vdev h)) = vq_idx (vdev h) + i /\ s32 (vq_idx (vdev h) + i) = vq_idx (vdev h) + i /\
  (nvq_of h <=? vq_idx (vdev h) + i) = false.
Proof.
  intros R Hi. destruct (rd_range _ R) as (H1 & H2 & H3). rewrite Z.leb_gt.
  assert (s32 (vq_idx (vdev h) + i) = vq_idx (vdev h) + i) by wrap_lia. rewrite Z.add_comm. split_and!; [done..|lia].
Qed.

Lemma if_same {A} (b : bool) (x : A) : (if b then x else x) = x.
Proof. by destruct b. Qed.

(** An attribute of a log that is written out: whether each call was accepted is
    among the hypotheses, or does not matter. *)
Ltac kernel :=
  unfold vring_of, ring_num, ring_base, ring_addr, ring_call, ring_kick, irqfd_of, owned, features_set, mem_set;
  unfold field_upd; cbn [log latest default negb];
  repeat match goal with
  | H : ?rc < 0 |- context [?rc <? 0] => rewrite (proj2 (Z.ltb_lt rc 0) H)
  | H : 0 <= ?rc |- context [?rc <? 0] => rewrite (proj2 (Z.ltb_ge rc 0) H)
  | H : ?i <> ?j |- context [?j =? ?i] => rewrite (proj2 (Z.eqb_neq j i) (not_eq_sym H))
  | |- context [?x =? ?x] => rewrite Z.eqb_refl
  | |- context [if ?b then ?x else ?x] => rewrite (if_same b x)
  end; cbn [latest default negb]; rewrite ?if_same.

(** ** The log only grows *)

Definition grows {A} (m : M host A) : Prop := forall h a h', m h = Ret (a, h') -> log h `suffix_of` log h'.

Lemma grows_bind {A B} (m : M host A) (f : A -> M host B) : grows m -> (forall a, grows (f a)) -> grows (mbind f m).
Proof.
  intros Hm Hf h b h'. unfold mbind, M_bind. destruct (m h) as [[a h1]|] eqn:E; [|done]. intros H.
  etransitivity; [by apply (Hm _ _ _ E)|by apply (Hf _ _ _ _ H)].
Qed.
Lemma grows_keep {A} (m : M host A) : (forall h a h', m h = Ret (a, h') -> log h' = log h) -> grows m.
Proof. intros H h a h' E. rewrite (H _ _ _ E). reflexivity. Qed.
Lemma grows_ret {A} (a : A) : grows (mret a).
Proof. apply grows_keep. by intros h a' h' [= _ <-]. Qed.
Lemma grows_get : grows get.
Proof. apply grows_keep. by intros h a' h' [= _ <-]. Qed.
Lemma grows_halt {A} e : grows (@halt host A e).
Proof. by intros h a h' H. Qed.
Lemma grows_lift {A} (o : outcome A) : grows (lift o).
Proof. apply grows_keep. intros h a' h'. unfold lift. destruct o; [|done]. by intros [= _ <-]. Qed.
Lemma grows_modify f : (forall h, log (f h) = log h) -> grows (modify f).
Proof. intros H. apply grows_keep. intros h a' h' [= _ <-]. apply H. Qed.
Lemma grows_sys answer c : grows (sys answer c).
Proof. intros h a h'. unfold sys. destruct (answer _ _); [|done]. intros [= _ <-]. by apply suffix_cons_r. Qed.
Lemma runs_grows {A} (m : M host A) h Q :
  grows m -> runs m h Q -> runs m h (fun a h' => Q a h' /\ log h `suffix_of` log h').
Proof. unfold runs. intros Hg. destruct (m h) as [[a h']|] eqn:E; [|done]. intros HQ. split; [done|by apply (Hg _ _ _ E)]. Qed.
Create HintDb grows.
#[export] Hint Resolve grows_ret grows_get grows_halt grows_lift grows_sys : grows.

(** A program whose calls all grow. *)
Ltac grow :=
  repeat first
    [ solve [eauto with grows] | apply grows_modify; done | apply grows_bind; [|intros]
    | match goal with |- grows (match ?x with _ => _ end) => destruct x | |- grows (if ?b then _ else _) => destruct b end ].

Lemma grows_vq_at i : grows (vq_at i).
Proof. unfold vq_at. grow. Qed.
Lemma grows_queue_at i : grows (queue_at i).
Proof. unfold queue_at. grow. Qed.
#[export] Hint Resolve grows_vq_at grows_queue_at : grows.
Lemma grows_for_vqs n f : forall i, (forall j, grows (f j)) -> grows (for_vqs n i f).
Proof. induction n; intros i Hf; cbn [for_vqs]; grow. Qed.
Lemma grows_register answer j reg : grows (vhost_vq_register_eventfd answer j reg).
Proof. unfold vhost_vq_register_eventfd, attempt. grow. Qed.
#[export] Hint Resolve grows_for_vqs grows_register : grows.
Lemma grows_vq_start answer j : grows (vhost_vq_start answer j).
Proof. unfold vhost_vq_start, vhost_eventfd_test_and_clear, attempt. grow. Qed.
Lemma grows_vq_stop answer base_of j : grows (vhost_vq_stop answer base_of j).
Proof. unfold vhost_vq_stop, vhost_kernel_get_vring_base, upd_queue. grow. Qed.
#[export] Hint Resolve grows_vq_start grows_vq_stop : grows.
Lemma grows_stop_down answer base_of k : grows (stop_down answer base_of k).
Proof. induction k; cbn [stop_down]; grow. Qed.
#[export] Hint Resolve grows_stop_down : grows.
Lemma grows_dev_start answer base_of ok : grows (vhost_dev_start answer base_of ok).
Proof. unfold vhost_dev_start, vhost_set_mem_table, upd_vdev, attempt. grow. Qed.

Section Start.
Context (answer : calls -> call -> outcome Z) (features_of : calls -> Z) (base_of : calls -> Z -> Z).
(** Every call of this program comes back. *)
Context (total : forall l c, exists rc, answer l c = Ret rc).

Lemma runs_sys c h Q :
  (forall rc, answer (log h) c = Ret rc -> Q rc (h <| log ::= cons (c, rc) |>)) -> runs (sys answer c) h Q.
Proof. intros H. unfold runs, sys. destruct (total (log h) c) as [rc E]. rewrite E. auto. Qed.

Lemma runs_attempt {A} c (fail next : M host A) h Q :
  (forall rc, answer (log h) c = Ret rc -> rc < 0 -> runs fail (h <| log ::= cons (c, rc) |>) Q) ->
  (forall rc, answer (log h) c = Ret rc -> 0 <= rc -> runs next (h <| log ::= cons (c, rc) |>) Q) ->
  runs (attempt answer c fail next) h Q.
Proof.
  intros Hf Hn. unfold attempt. apply runs_bind, runs_sys. intros rc E. destruct (Z.ltb_spec rc 0); auto.
Qed.

Lemma runs_vq_at h i vq Q : vq_of h i = Some vq -> Q vq h -> runs (vq_at i) h Q.
Proof.
  unfold vq_of. intros H HQ. unfold vq_at. apply runs_bind, runs_get. destruct (vqs (vdev h)); [|done]. by rewrite H.
Qed.

Lemma runs_queue_at h q v Q : nthZ (queues (base h)) q = Some v -> Q v h -> runs (queue_at q) h Q.
Proof. intros H HQ. unfold queue_at. apply runs_bind, runs_get. by rewrite H. Qed.

Lemma runs_for_vqs (I F : Z -> host -> Prop) n : forall i f h,
  (forall j h, i <= j < i + Z.of_nat n -> I j h ->
     runs (f j) h (fun rc h' => if rc <? 0 then F j h' else I (j + 1) h')) ->
  I i h ->
  runs (for_vqs n i f) h (fun r h' =>
    match r with None => I (i + Z.of_nat n) h' | Some j => i <= j < i + Z.of_nat n /\ F j h' end).
Proof.
  induction n as [|n IH]; intros i f h Hf HI; cbn [for_vqs].
  - apply runs_ret. by rewrite Z.add_0_r.
  - apply runs_bind. eapply runs_weaken; [apply Hf; [lia|done]|]. intros rc h' Hrc. cbv beta in Hrc.
    destruct (rc <? 0); [apply runs_ret; split; [lia|done]|].
    eapply runs_weaken; [apply IH; [intros j h0 Hj; apply Hf; lia|done]|].
    intros [j|] h0 Hr; cbv beta in *; [split; [lia|]; by destruct Hr|]. replace (i + Z.of_nat (S n)) with (i + 1 + Z.of_nat n) by lia. done.
Qed.

(** Nothing is refused that takes something back. *)
Definition polite : Prop := forall l c rc, withdraws c = true -> answer l c = Ret rc -> 0 <= rc.

Lemma register_runs h j vq reg : ready h -> 0 <= j < nvqs (vdev h) -> vq_of h j = Some vq ->
  runs (vhost_vq_register_eventfd answer j reg) h (fun rc h' => exists l, h' = h <| log := l |> /\
    (forall i, vring_of i l = vring_of i (log h)) /\ apart j (call_fd vq) (log h) l /\
    ((rc = 0 /\ exists msi, irqfd_of (call_fd vq) l = if reg then Some msi else None) \/
     (rc = -1 /\ irqfd_of (call_fd vq) l = irqfd_of (call_fd vq) (log h) /\ (polite -> reg = true)))).
Proof.
  intros R Hj Hvq. unfold vhost_vq_register_eventfd. apply runs_bind, runs_get, runs_bind.
  destruct (rd_q _ R j Hj) as (q & msi & u & Hq & Hm & _). destruct (ready_index _ _ R Hj) as (_ & -> & _).
  apply runs_queue_at with (v := q); [done|]. apply runs_bind, (runs_vq_at _ _ vq); [done|].
  apply runs_bind, runs_sys. intros rc0 _. rewrite Hm.
  apply runs_attempt; intros rc E Hrc.
  - apply runs_bind. destruct reg.
    + apply runs_sys. intros rc1 _. apply runs_ret. eexists. split; [reflexivity|].
      split; [intros i; by kernel|]. split; [split_and!; intros; by kernel|]. right. split; [done|]. by kernel.
    + apply runs_ret, runs_ret. eexists. split; [reflexivity|].
      split; [intros i; by kernel|]. split; [split_and!; intros; by kernel|]. right. split; [done|].
      split; [by kernel|]. intros P. specialize (P _ (Irqfd (call_fd vq) msi true) _ eq_refl E). lia.
  - apply runs_ret. eexists. split; [reflexivity|].
    split; [intros i; by kernel|]. split; [split_and!; intros; by kernel|]. left. split; [done|]. exists msi. kernel. by destruct reg.
Qed.

Lemma ready_log h l : ready h -> ready (h <| log := l |>).
Proof. intros [? ? ? ? ? ?]. by split. Qed.

Lemma unserved_log i fd l l' : (forall j, vring_of j l' = vring_of j l) -> irqfd_of fd l' = irqfd_of fd l ->
  unserved i fd l -> unserved i fd l'.
Proof. intros E Ei (H1 & H2 & H3). pose proof (E i) as [= _ _ _ E1 E2]. unfold unserved. by rewrite E1, E2, Ei. Qed.

(** Starting a queue gives the kernel what the queue wants, or leaves it unserved. *)
Lemma vq_start_runs h j vq q : ready h -> 0 <= j < nvqs (vdev h) -> vq_of h j = Some vq -> q_of h j = Some q ->
  runs (vhost_vq_start answer j) h (fun rc h' => exists l, h' = h <| log := l |> /\
    apart j (call_fd vq) (log h) l /\
    ((rc = 0 /\ vring_of j l = wanted q vq /\ is_Some (irqfd_of (call_fd vq) l)) \/
     (rc = -1 /\ (polite -> unserved j (call_fd vq) (log h) -> unserved j (call_fd vq) l)))).
Proof.
  intros R Hj Hvq Hq. unfold vhost_vq_start. apply runs_bind, runs_get. rewrite (rd_base _ R), (rd_vqs _ R). cbn [orb].
  destruct (ready_index _ _ R Hj) as (-> & _ & ->). apply runs_bind, runs_queue_at with (v := q); [done|].
  apply runs_bind, (runs_vq_at _ _ vq); [done|].
  apply runs_bind. unfold vhost_eventfd_test_and_clear at 1. apply runs_bind, runs_sys. intros r1 _. apply runs_ret.
  apply runs_bind. unfold vhost_eventfd_test_and_clear at 1. apply runs_bind, runs_sys. intros r2 _. apply runs_ret.
  set (h0 := h <| log ::= _ |> <| log ::= _ |>). assert (A0 : apart j (call_fd vq) (log h) (log h0)) by (split_and!; intros; unfold h0; by kernel).
  assert (U0 : unserved j (call_fd vq) (log h) -> unserved j (call_fd vq) (log h0)) by (apply unserved_log; intros; unfold h0; by kernel).
  apply runs_bind. eapply runs_weaken; [apply (register_runs h0 j vq true); [by apply (ready_log h)|done|done]|].
  intros rc h1 (l1 & -> & V1 & A1 & H1). assert (A01 : apart j (call_fd vq) (log h) l1) by (by eapply apart_trans).
  destruct H1 as [[-> (msi & H1)]|(-> & H1 & _)].
  2:{ apply runs_ret. exists l1. split; [done|]. split; [done|]. right. split; [done|]. intros _ U.
      apply (unserved_log _ _ (log h0)); [done|done|auto]. }
  change (0 <? 0) with false. cbv iota.
  assert (Fail : forall l, apart j (call_fd vq) l1 l ->
    (polite -> ring_call j l1 = -1 -> ring_kick j l1 = -1 -> ring_call j l = -1 /\ ring_kick j l = -1) ->
    runs (_ ← vhost_vq_register_eventfd answer j false; mret (-1)) (h <| log := l |>)
      (fun rc h' => exists l, h' = h <| log := l |> /\ apart j (call_fd vq) (log h) l /\
        ((rc = 0 /\ vring_of j l = wanted q vq /\ is_Some (irqfd_of (call_fd vq) l)) \/
         (rc = -1 /\ (polite -> unserved j (call_fd vq) (log h) -> unserved j (call_fd vq) l))))).
  { intros l A Hl. apply runs_bind. eapply runs_weaken; [apply (register_runs _ j vq false); [by apply ready_log|done|done]|].
    intros rc h2 (l2 & -> & V2 & A2 & H2). apply runs_ret. exists l2. split; [done|].
    split; [by eapply apart_trans; [|eapply apart_trans]|]. right. split; [done|]. intros P U. apply U0 in U as (U1 & U2 & _).
    pose proof (V1 j) as [= _ _ _ E1 E2]. pose proof (V2 j) as [= _ _ _ E3 E4].
    destruct Hl as [Hc Hk]; [done|by rewrite E1|by rewrite E2|]. cbn [log] in *.
    split_and!; [by rewrite E3|by rewrite E4|]. destruct H2 as [[_ [_ H2]]|(_ & _ & H2)]; [done|discriminate (H2 P)]. }
  apply runs_attempt; intros rn _ Hn.
  { apply (Fail (_ :: l1)); [split_and!; intros; by kernel|]. intros _ E1 E2. split; [rewrite <- E1|rewrite <- E2]; by kernel. }
  apply runs_attempt; intros rb _ Hb.
  { apply (Fail (_ :: _ :: l1)); [split_and!; intros; by kernel|]. intros _ E1 E2. split; [rewrite <- E1|rewrite <- E2]; by kernel. }
  apply runs_attempt; intros ra _ Ha.
  { apply (Fail (_ :: _ :: _ :: l1)); [split_and!; intros; by kernel|]. intros _ E1 E2. split; [rewrite <- E1|rewrite <- E2]; by kernel. }
  apply runs_attempt; intros rc _ Hc.
  { apply (Fail (_ :: _ :: _ :: _ :: l1)); [split_and!; intros; by kernel|]. intros _ E1 E2. split; [rewrite <- E1|rewrite <- E2]; by kernel. }
  apply runs_attempt; intros rk _ Hk.
  - apply runs_bind, runs_sys. intros rw Ew.
    apply (Fail (_ :: _ :: _ :: _ :: _ :: _ :: l1)); [split_and!; intros; by kernel|].
    intros P E1 E2. specialize (P _ (SetVringCall j (-1)) _ eq_refl Ew). split; [|rewrite <- E2]; by kernel.
  - apply runs_ret. eexists. split; [reflexivity|]. split; [eapply apart_trans; [exact A01|]; split_and!; intros; by kernel|].
    left. split; [done|]. unfold wanted. split; [by kernel|]. exists msi. rewrite <- H1. by kernel.
Qed.

(** The device with the indices of queue [j] saved. *)
Definition saved (h : host) (j : Z) (q : virtio_vq_info) (la u : Z) : host :=
  h <| base ::= fun b => b <| queues ::= fun l => setZ l (vq_idx (vdev h) + j) (q <| last_avail := la |> <| save_used := u |>) |> |>.

Lemma q_of_saved h j q la u l i : 0 <= vq_idx (vdev h) + j -> q_of h j = Some q ->
  q_of (saved h j q la u <| log := l |>) i =
  if i =? j then Some (q <| last_avail := la |> <| save_used := u |>) else q_of h i.
Proof.
  intros Hj Hq. unfold q_of. change (nthZ (setZ (queues (base h)) (vq_idx (vdev h) + j) (q <| last_avail := la |> <| save_used := u |>))
    (vq_idx (vdev h) + i) = if i =? j then Some (q <| last_avail := la |> <| save_used := u |>) else nthZ (queues (base h)) (vq_idx (vdev h) + i)).
  destruct (Z.eqb_spec i j) as [->|Hn].
  - by apply (nthZ_setZ_eq _ _ q).
  - apply nthZ_setZ_ne. lia.
Qed.

Lemma ready_saved h j q la u l : ready h -> 0 <= j < nvqs (vdev h) -> q_of h j = Some q ->
  ready (saved h j q la u <| log := l |>).
Proof.
  intros R Hj Hq. destruct (rd_range _ R) as (Hi & _). split; try by apply R.
  intros i Hr. rewrite q_of_saved by (done || lia). destruct (Z.eqb_spec i j) as [->|Hn]; [|by apply (rd_q _ R)].
  destruct (rd_q _ R j Hj) as (q' & msi & u' & Hq' & Hm & Hu). assert (q' = q) as -> by congruence.
  eexists _, msi, u'. split; [reflexivity|]. done.
Qed.

Lemma runs_upd_queue h k v f Q : nthZ (queues (base h)) k = Some v ->
  Q tt (h <| base ::= fun b => b <| queues ::= fun l => setZ l k (f v) |> |>) -> runs (upd_queue k f) h Q.
Proof. intros H HQ. apply runs_bind, runs_queue_at with (v := v); [done|]. by apply runs_modify. Qed.

(** Stopping a queue leaves it unserved and saves the kernel's index, if the
    kernel gives it. *)
Lemma vq_stop_runs h j vq q : ready h -> 0 <= j < nvqs (vdev h) -> vq_of h j = Some vq -> q_of h j = Some q ->
  runs (vhost_vq_stop answer base_of j) h (fun _ h' => exists l l0 rc u,
    answer l0 (GetVringBase j) = Ret rc /\ (GetVringBase j, rc) :: l0 `suffix_of` l /\ used_idx (ram h) q = Ret u /\
    h' = saved h j q (if rc <? 0 then last_avail q else u16 (base_of l0 j)) u <| log := l |> /\
    apart j (call_fd vq) (log h) l /\ (polite -> unserved j (call_fd vq) l)).
Proof.
  intros R Hj Hvq Hq. unfold vhost_vq_stop. apply runs_bind, runs_get. rewrite (rd_base _ R), (rd_vqs _ R). cbn [orb].
  destruct (ready_index _ _ R Hj) as (-> & _ & ->). apply runs_bind, runs_queue_at with (v := q); [done|].
  apply runs_bind, runs_sys. intros rk Ek. apply runs_bind, runs_sys. intros rc Ec.
  apply runs_bind. unfold vhost_kernel_get_vring_base. apply runs_bind, runs_get, runs_bind, runs_sys. intros rb Eb. apply runs_ret.
  set (k := vq_idx (vdev h) + j) in *. set (h1 := h <| log ::= _ |> <| log ::= _ |>) in *.
  destruct (rd_q _ R j Hj) as (q' & msi & u & Hq' & Hm & Hu). assert (q' = q) as -> by congruence.
  set (la := if rb <? 0 then last_avail q else u16 (base_of (log h1) j)).
  assert (Hk : nthZ (queues (base h)) k = Some q) by exact Hq. assert (Hk0 : 0 <= k) by (destruct (rd_range _ R); lia).
  assert (Tail : forall h2 v, ready h2 -> vdev h2 = vdev h -> nthZ (queues (base h2)) k = Some v -> used_idx (ram h) v = Ret u ->
    (forall l, ready (h2 <| base ::= fun b => b <| queues ::= fun qs => setZ qs k (v <| save_used := u |>) |> |> <| log := l |>)) ->
    apart j (call_fd vq) (log h) (log h2) -> (polite -> ring_call j (log h2) = -1 /\ ring_kick j (log h2) = -1) ->
    runs (vqi ← queue_at k; uidx ← lift (used_idx (ram h) vqi); _ ← upd_queue k (fun v => v <| save_used := uidx |>);
          vhost_vq_register_eventfd answer j false) h2 (fun _ h' => exists l,
      h' = h2 <| base ::= fun b => b <| queues ::= fun qs => setZ qs k (v <| save_used := u |>) |> |> <| log := l |> /\
      apart j (call_fd vq) (log h) l /\ (polite -> unserved j (call_fd vq) l) /\ log h2 `suffix_of` l)).
  { intros h2 v R2 Ev Hv Hu2 R3 A2 U2. apply runs_bind, runs_queue_at with (v := v); [done|].
    apply runs_bind, (runs_lift _ u); [done|]. apply runs_bind, (runs_upd_queue _ _ v); [done|].
    set (h3 := h2 <| base ::= _ |>). assert (R3' : ready h3) by (destruct h2; exact (R3 _)).
    eapply runs_weaken; [apply runs_grows; [apply grows_register|apply (register_runs h3 j vq false); [done|unfold h3; cbn; by rewrite Ev|unfold vq_of, h3; cbn; by rewrite Ev]]|].
    intros rr h4 [(l4 & -> & V4 & A4 & H4) Hsuf]. exists l4. split; [done|]. split; [by eapply apart_trans|]. split; [|exact Hsuf].
    intros P. destruct (U2 P) as [Uc Uk]. pose proof (V4 j) as [= _ _ _ Ec4 Ek4].
    split_and!; [by rewrite Ec4|by rewrite Ek4|]. destruct H4 as [[_ [_ H4]]|(_ & _ & H4)]; [done|discriminate (H4 P)]. }
  assert (A2 : forall b, apart j (call_fd vq) (log h) ((GetVringBase j, b) :: log h1)) by (intros b; split_and!; intros; unfold h1; by kernel).
  assert (U2 : forall b, polite -> ring_call j ((GetVringBase j, b) :: log h1) = -1 /\ ring_kick j ((GetVringBase j, b) :: log h1) = -1).
  { intros b P. pose proof (P _ (SetVringKick j (-1)) _ eq_refl Ek). pose proof (P _ (SetVringCall j (-1)) _ eq_refl Ec).
    split; unfold h1; by kernel. }
  apply runs_bind. unfold la. destruct (rb <? 0) eqn:Erb.
  - apply runs_ret. eapply runs_weaken; [apply (Tail (h1 <| log ::= cons (GetVringBase j, rb) |>) q); try done|].
    + by apply (ready_log h).
    + intros l. exact (ready_saved h j q (last_avail q) u l R Hj Hq).
    + apply A2.
    + apply U2.
    + intros _ h' (l & -> & A & U & Hs). exists l, (log h1), rb, u. rewrite Erb. done.
  - apply (runs_upd_queue _ _ q); [done|].
    eapply runs_weaken; [apply (Tail (h1 <| log ::= cons (GetVringBase j, rb) |> <| base ::= fun b => b <| queues ::= fun l => setZ l k (q <| last_avail := u16 (base_of (log h1) j) |>) |> |>)
      (q <| last_avail := u16 (base_of (log h1) j) |>)); try done|].
    + exact (ready_saved h j q (u16 (base_of (log h1) j)) (save_used q) _ R Hj Hq).
    + by apply (nthZ_setZ_eq _ _ q).
    + intros l. pose proof (ready_saved h j q (u16 (base_of (log h1) j)) u l R Hj Hq) as R3.
      unfold saved, field_upd in R3. cbn in R3. unfold field_upd. cbn. by rewrite setZ_setZ.
    + apply A2.
    + apply U2.
    + intros _ h' (l & -> & A & U & Hs). exists l, (log h1), rb, u. rewrite Erb. do 3 (split; [done|]). split; [|done].
      unfold saved, field_upd. cbn. by rewrite setZ_setZ.
Qed.

(** No queue of the device is served. *)
Definition idle (h : host) (l : calls) : Prop :=
  forall i vq, 0 <= i < nvqs (vdev h) -> vq_of h i = Some vq -> unserved i (call_fd vq) l.

(** The kernel has what [h] wants: features, memory, and every queue. *)
Definition served (h : host) (l : calls) : Prop :=
  owned l = true /\
  features_set l = Z.lor (Z.land (negotiated_caps (base h)) (vhost_features (vdev h))) (vhost_ext_features (vdev h)) /\
  mem_set l = mem_regions (ctx h) /\
  forall i q vq, 0 <= i < nvqs (vdev h) -> q_of h i = Some q -> vq_of h i = Some vq ->
    vring_of i l = wanted q vq /\ is_Some (irqfd_of (call_fd vq) l).

Lemma apart_unserved h j vj i vi l l' : ready h -> vq_of h j = Some vj -> vq_of h i = Some vi -> i <> j ->
  apart j (call_fd vj) l l' -> unserved i (call_fd vi) l -> unserved i (call_fd vi) l'.
Proof.
  intros R Hj Hi Hn (A1 & A2 & _) (U1 & U2 & U3). pose proof (A1 i Hn) as [= _ _ _ E1 E2].
  split_and!; [by rewrite E1|by rewrite E2|]. rewrite A2; [done|]. intros E. by apply Hn, (rd_distinct _ R i j vi vj).
Qed.

Lemma stop_down_runs k : forall h, ready h -> (Z.of_nat k <= nvqs (vdev h)) ->
  (polite -> forall i vq, Z.of_nat k <= i < nvqs (vdev h) -> vq_of h i = Some vq -> unserved i (call_fd vq) (log h)) ->
  runs (stop_down answer base_of k) h (fun _ h' => vdev h' = vdev h /\ (polite -> idle h (log h'))).
Proof.
  induction k as [|k IH]; intros h R Hk U; cbn [stop_down].
  - apply runs_ret. split; [done|]. intros P i vq Hi. apply (U P). lia.
  - assert (Hj : 0 <= Z.of_nat k < nvqs (vdev h)) by lia.
    destruct (rd_vq _ R _ Hj) as [vq Hvq]. destruct (rd_q _ R _ Hj) as (q & _ & _ & Hq & _ & _).
    apply runs_bind. eapply runs_weaken; [by apply (vq_stop_runs h _ vq q)|].
    intros _ h' (l & l0 & rc & u & _ & _ & _ & -> & A & Ul). set (la := if rc <? 0 then _ else _).
    eapply runs_weaken; [apply IH; [by apply ready_saved|cbn; lia|]|].
    + intros P i vi Hi Hvi. cbn [log] in *. destruct (Z.eq_dec i (Z.of_nat k)) as [->|Hn].
      * assert (vi = vq) as -> by (unfold vq_of in *; cbn in Hvi; congruence). by apply Ul.
      * apply (apart_unserved h (Z.of_nat k) vq i vi (log h) l); try done. apply (U P); [cbn in Hi; lia|done].
    + intros _ h' [Ev Hi]. split; [by rewrite Ev|]. intros P i vi. by apply (Hi P i vi).
Qed.

Lemma start_loop_runs h : ready h ->
  runs (for_vqs (Z.to_nat (nvqs (vdev h))) 0 (vhost_vq_start answer)) h (fun r h' => exists l, h' = h <| log := l |> /\
    owned l = owned (log h) /\ features_set l = features_set (log h) /\ mem_set l = mem_set (log h) /\
    match r with
    | None => forall i q vq, 0 <= i < nvqs (vdev h) -> q_of h i = Some q -> vq_of h i = Some vq ->
        vring_of i l = wanted q vq /\ is_Some (irqfd_of (call_fd vq) l)
    | Some j => 0 <= j < nvqs (vdev h) /\ (polite -> idle h (log h) -> forall i vq, j <= i < nvqs (vdev h) ->
        vq_of h i = Some vq -> unserved i (call_fd vq) l)
    end).
Proof.
  intros R. set (n := nvqs (vdev h)).
  pose (I := fun j h' => exists l, h' = h <| log := l |> /\
    owned l = owned (log h) /\ features_set l = features_set (log h) /\ mem_set l = mem_set (log h) /\
    (forall i q vq, 0 <= i < j -> i < n -> q_of h i = Some q -> vq_of h i = Some vq ->
       vring_of i l = wanted q vq /\ is_Some (irqfd_of (call_fd vq) l)) /\
    (polite -> idle h (log h) -> forall i vq, j <= i < n -> vq_of h i = Some vq -> unserved i (call_fd vq) l)).
  pose (F := fun j h' => exists l, h' = h <| log := l |> /\
    owned l = owned (log h) /\ features_set l = features_set (log h) /\ mem_set l = mem_set (log h) /\
    (polite -> idle h (log h) -> forall i vq, j <= i < n -> vq_of h i = Some vq -> unserved i (call_fd vq) l)).
  eapply runs_weaken; [apply (runs_for_vqs I F)|].
  - intros j h' Hj (l & -> & E1 & E2 & E3 & Hd & Hu). assert (Hn : 0 <= j < n) by lia.
    destruct (rd_vq _ R _ Hn) as [vq Hvq]. destruct (rd_q _ R _ Hn) as (q & _ & _ & Hq & _ & _).
    eapply runs_weaken; [apply (vq_start_runs _ j vq q); [by apply ready_log|done..]|].
    intros rc h' (l' & -> & A & H'). pose proof A as (A1 & A2 & A3 & A4 & A5). cbn [log] in *.
    destruct H' as [(-> & Hw & Hi)|[-> Hf]]; cbn.
    + exists l'. split; [done|]. do 3 (split; [by etransitivity|]). split.
      * intros i q' vi Hi1 Hi2 Hq' Hvi. destruct (Z.eq_dec i j) as [->|Hne].
        { assert (q' = q) as -> by congruence. assert (vi = vq) as -> by congruence. done. }
        rewrite A1 by done. rewrite A2; [by apply (Hd i q'); [lia|..]|].
        intros E. by apply Hne, (rd_distinct _ R i j vi vq).
      * intros P Hidle i vi Hi1 Hvi. apply (apart_unserved h j vq i vi l l'); try done; [lia|]. apply Hu; try done. lia.
    + exists l'. split; [done|]. do 3 (split; [by etransitivity|]). intros P Hidle i vi Hi1 Hvi.
      destruct (Z.eq_dec i j) as [->|Hne].
      { assert (vi = vq) as -> by congruence. apply Hf; [done|]. apply Hu; try done. }
      apply (apart_unserved h j vq i vi l l'); try done. by apply Hu.
  - exists (log h). split; [by destruct h|]. split_and!; [done..|intros i q vq Hr; lia|by intros _ Hi].
  - intros [j|] h' H; cbv beta in H.
    + destruct H as (Hj & l & -> & E1 & E2 & E3 & Hu). exists l. split_and!; try done; lia.
    + destruct H as (l & -> & E1 & E2 & E3 & Hd & _). exists l. split_and!; try done. intros i q vq Hi. apply Hd; unfold n in *; lia.
Qed.

Lemma dev_start_runs h calloc_ok :
  polite -> ready h -> started (vdev h) = false -> idle h (log h) ->
  runs (vhost_dev_start answer base_of calloc_ok) h (fun rc h' =>
    (rc = 0 /\ started (vdev h') = true /\ served h (log h')) \/
    (rc = -1 /\ started (vdev h') = false /\ idle h (log h'))).
Proof.
  intros P R Hs Hi. assert (Same : forall l, (forall i, vring_of i l = vring_of i (log h)) -> (forall fd, irqfd_of fd l = irqfd_of fd (log h)) -> idle h l).
  { intros l E1 E2 i vq Hr Hvq. apply (unserved_log _ _ (log h)); auto. }
  unfold vhost_dev_start. apply runs_bind, runs_get. rewrite Hs, (rd_base _ R).
  destruct (has (status (base h)) VIRTIO_CONFIG_S_DRIVER_OK); cbn [negb]; [|apply runs_ret; by right].
  destruct (pci_msix_enabled (dev (base h))); cbn [negb]; [|apply runs_ret; by right].
  apply runs_attempt; intros r1 _ H1; [apply runs_ret; right; split_and!; [done..|apply Same; intros; by kernel]|].
  apply runs_attempt; intros r2 _ H2; [apply runs_ret; right; split_and!; [done..|apply Same; intros; by kernel]|].
  apply runs_bind. unfold vhost_set_mem_table. apply runs_bind, runs_get. destruct calloc_ok; cbn [negb].
  2:{ apply runs_ret. change (-1 <? 0) with true. cbv iota. apply runs_ret. right. split_and!; [done..|apply Same; intros; by kernel]. }
  apply runs_attempt; intros r3 _ H3; apply runs_ret.
  { change (-1 <? 0) with true. cbv iota. apply runs_ret. right. split_and!; [done..|apply Same; intros; by kernel]. }
  change (0 <? 0) with false. cbv iota. set (h0 := h <| log ::= _ |> <| log ::= _ |> <| log ::= _ |>).
  pose (B := fun h' => exists l, h' = h <| log := l |> /\ (forall i, vring_of i l = vring_of i (log h0)) /\
    (forall fd, irqfd_of fd l = irqfd_of fd (log h0)) /\
    owned l = true /\ features_set l = features_set (log h0) /\ mem_set l = mem_set (log h0)).
  assert (B0 : B h0) by (exists (log h0); split; [done|]; split_and!; try done; unfold h0; by kernel).
  apply runs_bind. eapply runs_weaken with (P := fun _ => B).
  { destruct (busyloop_timeout (vdev h) =? 0); [by apply runs_ret|].
    eapply runs_weaken; [apply (runs_for_vqs (fun _ => B) (fun _ => B)); [|done]|by intros [j|] h' H; [destruct H|]].
    intros j _ _ (l & -> & E1 & E2 & E3 & E4 & E5). apply runs_sys. intros rc _.
    assert (B (h <| log := l |> <| log ::= cons (SetBusyloop j (busyloop_timeout (vdev h)), rc) |>)); [|by destruct (rc <? 0)].
    eexists. split; [reflexivity|]. split_and!; [intros i; rewrite <- E1|intros fd; rewrite <- E2|rewrite <- E3|rewrite <- E4|rewrite <- E5]; by kernel. }
  intros failed _ (l & -> & E1 & E2 & E3 & E4 & E5).
  assert (Il : idle h l) by (apply Same; intros; rewrite ?E1, ?E2; unfold h0; by kernel).
  destruct failed as [j|]; [by apply runs_ret; right|].
  (* the queues *)
  pose proof (start_loop_runs (h <| log := l |>) (ready_log _ _ R)) as Hl.
  apply runs_bind. eapply runs_weaken; [exact Hl|].
  intros [j|] _ (l' & -> & F1 & F2 & F3 & Hf); cbn [log] in *; change (h <| log := l |> <| log := l' |>) with (h <| log := l' |>).
  - destruct Hf as [Hj Hf]. assert (Hj' : 0 <= j < nvqs (vdev h)) by exact Hj. apply runs_bind.
    eapply runs_weaken; [apply (stop_down_runs _ (h <| log := l' |>)); [by apply ready_log|cbn; lia|]|].
    + intros _ i vq Hr. apply Hf; [done|exact Il|]. cbn in *. lia.
    + intros _ h' [Ev Hi']. apply runs_ret. right. rewrite Ev. split_and!; [done..|].
      intros i vq Hr Hvq. apply (Hi' P); [done|exact Hvq].
  - apply runs_bind, runs_modify, runs_ret. left. split_and!; [done..|]. split_and!; [etransitivity; [exact F1|exact E3]| |etransitivity; [exact F3|]; etransitivity; [exact E5|]; unfold h0; by kernel|].
    + etransitivity; [exact F2|]. etransitivity; [exact E4|]. unfold h0. by kernel.
    + intros i q vq. apply Hf.
Qed.

(** What stopping leaves of queue [i]: the index the kernel gave, the one of the used ring. *)
Definition stopped (h h' : host) (i : Z) : Prop :=
  forall q, q_of h i = Some q -> exists l0 rc u,
    answer l0 (GetVringBase i) = Ret rc /\ (GetVringBase i, rc) :: l0 `suffix_of` log h' /\ used_idx (ram h) q = Ret u /\
    q_of h' i = Some (q <| last_avail := if rc <? 0 then last_avail q else u16 (base_of l0 i) |> <| save_used := u |>).

Lemma stop_loop_runs h : polite -> ready h ->
  runs (for_vqs (Z.to_nat (nvqs (vdev h))) 0 (fun i => _ ← vhost_vq_stop answer base_of i; mret 0)) h (fun _ h' =>
    ready h' /\ vdev h' = vdev h /\ idle h' (log h') /\ forall i, 0 <= i < nvqs (vdev h) -> stopped h h' i).
Proof.
  intros P R. set (n := nvqs (vdev h)).
  pose (I := fun j h' => ready h' /\ vdev h' = vdev h /\ ram h' = ram h /\
    (forall i vq, 0 <= i < j -> i < n -> vq_of h i = Some vq -> unserved i (call_fd vq) (log h')) /\
    (forall i, 0 <= i < j -> i < n -> stopped h h' i) /\ (forall i, j <= i < n -> q_of h' i = q_of h i)).
  eapply runs_weaken; [apply (runs_for_vqs I (fun _ _ => False))|].
  - intros j h' Hj (R' & Ev & Er & Hu & Hd & Hq). assert (Hn : 0 <= j < n) by lia.
    destruct (rd_vq _ R _ Hn) as [vq Hvq]. destruct (rd_q _ R _ Hn) as (q & _ & _ & Hqj & _ & _).
    assert (Hvq' : forall i, vq_of h' i = vq_of h i) by (intros i; unfold vq_of; by rewrite Ev).
    assert (Hn' : 0 <= j < nvqs (vdev h')) by (by rewrite Ev). assert (Hq' : q_of h' j = Some q) by (by rewrite Hq by lia).
    apply runs_bind. eapply runs_weaken; [apply runs_grows; [apply grows_vq_stop|apply (vq_stop_runs h' j vq q); [done|done|by rewrite Hvq'|done]]|].
    intros _ h2 [(l & l0 & rc & u & Ea & Hs & Hu2 & -> & A & Ul) Hsuf]. apply runs_ret. change (0 <? 0) with false. cbv iota.
    set (la := if rc <? 0 then _ else _) in *. assert (Hk : 0 <= vq_idx (vdev h') + j) by (rewrite Ev; destruct (rd_range _ R); lia).
    split_and!; [by apply ready_saved|done|done|..].
    + intros i vi Hi1 Hi2 Hvi. destruct (Z.eq_dec i j) as [->|Hne]; [assert (vi = vq) as -> by congruence; by apply Ul|].
      apply (apart_unserved h j vq i vi (log h') l); try done. apply Hu; [lia|done..].
    + intros i Hi1 Hi2 qi Hqi. rewrite q_of_saved by done. destruct (Z.eqb_spec i j) as [->|Hne].
      * assert (qi = q) as -> by congruence. exists l0, rc, u. rewrite <- Er. done.
      * destruct (Hd i ltac:(lia) Hi2 qi Hqi) as (l0' & rc' & u' & H1 & H2 & H3 & H4). exists l0', rc', u'.
        split_and!; [done|etransitivity; [exact H2|exact Hsuf]|done|done].
    + intros i Hi. rewrite q_of_saved by done. destruct (Z.eqb_spec i j) as [->|Hne]; [lia|]. apply Hq. lia.
  - split_and!; try done; intros; lia.
  - intros [j|] h' H; cbv beta in H; [by destruct H|]. destruct H as (R' & Ev & Er & Hu & Hd & _). split_and!; [done|done|..].
    + intros i vq Hr Hvq. rewrite Ev in Hr. apply Hu; [unfold n in *; lia..|]. unfold vq_of in *. by rewrite <- Ev.
    + intros i Hi. apply Hd; unfold n in *; lia.
Qed.

Lemma dev_stop_runs h : polite -> ready h ->
  runs (vhost_dev_stop answer base_of) h (fun _ h' =>
    ready h' /\ nvqs (vdev h') = nvqs (vdev h) /\ vqs (vdev h') = vqs (vdev h) /\ started (vdev h') = false /\ idle h' (log h') /\
    forall i, 0 <= i < nvqs (vdev h) -> stopped h h' i).
Proof.
  intros P R. unfold vhost_dev_stop. apply runs_bind, runs_get, runs_bind.
  eapply runs_weaken; [by apply stop_loop_runs|]. intros _ h1 (R1 & Ev & Hi & Hs). apply runs_bind, runs_sys. intros rc _.
  apply runs_bind, runs_modify, runs_ret.
  assert (Hsuf : log h1 `suffix_of` (ResetOwner, rc) :: log h1) by (by apply suffix_cons_r).
  split_and!; [|by cbn; rewrite Ev..|done| |].
  - destruct R1. by split.
  - intros i vq Hr Hvq. destruct (Hi i vq Hr Hvq) as (U1 & U2 & U3). destruct (Z.lt_ge_cases rc 0).
    + split_and!; [rewrite <- U1|rewrite <- U2|rewrite <- U3]; by kernel.
    + split_and!; [by kernel..|]. rewrite <- U3. by kernel.
  - intros i Hr q Hq. destruct (Hs i Hr q Hq) as (l0 & r & u & H1 & H2 & H3 & H4). exists l0, r, u.
    split_and!; [done|etransitivity; [exact H2|exact Hsuf]|done|exact H4].
Qed.

(** C16. When the kernel refuses nothing that takes something back, a start is
    all or nothing: either it succeeds and the kernel owns the device, with the negotiated
    features, the memory of the machine, and for every queue its size, index,
    addresses and descriptors and a registered interrupt; or it fails, wherever
    that is, and the kernel serves no queue and no interrupt is registered.  It
    always comes back. *)
Theorem vhost_start_or_rollback h calloc_ok :
  polite -> ready h -> started (vdev h) = false -> idle h (log h) ->
  runs (vhost_dev_start answer base_of calloc_ok) h (fun rc h' =>
    (rc = 0 /\ started (vdev h') = true /\ served h (log h')) \/
    (rc = -1 /\ started (vdev h') = false /\ idle h (log h'))).
Proof. apply dev_start_runs. Qed.

(** A device that is stopped and started again goes on where it was: the
    start is given, for every queue, the index that the kernel reported at the
    stop, or, when it reported none, the one the device had. *)
Theorem vhost_restart_resumes h calloc_ok :
  polite -> ready h ->
  runs (_ ← vhost_dev_stop answer base_of; vhost_dev_start answer base_of calloc_ok) h (fun rc h' =>
    (rc = 0 /\ forall i q, 0 <= i < nvqs (vdev h) -> q_of h i = Some q -> exists l0 r,
       answer l0 (GetVringBase i) = Ret r /\ (GetVringBase i, r) :: l0 `suffix_of` log h' /\
       ring_base i (log h') = (if r <? 0 then last_avail q else u16 (base_of l0 i)) /\ ring_num i (log h') = qsize q) \/
    (rc = -1 /\ idle h (log h'))).
Proof.
  intros P R. apply runs_bind. eapply runs_weaken; [by apply dev_stop_runs|].
  intros _ h1 (R1 & En & Ev & Hs & Hi & Hst).
  eapply runs_weaken; [apply runs_grows; [apply grows_dev_start|by apply dev_start_runs]|].
  intros rc h2 [H Hsuf].
  destruct H as [(-> & _ & _ & _ & _ & H)|(-> & _ & H)]; [left; split; [done|]|right; split; [done|]].
  - intros i q Hr Hq. destruct (Hst i Hr q Hq) as (l0 & r & u & H1 & H2 & _ & H3). exists l0, r.
    destruct (rd_vq _ R1 i ltac:(by rewrite En)) as [vq Hvq].
    destruct (H i _ vq ltac:(by rewrite En) H3 Hvq) as [[= E1 E2 _ _ _] _].
    split_and!; [done|etransitivity; [exact H2|exact Hsuf]|exact E2|exact E1].
  - intros i vq Hr Hvq. apply H; [by rewrite En|]. unfold vq_of in *. by rewrite Ev.
Qed.
End Start.

(** ** Descriptors *)

Section Fds.
Context (answer : calls -> call -> outcome Z) (features_of : calls -> Z).
Context (total : forall l c, exists rc, answer l c = Ret rc).

(** The descriptors that are open after some calls, from those at the beginning. *)
Context (first : gset Z).
Fixpoint open_fds (l : calls) : gset Z :=
  match l with
  | [] => first
  | (Eventfd, fd) :: l => if fd <? 0 then open_fds l else {[fd]} ∪ open_fds l
  | (Close fd, _) :: l => open_fds l ∖ {[fd]}
  | _ :: l => open_fds l
  end.

(** [eventfd] fails or gives a descriptor that was not open; 0 is standard input. *)
Definition eventfd_fresh : Prop := forall l fd, answer l Eventfd = Ret fd -> fd < 0 \/ (0 < fd /\ fd ∉ open_fds l).

Definition pick (k : bool) : vhost_vq -> Z := if k then kick_fd else call_fd.
Definition slot (vl : list vhost_vq) (i : Z) (k : bool) : option Z := option_map (pick k) (nthZ vl i).

(** The open descriptors are those of [old] and what the queues hold, each in one place. *)
Record holds (old : gset Z) (vl : list vhost_vq) (l : calls) : Prop := {
  hold_open : forall x, x ∈ open_fds l <-> x ∈ old \/ exists i k, slot vl i k = Some x /\ 0 < x;
  hold_new : forall i k x, slot vl i k = Some x -> 0 < x -> x ∉ old;
  hold_once : forall i k i' k' x, slot vl i k = Some x -> slot vl i' k' = Some x -> 0 < x -> i = i' /\ k = k'
}.

Definition with_vqs (h : host) (vl : list vhost_vq) (l : calls) : host :=
  h <| vdev ::= fun v => v <| vqs := Some vl |> |> <| log := l |>.

Lemma with_vqs_id h vl l : vqs (vdev h) = Some vl -> log h = l -> h = with_vqs h vl l.
Proof. destruct h as [[] ? ? ? ? ? ? ?]. cbn. by intros -> ->. Qed.

Lemma runs_upd_vq h vl l i v f Q : nthZ vl i = Some v ->
  Q tt (with_vqs h (setZ vl i (f v)) l) -> runs (upd_vq i f) (with_vqs h vl l) Q.
Proof. intros Hv HQ. apply runs_bind, (runs_vq_at _ _ v); [done|]. by apply runs_modify. Qed.

(** One place changes. *)
Definition set_slot (k : bool) (x : Z) (v : vhost_vq) : vhost_vq := if k then v <| kick_fd := x |> else v <| call_fd := x |>.

Lemma slot_set vl i v k x i' k' : nthZ vl i = Some v ->
  slot (setZ vl i (set_slot k x v)) i' k' = if bool_decide (i' = i /\ k' = k) then Some x else slot vl i' k'.
Proof.
  intros Hv. unfold slot. destruct (decide (i' = i)) as [->|Hn].
  - rewrite (nthZ_setZ_eq _ _ v) by done. rewrite Hv. case_bool_decide as Hc; [by destruct Hc as [_ ->]; destruct k|].
    destruct k, k'; try done; by destruct Hc.
  - rewrite nthZ_setZ_ne by done. rewrite bool_decide_false; [done|]. by intros [].
Qed.

Lemma holds_same old vl l l' : open_fds l' = open_fds l -> holds old vl l -> holds old vl l'.
Proof. intros E [H1 H2 H3]. split; [|done..]. by rewrite E. Qed.

(** A new descriptor is stored where none was. *)
Lemma holds_open old vl l i v k x y : holds old vl l -> nthZ vl i = Some v -> slot vl i k = Some y -> y <= 0 ->
  0 < x -> x ∉ open_fds l -> holds old (setZ vl i (set_slot k x v)) ((Eventfd, x) :: l).
Proof.
  intros [H1 H2 H3] Hv Hy Hy0 Hx Hnew. assert (Hxo : x ∉ old) by (intros H; apply Hnew, H1; by left).
  assert (Hxs : forall i' k', slot vl i' k' <> Some x) by (intros i' k' E; apply Hnew, H1; right; by exists i', k').
  split.
  - intros z. cbn [open_fds]. rewrite (proj2 (Z.ltb_ge x 0)) by lia. rewrite elem_of_union, elem_of_singleton, H1. split.
    + intros [->|[Ho|(i' & k' & E & Hz)]]; [right; exists i, k|by left|right; exists i', k'];
        rewrite slot_set by done; [by rewrite bool_decide_true|]. rewrite bool_decide_false; [done|].
      intros [-> ->]. assert (z = y) by congruence. lia.
    + intros [Ho|(i' & k' & E & Hz)]; [right; by left|]. rewrite slot_set in E by done. case_bool_decide; [left; congruence|].
      right; right. by exists i', k'.
  - intros i' k' z E Hz. rewrite slot_set in E by done. case_bool_decide; [by assert (z = x) as -> by congruence|by apply (H2 i' k')].
  - intros i1 k1 i2 k2 z E1 E2 Hz. rewrite slot_set in E1, E2 by done. repeat case_bool_decide; simplify_eq; try (exfalso; by eapply Hxs); [|by apply (H3 _ _ _ _ z)].
    by destruct_and!; subst.
Qed.

(** A descriptor is closed and forgotten. *)
Lemma holds_close old vl l i v k x y r : holds old vl l -> nthZ vl i = Some v -> slot vl i k = Some x -> 0 < x -> y <= 0 ->
  holds old (setZ vl i (set_slot k y v)) ((Close x, r) :: l).
Proof.
  intros [H1 H2 H3] Hv Hx Hx0 Hy. split.
  - intros z. cbn [open_fds]. rewrite elem_of_difference, elem_of_singleton, H1. split.
    + intros [[Ho|(i' & k' & E & Hz)] Hn]; [by left|right; exists i', k']. rewrite slot_set by done.
      rewrite bool_decide_false; [done|]. intros [-> ->]. congruence.
    + intros [Ho|(i' & k' & E & Hz)].
      * split; [by left|]. intros ->. by apply (H2 _ _ _ Hx).
      * rewrite slot_set in E by done. case_bool_decide as Hc; [simplify_eq; lia|]. split; [right; by exists i', k'|].
        intros ->. by apply Hc, (H3 _ _ _ _ x).
  - intros i' k' z E Hz. rewrite slot_set in E by done. case_bool_decide; [simplify_eq; lia|by apply (H2 i' k')].
  - intros i1 k1 i2 k2 z E1 E2 Hz. rewrite slot_set in E1, E2 by done. repeat case_bool_decide; simplify_eq; try lia.
    by apply (H3 _ _ _ _ z).
Qed.

(** What is stored where nothing was and nothing is. *)
Lemma holds_clear old vl l i v k x y : holds old vl l -> nthZ vl i = Some v -> slot vl i k = Some x -> x <= 0 -> y <= 0 ->
  holds old (setZ vl i (set_slot k y v)) l.
Proof.
  intros [H1 H2 H3] Hv Hx Hx0 Hy. split.
  - intros z. rewrite H1. split; (intros [Ho|(i' & k' & E & Hz)]; [by left|right; exists i', k']).
    + rewrite slot_set by done. rewrite bool_decide_false; [done|]. intros [-> ->]. simplify_eq. lia.
    + rewrite slot_set in E by done. case_bool_decide; [simplify_eq; lia|done].
  - intros i' k' z E Hz. rewrite slot_set in E by done. case_bool_decide; [simplify_eq; lia|by apply (H2 i' k')].
  - intros i1 k1 i2 k2 z E1 E2 Hz. rewrite slot_set in E1, E2 by done. repeat case_bool_decide; simplify_eq; try lia.
    by apply (H3 _ _ _ _ z).
Qed.

Lemma vhost_holds_ext old vl vl' l : (forall i k, slot vl' i k = slot vl i k) -> holds old vl l -> holds old vl' l.
Proof.
  intros E [H1 H2 H3]. split.
  - intros x. rewrite H1. by setoid_rewrite E.
  - intros i k x. rewrite E. apply H2.
  - intros i k i' k' x. rewrite !E. apply H3.
Qed.

(** With its event descriptor gone, both places of a queue are emptied. *)
Lemma holds_clear_both old vl l i v : nthZ vl i = Some v -> call_fd v <= 0 ->
  holds old (setZ vl i (v <| kick_fd := -1 |>)) l -> holds old (setZ vl i (v <| kick_fd := -1 |> <| call_fd := -1 |>)) l.
Proof.
  intros Hv Hc H. assert (Hv' : nthZ (setZ vl i (v <| kick_fd := -1 |>)) i = Some (v <| kick_fd := -1 |>)) by (by apply (nthZ_setZ_eq _ _ v)).
  apply (holds_clear _ _ _ i (v <| kick_fd := -1 |>) false (call_fd v) (-1)) in H; [..|done|lia].
  - rewrite setZ_setZ in H. exact H.
  - exact Hv'.
  - unfold slot. by rewrite Hv'.
Qed.

(** Both places of a queue. *)
Definition both (P : Z -> Prop) (vl : list vhost_vq) (i : Z) : Prop :=
  exists v, nthZ vl i = Some v /\ P (kick_fd v) /\ P (call_fd v).

(** What an operation on queue [i] may change. *)
Definition only (i : Z) (vl vl' : list vhost_vq) : Prop := forall j, j <> i -> nthZ vl' j = nthZ vl j.

Lemma only_set i vl v : only i vl (setZ vl i v).
Proof. intros j Hj. by apply nthZ_setZ_ne. Qed.

Lemma vq_init_runs h old vl l i : eventfd_fresh -> holds old vl l -> both (fun x => x <= 0) vl i ->
  runs (vhost_vq_init answer i) (with_vqs h vl l) (fun rc h' => exists vl' l', h' = with_vqs h vl' l' /\
    holds old vl' l' /\ only i vl vl' /\ ((rc = 0 /\ both (fun x => 0 < x) vl' i) \/ (rc = -1 /\ both (fun x => x <= 0) vl' i))).
Proof.
  intros Hf H (v & Hv & Hk & Hc). unfold vhost_vq_init. apply runs_bind, runs_get. change (vqs (vdev (with_vqs h vl l))) with (Some vl). cbv iota.
  assert (Sk : slot vl i true = Some (kick_fd v)) by (unfold slot; by rewrite Hv).
  assert (Sc : slot vl i false = Some (call_fd v)) by (unfold slot; by rewrite Hv).
  apply runs_bind, runs_sys; [done|]. intros fd Efd. apply runs_bind.
  change (with_vqs h vl l <| log ::= _ |>) with (with_vqs h vl ((Eventfd, fd) :: l)).
  apply (runs_upd_vq _ _ _ _ v); [done|]. set (v1 := v <| kick_fd := fd |>). set (vl1 := setZ vl i v1).
  assert (Hv1 : nthZ vl1 i = Some v1) by (by apply (nthZ_setZ_eq _ _ v)).
  destruct (Z.ltb_spec fd 0) as [Hneg|Hpos].
  - apply runs_bind, (runs_upd_vq _ _ _ _ v1); [done|]. apply runs_ret. eexists _, _. split; [reflexivity|].
    unfold vl1. rewrite setZ_setZ. split; [|split; [apply only_set|right; split; [done|]]].
    2:{ eexists. split; [by apply (nthZ_setZ_eq _ _ v)|]. cbn. lia. }
    apply (holds_same _ _ l); [cbn; by rewrite (proj2 (Z.ltb_lt fd 0))|].
    apply (holds_clear_both old vl l i v); [done..|]. by apply (holds_clear _ _ _ _ _ true _ (-1) H Hv Sk Hk).
  - destruct (Hf _ _ Efd) as [|[Hfd Hnew]]; [lia|].
    assert (H1 : holds old vl1 ((Eventfd, fd) :: l)) by (by apply (holds_open old vl l i v true fd (kick_fd v))).
    assert (Sk1 : slot vl1 i true = Some fd) by (unfold slot; by rewrite Hv1).
    assert (Sc1 : slot vl1 i false = Some (call_fd v)) by (unfold slot; by rewrite Hv1).
    apply runs_bind, runs_sys; [done|]. intros cfd Ecfd. apply runs_bind.
    change (with_vqs h vl1 ((Eventfd, fd) :: l) <| log ::= _ |>) with (with_vqs h vl1 ((Eventfd, cfd) :: (Eventfd, fd) :: l)).
    apply (runs_upd_vq _ _ _ _ v1); [done|]. set (v2 := v1 <| call_fd := cfd |>). set (vl2 := setZ vl1 i v2).
    assert (Hv2 : nthZ vl2 i = Some v2) by (by apply (nthZ_setZ_eq _ _ v1)).
    destruct (Z.ltb_spec cfd 0) as [Hcneg|Hcpos].
    + apply runs_bind, runs_sys; [done|]. intros r _. apply runs_bind.
      change (with_vqs h vl2 ((Eventfd, cfd) :: (Eventfd, fd) :: l) <| log ::= _ |>)
        with (with_vqs h vl2 ((Close fd, r) :: (Eventfd, cfd) :: (Eventfd, fd) :: l)).
      apply (runs_upd_vq _ _ _ _ v2); [done|]. apply runs_ret. eexists _, _. split; [reflexivity|].
      unfold vl2, vl1. rewrite !setZ_setZ. split; [|split; [apply only_set|right; split; [done|]]].
      2:{ eexists. split; [by apply (nthZ_setZ_eq _ _ v)|]. cbn. lia. }
      apply (holds_same _ _ _ ((Eventfd, cfd) :: (Eventfd, fd) :: l)) in H1; [|cbn; by rewrite (proj2 (Z.ltb_lt cfd 0))].
      pose proof (holds_close _ _ _ _ _ true _ (-1) r H1 Hv1 Sk1 Hfd ltac:(lia)) as H2.
      apply holds_clear_both in H2; [|done..]. unfold vl1 in H2. by rewrite !setZ_setZ in H2.
    + destruct (Hf _ _ Ecfd) as [|[Hcfd Hcnew]]; [lia|].
      assert (H2 : holds old vl2 ((Eventfd, cfd) :: (Eventfd, fd) :: l)) by (by apply (holds_open old vl1 _ i v1 false cfd (call_fd v))).
      apply runs_bind, (runs_upd_vq _ _ _ _ v2); [done|]. apply runs_ret. eexists _, _. split; [reflexivity|].
      split; [|split; [unfold vl2, vl1; rewrite !setZ_setZ; apply only_set|left; split; [done|]]].
      2:{ eexists. split; [by apply (nthZ_setZ_eq _ _ v2)|]. done. }
      apply (vhost_holds_ext _ vl2); [|done]. intros j k. unfold slot. destruct (Z.eq_dec j i) as [->|Hj].
      * rewrite (nthZ_setZ_eq _ _ v2), Hv2 by done. by destruct k.
      * by rewrite nthZ_setZ_ne.
Qed.

(** Closing what place [k] of queue [i] holds, if anything. *)
Lemma close_slot_runs h old vl l i v k x : holds old vl l -> nthZ vl i = Some v -> slot vl i k = Some x ->
  runs (if 0 <? x then _ ← sys answer (Close x); upd_vq i (set_slot k (-1)) else mret tt) (with_vqs h vl l) (fun _ h' =>
    exists v' l', h' = with_vqs h (setZ vl i v') l' /\ holds old (setZ vl i v') l' /\
      pick k v' <= 0 /\ pick (negb k) v' = pick (negb k) v).
Proof.
  intros H Hv Hx. destruct (Z.ltb_spec 0 x) as [Hpos|Hneg].
  - apply runs_bind, runs_sys; [done|]. intros r _.
    change (with_vqs h vl l <| log ::= _ |>) with (with_vqs h vl ((Close x, r) :: l)).
    apply (runs_upd_vq _ _ _ _ v); [done|]. eexists _, _. split; [reflexivity|].
    split; [by apply (holds_close _ _ _ _ _ _ x)|]. by destruct k.
  - apply runs_ret. exists v, l. rewrite setZ_id by done. split_and!; [done..| |done].
    unfold slot in Hx. rewrite Hv in Hx. injection Hx as ->. lia.
Qed.

Lemma vq_deinit_runs h old vl l i : holds old vl l -> is_Some (nthZ vl i) ->
  runs (vhost_vq_deinit answer i) (with_vqs h vl l) (fun _ h' => exists vl' l', h' = with_vqs h vl' l' /\
    holds old vl' l' /\ only i vl vl' /\ both (fun x => x <= 0) vl' i).
Proof.
  intros H [v Hv]. unfold vhost_vq_deinit. apply runs_bind, runs_get.
  change (vqs (vdev (with_vqs h vl l))) with (Some vl). rewrite bool_decide_true by done. cbn [negb andb].
  apply runs_bind, (runs_vq_at _ _ v); [done|].
  apply runs_bind. eapply runs_weaken; [apply (close_slot_runs h old vl l i v false (call_fd v)); [done..|unfold slot; by rewrite Hv]|].
  intros _ _ (v1 & l1 & -> & H1 & Hy & Hk). set (vl1 := setZ vl i v1) in *.
  assert (Hv1 : nthZ vl1 i = Some v1) by (by apply (nthZ_setZ_eq _ _ v)).
  assert (Ek : kick_fd v1 = kick_fd v) by exact Hk.
  apply runs_bind. eapply runs_weaken; [apply (close_slot_runs h old vl1 l1 i v1 true (kick_fd v)); [done..|unfold slot; by rewrite Hv1, <- Ek]|].
  intros _ _ (v2 & l2 & -> & H2 & Hz & Hc). apply runs_ret. eexists _, _. split; [reflexivity|]. split; [done|].
  unfold vl1. rewrite setZ_setZ. split; [apply only_set|]. exists v2. split; [by apply (nthZ_setZ_eq _ _ v)|].
  cbn in *. split; [done|]. by rewrite Hc.
Qed.

(** The array has exactly [n] queues. *)
Definition sized (n : Z) (vl : list vhost_vq) : Prop := forall i, is_Some (nthZ vl i) <-> 0 <= i < n.

Lemma sized_only n vl vl' i : sized n vl -> is_Some (nthZ vl' i) -> 0 <= i < n -> only i vl vl' -> sized n vl'.
Proof. intros H Hi Hr Ho j. destruct (Z.eq_dec j i) as [->|Hn]; [by split|]. by rewrite Ho. Qed.

Lemma holds_none n old vl l : holds old vl l -> sized n vl -> (forall i, 0 <= i < n -> both (fun x => x <= 0) vl i) ->
  open_fds l = old.
Proof.
  intros [H1 _ _] Hz Hb. apply set_eq. intros x. rewrite H1. split; [|by left].
  intros [Ho|(i & k & E & Hx)]; [done|]. unfold slot in E. destruct (nthZ vl i) as [v|] eqn:Ev; [|done].
  destruct (Hb i) as (v' & Hv' & Hk & Hc); [apply Hz; by rewrite Ev|]. rewrite Ev in Hv'. injection Hv' as <-. injection E as <-.
  destruct k; cbn in Hx; lia.
Qed.

Lemma deinit_loop_runs h old vl l n : 0 <= n -> holds old vl l -> sized n vl ->
  runs (for_vqs (Z.to_nat n) 0 (fun i => _ ← vhost_vq_deinit answer i; mret 0)) (with_vqs h vl l) (fun _ h' =>
    exists vl' l', h' = with_vqs h vl' l' /\ open_fds l' = old).
Proof.
  intros Hn H Hz.
  pose (I := fun j h' => exists vl' l', h' = with_vqs h vl' l' /\ holds old vl' l' /\ sized n vl' /\
    forall i, 0 <= i < j -> i < n -> both (fun x => x <= 0) vl' i).
  eapply runs_weaken; [apply (runs_for_vqs I (fun _ _ => False))|].
  - intros j h' Hj (vl' & l' & -> & H' & Hz' & Hb). assert (Hr : 0 <= j < n) by lia. apply runs_bind.
    eapply runs_weaken; [apply (vq_deinit_runs h old vl' l' j H'); by apply Hz'|].
    intros _ _ (vl2 & l2 & -> & H2 & Ho & Hb2). apply runs_ret. change (0 <? 0) with false. cbv iota.
    exists vl2, l2. split_and!; [done|done|apply (sized_only n vl' _ j); try done; destruct Hb2 as (v & -> & _); done|].
    intros i Hi1 Hi2. destruct (Z.eq_dec i j) as [->|Hne]; [done|].
    destruct (Hb i ltac:(lia) Hi2) as (v & Hv & Hkc). exists v. by rewrite Ho.
  - exists vl, l. split_and!; [done..|]. intros i Hi. lia.
  - intros [j|] h' Hi; cbv beta in Hi; [by destruct Hi|]. destruct Hi as (vl' & l' & -> & H' & Hz' & Hb).
    exists vl', l'. split; [done|]. apply (holds_none n _ vl'); [done..|]. intros i Hi. apply Hb; lia.
Qed.

Lemma init_loop_runs h old vl l n : eventfd_fresh -> 0 <= n -> holds old vl l -> sized n vl ->
  (forall i, 0 <= i < n -> both (fun x => x <= 0) vl i) ->
  runs (for_vqs (Z.to_nat n) 0 (vhost_vq_init answer)) (with_vqs h vl l) (fun r h' =>
    exists vl' l', h' = with_vqs h vl' l' /\ holds old vl' l' /\ sized n vl' /\
      (r = None -> forall i, 0 <= i < n -> both (fun x => 0 < x) vl' i)).
Proof.
  intros Hf Hn H Hz Hb0.
  pose (I := fun j h' => exists vl' l', h' = with_vqs h vl' l' /\ holds old vl' l' /\ sized n vl' /\
    (forall i, 0 <= i < j -> i < n -> both (fun x => 0 < x) vl' i) /\ (forall i, j <= i < n -> both (fun x => x <= 0) vl' i)).
  pose (F := fun (j : Z) h' => exists vl' l', h' = with_vqs h vl' l' /\ holds old vl' l' /\ sized n vl').
  eapply runs_weaken; [apply (runs_for_vqs I F)|].
  - intros j h' Hj (vl' & l' & -> & H' & Hz' & Hp & Hb). assert (Hr : 0 <= j < n) by lia.
    eapply runs_weaken; [apply (vq_init_runs h old vl' l' j Hf H'); apply Hb; lia|].
    intros rc _ (vl2 & l2 & -> & H2 & Ho & Hrc).
    assert (Hz2 : sized n vl2) by (apply (sized_only n vl' _ j); try done; by destruct Hrc as [[_ (v & -> & _)]|[_ (v & -> & _)]]).
    assert (Hk : forall P i, i <> j -> both P vl' i -> both P vl2 i) by (intros P i Hne (v & Hv & Hkc); exists v; by rewrite Ho).
    destruct Hrc as [[-> Hbj]|[-> _]]; cbn; [|by exists vl2, l2].
    exists vl2, l2. split_and!; [done..| |].
    + intros i Hi1 Hi2. destruct (Z.eq_dec i j) as [->|Hne]; [done|]. apply Hk; [done|]. apply Hp; lia.
    + intros i Hi. apply Hk; [lia|]. apply Hb. lia.
  - exists vl, l. split_and!; [done..| |done]. intros i Hi. lia.
  - intros [j|] h' Hi; cbv beta in Hi.
    + destruct Hi as (_ & vl' & l' & -> & H' & Hz'). exists vl', l'. done.
    + destruct Hi as (vl' & l' & -> & H' & Hz' & Hp & _). exists vl', l'. split_and!; [done..|]. intros _ i Hi. apply Hp; lia.
Qed.

Lemma dev_deinit_runs h old vl l : no_base h = false -> 0 <= nvqs (vdev h) -> 0 < vfd (vdev h) ->
  holds old vl l -> sized (nvqs (vdev h)) vl ->
  runs (vhost_dev_deinit answer) (with_vqs h vl l) (fun rc h' =>
    rc = 0 /\ has_base (vdev h') = false /\ open_fds (log h') = old ∖ {[vfd (vdev h)]}).
Proof.
  intros Hb Hn Hfd H Hz. unfold vhost_dev_deinit. apply runs_bind, runs_get.
  change (no_base (with_vqs h vl l)) with (no_base h). rewrite Hb.
  change (nvqs (vdev (with_vqs h vl l))) with (nvqs (vdev h)).
  apply runs_bind. eapply runs_weaken; [by apply (deinit_loop_runs h old vl l)|]. intros _ _ (vl' & l' & -> & Ho).
  apply runs_bind. unfold vhost_kernel_deinit. apply runs_bind, runs_modify, runs_bind, runs_get.
  match goal with |- context [0 <? ?x] => change x with (vfd (vdev h)) end. rewrite (proj2 (Z.ltb_lt 0 (vfd (vdev h)))) by done.
  apply runs_bind, runs_sys; [done|]. intros r _. apply runs_modify, runs_ret. split_and!; [done..|].
  change (open_fds l' ∖ {[vfd (vdev h)]} = old ∖ {[vfd (vdev h)]}). by rewrite Ho.
Qed.

(** C17. Event descriptors are neither lost nor shared.  An initialisation with valid
    arguments either succeeds, and then every queue has two open descriptors of its
    own and a tear-down closes all of them and the descriptor of the vhost device, or
    fails, wherever that is, with exactly the latter closed. *)
Theorem vhost_fds_balanced h vl fd vqidx features ext timeout n :
  eventfd_fresh ->
  vqs (vdev h) = Some vl -> sized (nvqs (vdev h)) vl -> 0 < nvqs (vdev h) ->
  (forall i, 0 <= i < nvqs (vdev h) -> both (fun x => x <= 0) vl i) ->
  has_queues h = true -> ops_nvq h = Some n -> n < 2 ^ 31 -> 0 <= vqidx -> vqidx + nvqs (vdev h) <= n -> 0 < fd ->
  runs (vhost_dev_init answer features_of true fd vqidx features ext timeout) h (fun rc h' =>
    (rc = 0 /\ (exists vl' , vqs (vdev h') = Some vl' /\ holds (open_fds (log h)) vl' (log h') /\
                   forall i, 0 <= i < nvqs (vdev h) -> both (fun x => 0 < x) vl' i) /\
     runs (vhost_dev_deinit answer) h' (fun rc2 h2 =>
       rc2 = 0 /\ has_base (vdev h2) = false /\ open_fds (log h2) = open_fds (log h) ∖ {[fd]})) \/
    (rc = -1 /\ has_base (vdev h') = false /\ open_fds (log h') = open_fds (log h) ∖ {[fd]})).
Proof.
  intros Hf Hvl Hz Hn Hb Hq Ho Hmax Hidx Hle Hfd. set (old := open_fds (log h)).
  assert (H0 : holds old vl (log h)).
  { assert (Hs : forall i k x, slot vl i k = Some x -> 0 < x -> False).
    { intros i k x E Hx. unfold slot in E. destruct (nthZ vl i) as [v|] eqn:Ev; [|done].
      destruct (Hb i) as (v' & Hv' & Hkc); [apply Hz; by rewrite Ev|]. rewrite Ev in Hv'. injection Hv' as <-. injection E as <-.
      destruct k; cbn in Hx; lia. }
    split; [|intros i k x E Hx; by destruct (Hs i k x)|intros i k i' k' x E _ Hx; by destruct (Hs i k x)].
    intros x. split; [by left|]. intros [|(i & k & E & Hx)]; [done|]. by destruct (Hs i k x). }
  unfold vhost_dev_init. apply runs_bind, runs_get. rewrite Hq, Ho, bool_decide_true by done. cbn [negb orb].
  unfold no_vqs, nvq_of. rewrite Hvl, Ho, bool_decide_true by done. cbn [negb orb default]. rewrite (proj2 (Z.eqb_neq _ 0)) by lia.
  replace (s32 (vqidx + nvqs (vdev h))) with (vqidx + nvqs (vdev h)) by wrap_lia. rewrite (proj2 (Z.ltb_ge n _)) by lia.
  apply runs_bind, runs_modify, runs_bind. unfold vhost_kernel_get_features. apply runs_bind, runs_get, runs_bind, runs_sys; [done|].
  intros rc _. apply runs_ret.
  set (h1 := h <| vdev ::= fun v => v <| has_base := true |> <| vfd := fd |> <| vq_idx := vqidx |> <| busyloop_timeout := timeout |> |>).
  match goal with |- runs _ ?s _ => replace s with (with_vqs h1 vl ((GetFeatures, rc) :: log h)) end.
  2:{ unfold with_vqs, h1, field_upd. cbn. by rewrite Hvl. }
  assert (Hb1 : no_base h1 = false) by (unfold no_base, h1; cbn; by rewrite Hq, Ho).
  assert (Fail : forall vl' l', holds old vl' l' -> sized (nvqs (vdev h)) vl' ->
    runs (_ ← vhost_dev_deinit answer; mret (-1)) (with_vqs h1 vl' l') (fun rc h' =>
      rc = -1 /\ has_base (vdev h') = false /\ open_fds (log h') = old ∖ {[fd]})).
  { intros vl' l' H' Hz'. apply runs_bind. eapply runs_weaken; [apply (dev_deinit_runs h1 old vl' l'); try done; cbn; lia|].
    intros _ h2 (_ & Hbase & Hopen). apply runs_ret. done. }
  apply (holds_same _ _ _ ((GetFeatures, rc) :: log h)) in H0; [|done].
  destruct (rc <? 0).
  { eapply runs_weaken; [by apply Fail|]. intros r h' H. by right. }
  apply runs_bind. eapply runs_weaken; [apply (init_loop_runs h1 old vl _ (nvqs (vdev h))); try done; lia|].
  intros failed _ (vl' & l' & -> & H' & Hz' & Hp). destruct failed as [j|].
  { eapply runs_weaken; [by apply Fail|]. intros r h' H. by right. }
  apply runs_bind, runs_modify, runs_bind, runs_modify, runs_bind, runs_modify, runs_ret. left. split; [done|]. split.
  - exists vl'. split; [done|]. split; [done|]. by apply Hp.
  - match goal with |- runs _ ?s _ => set (h2 := s); rewrite (with_vqs_id h2 vl' l' eq_refl eq_refl) end.
    assert (E1 : no_base h2 = false) by exact Hb1. assert (E2 : nvqs (vdev h2) = nvqs (vdev h)) by reflexivity.
    assert (E3 : vfd (vdev h2) = fd) by reflexivity. clearbody h2. rewrite <- E3.
    apply dev_deinit_runs; [done|rewrite E2; lia|lia|done|by rewrite E2].
Qed.
End Fds.

(** ** A device with two queues *)

(** A host that refuses nothing but the calls of [no], gives the next descriptor,
    and has served the rings up to index 7. *)
Definition next_fd (l : calls) : Z := fold_right (fun p m => Z.max (snd p) m) 10 l + 1.
Definition kernel (no : call -> bool) (l : calls) (c : call) : outcome Z :=
  match c with Eventfd => Ret (next_fd l) | _ => Ret (if no c then -1 else 0) end.
Definition yes (c : call) : bool := false.
Definition seven (l : calls) (i : Z) : Z := 7.

Definition machine (b : bool) (vl : list vhost_vq) (started : bool) (l : calls) : host :=
  mkHost (mkVhost b (Some vl) 2 (if b then 5 else 0) 0 (2 ^ 32 + 2 ^ 29) 0 50 started)
    (mkBase 1 (mkPci true false) (2 ^ 32) (2 ^ 33 + 2 ^ 32) [Demo.vq; Demo.vq] 1 VIRTIO_CONFIG_S_DRIVER_OK 0 0 0 0 0 0 0)
    true (Some 2) [(0xfee00000, 0x41)] (mkVmctx (2 ^ 30) 0 (2 ^ 32) (2 ^ 46)) Demo.shm l.
Definition inited : host := machine true [mkVhostVq 11 12 0; mkVhostVq 13 14 1] false [].

Lemma two_cases {A} (a b : A) i x : nthZ [a; b] i = Some x -> (i = 0 /\ x = a) \/ (i = 1 /\ x = b).
Proof.
  unfold nthZ. destruct (Z.leb_spec 0 i); [|done]. intros Hx. pose proof (lookup_lt_Some _ _ _ Hx) as Hl. cbn in Hl.
  assert (Hc : i = 0 \/ i = 1) by lia. destruct Hc as [-> | ->]; [left|right]; cbn in Hx; by injection Hx as <-.
Qed.

Lemma two_index i : 0 <= i < 2 -> i = 0 \/ i = 1.
Proof. lia. Qed.

Lemma inited_ready : ready inited.
Proof.
  split; [reflexivity|reflexivity|vm_compute; intuition congruence| | |].
  - intros i [-> | ->]%two_index; by eexists.
  - intros i [-> | ->]%two_index; (exists Demo.vq, (0xfee00000, 0x41), 0; by split_and!).
  - intros i j vi vj [[-> ->] | [-> ->]]%two_cases [[-> ->] | [-> ->]]%two_cases; by cbn.
Qed.

Lemma inited_idle : idle inited [].
Proof. intros i vq _ _. by split_and!. Qed.

Lemma kernel_total no l c : exists rc, kernel no l c = Ret rc.
Proof. destruct c; by eexists. Qed.

(** A host that refuses only to give kick descriptors to queue 1. *)
Definition no_kick (c : call) : bool := match c with SetVringKick i fd => (i =? 1) && (0 <=? fd) | _ => false end.

Lemma kernel_polite no : (forall c, withdraws c = true -> no c = false) -> polite (kernel no).
Proof.
  intros H l c rc Hw E. destruct c; cbn in E; rewrite ?(H _ Hw) in E; injection E as <-; try discriminate Hw; lia.
Qed.
Lemma no_kick_polite : polite (kernel no_kick).
Proof.
  apply kernel_polite. intros c. destruct c; cbn; try done. intros ->%Z.eqb_eq. by rewrite andb_false_r.
Qed.
Lemma yes_polite : polite (kernel yes).
Proof. by apply kernel_polite. Qed.

Definition result {A} (m : outcome (A * host)) : option A := match m with Ret (a, _) => Some a | Stop _ => None end.

Example start_succeeds : result (vhost_dev_start (kernel yes) seven true inited) = Some 0.
Proof. by vm_compute. Qed.
Example start_fails : result (vhost_dev_start (kernel no_kick) seven true inited) = Some (-1).
Proof. by vm_compute. Qed.

(** In this program the calls that register events end the process. *)
Definition backend_calls (l : calls) (c : call) : outcome Z :=
  match c with RegisterIoeventfd _ _ _ | Irqfd _ _ _ | Ioeventfd _ => Stop ProcessExit | _ => Ret 0 end.
Example start_exits : vhost_dev_start backend_calls seven true inited = Stop ProcessExit.
Proof. by vm_compute. Qed.

(** A queue without a vector indexes the table with 0xffff. *)
Example no_vector_oob :
  vhost_dev_start (kernel yes) seven true (inited <| base ::= fun b => b <| queues := map virtio_reset_vq [Demo.vq; Demo.vq] |> |>)
  = Stop OobAccess.
Proof. by vm_compute. Qed.

(** A start that fails keeps the device owned: the next one fails at once when the
    kernel gives it only once. *)
Definition owner_once (l : calls) (c : call) : outcome Z :=
  match c with SetOwner => Ret (if owned l then -1 else 0) | _ => kernel no_kick l c end.
Example failed_start_keeps_owner :
  match vhost_dev_start owner_once seven true inited with
  | Ret (rc, h) => rc = -1 /\ owned (log h) = true /\ result (vhost_dev_start owner_once seven true h) = Some (-1)
  | Stop _ => False
  end.
Proof. by vm_compute. Qed.

Lemma vhost_start_or_rollback_witness :
  runs (vhost_dev_start (kernel no_kick) seven true) inited (fun rc h' =>
    (rc = 0 /\ started (vdev h') = true /\ served inited (log h')) \/
    (rc = -1 /\ started (vdev h') = false /\ idle inited (log h'))).
Proof.
  apply (vhost_start_or_rollback (kernel no_kick) seven (kernel_total no_kick) inited true no_kick_polite inited_ready).
  - reflexivity.
  - exact inited_idle.
Defined.

Lemma vhost_restart_resumes_witness :
  runs (_ ← vhost_dev_stop (kernel yes) seven; vhost_dev_start (kernel yes) seven true) inited (fun rc h' =>
    (rc = 0 /\ forall i q, 0 <= i < 2 -> q_of inited i = Some q -> exists l0 r,
       kernel yes l0 (GetVringBase i) = Ret r /\ (GetVringBase i, r) :: l0 `suffix_of` log h' /\
       ring_base i (log h') = (if r <? 0 then last_avail q else u16 7) /\ ring_num i (log h') = qsize q) \/
    (rc = -1 /\ idle inited (log h'))).
Proof. apply (vhost_restart_resumes (kernel yes) seven (kernel_total yes) inited true yes_polite inited_ready). Defined.

(** The device before its initialisation; descriptors up to 5 are open. *)
Definition blank : host := machine false [mkVhostVq 0 0 0; mkVhostVq 0 0 0] false [].
Definition first_fds : gset Z := {[0; 1; 2; 5]}.

Lemma next_fd_above l x : x ∈ open_fds first_fds l -> x < next_fd l.
Proof.
  unfold next_fd. induction l as [|[c rc] l IH]; cbn [open_fds fold_right snd].
  - unfold first_fds. rewrite !elem_of_union, !elem_of_singleton. lia.
  - assert (Hl : x ∈ open_fds first_fds l -> x < Z.max rc (fold_right (fun p m => Z.max (snd p) m) 10 l) + 1) by (intros H; specialize (IH H); lia).
    destruct c; try exact Hl.
    + destruct (rc <? 0); [exact Hl|]. rewrite elem_of_union, elem_of_singleton. intros [->|H]; [lia|auto].
    + rewrite elem_of_difference. intros [H _]. auto.
Qed.

Lemma kernel_fresh no : eventfd_fresh (kernel no) first_fds.
Proof.
  intros l fd [= <-]. right. split.
  - unfold next_fd. assert (10 <= fold_right (fun p m => Z.max (snd p) m) 10 l); [|lia].
    induction l as [|p l IH]; cbn; lia.
  - intros H. apply next_fd_above in H. lia.
Qed.

Lemma blank_sized : sized 2 [mkVhostVq 0 0 0; mkVhostVq 0 0 0].
Proof.
  intros i. split; [intros [x [[-> _] | [-> _]]%two_cases]; lia|]. intros [-> | ->]%two_index; by eexists.
Qed.
Lemma blank_closed i : 0 <= i < 2 -> both (fun x => x <= 0) [mkVhostVq 0 0 0; mkVhostVq 0 0 0] i.
Proof. intros [-> | ->]%two_index; (eexists; split; [reflexivity|]; cbn; lia). Qed.

Lemma vhost_fds_balanced_witness :
  runs (vhost_dev_init (kernel yes) (fun _ => 2 ^ 32) true 5 0 (2 ^ 32 + 2 ^ 29) 0 50) blank (fun rc h' =>
    (rc = 0 /\ (exists vl', vqs (vdev h') = Some vl' /\ holds first_fds (open_fds first_fds []) vl' (log h') /\
                  forall i, 0 <= i < 2 -> both (fun x => 0 < x) vl' i) /\
     runs (vhost_dev_deinit (kernel yes)) h' (fun rc2 h2 =>
       rc2 = 0 /\ has_base (vdev h2) = false /\ open_fds first_fds (log h2) = open_fds first_fds [] ∖ {[5]})) \/
    (rc = -1 /\ has_base (vdev h') = false /\ open_fds first_fds (log h') = open_fds first_fds [] ∖ {[5]})).
Proof.
  apply (vhost_fds_balanced (kernel yes) (fun _ => 2 ^ 32) (kernel_total yes) first_fds blank _ 5 0 _ _ _ 2 (kernel_fresh yes)
    eq_refl blank_sized); [reflexivity|exact blank_closed|reflexivity|reflexivity|reflexivity|lia|cbn; lia|lia].
Defined.
