(* ===== verification/PciConfig.v ===== *)
(** * The PCI configuration space of the GPU device

    The accessors of [src/devicemodel/include/pci_core.h], the identity that
    [virtio_gpu_init] writes and the capabilities that tell a driver where the
    register windows of BAR 2 are. *)
From S2P Require Import Prelude VirtioCore VirtioGpu GpuCtrl Vga GpuBar.

Definition PCI_REGMAX := 255.
Definition PCIR_VENDOR := 0x00.
Definition PCIR_DEVICE := 0x02.
Definition PCIR_REVID := 0x08.
Definition PCIR_SUBCLASS := 0x0a.
Definition PCIR_CLASS := 0x0b.
Definition PCIR_SUBVEND_0 := 0x2c.
Definition PCIR_SUBDEV_0 := 0x2e.
Definition PCIC_DISPLAY := 3.
Definition PCIS_DISPLAY_VGA := 0.
Definition VIRTIO_TYPE_GPU := 16.
Definition VIRTIO_VENDOR := 0x1af4.
Definition VIRTIO_DEV_GPU := 0x1050.

(** ** Accessors *)

(** [cfgdata], an array of [PCI_REGMAX + 1] bytes.  The tests of an access of [n] bytes:
    too far, or not aligned.  A negative offset passes them. *)
Definition rejected (n offset : Z) : bool := (PCI_REGMAX - (n - 1) <? offset) || negb (Z.land offset (n - 1) =? 0).

Definition pci_set_cfgdata (n : nat) (offset val : Z) (cfgdata : list Z) : outcome (list Z) :=
  if rejected (Z.of_nat n) offset then Ret cfgdata
  else if offset <? 0 then Stop OobAccess
  else Ret (splice cfgdata (Z.to_nat offset) (le_encode n val)).
Definition pci_get_cfgdata (n : nat) (offset : Z) (cfgdata : list Z) : outcome Z :=
  if rejected (Z.of_nat n) offset then Ret (Z.ones (8 * Z.of_nat n))
  else if offset <? 0 then Stop OobAccess
  else Ret (le_decode (take n (drop (Z.to_nat offset) cfgdata))).

Definition pci_set_cfgdata8 := pci_set_cfgdata 1.
Definition pci_set_cfgdata16 := pci_set_cfgdata 2.
Definition pci_set_cfgdata32 := pci_set_cfgdata 4.
Definition pci_get_cfgdata8 := pci_get_cfgdata 1.
Definition pci_get_cfgdata16 := pci_get_cfgdata 2.
Definition pci_get_cfgdata32 := pci_get_cfgdata 4.

(** ** Identity *)

Definition gpu_identity (cfgdata : list Z) : outcome (list Z) :=
  c ← pci_set_cfgdata16 PCIR_DEVICE VIRTIO_DEV_GPU cfgdata;
  c ← pci_set_cfgdata16 PCIR_VENDOR VIRTIO_VENDOR c;
  c ← pci_set_cfgdata16 PCIR_REVID 1 c;
  c ← pci_set_cfgdata8 PCIR_CLASS PCIC_DISPLAY c;
  c ← pci_set_cfgdata8 PCIR_SUBCLASS PCIS_DISPLAY_VGA c;
  c ← pci_set_cfgdata16 PCIR_SUBDEV_0 VIRTIO_TYPE_GPU c;
  pci_set_cfgdata16 PCIR_SUBVEND_0 VIRTIO_VENDOR c.

(** ** Capabilities *)

Inductive cap_type := COMMON_CFG | ISR_CFG | DEVICE_CFG | NOTIFY_CFG | PCI_CFG.
(** [struct virtio_pci_cap]: [None] where nothing was assigned. *)
Record virtio_pci_cap := mkCap { cfg_type : cap_type; cap_bar : option Z; cap_offset : option Z; cap_length : option Z }.

Definition VIRTIO_MODERN_MEM_BAR_SIZE := VIRTIO_CAP_NOTIFY_OFFSET + VIRTIO_CAP_NOTIFY_SIZE.

Definition gpu_caps : list virtio_pci_cap :=
  [mkCap COMMON_CFG (Some 2) (Some VIRTIO_GPU_CAP_COMMON_OFFSET) (Some VIRTIO_GPU_CAP_COMMON_SIZE);
   mkCap ISR_CFG (Some 2) (Some VIRTIO_GPU_CAP_ISR_OFFSET) (Some VIRTIO_GPU_CAP_ISR_SIZE);
   mkCap DEVICE_CFG (Some 2) (Some VIRTIO_CAP_DEVICE_OFFSET) (Some VIRTIO_CAP_DEVICE_SIZE);
   mkCap NOTIFY_CFG (Some 2) (Some VIRTIO_CAP_NOTIFY_OFFSET) (Some VIRTIO_CAP_NOTIFY_SIZE);
   mkCap PCI_CFG None None None].

(** ** Lemmas *)

Lemma rejected_small n offset : rejected (Z.of_nat n) offset = false -> offset + Z.of_nat n <= 256.
Proof. unfold rejected, PCI_REGMAX. intros [H _]%orb_false_iff. apply Z.ltb_ge in H. lia. Qed.

Lemma splice_lookup dst off src i : (off + length src <= length dst)%nat ->
  splice dst off src !! i = if decide (off <= i < off + length src)%nat then src !! (i - off)%nat else dst !! i.
Proof.
  intros Hl. unfold splice. assert (Ht : length (take off dst) = off) by (rewrite length_take; lia).
  destruct (decide (off <= i < off + length src)%nat) as [Hi|Hi].
  - rewrite lookup_app_r, Ht by lia. by rewrite lookup_app_l by lia.
  - destruct (decide (i < off)%nat).
    + rewrite lookup_app_l by lia. by rewrite lookup_take_lt by lia.
    + rewrite lookup_app_r, Ht, lookup_app_r, lookup_drop by lia. f_equal. lia.
Qed.

Lemma splice_same dst off src : (off + length src <= length dst)%nat -> take (length src) (drop off (splice dst off src)) = src.
Proof.
  intros Hl. unfold splice. rewrite drop_app_length' by (rewrite length_take; lia). by rewrite take_app_length.
Qed.

Lemma splice_apart dst off src off' n : (off + length src <= length dst)%nat ->
  (off' + n <= off \/ off + length src <= off')%nat ->
  take n (drop off' (splice dst off src)) = take n (drop off' dst).
Proof.
  intros Hl Hd. apply list_eq. intros i. destruct (decide (i < n)%nat) as [Hi|Hi].
  - rewrite !lookup_take_lt, !lookup_drop, splice_lookup by done. rewrite decide_False by lia. done.
  - rewrite !lookup_take_ge by lia. done.
Qed.

(** A write that is accepted. *)
Lemma set_accepted n offset val d : length d = 256%nat -> 0 <= offset -> rejected (Z.of_nat n) offset = false ->
  pci_set_cfgdata n offset val d = Ret (splice d (Z.to_nat offset) (le_encode n val)) /\
  length (splice d (Z.to_nat offset) (le_encode n val)) = 256%nat.
Proof.
  intros Hd H0 Hr. unfold pci_set_cfgdata. rewrite Hr, (proj2 (Z.ltb_ge offset 0)) by done. split; [done|].
  rewrite length_splice; [done|]. rewrite length_le_encode, Hd. apply rejected_small in Hr. lia.
Qed.

Lemma get_set_apart n m offset offset' val d d' : length d = 256%nat -> 0 <= offset -> rejected (Z.of_nat n) offset = false ->
  pci_set_cfgdata n offset val d = Ret d' -> (offset' + Z.of_nat m <= offset \/ offset + Z.of_nat n <= offset') ->
  pci_get_cfgdata m offset' d' = pci_get_cfgdata m offset' d.
Proof.
  intros Hd H0 Hr E Ha. destruct (set_accepted n offset val d Hd H0 Hr) as [E' _]. rewrite E in E'. injection E' as ->.
  unfold pci_get_cfgdata. destruct (rejected (Z.of_nat m) offset'); [done|].
  destruct (Z.ltb_spec offset' 0); [done|]. apply rejected_small in Hr.
  rewrite splice_apart; [done|rewrite length_le_encode; lia..].
Qed.

Lemma get_set_same n offset val d d' : length d = 256%nat -> 0 <= offset -> rejected (Z.of_nat n) offset = false ->
  pci_set_cfgdata n offset val d = Ret d' -> pci_get_cfgdata n offset d' = Ret (wrap (8 * Z.of_nat n) val).
Proof.
  intros Hd H0 Hr E. destruct (set_accepted n offset val d Hd H0 Hr) as [E' _]. rewrite E in E'. injection E' as ->.
  unfold pci_get_cfgdata. rewrite Hr, (proj2 (Z.ltb_ge offset 0)) by done. f_equal. apply rejected_small in Hr.
  pose proof (splice_same d (Z.to_nat offset) (le_encode n val)) as Hs. rewrite length_le_encode in Hs.
  rewrite Hs by lia. apply le_decode_encode.
Qed.

(** ** Properties *)

(** The configuration space is memory: what is written at an offset is read back
    there cut to its width, and every access that does not overlap reads what it
    did before; an access that is not aligned or leaves the space is ignored and reads
    all ones. *)
Theorem cfgdata_roundtrip n offset val d :
  (n = 1 \/ n = 2 \/ n = 4)%nat -> length d = 256%nat -> 0 <= offset ->
  exists d', pci_set_cfgdata n offset val d = Ret d' /\ length d' = 256%nat /\
    (if rejected (Z.of_nat n) offset then d' = d /\ pci_get_cfgdata n offset d' = Ret (Z.ones (8 * Z.of_nat n))
     else pci_get_cfgdata n offset d' = Ret (wrap (8 * Z.of_nat n) val) /\
       forall m offset', offset' + Z.of_nat m <= offset \/ offset + Z.of_nat n <= offset' ->
         pci_get_cfgdata m offset' d' = pci_get_cfgdata m offset' d) /\
    (rejected (Z.of_nat n) offset = true <-> 256 < offset + Z.of_nat n \/ offset mod Z.of_nat n <> 0).
Proof.
  intros Hn Hd H0.
  assert (Hrej : rejected (Z.of_nat n) offset = true <-> 256 < offset + Z.of_nat n \/ offset mod Z.of_nat n <> 0).
  { unfold rejected, PCI_REGMAX. rewrite orb_true_iff, Z.ltb_lt, negb_true_iff, Z.eqb_neq.
    assert (Z.land offset (Z.of_nat n - 1) = offset mod Z.of_nat n) as ->.
    { destruct Hn as [-> | [-> | ->]]; [apply (Z.land_ones offset 0)|apply (Z.land_ones offset 1)|apply (Z.land_ones offset 2)]; lia. }
    destruct Hn as [-> | [-> | ->]]; lia. }
  destruct (rejected (Z.of_nat n) offset) eqn:Hr.
  - exists d. unfold pci_set_cfgdata, pci_get_cfgdata. by rewrite Hr.
  - destruct (set_accepted n offset val d Hd H0 Hr) as [E Hl]. eexists. split; [exact E|]. split; [done|].
    split; [|done]. split; [exact (get_set_same n offset val d _ Hd H0 Hr E)|].
    intros m offset'. exact (get_set_apart n m offset offset' val d _ Hd H0 Hr E).
Qed.

(** The identity from a blank space. *)
Lemma gpu_identity_run : exists c, gpu_identity (replicate 256 0) = Ret c /\ length c = 256%nat /\
  pci_get_cfgdata16 PCIR_VENDOR c = Ret VIRTIO_VENDOR /\ pci_get_cfgdata16 PCIR_DEVICE c = Ret VIRTIO_DEV_GPU /\
  pci_get_cfgdata8 PCIR_REVID c = Ret 1 /\ pci_get_cfgdata8 PCIR_CLASS c = Ret PCIC_DISPLAY /\
  pci_get_cfgdata8 PCIR_SUBCLASS c = Ret PCIS_DISPLAY_VGA /\
  pci_get_cfgdata16 PCIR_SUBDEV_0 c = Ret VIRTIO_TYPE_GPU /\ pci_get_cfgdata16 PCIR_SUBVEND_0 c = Ret VIRTIO_VENDOR.
Proof. eexists. split; [vm_compute; reflexivity|]. by vm_compute. Qed.

(** The handlers of a window: reading and writing its register [o]. *)
Definition window_read (t : cap_type) (o size : Z) : option (B Z) :=
  match t with
  | COMMON_CFG => Some (on_gpu (ask (fun g => virtio_common_cfg_read g o size)))
  | ISR_CFG => Some (on_gpu virtio_isr_cfg_read)
  | DEVICE_CFG => Some (on_gpu (ask (fun g => virtio_device_cfg_read g o size)))
  | _ => None
  end.
Definition window_write (t : cap_type) (o size value : Z) : option (B unit) :=
  match t with
  | COMMON_CFG => Some (on_gpu (virtio_common_cfg_write o size value))
  | DEVICE_CFG => Some (on_gpu (virtio_device_cfg_write o size value))
  | NOTIFY_CFG => Some (on_gpu (virtio_notify_cfg_write o))
  | _ => None
  end.

(** The five windows and the rest of the BAR do not overlap. *)
Lemma window_fits off base size o : off = base + o -> 0 <= o < size -> in_window off base size = true.
Proof. intros -> Ho. unfold in_window. rewrite andb_true_iff, Z.leb_le, Z.ltb_lt. lia. Qed.
Lemma window_misses off base size : off < base \/ base + size <= off -> in_window off base size = false.
Proof. intros H. unfold in_window. rewrite andb_false_iff, Z.leb_gt, Z.ltb_ge. lia. Qed.

Lemma cap_cases c : c ∈ gpu_caps ->
  c = mkCap COMMON_CFG (Some 2) (Some VIRTIO_GPU_CAP_COMMON_OFFSET) (Some VIRTIO_GPU_CAP_COMMON_SIZE) \/
  c = mkCap ISR_CFG (Some 2) (Some VIRTIO_GPU_CAP_ISR_OFFSET) (Some VIRTIO_GPU_CAP_ISR_SIZE) \/
  c = mkCap DEVICE_CFG (Some 2) (Some VIRTIO_CAP_DEVICE_OFFSET) (Some VIRTIO_CAP_DEVICE_SIZE) \/
  c = mkCap NOTIFY_CFG (Some 2) (Some VIRTIO_CAP_NOTIFY_OFFSET) (Some VIRTIO_CAP_NOTIFY_SIZE) \/
  c = mkCap PCI_CFG None None None.
Proof. unfold gpu_caps. rewrite !elem_of_cons, elem_of_nil. tauto. Qed.

Ltac caps :=
  unfold VIRTIO_GPU_CAP_COMMON_OFFSET, VIRTIO_GPU_CAP_COMMON_SIZE, VIRTIO_GPU_CAP_ISR_OFFSET, VIRTIO_GPU_CAP_ISR_SIZE,
    VIRTIO_CAP_DEVICE_OFFSET, VIRTIO_CAP_DEVICE_SIZE, VIRTIO_CAP_NOTIFY_OFFSET, VIRTIO_CAP_NOTIFY_SIZE,
    VIRTIO_GPU_VGA_IOPORT_OFFSET, VIRTIO_GPU_VGA_IOPORT_SIZE, VIRTIO_GPU_VGA_VBE_OFFSET, VIRTIO_GPU_VGA_VBE_SIZE,
    VIRTIO_GPU_EDID_SIZE in *.

(** Decide in which window an access is. *)
Ltac windows :=
  caps; rewrite andb_false_intro2 by (apply Z.leb_gt; lia);
  repeat (first [rewrite window_misses by lia | rewrite (window_fits _ _ _ _ eq_refl) by lia]).

(** A driver that follows the capabilities reaches the registers it means: the
    windows they give lie in the BAR and apart from each other, and an access at
    an offset in a window is handled by that window's handler at that offset. *)
Theorem caps_reach_handlers c base size :
  c ∈ gpu_caps -> cap_offset c = Some base -> cap_length c = Some size ->
  cap_bar c = Some 2 /\ 0 <= base /\ base + size <= VIRTIO_MODERN_MEM_BAR_SIZE /\
  (forall c' base' size', c' ∈ gpu_caps -> c' <> c -> cap_offset c' = Some base' -> cap_length c' = Some size' ->
     base + size <= base' \/ base' + size' <= base) /\
  forall o sz v, 0 <= o < size ->
    (forall m, window_read (cfg_type c) o sz = Some m -> virtio_gpu_read 2 (base + o) sz = m) /\
    (forall m, window_write (cfg_type c) o sz v = Some m -> virtio_gpu_write 2 (base + o) sz v = m).
Proof.
  intros Hc Hb Hs. assert (Hr : 0 <= base /\ base + size <= VIRTIO_MODERN_MEM_BAR_SIZE /\ cap_bar c = Some 2).
  { destruct (cap_cases c Hc) as [-> | [-> | [-> | [-> | ->]]]]; try done; injection Hb as <-; injection Hs as <-; by vm_compute. }
  split; [apply Hr|]. split; [apply Hr|]. split; [apply Hr|]. split.
  - intros c' base' size' Hc' Hn Hb' Hs'.
    destruct (cap_cases c Hc) as [-> | [-> | [-> | [-> | ->]]]]; try done; injection Hb as <-; injection Hs as <-;
    destruct (cap_cases c' Hc') as [-> | [-> | [-> | [-> | ->]]]]; try done; injection Hb' as <-; injection Hs' as <-; caps; lia.
  - intros o sz v Ho. split; intros m Hm.
    + unfold virtio_gpu_read. rewrite (proj2 (Z.eqb_neq 2 0)), Z.eqb_refl by done.
      destruct (cap_cases c Hc) as [-> | [-> | [-> | [-> | ->]]]]; try done; injection Hb as <-; injection Hs as <-; injection Hm as <-;
        windows; try (match goal with |- context [?b + o - ?b] => replace (b + o - b) with o by lia end); reflexivity.
    + unfold virtio_gpu_write. rewrite (proj2 (Z.eqb_neq 2 0)), Z.eqb_refl by done.
      destruct (cap_cases c Hc) as [-> | [-> | [-> | [-> | ->]]]]; try done; injection Hb as <-; injection Hs as <-; injection Hm as <-;
        windows; try (match goal with |- context [?b + o - ?b] => replace (b + o - b) with o by lia end); reflexivity.
Qed.

(** ** Examples *)

Definition blank_cfg : list Z := replicate 256 0.

Lemma cfgdata_roundtrip_witness :
  exists d', pci_set_cfgdata16 PCIR_SUBDEV_0 VIRTIO_TYPE_GPU blank_cfg = Ret d' /\
    pci_get_cfgdata16 PCIR_SUBDEV_0 d' = Ret VIRTIO_TYPE_GPU /\ pci_get_cfgdata16 PCIR_SUBVEND_0 d' = Ret 0.
Proof.
  destruct (cfgdata_roundtrip 2 PCIR_SUBDEV_0 VIRTIO_TYPE_GPU blank_cfg) as (d' & E & _ & (Hs & Ha) & _);
    [right; left; reflexivity|reflexivity|vm_compute; discriminate|].
  exists d'. split; [exact E|]. split; [exact Hs|]. apply Ha. left. vm_compute. discriminate.
Defined.

(** A negative offset passes the test. *)
Example negative_offset_oob : pci_set_cfgdata8 (-1) 0 blank_cfg = Stop OobAccess.
Proof. reflexivity. Qed.

Lemma caps_reach_handlers_witness :
  virtio_gpu_write 2 (VIRTIO_CAP_NOTIFY_OFFSET + 4) 2 1 = on_gpu (virtio_notify_cfg_write 4).
Proof.
  apply (caps_reach_handlers (mkCap NOTIFY_CFG (Some 2) (Some VIRTIO_CAP_NOTIFY_OFFSET) (Some VIRTIO_CAP_NOTIFY_SIZE))
    VIRTIO_CAP_NOTIFY_OFFSET VIRTIO_CAP_NOTIFY_SIZE) with (o := 4); [|reflexivity|reflexivity|vm_compute; intuition congruence|reflexivity].
  unfold gpu_caps. rewrite !elem_of_cons. tauto.
Defined.
