(* ===== verification/Startup.v ===== *)
(** * Starting and ending the program

    [set_shmem_args] and [run_backend] of [src/utils.c], [shmem_open] and [shmem_close]
    of [src/shmem_ivshm_ivshmem.c], [vos_backend_init], [vos_backend_run] and
    [vos_backend_deinit] of [src/virtio_over_shmem.c].  The event loop is the one
    of Mevent.v, the header and the device those of VosBackend.v.  What the host answers is an
    argument. *)
From S2P Require Import Prelude Shmem VirtQueue VirtioCore VosBackend Mevent MeventSpec.

#[local] Open Scope Z_scope.

Definition MAX_VECTORS := 8.
Definition MAX_IRQS := 8%nat.

(** ** utils.c *)

Definition starts_with (s prefix : string) : bool := String.prefix prefix s.

(** The one driver there is. *)
Inductive shmem_ops := ivshm_ivshmem_ops.

Record backend_info := mkInfo { shmem_devpath : option string; ops_of : option shmem_ops }.

(** The driver, or [None] for -1. *)
Definition infer_shmem_ops (devpath : option string) : option shmem_ops :=
  match devpath with
  | None => None
  | Some s => if starts_with s "/dev/ivshm"%string then Some ivshm_ivshmem_ops else None
  end.

(** The path is fixed; the driver is the one that was chosen, or inferred. *)
Definition set_shmem_args (info : backend_info) : outcome backend_info :=
  let path := Some "/dev/ivshm0.default"%string in
  match ops_of info with
  | Some o => Ret (mkInfo path (Some o))
  | None => match infer_shmem_ops path with Some o => Ret (mkInfo path (Some o)) | None => Stop ProcessExit end
  end.

(** ** shmem_ivshm_ivshmem.c *)

(** [open] of a path; [mmap] of the registers and of the memory; the request for the
    size; the request to bind a vector to a descriptor; the register [ivpos]; the
    content of the memory. *)
Record ivshm := mkIvshm {
  open_path : string -> Z; mmap_regs : bool; mmio_size : option Z; mmap_mem : bool;
  add_listener : Z -> Z -> bool; ivpos : Z; content : gmap Z Z
}.

Fixpoint add_listeners (v : ivshm) (i : Z) (fds : list Z) : outcome unit :=
  match fds with
  | [] => Ret tt
  | fd :: fds => if add_listener v i fd then add_listeners v (i + 1) fds else Stop ProcessExit
  end.

(** The mapping, and the descriptor of the registers, which is closed at the end. *)
Definition shmem_open (v : ivshm) (devpath : string) (evt_fds : list Z) (nr_ent_fds : Z) : outcome (shmem_info * Z) :=
  match String.index 0 "."%string devpath with
  | None => Stop ProcessExit
  | Some idx =>
    if (64 <=? Z.of_nat idx) then Stop OobAccess
    else
      let ivshm_fd := open_path v (String.substring 0 idx devpath) in
      if ivshm_fd <? 0 then Stop ProcessExit
      else
        let iregion_fd := open_path v devpath in
        if iregion_fd <? 0 then Stop ProcessExit
        else if negb (mmap_regs v) then Stop ProcessExit
        else
          match mmio_size v with
          | None => Stop ProcessExit
          | Some size =>
            if negb (mmap_mem v) then Stop ProcessExit
            else
              let nr_vecs := Z.min MAX_VECTORS nr_ent_fds in
              _ ← add_listeners v 0 (take (Z.to_nat nr_vecs) evt_fds);
              Ret (mkShmem iregion_fd (u64 size) (s32 (ivpos v)) (-1) nr_vecs (content v) [], ivshm_fd)
          end
  end.

(** ** virtio_over_shmem.c *)

Definition fn_handle_requests := 2%nat.

(** The host: [epoll_create1]; the [i]-th [eventfd] with its [errno]; the shared memory; for the
    [i]-th event the address [calloc] gives and what [epoll_ctl] says; [pipe]; the same for
    the event of the pipe. *)
Record boot_host := mkBoot {
  bh_epoll : Z; bh_eventfd : nat -> Z * Z; bh_ivshm : ivshm;
  bh_calloc : nat -> option nat; bh_epoll_add : nat -> Z;
  bh_pipe : option (Z * Z); bh_pipe_calloc : option nat; bh_pipe_add : Z
}.

(** ** The pipe stays *)

Definition keeps_pipe {A} (m : M mev A) : Prop := forall s a s', m s = Ret (a, s') -> mevent_pipefd s' = mevent_pipefd s.

Lemma host_keeps_ret {A} (a : A) : keeps_pipe (mret a).
Proof. intros s ? ? E. by injection E as <- <-. Qed.
Lemma keeps_halt {A} e : keeps_pipe (halt e : M mev A).
Proof. by intros s ? ?. Qed.
Lemma keeps_get : keeps_pipe get.
Proof. intros s ? ? E. by injection E as <- <-. Qed.
Lemma host_keeps_bind {A B} (m : M mev A) (f : A -> M mev B) : keeps_pipe m -> (forall a, keeps_pipe (f a)) -> keeps_pipe (m ≫= f).
Proof.
  intros Hm Hf s b s'. unfold mbind, M_bind. destruct (m s) as [[a s1]|] eqn:E; [|done].
  intros E'. by rewrite (Hf _ _ _ _ E'), (Hm _ _ _ E).
Qed.
Lemma keeps_modify f : (forall s, mevent_pipefd (f s) = mevent_pipefd s) -> keeps_pipe (modify f).
Proof. intros Hf s a s' E. by injection E as _ <-. Qed.
Lemma keeps_deref p : keeps_pipe (deref p).
Proof. intros s a s'. unfold deref. destruct (heap s !! p); [|done]. by intros [= _ <-]. Qed.
Lemma keeps_list_remove p : keeps_pipe (list_remove p).
Proof. intros s a s'. unfold list_remove. do 2 (case_match; [by intros [= _ <-]|]). done. Qed.
Lemma keeps_epoll_add answer fd ev p : keeps_pipe (epoll_ctl_add answer fd ev p).
Proof. intros s a s'. unfold epoll_ctl_add. repeat case_match; by intros [= _ <-]. Qed.
Lemma keeps_epoll_del fd : keeps_pipe (epoll_ctl_del fd).
Proof. intros s a s'. unfold epoll_ctl_del. repeat case_match; by intros [= _ <-]. Qed.
Lemma keeps_notify b : keeps_pipe (mevent_notify b).
Proof. intros s a s'. unfold mevent_notify. repeat case_match; by intros [= _ <-]. Qed.
Lemma keeps_read_pipe n : keeps_pipe (read_pipe n).
Proof. intros s a s'. unfold read_pipe. case_match; by intros [= _ <-]. Qed.

Create HintDb pipe discriminated.
#[export] Hint Resolve host_keeps_ret keeps_halt keeps_get keeps_deref keeps_list_remove keeps_epoll_add keeps_epoll_del keeps_notify
  keeps_read_pipe : pipe.
Ltac keep_pipe :=
  repeat first [ match goal with |- forall _, _ => intro end | by auto with pipe | apply host_keeps_bind | by apply keeps_modify | case_match ].

Lemma keeps_read : keeps_pipe mevent_pipe_read.
Proof.
  intros s. unfold mevent_pipe_read. generalize (S (Z.to_nat (pipe s / MEVENT_MAX))). intros n. revert s.
  change (keeps_pipe (pipe_read_loop n)). induction n as [|n IH]; cbn [pipe_read_loop]; keep_pipe.
Qed.
Lemma keeps_handle p : keeps_pipe (handle_run p).
Proof. unfold handle_run, call_run, log. keep_pipe. apply keeps_read. Qed.
Lemma keeps_finish p : keeps_pipe (finish_event p).
Proof. unfold finish_event, run_teardown, free, close, log, when. keep_pipe. Qed.
#[export] Hint Resolve keeps_read keeps_finish : pipe.
Lemma keeps_drain : keeps_pipe mevent_drain_del_list.
Proof.
  unfold mevent_drain_del_list. apply host_keeps_bind; [apply keeps_get|]. intros s. generalize (del_head s). intros l.
  induction l as [|p l IH]; cbn [drain_each]; keep_pipe.
Qed.

Lemma step_pipe y y' : mev_step y y' -> mevent_pipefd (st y') = mevent_pipefd (st y).
Proof.
  assert (Hreg : forall c an a r, keeps_pipe (add_register c an a r)) by (unfold add_register, free; keep_pipe).
  assert (Hdel : forall b p c, keeps_pipe (mevent_delete_event b p c)).
  { unfold mevent_delete_event, delete_mark, store, delete_unregister, mevent_add_to_del_list. keep_pipe. }
  assert (Hck : forall p, keeps_pipe (handle_check p)) by (unfold handle_check; keep_pipe).
  assert (Hfind : forall p, keeps_pipe (enable_find p)) by (intros p s a s' E; by injection E as _ <-).
  assert (Hen : forall an p, keeps_pipe (enable_register an p)) by (unfold enable_register; keep_pipe).
  assert (Hfd : forall p, keeps_pipe (disable_fd p)) by (unfold disable_fd; keep_pipe).
  assert (Hdis : forall fd, keeps_pipe (disable_unregister fd)) by (unfold disable_unregister; keep_pipe).
  assert (Hun : forall p, keeps_pipe (delete_unregister p)) by (unfold delete_unregister; keep_pipe).
  assert (Hmk : forall p c, keeps_pipe (delete_mark p c)) by (unfold delete_mark, store; keep_pipe).
  intros H. destruct H; cbn [st]; try done;
    match goal with
    | E : handle_check _ _ = _ |- _ => exact (Hck _ _ _ _ E)
    | E : handle_run _ _ = _ |- _ => exact (keeps_handle _ _ _ _ E)
    | E : mevent_drain_del_list _ = _ |- _ => exact (keeps_drain _ _ _ E)
    | E : mevent_delete_event _ _ _ _ = _ |- _ => exact (Hdel _ _ _ _ _ _ E)
    | E : add_register _ _ _ _ _ = _ |- _ => exact (Hreg _ _ _ _ _ _ _ E)
    | E : enable_find _ _ = _ |- _ => exact (Hfind _ _ _ _ E)
    | E : enable_register _ _ _ = _ |- _ => exact (Hen _ _ _ _ _ E)
    | E : disable_fd _ _ = _ |- _ => exact (Hfd _ _ _ _ E)
    | E : disable_unregister _ _ = _ |- _ => exact (Hdis _ _ _ _ E)
    | E : list_remove _ _ = _ |- _ => exact (keeps_list_remove _ _ _ _ E)
    | E : delete_mark _ _ _ = _ |- _ => exact (Hmk _ _ _ _ _ E)
    | E : delete_unregister _ _ = _ |- _ => exact (Hun _ _ _ _ E)
    | E : mevent_notify _ _ = _ |- _ => exact (keeps_notify _ _ _ _ E)
    | E : _ = Ret (_, ?s') |- mevent_pipefd ?s' = _ => by injection E as <-
    end.
Qed.

Section Backend.
Context {D : Type} `{!VirtioDev D}.
(** [vdev_init] and [vdev_deinit] of the device, and the identifiers it leaves in the
    configuration space. *)
Context (vdev_init : shmem_info -> outcome (option D)) (vdev_deinit : option (D -> outcome D)) (subdev subvend : Z).

(** The globals of the file and of the event loop.  [info]: the mapping while it
    is there; the device has it from its initialisation on. *)
Record backend := mkBackend {
  evs : mev; evt_fds : list Z; mevents : list (option nat); info : option shmem_info; bdev : option D
}.
#[export] Instance backend_eta : Settable backend := fun b =>
  mkBackend (evs b) (evt_fds b) (mevents b) (info b) (bdev b).

Definition on_evs {A} (m : M mev A) : M backend A := fun b =>
  match m (evs b) with Ret (a, e) => Ret (a, b <| evs := e |>) | Stop e => Stop e end.

(** [for (i = 0; i < MAX_IRQS; i++)], left with what [f] gives. *)
Fixpoint each_irq {A} (l : list nat) (f : nat -> M backend (option A)) : M backend (option A) :=
  match l with
  | [] => mret None
  | i :: l => r ← f i; match r with Some a => mret (Some a) | None => each_irq l f end
  end.
Definition irqs : list nat := seq 0 MAX_IRQS.

Definition evt_fd (i : nat) : M backend Z :=
  b ← get; match evt_fds b !! i with Some fd => mret fd | None => halt OobAccess end.
Definition set_evt_fd (i : nat) (fd : Z) : M backend unit := modify (fun b => b <| evt_fds ::= <[i := fd]> |>).

Definition close_evt_fds : M backend (option unit) :=
  each_irq irqs (fun i => fd ← evt_fd i; _ ← (if fd =? 0 then mret tt else on_evs (close fd)); mret None).

(** Before the loop has begun no thread is the one that dispatches. *)
Definition deregister_mevents : M backend (option unit) :=
  each_irq irqs (fun i =>
    b ← get;
    _ ← (match mevents b !! i with Some (Some p) => _ ← on_evs (mevent_delete false p); mret tt | _ => mret tt end);
    mret None).

Definition request_args (fd : Z) : add_args := mkArgs fd EVF_READ (Some fn_handle_requests) 0 None 0.

(** One vector: its event, or its descriptor is closed.  [Some] when there is no event. *)
Definition register_irq (h : boot_host) (i : nat) : M backend (option unit) :=
  b ← get;
  if Z.of_nat i <? default 0 (nr_vecs <$> info b) then
    fd ← evt_fd i;
    p ← on_evs (mevent_add (bh_calloc h i) (bh_epoll_add h i) (request_args fd));
    _ ← modify (fun b => b <| mevents ::= <[i := p]> |>);
    mret (match p with None => Some tt | Some _ => None end)
  else
    fd ← evt_fd i; _ ← on_evs (close fd); _ ← set_evt_fd i 0; mret None.

(** [ret] of the call of [open] is 0, and is what a failure of [mevent_add] returns. *)
Definition vos_backend_init (h : boot_host) (devpath : string) : M backend Z :=
  if bh_epoll h <? 0 then mret (-1)
  else
    failed ← each_irq irqs (fun i =>
      let '(fd, errno) := bh_eventfd h i in
      _ ← set_evt_fd i fd; mret (if fd <? 0 then Some errno else None));
    match failed with
    | Some errno => _ ← close_evt_fds; mret errno
    | None =>
      b ← get;
      '(s, ivshm_fd) ← lift (shmem_open (bh_ivshm h) devpath (evt_fds b) (Z.of_nat MAX_IRQS));
      _ ← on_evs (close ivshm_fd);
      _ ← modify (fun b => b <| info := Some s |>);
      failed ← each_irq irqs (register_irq h);
      match failed with
      | Some _ => _ ← deregister_mevents; _ ← close_evt_fds; mret 0
      | None =>
        d ← lift (VosBackend.vos_backend_init vdev_init subdev subvend s);
        match d with
        | None => _ ← deregister_mevents; _ ← close_evt_fds; mret (-1)
        | Some d => _ ← modify (fun b => b <| bdev := Some d |>); mret 0
        end
      end
    end.

(** [mevent_dispatch] up to its loop, which is [mev_step]. *)
Definition mevent_dispatch (h : boot_host) : M backend unit :=
  match bh_pipe h with
  | None => halt ProcessExit
  | Some pipefd =>
    _ ← on_evs (modify (fun s => s <| mevent_pipefd := pipefd |>));
    p ← on_evs (mevent_add (bh_pipe_calloc h) (bh_pipe_add h) (pipe_args pipefd));
    match p with None => halt ProcessExit | Some _ => mret tt end
  end.

(** [munmap], and the descriptor; the device is left with a mapping of size 0. *)
Definition unmapped (d : D) : D := set_vmctx (fst (Shmem.shmem_close (vmctx d) true)) d.
Definition shmem_close : M backend unit :=
  b ← get;
  match info b with
  | None => mret tt
  | Some s =>
    _ ← modify (fun b => b <| info := None |> <| bdev ::= option_map unmapped |>);
    on_evs (close (mem_fd s))
  end.

Definition mevent_deinit (epoll_fd : Z) : M mev unit :=
  _ ← mevent_destroy;
  _ ← close epoll_fd;
  s ← get;
  if snd (mevent_pipefd s) =? 0 then mret tt else close (snd (mevent_pipefd s)).

(** The thread is the one that has dispatched. *)
Definition deinit_irq (i : nat) : M backend (option unit) :=
  b ← get;
  _ ← (match mevents b !! i with Some (Some p) => on_evs (mevent_delete true p) | _ => halt NullDeref end);
  fd ← evt_fd i; _ ← on_evs (close fd); mret None.

Definition vos_backend_deinit (h : boot_host) : M backend unit :=
  _ ← each_irq [0; 1]%nat deinit_irq;
  _ ← shmem_close;
  _ ← on_evs (mevent_deinit (bh_epoll h));
  b ← get;
  match bdev b, vdev_deinit with
  | None, _ => halt NullDeref
  | Some _, None => mret tt
  | Some d, Some f => d ← lift (f d); modify (fun b => b <| bdev := Some d |>)
  end.

(** ** run_backend *)

(** [hook] is [hook_before_init] of the caller; what happens between start and end is [serve]. *)
Definition run_backend (h : boot_host) (i : backend_info) (hook serve : M backend unit) : M backend unit :=
  i ← lift (set_shmem_args i);
  _ ← hook;
  match shmem_devpath i with
  | None => halt NullDeref
  | Some path =>
    ret ← vos_backend_init h path;
    if negb (ret =? 0) then halt ProcessExit
    else
      _ ← mevent_dispatch h;
      _ ← serve;
      vos_backend_deinit h
  end.

Definition boot : backend := mkBackend (no_events (0, 0)) (replicate MAX_IRQS 0) (replicate MAX_IRQS None) None None.

(** ** Starting *)

Section Start.
Context (h : boot_host) (path : string) (ptr : nat -> nat) (s0 : shmem_info) (ifd : Z) (pipefd : Z * Z).

Definition fdn (i : nat) : Z := fst (bh_eventfd h i).

(** A host that refuses nothing, with distinct descriptors and addresses. *)
Record good_host : Prop := {
  g_epoll : 0 <= bh_epoll h;
  g_fd : forall i, (i < MAX_IRQS)%nat -> 0 < fdn i;
  g_fd_inj : forall i j, (i < MAX_IRQS)%nat -> (j < MAX_IRQS)%nat -> fdn i = fdn j -> i = j;
  g_calloc : forall i, (i < MAX_IRQS)%nat -> bh_calloc h i = Some (ptr i) /\ ptr i <> pipev /\ bh_epoll_add h i = 0;
  g_ptr_inj : forall i j, (i < MAX_IRQS)%nat -> (j < MAX_IRQS)%nat -> ptr i = ptr j -> i = j;
  g_shm : shmem_open (bh_ivshm h) path (map fdn irqs) (Z.of_nat MAX_IRQS) = Ret (s0, ifd);
  g_pipe : bh_pipe h = Some pipefd /\ 0 <= fst pipefd /\ snd pipefd <> 0 /\ bh_pipe_calloc h = Some pipev /\ bh_pipe_add h = 0;
  g_pipe_fd : forall i, (i < MAX_IRQS)%nat -> fdn i <> fst pipefd;
  g_mem_fd : mem_fd s0 <> fst pipefd
}.
Context (G : good_host).

Lemma elem_irqs i : i ∈ irqs <-> (i < MAX_IRQS)%nat.
Proof. unfold irqs. rewrite elem_of_seq. lia. Qed.

Lemma open_fds_run l : forall b, (forall i, i ∈ l -> i ∈ irqs) ->
  each_irq l (fun i => let '(fd, errno) := bh_eventfd h i in
    _ ← set_evt_fd i fd; mret (if fd <? 0 then Some errno else None)) b =
  Ret (None, b <| evt_fds ::= fun fs => foldl (fun fs i => <[i := fdn i]> fs) fs l |>).
Proof.
  induction l as [|i l IH]; intros b Hl; [by destruct b|]. cbn [each_irq foldl].
  assert (Hi : 0 < fdn i) by (apply (g_fd G), elem_irqs, Hl; by left). unfold fdn in Hi |- *.
  destruct (bh_eventfd h i) as [fd errno] eqn:E. cbn [fst] in *. unfold mbind, M_bind, set_evt_fd, modify, mret, M_ret.
  rewrite (proj2 (Z.ltb_ge fd 0)) by lia. unfold mbind, M_bind, set_evt_fd, modify, mret, M_ret in IH.
  rewrite IH by (intros j Hj; apply Hl; by right). done.
Qed.

(** The events of the vectors [l]. *)
Definition irq_event (i : nat) : mevent := new_event (request_args (fdn i)) fn_handle_requests.
Record watched (l : list nat) (s : mev) : Prop := {
  w_heap : forall p e, heap s !! p = Some e <-> exists i, i ∈ l /\ p = ptr i /\ e = irq_event i;
  w_global : global_head s = rev (map ptr l);
  w_del : del_head s = [];
  w_epoll : forall fd x, epoll s !! fd = Some x <-> exists i, i ∈ l /\ fd = fdn i /\ x = (EPOLLIN, ptr i);
  w_pipe : pipe s = 0
}.

Lemma find_none fd type l : forall s, (forall p, p ∈ l -> exists e, heap s !! p = Some e /\ me_fd e <> fd) ->
  find_tuple fd type l s = Ret (None, s).
Proof.
  induction l as [|p l IH]; intros s Hl; [done|]. destruct (Hl p) as (e & He & Hn); [by left|]. cbn [find_tuple].
  unfold mbind, M_bind. rewrite (deref_run _ _ _ He), bool_decide_eq_false_2 by (by intros [? _]).
  apply IH. intros q Hq. apply Hl. by right.
Qed.

Lemma watch_step i l s : watched l s -> (forall j, j ∈ l -> j ∈ irqs) -> i ∈ irqs -> i ∉ l ->
  exists s', mevent_add (bh_calloc h i) (bh_epoll_add h i) (request_args (fdn i)) s = Ret (Some (ptr i), s') /\
    watched (l ++ [i]) s' /\ mevent_pipefd s' = mevent_pipefd s /\ acts s' = acts s.
Proof.
  intros W Hl Hi Hil. destruct (g_calloc G i) as (-> & _ & ->); [by apply elem_irqs|].
  assert (Hfd : forall j, j ∈ l -> fdn j <> fdn i /\ ptr j <> ptr i).
  { intros j Hj. assert (j <> i) by (by intros ->). split; intros E.
    - apply (g_fd_inj G) in E; [done|apply elem_irqs; by apply Hl|by apply elem_irqs].
    - apply (g_ptr_inj G) in E; [done|apply elem_irqs; by apply Hl|by apply elem_irqs]. }
  pose proof (g_fd G i (proj1 (elem_irqs i) Hi)) as Hpos.
  exists (added (ptr i) (request_args (fdn i)) fn_handle_requests s). split_and!; try done.
  - rewrite (add_fresh _ fn_handle_requests); try done; [cbn; lia|..].
    + apply eq_None_not_Some. intros [e He]. apply (w_heap _ _ W) in He as (j & Hj & E & _). by apply (proj2 (Hfd j Hj)).
    + apply eq_None_not_Some. intros [x Hx]. apply (w_epoll _ _ W) in Hx as (j & Hj & E & _). by apply (proj1 (Hfd j Hj)).
    + unfold add_find, mbind, M_bind, Prelude.get. apply find_none. intros p Hp. rewrite (w_global _ _ W) in Hp.
      apply list_elem_of_In, in_rev, list_elem_of_In, list_elem_of_fmap in Hp as (j & -> & Hj). exists (irq_event j). split; [|by apply Hfd].
      apply (w_heap _ _ W). by exists j.
  - split; cbn [heap global_head del_head epoll pipe added].
    + intros p e. destruct (decide (p = ptr i)) as [->|Hp].
      * rewrite lookup_insert_eq. split.
        -- intros [= <-]. exists i. split; [|done]. apply elem_of_app. right. by left.
        -- intros (j & Hj & Ej & ->). apply elem_of_app in Hj as [Hj|Hj]; [by destruct (proj2 (Hfd j Hj))|].
           apply list_elem_of_singleton in Hj as ->. done.
      * rewrite lookup_insert_ne, (w_heap _ _ W) by done. split; intros (j & Hj & Ej & ->); exists j.
        -- split; [apply elem_of_app; by left|done].
        -- apply elem_of_app in Hj as [Hj|Hj]; [done|]. apply list_elem_of_singleton in Hj as ->. done.
    + by rewrite map_app, rev_app_distr, (w_global _ _ W).
    + apply W.
    + intros fd x. cbn [a_fd request_args]. destruct (decide (fd = fdn i)) as [->|Hf].
      * rewrite lookup_insert_eq. split.
        -- intros [= <-]. exists i. split; [|done]. apply elem_of_app. right. by left.
        -- intros (j & Hj & Ej & ->). apply elem_of_app in Hj as [Hj|Hj]; [by destruct (proj1 (Hfd j Hj))|].
           apply list_elem_of_singleton in Hj as ->. done.
      * rewrite lookup_insert_ne, (w_epoll _ _ W) by done. split; intros (j & Hj & Ej & ->); exists j.
        -- split; [apply elem_of_app; by left|done].
        -- apply elem_of_app in Hj as [Hj|Hj]; [done|]. apply list_elem_of_singleton in Hj as ->. done.
    + apply W.
Qed.

Lemma register_run l : forall pre b, watched pre (evs b) -> NoDup (pre ++ l) -> (forall j, j ∈ pre ++ l -> j ∈ irqs) ->
  nr_vecs <$> info b = Some 8 -> evt_fds b = map fdn irqs ->
  exists e, each_irq l (register_irq h) b =
      Ret (None, b <| evs := e |> <| mevents ::= fun ms => foldl (fun ms i => <[i := Some (ptr i)]> ms) ms l |>) /\
    watched (pre ++ l) e /\ mevent_pipefd e = mevent_pipefd (evs b) /\ acts e = acts (evs b).
Proof.
  induction l as [|i l IH]; intros pre b W Hn Hi Hv Hf.
  { exists (evs b). rewrite app_nil_r. split; [by destruct b|done]. }
  assert (Hii : i ∈ irqs) by (apply Hi, elem_of_app; right; by left).
  destruct (watch_step i pre (evs b)) as (e & E & W' & P' & A'); [done|intros j Hj; apply Hi, elem_of_app; by left|done| |].
  { intros Hp. apply NoDup_app in Hn as (_ & H & _). apply (H i Hp). by left. }
  destruct (IH (pre ++ [i]) (b <| evs := e |> <| mevents ::= <[i := Some (ptr i)]> |>)) as (e' & E' & W2 & P2 & A2); try done.
  { by rewrite <- app_assoc. }
  { intros j. rewrite <- app_assoc. apply Hi. }
  exists e'. rewrite <- app_assoc in W2. split; [|split; [done|split; [by rewrite P2|by rewrite A2]]].
  cbn [each_irq foldl]. unfold mbind at 1, M_bind at 1. unfold register_irq at 1.
  assert (Hlt : Z.of_nat i <? default 0 (nr_vecs <$> info b) = true).
  { rewrite Hv. cbn. apply Z.ltb_lt. apply elem_irqs in Hii. unfold MAX_IRQS in Hii. lia. }
  assert (Hfi : evt_fds b !! i = Some (fdn i)).
  { rewrite Hf. apply elem_irqs in Hii. unfold irqs. by rewrite list_lookup_fmap, lookup_seq_lt. }
  unfold mbind at 1, M_bind at 1, Prelude.get at 1. rewrite Hlt. unfold evt_fd, mbind, M_bind, Prelude.get. rewrite Hfi.
  unfold mret, M_ret, on_evs. rewrite E. unfold modify. cbn [mret]. rewrite E'. done.
Qed.

Definition all_fds : list Z := map fdn irqs.
Definition all_ptrs : list (option nat) := map (fun i => Some (ptr i)) irqs.

Lemma fill_all {A} (f : nat -> A) x : foldl (fun l i => <[i := f i]> l) (replicate MAX_IRQS x) irqs = map f irqs.
Proof. reflexivity. Qed.

Lemma no_events_watched : watched [] (no_events (0, 0)).
Proof.
  split; try done; cbn; intros x y; rewrite lookup_empty; split; try done; intros (i & Hi & _); by apply elem_of_nil in Hi.
Qed.

Lemma nr_vecs_all : nr_vecs s0 = 8.
Proof.
  pose proof (g_shm G) as Hs. unfold shmem_open in Hs.
  repeat (case_match; try done). revert Hs. destruct (add_listeners _ _ _) as [[]|]; [|done].
  cbn [mbind outcome_bind]. by intros [= <- _].
Qed.

(** The state of the program when the loop begins. *)
Record started (d : D) (b : backend) : Prop := {
  st_bdev : bdev b = Some d;
  st_info : info b = Some s0;
  st_fds : evt_fds b = all_fds;
  st_mevents : mevents b = all_ptrs;
  st_acts : acts (evs b) = [Close ifd];
  st_pipe : mevent_pipefd (evs b) = pipefd;
  st_watched : forall i, (i < MAX_IRQS)%nat ->
    epoll (evs b) !! fdn i = Some (EPOLLIN, ptr i) /\ heap (evs b) !! ptr i = Some (irq_event i) /\ ptr i ∈ global_head (evs b);
  st_inv : sys_inv (mkSys (evs b) Waiting [])
}.

Lemma init_run d : VosBackend.vos_backend_init vdev_init subdev subvend s0 = Ret (Some d) ->
  exists e, vos_backend_init h path boot = Ret (0, mkBackend e all_fds all_ptrs (Some s0) (Some d)) /\
    watched irqs e /\ acts e = [Close ifd].
Proof.
  intros Hd. pose proof nr_vecs_all as Hnr.
  unfold vos_backend_init. rewrite (proj2 (Z.ltb_ge (bh_epoll h) 0)) by apply G.
  unfold mbind at 1, M_bind at 1. rewrite open_fds_run by done.
  set (b1 := boot <| evt_fds ::= _ |>). assert (Hb1 : b1 = mkBackend (no_events (0, 0)) all_fds (replicate MAX_IRQS None) None None)
    by reflexivity. rewrite Hb1. clear b1 Hb1.
  unfold mbind at 1, M_bind at 1, Prelude.get at 1. cbn [evt_fds]. unfold mbind at 1, M_bind at 1, lift at 1.
  unfold all_fds. rewrite (g_shm G). cbn [mbind outcome_bind fst snd].
  unfold mbind at 1, M_bind at 1, on_evs at 1. cbn [evs].
  set (e1 := mkMev ∅ [] [] ∅ 0 (0, 0) [Close ifd]).
  assert (Hc : close ifd (no_events (0, 0)) = Ret (tt, e1)).
  { unfold close, mbind, M_bind, modify, log, no_events, e1. cbn. unfold modify, field_upd. cbn. by rewrite delete_empty. }
  rewrite Hc. unfold mbind at 1, M_bind at 1, modify at 1. 
  set (b2 := mkBackend e1 (map fdn irqs) (replicate MAX_IRQS None) (Some s0) None).
  destruct (register_run irqs [] b2) as (e & E & W & _ & A); try done.
  { destruct no_events_watched as [W1 W2 W3 W4 W5]. by split. }
  { apply NoDup_seq. }
  { cbn. by rewrite Hnr. }
  exists e. split; [|split; [done|by rewrite A]].
  unfold mbind at 1, M_bind at 1.
  match goal with |- context [each_irq irqs (register_irq h) ?b] => change b with b2 end.
  rewrite E. unfold lift, mbind, M_bind. rewrite Hd. cbn [mbind outcome_bind]. reflexivity.
Qed.

Lemma watched_member e p : watched irqs e -> p ∈ global_head e <-> exists i, i ∈ irqs /\ p = ptr i.
Proof.
  intros W. rewrite (w_global _ _ W), list_elem_of_In, <- in_rev, <- list_elem_of_In, list_elem_of_fmap.
  split; intros (i & H1 & H2); by exists i.
Qed.

Lemma watched_owns e : watched irqs e -> owns (heap e) (global_head e).
Proof.
  intros W. split.
  - rewrite (w_global _ _ W). apply NoDup_ListNoDup, List.NoDup_rev, NoDup_ListNoDup.
    apply (NoDup_fmap_2_strong ptr); [|apply NoDup_seq]. intros i j Hi Hj. apply (g_ptr_inj G); by apply elem_irqs.
  - intros p. rewrite watched_member by done. split.
    + intros [x Hx]. apply (w_heap _ _ W) in Hx as (i & Hi & -> & _). by exists i.
    + intros (i & Hi & ->). exists (irq_event i). apply (w_heap _ _ W). by exists i.
Qed.

Lemma elem_ids e p q : watched irqs e -> q ∈ ids (added p (pipe_args pipefd) fn_mevent_pipe_read e) [] <-> q ∈ p :: global_head e.
Proof. intros W. unfold ids. cbn. by rewrite (w_del _ _ W), app_nil_r. Qed.

Definition with_pipe (e : mev) : mev := e <| mevent_pipefd := pipefd |>.
Definition dispatching (e : mev) : mev := added pipev (pipe_args pipefd) fn_mevent_pipe_read (with_pipe e).

Lemma irq_not_pipe i : i ∈ irqs -> ptr i <> pipev /\ fdn i <> fst pipefd.
Proof. intros Hi%elem_irqs. split; [apply (g_calloc G i Hi)|by apply (g_pipe_fd G)]. Qed.

Lemma dispatch_run b : watched irqs (evs b) -> mevent_dispatch h b = Ret (tt, b <| evs := dispatching (evs b) |>).
Proof.
  intros W. destruct (g_pipe G) as (Hp & Hfd & _ & Hc & Ha). unfold mevent_dispatch. rewrite Hp, Hc, Ha.
  unfold mbind, M_bind, on_evs, modify. cbn [evs].
  match goal with |- context [mevent_add _ _ _ ?x] => change x with (with_pipe (evs b)) end.
  rewrite (add_fresh _ fn_mevent_pipe_read); try done.
  - apply eq_None_not_Some. intros [x Hx]. change (heap (with_pipe (evs b))) with (heap (evs b)) in Hx.
    apply (w_heap _ _ W) in Hx as (i & Hi & E & _). destruct (irq_not_pipe i Hi); congruence.
  - apply eq_None_not_Some. intros [x Hx]. change (epoll (with_pipe (evs b))) with (epoll (evs b)) in Hx.
    apply (w_epoll _ _ W) in Hx as (i & Hi & E & _). cbn in E; destruct (irq_not_pipe i Hi); congruence.
  - unfold add_find, mbind, M_bind, Prelude.get. apply find_none. intros p Hin.
    apply (watched_member (evs b) p W) in Hin as (i & Hi & ->). exists (irq_event i). split.
    + apply (w_heap _ _ W). by exists i.
    + by apply irq_not_pipe.
Qed.

Lemma dispatching_inv e : watched irqs e -> mev_inv (dispatching e) Waiting [].
Proof.
  intros W. pose proof (watched_owns e W) as Ho. destruct (g_pipe G) as (_ & Hfd & Hp & _).
  assert (Hnone : heap e !! pipev = None).
  { apply eq_None_not_Some. intros [x Hx]. apply (w_heap _ _ W) in Hx as (i & Hi & E & _). destruct (irq_not_pipe i Hi); congruence. }
  split; cbn [dispatching added with_pipe heap epoll global_head del_head pipe mevent_pipefd ids flat_map].
  - apply (owns_perm _ (pipev :: global_head e)); [|by apply owns_insert]. unfold ids. cbn.
    by rewrite (w_del _ _ W), app_nil_r.
  - intros fd ev p Hx. rewrite app_nil_r. destruct (decide (fd = fst pipefd)) as [->|Hne].
    + cbn in Hx. rewrite lookup_insert_eq in Hx. injection Hx as <- <-. split; [|by left].
      eexists. by rewrite lookup_insert_eq.
    + cbn in Hx. rewrite lookup_insert_ne in Hx by done. apply (w_epoll _ _ W) in Hx as (i & Hi & -> & [= -> ->]). split.
      * exists (irq_event i). rewrite lookup_insert_ne by (intros E; destruct (irq_not_pipe i Hi); congruence). split; [|done].
        apply (w_heap _ _ W). by exists i.
      * right. apply (watched_member e); [done|by exists i].
  - intros p Hin. by apply elem_of_nil in Hin.
  - intros p x Hin. cbn in Hin. rewrite (w_del _ _ W) in Hin. by apply elem_of_nil in Hin.
  - cbn. rewrite (w_pipe _ _ W). done.
  - split_and!; [by left| |]; cbn; by rewrite lookup_insert_eq.
  - split; [|apply not_elem_of_nil]. cbn. intros p x Hx Hfe. destruct (decide (p = pipev)) as [|Hne]; [done|].
    rewrite lookup_insert_ne in Hx by done. apply (w_heap _ _ W) in Hx as (i & Hi & -> & ->). cbn in Hfe; destruct (irq_not_pipe i Hi); congruence.
  - cbn. by rewrite (w_del _ _ W).
  - intros p Hin. by apply elem_of_nil in Hin.
Qed.

Lemma startup_runs d : VosBackend.vos_backend_init vdev_init subdev subvend s0 = Ret (Some d) ->
  exists b1, vos_backend_init h path boot = Ret (0, b1) /\
  exists b, mevent_dispatch h b1 = Ret (tt, b) /\ started d b.
Proof.
  intros Hd. destruct (init_run d Hd) as (e & E & W & A). eexists. split; [exact E|].
  set (b := mkBackend e all_fds all_ptrs (Some s0) (Some d)).
  exists (b <| evs := dispatching e |>). split; [by rewrite (dispatch_run b W)|].
  split; try done; [|by apply dispatching_inv].
  intros i Hi%elem_irqs. cbn. destruct (irq_not_pipe i Hi) as [H1 H2]. rewrite !lookup_insert_ne by congruence.
  split_and!; [apply (w_epoll _ _ W)|apply (w_heap _ _ W)|right; apply watched_member; [done|]]; by exists i.
Qed.

(** C15. Start-up: on a host that refuses nothing, and with a device that initialises,
    [vos_backend_init] returns 0 with the device in place, and when the loop begins the
    descriptor of each of the eight vectors is waited for with [handle_requests]; the state is
    one from which the invariant of the event loop holds, so that no later event is used
    after it is freed. *)
Theorem startup_watches d :
  VosBackend.vos_backend_init vdev_init subdev subvend s0 = Ret (Some d) ->
  exists b, (ret ← vos_backend_init h path; _ ← mevent_dispatch h; mret ret) boot = Ret (0, b) /\ started d b.
Proof.
  intros Hd. destruct (startup_runs d Hd) as (b1 & E1 & b & E2 & S). exists b. split; [|done].
  unfold mbind, M_bind. by rewrite E1, E2.
Qed.

(** *** Ending *)

(** The loop has ended, no other thread is in a call, and nobody has deleted the events of the
    first two vectors. *)
Record ending (b : backend) : Prop := {
  e_inv : mev_inv (evs b) Waiting [];
  e_pipe : mevent_pipefd (evs b) = pipefd;
  e_fds : evt_fds b = all_fds;
  e_mevents : mevents b = all_ptrs;
  e_info : info b = Some s0;
  e_first : forall i, (i < 2)%nat -> ptr i ∈ global_head (evs b) /\ heap (evs b) !! ptr i = Some (irq_event i)
}.

(** What is left of the events when the first two vectors are gone. *)
Definition without (i : nat) (s : mev) : mev :=
  mkMev (delete (ptr i) (heap s)) (unlink (ptr i) (global_head s)) (del_head s) (delete (fdn i) (epoll s)) (pipe s)
    (mevent_pipefd s) (acts s ++ [Close (fdn i)]).

Lemma drop_irq i s : (i < MAX_IRQS)%nat -> mev_inv s (Handling []) [] -> mevent_pipefd s = pipefd ->
  ptr i ∈ global_head s -> heap s !! ptr i = Some (irq_event i) ->
  exists s1, mevent_delete true (ptr i) s = Ret (0, s1) /\ close (fdn i) s1 = Ret (tt, without i s) /\
    mev_inv (without i s) (Handling []) [].
Proof.
  intros Hi I Hpf Hp He. destruct (irq_not_pipe i (proj2 (elem_irqs i) Hi)) as [H1 H2].
  pose proof (delete_dispatch_run _ 0 _ _ Hp He) as E. set (s1 := mkMev _ _ _ _ _ _ _) in E. exists s1.
  assert (C : close (fdn i) s1 = Ret (tt, without i s)).
  { unfold close, mbind, M_bind, log, modify, without, s1. cbn. unfold field_upd. cbn. rewrite app_nil_r.
    do 3 f_equal. apply map_eq. intros fd.
    destruct (decide (fd = fdn i)) as [->|]; [by rewrite !lookup_delete_eq|by rewrite !lookup_delete_ne]. }
  split_and!; [exact E|exact C|]. apply (fd_close_inv s1 [] (fdn i) (Handling []) _); [|apply (dispatch_delete_inv s [] [] (ptr i) 0 0)|exact C].
  - change (mevent_pipefd s1) with (mevent_pipefd s). by rewrite Hpf.
  - done.
  - done.
  - done.
  - apply not_elem_of_nil.
  - apply not_elem_of_nil.
  - exact E.
Qed.

Definition without_irqs (b : backend) : mev := without 1 (without 0 (evs b)).
Definition after_irqs (b : backend) : backend := b <| evs := without_irqs b |>.

Lemma ptr_ne i j : (i < MAX_IRQS)%nat -> (j < MAX_IRQS)%nat -> i <> j -> ptr i <> ptr j.
Proof. intros Hi Hj Hn E. by apply Hn, (g_ptr_inj G). Qed.

Lemma deinit_irq_run i b s1 : (i < MAX_IRQS)%nat -> evt_fds b = all_fds -> mevents b = all_ptrs ->
  mevent_delete true (ptr i) (evs b) = Ret (0, s1) -> close (fdn i) s1 = Ret (tt, without i (evs b)) ->
  deinit_irq i b = Ret (None, b <| evs := without i (evs b) |>).
Proof.
  intros Hi Hf Hm Hdel C. unfold deinit_irq, evt_fd, mbind, M_bind, Prelude.get. rewrite Hm.
  unfold all_ptrs, irqs. rewrite list_lookup_fmap, lookup_seq_lt by done. cbn [fmap option_fmap option_map].
  unfold on_evs. cbn [Nat.add]. rewrite Hdel. change (evt_fds (b <| evs := s1 |>)) with (evt_fds b). rewrite Hf.
  unfold all_fds, irqs. rewrite list_lookup_fmap, lookup_seq_lt by done. cbn [fmap option_fmap option_map Nat.add].
  unfold mret, M_ret. change (evs (b <| evs := s1 |>)) with s1. rewrite C. done.
Qed.

Lemma deinit_irqs_run b : ending b ->
  each_irq [0; 1]%nat deinit_irq b = Ret (None, after_irqs b) /\ mev_inv (without_irqs b) (Handling []) [].
Proof.
  intros [I Hpf Hf Hm _ He]. assert (I0 : mev_inv (evs b) (Handling []) []) by (apply await_inv; [done|intros p Hp; by apply elem_of_nil in Hp]).
  assert (H01 : ptr 1 <> ptr 0) by (apply ptr_ne; unfold MAX_IRQS; lia).
  destruct (He 0%nat) as [Hp0 He0]; [lia|]. destruct (He 1%nat) as [Hp1 He1]; [lia|].
  destruct (drop_irq 0 (evs b)) as (s1 & D1 & C1 & I1); try done; [unfold MAX_IRQS; lia|].
  destruct (drop_irq 1 (without 0 (evs b))) as (s2 & D2 & C2 & I2); try done; [unfold MAX_IRQS; lia|by apply elem_unlink| |].
  { cbn. by rewrite lookup_delete_ne. }
  split; [|done]. cbn [each_irq]. unfold mbind, M_bind.
  rewrite (deinit_irq_run 0 b s1), (deinit_irq_run 1 _ s2) by (done || (unfold MAX_IRQS; lia)). done.
Qed.

Lemma mevent_deinit_run s fd :
  mev_inv s (Handling []) [] ->
  exists s', mevent_deinit fd s = Ret (tt, s') /\ heap s' = ∅ /\ global_head s' = [] /\ del_head s' = [] /\ epoll s' = ∅ /\
    acts s' = acts s ++ all_acts (heap s) (global_head s ++ del_head s) ++ [Close fd; Close (snd (mevent_pipefd s))].
Proof.
  intros I. destruct (mevent_destroy_run s) as (s1 & E & H1 & H2 & H3 & H4 & H5 & H6).
  - pose proof (mi_owns _ _ _ I) as Hn. unfold ids in Hn. cbn [flat_map] in Hn. by rewrite app_nil_r in Hn.
  - intros fd' ev p Hx. destruct (mi_epoll _ _ _ I _ _ _ Hx) as [Hh Hin]. cbn [flat_map] in Hin. by rewrite app_nil_r in Hin.
  - eexists. unfold mevent_deinit, mbind, M_bind. rewrite E. unfold close, log, modify, Prelude.get, mbind, M_bind. cbn.
    unfold field_upd. cbn. rewrite H5. rewrite (proj2 (Z.eqb_neq _ 0)) by apply (mi_pipefd _ _ _ I).
    split_and!; [reflexivity|done|done|done| |].
    + cbn. unfold field_upd. cbn. by rewrite H4, !delete_empty.
    + cbn. unfold field_upd. cbn. by rewrite H6, <- !app_assoc.
Qed.

Lemma host_deinit_run b d : ending b -> bdev b = Some d ->
  exists e, vos_backend_deinit h b =
      match vdev_deinit with
      | None => Ret (tt, mkBackend e all_fds all_ptrs None (Some (unmapped d)))
      | Some f => d ← f (unmapped d); Ret (tt, mkBackend e all_fds all_ptrs None (Some d))
      end /\
    heap e = ∅ /\ global_head e = [] /\ del_head e = [] /\ epoll e = ∅ /\
    acts e = acts (evs b) ++ [Close (fdn 0); Close (fdn 1); Close (mem_fd s0)] ++
      all_acts (heap (without_irqs b)) (global_head (without_irqs b) ++ del_head (without_irqs b)) ++
      [Close (bh_epoll h); Close (snd pipefd)].
Proof.
  intros He Hb. destruct (deinit_irqs_run b He) as [E I].
  set (s1 := mkMev (heap (without_irqs b)) (global_head (without_irqs b)) (del_head (without_irqs b))
    (delete (mem_fd s0) (epoll (without_irqs b))) (pipe (evs b)) pipefd (acts (without_irqs b) ++ [Close (mem_fd s0)])).
  assert (Hpf : mevent_pipefd (without_irqs b) = pipefd) by apply (e_pipe _ He).
  assert (C : close (mem_fd s0) (without_irqs b) = Ret (tt, s1)).
  { unfold s1. rewrite <- Hpf at 1. done. }
  assert (Hn : mem_fd s0 <> fst (mevent_pipefd (without_irqs b))) by (rewrite Hpf; apply G).
  destruct (mevent_deinit_run s1 (bh_epoll h) (fd_close_inv _ _ _ _ _ Hn I C)) as (e & Ed & H1 & H2 & H3 & H4 & H5).
  exists e. split_and!; try done.
  - assert (Hs : shmem_close (after_irqs b) = Ret (tt, mkBackend s1 all_fds all_ptrs None (Some (unmapped d)))).
    { unfold shmem_close, mbind, M_bind, Prelude.get. change (info (after_irqs b)) with (info b). rewrite (e_info _ He).
      unfold modify, on_evs. change (evs (_ <| bdev ::= _ |>)) with (without_irqs b). rewrite C.
      destruct He as [_ _ Hf Hm _ _]. destruct b. cbn in Hf, Hm, Hb |- *. subst. done. }
    unfold vos_backend_deinit. unfold mbind at 1, M_bind at 1. rewrite E. unfold mbind at 1, M_bind at 1. rewrite Hs.
    unfold mbind at 1, M_bind at 1, on_evs. cbn [evs]. rewrite Ed. unfold mbind at 1, M_bind at 1, Prelude.get.
    destruct vdev_deinit as [f|]; [|done]. unfold mbind, M_bind, lift, modify. cbn. unfold field_upd. cbn.
    by destruct (f (unmapped d)).
  - rewrite H5. unfold s1, without_irqs, without. cbn [acts mevent_pipefd heap global_head del_head].
    by rewrite <- !app_assoc.
Qed.

(** From [b] the program has got to [b'] with the device [d]: the event loop has gone
    through its steps, with any calls of other threads between them, and the events of the first two vectors
    have not been deleted. *)
Record served (b b' : backend) (d : D) : Prop := {
  sv_steps : rtc mev_step (mkSys (evs b) Waiting []) (mkSys (evs b') Waiting []);
  sv_fds : evt_fds b' = evt_fds b;
  sv_mevents : mevents b' = mevents b;
  sv_info : info b' = info b;
  sv_bdev : bdev b' = Some d;
  sv_first : forall i, (i < 2)%nat -> ptr i ∈ global_head (evs b') /\ heap (evs b') !! ptr i = Some (irq_event i)
}.

Lemma steps_inv y y' : rtc mev_step y y' -> sys_inv y -> sys_inv y' /\ mevent_pipefd (st y') = mevent_pipefd (st y).
Proof.
  induction 1 as [|y y1 y2 Hs _ IH]; intros I; [done|]. destruct (IH (mev_step_inv _ _ I Hs)) as [I2 P2].
  split; [done|]. by rewrite P2, (step_pipe _ _ Hs).
Qed.

Lemma served_ending d b b' d' : started d b -> served b b' d' -> ending b'.
Proof.
  intros S V. destruct (steps_inv _ _ (sv_steps _ _ _ V) (st_inv _ _ S)) as [I P]. split.
  - exact I.
  - rewrite <- (st_pipe _ _ S). exact P.
  - by rewrite (sv_fds _ _ _ V), (st_fds _ _ S).
  - by rewrite (sv_mevents _ _ _ V), (st_mevents _ _ S).
  - by rewrite (sv_info _ _ _ V), (st_info _ _ S).
  - apply V.
Qed.

(** C14. A whole run that starts well.  The host refuses nothing and the device initialises; the caller's hook
    leaves the events alone; between start-up and end the event loop and the other threads make
    any steps of [mev_step], but leave no call unfinished and do not delete the events of the first two
    vectors ([served]).  Then [run_backend] ends with every event freed and nothing in the lists or in the
    interest list.  The descriptors of the first two vectors, of the memory, of the events
    that are then still in a list, of the interest list and the writing end of the pipe are closed, in this order (an event
    deleted earlier without its descriptor leaves that open), and the memory is unmapped
    before the device is told to end.  A start that the host refuses ends differently: [Host.refused_crashes]. *)
Theorem run_backend_releases hook serve i d :
  hook boot = Ret (tt, boot) ->
  path = "/dev/ivshm0.default"%string ->
  VosBackend.vos_backend_init vdev_init subdev subvend s0 = Ret (Some d) ->
  (forall b, started d b -> exists b' d', serve b = Ret (tt, b') /\ served b b' d') ->
  exists b' d' e, (exists b, started d b /\ served b b' d') /\
    run_backend h i hook serve boot =
      match vdev_deinit with
      | None => Ret (tt, mkBackend e all_fds all_ptrs None (Some (unmapped d')))
      | Some f => d2 ← f (unmapped d'); Ret (tt, mkBackend e all_fds all_ptrs None (Some d2))
      end /\
    heap e = ∅ /\ global_head e = [] /\ del_head e = [] /\ epoll e = ∅ /\
    acts e = acts (evs b') ++ [Close (fdn 0); Close (fdn 1); Close (mem_fd s0)] ++
      all_acts (heap (without_irqs b')) (global_head (without_irqs b') ++ del_head (without_irqs b')) ++
      [Close (bh_epoll h); Close (snd pipefd)].
Proof.
  intros Hhook Hpath Hd Hs. destruct (startup_runs d Hd) as (b1 & E1 & b & E2 & S).
  destruct (Hs b S) as (b' & d' & E3 & V).
  destruct (host_deinit_run b' d' (served_ending _ _ _ _ S V) (sv_bdev _ _ _ V)) as (e & E4 & He).
  exists b', d', e. split; [by exists b|]. split; [|exact He].
  unfold run_backend, set_shmem_args, lift, mbind at 1, M_bind at 1.
  assert (Hi : exists o, match ops_of i with
    | Some o => Ret (mkInfo (Some "/dev/ivshm0.default"%string) (Some o))
    | None => match infer_shmem_ops (Some "/dev/ivshm0.default"%string) with
              | Some o => Ret (mkInfo (Some "/dev/ivshm0.default"%string) (Some o)) | None => Stop ProcessExit end
    end = Ret (mkInfo (Some "/dev/ivshm0.default"%string) (Some o))).
  { destruct (ops_of i) as [o|]; [by exists o|]. by exists ivshm_ivshmem_ops. }
  destruct Hi as [o ->]. cbn [mbind outcome_bind shmem_devpath]. rewrite <- Hpath.
  unfold mbind at 1, M_bind at 1. rewrite Hhook.
  unfold mbind at 1, M_bind at 1. rewrite E1. cbn [Z.eqb negb].
  change ((_ ← mevent_dispatch h; _ ← serve; vos_backend_deinit h) b1 = match vdev_deinit with
    | None => Ret (tt, mkBackend e all_fds all_ptrs None (Some (unmapped d')))
    | Some f => d2 ← f (unmapped d'); Ret (tt, mkBackend e all_fds all_ptrs None (Some d2)) end).
  unfold mbind at 1, M_bind at 1. rewrite E2. unfold mbind at 1, M_bind at 1. rewrite E3. exact E4.
Qed.
End Start.
End Backend.

(** ** A host *)

Module Host.
Definition ivshm0 : ivshm := mkIvshm
  (fun p => if String.eqb p "/dev/ivshm0.default" then 13 else 12) true (Some 0x20000) true (fun _ _ => true) 1 ∅.
Definition ptr (i : nat) : nat := S i.
Definition host : boot_host := mkBoot 3 (fun i => (Z.of_nat i + 4, 0)) ivshm0 (fun i => Some (ptr i)) (fun _ => 0)
  (Some (14, 15)) (Some pipev) 0.
Definition path : string := "/dev/ivshm0.default".
Definition shm0 : shmem_info := mkShmem 13 0x20000 1 (-1) 8 ∅ [].

Lemma host_good : good_host host path ptr shm0 12 (14, 15).
Proof. split; unfold fdn, MAX_IRQS; cbn; unfold ptr, pipev; try done; try lia; split_and!; done || lia.
Defined.

Definition vinit (s : shmem_info) : outcome (option CoreDemo.D) := Ret (Some (BackendDemo.mk s)).
Definition vdeinit : option (CoreDemo.D -> outcome CoreDemo.D) := Some (fun d => Ret d).
Definition dev : outcome (option CoreDemo.D) := @VosBackend.vos_backend_init _ BackendDemo.cfg_dev vinit 0x1050 0x1af4 shm0.


Definition nothing : M (@backend CoreDemo.D) unit := mret tt.
Definition run_with (h : boot_host) (serve : M backend unit) : outcome (unit * backend) :=
  @run_backend _ BackendDemo.cfg_dev vinit vdeinit 0x1050 0x1af4 h (mkInfo None None) nothing serve boot.

(** When nothing happens in between each descriptor is closed exactly once. *)
Example run_closes : exists b, run_with host nothing = Ret (tt, b) /\ acts (evs b) = map Close [12; 4; 5; 13; 14; 11; 10; 9; 8; 7; 6; 3; 15].
Proof. eexists. split; [by vm_compute|]. by vm_compute. Qed.

(** A vector that the event loop does not accept: all its descriptors are closed, the
    events only unlinked, and the result is 0 all the same; no device is there when the loop begins, and ending
    reads the operations of the device that is missing, or before that an event that the loop has freed. *)
Definition refuses : boot_host := mkBoot 3 (fun i => (Z.of_nat i + 4, 0)) ivshm0 (fun i => Some (ptr i))
  (fun i => if (i =? 7)%nat then 28 else 0) (Some (14, 15)) (Some pipev) 0.
Example refused_is_success :
  exists b, @vos_backend_init _ BackendDemo.cfg_dev vinit 0x1050 0x1af4 refuses path boot = Ret (0, b) /\
    bdev b = None /\ del_head (evs b) = [7; 6; 5; 4; 3; 2; 1]%nat /\ acts (evs b) = map Close [12; 4; 5; 6; 7; 8; 9; 10; 11].
Proof. eexists. split; [by vm_compute|]. by vm_compute. Qed.
Example refused_crashes :
  run_with refuses nothing = Stop NullDeref /\ run_with refuses (on_evs mevent_drain_del_list) = Stop OobAccess.
Proof. split; by vm_compute. Qed.

Lemma startup_watches_witness :
  exists b, (ret ← @vos_backend_init _ BackendDemo.cfg_dev vinit 0x1050 0x1af4 host path; _ ← mevent_dispatch host; mret ret) boot = Ret (0, b) /\
    epoll (evs b) !! 11 = Some (EPOLLIN, 8%nat).
Proof.
  assert (Hd : exists d, dev = Ret (Some d)) by (eexists; by vm_compute). destruct Hd as [d Hd].
  destruct (@startup_watches _ BackendDemo.cfg_dev vinit 0x1050 0x1af4 host path ptr shm0 12 (14, 15) host_good d Hd) as (b & E & S).
  exists b. split; [exact E|]. apply (st_watched _ _ _ _ _ _ _ S 7). unfold MAX_IRQS. lia.
Defined.

Lemma run_backend_releases_witness :
  exists r, @run_backend _ BackendDemo.cfg_dev vinit vdeinit 0x1050 0x1af4 host (mkInfo None None) nothing nothing boot = r /\
    exists e d, r = Ret (tt, mkBackend e (all_fds host) (all_ptrs ptr) None (Some d)) /\ epoll e = ∅.
Proof.
  assert (Hd : exists d, dev = Ret (Some d)) by (eexists; by vm_compute). destruct Hd as [d Hd].
  destruct (@run_backend_releases _ BackendDemo.cfg_dev vinit vdeinit 0x1050 0x1af4 host path ptr shm0 12 (14, 15) host_good nothing nothing
    (mkInfo None None) d eq_refl eq_refl Hd) as (b' & d' & e & _ & E & _ & _ & _ & He & _).
  - intros b S. exists b, d. split; [done|]. split; try done; [apply S|]. intros i Hi.
    destruct (st_watched _ _ _ _ _ _ _ S i) as (_ & ? & ?); [unfold MAX_IRQS; lia|done].
  - eexists. split; [exact E|]. exists e, (@unmapped _ BackendDemo.cfg_dev d'). split; [reflexivity|exact He].
Defined.
End Host.
