(* ===== verification/Server.v ===== *)
(** * The threads of the display servers

    [vdpy_display_server_thread] and [vdpy_control_server_thread] of
    [src/devicemodel/hw/vdisplay_server.c] around what a message does, which is in Display.v:
    the listening socket, the interest list, the client that comes and
    goes, and the end.  The two bodies differ in that and in the address they listen on; the class
    [Serving] is what they share.  The descriptors are those of the process: [opened] has
    them all, of other threads too. *)
From S2P Require Import Prelude Edid Display.

(** ** What a server has of its own *)

Class Serving (T : Type) := {
  client : T -> Z;                                        (* [client_sock], or -1 *)
  no_client : T -> T;                                     (* [client_sock = -1] *)
  serve : server_event -> T -> outcome (list server_action * T)
}.

Class ServingLaws (T : Type) `{!Serving T} := {
  client_no_client t : client (no_client t) = -1;
  serve_connect sock inb t a t' : serve (EvConnect sock inb) t = Ret (a, t') -> client t' = sock;
  serve_hangup t a t' : serve EvHangup t = Ret (a, t') -> client t' = -1;
  serve_readable t a t' : serve EvReadable t = Ret (a, t') -> client t' = client t \/ client t' = -1
}.

(** ** The thread *)

(** What the calls before the loop answer; [bind] and [listen] and the addition to
    the interest list only whether they fail. *)
Record server_host := mkServerHost { h_socket : Z; h_bind : bool; h_listen : bool; h_epoll : Z; h_add : bool }.

(** A report of [epoll_wait]: the descriptor and whether an error or a hang-up is among the
    events; [ev_accept] is what [accept] gives when it is called, with what that client will send,
    [ev_add] whether the interest list takes the client. *)
Record report := mkReport { ev_fd : Z; ev_err : bool; ev_accept : Z; ev_inbox : list recv_answer; ev_add : bool }.

Section Thread.
Context {T : Type} `{!Serving T}.

(** [stray]: closes of descriptors that are not open. *)
Record srv := mkSrv { opened : gset Z; interest : gset Z; stray : list Z; server_sock : Z; epollfd : Z; inner : T }.
#[export] Instance srv_eta : Settable srv := fun s =>
  mkSrv (opened s) (interest s) (stray s) (server_sock s) (epollfd s) (inner s).

Definition close (fd : Z) : M srv unit := modify (fun s =>
  if bool_decide (fd ∈ opened s) then s <| opened ::= fun o => o ∖ {[fd]} |> <| interest ::= fun i => i ∖ {[fd]} |>
  else s <| stray ::= fun l => l ++ [fd] |>).
Definition open_fd (fd : Z) : M srv unit := modify (fun s => s <| opened ::= fun o => {[fd]} ∪ o |>).
Definition epoll_add (ok : bool) (fd : Z) : M srv bool := fun s =>
  if ok && bool_decide (fd ∈ opened s) then Ret (true, s <| interest ::= fun i => {[fd]} ∪ i |>) else Ret (false, s).
Definition epoll_del (fd : Z) : M srv unit := modify (fun s => s <| interest ::= fun i => i ∖ {[fd]} |>).

Definition close_client (cs : Z) : M srv unit := _ ← epoll_del cs; close cs.

(** The labels at the end. *)
Definition close_sockets : M srv unit :=
  s ← get;
  _ ← (if server_sock s =? -1 then mret tt else close (server_sock s));
  if client (inner s) =? -1 then mret tt else close (client (inner s)).
Definition close_epoll_fd : M srv unit :=
  s ← get;
  _ ← (if epollfd s =? -1 then mret tt else _ ← modify (fun s => s <| interest := ∅ |>); close (epollfd s));
  close_sockets.

(** Up to the loop; false when the thread has ended. *)
Definition server_begin (h : server_host) : M srv bool :=
  _ ← modify (fun s => s <| inner ::= no_client |>);
  if h_socket h =? -1 then mret false
  else
    _ ← open_fd (h_socket h);
    _ ← modify (fun s => s <| server_sock := h_socket h |>);
    if negb (h_bind h) then _ ← close_sockets; mret false
    else if negb (h_listen h) then _ ← close_sockets; mret false
    else if h_epoll h =? -1 then _ ← close_sockets; mret false
    else
      _ ← open_fd (h_epoll h);
      _ ← modify (fun s => s <| epollfd := h_epoll h |>);
      added ← epoll_add (h_add h) (h_socket h);
      if added : bool then mret true else _ ← close_epoll_fd; mret false.

Definition on_inner (ev : server_event) : M srv (list server_action) := fun s =>
  match serve ev (inner s) with Ret (a, t) => Ret (a, s <| inner := t |>) | Stop e => Stop e end.

(** The client that was there is gone, whatever [accept] gave. *)
Definition new_client (r : report) : M srv (list server_action) :=
  _ ← (if ev_accept r =? -1 then mret tt else open_fd (ev_accept r));
  s ← get;
  _ ← (if client (inner s) =? -1 then mret tt
       else _ ← close_client (client (inner s)); modify (fun s => s <| inner ::= no_client |>));
  a ← on_inner (EvConnect (ev_accept r) (ev_inbox r));
  _ ← epoll_add (ev_add r) (ev_accept r);
  mret a.

Definition client_event (r : report) : M srv (list server_action) :=
  s ← get;
  let cs := client (inner s) in
  if ev_err r then _ ← close_client cs; on_inner EvHangup
  else
    a ← on_inner EvReadable;
    s ← get;
    (* the message was that the client goes *)
    _ ← (if client (inner s) =? cs then mret tt else close_client cs);
    mret a.

(** The body of the loop over the reports. *)
Definition handle_report (r : report) : M srv (list server_action) :=
  s ← get;
  if ev_fd r =? server_sock s then new_client r
  else if ev_fd r =? client (inner s) then client_event r
  else mret [].

Fixpoint handle_reports (rs : list report) : M srv (list server_action) :=
  match rs with
  | [] => mret []
  | r :: rs => a ← handle_report r; b ← handle_reports rs; mret (a ++ b)
  end.

(** The thread, for a list of what [epoll_wait] reports, after which it fails. *)
Definition server_thread (h : server_host) (rounds : list (list report)) : M srv (list server_action) :=
  go ← server_begin h;
  if go : bool then a ← handle_reports (concat rounds); _ ← close_epoll_fd; mret a else mret [].
End Thread.
Arguments srv T : clear implicits.

(** ** The two servers *)

(** [triger] is set. *)
#[export] Instance display_serving (triger_set : bool) : Serving (display * conn) := {|
  client t := client_sock t.1;
  no_client t := (t.1 <| client_sock := -1 |>, t.2);
  serve ev t := '(a, t) ← display_server_event triger_set ev t; Ret ([a], t)
|}.
#[export] Instance control_serving (triger_set : bool) : Serving (Z * conn) := {|
  client t := t.1;
  no_client t := (-1, t.2);
  serve ev t := control_server_event triger_set ev t
|}.

#[export] Instance control_laws b : @ServingLaws _ (control_serving b).
Proof.
  split.
  - done.
  - by intros sock inb [k c] a t [= <- <-].
  - by intros [k c] a t [= <- <-].
  - intros [k c] a t. cbn. destruct (receive_event c) as [[[e|] c']|]; cbn; [|intros [= <- <-]; by left|done].
    intros [= <- <-]. by left.
Qed.

#[export] Instance display_laws b : @ServingLaws _ (display_serving b).
Proof.
  split.
  - done.
  - intros sock inb [d c] a t. cbn. destruct (vscrs d) as [|v l]; [done|]. destruct (set_modifier v).
    + set (d0 := d <| client_sock := sock |> <| dpy_errno := _ |>).
      destruct (client_send _ _ d0) as [[r d1]|] eqn:E; [|done]. cbn. intros [= _ <-].
      apply client_send_frame in E as (_ & _ & _ & _ & _ & _ & E). exact E.
    + by intros [= _ <-].
  - by intros [d c] a t [= _ <-].
  - intros [d c] a t. cbn. destruct (receive_event c) as [[[e|] c']|]; cbn; [|intros [= _ <-]; by left|done].
    destruct (e =? DPY_EVENT_DISPLAY_INFO); cbn.
    + destruct (buf_word _ 0); cbn; [|done]. destruct (buf_word _ 4); cbn; [|done]. destruct (buf_word _ 8); cbn; [|done].
      destruct (buf_word _ 12); cbn; [|done]. destruct (vscrs d); cbn; [done|]. intros [= _ <-]. by left.
    + destruct (e =? DPY_EVENT_HOTPLUG); cbn; [|intros [= _ <-]; by left].
      destruct (buf_word _ _) as [i|]; cbn; [|done]. destruct (i =? 0); intros [= _ <-]; [by right|by left].
Qed.

(** ** The descriptors *)

Section Fds.
Context {T : Type} `{!Serving T} `{!ServingLaws T}.
Implicit Types s : srv T.

(** The client, as a set. *)
Definition client_fds (t : T) : gset Z := if client t =? -1 then ∅ else {[client t]}.

(** [F] is open besides what the thread has. *)
Record srv_inv (F : gset Z) (s : srv T) : Prop := {
  si_opened : opened s = F ∪ {[server_sock s; epollfd s]} ∪ client_fds (inner s);
  si_new : (server_sock s ∉ F) /\ (epollfd s ∉ F) /\ server_sock s <> epollfd s /\
    (client (inner s) <> -1 -> client (inner s) ∉ F ∪ {[server_sock s; epollfd s]});
  si_real : server_sock s <> -1 /\ epollfd s <> -1 /\ (-1 ∉ F);
  si_interest : {[server_sock s]} ⊆ interest s /\ interest s ⊆ {[server_sock s]} ∪ client_fds (inner s);
  si_stray : stray s = []
}.

(** A report of a descriptor; an accepted client has a descriptor that was free. *)
Definition report_ok (r : report) (s : srv T) : Prop :=
  ev_fd r <> -1 /\ (ev_accept r <> -1 -> ev_accept r ∉ opened s).

Inductive srv_step : srv T -> srv T -> Prop :=
  | srv_report r s a s' : report_ok r s -> handle_report r s = Ret (a, s') -> srv_step s s'.

Lemma close_open fd s : fd ∈ opened s ->
  close fd s = Ret (tt, mkSrv (opened s ∖ {[fd]}) (interest s ∖ {[fd]}) (stray s) (server_sock s) (epollfd s) (inner s)).
Proof. intros H. unfold close, modify. by rewrite bool_decide_eq_true_2. Qed.

Lemma client_fds_some t : client t <> -1 -> client_fds t = {[client t]}.
Proof. intros H. unfold client_fds. by rewrite (proj2 (Z.eqb_neq _ _)). Qed.
Lemma client_fds_none t : client t = -1 -> client_fds t = ∅.
Proof. intros H. unfold client_fds. by rewrite H. Qed.

(** The client is let go. *)
Definition dropped (s : srv T) (t : T) : srv T :=
  mkSrv (opened s ∖ {[client (inner s)]}) ((interest s ∖ {[client (inner s)]}) ∖ {[client (inner s)]}) (stray s) (server_sock s)
    (epollfd s) t.

Lemma dropped_inv F s t : srv_inv F s -> client (inner s) <> -1 -> client t = -1 -> srv_inv F (dropped s t).
Proof.
  intros [I1 (N1 & N2 & N3 & N4) I3 I4 I5] Hc Ht. specialize (N4 Hc). unfold dropped.
  rewrite (client_fds_some _ Hc) in *. split; cbn; rewrite ?(client_fds_none _ Ht); try done.
  - rewrite I1. set_solver.
  - set_solver.
Qed.

Lemma close_client_run s : client (inner s) ∈ opened s ->
  close_client (client (inner s)) s = Ret (tt, dropped s (inner s)).
Proof.
  intros H. unfold close_client, epoll_del, mbind, M_bind, modify.
  by rewrite (close_open _ (s <| interest ::= fun i => i ∖ {[client (inner s)]} |>)).
Qed.

Lemma client_open F s : srv_inv F s -> client (inner s) <> -1 -> client (inner s) ∈ opened s.
Proof. intros I Hc. rewrite (si_opened _ _ I), client_fds_some by done. set_solver. Qed.

(** A handler of a message changes only the inner state. *)
Lemma on_inner_run ev s a s' : on_inner ev s = Ret (a, s') ->
  exists t, serve ev (inner s) = Ret (a, t) /\
    s' = mkSrv (opened s) (interest s) (stray s) (server_sock s) (epollfd s) t.
Proof. unfold on_inner. destruct (serve ev (inner s)) as [[b t]|]; [|done]. intros [= <- <-]. by exists t. Qed.

Lemma inner_inv F s t : srv_inv F s -> client t = client (inner s) ->
  srv_inv F (mkSrv (opened s) (interest s) (stray s) (server_sock s) (epollfd s) t).
Proof. intros [I1 I2 I3 I4 I5] E. split; cbn; unfold client_fds in *; rewrite ?E; done. Qed.

Lemma not_open F s : srv_inv F s -> -1 ∉ opened s.
Proof.
  intros I. destruct (si_real _ _ I) as (H1 & H2 & H3). rewrite (si_opened _ _ I), !not_elem_of_union, not_elem_of_singleton.
  split_and!; [done|congruence|by rewrite not_elem_of_singleton; congruence|]. unfold client_fds.
  destruct (Z.eqb_spec (client (inner s)) (-1)) as [|Hc]; [apply not_elem_of_empty|]. rewrite not_elem_of_singleton. congruence.
Qed.

(** A client that is accepted when there is none. *)
Definition connected (sock : Z) (added : bool) (s : srv T) (t : T) : srv T :=
  mkSrv (if sock =? -1 then opened s else {[sock]} ∪ opened s) (if added then {[sock]} ∪ interest s else interest s) (stray s)
    (server_sock s) (epollfd s) t.

Lemma connected_inv F s sock t added : srv_inv F s -> client (inner s) = -1 -> client t = sock ->
  (sock <> -1 -> sock ∉ opened s) -> (sock = -1 -> added = false) -> srv_inv F (connected sock added s t).
Proof.
  intros I Hc Ht Hf Ha. destruct I as [I1 (N1 & N2 & N3 & _) I3 (I4 & I4') I5]. rewrite (client_fds_none _ Hc) in *.
  unfold connected. destruct (Z.eqb_spec sock (-1)) as [E|E].
  - rewrite Ha by done. split; cbn; rewrite ?(client_fds_none t) by congruence; try done.
    split_and!; try done. congruence.
  - specialize (Hf E). clear Ha. assert (client t <> -1) by congruence.
    split; cbn; rewrite ?(client_fds_some t), ?Ht by done; try done.
    + rewrite I1. clear. set_solver.
    + split_and!; try done. intros _. rewrite I1 in Hf. clear -Hf. set_solver.
    + clear -I4 I4'. destruct added; set_solver.
Qed.

Lemma epoll_add_run ok fd s : exists added : bool, epoll_add ok fd s =
    Ret (added, mkSrv (opened s) (if added then {[fd]} ∪ interest s else interest s) (stray s) (server_sock s) (epollfd s) (inner s)) /\
  (fd ∉ opened s -> added = false).
Proof.
  unfold epoll_add. destruct ok; cbn; [|exists false; split; [by destruct s|done]].
  case_bool_decide; [exists true|exists false; split; [by destruct s|done]].
  by split.
Qed.

Definition accepted (sock : Z) (s : srv T) : srv T :=
  mkSrv (if sock =? -1 then opened s else {[sock]} ∪ opened s) (interest s) (stray s) (server_sock s) (epollfd s) (inner s).

Lemma accept_run sock s : (if sock =? -1 then mret tt else open_fd sock) s = Ret (tt, accepted sock s).
Proof. unfold accepted. destruct (sock =? -1); [by destruct s|done]. Qed.

(** The client there was is let go, if there was one. *)
Definition let_go (s : srv T) : srv T := if client (inner s) =? -1 then s else dropped s (no_client (inner s)).

Lemma let_go_run F sock s : srv_inv F s -> (sock <> -1 -> sock ∉ opened s) ->
  (if client (inner s) =? -1 then mret tt
   else _ ← close_client (client (inner s)); modify (fun s => s <| inner ::= no_client |>)) (accepted sock s) =
  Ret (tt, accepted sock (let_go s)).
Proof.
  intros I Hf. unfold let_go. destruct (Z.eqb_spec (client (inner s)) (-1)) as [Hc|Hc]; [done|].
  pose proof (client_open F s I Hc) as Ho. unfold mbind, M_bind.
  change (client (inner s)) with (client (inner (accepted sock s))). rewrite close_client_run.
  - unfold modify, accepted, dropped, field_upd. cbn. do 3 f_equal. destruct (Z.eqb_spec sock (-1)) as [|Hs]; [done|].
    specialize (Hf Hs). clear -Hf Ho. set_solver.
  - cbn. destruct (sock =? -1); [done|]. by apply elem_of_union_r.
Qed.

Lemma let_go_inv F s : srv_inv F s -> srv_inv F (let_go s) /\ client (inner (let_go s)) = -1.
Proof.
  intros I. unfold let_go. destruct (Z.eqb_spec (client (inner s)) (-1)) as [Hc|Hc]; [done|].
  split; [|apply client_no_client]. apply dropped_inv; [done|done|apply client_no_client].
Qed.

Lemma new_client_inv F r s a s' : srv_inv F s -> (ev_accept r <> -1 -> ev_accept r ∉ opened s) ->
  new_client r s = Ret (a, s') -> srv_inv F s' /\ client (inner s') = ev_accept r.
Proof.
  intros I Hf. unfold new_client. unfold mbind at 1, M_bind at 1. rewrite accept_run.
  unfold mbind at 1, M_bind at 1, get at 1. change (inner (accepted (ev_accept r) s)) with (inner s).
  unfold mbind at 1, M_bind at 1. rewrite (let_go_run F) by done.
  destruct (let_go_inv F s I) as [I' Hc]. unfold mbind, M_bind.
  destruct (on_inner _ _) as [[b s1]|] eqn:E; [|done]. apply on_inner_run in E as (t & Et & ->).
  apply serve_connect in Et. destruct (epoll_add_run (ev_add r) (ev_accept r) (accepted (ev_accept r) (let_go s) <| inner := t |>)) as (added & E & Ha).
  match goal with |- context [epoll_add _ _ ?x] => change x with (accepted (ev_accept r) (let_go s) <| inner := t |>) end.
  rewrite E. intros [= _ <-].
  assert (Hfree : ev_accept r <> -1 -> ev_accept r ∉ opened (let_go s)).
  { intros Hn. specialize (Hf Hn). unfold let_go. destruct (client (inner s) =? -1); [done|]. cbn. clear -Hf. set_solver. }
  split; [|done]. apply (connected_inv F (let_go s)); try done.
  intros Hs. apply Ha. cbn. rewrite Hs. cbn. exact (not_open F _ I').
Qed.

Lemma client_event_inv F r s a s' : srv_inv F s -> client (inner s) <> -1 -> client_event r s = Ret (a, s') ->
  srv_inv F s' /\ (client (inner s') = client (inner s) \/ client (inner s') = -1).
Proof.
  intros I Hc. pose proof (client_open F s I Hc) as Ho. unfold client_event, mbind, M_bind, get.
  destruct (ev_err r).
  - rewrite close_client_run by done. intros E. apply on_inner_run in E as (t & Et & ->). apply serve_hangup in Et.
    split; [|by right]. by apply (dropped_inv F s t).
  - destruct (on_inner _ _) as [[b s1]|] eqn:E; [|done]. apply on_inner_run in E as (t & Et & ->).
    apply serve_readable in Et. cbn [inner]. destruct (Z.eqb_spec (client t) (client (inner s))) as [Hsame|Hne].
    + intros [= _ <-]. split; [by apply inner_inv|by left].
    + destruct Et as [Et|Et]; [done|].
      assert (E : close_client (client (inner s)) (mkSrv (opened s) (interest s) (stray s) (server_sock s) (epollfd s) t) = Ret (tt, dropped s t)).
      { unfold close_client, epoll_del, mbind, M_bind, modify. by rewrite close_open. }
      rewrite E. intros [= _ <-]. split; [by apply dropped_inv|by right].
Qed.

Lemma handle_report_inv F r s a s' : srv_inv F s -> report_ok r s -> handle_report r s = Ret (a, s') -> srv_inv F s'.
Proof.
  intros I [Hfd Hacc]. unfold handle_report, mbind, M_bind, get. destruct (ev_fd r =? server_sock s).
  - intros E. by apply (new_client_inv F r s a s').
  - destruct (Z.eqb_spec (ev_fd r) (client (inner s))) as [Hc|]; [|by intros [= _ <-]].
    intros E. apply (client_event_inv F r s a s'); [done| |done]. congruence.
Qed.

Lemma srv_steps_inv F s s' : srv_inv F s -> rtc srv_step s s' -> srv_inv F s'.
Proof.
  intros I H. induction H as [|s0 s1 s2 [r s0' a s1' Hok E] _ IH]; [done|]. apply IH. by apply (handle_report_inv F r s0' a).
Qed.

(** ** Beginning and end *)

Record host_ok (h : server_host) (F : gset Z) : Prop := {
  ho_free : -1 ∉ F;
  ho_socket : h_socket h <> -1 -> h_socket h ∉ F;
  ho_epoll : h_epoll h <> -1 -> h_epoll h ∉ F /\ h_epoll h <> h_socket h
}.

(** Before the thread has begun. *)
Definition srv_init (F : gset Z) (t : T) : srv T := mkSrv F ∅ [] (-1) (-1) t.

(** The end, from a listening socket alone. *)
Lemma close_sockets_run F sk ep t i : sk <> -1 -> sk ∉ F -> client t = -1 ->
  exists i', close_sockets (mkSrv ({[sk]} ∪ F) i [] sk ep t) = Ret (tt, mkSrv F i' [] sk ep t).
Proof.
  intros H1 H2 Hc. exists (i ∖ {[sk]}). unfold close_sockets, mbind, M_bind, get. cbn [server_sock inner].
  rewrite (proj2 (Z.eqb_neq sk (-1))), Hc by done. rewrite close_open by (cbn; clear; set_solver). cbn.
  unfold mret, M_ret. rewrite Z.eqb_refl. do 3 f_equal. clear -H2. set_solver.
Qed.

Lemma close_epoll_fd_run F s : srv_inv F s -> exists s', close_epoll_fd s = Ret (tt, s') /\ opened s' = F /\ interest s' = ∅ /\ stray s' = [].
Proof.
  intros [I1 (N1 & N2 & N3 & N4) (R1 & R2 & _) _ I5]. unfold close_epoll_fd, close_sockets, mbind, M_bind, get, modify.
  rewrite (proj2 (Z.eqb_neq (epollfd s) (-1))) by done.
  rewrite close_open by (change (epollfd s ∈ opened s); rewrite I1; clear; set_solver). cbn [server_sock].
  change (server_sock (s <| interest := ∅ |>)) with (server_sock s). rewrite (proj2 (Z.eqb_neq (server_sock s) (-1))) by done.
  rewrite close_open by (cbn; rewrite I1; clear -N3; set_solver). cbn [opened interest stray server_sock epollfd inner].
  change (opened (s <| interest := ∅ |>)) with (opened s). change (inner (s <| interest := ∅ |>)) with (inner s).
  rewrite I1. unfold client_fds in *. destruct (Z.eqb_spec (client (inner s)) (-1)) as [Hc|Hc].
  - eexists. split; [reflexivity|]. cbn. rewrite I5. split_and!; [|set_solver|done]. clear -N1 N2. set_solver.
  - specialize (N4 Hc). rewrite close_open by (cbn; clear -N4; set_solver).
    eexists. split; [reflexivity|]. cbn. rewrite I5. split_and!; [|set_solver|done]. clear -N1 N2 N4. set_solver.
Qed.

Lemma server_begin_run h F t : host_ok h F -> exists go s, server_begin h (srv_init F t) = Ret (go, s) /\
  (if go : bool then srv_inv F s else opened s = F /\ stray s = []).
Proof.
  intros [Hf Hsk Hep]. unfold server_begin, mbind, M_bind, modify, open_fd.
  destruct (Z.eqb_spec (h_socket h) (-1)) as [|Hs]; [eexists false, _; by split|]. specialize (Hsk Hs).
  unfold modify. set (sk := h_socket h) in *. set (t0 := no_client t).
  assert (Ht0 : client t0 = -1) by apply client_no_client.
  set (s1 := _ <| server_sock := sk |>). change s1 with (mkSrv ({[sk]} ∪ F) ∅ [] sk (-1) t0).
  destruct (close_sockets_run F sk (-1) t0 ∅ Hs Hsk Ht0) as [i' Ec].
  destruct (h_bind h); cbn [negb]; [|rewrite Ec; eexists false, _; by split].
  destruct (h_listen h); cbn [negb]; [|rewrite Ec; eexists false, _; by split].
  destruct (Z.eqb_spec (h_epoll h) (-1)) as [|He]; [rewrite Ec; eexists false, _; by split|]. destruct (Hep He) as [Hep1 Hep2].
  set (s2 := _ <| epollfd := h_epoll h |>). change s2 with (mkSrv ({[h_epoll h]} ∪ ({[sk]} ∪ F)) ∅ [] sk (h_epoll h) t0).
  assert (I : srv_inv F (mkSrv ({[h_epoll h]} ∪ ({[sk]} ∪ F)) {[sk]} [] sk (h_epoll h) t0)).
  { split; cbn; rewrite ?(client_fds_none _ Ht0); try done.
    - clear. set_solver.
    - split; [done|]. clear. set_solver. }
  unfold epoll_add. destruct (h_add h); cbn [andb].
  - rewrite bool_decide_eq_true_2 by (cbn; clear; set_solver). eexists true, _. split; [reflexivity|].
    unfold field_upd. cbn. rewrite union_empty_r_L. exact I.
  - destruct (close_epoll_fd_run _ _ I) as (s' & E & H1 & _ & H2). eexists false, s'. split; [|done].
    revert E. unfold close_epoll_fd, mbind, M_bind, get. cbn [epollfd]. rewrite (proj2 (Z.eqb_neq _ _)) by done.
    unfold modify, field_upd. cbn. intros ->. done.
Qed.

(** The call of [serve] that a report leads to. *)
Definition serve_of (r : report) (s : srv T) : outcome (list server_action * T) :=
  if ev_fd r =? server_sock s then serve (EvConnect (ev_accept r) (ev_inbox r)) (inner (let_go s))
  else if ev_fd r =? client (inner s) then serve (if ev_err r then EvHangup else EvReadable) (inner s)
  else Ret ([], inner s).

Lemma close_client_returns fd s : returns (close_client fd s).
Proof. unfold close_client, epoll_del, close, modify, mbind, M_bind. by eexists. Qed.

Lemma handle_report_returns F r s : srv_inv F s -> report_ok r s -> returns (serve_of r s) -> returns (handle_report r s).
Proof.
  intros I [Hfd Hacc] [[a t] Ht]. unfold serve_of in Ht. unfold handle_report, mbind at 1, M_bind at 1, get at 1.
  destruct (ev_fd r =? server_sock s).
  - unfold new_client. unfold mbind at 1, M_bind at 1. rewrite accept_run.
    unfold mbind at 1, M_bind at 1, get at 1. change (inner (accepted (ev_accept r) s)) with (inner s).
    unfold mbind at 1, M_bind at 1. rewrite (let_go_run F) by done. unfold mbind, M_bind, on_inner.
    change (inner (accepted (ev_accept r) (let_go s))) with (inner (let_go s)). rewrite Ht.
    match goal with |- context [epoll_add ?o ?f ?x] => destruct (epoll_add_run o f x) as (added & E & _); rewrite E end.
    by eexists.
  - destruct (Z.eqb_spec (ev_fd r) (client (inner s))) as [Hc|]; [|by eexists].
    assert (Ho : client (inner s) ∈ opened s) by (apply (client_open F); [done|congruence]).
    unfold client_event, mbind at 1, M_bind at 1, get at 1. destruct (ev_err r).
    + unfold mbind, M_bind. rewrite close_client_run by done. unfold on_inner. change (inner (dropped s (inner s))) with (inner s).
      rewrite Ht. by eexists.
    + unfold mbind, M_bind, on_inner, get. rewrite Ht. destruct (client _ =? _); [by eexists|].
      match goal with |- context [close_client ?f ?x] => destruct (close_client_returns f x) as [[u s1] E]; rewrite E end.
      by eexists.
Qed.

(** C28. A server has at most one client: in every state its thread can reach, what is open besides
    what was is the listening socket, the interest list and the client; only
    the socket and the client are waited for; no descriptor is closed that is not
    open; and a report stops the thread only when what it makes of a message does.  When the thread
    ends, from any of these states or because it could not begin, everything it has opened is closed. *)
Theorem server_descriptors F h t : host_ok h F ->
  exists go s0, server_begin h (srv_init F t) = Ret (go, s0) /\ stray s0 = [] /\
    if go : bool then
      forall s, rtc srv_step s0 s ->
        opened s = F ∪ {[server_sock s; epollfd s]} ∪ client_fds (inner s) /\
        {[server_sock s]} ⊆ interest s /\ interest s ⊆ {[server_sock s]} ∪ client_fds (inner s) /\ stray s = [] /\
        (forall r, report_ok r s -> returns (serve_of r s) -> exists s', srv_step s s') /\
        exists s', close_epoll_fd s = Ret (tt, s') /\ opened s' = F /\ interest s' = ∅ /\ stray s' = []
    else opened s0 = F.
Proof.
  intros Hh. destruct (server_begin_run h F t Hh) as (go & s0 & E & Hgo). exists go, s0. split; [done|].
  destruct go; [|by destruct Hgo]. split; [by apply (si_stray F)|]. intros s Hs.
  pose proof (srv_steps_inv F _ _ Hgo Hs) as I. destruct (si_interest _ _ I) as [H1 H2].
  split; [apply I|]. split; [done|]. split; [done|]. split; [apply I|]. split; [|by apply close_epoll_fd_run].
  intros r Hr Hret. destruct (handle_report_returns F r s I Hr Hret) as [[a s'] Ea]. exists s'. by apply (srv_report r s a).
Qed.

(** A connection replaces the client there was: its descriptor is closed, whatever [accept] gave, and messages
    go to and come from the new one. *)
Theorem server_replaces_client F s r a s' : srv_inv F s -> report_ok r s -> ev_fd r = server_sock s ->
  handle_report r s = Ret (a, s') ->
  client (inner s') = ev_accept r /\ (client (inner s) <> -1 -> client (inner s) ∉ opened s') /\
  opened s' = F ∪ {[server_sock s; epollfd s]} ∪ client_fds (inner s').
Proof.
  intros I [Hfd Hacc] Hsk E. pose proof E as E'. unfold handle_report, mbind, M_bind, get in E'. rewrite Hsk, Z.eqb_refl in E'.
  destruct (new_client_inv F r s a s' I Hacc E') as [I' Hc]. split; [done|].
  assert (Hs : server_sock s' = server_sock s /\ epollfd s' = epollfd s).
  { revert E'. unfold new_client. unfold mbind at 1, M_bind at 1. rewrite accept_run.
    unfold mbind at 1, M_bind at 1, get at 1. change (inner (accepted (ev_accept r) s)) with (inner s).
    unfold mbind at 1, M_bind at 1. rewrite (let_go_run F) by done. unfold mbind, M_bind.
    destruct (on_inner _ _) as [[b s1]|] eqn:E1; [|done]. apply on_inner_run in E1 as (t & _ & ->).
    match goal with |- context [epoll_add ?o ?f ?x] => destruct (epoll_add_run o f x) as (added & E2 & _); rewrite E2 end.
    intros [= _ <-]. unfold let_go. cbn. by destruct (client (inner s) =? -1). }
  destruct Hs as [Hs1 Hs2]. pose proof (si_opened _ _ I') as Ho. rewrite Hs1, Hs2 in Ho. split; [|done].
  intros Hold Hin. pose proof (client_open F s I Hold) as Hopen. destruct (si_new _ _ I) as (_ & _ & _ & Hn). specialize (Hn Hold).
  rewrite Ho in Hin. apply elem_of_union in Hin as [Hin|Hin]; [done|]. unfold client_fds in Hin.
  destruct (Z.eqb_spec (client (inner s')) (-1)); [by apply not_elem_of_empty in Hin|]. apply elem_of_singleton in Hin.
  apply Hacc; [congruence|]. by rewrite <- Hc, <- Hin.
Qed.
End Fds.

(** ** A run *)

Module ServerDemo.
#[local] Instance quiet : Serving (display * conn) := display_serving false.
#[local] Instance quiet_laws : ServingLaws (display * conn) := display_laws false.
Definition screen : vscreen := mkVscreen (mkInfo 0 0 1920 1080) false 0 0 0 1920 1080.
Definition display0 : display := mkDisplay true 1 1 [screen] [] [] (-1) 0 [] [] [].
Definition state0 : display * conn := (display0, mkConn [] 0 (replicate 256 None)).
Definition std : gset Z := {[0; 1; 2]}.
Definition host : server_host := mkServerHost 3 true true 4 true.
Definition connect (fd : Z) : report := mkReport 3 false fd [] true.

(** Two clients after each other, and the end. *)
Definition outcome_of (h : server_host) (rounds : list (list report)) : option (gset Z * list Z * Z) :=
  match server_thread h rounds (srv_init std state0) with
  | Ret (_, s) => Some (opened s, stray s, client (inner s))
  | Stop _ => None
  end.
Example two_clients : outcome_of host [[connect 5]; [connect 6]] = Some (std, [], 6).
Proof. by vm_compute. Qed.
Example no_listen : outcome_of (mkServerHost 3 true false 4 true) [] = Some (std, [], -1).
Proof. by vm_compute. Qed.

(** When [accept] fails the client there was is cut off all the same. *)
Example failed_accept_drops : outcome_of host [[connect 5]; [connect (-1)]] = Some (std, [], -1).
Proof. by vm_compute. Qed.

Definition begun : srv (display * conn) :=
  match server_begin host (srv_init std state0) with Ret (_, s) => s | Stop _ => srv_init std state0 end.
Definition served1 : srv (display * conn) :=
  match handle_report (connect 5) begun with Ret (_, s) => s | Stop _ => begun end.

Lemma server_host_good : host_ok host std.
Proof. split; cbn; try (intros _; split); try done; by apply (bool_decide_unpack _). Defined.

Lemma connect_ok fd (s : srv (display * conn)) : bool_decide (fd ∉ opened s) = true -> report_ok (connect fd) s.
Proof. intros H%bool_decide_eq_true. by split. Qed.

Lemma served1_step : srv_step begun served1.
Proof. apply (srv_report (connect 5) _ [ActNone]); [by apply connect_ok|reflexivity]. Qed.

Lemma served1_inv : srv_inv std served1.
Proof.
  apply (srv_steps_inv _ begun); [|by apply rtc_once, served1_step].
  destruct (server_begin_run host std state0 server_host_good) as (go & s & E & Hgo).
  assert (E0 : server_begin host (srv_init std state0) = Ret (true, begun)) by reflexivity.
  rewrite E0 in E. by injection E as <- <-.
Qed.

Lemma server_descriptors_witness :
  opened served1 = std ∪ {[3; 4]} ∪ {[5]} /\ exists s', close_epoll_fd served1 = Ret (tt, s') /\ opened s' = std.
Proof.
  destruct (server_descriptors std host state0 server_host_good) as (go & s0 & E & _ & H).
  assert (E0 : server_begin host (srv_init std state0) = Ret (true, begun)) by reflexivity.
  rewrite E0 in E. injection E as <- <-.
  destruct (H served1 (rtc_once _ _ served1_step)) as (H1 & _ & _ & _ & _ & s' & H2 & H3 & _).
  split; [exact H1|]. by exists s'.
Defined.

Lemma server_replaces_client_witness :
  exists s', handle_report (connect 6) served1 = Ret ([ActNone], s') /\ client (inner s') = 6 /\ 5 ∉ opened s'.
Proof.
  assert (E : exists s', handle_report (connect 6) served1 = Ret ([ActNone], s')) by (eexists; reflexivity).
  destruct E as [s' E].
  destruct (server_replaces_client std served1 (connect 6) [ActNone] s' served1_inv) as (H1 & H2 & _); [by apply connect_ok|reflexivity|exact E|].
  exists s'. split; [exact E|]. split; [exact H1|]. by apply H2.
Defined.
End ServerDemo.
