(* ===== verification/DisplayOpt.v ===== *)
(** * Option strings

    [acrn_parse_virtio_poll_interval] of [src/virtio.c], and
    [vdpy_parse_cmd_option] of [src/devicemodel/hw/vdisplay_server.c]: a list of screens, each
    in the full size of a monitor or a window with a size and a place.  [sscanf] is that of the C library
    for a format of literal text and [%d]; numbers are read as in BlockOpen.v. *)
From S2P Require Import Prelude BlockOpen Edid Display.
From Stdlib Require Import Ascii String.

#[local] Open Scope string_scope.
#[local] Open Scope Z_scope.

Definition VSCREEN_MAX_NUM := VDPY_MAX_NUM.

(** ** The C library *)

Definition tolower (c : ascii) : ascii :=
  let n := nat_of_ascii c in if ((65 <=? n) && (n <=? 90))%nat then ascii_of_nat (n + 32) else c.

Fixpoint ci_prefix (needle s : string) : bool :=
  match needle, s with
  | EmptyString, _ => true
  | String a needle, String b s => Ascii.eqb (tolower a) (tolower b) && ci_prefix needle s
  | _, EmptyString => false
  end.

(** Where the needle first occurs, without regard to case. *)
Fixpoint strcasestr (s needle : string) : option string :=
  if ci_prefix needle s then Some s
  else match s with String _ s => strcasestr s needle | EmptyString => None end.

(** The pieces of a format; what is read up to the first that does not match. *)
Inductive piece := Lit (text : string) | Int.
Fixpoint skip (n : nat) (s : string) : string :=
  match n, s with S n, String _ s => skip n s | _, _ => s end.
Fixpoint sscanf (s : string) (format : list piece) : list Z :=
  match format with
  | [] => []
  | Lit text :: format =>
    if String.prefix text s then sscanf (skip (String.length text) s) format else []
  | Int :: format =>
    let '(v, rest, _) := strtol 0 10 s in
    if String.eqb rest s then [] else s32 v :: sscanf rest format
  end.

(** ** Parsing *)

(** What an option sets of a [struct vscreen]. *)
Record screen := mkScreen { o_x : Z; o_y : Z; o_width : Z; o_height : Z; pscreen_id : Z; is_fullscreen : bool }.
Definition no_screen : screen := mkScreen 0 0 0 0 0 false.

Definition fullscreen_screen (tmp : string) : screen :=
  let id := match sscanf tmp [Lit "geometry=fullscreen:"; Int] with [id] => id | _ => 0 end in
  mkScreen 0 0 VDPY_MAX_WIDTH VDPY_MAX_HEIGHT id true.

(** The numbers are stored as far as they are there; false for an incorrect option. *)
Definition window_screen (tmp : string) (v : screen) : screen * bool :=
  let l := sscanf tmp [Lit "geometry="; Int; Lit "x"; Int; Lit "+"; Int; Lit "+"; Int] in
  let at_ i d := nth i l d in
  (mkScreen (at_ 2%nat (o_x v)) (at_ 3%nat (o_y v)) (at_ 0%nat (o_width v)) (at_ 1%nat (o_height v)) 0 false,
   (List.length l =? 4)%nat).

(** One option: nothing, or the screen and whether it is correct. *)
Definition parse_screen (str : string) (v : screen) : option (screen * bool) :=
  match strcasestr str "geometry=" with
  | None => None
  | Some tmp =>
    match strcasestr str "geometry=fullscreen" with
    | Some _ => Some (fullscreen_screen tmp, true)
    | None => Some (window_screen tmp v)
    end
  end.

(** The loop: [error], [vscrs_num] and the array, which is NULL when there was no memory. *)
Fixpoint screens_loop (fuel : nat) (stropts : option string) (error : Z) (vscrs_num : nat) (vscrs : option (list screen))
  : outcome (Z * nat * option (list screen)) :=
  match stropts with
  | None => Ret (error, vscrs_num, vscrs)
  | Some s =>
    match fuel with
    | O => Stop OutOfFuel
    | S fuel =>
      let '(str, rest) := strsep "," s in
      match vscrs with
      | None =>
        match strcasestr str "geometry=" with
        | Some _ => Stop NullDeref
        | None => screens_loop fuel rest error vscrs_num vscrs
        end
      | Some l =>
        match parse_screen str (nth vscrs_num l no_screen) with
        | None => screens_loop fuel rest error vscrs_num vscrs
        | Some (v, ok) =>
          if (vscrs_num <? List.length l)%nat then
            let error := if ok : bool then error else -1 in
            let vscrs_num := S vscrs_num in
            if VSCREEN_MAX_NUM <? Z.of_nat vscrs_num then Ret (error, vscrs_num, Some (<[(vscrs_num - 1)%nat := v]> l))
            else screens_loop fuel rest error vscrs_num (Some (<[(vscrs_num - 1)%nat := v]> l))
          else Stop OobAccess
        end
      end
    end
  end.

(** The result, the number of screens and the screens. *)
Definition vdpy_parse_cmd_option (alloc : bool) (opts : string) : outcome (Z * nat * option (list screen)) :=
  screens_loop (S (String.length opts)) (Some opts) 0 0
    (if alloc then Some (replicate (Z.to_nat VSCREEN_MAX_NUM) no_screen) else None).

(** ** virtio.c

    The result and [virtio_poll_interval], which is stored in either case. *)
Definition acrn_parse_virtio_poll_interval (optarg : string) : Z * Z :=
  let '(v, _, _) := strtoul 0 0 optarg in (if (v <? 1) || (10000000 <? v) then -1 else 0, v).

Example poll_intervals : map acrn_parse_virtio_poll_interval ["100"; "0x2710us"; "0"; "10000001"; "-1"] =
  [(0, 100); (0, 10000); (-1, 0); (-1, 10000001); (-1, 2 ^ 64 - 1)].
Proof. by vm_compute. Qed.

(** ** What is counted *)

(** The options that are screens. *)
Fixpoint options_of (fuel : nat) (stropts : option string) : list string :=
  match stropts, fuel with
  | Some s, S fuel => let '(str, rest) := strsep "," s in str :: options_of fuel rest
  | _, _ => []
  end.
Definition is_screen (str : string) : bool := match strcasestr str "geometry=" with Some _ => true | None => false end.
Definition screen_options (opts : string) : list string := List.filter is_screen (options_of (S (String.length opts)) (Some opts)).

Lemma parse_screen_is str v : is_Some (parse_screen str v) <-> is_screen str = true.
Proof.
  unfold parse_screen, is_screen. destruct (strcasestr str "geometry="); [|split; [intros [? ?]|]; done].
  split; [done|]. intros _. destruct (strcasestr str "geometry=fullscreen"); by eexists.
Qed.

(** The screens that the options give, one after the other, over what is in the array. *)
Definition add_screen (l : list screen) (n : nat) (str : string) : list screen :=
  match parse_screen str (nth n l no_screen) with Some (v, _) => <[n := v]> l | None => l end.
Fixpoint add_screens (l : list screen) (n : nat) (strs : list string) : list screen :=
  match strs with [] => l | str :: strs => add_screens (add_screen l n str) (S n) strs end.
Definition correct (str : string) : bool := match parse_screen str no_screen with Some (_, ok) => ok | None => true end.

Lemma correct_any str v v' ok ok' w w' : parse_screen str v = Some (w, ok) -> parse_screen str v' = Some (w', ok') -> ok = ok'.
Proof.
  unfold parse_screen. destruct (strcasestr str "geometry="); [|done].
  destruct (strcasestr str "geometry=fullscreen"); [by intros [= _ <-] [= _ <-]|]. unfold window_screen. by intros [= _ <-] [= _ <-].
Qed.

Lemma parse_correct str v w ok : parse_screen str v = Some (w, ok) -> correct str = ok.
Proof.
  intros Ep. unfold correct. destruct (parse_screen str no_screen) as [[w' ok']|] eqn:Ep'; [by apply (correct_any _ _ _ _ _ _ _ Ep' Ep)|].
  assert (H : is_Some (parse_screen str no_screen)); [|rewrite Ep' in H; by destruct H].
  apply parse_screen_is, (parse_screen_is str v). by eexists.
Qed.

Lemma length_add_screen l n str : List.length (add_screen l n str) = List.length l.
Proof. unfold add_screen. destruct (parse_screen str _) as [[v ok]|]; [|done]. apply length_insert. Qed.

Definition left_of (stropts : option string) : nat := match stropts with Some s => S (String.length s) | None => 0 end.

Lemma strsep_left delim s str rest : strsep delim s = (str, rest) -> (left_of rest <= String.length s)%nat.
Proof. destruct rest as [r|]; cbn; [|lia]. intros H%strsep_length. lia. Qed.

Lemma forallb_error (b c : bool) (error : Z) : (if b then if c then error else -1 else -1) = if c && b then error else -1.
Proof. by destruct b, c. Qed.

Lemma screens_loop_run fuel : forall stropts error n l,
  (left_of stropts <= fuel)%nat -> List.length l = Z.to_nat VSCREEN_MAX_NUM -> (n <= List.length l)%nat ->
  let strs := List.filter is_screen (options_of fuel stropts) in
  screens_loop fuel stropts error n (Some l) =
    if (n + List.length strs <=? List.length l)%nat
    then Ret (if forallb correct strs then error else -1, (n + List.length strs)%nat, Some (add_screens l n strs))
    else Stop OobAccess.
Proof.
  induction fuel as [|fuel IH]; intros [s|] error n l Hf Hl Hn strs; unfold strs; clear strs;
    try (cbn in Hf; lia);
    try (cbn; rewrite Nat.add_0_r, (proj2 (Nat.leb_le _ _)) by done; done).
  cbn [screens_loop options_of]. destruct (strsep "," s) as [str rest] eqn:Es. apply strsep_left in Es. cbn in Hf.
  cbn [List.filter]. destruct (parse_screen str (nth n l no_screen)) as [[v ok]|] eqn:Ep.
  - assert (is_screen str = true) as -> by (apply (parse_screen_is str (nth n l no_screen)); by eexists).
    destruct (Nat.ltb_spec n (List.length l)) as [Hlt|Hge].
    + rewrite (proj2 (Z.ltb_ge VSCREEN_MAX_NUM (Z.of_nat (S n)))) by lia. rewrite Nat.sub_succ, Nat.sub_0_r.
      rewrite IH; [|lia|by rewrite length_insert|rewrite length_insert; lia]. rewrite length_insert. cbn [List.length].
      rewrite <- plus_n_Sm. cbn [Nat.add forallb add_screens]. rewrite (parse_correct _ _ _ _ Ep).
      unfold add_screen. rewrite Ep. destruct (_ <=? _)%nat; [|done]. by rewrite forallb_error.
    + cbn [List.length]. by rewrite (proj2 (Nat.leb_gt _ _)) by lia.
  - destruct (is_screen str) eqn:Ei; [apply (parse_screen_is str (nth n l no_screen)) in Ei; rewrite Ep in Ei; by destruct Ei|].
    apply IH; [lia|done..].
Qed.

(** Parsing ends for every option string.  The options that mention a geometry are the screens, in
    their order; up to four of them, the result is 0 when all windows are given in full and -1
    otherwise, and the others of the array stay empty.  With a fifth the array is
    written past its end: the test comes after the write. *)
Theorem screens_counted opts :
  vdpy_parse_cmd_option true opts =
    let strs := screen_options opts in
    if (List.length strs <=? 4)%nat
    then Ret (if forallb correct strs then 0 else -1, List.length strs, Some (add_screens (replicate 4 no_screen) 0 strs))
    else Stop OobAccess.
Proof. unfold vdpy_parse_cmd_option. rewrite screens_loop_run; [done|done|done|cbn; lia]. Qed.

(** ** Windows, printed and parsed *)

(** A number of C's [int] in decimal: a sign and digits. *)
Definition num_string (n : bool * list nat) : string := signed (fst n) (decimal (snd n)).
Definition num_value (n : bool * list nat) : Z := if fst n then - value (snd n) else value (snd n).
Definition num_ok (n : bool * list nat) : Prop := decimal_ok (snd n) /\ - 2 ^ 31 <= num_value n < 2 ^ 31.

Record geometry := mkGeometry { g_width : bool * list nat; g_height : bool * list nat; g_x : bool * list nat; g_y : bool * list nat }.
Definition geometry_ok (g : geometry) : Prop := num_ok (g_width g) /\ num_ok (g_height g) /\ num_ok (g_x g) /\ num_ok (g_y g).
Definition print_geometry (g : geometry) : string :=
  "geometry=" ++ num_string (g_width g) ++ "x" ++ num_string (g_height g) ++ "+" ++ num_string (g_x g) ++ "+" ++ num_string (g_y g).
Definition window_of (g : geometry) : screen :=
  mkScreen (num_value (g_x g)) (num_value (g_y g)) (num_value (g_width g)) (num_value (g_height g)) 0 false.

(** An option: a window, the full size of a numbered monitor, the full size of the first one with the
    keyword in any mixture of cases, or something else, which does not contain the keyword. *)
Fixpoint lower (s : string) : string := match s with EmptyString => EmptyString | String c s => String (tolower c) (lower s) end.
Inductive display_option :=
  | Window (g : geometry)
  | Monitor (n : bool * list nat)
  | Fullscreen (keyword : string)
  | Other (text : string).
Definition print_option (o : display_option) : string :=
  match o with
  | Window g => print_geometry g
  | Monitor n => "geometry=fullscreen:" ++ num_string n
  | Fullscreen keyword => keyword
  | Other text => text
  end.
Definition option_screen (o : display_option) : option screen :=
  match o with
  | Window g => Some (window_of g)
  | Monitor n => Some (mkScreen 0 0 3840 2160 (num_value n) true)
  | Fullscreen _ => Some (mkScreen 0 0 3840 2160 0 true)
  | Other _ => None
  end.
Fixpoint print_options (os : list display_option) : string :=
  match os with [] => EmptyString | [o] => print_option o | o :: os => print_option o ++ "," ++ print_options os end.

Lemma string_app_assoc (a b c : string) : (a ++ b) ++ c = a ++ (b ++ c).
Proof. induction a as [|x a IH]; [done|]. change (String x ((a ++ b) ++ c) = String x (a ++ (b ++ c))). by rewrite IH. Qed.
Lemma string_app_nil (a : string) : a ++ EmptyString = a.
Proof. induction a as [|x a IH]; [done|]. change (String x (a ++ EmptyString) = String x a). by rewrite IH. Qed.

(** No character of [s] satisfies [f]. *)
Fixpoint none (f : ascii -> bool) (s : string) : bool := match s with EmptyString => true | String c s => negb (f c) && none f s end.
Lemma none_app f a b : none f (a ++ b) = none f a && none f b.
Proof. induction a as [|x a IH]; [done|]. change (negb (f x) && none f (a ++ b) = negb (f x) && none f a && none f b). by rewrite IH, andb_assoc. Qed.

Definition option_ok (o : display_option) : Prop :=
  match o with
  | Window g => geometry_ok g
  | Monitor n => num_ok n
  | Fullscreen keyword => lower keyword = "geometry=fullscreen"
  | Other text => none (fun c => Ascii.eqb c ",") text = true /\
      forall before keyword after, text = before ++ keyword ++ after -> lower keyword <> "geometry="
  end.

Lemma none_decimal f ds : (forall d, (d < 10)%nat -> f (ascii_of_nat (48 + d)) = false) -> Forall (fun d => (d < 10)%nat) ds ->
  none f (decimal ds) = true.
Proof.
  intros Hf. induction 1 as [|d ds Hd _ IH]; [done|]. change (negb (f (ascii_of_nat (48 + d))) && none f (decimal ds) = true).
  by rewrite Hf, IH.
Qed.
Lemma none_num f n : (forall d, (d < 10)%nat -> f (ascii_of_nat (48 + d)) = false) -> f "-"%char = false -> num_ok n ->
  none f (num_string n) = true.
Proof.
  intros Hd Hm [[_ Hn] _]. unfold num_string. destruct (fst n); cbn [signed]; [|by apply none_decimal].
  cbn. rewrite Hm. by apply none_decimal.
Qed.

Lemma strsep_none delim s : none (fun c => Ascii.eqb c delim) s = true ->
  strsep delim s = (s, None) /\ forall rest, strsep delim (s ++ String delim rest) = (s, Some rest).
Proof.
  induction s as [|c s IH]; [split; [done|]; intros rest; change (EmptyString ++ String delim rest) with (String delim rest); cbn [strsep]; by rewrite Ascii.eqb_refl|]. cbn [none].
  intros [Hc%negb_true_iff [H1 H2]%IH]%andb_true_iff. split.
  - cbn [strsep]. by rewrite Hc, H1.
  - intros rest. change (String c s ++ String delim rest)%string with (String c (s ++ String delim rest)). cbn [strsep].
    by rewrite Hc, H2.
Qed.

(** A needle is not found where its first character is not. *)
Lemma strcasestr_none a needle s : none (fun c => Ascii.eqb (tolower a) (tolower c)) s = true -> strcasestr s (String a needle) = None.
Proof.
  induction s as [|c s IH]; [done|]. cbn [none strcasestr ci_prefix]. intros [Hc%negb_true_iff Hs]%andb_true_iff.
  rewrite Hc. by apply IH.
Qed.

(** [%d] reads what was printed. *)
Lemma scan_num n rest format : num_ok n -> starts_with_digit 10 rest = false ->
  sscanf (num_string n ++ rest) (Int :: format) = num_value n :: sscanf rest format.
Proof.
  intros [Hn Hv] Hr. assert (Es : num_string n ++ rest = signed (fst n) (decimal (snd n) ++ rest)).
  { unfold num_string. by destruct (fst n). }
  cbn [sscanf]. unfold strtol. rewrite Es, number_decimal by done. fold (num_value n).
  rewrite (proj2 (Z.ltb_ge LONG_MAX _)), (proj2 (Z.ltb_ge _ LONG_MIN)) by (unfold LONG_MAX, LONG_MIN; lia).
  rewrite <- Es, app_longer, s32_small; [done|lia|]. unfold num_string. destruct Hn as [Hne _]. destruct (fst n); [done|].
  by destruct (snd n).
Qed.

Lemma scan_lit text rest format : sscanf (text ++ rest) (Lit text :: format) = sscanf rest format.
Proof.
  cbn [sscanf]. replace (String.prefix text (text ++ rest)) with true.
  - f_equal. induction text as [|c text IH]; [reflexivity|exact IH].
  - induction text as [|c text IH]; [by destruct rest|]. change (String c text ++ rest) with (String c (text ++ rest)). cbn.
    destruct (ascii_dec c c); [exact IH|done].
Qed.

(** *** One window *)

Definition tail_of (g : geometry) : string :=
  num_string (g_width g) ++ "x" ++ num_string (g_height g) ++ "+" ++ num_string (g_x g) ++ "+" ++ num_string (g_y g).

(** The characters of a window after its keyword. *)
Lemma tail_none f g : geometry_ok g -> (forall d, (d < 10)%nat -> f (ascii_of_nat (48 + d)) = false) ->
  f "-"%char = false -> f "x"%char = false -> f "+"%char = false -> none f (tail_of g) = true.
Proof.
  intros (H1 & H2 & H3 & H4) Hd Hm Hx Hp. unfold tail_of. rewrite !none_app, !none_num by done. cbn. by rewrite Hx, Hp.
Qed.

Lemma ci_prefix_app n s : ci_prefix n (n ++ s) = true.
Proof.
  induction n as [|c n IH]; [by destruct s|]. change (Ascii.eqb (tolower c) (tolower c) && ci_prefix n (n ++ s) = true).
  by rewrite Ascii.eqb_refl.
Qed.
Lemma strcasestr_front s needle : ci_prefix needle s = true -> strcasestr s needle = Some s.
Proof. intros H. destruct s; cbn [strcasestr]; by rewrite H. Qed.
Lemma ci_prefix_none a needle s : none (fun c => Ascii.eqb (tolower a) (tolower c)) s = true -> ci_prefix (String a needle) s = false.
Proof. destruct s as [|c s]; [done|]. cbn [none ci_prefix]. by intros [->%negb_true_iff _]%andb_true_iff. Qed.

Ltac digit_case := intros ? ?; match goal with d : nat |- _ => each_digit d end.

Lemma not_fullscreen g : geometry_ok g -> strcasestr (print_geometry g) "geometry=fullscreen" = None.
Proof.
  intros Hg. change (print_geometry g) with (String "g" ("eometry=" ++ tail_of g)).
  assert (Ht : none (fun c => Ascii.eqb (tolower "g") (tolower c)) ("eometry=" ++ tail_of g) = true).
  { rewrite none_app, tail_none; try done. digit_case. }
  assert (Hf : ci_prefix "geometry=fullscreen" (String "g" ("eometry=" ++ tail_of g)) = false).
  { change (ci_prefix "fullscreen" (tail_of g) = false). apply ci_prefix_none, tail_none; try done. digit_case. }
  cbn [strcasestr]. rewrite Hf. by apply strcasestr_none.
Qed.

Lemma parse_window g v : geometry_ok g -> parse_screen (print_geometry g) v = Some (window_of g, true).
Proof.
  intros Hg. unfold parse_screen. rewrite not_fullscreen by done.
  rewrite strcasestr_front by (change (ci_prefix "geometry=" ("geometry=" ++ tail_of g) = true); apply ci_prefix_app).
  destruct Hg as (H1 & H2 & H3 & H4). unfold window_screen, print_geometry.
  rewrite scan_lit, scan_num, scan_lit, scan_num, scan_lit, scan_num, scan_lit by done.
  rewrite <- (string_app_nil (num_string (g_y g))), scan_num by done. reflexivity.
Qed.

Lemma window_no_comma g : geometry_ok g -> none (fun c => Ascii.eqb c ",") (print_geometry g) = true.
Proof. intros Hg. change (print_geometry g) with ("geometry=" ++ tail_of g). rewrite none_app, tail_none; try done. digit_case. Qed.

(** *** The other options *)

Lemma lower_length s : String.length (lower s) = String.length s.
Proof. induction s as [|c s IH]; [done|]. cbn. by rewrite IH. Qed.
Lemma none_lower delim s : tolower delim = delim -> none (fun c => Ascii.eqb c delim) (lower s) = true -> none (fun c => Ascii.eqb c delim) s = true.
Proof.
  intros Hd. induction s as [|c s IH]; [done|]. cbn [lower none]. intros [Hc Hs]%andb_true_iff. rewrite IH by done.
  destruct (Ascii.eqb_spec c delim) as [-> |]; [|done]. by rewrite Hd, Ascii.eqb_refl in Hc.
Qed.
Lemma ci_prefix_lower n k s : lower k = lower n -> ci_prefix n (k ++ s) = true.
Proof.
  revert k. induction n as [|a n IH]; intros [|b k]; [by destruct s|done|done|]. cbn [lower]. intros [= Hc Hk].
  change (Ascii.eqb (tolower a) (tolower b) && ci_prefix n (k ++ s) = true). by rewrite Hc, Ascii.eqb_refl, IH.
Qed.
Lemma ci_prefix_found n s : ci_prefix n s = true -> exists k rest, s = k ++ rest /\ lower k = lower n.
Proof.
  revert s. induction n as [|a n IH]; intros s; [by exists EmptyString, s|]. destruct s as [|b s]; [done|]. cbn [ci_prefix].
  intros [Hc%Ascii.eqb_eq (k & rest & -> & Hk)%IH]%andb_true_iff. exists (String b k), rest. split; [done|]. cbn [lower]. by rewrite Hk, Hc.
Qed.
Lemma strcasestr_found s n t : strcasestr s n = Some t -> exists before k after, s = before ++ k ++ after /\ lower k = lower n.
Proof.
  induction s as [|c s IH]; cbn [strcasestr]; destruct (ci_prefix n _) eqn:Ep; try done.
  - intros _. apply ci_prefix_found in Ep as (k & rest & E & Hk). by exists EmptyString, k, rest.
  - intros _. apply ci_prefix_found in Ep as (k & rest & E & Hk). by exists EmptyString, k, rest.
  - intros (before & k & after & -> & Hk)%IH. by exists (String c before), k, after.
Qed.
Lemma ci_prefix_weaken a b s : ci_prefix (a ++ b) s = true -> ci_prefix a s = true.
Proof.
  revert s. induction a as [|x a IH]; intros s; [by destruct s|]. change (String x a ++ b) with (String x (a ++ b)).
  destruct s as [|y s]; [done|]. cbn [ci_prefix]. intros [-> H%IH]%andb_true_iff. exact H.
Qed.
Lemma prefix_length t s : String.prefix t s = true -> (String.length t <= String.length s)%nat.
Proof.
  revert s. induction t as [|a t IH]; intros [|b s]; cbn; try done; try lia. destruct (ascii_dec a b); [|done]. intros H%IH. lia.
Qed.

Lemma parse_keyword keyword rest v : lower keyword = "geometry=fullscreen" ->
  parse_screen (keyword ++ rest) v = Some (fullscreen_screen (keyword ++ rest), true).
Proof.
  intros Hk. unfold parse_screen. assert (Hp : ci_prefix "geometry=fullscreen" (keyword ++ rest) = true) by by apply ci_prefix_lower.
  rewrite (strcasestr_front _ "geometry=") by by apply (ci_prefix_weaken "geometry=" "fullscreen"). by rewrite strcasestr_front.
Qed.

Lemma parse_option o v : option_ok o -> parse_screen (print_option o) v = match option_screen o with Some w => Some (w, true) | None => None end.
Proof.
  destruct o as [g|n|keyword|text]; cbn [option_ok print_option option_screen]; intros Ho.
  - by apply parse_window.
  - change ("geometry=fullscreen:" ++ num_string n) with ("geometry=fullscreen" ++ (":" ++ num_string n)). rewrite parse_keyword by done.
    unfold fullscreen_screen. change ("geometry=fullscreen" ++ (":" ++ num_string n)) with ("geometry=fullscreen:" ++ num_string n).
    rewrite scan_lit, <- (string_app_nil (num_string n)), scan_num by done. done.
  - rewrite <- (string_app_nil keyword) at 1. rewrite parse_keyword, string_app_nil by done. unfold fullscreen_screen. cbn [sscanf].
    destruct (String.prefix "geometry=fullscreen:" keyword) eqn:Ep; [|done].
    apply prefix_length in Ep. rewrite <- (lower_length keyword), Ho in Ep. cbn in Ep. lia.
  - unfold parse_screen. destruct (strcasestr text "geometry=") eqn:Es; [|done].
    apply strcasestr_found in Es as (before & k & after & E & Hk). destruct Ho as [_ Ho]. by destruct (Ho _ _ _ E).
Qed.

Lemma option_no_comma o : option_ok o -> none (fun c => Ascii.eqb c ",") (print_option o) = true.
Proof.
  destruct o as [g|n|keyword|text]; cbn [option_ok print_option].
  - by apply window_no_comma.
  - intros Hn. rewrite none_app, none_num; try done. digit_case.
  - intros Hk. apply none_lower; [done|]. by rewrite Hk.
  - by intros [H _].
Qed.

(** *** Any number of them *)

Lemma options_of_print os fuel : os <> [] -> Forall option_ok os -> (String.length (print_options os) < fuel)%nat ->
  options_of fuel (Some (print_options os)) = map print_option os.
Proof.
  revert fuel. induction os as [|o os IH]; [done|]. intros fuel _ Hos Hf. inversion_clear Hos as [|? ? Ho Hos'].
  destruct fuel as [|fuel]; [lia|]. destruct (strsep_none "," _ (option_no_comma o Ho)) as [Hs1 Hs2].
  destruct os as [|o' os].
  - cbn [print_options options_of]. rewrite Hs1. by destruct fuel.
  - change (print_options (o :: o' :: os)) with (print_option o ++ String "," (print_options (o' :: os))) in *.
    cbn [options_of]. rewrite Hs2. cbn [map]. f_equal. apply IH; [done|done|].
    rewrite string_length_app in Hf. cbn [String.length] in Hf. lia.
Qed.

(** The screens of options. *)
Definition screens_of (os : list display_option) : list screen := omap option_screen os.

Lemma is_screen_option o : option_ok o -> is_screen (print_option o) = match option_screen o with Some _ => true | None => false end.
Proof.
  intros Ho. pose proof (parse_screen_is (print_option o) no_screen) as Hp. rewrite parse_option in Hp by done.
  destruct (option_screen o), (is_screen _); try done.
  - assert (H : false = true) by (apply Hp; by eexists). done.
  - destruct (proj2 Hp eq_refl). done.
Qed.
Lemma screens_printed os : Forall option_ok os ->
  let strs := List.filter is_screen (map print_option os) in List.length strs = List.length (screens_of os) /\ forallb correct strs = true /\
  forall l n, (n + List.length (screens_of os) <= List.length l)%nat ->
    add_screens l n strs = (take n l ++ screens_of os ++ drop (n + List.length (screens_of os)) l)%list.
Proof.
  unfold screens_of. induction 1 as [|o os Ho _ (IH1 & IH2 & IH3)].
  - split; [done|]. split; [done|]. intros l n _. cbn. by rewrite Nat.add_0_r, take_drop.
  - cbn [map List.filter]. rewrite is_screen_option by done. pose proof (parse_option o) as Hp. cbn [omap list_omap]. destruct (option_screen o) as [w|] eqn:Ew.
    + split; [cbn; by rewrite IH1|]. split.
      * cbn [forallb]. by rewrite (parse_correct _ no_screen w true), IH2 by by apply Hp.
      * intros l n Hn. cbn [add_screens List.length] in *. unfold add_screen. rewrite Hp by done. rewrite IH3 by (rewrite length_insert; lia).
        cbn [Nat.add]. rewrite <- plus_n_Sm, (drop_insert_lt l) by lia.
        rewrite (take_S_r _ n w) by (rewrite list_lookup_insert_eq by lia; done). rewrite take_insert_ge by lia. by rewrite <- app_assoc.
    + split; [exact IH1|]. split; [exact IH2|exact IH3].
Qed.

(** C32. What is printed is read back.  Options joined by commas: windows with their size and place
    in C's [int] range, in decimal with a sign where they are negative; the full size of a
    monitor by its number; the full size of the first monitor, the keyword in upper or
    lower case; and others that do not contain the keyword.  Up to four of them screens,
    parsing gives just these, in order, each with its size, place, monitor and flag,
    and no error.  With more the program stops by writing behind the array of four. *)
Theorem screens_roundtrip os : os <> [] -> Forall option_ok os ->
  vdpy_parse_cmd_option true (print_options os) =
    if (List.length (screens_of os) <=? 4)%nat
    then Ret (0, List.length (screens_of os), Some (screens_of os ++ replicate (4 - List.length (screens_of os)) no_screen)%list)
    else Stop OobAccess.
Proof.
  intros Hne Hos. unfold vdpy_parse_cmd_option. rewrite screens_loop_run; [|cbn; lia|done|cbn; lia].
  rewrite options_of_print by (done || lia). destruct (screens_printed os Hos) as (Hl & Hc & Ha). rewrite Hl, Hc. cbn [Nat.add].
  change (List.length (replicate (Z.to_nat VSCREEN_MAX_NUM) no_screen)) with 4%nat. destruct (Nat.leb_spec (List.length (screens_of os)) 4) as [H4|H4]; [|done].
  rewrite Ha by exact H4. cbn [take Nat.add app]. by rewrite drop_replicate.
Qed.

Example two_screens : vdpy_parse_cmd_option true "geometry=1280x720+10+-20,x=1,GEOMETRY=FULLSCREEN,geometry=fullscreen:2" =
  Ret (0, 3%nat, Some [mkScreen 10 (-20) 1280 720 0 false; mkScreen 0 0 3840 2160 0 true; mkScreen 0 0 3840 2160 2 true; no_screen]).
Proof. by vm_compute. Qed.

Definition several : list display_option :=
  [Window (mkGeometry (false, [1; 2; 8; 0]%nat) (false, [7; 2; 0]%nat) (false, [1; 0]%nat) (true, [2; 0]%nat));
   Other "edid"; Fullscreen "Geometry=FULLscreen"; Monitor (false, [2]%nat)].
Example several_printed : print_options several = "geometry=1280x720+10+-20,edid,Geometry=FULLscreen,geometry=fullscreen:2".
Proof. by vm_compute. Qed.

(** A fifth screen is written behind the array. *)
Example five_screens : vdpy_parse_cmd_option true "geometry=fullscreen,geometry=fullscreen,geometry=fullscreen,geometry=fullscreen,geometry=fullscreen" = Stop OobAccess.
Proof. by vm_compute. Qed.

(** A short text does not contain the keyword. *)
Lemma short_other text : none (fun c => Ascii.eqb c ",") text = true -> (String.length text < 9)%nat -> option_ok (Other text).
Proof.
  intros Hc Hl. split; [done|]. intros before k after -> Hk. apply (f_equal String.length) in Hk. rewrite lower_length in Hk.
  rewrite !string_length_app, Hk in Hl. cbn in Hl. lia.
Qed.

Lemma screens_roundtrip_witness :
  vdpy_parse_cmd_option true (print_options several) =
    Ret (0, 3%nat, Some [mkScreen 10 (-20) 1280 720 0 false; mkScreen 0 0 3840 2160 0 true; mkScreen 0 0 3840 2160 2 true; no_screen]).
Proof.
  apply (screens_roundtrip several); [discriminate|].
  apply Forall_cons_2; [|apply Forall_cons_2; [by apply short_other; [|cbn; lia]|apply Forall_cons_2; [reflexivity|apply Forall_cons_2; [|apply Forall_nil_2]]]].
  - repeat constructor; cbn; try discriminate; try lia; vm_compute; congruence.
  - repeat constructor; cbn; try discriminate; try lia; vm_compute; congruence.
Defined.
