(* ===== verification/Rtc.v ===== *)
(** * The real-time clock

    [src/devicemodel/hw/platform/rtc.c]: the calendar, the registers of an MC146818, its
    interrupts and the two ports.  The registers are the 128 bytes of [struct rtcdev].
    What [time] answers, call by call, is the function [clock].  [irq] has the changes of
    the interrupt line and [periodic] the intervals the periodic timer was started
    with, the last one at the end. *)
From S2P Require Import Prelude.

(** ** Registers *)

Definition RTC_SEC := 0%nat.
Definition RTC_SECALRM := 1%nat.
Definition RTC_MIN := 2%nat.
Definition RTC_MINALRM := 3%nat.
Definition RTC_HRS := 4%nat.
Definition RTC_HRSALRM := 5%nat.
Definition RTC_WDAY := 6%nat.
Definition RTC_DAY := 7%nat.
Definition RTC_MONTH := 8%nat.
Definition RTC_YEAR := 9%nat.
Definition RTC_STATUSA := 10%nat.
Definition RTC_STATUSB := 11%nat.
Definition RTC_INTR := 12%nat.
Definition RTC_STATUSD := 13%nat.
Definition NVRAM := 14%nat.
Definition RTC_CENTURY := 50%nat.
Definition SIZEOF_RTCDEV := 128%nat.

Definition RTCSA_TUP := 0x80.
Definition RTCSB_24HR := 0x02.
Definition RTCSB_BIN := 0x04.
Definition RTCSB_UINTR := 0x10.
Definition RTCSB_AINTR := 0x20.
Definition RTCSB_PINTR := 0x40.
Definition RTCSB_HALT := 0x80.
Definition RTCSB_ALL_INTRS := Z.lor (Z.lor RTCSB_UINTR RTCSB_AINTR) RTCSB_PINTR.
Definition RTCIR_UPDATE := 0x10.
Definition RTCIR_ALARM := 0x20.
Definition RTCIR_PERIOD := 0x40.
Definition RTCIR_INT := 0x80.
Definition RTCSD_PWR := 0x80.
Definition VRTC_BROKEN_TIME := -1.
Definition SBT_1S := 1000000000.

(** [struct rtcdev] as its bytes. *)
Notation rtcdev := (list Z).
Definition reg (r : rtcdev) (i : nat) : Z := nth i r 0.
Definition set_reg (i : nat) (v : Z) (r : rtcdev) : rtcdev := <[i := u8 v]> r.

Definition rtc_halted (r : rtcdev) : bool := has (reg r RTC_STATUSB) RTCSB_HALT.
Definition aintr_enabled (r : rtcdev) : bool := has (reg r RTC_STATUSB) RTCSB_AINTR.
Definition pintr_enabled (r : rtcdev) : bool := has (reg r RTC_STATUSB) RTCSB_PINTR.
Definition uintr_enabled (r : rtcdev) : bool := has (reg r RTC_STATUSB) RTCSB_UINTR.

(** ** The calendar *)

Definition SECDAY := 24 * 60 * 60.
Definition POSIX_BASE_YEAR := 1970.

Record clktime := mkClk { year : Z; mon : Z; day : Z; hour : Z; min : Z; sec : Z; dow : Z }.

Definition leapyear (year : Z) : bool :=
  if Z.land year 3 =? 0 then if Z.rem year 100 =? 0 then Z.rem year 400 =? 0 else true else false.
Definition days_in_year (y : Z) : Z := if leapyear y then 366 else 365.
Definition month_days : list Z := [31; 28; 31; 30; 31; 30; 31; 31; 30; 31; 30; 31].
Definition days_in_month (y m : Z) : Z :=
  nth (Z.to_nat (m - 1)) month_days 0 + (if m =? 2 then b2z (leapyear y) else 0).

(** [n] years from [y], [n] months from [m]. *)
Fixpoint years_days (n : nat) (y : Z) : Z :=
  match n with O => 0 | S n => days_in_year y + years_days n (y + 1) end.
Fixpoint months_days (n : nat) (y m : Z) : Z :=
  match n with O => 0 | S n => days_in_month y m + months_days n y (m + 1) end.

(** The seconds, or [None] for -1. *)
Definition clk_ct_to_ts (ct : clktime) : option Z :=
  if (mon ct <? 1) || (12 <? mon ct) || (day ct <? 1) || (days_in_month (year ct) (mon ct) <? day ct) ||
     (23 <? hour ct) || (59 <? min ct) || (59 <? sec ct) then None
  else
    let days := years_days (Z.to_nat (year ct - POSIX_BASE_YEAR)) POSIX_BASE_YEAR +
                months_days (Z.to_nat (mon ct - 1)) (year ct) 1 + (day ct - 1) in
    Some (((days * 24 + hour ct) * 60 + min ct) * 60 + sec ct).

(** The loops that subtract whole years and whole months: what they count and what is left. *)
Fixpoint take_years (fuel : nat) (year days : Z) : outcome (Z * Z) :=
  if days_in_year year <=? days then
    match fuel with O => Stop OutOfFuel | S fuel => take_years fuel (year + 1) (days - days_in_year year) end
  else Ret (year, days).
Fixpoint take_months (fuel : nat) (year i days : Z) : outcome (Z * Z) :=
  if 12 <? i then Stop OobAccess
  else if days_in_month year i <=? days then
    match fuel with O => Stop OutOfFuel | S fuel => take_months fuel year (i + 1) (days - days_in_month year i) end
  else Ret (i, days).

(** A year has at least 365 days, and twelve months. *)
Definition clk_ts_to_ct (secs : Z) : outcome clktime :=
  let days := Z.quot secs SECDAY in
  let rsec := Z.rem secs SECDAY in
  '(year, rest) ← take_years (Z.to_nat (days / 365)) POSIX_BASE_YEAR days;
  '(i, rest) ← take_months 12 year 1 rest;
  Ret (mkClk (s32 year) (s32 i) (s32 (rest + 1)) (s32 (Z.quot rsec 3600)) (s32 (Z.quot (Z.rem rsec 3600) 60))
         (s32 (Z.rem (Z.rem rsec 3600) 60)) (s32 (Z.rem (days + 4) 7))).

(** ** The date and time registers *)

(** [bin2bcd_data] has a hundred entries. *)
Definition bin2bcd (v : Z) : outcome Z := if (0 <=? v) && (v <? 100) then Ret (16 * (v / 10) + v mod 10) else Stop OobAccess.
Definition rtcset (r : rtcdev) (val : Z) : outcome Z := if has (reg r RTC_STATUSB) RTCSB_BIN then Ret (u8 val) else bin2bcd val.
(** [None] for -1. *)
Definition rtcget (r : rtcdev) (val : Z) : option Z :=
  if has (reg r RTC_STATUSB) RTCSB_BIN then Some val
  else
    let lower := Z.land val 0xf in
    let upper := Z.land (Z.shiftr val 4) 0xf in
    if (9 <? lower) || (9 <? upper) then None else Some (upper * 10 + lower).

Definition clk_valid (ct : clktime) : bool :=
  negb ((sec ct <? 0) || (59 <? sec ct) || (min ct <? 0) || (59 <? min ct) || (hour ct <? 0) || (23 <? hour ct) ||
        (dow ct <? 0) || (6 <? dow ct) || (day ct <? 1) || (31 <? day ct) || (mon ct <? 1) || (12 <? mon ct) ||
        (year ct <? POSIX_BASE_YEAR)).

(** The hour as the registers have it. *)
Definition hour12 (h : Z) : Z := if (h =? 0) || (h =? 12) then 12 else Z.rem h 12.
Definition store_hour (r : rtcdev) (h : Z) : outcome rtcdev :=
  let h24 := has (reg r RTC_STATUSB) RTCSB_24HR in
  v ← rtcset r (if h24 then h else hour12 h);
  let r := set_reg RTC_HRS v r in
  Ret (if negb h24 && (12 <=? h) then set_reg RTC_HRS (Z.lor (reg r RTC_HRS) 0x80) r else r).

Definition put (i : nat) (val : Z) (r : rtcdev) : outcome rtcdev := v ← rtcset r val; Ret (set_reg i v r).

Definition store_clk (ct : clktime) (r : rtcdev) : outcome rtcdev :=
  r ← put RTC_SEC (sec ct) r;
  r ← put RTC_MIN (min ct) r;
  r ← store_hour r (hour ct);
  r ← put RTC_WDAY (dow ct + 1) r;
  r ← put RTC_DAY (day ct) r;
  r ← put RTC_MONTH (mon ct) r;
  r ← put RTC_YEAR (Z.rem (year ct) 100) r;
  put RTC_CENTURY (Z.quot (year ct) 100) r.

Definition secs_to_rtc (rtctime : Z) (force_update : bool) (r : rtcdev) : outcome rtcdev :=
  if rtctime <? 0 then Ret r
  else if rtc_halted r && negb force_update then Ret r
  else ct ← clk_ts_to_ct rtctime; if clk_valid ct then store_clk ct r else Ret r.

(** A field between two bounds. *)
Definition field (r : rtcdev) (i : nat) (lo hi : Z) : option Z :=
  v ← rtcget r (reg r i); if (v <? lo) || (hi <? v) then None else Some v.

Definition load_hour (r : rtcdev) : option Z :=
  if has (reg r RTC_STATUSB) RTCSB_24HR then field r RTC_HRS 0 23
  else
    let h := reg r RTC_HRS in
    let pm := has h 0x80 in
    (* a value that cannot be read leaves 0, which no hour is *)
    let v := default 0 (rtcget r (if pm then Z.land h (Z.lnot 0x80) else h)) in
    if (1 <=? v) && (v <=? 12) then
      let v := (if v =? 12 then 0 else v) + (if pm then 12 else 0) in
      if 23 <? v then None else Some v
    else None.

(** What is put together from the fields; a century that cannot be read fails as well. *)
Definition load_clk (r : rtcdev) : option clktime :=
  s ← field r RTC_SEC 0 59;
  m ← field r RTC_MIN 0 59;
  h ← load_hour r;
  d ← field r RTC_DAY 1 31;
  mo ← field r RTC_MONTH 1 12;
  y ← field r RTC_YEAR 0 99;
  c ← rtcget r (reg r RTC_CENTURY);
  let y := c * 100 + y in
  if y <? POSIX_BASE_YEAR then None else Some (mkClk y mo d h m s (-1)).

Definition rtc_to_secs (r : rtcdev) : Z :=
  match load_clk r with
  | None => VRTC_BROKEN_TIME
  | Some ct => match clk_ct_to_ts ct with Some t => if t <? 0 then VRTC_BROKEN_TIME else t | None => VRTC_BROKEN_TIME end
  end.

(** ** The device *)

Record vrtc := mkVrtc {
  addr : nat; base_uptime : Z; base_rtctime : Z; dev : rtcdev;
  irq : list bool; periodic : list Z; reads : nat
}.
#[export] Instance vrtc_eta : Settable vrtc := fun v =>
  mkVrtc (addr v) (base_uptime v) (base_rtctime v) (dev v) (irq v) (periodic v) (reads v).

Section Clock.
Context (clock : nat -> Z).

Definition time : M vrtc Z := fun v => Ret (clock (reads v), v <| reads ::= S |>).
Definition on_dev (f : rtcdev -> rtcdev) : M vrtc unit := modify (fun v => v <| dev ::= f |>).
Definition refresh (t : Z) (force : bool) : M vrtc unit :=
  v ← get; r ← lift (secs_to_rtc t force (dev v)); on_dev (fun _ => r).

Definition divider_enabled (reg_a : Z) : bool := Z.land reg_a 0x70 =? 0x20.
Definition update_enabled (v : vrtc) : bool :=
  divider_enabled (reg (dev v) RTC_STATUSA) && negb (rtc_halted (dev v)) && negb (base_rtctime v =? VRTC_BROKEN_TIME).

(** The time and the base time. *)
Definition vrtc_curtime : M vrtc (Z * Z) :=
  v ← get;
  if update_enabled v then
    now ← time;
    let secs := now - base_uptime v in
    mret (base_rtctime v + secs, base_uptime v + secs)
  else mret (base_rtctime v, base_uptime v).

Definition pf : list Z :=
  [0; SBT_1S / 256; SBT_1S / 128; SBT_1S / 8192; SBT_1S / 4096; SBT_1S / 2048; SBT_1S / 1024; SBT_1S / 512;
   SBT_1S / 256; SBT_1S / 128; SBT_1S / 64; SBT_1S / 32; SBT_1S / 16; SBT_1S / 8; SBT_1S / 4; SBT_1S / 2].
Definition vrtc_freq (v : vrtc) : Z :=
  if pintr_enabled (dev v) && divider_enabled (reg (dev v) RTC_STATUSA) then
    nth (Z.to_nat (Z.land (reg (dev v) RTC_STATUSA) 0xf)) pf 0
  else if aintr_enabled (dev v) && update_enabled v then SBT_1S
  else if uintr_enabled (dev v) && update_enabled v then SBT_1S
  else 0.

(** ** Interrupts *)

(** Some interrupt that is enabled is pending. *)
Definition pending (r : rtcdev) (flags : Z) : bool :=
  (aintr_enabled r && has flags RTCIR_ALARM) || (pintr_enabled r && has flags RTCIR_PERIOD) ||
  (uintr_enabled r && has flags RTCIR_UPDATE).

Definition vrtc_set_reg_c (newval : Z) : M vrtc unit :=
  v ← get;
  let newval := Z.land newval (Z.lor (Z.lor RTCIR_ALARM RTCIR_PERIOD) RTCIR_UPDATE) in
  let oldirqf := has (reg (dev v) RTC_INTR) RTCIR_INT in
  let newirqf := pending (dev v) newval in
  _ ← on_dev (set_reg RTC_INTR (Z.lor (if newirqf then RTCIR_INT else 0) newval));
  if negb oldirqf && newirqf then modify (fun v => v <| irq ::= fun l => l ++ [true] |>)
  else if oldirqf && negb newirqf then modify (fun v => v <| irq ::= fun l => l ++ [false] |>)
  else mret tt.

Definition alarm_hit (alarm now : Z) : bool := (0xC0 <=? alarm) || (alarm =? now).

(** One round of the loop of [vrtc_time_update]. *)
Definition update_round (alarm_sec alarm_min alarm_hour oldtime newtime : Z) : M vrtc unit :=
  v ← get;
  _ ← modify (fun v => v <| base_rtctime :=
        if aintr_enabled (dev v) && negb (oldtime =? VRTC_BROKEN_TIME) then base_rtctime v + 1 else newtime |>);
  if aintr_enabled (dev v) then
    v ← get;
    _ ← refresh (base_rtctime v) false;
    v ← get;
    let r := dev v in
    when (alarm_hit alarm_sec (reg r RTC_SEC) && alarm_hit alarm_min (reg r RTC_MIN) && alarm_hit alarm_hour (reg r RTC_HRS))
      (vrtc_set_reg_c (Z.lor (reg r RTC_INTR) RTCIR_ALARM))
  else mret tt.

Fixpoint update_rounds (fuel : nat) (alarm_sec alarm_min alarm_hour oldtime newtime : Z) : M vrtc unit :=
  match fuel with
  | O => halt OutOfFuel
  | S fuel =>
    _ ← update_round alarm_sec alarm_min alarm_hour oldtime newtime;
    v ← get;
    if base_rtctime v =? newtime then mret tt else update_rounds fuel alarm_sec alarm_min alarm_hour oldtime newtime
  end.

(** A round for each second, and one for a jump. *)
Definition vrtc_time_update (newtime newbase : Z) : M vrtc Z :=
  v ← get;
  let oldtime := base_rtctime v in
  _ ← modify (fun v => v <| base_uptime := newbase |>);
  if newtime =? oldtime then mret 0
  else if newtime =? VRTC_BROKEN_TIME then _ ← modify (fun v => v <| base_rtctime := VRTC_BROKEN_TIME |>); mret 0
  else if rtc_halted (dev v) then mret (-1)
  else
    let rounds := if aintr_enabled (dev v) && negb (oldtime =? VRTC_BROKEN_TIME) then Z.to_nat (newtime - oldtime) else 1%nat in
    _ ← update_rounds rounds (reg (dev v) RTC_SECALRM) (reg (dev v) RTC_MINALRM)
          (reg (dev v) RTC_HRSALRM) oldtime newtime;
    v ← get;
    _ ← when (uintr_enabled (dev v)) (vrtc_set_reg_c (Z.lor (reg (dev v) RTC_INTR) RTCIR_UPDATE));
    mret 0.

Definition vrtc_periodic_timer : M vrtc unit :=
  v ← get; when (pintr_enabled (dev v)) (vrtc_set_reg_c (Z.lor (reg (dev v) RTC_INTR) RTCIR_PERIOD)).

Definition vrtc_update_timer : M vrtc unit :=
  v ← get;
  when (aintr_enabled (dev v) || uintr_enabled (dev v))
    ('(curtime, basetime) ← vrtc_curtime; _ ← vrtc_time_update curtime basetime; mret tt).

(** ** Writing the control registers *)

Definition start_periodic (oldfreq : Z) : M vrtc unit :=
  v ← get;
  let newfreq := vrtc_freq v in
  when (pintr_enabled (dev v) && negb (newfreq =? oldfreq)) (modify (fun v => v <| periodic ::= fun l => l ++ [newfreq] |>)).

(** Setting or clearing the halt bit; false for an error. *)
Definition halt_changed (halted : bool) : M vrtc bool :=
  v ← get;
  if negb halted then
    let rtctime := rtc_to_secs (dev v) in
    basetime ← time;
    if rtctime =? VRTC_BROKEN_TIME then mret false
    else r ← vrtc_time_update rtctime basetime; mret (r =? 0)
  else
    '(curtime, basetime) ← vrtc_curtime;
    v ← get;
    if negb (curtime =? base_rtctime v) then mret false
    else
      _ ← refresh curtime true;
      _ ← on_dev (fun r => set_reg RTC_STATUSB (Z.land (reg r RTC_STATUSB) (Z.lnot RTCSB_UINTR)) r);
      r ← vrtc_time_update VRTC_BROKEN_TIME basetime; mret (r =? 0).

Definition vrtc_set_reg_b (newval : Z) : M vrtc Z :=
  v ← get;
  let newval := u8 newval in
  let oldval := reg (dev v) RTC_STATUSB in
  let oldfreq := vrtc_freq v in
  _ ← on_dev (set_reg RTC_STATUSB newval);
  let changed := Z.lxor oldval newval in
  ok ← (if has changed RTCSB_HALT then halt_changed (has newval RTCSB_HALT) else mret true);
  if negb ok then mret (-1)
  else
    v ← get;
    _ ← when (has changed RTCSB_ALL_INTRS) (vrtc_set_reg_c (reg (dev v) RTC_INTR));
    _ ← start_periodic oldfreq;
    mret 0.

Definition vrtc_set_reg_a (newval : Z) : M vrtc unit :=
  let newval := Z.land (u8 newval) (Z.lnot RTCSA_TUP) in
  v ← get;
  let oldval := reg (dev v) RTC_STATUSA in
  let oldfreq := vrtc_freq v in
  _ ← (if negb (divider_enabled oldval) && divider_enabled newval
       then now ← time; modify (fun v => v <| base_uptime := now |>) else mret tt);
  _ ← on_dev (set_reg RTC_STATUSA newval);
  start_periodic oldfreq.

(** ** The ports *)

Definition vrtc_nvram_write (offset : Z) (value : Z) : M vrtc Z :=
  if (offset <? Z.of_nat NVRAM) || (offset =? Z.of_nat RTC_CENTURY) || (Z.of_nat SIZEOF_RTCDEV <=? offset) then mret (-1)
  else _ ← on_dev (set_reg (Z.to_nat offset) value); mret 0.

(** The result and [eax]. *)
Definition vrtc_addr_handler (inp : bool) (bytes eax : Z) : M vrtc (Z * Z) :=
  if negb (bytes =? 1) then mret (-1, eax)
  else if inp then mret (0, 0xff)
  else _ ← modify (fun v => v <| addr := Z.to_nat (Z.land eax 0x7f) |>); mret (0, eax).

Definition data_read (offset : nat) : M vrtc Z :=
  v ← get;
  let x := reg (dev v) offset in
  _ ← when (offset =? RTC_INTR)%nat (vrtc_set_reg_c 0);
  mret x.

Definition data_write (offset : nat) (eax : Z) : M vrtc Z :=
  error ← (if (offset =? RTC_STATUSA)%nat then _ ← vrtc_set_reg_a eax; mret 0
           else if (offset =? RTC_STATUSB)%nat then vrtc_set_reg_b eax
           else if (offset =? RTC_INTR)%nat || (offset =? RTC_STATUSD)%nat then mret 0
           else _ ← on_dev (set_reg offset eax); mret 0);
  v ← get;
  if (offset =? RTC_CENTURY)%nat && negb (rtc_halted (dev v)) then
    let curtime := rtc_to_secs (dev v) in
    now ← time;
    error ← vrtc_time_update curtime now;
    mret (if negb (error =? 0) || (curtime =? VRTC_BROKEN_TIME) then -1 else error)
  else mret error.

Definition vrtc_data_handler (inp : bool) (bytes eax : Z) : M vrtc (Z * Z) :=
  if negb (bytes =? 1) then mret (-1, eax)
  else
    v ← get;
    let offset := addr v in
    if (SIZEOF_RTCDEV <=? offset)%nat then mret (-1, eax)
    else
      '(curtime, basetime) ← vrtc_curtime;
      _ ← vrtc_time_update curtime basetime;
      _ ← (if (offset <? 10)%nat || (offset =? RTC_CENTURY)%nat then refresh curtime false else mret tt);
      if inp then x ← data_read offset; mret (0, x)
      else
        let eax := if (offset =? RTC_SEC)%nat then Z.land eax 0x7f else eax in
        error ← data_write offset eax; mret (error, eax).

Definition vrtc_set_time (secs : Z) : M vrtc Z := now ← time; vrtc_time_update secs now.

(** ** Beginning *)

Definition KB := 1024.
Definition MB := 1024 * KB.
Definition RTC_LMEM_LSB := 0x34.
Definition RTC_LMEM_MSB := 0x35.
Definition RTC_HMEM_LSB := 0x5b.
Definition RTC_HMEM_SB := 0x5c.
Definition RTC_HMEM_MSB := 0x5d.

Definition blank_vrtc : vrtc := mkVrtc 0 0 0 (replicate SIZEOF_RTCDEV 0) [] [] 0.

(** The end of [vrtc_init]: the registers and the time. *)
Definition start_clock : M vrtc unit :=
  _ ← on_dev (fun r => set_reg RTC_STATUSD RTCSD_PWR (set_reg RTC_INTR 0 (set_reg RTC_STATUSB RTCSB_24HR (set_reg RTC_STATUSA 0x20 r))));
  _ ← modify (fun v => v <| addr := RTC_STATUSD |>);
  curtime ← time;
  _ ← modify (fun v => v <| base_rtctime := VRTC_BROKEN_TIME |>);
  now ← time;
  _ ← vrtc_time_update curtime now;
  refresh curtime false.

(** [None] for an error; [ports] says whether the two ports could be registered. *)
Definition vrtc_init (lomem himem : Z) (ports : bool) : outcome (option vrtc) :=
  if lomem <? 16 * MB then Ret None
  else
    let lomem := (lomem - 16 * MB) / (64 * KB) in
    let himem := himem / (64 * KB) in
    '(_, v) ← (_ ← vrtc_nvram_write RTC_LMEM_LSB lomem; _ ← vrtc_nvram_write RTC_LMEM_MSB (Z.shiftr lomem 8);
               _ ← vrtc_nvram_write RTC_HMEM_LSB himem; _ ← vrtc_nvram_write RTC_HMEM_SB (Z.shiftr himem 8);
               _ ← vrtc_nvram_write RTC_HMEM_MSB (Z.shiftr himem 16);
               when ports start_clock) blank_vrtc;
    Ret (if ports then Some v else None).
End Clock.
