(* ===== verification/RtcSpec.v ===== *)
(** * What the clock computes

    The calendar of Rtc.v against its definition, the registers as a representation of
    the time, and the alarm. *)
From S2P Require Import Prelude Rtc.

(** ** The calendar *)

(** The leap years from year 1 to year [y], and the days before a year, from 1970 on. *)
Definition leaps (y : Z) : Z := y / 4 - y / 100 + y / 400.
Definition year_start (y : Z) : Z := 365 * (y - 1970) + leaps (y - 1) - leaps 1969.

Lemma leapyear_spec y : 0 <= y -> leapyear y = true <-> (y mod 4 = 0 /\ y mod 100 <> 0) \/ y mod 400 = 0.
Proof.
  intros Hy. unfold leapyear. change 3 with (Z.ones 2). rewrite Z.land_ones, !Z.rem_mod_nonneg by lia. change (2 ^ 2) with 4.
  destruct (Z.eqb_spec (y mod 4) 0); [|split; [done|]; Z.div_mod_to_equations; lia].
  destruct (Z.eqb_spec (y mod 100) 0); [rewrite Z.eqb_eq|]; Z.div_mod_to_equations; lia.
Qed.

Lemma leaps_step y : 1 <= y -> leaps y = leaps (y - 1) + b2z (leapyear y).
Proof.
  intros Hy. destruct (leapyear y) eqn:E; unfold leaps; cbn [b2z].
  - apply leapyear_spec in E; [|lia]. Z.div_mod_to_equations; lia.
  - assert (H : ~ ((y mod 4 = 0 /\ y mod 100 <> 0) \/ y mod 400 = 0)).
    { intros H. apply leapyear_spec in H; [congruence|lia]. }
    clear E. Z.div_mod_to_equations; lia.
Qed.

Lemma year_start_step y : 1 <= y -> year_start (y + 1) = year_start y + days_in_year y.
Proof.
  intros Hy. unfold year_start, days_in_year. replace (y + 1 - 1) with y by lia. rewrite (leaps_step y Hy).
  destruct (leapyear y); cbn [b2z]; lia.
Qed.

Lemma years_days_eq n : forall y, 1 <= y -> years_days n y = year_start (y + Z.of_nat n) - year_start y.
Proof.
  induction n as [|n IH]; intros y Hy; cbn [years_days]; [replace (y + Z.of_nat 0) with y by lia; lia|].
  rewrite IH by lia. rewrite year_start_step by done. replace (y + 1 + Z.of_nat n) with (y + Z.of_nat (S n)) by lia. lia.
Qed.

Lemma days_in_year_bounds y : 365 <= days_in_year y <= 366.
Proof. unfold days_in_year. destruct (leapyear y); lia. Qed.

Lemma year_start_mono y y' : 1 <= y -> y <= y' -> year_start y <= year_start y'.
Proof.
  intros Hy Hle. pose proof (years_days_eq (Z.to_nat (y' - y)) y Hy) as E.
  replace (y + Z.of_nat (Z.to_nat (y' - y))) with y' in E by lia.
  assert (H : forall n z, 0 <= years_days n z).
  { intros n. induction n as [|n IH]; intros z; cbn [years_days]; [lia|]. pose proof (days_in_year_bounds z). specialize (IH (z + 1)). lia. }
  specialize (H (Z.to_nat (y' - y)) y). lia.
Qed.

Lemma take_years_run fuel : forall y days, 1 <= y -> 0 <= days -> days < 365 * (Z.of_nat fuel + 1) ->
  exists y' rest, take_years fuel y days = Ret (y', rest) /\ y <= y' /\ 0 <= rest < days_in_year y' /\
    days = year_start y' - year_start y + rest.
Proof.
  induction fuel as [|fuel IH]; intros y days Hy Hd Hf; pose proof (days_in_year_bounds y) as Hb; cbn [take_years];
    destruct (Z.leb_spec (days_in_year y) days) as [Hle|Hlt]; try lia.
  - exists y, days. split; [done|]. lia.
  - destruct (IH (y + 1) (days - days_in_year y)) as (y' & rest & E & H1 & H2 & H3); try lia.
    exists y', rest. split; [done|]. rewrite year_start_step in H3 by done. lia.
  - exists y, days. split; [done|]. lia.
Qed.

(** *** Months *)

(** The days before month [m], and one more after February of a leap year. *)
Definition month_table : list Z := [0; 31; 59; 90; 120; 151; 181; 212; 243; 273; 304; 334; 365].
Definition month_start (y m : Z) : Z := nth (Z.to_nat (m - 1)) month_table 0 + (if 3 <=? m then b2z (leapyear y) else 0).

Ltac each_month m := assert (Hm : m = 1 \/ m = 2 \/ m = 3 \/ m = 4 \/ m = 5 \/ m = 6 \/ m = 7 \/ m = 8 \/ m = 9 \/ m = 10 \/ m = 11 \/ m = 12)
  by lia; repeat (destruct Hm as [-> | Hm]); try rewrite Hm.

Lemma month_start_step y m : 1 <= m <= 12 -> month_start y (m + 1) = month_start y m + days_in_month y m.
Proof. intros H. unfold month_start, days_in_month. each_month m; destruct (leapyear y); reflexivity. Qed.

Lemma month_start_year y : month_start y 13 = days_in_year y.
Proof. unfold month_start, days_in_year. by destruct (leapyear y). Qed.

Lemma months_days_eq y n : forall m, 1 <= m -> m + Z.of_nat n <= 13 -> months_days n y m = month_start y (m + Z.of_nat n) - month_start y m.
Proof.
  induction n as [|n IH]; intros m Hm Hn; cbn [months_days]; [replace (m + Z.of_nat 0) with m by lia; lia|].
  rewrite IH by lia. rewrite month_start_step by lia. replace (m + 1 + Z.of_nat n) with (m + Z.of_nat (S n)) by lia. lia.
Qed.

Lemma days_in_month_bounds y m : 1 <= m <= 12 -> 28 <= days_in_month y m <= 31.
Proof. intros H. unfold days_in_month. each_month m; destruct (leapyear y); split; vm_compute; congruence. Qed.

Lemma take_months_run y fuel : forall i days, 1 <= i <= 12 -> 12 <= i + Z.of_nat fuel -> 0 <= days < days_in_year y - month_start y i ->
  exists i' rest, take_months fuel y i days = Ret (i', rest) /\ i <= i' <= 12 /\ 0 <= rest < days_in_month y i' /\
    days = month_start y i' - month_start y i + rest.
Proof.
  induction fuel as [|fuel IH]; intros i days Hi Hf Hd; cbn [take_months]; rewrite (proj2 (Z.ltb_ge 12 i)) by lia;
    pose proof (month_start_step y i Hi) as Hs; destruct (Z.leb_spec (days_in_month y i) days) as [Hle|Hlt].
  - exfalso. replace i with 12 in * by lia. change (12 + 1) with 13 in Hs. rewrite month_start_year in Hs. lia.
  - exists i, days. split; [done|]. lia.
  - assert (i < 12). { destruct (Z.eq_dec i 12) as [-> |]; [|lia]. change (12 + 1) with 13 in Hs. rewrite month_start_year in Hs. lia. }
    destruct (IH (i + 1) (days - days_in_month y i)) as (i' & rest & E & H1 & H2 & H3); try lia.
    exists i', rest. split; [done|]. lia.
  - exists i, days. split; [done|]. lia.
Qed.

(** *** Dates and seconds *)

(** A date of the calendar. *)
Record date_ok (ct : clktime) : Prop := {
  dk_year : 1970 <= year ct; dk_mon : 1 <= mon ct <= 12; dk_day : 1 <= day ct <= days_in_month (year ct) (mon ct);
  dk_hour : 0 <= hour ct <= 23; dk_min : 0 <= min ct <= 59; dk_sec : 0 <= sec ct <= 59
}.

(** The seconds of a date by its definition. *)
Definition date_days (ct : clktime) : Z := year_start (year ct) + month_start (year ct) (mon ct) + (day ct - 1).
Definition date_secs (ct : clktime) : Z := SECDAY * date_days ct + 3600 * hour ct + 60 * min ct + sec ct.

(** The first second of the year 10000. *)
Definition END_OF_TIME := 253402300800.

Lemma ct_to_ts_eq ct : date_ok ct -> clk_ct_to_ts ct = Some (date_secs ct).
Proof.
  intros [Hy Hm Hd Hh Hmi Hs]. unfold clk_ct_to_ts.
  match goal with |- (if ?b then _ else _) = _ => assert (b = false) as -> by (rewrite !orb_false_iff, !Z.ltb_ge; lia) end.
  f_equal. unfold POSIX_BASE_YEAR. rewrite years_days_eq, months_days_eq by lia.
  replace (1970 + Z.of_nat (Z.to_nat (year ct - 1970))) with (year ct) by lia.
  replace (1 + Z.of_nat (Z.to_nat (mon ct - 1))) with (mon ct) by lia.
  change (year_start 1970) with 0. unfold date_secs, date_days, SECDAY.
  replace (month_start (year ct) 1) with 0 by done. lia.
Qed.

Lemma ts_to_ct_run t : 0 <= t < END_OF_TIME ->
  exists ct, clk_ts_to_ct t = Ret ct /\ date_ok ct /\ year ct <= 9999 /\ date_secs ct = t /\ dow ct = (t / SECDAY + 4) mod 7.
Proof.
  intros Ht. unfold clk_ts_to_ct. rewrite (Z.quot_div_nonneg t SECDAY), (Z.rem_mod_nonneg t SECDAY) by (unfold SECDAY; lia).
  set (days := t / SECDAY). set (rsec := t mod SECDAY).
  assert (Hd : 0 <= days /\ 0 <= rsec < 86400 /\ t = 86400 * days + rsec /\ days < 2932897).
  { unfold days, rsec, SECDAY, END_OF_TIME in *. Z.div_mod_to_equations. lia. }
  destruct Hd as (Hd0 & Hr & Et & Hmax).
  destruct (take_years_run (Z.to_nat (days / 365)) POSIX_BASE_YEAR days) as (y & rest & E & H1 & H2 & H3);
    [done|done|Z.div_mod_to_equations; lia|]. rewrite E. cbn [mbind outcome_bind].
  change (year_start POSIX_BASE_YEAR) with 0 in H3. unfold POSIX_BASE_YEAR in H1.
  destruct (take_months_run y 12 1 rest) as (m & d & E2 & H4 & H5 & H6); [lia|lia|replace (month_start y 1) with 0 by done; lia|].
  rewrite E2. cbn [mbind outcome_bind]. replace (month_start y 1) with 0 in H6 by done.
  assert (Hy : y <= 9999).
  { destruct (Z.le_gt_cases y 9999) as [|Hgt]; [done|]. pose proof (year_start_mono 10000 y ltac:(lia) ltac:(lia)) as Hm.
    change (year_start 10000) with 2932897 in Hm. lia. }
  pose proof (days_in_month_bounds y m H4) as Hdm.
  assert (Hq : 0 <= rsec / 3600 <= 23 /\ 0 <= rsec mod 3600 / 60 <= 59 /\ 0 <= rsec mod 3600 mod 60 <= 59 /\
    rsec = 3600 * (rsec / 3600) + 60 * (rsec mod 3600 / 60) + rsec mod 3600 mod 60).
  { Z.div_mod_to_equations. lia. }
  rewrite (Z.quot_div_nonneg rsec), !Z.rem_mod_nonneg by (Z.div_mod_to_equations; lia).
  rewrite (Z.quot_div_nonneg (rsec mod 3600)) by (Z.div_mod_to_equations; lia).
  rewrite !s32_small by (change (2 ^ 31) with 2147483648; Z.div_mod_to_equations; lia).
  eexists. split; [reflexivity|]. split; [split; cbn [year mon day hour min sec]; lia|]. cbn [year dow]. split; [done|]. split; [|done].
  unfold date_secs, date_days, SECDAY. cbn [year mon day hour min sec]. lia.
Qed.

Lemma year_of_days y y' d d' : 1 <= y -> 1 <= y' -> 0 <= d < days_in_year y -> 0 <= d' < days_in_year y' ->
  year_start y + d = year_start y' + d' -> y = y'.
Proof.
  intros Hy Hy' Hd Hd' E. destruct (Z.lt_trichotomy y y') as [Hlt|[He|Hlt]]; [|done|]; exfalso.
  - pose proof (year_start_mono (y + 1) y' ltac:(lia) ltac:(lia)). rewrite year_start_step in * by lia. lia.
  - pose proof (year_start_mono (y' + 1) y ltac:(lia) ltac:(lia)). rewrite year_start_step in * by lia. lia.
Qed.

Lemma month_start_mono y m m' : 1 <= m -> m <= m' -> m' <= 13 -> month_start y m <= month_start y m'.
Proof.
  intros H1 H2 H3. pose proof (months_days_eq y (Z.to_nat (m' - m)) m H1 ltac:(lia)) as E.
  replace (m + Z.of_nat (Z.to_nat (m' - m))) with m' in E by lia.
  assert (H : forall n z, 1 <= z -> z + Z.of_nat n <= 13 -> 0 <= months_days n y z).
  { intros n. induction n as [|n IH]; intros z Hz Hn; cbn [months_days]; [lia|]. pose proof (days_in_month_bounds y z ltac:(lia)).
    specialize (IH (z + 1) ltac:(lia) ltac:(lia)). lia. }
  specialize (H (Z.to_nat (m' - m)) m H1 ltac:(lia)). lia.
Qed.

Lemma month_of_days y m m' d d' : 1 <= m <= 12 -> 1 <= m' <= 12 -> 0 <= d < days_in_month y m -> 0 <= d' < days_in_month y m' ->
  month_start y m + d = month_start y m' + d' -> m = m'.
Proof.
  intros Hm Hm' Hd Hd' E. destruct (Z.lt_trichotomy m m') as [Hlt|[He|Hlt]]; [|done|]; exfalso.
  - pose proof (month_start_mono y (m + 1) m' ltac:(lia) ltac:(lia) ltac:(lia)). rewrite month_start_step in * by lia. lia.
  - pose proof (month_start_mono y (m' + 1) m ltac:(lia) ltac:(lia) ltac:(lia)). rewrite month_start_step in * by lia. lia.
Qed.

(** The day of a date is in its year. *)
Lemma date_in_year ct : date_ok ct -> 0 <= month_start (year ct) (mon ct) + (day ct - 1) < days_in_year (year ct).
Proof.
  intros [_ Hm Hd _ _ _]. pose proof (month_start_mono (year ct) 1 (mon ct) ltac:(lia) ltac:(lia) ltac:(lia)) as H0.
  replace (month_start (year ct) 1) with 0 in H0 by done.
  pose proof (month_start_mono (year ct) (mon ct + 1) 13 ltac:(lia) ltac:(lia) ltac:(lia)) as H1.
  rewrite month_start_year, month_start_step in H1 by done. lia.
Qed.

(** A date is known by its seconds. *)
Lemma date_secs_inj a b : date_ok a -> date_ok b -> date_secs a = date_secs b ->
  year a = year b /\ mon a = mon b /\ day a = day b /\ hour a = hour b /\ min a = min b /\ sec a = sec b.
Proof.
  intros Ha Hb E. pose proof (date_in_year a Ha) as Ya. pose proof (date_in_year b Hb) as Yb.
  destruct Ha as [Ha1 Ha2 Ha3 Ha4 Ha5 Ha6], Hb as [Hb1 Hb2 Hb3 Hb4 Hb5 Hb6]. unfold date_secs, SECDAY in E.
  assert (Ed : date_days a = date_days b) by lia. pose proof Ed as Ed'. unfold date_days in Ed'.
  assert (Ey : year a = year b) by (apply (year_of_days (year a) (year b) _ _ ltac:(lia) ltac:(lia) Ya Yb); lia).
  rewrite Ey in *. assert (Em : mon a = mon b) by (apply (month_of_days (year b) _ _ (day a - 1) (day b - 1)); lia).
  rewrite Em in *. split_and!; lia.
Qed.

(** The calendar: every second from 1970 to the end of 9999 becomes a date of the
    calendar, with the day of the week, and that date becomes the same second again; every
    date becomes the seconds that its definition gives, with leap years by the rule, and is
    found again.  The loops over years and months end. *)
Theorem calendar_roundtrip :
  (forall t, 0 <= t < END_OF_TIME -> exists ct, clk_ts_to_ct t = Ret ct /\ date_ok ct /\ clk_ct_to_ts ct = Some t /\
     dow ct = (t / SECDAY + 4) mod 7) /\
  (forall ct, date_ok ct -> clk_ct_to_ts ct = Some (date_secs ct)) /\
  (forall ct, date_ok ct -> date_secs ct < END_OF_TIME -> exists ct', clk_ts_to_ct (date_secs ct) = Ret ct' /\
     year ct' = year ct /\ mon ct' = mon ct /\ day ct' = day ct /\ hour ct' = hour ct /\ min ct' = min ct /\ sec ct' = sec ct) /\
  (forall y, 0 <= y -> leapyear y = true <-> (y mod 4 = 0 /\ y mod 100 <> 0) \/ y mod 400 = 0).
Proof.
  split; [|split; [exact ct_to_ts_eq|split; [|exact leapyear_spec]]].
  - intros t Ht. destruct (ts_to_ct_run t Ht) as (ct & E & Hd & _ & Es & Ew). exists ct. split; [done|]. split; [done|].
    split; [|done]. rewrite ct_to_ts_eq by done. by rewrite Es.
  - intros ct Hd Hs. assert (H0 : 0 <= date_secs ct).
    { pose proof (date_in_year ct Hd). destruct Hd. pose proof (year_start_mono 1970 (year ct) ltac:(lia) ltac:(lia)) as Hy.
      change (year_start 1970) with 0 in Hy. unfold date_secs, date_days, SECDAY. lia. }
    destruct (ts_to_ct_run (date_secs ct)) as (ct' & E & Hd' & _ & Es & _); [done|]. exists ct'. split; [done|].
    by apply date_secs_inj.
Qed.

(** ** The registers hold the time *)

Lemma reg_set i j v r : (i < length r)%nat -> reg (set_reg i v r) j = if decide (j = i) then u8 v else reg r j.
Proof.
  intros Hi. unfold reg, set_reg. rewrite !nth_lookup. destruct (decide (j = i)) as [->|Hn].
  - by rewrite list_lookup_insert_eq.
  - by rewrite list_lookup_insert_ne.
Qed.
Lemma length_set_reg i v r : length (set_reg i v r) = length r.
Proof. apply length_insert. Qed.

Definition bin (r : rtcdev) : bool := has (reg r RTC_STATUSB) RTCSB_BIN.
Definition h24 (r : rtcdev) : bool := has (reg r RTC_STATUSB) RTCSB_24HR.

(** A byte for a value below 100, and back. *)
Definition encode (b : bool) (v : Z) : Z := if b then v else 16 * (v / 10) + v mod 10.
Definition decode (b : bool) (v : Z) : option Z :=
  if b then Some v
  else if (9 <? Z.land v 0xf) || (9 <? Z.land (Z.shiftr v 4) 0xf) then None
  else Some (Z.land (Z.shiftr v 4) 0xf * 10 + Z.land v 0xf).

Lemma rtcset_run r v : 0 <= v < 100 -> rtcset r v = Ret (encode (bin r) v).
Proof.
  intros Hv. unfold rtcset, encode. fold (bin r). destruct (bin r).
  - f_equal. apply wrap_small. unfold fits. change (2 ^ 8) with 256. lia.
  - unfold bin2bcd. by rewrite (proj2 (Z.leb_le _ _)), (proj2 (Z.ltb_lt _ _)) by lia.
Qed.
Lemma rtcget_decode r v : rtcget r v = decode (bin r) v.
Proof. done. Qed.

(** Both ways for every value, by cases. *)
Definition below (n : nat) : list Z := map Z.of_nat (seq 0 n).
Lemma below_in n v : 0 <= v < Z.of_nat n -> v ∈ below n.
Proof. intros Hv. apply list_elem_of_fmap. exists (Z.to_nat v). rewrite elem_of_seq. lia. Qed.
Lemma forall_below n (P : Z -> bool) : forallb P (below n) = true -> forall v, 0 <= v < Z.of_nat n -> P v = true.
Proof. intros H v Hv. apply below_in, list_elem_of_In in Hv. by apply (proj1 (forallb_forall P _) H). Qed.

Lemma encode_ok b v : 0 <= v < 100 -> decode b (encode b v) = Some v /\ 0 <= encode b v < 256.
Proof.
  intros Hv. assert (H : (match decode b (encode b v) with Some w => w =? v | None => false end && (0 <=? encode b v) && (encode b v <? 256)) = true).
  { revert v Hv. change 100 with (Z.of_nat 100). apply (forall_below 100 (fun v => match decode b (encode b v) with Some w => w =? v | None => false end && (0 <=? encode b v) && (encode b v <? 256))). by destruct b; vm_compute. }
  apply andb_true_iff in H as [[H H1%Z.leb_le]%andb_true_iff H2%Z.ltb_lt]. split; [|lia].
  destruct (decode b (encode b v)) as [w|]; [|done]. apply Z.eqb_eq in H. by subst.
Qed.

(** The byte of an hour. *)
Definition encode_hour (b h24 : bool) (h : Z) : Z :=
  let v := encode b (if h24 then h else hour12 h) in if negb h24 && (12 <=? h) then Z.lor v 0x80 else v.
Definition decode_hour (b h24 : bool) (x : Z) : option Z :=
  if h24 then v ← decode b x; if (v <? 0) || (23 <? v) then None else Some v
  else
    let pm := has x 0x80 in
    let v := default 0 (decode b (if pm then Z.land x (Z.lnot 0x80) else x)) in
    if (1 <=? v) && (v <=? 12) then
      let v := (if v =? 12 then 0 else v) + (if pm then 12 else 0) in if 23 <? v then None else Some v
    else None.

Lemma encode_hour_ok b h h0 : 0 <= h0 < 24 -> decode_hour b h (encode_hour b h h0) = Some h0 /\ 0 <= encode_hour b h h0 < 256.
Proof.
  intros Hv. assert (H : (match decode_hour b h (encode_hour b h h0) with Some w => w =? h0 | None => false end &&
    (0 <=? encode_hour b h h0) && (encode_hour b h h0 <? 256)) = true).
  { revert h0 Hv. change 24 with (Z.of_nat 24). apply (forall_below 24 (fun h0 => match decode_hour b h (encode_hour b h h0) with Some w => w =? h0 | None => false end &&
    (0 <=? encode_hour b h h0) && (encode_hour b h h0 <? 256))). by destruct b, h; vm_compute. }
  apply andb_true_iff in H as [[H H1%Z.leb_le]%andb_true_iff H2%Z.ltb_lt]. split; [|lia].
  destruct (decode_hour b h _) as [w|]; [|done]. apply Z.eqb_eq in H. by subst.
Qed.

(** [r'] is [r] with register [i] set to [x]. *)
Definition updated (i : nat) (x : Z) (r r' : rtcdev) : Prop :=
  length r' = length r /\ forall j, reg r' j = if decide (j = i) then x else reg r j.

Lemma updated_mode i x r r' : updated i x r r' -> i <> RTC_STATUSB -> bin r' = bin r /\ h24 r' = h24 r.
Proof. intros [_ H] Hi. unfold bin, h24. rewrite (H RTC_STATUSB), decide_False by done. done. Qed.

Lemma put_run i v r : (i < length r)%nat -> 0 <= v < 100 -> exists r', put i v r = Ret r' /\ updated i (encode (bin r) v) r r'.
Proof.
  intros Hi Hv. destruct (encode_ok (bin r) v Hv) as [_ He]. unfold put. rewrite rtcset_run by done. cbn [mbind outcome_bind].
  eexists. split; [done|]. split; [apply length_set_reg|]. intros j. rewrite reg_set by done. destruct (decide (j = i)); [|done].
  apply wrap_small. exact He.
Qed.

Lemma hour12_bounds h : 0 <= h < 24 -> 0 <= hour12 h < 100.
Proof. intros H. unfold hour12. destruct (_ || _); [lia|]. rewrite Z.rem_mod_nonneg by lia. Z.div_mod_to_equations; lia. Qed.

Lemma store_hour_run r h : length r = SIZEOF_RTCDEV -> 0 <= h < 24 ->
  exists r', store_hour r h = Ret r' /\ updated RTC_HRS (encode_hour (bin r) (h24 r) h) r r'.
Proof.
  intros Hl Hh. unfold store_hour. fold (h24 r). pose proof (hour12_bounds h Hh) as Hb.
  assert (Hv : 0 <= (if h24 r then h else hour12 h) < 100) by (destruct (h24 r); lia).
  rewrite rtcset_run by done. cbn [mbind outcome_bind]. destruct (encode_ok (bin r) _ Hv) as [_ He].
  assert (Hi : (RTC_HRS < length r)%nat) by (rewrite Hl; unfold RTC_HRS, SIZEOF_RTCDEV; lia).
  eexists. split; [done|]. destruct (encode_hour_ok (bin r) (h24 r) h Hh) as [_ Hr]. unfold encode_hour in *.
  set (x := encode (bin r) _) in *. destruct (negb (h24 r) && (12 <=? h)).
  - split; [by rewrite !length_set_reg|]. intros j. rewrite !reg_set by (by rewrite ?length_set_reg).
    destruct (decide (RTC_HRS = RTC_HRS)) as [_|]; [|done]. assert (Ex : u8 x = x) by (apply wrap_small; exact He). rewrite Ex.
    destruct (decide (j = RTC_HRS)); [|done]. apply wrap_small. exact Hr.
  - split; [by rewrite length_set_reg|]. intros j. rewrite reg_set by done. destruct (decide _); [|done].
    apply wrap_small. exact He.
Qed.

(** The registers of a date; the others are those of [r]. *)
Record holds (ct : clktime) (r r' : rtcdev) : Prop := {
  hd_len : length r' = SIZEOF_RTCDEV;
  hd_sec : reg r' RTC_SEC = encode (bin r) (sec ct);
  hd_min : reg r' RTC_MIN = encode (bin r) (min ct);
  hd_hour : reg r' RTC_HRS = encode_hour (bin r) (h24 r) (hour ct);
  hd_wday : reg r' RTC_WDAY = encode (bin r) (dow ct + 1);
  hd_day : reg r' RTC_DAY = encode (bin r) (day ct);
  hd_mon : reg r' RTC_MONTH = encode (bin r) (mon ct);
  hd_year : reg r' RTC_YEAR = encode (bin r) (year ct mod 100);
  hd_century : reg r' RTC_CENTURY = encode (bin r) (year ct / 100);
  hd_rest : forall j, (j ∉ [RTC_SEC; RTC_MIN; RTC_HRS; RTC_WDAY; RTC_DAY; RTC_MONTH; RTC_YEAR; RTC_CENTURY]) -> reg r' j = reg r j
}.

Lemma store_clk_run ct r : length r = SIZEOF_RTCDEV -> date_ok ct -> year ct <= 9999 -> 0 <= dow ct < 7 ->
  exists r', store_clk ct r = Ret r' /\ holds ct r r'.
Proof.
  intros Hl [Hy Hm Hd Hh Hmi Hs] Hy9 Hw. pose proof (days_in_month_bounds (year ct) (mon ct) Hm) as Hdm. unfold store_clk.
  rewrite Z.rem_mod_nonneg, Z.quot_div_nonneg by lia.
  assert (Hc : 0 <= year ct mod 100 < 100 /\ 0 <= year ct / 100 < 100) by (Z.div_mod_to_equations; lia). destruct Hc as [Hc1 Hc2].
  assert (Hlt : forall (i : nat) (r0 : list Z), length r0 = length r -> (i < 51)%nat -> (i < length r0)%nat).
  { intros i r0 -> Hi. rewrite Hl. unfold SIZEOF_RTCDEV. lia. }
  destruct (put_run RTC_SEC (sec ct) r) as (r1 & E1 & U1); [by apply Hlt; [|unfold RTC_SEC; lia]|lia|].
  rewrite E1. cbn [mbind outcome_bind]. destruct (updated_mode _ _ _ _ U1) as [B1 H1]; [done|]. pose proof (proj1 U1) as L1.
  destruct (put_run RTC_MIN (min ct) r1) as (r2 & E2 & U2); [by apply Hlt; [|unfold RTC_MIN; lia]|lia|].
  rewrite E2. cbn [mbind outcome_bind]. destruct (updated_mode _ _ _ _ U2) as [B2 H2]; [done|]. pose proof (proj1 U2) as L2.
  destruct (store_hour_run r2 (hour ct)) as (r3 & E3 & U3); [congruence|lia|].
  rewrite E3. cbn [mbind outcome_bind]. destruct (updated_mode _ _ _ _ U3) as [B3 H3]; [done|]. pose proof (proj1 U3) as L3.
  destruct (put_run RTC_WDAY (dow ct + 1) r3) as (r4 & E4 & U4); [by apply Hlt; [congruence|unfold RTC_WDAY; lia]|lia|].
  rewrite E4. cbn [mbind outcome_bind]. destruct (updated_mode _ _ _ _ U4) as [B4 H4]; [done|]. pose proof (proj1 U4) as L4.
  destruct (put_run RTC_DAY (day ct) r4) as (r5 & E5 & U5); [by apply Hlt; [congruence|unfold RTC_DAY; lia]|lia|].
  rewrite E5. cbn [mbind outcome_bind]. destruct (updated_mode _ _ _ _ U5) as [B5 H5]; [done|]. pose proof (proj1 U5) as L5.
  destruct (put_run RTC_MONTH (mon ct) r5) as (r6 & E6 & U6); [by apply Hlt; [congruence|unfold RTC_MONTH; lia]|lia|].
  rewrite E6. cbn [mbind outcome_bind]. destruct (updated_mode _ _ _ _ U6) as [B6 H6]; [done|]. pose proof (proj1 U6) as L6.
  destruct (put_run RTC_YEAR (year ct mod 100) r6) as (r7 & E7 & U7); [by apply Hlt; [congruence|unfold RTC_YEAR; lia]|lia|].
  rewrite E7. cbn [mbind outcome_bind]. destruct (updated_mode _ _ _ _ U7) as [B7 H7]; [done|]. pose proof (proj1 U7) as L7.
  destruct (put_run RTC_CENTURY (year ct / 100) r7) as (r8 & E8 & U8); [by apply Hlt; [congruence|unfold RTC_CENTURY; lia]|lia|].
  rewrite E8. exists r8. split; [done|]. pose proof (proj1 U8) as L8.
  rewrite B7, B6, B5, B4, B3, B2, B1 in *. rewrite H2, H1 in *.
  destruct U1 as [_ U1], U2 as [_ U2], U3 as [_ U3], U4 as [_ U4], U5 as [_ U5], U6 as [_ U6], U7 as [_ U7], U8 as [_ U8].
  split; [congruence|..]; try (rewrite ?U8, ?U7, ?U6, ?U5, ?U4, ?U3, ?U2, ?U1; done).
  intros j Hj. rewrite !not_elem_of_cons in Hj. rewrite U8, U7, U6, U5, U4, U3, U2, U1.
  repeat (rewrite decide_False by tauto). done.
Qed.

Lemma holds_mode ct r r' : holds ct r r' -> bin r' = bin r /\ h24 r' = h24 r.
Proof.
  intros H. pose proof (hd_rest _ _ _ H RTC_STATUSB) as E. unfold bin, h24. rewrite E; [done|].
  rewrite !not_elem_of_cons. repeat split; try done. apply not_elem_of_nil.
Qed.

Lemma field_of r i lo hi v : reg r i = encode (bin r) v -> 0 <= v < 100 -> lo <= v <= hi -> field r i lo hi = Some v.
Proof.
  intros E Hv Hb. unfold field. rewrite rtcget_decode, E, (proj1 (encode_ok (bin r) v Hv)). cbn [mbind option_bind].
  by rewrite !(proj2 (Z.ltb_ge _ _)) by lia.
Qed.

Lemma load_hour_decode r : load_hour r = decode_hour (bin r) (h24 r) (reg r RTC_HRS).
Proof. unfold load_hour, field, decode_hour. fold (h24 r). destruct (h24 r); by rewrite ?rtcget_decode. Qed.

(** The date is read back, except for the day of the week. *)
Lemma load_clk_holds ct r r' : date_ok ct -> year ct <= 9999 -> holds ct r r' ->
  load_clk r' = Some (mkClk (year ct) (mon ct) (day ct) (hour ct) (min ct) (sec ct) (-1)).
Proof.
  intros [Hy Hm Hd Hh Hmi Hs] Hy9 H. destruct (holds_mode _ _ _ H) as [Eb Eh].
  pose proof (days_in_month_bounds (year ct) (mon ct) Hm) as Hdm.
  assert (Hc : 0 <= year ct mod 100 <= 99 /\ 0 <= year ct / 100 < 100 /\ year ct = year ct / 100 * 100 + year ct mod 100)
    by (Z.div_mod_to_equations; lia).
  destruct H as [_ H1 H2 H3 _ H5 H6 H7 H8 _]. rewrite <- Eb in *. rewrite <- Eh in H3. unfold load_clk.
  rewrite (field_of r' RTC_SEC _ _ _ H1), (field_of r' RTC_MIN _ _ _ H2) by lia. cbn [mbind option_bind].
  rewrite load_hour_decode, H3, (proj1 (encode_hour_ok _ _ (hour ct) ltac:(lia))). cbn [mbind option_bind].
  rewrite (field_of r' RTC_DAY _ _ _ H5), (field_of r' RTC_MONTH _ _ _ H6), (field_of r' RTC_YEAR _ _ _ H7) by lia.
  cbn [mbind option_bind]. rewrite rtcget_decode, H8, (proj1 (encode_ok _ _ (proj1 (proj2 Hc)))). cbn [mbind option_bind].
  rewrite <- (proj2 (proj2 Hc)). by rewrite (proj2 (Z.ltb_ge _ _)) by (unfold POSIX_BASE_YEAR; lia).
Qed.

Lemma clk_valid_date ct : date_ok ct -> 0 <= dow ct < 7 -> clk_valid ct = true.
Proof.
  intros [Hy Hm Hd Hh Hmi Hs] Hw. pose proof (days_in_month_bounds (year ct) (mon ct) Hm). unfold clk_valid.
  rewrite negb_true_iff, !orb_false_iff, !Z.ltb_ge. unfold POSIX_BASE_YEAR. lia.
Qed.

Lemma secs_to_rtc_run t force r : length r = SIZEOF_RTCDEV -> 0 <= t < END_OF_TIME -> rtc_halted r = false \/ force = true ->
  exists ct r', clk_ts_to_ct t = Ret ct /\ date_ok ct /\ year ct <= 9999 /\ date_secs ct = t /\
    secs_to_rtc t force r = Ret r' /\ holds ct r r'.
Proof.
  intros Hl Ht Hf. destruct (ts_to_ct_run t Ht) as (ct & E & Hd & Hy & Es & Ew).
  assert (Hw : 0 <= dow ct < 7) by (rewrite Ew; apply Z.mod_pos_bound; lia).
  destruct (store_clk_run ct r Hl Hd Hy Hw) as (r' & E' & Hh). exists ct, r'. split_and!; [done..| |done].
  unfold secs_to_rtc. rewrite (proj2 (Z.ltb_ge _ _)) by lia.
  assert (rtc_halted r && negb force = false) as -> by (destruct Hf as [-> | ->]; [done|apply andb_false_r]).
  rewrite E. cbn [mbind outcome_bind]. by rewrite (clk_valid_date ct Hd Hw).
Qed.

(** C29. What the clock shows: a time before the year 10000 put into the registers is
    read from them again, in binary and in BCD, with 24 hours and with 12, and the other
    registers, the control registers and the memory, stay as they were.  A guest that has
    halted the clock keeps its registers, unless the refresh is forced. *)
Theorem rtc_roundtrip (t : Z) (force : bool) (r : rtcdev) :
  length r = SIZEOF_RTCDEV -> 0 <= t < END_OF_TIME ->
  exists r', secs_to_rtc t force r = Ret r' /\ length r' = SIZEOF_RTCDEV /\
    (if rtc_halted r && negb force then r' = r else rtc_to_secs r' = t) /\
    (forall j, (j ∉ [RTC_SEC; RTC_MIN; RTC_HRS; RTC_WDAY; RTC_DAY; RTC_MONTH; RTC_YEAR; RTC_CENTURY]) -> reg r' j = reg r j).
Proof.
  intros Hl Ht. destruct (rtc_halted r && negb force) eqn:Eh.
  - exists r. unfold secs_to_rtc. rewrite (proj2 (Z.ltb_ge _ _)) by lia. by rewrite Eh.
  - destruct (secs_to_rtc_run t force r Hl Ht) as (ct & r' & _ & Hd & Hy & Es & E & Hh).
    { apply andb_false_iff in Eh as [-> | H%negb_false_iff]; [by left|by right]. }
    exists r'. split; [done|]. split; [by destruct Hh|]. split; [|apply Hh].
    unfold rtc_to_secs. rewrite (load_clk_holds ct r r' Hd Hy Hh).
    rewrite ct_to_ts_eq by (destruct Hd; by split). change (date_secs _) with (date_secs ct). rewrite Es.
    by rewrite (proj2 (Z.ltb_ge _ _)) by lia.
Qed.

(** A quarter past eleven at night on the last day of February 2024, in BCD with 12 hours. *)
Definition leap_night : Z := 1709248500.
Definition demo_dev (b : Z) : rtcdev := set_reg RTC_STATUSB b (replicate SIZEOF_RTCDEV 0).

Example leap_night_registers :
  (r ← secs_to_rtc leap_night false (demo_dev 0);
   Ret (map (reg r) [RTC_SEC; RTC_MIN; RTC_HRS; RTC_WDAY; RTC_DAY; RTC_MONTH; RTC_YEAR; RTC_CENTURY])) = Ret [0; 0x15; 0x91; 5; 0x29; 2; 0x24; 0x20].
Proof. reflexivity. Qed.

Lemma rtc_roundtrip_witness : exists r', secs_to_rtc leap_night false (demo_dev 0) = Ret r' /\ rtc_to_secs r' = leap_night.
Proof.
  destruct (rtc_roundtrip leap_night false (demo_dev 0) eq_refl ltac:(by unfold leap_night, END_OF_TIME)) as (r' & E & _ & H & _).
  exists r'. split; [exact E|exact H].
Defined.

(** ** The interrupt line *)

(** The line, as the last change left it. *)
Definition asserted (v : vrtc) : bool := default false (last (irq v)).

(** All registers are there and the line follows the pending bit. *)
Record line_ok (v : vrtc) : Prop := {
  lo_len : length (dev v) = SIZEOF_RTCDEV;
  lo_line : asserted v = has (reg (dev v) RTC_INTR) RTCIR_INT
}.

(** If it returns, the invariant still holds. *)
Definition keeps_line {A} (m : M vrtc A) : Prop := forall v a v', m v = Ret (a, v') -> line_ok v -> line_ok v'.

Lemma rtc_keeps_ret {A} (a : A) : keeps_line (mret a).
Proof. intros v b v' [= <- <-]. done. Qed.
Lemma rtc_keeps_get : keeps_line get.
Proof. intros v b v' [= <- <-]. done. Qed.
Lemma rtc_keeps_halt {A} e : keeps_line (halt e : M vrtc A).
Proof. intros v b v' [=]. Qed.
Lemma rtc_keeps_bind {A B} (m : M vrtc A) (f : A -> M vrtc B) : keeps_line m -> (forall a, keeps_line (f a)) -> keeps_line (m ≫= f).
Proof.
  intros Hm Hf v b v' E H. unfold mbind, M_bind in E. destruct (m v) as [[a v1]|e] eqn:Em; [|done].
  exact (Hf a v1 b v' E (Hm v a v1 Em H)).
Qed.
Lemma keeps_if {A} (b : bool) (m n : M vrtc A) : keeps_line m -> keeps_line n -> keeps_line (if b then m else n).
Proof. by destruct b. Qed.
Lemma keeps_when b (m : M vrtc unit) : keeps_line m -> keeps_line (when b m).
Proof. intros H. apply keeps_if; [done|apply rtc_keeps_ret]. Qed.
Lemma rtc_keeps_modify f : (forall v, dev (f v) = dev v /\ irq (f v) = irq v) -> keeps_line (modify f).
Proof. intros Hf v b v' [= <- <-] [H1 H2]. destruct (Hf v) as [Ed Ei]. split; unfold asserted in *; by rewrite ?Ed, ?Ei. Qed.
Lemma keeps_lift {A} (o : outcome A) : keeps_line (lift o).
Proof. intros v b v' E H. unfold lift in E. destruct o; [|done]. by injection E as <- <-. Qed.
Lemma keeps_time clock : keeps_line (time clock).
Proof. intros v b v' [= <- <-] H. destruct H as [H1 H2]. by split. Qed.

(** Writes to the registers that leave register C alone. *)
Definition spares_c (f : rtcdev -> rtcdev) : Prop := forall r, length (f r) = length r /\ reg (f r) RTC_INTR = reg r RTC_INTR.
Lemma keeps_on_dev f : spares_c f -> keeps_line (on_dev f).
Proof.
  intros Hf v b v' [= <- <-] [H1 H2]. destruct (Hf (dev v)) as [Hl Hr]. split; unfold asserted in *; cbn [dev irq field_upd];
    [congruence|]. change (asserted v = has (reg (f (dev v)) RTC_INTR) RTCIR_INT). unfold asserted. by rewrite Hr.
Qed.
Lemma reg_set_other i j x r : j <> i -> reg (set_reg i x r) j = reg r j.
Proof. intros Hn. unfold reg, set_reg. rewrite !nth_lookup. by rewrite list_lookup_insert_ne. Qed.
Lemma spares_set_by i (x : rtcdev -> Z) : i <> RTC_INTR -> spares_c (fun r => set_reg i (x r) r).
Proof. intros Hi r. split; [apply length_set_reg|]. by apply reg_set_other. Qed.
Lemma spares_set i x : i <> RTC_INTR -> spares_c (set_reg i x).
Proof. apply (spares_set_by i (fun _ => x)). Qed.

#[local] Hint Resolve rtc_keeps_ret rtc_keeps_get rtc_keeps_halt rtc_keeps_bind keeps_if keeps_when keeps_lift keeps_time : rtc.
#[local] Hint Extern 1 (keeps_line (modify _)) => apply rtc_keeps_modify; done : rtc.
#[local] Hint Extern 1 (keeps_line (on_dev (set_reg _ _))) => apply keeps_on_dev, spares_set; done : rtc.
#[local] Hint Extern 2 (keeps_line (on_dev (fun _ => set_reg _ _ _))) => apply keeps_on_dev, spares_set_by; done : rtc.

(** A refresh leaves register C alone. *)
Definition spares (f : rtcdev -> outcome rtcdev) : Prop :=
  forall r r', f r = Ret r' -> length r' = length r /\ reg r' RTC_INTR = reg r RTC_INTR.
Lemma rtc_spares_bind f g : spares f -> spares g -> spares (fun r => f r ≫= g).
Proof.
  intros Hf Hg r r' E. destruct (f r) as [a|] eqn:Ea; [|done]. destruct (Hf r a Ea), (Hg a r' E). split; congruence.
Qed.
Lemma spares_put i val : i <> RTC_INTR -> spares (put i val).
Proof. intros Hi r r' E. unfold put in E. destruct (rtcset r val); [|done]. injection E as <-. by apply spares_set. Qed.
Lemma spares_hour h : spares (fun r => store_hour r h).
Proof.
  intros r r'. unfold store_hour. destruct (rtcset r _) as [x|]; [|done]. cbn [mbind outcome_bind]. intros [= <-].
  destruct (spares_set RTC_HRS x ltac:(done) r) as [H1 H2]. destruct (_ && _); [|done].
  destruct (spares_set RTC_HRS (Z.lor (reg (set_reg RTC_HRS x r) RTC_HRS) 0x80) ltac:(done) (set_reg RTC_HRS x r)). split; congruence.
Qed.
Lemma spares_store ct : spares (store_clk ct).
Proof. unfold store_clk. repeat (apply rtc_spares_bind; [first [by apply spares_put|apply spares_hour]|]). by apply spares_put. Qed.
Lemma spares_secs t force : spares (secs_to_rtc t force).
Proof.
  intros r r'. unfold secs_to_rtc. destruct (_ <? _); [by intros [= <-]|]. destruct (_ && _); [by intros [= <-]|].
  destruct (clk_ts_to_ct t) as [ct|]; [|done]. cbn [mbind outcome_bind]. destruct (clk_valid ct); [apply spares_store|by intros [= <-]].
Qed.

Lemma keeps_refresh t force : keeps_line (refresh t force).
Proof.
  intros v b v' E H. unfold refresh, mbind, M_bind, get, lift in E.
  destruct (secs_to_rtc t force (dev v)) as [r|] eqn:Er; [|done]. injection E as <- <-. destruct (spares_secs _ _ _ _ Er) as [H1 H2].
  destruct H as [L1 L2]. split; [cbn; congruence|]. change (asserted v = has (reg r RTC_INTR) RTCIR_INT). congruence.
Qed.

(** Writing register C moves the line when the pending bit changes. *)
Lemma has_bit x n : 0 <= n -> has x (2 ^ n) = Z.testbit x n.
Proof.
  intros Hn. unfold has, z2b. destruct (Z.testbit x n) eqn:E.
  - apply negb_true_iff, Z.eqb_neq. intros H. assert (Hb : Z.testbit (Z.land x (2 ^ n)) n = false) by (by rewrite H, Z.bits_0).
    rewrite Z.land_spec, E, Z.pow2_bits_true in Hb by done. done.
  - apply negb_false_iff, Z.eqb_eq, Z.bits_inj'. intros i Hi. rewrite Z.land_spec, Z.bits_0, Z.pow2_bits_eqb by done.
    destruct (Z.eqb_spec n i) as [<-|]; [by rewrite E|apply andb_false_r].
Qed.
Lemma irqf_of (b : bool) (x : Z) : let v := Z.lor (if b then RTCIR_INT else 0) (Z.land x (Z.lor (Z.lor RTCIR_ALARM RTCIR_PERIOD) RTCIR_UPDATE)) in
  u8 v = v /\ has v RTCIR_INT = b.
Proof.
  intros v. split.
  - unfold u8, wrap. rewrite <- Z.land_ones by lia. apply Z.bits_inj'. intros i Hi. unfold v.
    rewrite Z.land_spec, !Z.lor_spec, !Z.land_spec, Z.testbit_ones_nonneg by lia.
    destruct (Z.ltb_spec i 8); [apply andb_true_r|].
    rewrite (testbit_fits 8 (Z.lor (Z.lor RTCIR_ALARM RTCIR_PERIOD) RTCIR_UPDATE)) by done.
    assert (Hb : fits 8 (if b then RTCIR_INT else 0)) by (destruct b; split; vm_compute; congruence).
    rewrite (testbit_fits 8 _ _ Hb) by lia. by rewrite !andb_false_r.
  - change RTCIR_INT with (2 ^ 7). rewrite has_bit by done. unfold v. rewrite Z.lor_spec, Z.land_spec.
    replace (Z.testbit (Z.lor (Z.lor RTCIR_ALARM RTCIR_PERIOD) RTCIR_UPDATE) 7) with false by reflexivity.
    rewrite andb_false_r, orb_false_r. by destruct b.
Qed.

Lemma set_reg_c_run newval v : line_ok v ->
  runs (vrtc_set_reg_c newval) v (fun _ v' => exists flags, v' = (v <| dev := set_reg RTC_INTR flags (dev v) |> <| irq := irq v' |>) /\
    flags = Z.lor (if pending (dev v) (Z.land newval (Z.lor (Z.lor RTCIR_ALARM RTCIR_PERIOD) RTCIR_UPDATE)) then RTCIR_INT else 0)
                  (Z.land newval (Z.lor (Z.lor RTCIR_ALARM RTCIR_PERIOD) RTCIR_UPDATE)) /\
    line_ok v').
Proof.
  intros [Hl Ha]. unfold vrtc_set_reg_c. set (nv := Z.land newval _). apply runs_bind, runs_get. cbv zeta.
  destruct (irqf_of (pending (dev v) nv) newval) as [E1 E2]. fold nv in E1, E2.
  set (flags := Z.lor (if pending (dev v) nv then RTCIR_INT else 0) nv) in *.
  assert (Er : reg (set_reg RTC_INTR flags (dev v)) RTC_INTR = flags).
  { rewrite reg_set by (by rewrite Hl; unfold RTC_INTR, SIZEOF_RTCDEV; lia). by rewrite decide_True, E1. }
  apply runs_bind, runs_modify. rewrite <- Ha.
  destruct (asserted v) eqn:Ea, (pending (dev v) nv) eqn:Ep; cbn [negb andb].
  all: (apply runs_ret || apply runs_modify); exists flags; split; [by destruct v|split; [done|]].
  all: split; [cbn -[set_reg]; by rewrite length_set_reg|cbn -[reg set_reg]; rewrite Er, E2; unfold asserted in *; cbn; rewrite ?last_snoc; done].
Qed.
Lemma keeps_set_reg_c newval : keeps_line (vrtc_set_reg_c newval).
Proof. intros v b v' E H. pose proof (set_reg_c_run newval v H) as R. unfold runs in R. rewrite E in R. by destruct R as (? & _ & _ & ?). Qed.
#[local] Hint Resolve keeps_refresh keeps_set_reg_c : rtc.

(** Through the monad, a statement after the other. *)
Ltac line_step :=
  cbv zeta;
  lazymatch goal with
  | |- forall _ : _ * _, _ => intros []
  | |- forall _ : _, _ => intros ?
  | |- keeps_line (mbind _ _) => apply rtc_keeps_bind
  | |- keeps_line (if _ then _ else _) => apply keeps_if
  | |- keeps_line (when _ _) => apply keeps_when
  | |- keeps_line (let '(_, _) := ?p in _) => destruct p
  | |- keeps_line _ => solve [eauto 2 with rtc nocore]
  end.
Ltac line_steps := repeat line_step.

Lemma keeps_rounds fuel a b c o n : keeps_line (update_rounds fuel a b c o n).
Proof. induction fuel as [|fuel IH]; cbn [update_rounds]; [apply rtc_keeps_halt|]. unfold update_round. line_steps. Qed.
Lemma keeps_time_update newtime newbase : keeps_line (vrtc_time_update newtime newbase).
Proof. pose proof keeps_rounds. unfold vrtc_time_update. line_steps. Qed.

Section Line.
Context (clock : nat -> Z).

Lemma keeps_curtime : keeps_line (vrtc_curtime clock).
Proof. unfold vrtc_curtime. line_steps. Qed.
Lemma keeps_start_periodic f : keeps_line (start_periodic f).
Proof. unfold start_periodic. line_steps. Qed.
#[local] Hint Resolve keeps_time_update keeps_curtime keeps_start_periodic : rtc.

Lemma keeps_set_reg_b x : keeps_line (vrtc_set_reg_b clock x).
Proof. unfold vrtc_set_reg_b, halt_changed. line_steps. Qed.
Lemma keeps_set_reg_a x : keeps_line (vrtc_set_reg_a clock x).
Proof. unfold vrtc_set_reg_a. line_steps. Qed.
#[local] Hint Resolve keeps_set_reg_a keeps_set_reg_b : rtc.

Lemma keeps_data_write offset eax : keeps_line (data_write clock offset eax).
Proof.
  unfold data_write. apply rtc_keeps_bind; [|line_steps]. do 2 (apply keeps_if; [line_steps|]).
  destruct (offset =? RTC_INTR)%nat eqn:E; [apply rtc_keeps_ret|]. apply Nat.eqb_neq in E. line_steps.
Qed.
Lemma keeps_data_handler inp bytes eax : keeps_line (vrtc_data_handler clock inp bytes eax).
Proof. pose proof keeps_data_write. unfold vrtc_data_handler, data_read. line_steps. Qed.
Lemma keeps_nvram_write offset value : keeps_line (vrtc_nvram_write offset value).
Proof.
  unfold vrtc_nvram_write. destruct (offset <? Z.of_nat NVRAM) eqn:E; [apply rtc_keeps_ret|]. cbn [orb]. apply Z.ltb_ge in E.
  line_steps. apply keeps_on_dev, spares_set. unfold NVRAM, RTC_INTR in *. lia.
Qed.

(** *** What may happen to the device *)

Inductive request :=
  | Addr (inp : bool) (bytes eax : Z)
  | Data (inp : bool) (bytes eax : Z)
  | Nvram (offset value : Z)
  | UpdateTimer | PeriodicTimer | SetTime (secs : Z).

Definition perform (q : request) : M vrtc unit :=
  match q with
  | Addr inp bytes eax => _ ← vrtc_addr_handler inp bytes eax; mret tt
  | Data inp bytes eax => _ ← vrtc_data_handler clock inp bytes eax; mret tt
  | Nvram offset value => _ ← vrtc_nvram_write offset value; mret tt
  | UpdateTimer => vrtc_update_timer clock
  | PeriodicTimer => vrtc_periodic_timer
  | SetTime secs => _ ← vrtc_set_time clock secs; mret tt
  end.
Fixpoint perform_all (qs : list request) : M vrtc unit :=
  match qs with [] => mret tt | q :: qs => _ ← perform q; perform_all qs end.

Lemma keeps_perform q : keeps_line (perform q).
Proof.
  pose proof keeps_data_handler. pose proof keeps_nvram_write. destruct q; cbn [perform];
    unfold vrtc_addr_handler, vrtc_update_timer, vrtc_periodic_timer, vrtc_set_time; line_steps.
Qed.
Lemma keeps_perform_all qs : keeps_line (perform_all qs).
Proof. pose proof keeps_perform. induction qs; cbn [perform_all]; line_steps. Qed.

(** Before the ports are there the line is low. *)
Lemma init_line lomem himem ports v : vrtc_init clock lomem himem ports = Ret (Some v) -> line_ok v.
Proof.
  unfold vrtc_init. destruct (lomem <? 16 * MB); [done|]. set (l := (lomem - 16 * MB) / (64 * KB)). set (h := himem / (64 * KB)).
  set (ws := replicate SIZEOF_RTCDEV 0).
  set (v0 := mkVrtc 0 0 0 (set_reg 0x5d (Z.shiftr h 16) (set_reg 0x5c (Z.shiftr h 8) (set_reg 0x5b h
     (set_reg 0x35 (Z.shiftr l 8) (set_reg 0x34 l ws))))) [] [] 0).
  intros E. assert (E' : ('(_, x) ← when ports (start_clock clock) v0; Ret (if ports then Some x else None)) = Ret (Some v)).
  { rewrite <- E. reflexivity. }
  clear E. destruct ports; [|done]. unfold when, start_clock in E'.
  match type of E' with (?m0 ≫= _) = _ => destruct m0 as [[a v1]|] eqn:E; [|done] end. injection E' as <-.
  match type of E with (on_dev ?f ≫= ?k) ?s = _ => change (k tt (s <| dev ::= f |>) = Ret (a, v1)) in E end.
  match type of E with ?m ?s = _ => assert (K : keeps_line m); [|refine (K s a v1 E _)] end; [line_steps|].
  split; [|reflexivity]. cbn -[set_reg replicate SIZEOF_RTCDEV]. rewrite !length_set_reg. reflexivity.
Qed.

(** Reading register C gives the flags, clears them and lowers the line. *)
Lemma read_c v : line_ok v -> runs (data_read RTC_INTR) v (fun x v' =>
  x = reg (dev v) RTC_INTR /\ reg (dev v') RTC_INTR = 0 /\ asserted v' = false).
Proof.
  intros H. unfold data_read. apply runs_bind, runs_get. cbv zeta. apply runs_bind. change (RTC_INTR =? RTC_INTR)%nat with true.
  eapply runs_weaken; [apply (set_reg_c_run 0 v H)|]. intros _ v' (flags & Ev & Ef & [Hl Ha]). apply runs_ret. split; [done|].
  rewrite Z.land_0_l in Ef. assert (Hf : flags = 0).
  { rewrite Ef. unfold pending, has. rewrite !Z.land_0_l. cbn. by rewrite !andb_false_r. }
  assert (Er : reg (dev v') RTC_INTR = 0).
  { rewrite Ev. change (dev (_ <| irq := _ |>)) with (set_reg RTC_INTR flags (dev v)). destruct H as [Hl0 _].
    rewrite reg_set by (by rewrite Hl0; unfold RTC_INTR, SIZEOF_RTCDEV; lia). by rewrite decide_True, Hf. }
  split; [done|]. by rewrite Ha, Er.
Qed.

(** C31. The interrupt line of the clock: whatever the guest reads and writes at the two
    ports, and whenever the timers fire or the host sets the time, the line is high exactly
    when the interrupt bit of register C is set, and reading register C gives the flags,
    clears them and lowers the line. *)
Theorem irq_line (lomem himem : Z) (ports : bool) (qs : list request) (v0 v : vrtc) :
  vrtc_init clock lomem himem ports = Ret (Some v0) -> perform_all qs v0 = Ret (tt, v) ->
  asserted v = has (reg (dev v) RTC_INTR) RTCIR_INT /\
  runs (data_read RTC_INTR) v (fun x v' => x = reg (dev v) RTC_INTR /\ reg (dev v') RTC_INTR = 0 /\ asserted v' = false).
Proof.
  intros Ei Eq. assert (H : line_ok v) by (eapply keeps_perform_all; [exact Eq|by eapply init_line]).
  split; [apply H|by apply read_c].
Qed.
End Line.

(** The periodic interrupt, with 24 hours, under a host clock that stands still. *)
Definition demo_clock (_ : nat) : Z := leap_night.
Definition demo_requests : list request := [Addr false 1 11; Data false 1 0x42; PeriodicTimer].

Definition demo_start : vrtc :=
  match vrtc_init demo_clock (32 * MB) 0 true with Ret (Some v) => v | _ => blank_vrtc end.
Definition demo_end : vrtc := match perform_all demo_clock demo_requests demo_start with Ret (_, v) => v | _ => blank_vrtc end.

Lemma irq_line_witness : vrtc_init demo_clock (32 * MB) 0 true = Ret (Some demo_start) /\
  perform_all demo_clock demo_requests demo_start = Ret (tt, demo_end) /\
  asserted demo_end = true /\ asserted demo_end = has (reg (dev demo_end) RTC_INTR) RTCIR_INT.
Proof.
  assert (E : vrtc_init demo_clock (32 * MB) 0 true = Ret (Some demo_start)) by (vm_compute; reflexivity).
  assert (E2 : perform_all demo_clock demo_requests demo_start = Ret (tt, demo_end)) by (vm_compute; reflexivity).
  split; [exact E|]. split; [exact E2|]. split; [vm_compute; reflexivity|].
  exact (proj1 (irq_line demo_clock _ _ _ _ _ _ E E2)).
Defined.

(** ** The alarm *)

(** The registers of the time, and those that a moving clock may change. *)
Definition TIME : list nat := [RTC_SEC; RTC_MIN; RTC_HRS; RTC_WDAY; RTC_DAY; RTC_MONTH; RTC_YEAR; RTC_CENTURY].
Definition MOVING : list nat := RTC_INTR :: TIME.
Definition same_but (l : list nat) (r r' : rtcdev) : Prop := forall j, j ∉ l -> reg r' j = reg r j.

Lemma rtc_same_trans l r1 r2 r3 : same_but l r1 r2 -> same_but l r2 r3 -> same_but l r1 r3.
Proof. intros H1 H2 j Hj. by rewrite H2, H1. Qed.
Lemma same_sub l l' r r' : l ⊆ l' -> same_but l r r' -> same_but l' r r'.
Proof. intros Hs H j Hj. apply H. intros Hi. by apply Hj, Hs. Qed.

(** The alarm is set for second [t]. *)
Definition rings (r : rtcdev) (t : Z) : bool :=
  match clk_ts_to_ct t with
  | Ret ct => alarm_hit (reg r RTC_SECALRM) (encode (bin r) (sec ct)) && alarm_hit (reg r RTC_MINALRM) (encode (bin r) (min ct)) &&
              alarm_hit (reg r RTC_HRSALRM) (encode_hour (bin r) (h24 r) (hour ct))
  | Stop _ => false
  end.

Ltac off_list := rewrite ?not_elem_of_cons; repeat split; (apply not_elem_of_nil || done).

Lemma same_rings r r' : same_but MOVING r r' ->
  (forall t, rings r' t = rings r t) /\ aintr_enabled r' = aintr_enabled r /\ uintr_enabled r' = uintr_enabled r /\
  pintr_enabled r' = pintr_enabled r /\ rtc_halted r' = rtc_halted r.
Proof.
  intros H. unfold rings, bin, h24, aintr_enabled, uintr_enabled, pintr_enabled, rtc_halted.
  rewrite (H RTC_STATUSB), (H RTC_SECALRM), (H RTC_MINALRM), (H RTC_HRSALRM) by (unfold MOVING, TIME; off_list). done.
Qed.

Lemma rtc_to_secs_same r r' : same_but [RTC_INTR] r r' -> rtc_to_secs r' = rtc_to_secs r.
Proof.
  intros H. unfold rtc_to_secs, load_clk, load_hour, field, rtcget.
  rewrite (H RTC_STATUSB), (H RTC_SEC), (H RTC_MIN), (H RTC_HRS), (H RTC_DAY), (H RTC_MONTH), (H RTC_YEAR), (H RTC_CENTURY) by off_list.
  done.
Qed.

(** A second has passed: the registers show it, and the alarm is checked against them. *)
Record ticked (t : Z) (v v' : vrtc) : Prop := {
  tk_time : base_rtctime v' = t;
  tk_base : base_uptime v' = base_uptime v;
  tk_same : same_but MOVING (dev v) (dev v');
  tk_line : line_ok v';
  tk_alarm : has (reg (dev v') RTC_INTR) RTCIR_ALARM = has (reg (dev v) RTC_INTR) RTCIR_ALARM || rings (dev v) t;
  tk_rung : rings (dev v) t = true -> asserted v' = true;
  tk_kept : rings (dev v) t = false -> reg (dev v') RTC_INTR = reg (dev v) RTC_INTR /\ irq v' = irq v;
  tk_shown : rtc_to_secs (dev v') = t
}.

(** Writing register C with some flags more. *)
Lemma raise_c flag v : line_ok v -> (flag = RTCIR_ALARM \/ flag = RTCIR_UPDATE) ->
  runs (vrtc_set_reg_c (Z.lor (reg (dev v) RTC_INTR) flag)) v (fun _ v' =>
    exists x, v' = (v <| dev := set_reg RTC_INTR x (dev v) |> <| irq := irq v' |>) /\ line_ok v' /\
    has (reg (dev v') RTC_INTR) RTCIR_ALARM = has (reg (dev v) RTC_INTR) RTCIR_ALARM || (flag =? RTCIR_ALARM) /\
    (aintr_enabled (dev v) = true -> has (reg (dev v') RTC_INTR) RTCIR_ALARM = true -> asserted v' = true)).
Proof.
  intros H Hf. eapply runs_weaken; [apply set_reg_c_run, H|]. cbv zeta. intros _ v' (x & Ev & Ex & H'). exists x.
  set (nv := Z.land _ (Z.lor (Z.lor RTCIR_ALARM RTCIR_PERIOD) RTCIR_UPDATE)) in Ex.
  destruct (irqf_of (pending (dev v) nv) (Z.lor (reg (dev v) RTC_INTR) flag)) as [E1 E2]. fold nv in E1, E2. rewrite <- Ex in E1, E2.
  assert (Er : reg (dev v') RTC_INTR = x).
  { rewrite Ev. change (dev (_ <| irq := _ |>)) with (set_reg RTC_INTR x (dev v)). destruct H as [Hl _].
    rewrite reg_set by (by rewrite Hl; unfold RTC_INTR, SIZEOF_RTCDEV; lia). by rewrite decide_True. }
  assert (Ha : has nv RTCIR_ALARM = has (reg (dev v) RTC_INTR) RTCIR_ALARM || (flag =? RTCIR_ALARM)).
  { change RTCIR_ALARM with (2 ^ 5) at 1 2. rewrite !has_bit by done. unfold nv. rewrite Z.land_spec, Z.lor_spec.
    replace (Z.testbit (Z.lor (Z.lor RTCIR_ALARM RTCIR_PERIOD) RTCIR_UPDATE) 5) with true by reflexivity. rewrite andb_true_r.
    by destruct Hf as [-> | ->]. }
  assert (Hx : has x RTCIR_ALARM = has nv RTCIR_ALARM).
  { change RTCIR_ALARM with (2 ^ 5). rewrite !has_bit by done. rewrite Ex, Z.lor_spec. by destruct (pending _ _). }
  split; [done|]. split; [done|]. rewrite Er, Hx. split; [done|]. intros Hen Hon. destruct H' as [_ ->]. rewrite Er, E2.
  unfold pending. by rewrite Hen, Hon.
Qed.

Lemma round_run a b c old new v : line_ok v -> aintr_enabled (dev v) = true -> rtc_halted (dev v) = false -> old <> VRTC_BROKEN_TIME ->
  a = reg (dev v) RTC_SECALRM -> b = reg (dev v) RTC_MINALRM -> c = reg (dev v) RTC_HRSALRM ->
  0 <= base_rtctime v + 1 < END_OF_TIME -> runs (update_round a b c old new) v (fun _ v' => ticked (base_rtctime v + 1) v v').
Proof.
  intros H He Hh Ho Ea Eb Ec Ht. unfold update_round. apply runs_bind, runs_get. cbv zeta.
  rewrite (proj2 (Z.eqb_neq _ _) Ho). apply runs_bind, runs_modify. rewrite He. cbn [andb negb].
  set (t := base_rtctime v + 1) in *. set (v1 := v <| base_rtctime := t |>). change (dev v1) with (dev v).
  apply runs_bind, runs_get. change (base_rtctime v1) with t. change (dev v1) with (dev v).
  destruct (secs_to_rtc_run t false (dev v) (lo_len _ H) Ht (or_introl Hh)) as (ct & r' & Ets & Hd & Hy & Es & E & Hr).
  destruct (holds_mode _ _ _ Hr) as [Hb H24].
  apply runs_bind. unfold refresh. apply runs_bind, runs_get. change (dev v1) with (dev v). apply runs_bind. eapply runs_lift; [exact E|].
  apply runs_modify. set (v2 := v1 <| dev ::= fun _ => r' |>). apply runs_bind, runs_get. cbv zeta. change (dev v2) with r'.
  assert (Hs : same_but TIME (dev v) r') by exact (hd_rest _ _ _ Hr).
  assert (HC : reg r' RTC_INTR = reg (dev v) RTC_INTR) by (apply Hs; unfold TIME; off_list).
  assert (H2 : line_ok v2). { destruct H as [_ Hl]. split; [apply Hr|]. change (asserted v = has (reg r' RTC_INTR) RTCIR_INT). congruence. }
  assert (Hshow : rtc_to_secs r' = t).
  { unfold rtc_to_secs. rewrite (load_clk_holds ct (dev v) r' Hd Hy Hr), ct_to_ts_eq by (destruct Hd; by split).
    change (date_secs _) with (date_secs ct). rewrite Es. by rewrite (proj2 (Z.ltb_ge _ _)) by lia. }
  assert (Hring : alarm_hit a (reg r' RTC_SEC) && alarm_hit b (reg r' RTC_MIN) && alarm_hit c (reg r' RTC_HRS) = rings (dev v) t).
  { unfold rings. rewrite Ets, (hd_sec _ _ _ Hr), (hd_min _ _ _ Hr), (hd_hour _ _ _ Hr). by subst. }
  assert (Hmov : same_but MOVING (dev v) r') by (eapply same_sub; [|exact Hs]; unfold MOVING; clear; set_solver).
  rewrite Hring. destruct (rings (dev v) t) eqn:Er; cbn [when]; [|apply runs_ret].
  - eapply runs_weaken; [apply (raise_c RTCIR_ALARM v2 H2); by left|]. intros _ v' (x & Ev & Hl & Halm & Hasrt).
    change (dev v2) with r' in *. assert (Ed : dev v' = set_reg RTC_INTR x r') by (by rewrite Ev).
    assert (Hc : same_but [RTC_INTR] r' (dev v')).
    { intros j Hj. rewrite Ed. apply reg_set_other. rewrite list_elem_of_singleton in Hj. done. }
    rewrite HC, Z.eqb_refl, orb_true_r in Halm. split; rewrite ?Er, ?orb_true_r; try done; try (by rewrite Ev).
    + eapply rtc_same_trans; [exact Hmov|]. eapply same_sub; [|exact Hc]. unfold MOVING. clear. set_solver.
    + intros _. apply Hasrt; [|done]. destruct (same_rings _ _ Hmov) as (_ & -> & _). done.
    + by rewrite (rtc_to_secs_same _ _ Hc).
  - split; rewrite ?Er, ?orb_false_r; try done. change (dev v2) with r'. by rewrite HC.
Qed.

(** The seconds from one time to another have passed. *)
Definition rang (r : rtcdev) (t t' : Z) : Prop := exists s, t < s <= t' /\ rings r s = true.
Record passed (t : Z) (v v' : vrtc) : Prop := {
  ps_time : base_rtctime v' = t;
  ps_base : base_uptime v' = base_uptime v;
  ps_same : same_but MOVING (dev v) (dev v');
  ps_line : line_ok v';
  ps_alarm : has (reg (dev v') RTC_INTR) RTCIR_ALARM = true <->
    has (reg (dev v) RTC_INTR) RTCIR_ALARM = true \/ rang (dev v) (base_rtctime v) t;
  ps_rung : asserted v = true \/ rang (dev v) (base_rtctime v) t -> asserted v' = true;
  ps_shown : rtc_to_secs (dev v') = t
}.

Lemma rang_split r t t1 t' : t <= t1 <= t' -> rang r t t' <-> rang r t t1 \/ rang r t1 t'.
Proof.
  intros Ht. split.
  - intros (s & Hs & Hr). destruct (Z.le_gt_cases s t1); [left|right]; exists s; (split; [lia|done]).
  - intros [(s & Hs & Hr)|(s & Hs & Hr)]; exists s; (split; [lia|done]).
Qed.
Lemma rang_one r t : rang r t (t + 1) <-> rings r (t + 1) = true.
Proof. split; [|intros H; exists (t + 1); split; [lia|done]]. intros (s & Hs & Hr). by replace (t + 1) with s by lia. Qed.
Lemma rang_same r r' t t' : same_but MOVING r r' -> rang r' t t' <-> rang r t t'.
Proof. intros H. destruct (same_rings _ _ H) as [Hr _]. unfold rang. by setoid_rewrite Hr. Qed.

Lemma ticked_passed v v' : ticked (base_rtctime v + 1) v v' -> passed (base_rtctime v + 1) v v'.
Proof.
  intros [H1 H2 H3 H4 H5 H6 H7 H8]. split; try done; rewrite rang_one; [by rewrite H5, orb_true_iff|].
  destruct (rings _ _) eqn:E; [by intros _; apply H6|]. intros [Ha|]; [|done]. unfold asserted in *. by rewrite (proj2 (H7 eq_refl)).
Qed.

Lemma passed_trans t v v1 v' : base_rtctime v <= base_rtctime v1 <= t -> passed (base_rtctime v1) v v1 -> passed t v1 v' -> passed t v v'.
Proof.
  intros Ht [A1 A2 A3 A4 A5 A6 A7] [B1 B2 B3 B4 B5 B6 B7]. rewrite (rang_same _ _ _ _ A3) in B5, B6.
  split; try done; [congruence|by eapply rtc_same_trans|..]; rewrite (rang_split _ _ _ _ Ht); [rewrite B5, A5|]; tauto.
Qed.

Lemma rounds_run fuel : forall a b c old new v, line_ok v -> aintr_enabled (dev v) = true -> rtc_halted (dev v) = false ->
  old <> VRTC_BROKEN_TIME -> a = reg (dev v) RTC_SECALRM -> b = reg (dev v) RTC_MINALRM -> c = reg (dev v) RTC_HRSALRM ->
  0 <= base_rtctime v < new -> new < END_OF_TIME -> new = base_rtctime v + Z.of_nat fuel ->
  runs (update_rounds fuel a b c old new) v (fun _ v' => passed new v v').
Proof.
  induction fuel as [|fuel IH]; intros a b c old new v H He Hh Ho Ea Eb Ec Ht Hn Hf; [lia|]. cbn [update_rounds].
  apply runs_bind. eapply runs_weaken; [apply round_run; try done; lia|]. intros _ v1 Hk%ticked_passed.
  apply runs_bind, runs_get. pose proof (ps_time _ _ _ Hk) as E1. destruct (Z.eqb_spec (base_rtctime v1) new) as [E|E].
  - apply runs_ret. by rewrite <- E, E1.
  - destruct (same_rings _ _ (ps_same _ _ _ Hk)) as (_ & Ha & _ & _ & Hl).
    pose proof (ps_same _ _ _ Hk) as Hs.
    eapply runs_weaken; [apply IH; try lia; try congruence; [apply Hk|..]|].
    1-3: rewrite Hs by (unfold MOVING, TIME; off_list); done.
    cbv beta; intros _ v' Hp. eapply passed_trans; [|rewrite E1; exact Hk|exact Hp]. lia.
Qed.

(** C30. The alarm: when the time moves on with the alarm interrupt enabled, the clock
    shows the new time, the alarm flag of register C is set exactly when it was set or
    some second on the way is one that the alarm registers name, where a field from 0xC0 on
    stands for any value, and the line goes up then; no second is left out, however
    late the update comes. *)
Theorem alarm_rings (old new base : Z) (v : vrtc) :
  line_ok v -> aintr_enabled (dev v) = true -> rtc_halted (dev v) = false ->
  base_rtctime v = old -> 0 <= old < new -> new < END_OF_TIME ->
  exists v', vrtc_time_update new base v = Ret (0, v') /\
    base_rtctime v' = new /\ base_uptime v' = base /\ rtc_to_secs (dev v') = new /\
    (has (reg (dev v') RTC_INTR) RTCIR_ALARM = true <->
       has (reg (dev v) RTC_INTR) RTCIR_ALARM = true \/ exists s, old < s <= new /\ rings (dev v) s = true) /\
    ((exists s, old < s <= new /\ rings (dev v) s = true) -> asserted v' = true) /\
    same_but MOVING (dev v) (dev v').
Proof.
  intros H He Hh Eo Ht Hn.
  assert (R : runs (vrtc_time_update new base) v (fun a v' => a = 0 /\ base_rtctime v' = new /\ base_uptime v' = base /\
    rtc_to_secs (dev v') = new /\ (has (reg (dev v') RTC_INTR) RTCIR_ALARM = true <->
       has (reg (dev v) RTC_INTR) RTCIR_ALARM = true \/ rang (dev v) old new) /\
    (rang (dev v) old new -> asserted v' = true) /\ same_but MOVING (dev v) (dev v'))).
  { unfold vrtc_time_update. apply runs_bind, runs_get. cbv zeta. apply runs_bind, runs_modify.
    rewrite Eo, (proj2 (Z.eqb_neq new old)), (proj2 (Z.eqb_neq new VRTC_BROKEN_TIME)), (proj2 (Z.eqb_neq old VRTC_BROKEN_TIME)), Hh, He
      by (unfold VRTC_BROKEN_TIME; lia). cbn [andb negb].
    set (v0 := v <| base_uptime := base |>). assert (H0 : line_ok v0) by (by destruct H). apply runs_bind.
    eapply runs_weaken; [apply rounds_run with (v := v0); try done; unfold VRTC_BROKEN_TIME; change (base_rtctime v0) with (base_rtctime v); lia|].
    intros _ v1 [P1 P2 P3 P4 P5 P6 P7]. change (base_rtctime v0) with (base_rtctime v) in *. change (dev v0) with (dev v) in *.
    rewrite Eo in P5, P6. apply runs_bind, runs_get. apply runs_bind.
    destruct (same_rings _ _ P3) as (_ & Ha & Hu & _). rewrite Hu. destruct (uintr_enabled (dev v)); cbn [when]; [|apply runs_ret].
    - eapply runs_weaken; [apply (raise_c RTCIR_UPDATE v1 P4); by right|]. intros _ v' (x & Ev & Hl & Halm & Hasrt). apply runs_ret.
      assert (Ed : dev v' = set_reg RTC_INTR x (dev v1)) by (by rewrite Ev).
      assert (Hc : same_but [RTC_INTR] (dev v1) (dev v')).
      { intros j Hj. rewrite Ed. apply reg_set_other. rewrite list_elem_of_singleton in Hj. done. }
      change (RTCIR_UPDATE =? RTCIR_ALARM) with false in Halm. rewrite orb_false_r in Halm.
      split; [done|]. split; [by rewrite Ev|]. split; [by rewrite Ev|]. split; [by rewrite (rtc_to_secs_same _ _ Hc)|].
      split; [by rewrite Halm|]. split; [|eapply rtc_same_trans; [exact P3|eapply same_sub; [|exact Hc]; unfold MOVING; clear; set_solver]].
      intros Hr. apply Hasrt; [congruence|]. rewrite Halm. apply P5. by right.
    - apply runs_ret. split_and!; try done. intros Hr. apply P6. by right. }
  destruct (runs_returns _ _ _ R) as (a & v' & E & -> & R'). by exists v'.
Qed.

(** An alarm five seconds past every minute, set at the ports. *)
Definition set_alarm : list request :=
  [Addr false 1 1; Data false 1 0x05; Addr false 1 3; Data false 1 0xC0; Addr false 1 5; Data false 1 0xFF;
   Addr false 1 11; Data false 1 0x22].
Definition armed : vrtc := match perform_all demo_clock set_alarm demo_start with Ret (_, v) => v | _ => blank_vrtc end.

Lemma alarm_rings_witness : exists v', vrtc_time_update (leap_night + 10) (leap_night + 10) armed = Ret (0, v') /\
  has (reg (dev v') RTC_INTR) RTCIR_ALARM = true /\ asserted v' = true.
Proof.
  assert (H : line_ok armed) by (split; vm_compute; reflexivity).
  destruct (alarm_rings leap_night (leap_night + 10) (leap_night + 10) armed H) as (v' & E & _ & _ & _ & Ha & Hr & _);
    [vm_compute; reflexivity|vm_compute; reflexivity|vm_compute; reflexivity|unfold leap_night; lia|unfold leap_night, END_OF_TIME; lia|].
  assert (Hs : exists s, leap_night < s <= leap_night + 10 /\ rings (dev armed) s = true).
  { exists (leap_night + 5). split; [lia|vm_compute; reflexivity]. }
  exists v'. split; [exact E|]. split; [apply Ha; right; exact Hs|exact (Hr Hs)].
Defined.

(** When the host's clock is set back under an alarm, the rounds do not come to the new
    time by counting up. *)
Example set_back : vrtc_time_update (leap_night - 1) (leap_night - 1) armed = Stop OutOfFuel.
Proof. vm_compute. reflexivity. Qed.

(** Halting clears the update interrupt's enable bit without a look at register C: a line that
    was high for an update stays high. *)
Definition enabled (r : rtcdev) : bool := aintr_enabled r || pintr_enabled r || uintr_enabled r.
Example halt_leaves_line : exists v,
  perform_all (fun n => leap_night + Z.of_nat n) [Addr false 1 11; Data false 1 0x12; UpdateTimer; Data false 1 0x92] demo_start = Ret (tt, v) /\
  asserted v = true /\ enabled (dev v) = false /\ rtc_halted (dev v) = true.
Proof. eexists. split_and!; vm_compute; reflexivity. Qed.
