(* ===== verification/RbTree.v ===== *)
(** * Red-black trees

    The macros of [src/devicemodel/include/tree.h]: search, insertion and removal with their
    recolouring loops, the ends, the neighbours and the walk.  A node of C has pointers to its children and to
    its parent; here the place of a node in its tree is a subtree and the path to
    the root, and a step of a loop to the parent takes a frame off the path. *)
From S2P Require Import Prelude.

Inductive color := RB_RED | RB_BLACK.
#[export] Instance color_eq_dec : EqDecision color.
Proof. solve_decision. Defined.

Inductive tree (A : Type) := Leaf | Node (c : color) (l : tree A) (x : A) (r : tree A).
Arguments Leaf {A}.
Arguments Node {A} c l x r.

(** The parent of the place, without the child that is looked at. *)
Inductive frame (A : Type) := InLeft (c : color) (x : A) (r : tree A) | InRight (c : color) (l : tree A) (x : A).
Arguments InLeft {A} c x r.
Arguments InRight {A} c l x.
Notation path A := (list (frame A)).

Section Tree.
Context {A : Type}.
Implicit Types (t : tree A) (p : path A) (f : frame A).

Definition up t f : tree A := match f with InLeft c x r => Node c t x r | InRight c l x => Node c l x t end.
Definition plug t p : tree A := fold_left up p t.

Definition is_red t : bool := match t with Node RB_RED _ _ _ => true | _ => false end.
Definition set_color (c : color) t : tree A := match t with Node _ l x r => Node c l x r | Leaf => Leaf end.
Definition frame_color f : color := match f with InLeft c _ _ | InRight c _ _ => c end.
Definition set_frame_color (c : color) f : frame A :=
  match f with InLeft _ x r => InLeft c x r | InRight _ l x => InRight c l x end.

(** ** Rotations

    Every node keeps its colour. *)
Definition RB_ROTATE_LEFT t : outcome (tree A) :=
  match t with
  | Node c l x (Node c' l' x' r') => Ret (Node c' (Node c l x l') x' r')
  | _ => Stop NullDeref
  end.
Definition RB_ROTATE_RIGHT t : outcome (tree A) :=
  match t with
  | Node c (Node c' l' x' r') x r => Ret (Node c' l' x' (Node c r' x r))
  | _ => Stop NullDeref
  end.

(** ** Insertion *)

(** The loop of [RB_INSERT_COLOR]: [elm] and, on the path, its parent, its grandparent and so on. *)
Fixpoint RB_INSERT_COLOR (elm : tree A) p : outcome (tree A) :=
  match p with
  | [] => Ret (set_color RB_BLACK elm)
  | parent :: p1 =>
    match frame_color parent with
    | RB_BLACK => Ret (set_color RB_BLACK (plug elm p))
    | RB_RED =>
      match p1 with
      | [] => Stop NullDeref
      | InLeft _ gx tmp :: p2 =>
        if is_red tmp then
          RB_INSERT_COLOR (Node RB_RED (up elm (set_frame_color RB_BLACK parent)) gx (set_color RB_BLACK tmp)) p2
        else
          t ← (match parent with InRight _ _ _ => RB_ROTATE_LEFT (up elm parent) | InLeft _ _ _ => Ret (up elm parent) end);
          t ← RB_ROTATE_RIGHT (Node RB_RED (set_color RB_BLACK t) gx tmp);
          Ret (set_color RB_BLACK (plug t p2))
      | InRight _ tmp gx :: p2 =>
        if is_red tmp then
          RB_INSERT_COLOR (Node RB_RED (set_color RB_BLACK tmp) gx (up elm (set_frame_color RB_BLACK parent))) p2
        else
          t ← (match parent with InLeft _ _ _ => RB_ROTATE_RIGHT (up elm parent) | InRight _ _ _ => Ret (up elm parent) end);
          t ← RB_ROTATE_LEFT (Node RB_RED tmp gx (set_color RB_BLACK t));
          Ret (set_color RB_BLACK (plug t p2))
      end
    end
  end.

(** ** Search *)

Section Key.
Context (cmp : A -> A -> comparison).

(** Down to the node that compares equal, or to the NULL where one would be. *)
Fixpoint search (elm : A) t p : tree A * path A :=
  match t with
  | Leaf => (Leaf, p)
  | Node c l x r =>
    match cmp elm x with
    | Lt => search elm l (InLeft c x r :: p)
    | Gt => search elm r (InRight c l x :: p)
    | Eq => (t, p)
    end
  end.

Definition RB_FIND (elm : A) t : option A :=
  match search elm t [] with (Node _ _ x _, _) => Some x | (Leaf, _) => None end.

(** The node there was, or the tree with the new one. *)
Definition RB_INSERT (elm : A) t : outcome (option A * tree A) :=
  match search elm t [] with
  | (Node _ _ tmp _, _) => Ret (Some tmp, t)
  | (Leaf, p) => t ← RB_INSERT_COLOR (Node RB_RED Leaf elm Leaf) p; Ret (None, t)
  end.
End Key.

(** ** Removal *)

(** A round of [RB_REMOVE_COLOR] whose [elm] is the left child of [parent], of colour [pc], and
    whose sibling [tmp] is black; [next] is the loop with the parent for [elm]. *)
Definition left_round (pc : color) (elm : tree A) (px : A) (tmp : tree A) p (next : tree A -> outcome (tree A)) : outcome (tree A) :=
  match tmp with
  | Leaf => Stop NullDeref
  | Node _ tl tx tr =>
    if negb (is_red tl) && negb (is_red tr) then next (Node pc elm px (Node RB_RED tl tx tr))
    else
      tmp ← (if is_red tr then Ret tmp else RB_ROTATE_RIGHT (Node RB_RED (set_color RB_BLACK tl) tx tr));
      match tmp with
      | Leaf => Stop NullDeref
      | Node _ tl tx tr =>
        t ← RB_ROTATE_LEFT (Node RB_BLACK elm px (Node pc tl tx (set_color RB_BLACK tr)));
        Ret (set_color RB_BLACK (plug t p))
      end
  end.
Definition right_round (pc : color) (tmp : tree A) (px : A) (elm : tree A) p (next : tree A -> outcome (tree A)) : outcome (tree A) :=
  match tmp with
  | Leaf => Stop NullDeref
  | Node _ tl tx tr =>
    if negb (is_red tl) && negb (is_red tr) then next (Node pc (Node RB_RED tl tx tr) px elm)
    else
      tmp ← (if is_red tl then Ret tmp else RB_ROTATE_LEFT (Node RB_RED tl tx (set_color RB_BLACK tr)));
      match tmp with
      | Leaf => Stop NullDeref
      | Node _ tl tx tr =>
        t ← RB_ROTATE_RIGHT (Node RB_BLACK (Node pc (set_color RB_BLACK tl) tx tr) px elm);
        Ret (set_color RB_BLACK (plug t p))
      end
  end.

(** The loop.  After the rotation for a red sibling the parent is red, and the loop ends when it comes to it. *)
Fixpoint RB_REMOVE_COLOR (elm : tree A) p : outcome (tree A) :=
  if is_red elm then Ret (plug (set_color RB_BLACK elm) p)
  else
    match p with
    | [] => Ret (set_color RB_BLACK elm)
    | InLeft pc px tmp :: p1 =>
      match tmp with
      | Node RB_RED tl tx tr =>
        let p2 := InLeft RB_BLACK tx tr :: p1 in
        left_round RB_RED elm px tl p2 (fun elm => Ret (plug (set_color RB_BLACK elm) p2))
      | _ => left_round pc elm px tmp p1 (fun elm => RB_REMOVE_COLOR elm p1)
      end
    | InRight pc tmp px :: p1 =>
      match tmp with
      | Node RB_RED tl tx tr =>
        let p2 := InRight RB_BLACK tl tx :: p1 in
        right_round RB_RED tr px elm p2 (fun elm => Ret (plug (set_color RB_BLACK elm) p2))
      | _ => right_round pc tmp px elm p1 (fun elm => RB_REMOVE_COLOR elm p1)
      end
    end.

(** The leftmost node: its colour, element and right child, and the path to it. *)
Fixpoint leftmost (c : color) (l : tree A) (x : A) (r : tree A) p : color * A * tree A * path A :=
  match l with
  | Leaf => (c, x, r, p)
  | Node c' l' x' r' => leftmost c' l' x' r' (InLeft c x r :: p)
  end.
Fixpoint rightmost (c : color) (l : tree A) (x : A) (r : tree A) p : color * tree A * A * path A :=
  match r with
  | Leaf => (c, l, x, p)
  | Node c' l' x' r' => rightmost c' l' x' r' (InRight c l x :: p)
  end.

(** [child] takes the place of a node of colour [c]. *)
Definition unhook (c : color) (child : tree A) p : outcome (tree A) :=
  match c with RB_BLACK => RB_REMOVE_COLOR child p | RB_RED => Ret (plug child p) end.

(** The node is the one at the place; with two children its successor comes there and takes its colour. *)
Definition RB_REMOVE t p : outcome (tree A) :=
  match t with
  | Leaf => Stop NullDeref
  | Node c Leaf _ r => unhook c r p
  | Node c l _ Leaf => unhook c l p
  | Node c l _ (Node c' l' x' r') =>
    let '(color, elm, child, q) := leftmost c' l' x' r' [] in
    unhook color child (q ++ InRight c l elm :: p)
  end.

(** ** Ends and neighbours *)

Definition RB_MIN t : option A :=
  match t with Leaf => None | Node c l x r => let '(_, x, _, _) := leftmost c l x r [] in Some x end.
Definition RB_MAX t : option A :=
  match t with Leaf => None | Node c l x r => let '(_, _, x, _) := rightmost c l x r [] in Some x end.

(** A node with its place. *)
Record rb_place := mkPlace { p_color : color; p_left : tree A; p_elm : A; p_right : tree A; p_path : path A }.

(** Up while the node is a right child. *)
Fixpoint climb_right t p : option rb_place :=
  match p with
  | [] => None
  | InLeft c x r :: p => Some (mkPlace c t x r p)
  | InRight c l x :: p => climb_right (Node c l x t) p
  end.
Fixpoint climb_left t p : option rb_place :=
  match p with
  | [] => None
  | InRight c l x :: p => Some (mkPlace c l x t p)
  | InLeft c x r :: p => climb_left (Node c t x r) p
  end.

Definition RB_NEXT (e : rb_place) : option rb_place :=
  match p_right e with
  | Node c l x r =>
    let '(c, x, r, p) := leftmost c l x r (InRight (p_color e) (p_left e) (p_elm e) :: p_path e) in Some (mkPlace c Leaf x r p)
  | Leaf => climb_right (Node (p_color e) (p_left e) (p_elm e) Leaf) (p_path e)
  end.
Definition RB_PREV (e : rb_place) : option rb_place :=
  match p_left e with
  | Node c l x r =>
    let '(c, l, x, p) := rightmost c l x r (InLeft (p_color e) (p_elm e) (p_right e) :: p_path e) in Some (mkPlace c l x Leaf p)
  | Leaf => climb_left (Node (p_color e) Leaf (p_elm e) (p_right e)) (p_path e)
  end.

(** [RB_FOREACH]: what a walk of at most [fuel] steps visits. *)
Fixpoint walk (fuel : nat) (e : option rb_place) : list A :=
  match fuel, e with
  | S fuel, Some e => p_elm e :: walk fuel (RB_NEXT e)
  | _, _ => []
  end.
Definition first_place t : option rb_place :=
  match t with Leaf => None | Node c l x r => let '(c, x, r, p) := leftmost c l x r [] in Some (mkPlace c Leaf x r p) end.
Fixpoint nodes t : nat := match t with Leaf => 0 | Node _ l _ r => S (nodes l + nodes r) end.
Definition RB_FOREACH t : list A := walk (nodes t) (first_place t).
End Tree.
Arguments rb_place : clear implicits.
