(* ===== verification/RbTreeSpec.v ===== *)
(** * What the red-black trees are

    The trees of RbTree.v against their elements in order: search, insertion and
    removal, the balance that the recolouring keeps, and what it costs to search. *)
From stdpp Require Import sorting.
From S2P Require Import Prelude RbTree.

Section Spec.
Context {A : Type}.
Implicit Types (t : tree A) (p : path A).

(** ** Order *)

Fixpoint inorder t : list A := match t with Leaf => [] | Node _ l x r => inorder l ++ x :: inorder r end.
(** What is to the left and to the right of a place. *)
Fixpoint before p : list A :=
  match p with [] => [] | InLeft _ _ _ :: p => before p | InRight _ l x :: p => before p ++ inorder l ++ [x] end.
Fixpoint after p : list A :=
  match p with [] => [] | InLeft _ x r :: p => x :: inorder r ++ after p | InRight _ _ _ :: p => after p end.

Lemma inorder_set_color c t : inorder (set_color c t) = inorder t.
Proof. by destruct t. Qed.
Ltac listy := cbn [inorder before after up set_frame_color]; rewrite ?inorder_set_color;
  repeat (progress (rewrite <- ?app_assoc; cbn [app])); rewrite ?app_nil_r; try reflexivity.

Lemma inorder_plug p : forall t, inorder (plug t p) = before p ++ inorder t ++ after p.
Proof.
  unfold plug. induction p as [|[c x r|c l x] p IH]; intros t; cbn [fold_left]; [listy|rewrite IH; listy..].
Qed.
Lemma plug_cons t f p : plug t (f :: p) = plug (up t f) p.
Proof. done. Qed.
Lemma before_app p q : before (p ++ q) = before q ++ before p.
Proof. induction p as [|[] p IH]; cbn [app before]; rewrite ?IH; listy. Qed.
Lemma after_app p q : after (p ++ q) = after p ++ after q.
Proof. induction p as [|[] p IH]; cbn [app after]; rewrite ?IH; listy. Qed.
Lemma length_inorder t : length (inorder t) = nodes t.
Proof. induction t as [|c l IHl x r IHr]; cbn [inorder nodes]; [done|]. rewrite length_app. cbn [length]. lia. Qed.

(** ** Balance *)

(** The colour of the root; red nodes have black children; every way down has [n] black nodes. *)
Inductive rbt : color -> nat -> tree A -> Prop :=
  | rbt_leaf : rbt RB_BLACK 0 Leaf
  | rbt_red n l x r : rbt RB_BLACK n l -> rbt RB_BLACK n r -> rbt RB_RED n (Node RB_RED l x r)
  | rbt_black c1 c2 n l x r : rbt c1 n l -> rbt c2 n r -> rbt RB_BLACK (S n) (Node RB_BLACK l x r).

(** A place for a tree of black height [n]: for any, or for a black one only. *)
Inductive rbp : color -> nat -> path A -> Prop :=
  | rbp_root n : rbp RB_BLACK n []
  | rbp_red_l n x r p : rbt RB_BLACK n r -> rbp RB_RED n p -> rbp RB_BLACK n (InLeft RB_RED x r :: p)
  | rbp_red_r n l x p : rbt RB_BLACK n l -> rbp RB_RED n p -> rbp RB_BLACK n (InRight RB_RED l x :: p)
  | rbp_black_l m c n x r p : rbt c n r -> rbp m (S n) p -> rbp RB_RED n (InLeft RB_BLACK x r :: p)
  | rbp_black_r m c n l x p : rbt c n l -> rbp m (S n) p -> rbp RB_RED n (InRight RB_BLACK l x :: p).
Hint Constructors rbt rbp : rb.

Lemma plug_rb p : forall c m n t, rbt c n t -> rbp m n p -> (c = RB_RED -> m = RB_RED) -> exists h, rbt RB_BLACK h (plug t p).
Proof.
  induction p as [|f p IH]; intros c m n t Ht Hp Hc.
  - inversion Hp; subst. destruct c; [by specialize (Hc eq_refl)|by exists n].
  - rewrite plug_cons. inversion Hp; subst; cbn [up].
    1-2: destruct c; [by specialize (Hc eq_refl)|]; eapply (IH RB_RED RB_RED); eauto with rb.
    all: eapply (IH RB_BLACK); eauto with rb; done.
Qed.

Lemma rbt_color c n t : rbt c n t -> is_red t = match c with RB_RED => true | RB_BLACK => false end.
Proof. by destruct 1. Qed.
Lemma rbt_black_id n t : rbt RB_BLACK n t -> set_color RB_BLACK t = t.
Proof. by inversion 1. Qed.
Lemma rbt_blacken n t : rbt RB_RED n t -> rbt RB_BLACK (S n) (set_color RB_BLACK t).
Proof. inversion 1; subst; cbn; eauto with rb. Qed.
Lemma rbt_no_leaf c n : ~ rbt c (S n) Leaf.
Proof. by inversion 1. Qed.

(** It ends in a tree that is balanced, with these elements. *)
Definition good (o : outcome (tree A)) (l : list A) : Prop :=
  exists t h, o = Ret t /\ rbt RB_BLACK h t /\ inorder t = l.

(** The end of both loops. *)
Lemma good_plug c m n t p l : rbt c n t -> rbp m n p -> (c = RB_RED -> m = RB_RED) -> before p ++ inorder t ++ after p = l ->
  good (Ret (set_color RB_BLACK (plug t p))) l.
Proof.
  intros Ht Hp Hc <-. destruct (plug_rb p c m n t Ht Hp Hc) as [h Hh]. eexists _, h. split; [reflexivity|].
  rewrite (rbt_black_id h) by done. by rewrite inorder_plug.
Qed.

Lemma good_eq o l l' : good o l -> l = l' -> good o l'.
Proof. by intros H <-. Qed.

Lemma insert_color_good k : forall p elm n m, (length p < k)%nat -> rbt RB_RED n elm -> rbp m n p ->
  good (RB_INSERT_COLOR elm p) (before p ++ inorder elm ++ after p).
Proof.
  induction k as [|k IH]; intros p elm n m Hk He Hp; [lia|]. destruct p as [|f p1]; cbn [RB_INSERT_COLOR].
  { exists (set_color RB_BLACK elm), (S n). split; [done|]. split; [by apply rbt_blacken|]. listy. }
  destruct (frame_color f) eqn:Ef; [|inversion Hp; subst; try done; eapply good_plug; eauto with rb].
  assert (Hp1 : rbp RB_RED n p1) by (inversion Hp; subst; done).
  destruct p1 as [|g p2]; [by inversion Hp1|]. cbn [length] in Hk.
  inversion Hp1 as [| | |m' c n' gx tmp q Htmp Hp2|m' c n' tmp gx q Htmp Hp2]; subst; rewrite (rbt_color _ _ _ Htmp); destruct c;
    cbv iota.
  all: inversion Hp as [|n' px s q Hs _|n' s px q Hs _| |]; subst; try done; cbn [up set_frame_color].
  (* a red uncle *)
  1-2, 5-6: eapply good_eq; [eapply (IH p2 _ (S n)); [lia|apply rbt_red; [eauto using rbt_blacken with rb..]|exact Hp2]|listy].
  all: inversion He; subst; cbn; eapply good_eq; [eapply good_plug; [eauto with rb|exact Hp2|done|reflexivity]|listy].
Qed.
(** A round of removal: the tree at the place has one black node less than its sibling. *)
Lemma left_round_good pc elm px tmp p next n m : rbt RB_BLACK n elm -> rbt RB_BLACK (S n) tmp ->
  rbp m (match pc with RB_RED => S n | RB_BLACK => S (S n) end) p -> (pc = RB_RED -> m = RB_RED) ->
  (forall t, rbt RB_RED n t -> inorder t = inorder tmp -> good (next (Node pc elm px t)) (before p ++ inorder (Node pc elm px tmp) ++ after p)) ->
  good (left_round pc elm px tmp p next) (before p ++ inorder (Node pc elm px tmp) ++ after p).
Proof.
  intros He Ht Hp Hm Hn. inversion Ht as [| |c1 c2 n' tl tx tr Hl Hr]; subst. unfold left_round.
  rewrite (rbt_color _ _ _ Hl), (rbt_color _ _ _ Hr).
  destruct c2; [|destruct c1]; cbn [negb]; rewrite ?andb_false_r; cbn [andb mbind outcome_bind].
  - inversion Hr; subst. cbn [RB_ROTATE_LEFT RB_ROTATE_RIGHT mbind outcome_bind set_color]. eapply good_eq; [eapply good_plug; [|exact Hp|exact Hm|reflexivity]|listy].
    destruct pc; eauto 7 with rb.
  - inversion Hl; subst. cbn [RB_ROTATE_LEFT RB_ROTATE_RIGHT mbind outcome_bind set_color]. eapply good_eq; [eapply good_plug; [|exact Hp|exact Hm|reflexivity]|rewrite ?inorder_set_color; listy].
    destruct pc; eauto 7 with rb.
  - apply Hn; [eauto with rb|done].
Qed.
Lemma right_round_good pc tmp px elm p next n m : rbt RB_BLACK n elm -> rbt RB_BLACK (S n) tmp ->
  rbp m (match pc with RB_RED => S n | RB_BLACK => S (S n) end) p -> (pc = RB_RED -> m = RB_RED) ->
  (forall t, rbt RB_RED n t -> inorder t = inorder tmp -> good (next (Node pc t px elm)) (before p ++ inorder (Node pc tmp px elm) ++ after p)) ->
  good (right_round pc tmp px elm p next) (before p ++ inorder (Node pc tmp px elm) ++ after p).
Proof.
  intros He Ht Hp Hm Hn. inversion Ht as [| |c1 c2 n' tl tx tr Hl Hr]; subst. unfold right_round.
  rewrite (rbt_color _ _ _ Hl), (rbt_color _ _ _ Hr).
  destruct c1; [|destruct c2]; cbn [negb]; rewrite ?andb_false_r; cbn [andb mbind outcome_bind].
  - inversion Hl; subst. cbn [RB_ROTATE_LEFT RB_ROTATE_RIGHT mbind outcome_bind set_color]. eapply good_eq; [eapply good_plug; [|exact Hp|exact Hm|reflexivity]|listy].
    destruct pc; eauto 7 with rb.
  - inversion Hr; subst. cbn [RB_ROTATE_LEFT RB_ROTATE_RIGHT mbind outcome_bind set_color]. eapply good_eq; [eapply good_plug; [|exact Hp|exact Hm|reflexivity]|rewrite ?inorder_set_color; listy].
    destruct pc; eauto 7 with rb.
  - apply Hn; [eauto with rb|done].
Qed.

(** What may stand where a black node has gone: a red root that will be black, or one black node less. *)
Definition short (n : nat) t : Prop :=
  (is_red t = true /\ rbt RB_BLACK (S n) (set_color RB_BLACK t)) \/ rbt RB_BLACK n t.
Lemma short_red t n : is_red t = true -> short n t -> rbt RB_BLACK (S n) (set_color RB_BLACK t).
Proof. intros Hr [[_ H]|H]; [done|]. by rewrite (rbt_color _ _ _ H) in Hr. Qed.

Lemma plug_blackened t n m p l : is_red t = true -> short n t -> rbp m (S n) p -> before p ++ inorder t ++ after p = l ->
  good (Ret (plug (set_color RB_BLACK t) p)) l.
Proof.
  intros Hr Hs Hp <-. destruct (plug_rb p RB_BLACK m (S n) _ (short_red _ _ Hr Hs) Hp) as [h Hh]; [done|].
  eexists _, h. split; [done|]. split; [done|]. by rewrite inorder_plug, inorder_set_color.
Qed.

Lemma remove_color_good p : forall elm n m, short n elm -> rbp m (S n) p -> good (RB_REMOVE_COLOR elm p) (before p ++ inorder elm ++ after p).
Proof.
  induction p as [|f p IH]; intros elm n m Hs Hp.
  - cbn [RB_REMOVE_COLOR]. destruct (is_red elm) eqn:Er; [by eapply plug_blackened|].
    destruct Hs as [[Hr _]|Hs]; [congruence|]. exists (set_color RB_BLACK elm), n. split; [done|]. split; [by rewrite (rbt_black_id n)|listy].
  - cbn [RB_REMOVE_COLOR]. destruct (is_red elm) eqn:Er; [by eapply plug_blackened|].
    destruct Hs as [[Hr _]|Hs]; [congruence|].
    inversion Hp as [|n' px tmp q Ht Hq|n' tmp px q Ht Hq|m' c n' px tmp q Ht Hq|m' c n' tmp px q Ht Hq]; subst.
    all: destruct tmp as [|[] tl tx tr]; try (by inversion Ht).
    all: try (inversion Ht; subst; clear Ht).
    + eapply good_eq; [eapply left_round_good; eauto with rb|listy]. intros t Ht E.
      eapply good_eq; [apply (IH _ n RB_RED); [|done]|cbn [inorder before after]; rewrite E; listy]. left. split; [done|]. cbn. eauto with rb.
    + eapply good_eq; [eapply right_round_good; eauto with rb|listy]. intros t Ht E.
      eapply good_eq; [apply (IH _ n RB_RED); [|done]|cbn [inorder before after]; rewrite E; listy]. left. split; [done|]. cbn. eauto with rb.
    + eapply good_eq; [eapply left_round_good; eauto with rb|listy]. intros t Ht E.
      eapply good_eq; [eapply (plug_blackened _ n); [done| |eauto with rb|reflexivity]|cbn [inorder before after]; rewrite E; listy].
      left. split; [done|]. cbn. eauto with rb.
    + eapply good_eq; [eapply left_round_good; [eauto with rb|eauto with rb|eauto|done|]|listy]. intros t Ht E.
      eapply good_eq; [apply (IH _ (S n) m'); [|done]|cbn [inorder before after]; rewrite E; listy]. right. eauto with rb.
    + eapply good_eq; [eapply right_round_good; eauto with rb|listy]. intros t Ht E.
      eapply good_eq; [eapply (plug_blackened _ n); [done| |eauto with rb|reflexivity]|cbn [inorder before after]; rewrite E; listy].
      left. split; [done|]. cbn. eauto with rb.
    + eapply good_eq; [eapply right_round_good; [eauto with rb|eauto with rb|eauto|done|]|listy]. intros t Ht E.
      eapply good_eq; [apply (IH _ (S n) m'); [|done]|cbn [inorder before after]; rewrite E; listy]. right. eauto with rb.
Qed.
(** A place in a balanced tree. *)
Definition placed t p : Prop := exists c m n, rbt c n t /\ rbp m n p /\ (c = RB_RED -> m = RB_RED).

Lemma placed_root t n : rbt RB_BLACK n t -> placed t [].
Proof. intros H. exists RB_BLACK, RB_BLACK, n. eauto with rb. Qed.
Lemma placed_left c l x r p : placed (Node c l x r) p -> placed l (InLeft c x r :: p).
Proof.
  intros (c' & m & n & Ht & Hp & Hc). inversion Ht; subst.
  - specialize (Hc eq_refl). subst. exists RB_BLACK, RB_BLACK, n. eauto with rb.
  - eexists _, RB_RED, _. eauto with rb.
Qed.
Lemma placed_right c l x r p : placed (Node c l x r) p -> placed r (InRight c l x :: p).
Proof.
  intros (c' & m & n & Ht & Hp & Hc). inversion Ht; subst.
  - specialize (Hc eq_refl). subst. exists RB_BLACK, RB_BLACK, n. eauto with rb.
  - eexists _, RB_RED, _. eauto with rb.
Qed.

(** A new node at an empty place. *)
Lemma insert_good x p : placed Leaf p -> good (RB_INSERT_COLOR (Node RB_RED Leaf x Leaf) p) (before p ++ x :: after p).
Proof.
  intros (c & m & n & Ht & Hp & _). inversion Ht; subst.
  eapply good_eq; [eapply (insert_color_good (S (length p))); eauto with rb|listy].
Qed.

(** *** The leftmost node *)

Lemma leftmost_place l : forall c x r p, placed (Node c l x r) p ->
  let '(c', x', r', p') := leftmost c l x r p in
  placed (Node c' Leaf x' r') p' /\ before p' ++ x' :: inorder r' ++ after p' = before p ++ inorder l ++ x :: inorder r ++ after p.
Proof.
  induction l as [|c' l' IHl x' r' _]; intros c x r p H; cbn [leftmost]; [split; [done|listy]|].
  specialize (IHl c' x' r' (InLeft c x r :: p) (placed_left _ _ _ _ _ H)). destruct (leftmost _ _ _ _ _) as [[[c1 x1] r1] p1].
  destruct IHl as [H1 H2]. split; [done|]. rewrite H2. listy.
Qed.
Lemma leftmost_path l : forall c x r p, leftmost c l x r p = let '(c', x', r', q) := leftmost c l x r [] in (c', x', r', q ++ p).
Proof.
  induction l as [|c' l' IHl x' r' _]; intros c x r p; cbn [leftmost]; [done|].
  rewrite IHl, (IHl c' x' r' [InLeft c x r]). destruct (leftmost c' l' x' r' []) as [[[c1 x1] r1] q]. by rewrite <- app_assoc.
Qed.

Lemma leftmost_before l : forall c x r p, before (leftmost c l x r p).2 = before p.
Proof. induction l as [|c' l' IHl x' r' _]; intros c x r p; cbn [leftmost]; [done|]. by rewrite IHl. Qed.

Lemma rbp_elm q : forall m n c l x y p, rbp m n (q ++ InRight c l x :: p) -> rbp m n (q ++ InRight c l y :: p).
Proof.
  induction q as [|f q IH]; intros m n c l x y p H; cbn [app] in *; inversion H; subst; econstructor; eauto.
Qed.
Lemma placed_elm q t c l x y p : placed t (q ++ InRight c l x :: p) -> placed t (q ++ InRight c l y :: p).
Proof. intros (c' & m & n & Ht & Hp & Hc). exists c', m, n. eauto using rbp_elm. Qed.

(** *** Removal *)

(** A node with one child at most gives its place to it. *)
Lemma unhook_good c l x r child p : placed (Node c l x r) p -> (l = Leaf /\ child = r) \/ (r = Leaf /\ child = l) ->
  good (unhook c child p) (before p ++ inorder child ++ after p).
Proof.
  intros (c' & m & n & Ht & Hp & Hc) Hch. inversion Ht as [|n' l' x' r' Hl Hr|c1 c2 n' l' x' r' Hl Hr]; subst; cbn [unhook].
  - assert (Hch' : rbt RB_BLACK n child) by (by destruct Hch as [[_ ->]|[_ ->]]). specialize (Hc eq_refl). subst.
    destruct (plug_rb p RB_BLACK RB_RED n child) as [h Hh]; [done..|]. exists (plug child p), h. by rewrite inorder_plug.
  - apply (remove_color_good p child n' m); [|done]. destruct Hch as [[_ ->]|[_ ->]].
    + destruct c2; [left|by right]. split; [by rewrite (rbt_color _ _ _ Hr)|by apply rbt_blacken].
    + destruct c1; [left|by right]. split; [by rewrite (rbt_color _ _ _ Hl)|by apply rbt_blacken].
Qed.

Lemma remove_good c l x r p : placed (Node c l x r) p ->
  good (RB_REMOVE (Node c l x r) p) (before p ++ inorder l ++ inorder r ++ after p).
Proof.
  intros H. destruct l as [|lc ll lx lr]; [|destruct r as [|rc rl rx rr]]; cbn [RB_REMOVE].
  - eapply good_eq; [eapply unhook_good; eauto|listy].
  - eapply good_eq; [eapply unhook_good; eauto|listy].
  - set (l := Node lc ll lx lr) in *. pose proof (leftmost_place rl rc rx rr _ (placed_right _ _ _ _ _ H)) as Hm.
    pose proof (leftmost_before rl rc rx rr []) as Hb. rewrite leftmost_path in Hm.
    destruct (leftmost rc rl rx rr []) as [[[c1 x1] r1] q]. cbn in Hb. destruct Hm as [Hpl Ho].
    eapply good_eq; [eapply unhook_good; [exact (placed_elm _ _ _ _ _ x1 _ Hpl)|by left]|].
    rewrite before_app, after_app in *. rewrite Hb in *. cbn [before after] in *. rewrite ?app_nil_r in *. apply app_inv_head in Ho.
    cbn [app] in Ho. listy. by rewrite Ho.
Qed.
(** ** Search *)

(** The number of nodes on the longest way down. *)
Fixpoint height t : nat := match t with Leaf => 0 | Node _ l _ r => S (height l `max` height r) end.

Lemma rbt_height c n t : rbt c n t -> (2 ^ n <= S (nodes t) /\ height t <= 2 * n + match c with RB_RED => 1 | RB_BLACK => 0 end)%nat.
Proof.
  induction 1 as [|n l x r _ [IHl1 IHl2] _ [IHr1 IHr2]|c1 c2 n l x r _ [IHl1 IHl2] _ [IHr1 IHr2]]; cbn [nodes height]; [cbn; lia|lia|].
  cbn [Nat.pow]. destruct c1, c2; lia.
Qed.

(** The ways down are short, and so is a search. *)
Lemma height_log n t : rbt RB_BLACK n t -> (height t <= 2 * Nat.log2 (S (nodes t)))%nat.
Proof.
  intros H. destruct (rbt_height _ _ _ H) as [H1 H2]. assert (n <= Nat.log2 (S (nodes t)))%nat; [|lia].
  apply Nat.log2_le_pow2; lia.
Qed.

Lemma search_depth cmp (elm : A) t : forall p, (length (search cmp elm t p).2 <= length p + height t)%nat.
Proof.
  induction t as [|c l IHl x r IHr]; intros p; cbn [search height]; [cbn; lia|].
  destruct (cmp elm x); [cbn; lia| |]; [specialize (IHl (InLeft c x r :: p))|specialize (IHr (InRight c l x :: p))]; cbn [length] in *; lia.
Qed.

Lemma search_place cmp (elm : A) t : forall p, placed t p ->
  let '(t', p') := search cmp elm t p in plug t' p' = plug t p /\ placed t' p' /\ match t' with Leaf => True | Node _ _ x _ => cmp elm x = Eq end.
Proof.
  induction t as [|c l IHl x r IHr]; intros p H; cbn [search]; [done|]. destruct (cmp elm x) eqn:E; [done|apply IHl; by eapply placed_left|].
  apply IHr. by eapply placed_right.
Qed.
(** ** The walk *)

(** What a walk has before it and behind it. *)
Definition rest (e : rb_place A) : list A := inorder (p_right e) ++ after (p_path e).
Definition front (e : rb_place A) : list A := before (p_path e) ++ inorder (p_left e).

Lemma leftmost_rest l : forall c x r p, let '(_, x', r', p') := leftmost c l x r p in
  x' :: inorder r' ++ after p' = inorder l ++ x :: inorder r ++ after p.
Proof.
  induction l as [|c' l' IHl x' r' _]; intros c x r p; cbn [leftmost]; [done|].
  specialize (IHl c' x' r' (InLeft c x r :: p)). destruct (leftmost _ _ _ _ _) as [[[c1 x1] r1] p1]. rewrite IHl. listy.
Qed.
Lemma rightmost_front r : forall c l x p, let '(_, l', x', p') := rightmost c l x r p in
  before p' ++ inorder l' ++ [x'] = before p ++ inorder l ++ x :: inorder r.
Proof.
  induction r as [|c' l' _ x' r' IHr]; intros c l x p; cbn [rightmost]; [done|].
  specialize (IHr c' l' x' (InRight c l x :: p)). destruct (rightmost _ _ _ _ _) as [[[c1 l1] x1] p1]. rewrite IHr. listy.
Qed.
Lemma climb_right_rest p : forall t, match climb_right t p with None => after p = [] | Some e => p_elm e :: rest e = after p end.
Proof. induction p as [|[] p IH]; intros t; cbn [climb_right after]; [done|done|apply IH]. Qed.
Lemma climb_left_front p : forall t, match climb_left t p with None => before p = [] | Some e => front e ++ [p_elm e] = before p end.
Proof. induction p as [|[] p IH]; intros t; cbn [climb_left before]; [done|apply IH|]. unfold front. cbn. by rewrite app_assoc. Qed.

Lemma next_rest e : match RB_NEXT e with None => rest e = [] | Some e' => p_elm e' :: rest e' = rest e end.
Proof.
  destruct e as [c l x [|rc rl rx rr] p]; unfold RB_NEXT, rest; cbn [p_right p_left p_elm p_color p_path].
  - apply (climb_right_rest p).
  - pose proof (leftmost_rest rl rc rx rr (InRight c l x :: p)) as H. destruct (leftmost _ _ _ _ _) as [[[c1 x1] r1] p1].
    cbn. rewrite H. cbn [after]. by rewrite <- app_assoc.
Qed.
Lemma prev_front e : match RB_PREV e with None => front e = [] | Some e' => front e' ++ [p_elm e'] = front e end.
Proof.
  destruct e as [c [|lc ll lx lr] x r p]; unfold RB_PREV, front; cbn [p_right p_left p_elm p_color p_path].
  - pose proof (climb_left_front p (Node c Leaf x r)) as H. destruct (climb_left _ _) as [e|]; cbn [inorder]; rewrite app_nil_r; exact H.
  - pose proof (rightmost_front lr lc ll lx (InLeft c x r :: p)) as H. destruct (rightmost _ _ _ _ _) as [[[c1 l1] x1] p1].
    cbn. cbn [before] in H. by rewrite <- app_assoc.
Qed.

Lemma walk_take fuel : forall e, walk fuel (Some e) = take fuel (p_elm e :: rest e).
Proof.
  induction fuel as [|fuel IH]; intros e; [done|]. cbn [walk take]. f_equal. pose proof (next_rest e) as H.
  destruct (RB_NEXT e) as [e'|]; [by rewrite IH, H|]. rewrite H. by destruct fuel.
Qed.

(** The walk visits every node once, in order. *)
Lemma foreach_inorder t : RB_FOREACH t = inorder t.
Proof.
  unfold RB_FOREACH. rewrite <- length_inorder. destruct t as [|c l x r]; [done|]. unfold first_place.
  pose proof (leftmost_rest l c x r []) as H. destruct (leftmost _ _ _ _ _) as [[[c1 x1] r1] p1].
  rewrite walk_take. cbn [p_elm]. unfold rest. cbn [p_right p_path]. rewrite H. cbn [after]. rewrite app_nil_r. apply take_ge. by cbn.
Qed.
Lemma ends_inorder t : RB_MIN t = head (inorder t) /\ RB_MAX t = last (inorder t).
Proof.
  destruct t as [|c l x r]; [done|]. unfold RB_MIN, RB_MAX. split.
  - pose proof (leftmost_rest l c x r []) as H. destruct (leftmost _ _ _ _ _) as [[[c1 x1] r1] p1]. cbn [inorder].
    cbn [after] in H. rewrite !app_nil_r in H. by rewrite <- H.
  - pose proof (rightmost_front r c l x []) as H. destruct (rightmost _ _ _ _ _) as [[[c1 l1] x1] p1]. cbn [inorder].
    cbn [before app] in H. rewrite <- H, app_assoc. by rewrite last_snoc.
Qed.
End Spec.

(** An order on the elements [ok] accepts; those that compare equal may still differ. *)
Class CmpLaws {A} (cmp : A -> A -> comparison) (ok : A -> Prop) := {
  cmp_flip x y : ok x -> ok y -> cmp y x = CompOpp (cmp x y);
  cmp_trans x y z : ok x -> ok y -> ok z -> cmp x y = Lt -> cmp y z = Lt -> cmp x z = Lt
}.

Section Order.
Context {A : Type} (cmp : A -> A -> comparison) (ok : A -> Prop) `{!CmpLaws cmp ok}.
Implicit Types (t : tree A) (p : path A).

Definition lt (x y : A) : Prop := cmp x y = Lt.
Definition ordered (l : list A) : Prop := StronglySorted lt l /\ Forall ok l.

(** Every tree the operations make. *)
Definition rb_ok t : Prop := (exists n, rbt RB_BLACK n t) /\ ordered (inorder t).

(** What is on the left of a place is below [elm], what is on the right above. *)
Definition sides (elm : A) p : Prop := Forall (fun x => lt x elm) (before p) /\ Forall (lt elm) (after p).

Lemma lt_flip x y : ok x -> ok y -> cmp x y = Gt -> lt y x.
Proof. intros Hx Hy E. unfold lt. by rewrite (cmp_flip x y), E. Qed.

Lemma ordered_node l x r : ordered (l ++ x :: r) -> ok x /\ ordered l /\ ordered r /\ (forall y, y ∈ l -> ok y /\ lt y x) /\ (forall y, y ∈ r -> ok y /\ lt x y).
Proof.
  intros [Hs Hf]. apply StronglySorted_app in Hs as (H1 & H2 & [H3 H4]%StronglySorted_cons).
  apply Forall_app in Hf as [F1 [F2 F3]%Forall_cons]. rewrite Forall_forall in H3. unfold ordered. split_and!; try done.
  - intros y Hy. rewrite Forall_forall in F1. split; [by apply F1|]. apply H1; [done|left].
  - intros y Hy. rewrite Forall_forall in F3. split; [by apply F3|]. by apply H3.
Qed.
Lemma ordered_drop l x r : ordered (l ++ x :: r) -> ordered (l ++ r).
Proof.
  intros [Hs Hf]. apply StronglySorted_app in Hs as (H1 & H2 & [H3 H4]%StronglySorted_cons).
  apply Forall_app in Hf as [F1 [F2 F3]%Forall_cons]. split; [|by apply Forall_app].
  apply StronglySorted_app. split_and!; [|done..]. intros a b Ha Hb. apply H1; [done|by right].
Qed.
Lemma ordered_add l x r : ok x -> Forall (fun y => lt y x) l -> Forall (lt x) r -> ordered (l ++ r) -> ordered (l ++ x :: r).
Proof.
  intros Hx Hl Hr [Hs Hf]. apply StronglySorted_app in Hs as (H1 & H2 & H3). apply Forall_app in Hf as [F1 F2].
  split; [|apply Forall_app; split; [done|by constructor]]. apply StronglySorted_app. split_and!; [|done|by apply StronglySorted_cons].
  intros a b Ha Hb. apply elem_of_cons in Hb as [-> |Hb]; [|by apply H1]. rewrite Forall_forall in Hl. by apply Hl.
Qed.

Lemma search_sides elm t : forall p, ok elm -> ordered (inorder t) -> sides elm p -> sides elm (search cmp elm t p).2.
Proof.
  induction t as [|c l IHl x r IHr]; intros p He Ho Hs; cbn [search]; [done|]. cbn [inorder] in Ho.
  destruct (ordered_node _ _ _ Ho) as (Hx & Hl & Hr & Al & Ar). destruct Hs as [Hb Ha]. destruct (cmp elm x) eqn:E; [done| |].
  - apply IHl; [done..|]. split; [done|]. cbn [after]. constructor; [done|]. apply Forall_app. split; [|done].
    apply Forall_forall. intros y Hy. destruct (Ar y Hy) as [Hok Hlt]. by apply (cmp_trans elm x y).
  - apply lt_flip in E; [|done..]. apply IHr; [done..|]. split; [|done]. cbn [before]. apply Forall_app. split; [done|].
    apply Forall_app. split; [|by repeat constructor]. apply Forall_forall. intros y Hy. destruct (Al y Hy) as [Hok Hlt].
    by apply (cmp_trans y x elm).
Qed.

(** The place of a search in a tree the operations make. *)
Lemma search_spec elm t : ok elm -> rb_ok t ->
  let '(t', p) := search cmp elm t [] in
  placed t' p /\ sides elm p /\ inorder t = before p ++ inorder t' ++ after p /\
  match t' with Leaf => True | Node _ _ x _ => cmp elm x = Eq end.
Proof.
  intros He [[n Hn] Ho]. pose proof (search_place cmp elm t [] (placed_root t n Hn)) as H1.
  pose proof (search_sides elm t [] He Ho ltac:(by split)) as H2. destruct (search cmp elm t []) as [t' p].
  destruct H1 as (E & Hp & Hx). split; [done|]. split; [done|]. split; [|done]. by rewrite <- inorder_plug, E.
Qed.

Lemma sides_ne elm p : ok elm -> sides elm p -> Forall ok (before p ++ after p) -> Forall (fun x => cmp elm x <> Eq) (before p ++ after p).
Proof.
  intros He [Hb Ha] Hok. rewrite Forall_app in Hok. destruct Hok as [Kb Ka]. apply Forall_app. split; apply Forall_forall; intros x Hx E.
  - rewrite Forall_forall in Hb, Kb. specialize (Hb x Hx). unfold lt in Hb. rewrite (cmp_flip elm x), E in Hb by auto. done.
  - rewrite Forall_forall in Ha. specialize (Ha x Hx). unfold lt in Ha. congruence.
Qed.

Lemma find_spec elm t : ok elm -> rb_ok t ->
  match RB_FIND cmp elm t with
  | Some x => x ∈ inorder t /\ cmp elm x = Eq
  | None => Forall (fun x => cmp elm x <> Eq) (inorder t)
  end.
Proof.
  intros He Ht. pose proof (search_spec elm t He Ht) as H. unfold RB_FIND. destruct (search cmp elm t []) as [[|c l x r] p];
    destruct H as (_ & Hs & E & Hx).
  - rewrite E in *. cbn [inorder app] in *. apply sides_ne; [done|done|]. destruct Ht as [_ [_ Hf]]. by rewrite E in Hf.
  - split; [|done]. rewrite E. cbn [inorder]. set_solver.
Qed.

Lemma insert_spec elm t : ok elm -> rb_ok t ->
  match RB_FIND cmp elm t with
  | Some x => RB_INSERT cmp elm t = Ret (Some x, t)
  | None => exists t' l1 l2, RB_INSERT cmp elm t = Ret (None, t') /\ rb_ok t' /\ inorder t = l1 ++ l2 /\ inorder t' = l1 ++ elm :: l2
  end.
Proof.
  intros He Ht. pose proof (search_spec elm t He Ht) as H. unfold RB_FIND, RB_INSERT.
  destruct (search cmp elm t []) as [[|c l x r] p]; [|done]. destruct H as (Hp & [Hb Ha] & E & _). cbn [inorder app] in E.
  destruct (insert_good elm p Hp) as (t' & h & Et & Hr & Eo). rewrite Et. exists t', (before p), (after p).
  split; [done|]. split; [|done]. split; [by exists h|]. rewrite Eo. apply ordered_add; [done..|]. rewrite <- E. apply Ht.
Qed.

Definition RB_REMOVE_found (elm : A) t : outcome (tree A) := let '(e, p) := search cmp elm t [] in RB_REMOVE e p.

Lemma remove_spec elm x t : ok elm -> rb_ok t -> RB_FIND cmp elm t = Some x ->
  exists t' l1 l2, RB_REMOVE_found elm t = Ret t' /\ rb_ok t' /\ inorder t = l1 ++ x :: l2 /\ inorder t' = l1 ++ l2.
Proof.
  intros He Ht Ef. pose proof (search_spec elm t He Ht) as H. unfold RB_FIND in Ef. unfold RB_REMOVE_found.
  destruct (search cmp elm t []) as [[|c l y r] p]; [done|]. injection Ef as ->. destruct H as (Hp & _ & E & _). cbn [inorder] in E.
  destruct (remove_good c l x r p Hp) as (t' & h & Et & Hr & Eo). exists t', (before p ++ inorder l), (inorder r ++ after p).
  split; [done|]. rewrite <- !app_assoc in *. cbn [app] in *. split; [|by split; [rewrite E|rewrite Eo]]. split; [by exists h|].
  rewrite Eo, app_assoc. apply (ordered_drop _ x). rewrite <- app_assoc. cbn [app]. destruct Ht as [_ Ho]. by rewrite E in Ho.
Qed.
End Order.

(** C33. A red-black tree behaves as the sorted list of its elements, for any order of the elements:
    an element that compares equal is found if there is one; an insertion answers it and changes nothing, or
    puts the new element at its place in order; a removal takes out the one
    that was found and no other; both end in a balanced tree, without following a null pointer;
    the walk visits the elements in order; and a search, on which all
    depends, goes through at most twice as many nodes as the logarithm of their number. *)
Theorem rb_refines_list {A} (cmp : A -> A -> comparison) (ok : A -> Prop) `{!CmpLaws cmp ok} (elm : A) (t : tree A) :
  rb_ok cmp ok t -> ok elm ->
  RB_FOREACH t = inorder t /\
  (length (search cmp elm t []).2 <= 2 * Nat.log2 (S (nodes t)))%nat /\
  match RB_FIND cmp elm t with
  | Some x =>
    x ∈ inorder t /\ cmp elm x = Eq /\ RB_INSERT cmp elm t = Ret (Some x, t) /\
    exists t' l1 l2, RB_REMOVE_found cmp elm t = Ret t' /\ rb_ok cmp ok t' /\ inorder t = l1 ++ x :: l2 /\ inorder t' = l1 ++ l2
  | None =>
    Forall (fun x => cmp elm x <> Eq) (inorder t) /\
    exists t' l1 l2, RB_INSERT cmp elm t = Ret (None, t') /\ rb_ok cmp ok t' /\ inorder t = l1 ++ l2 /\ inorder t' = l1 ++ elm :: l2
  end.
Proof.
  intros Ht He. split; [apply foreach_inorder|]. split.
  { destruct Ht as [[n Hn] _]. pose proof (search_depth cmp elm t []). pose proof (height_log n t Hn). cbn [length] in *. lia. }
  pose proof (find_spec cmp ok elm t He Ht) as Hf. pose proof (insert_spec cmp ok elm t He Ht) as Hi.
  pose proof (fun x => remove_spec cmp ok elm x t He Ht) as Hr. destruct (RB_FIND cmp elm t) as [x|]; [|done].
  destruct Hf as [H1 H2]. split; [done|]. split; [done|]. split; [done|]. by apply Hr.
Qed.

(** *** Numbers in a tree *)

#[export] Instance Z_cmp : CmpLaws Z.compare (fun _ => True).
Proof. split; [intros x y _ _; apply Z.compare_antisym|]. intros x y z _ _ _. rewrite !Z.compare_lt_iff. lia. Qed.

Definition insert_all (l : list Z) : outcome (tree Z) :=
  fold_left (fun t x => t ← t; '(_, t) ← RB_INSERT Z.compare x t; Ret t) l (Ret Leaf).
Definition ten : tree Z := match insert_all [5; 2; 8; 1; 9; 3; 7; 4; 6; 10] with Ret t => t | Stop _ => Leaf end.

Example ten_inorder : RB_FOREACH ten = [1; 2; 3; 4; 5; 6; 7; 8; 9; 10].
Proof. reflexivity. Qed.

Lemma rb_refines_list_witness : rb_ok Z.compare (fun _ => True) ten /\
  exists t', RB_REMOVE_found Z.compare 8 ten = Ret t' /\ inorder t' = [1; 2; 3; 4; 5; 6; 7; 9; 10].
Proof.
  assert (H : rb_ok Z.compare (fun _ => True) ten).
  { split; [|split; [repeat constructor|by repeat constructor]]. eexists. vm_compute. repeat econstructor. }
  split; [exact H|]. destruct (rb_refines_list Z.compare (fun _ => True) 8 ten H I) as (_ & _ & Hf).
  change (RB_FIND Z.compare 8 ten) with (Some 8) in Hf. destruct Hf as (_ & _ & _ & t' & l1 & l2 & E & _ & _ & _).
  exists t'. split; [exact E|]. vm_compute in E. injection E as <-. reflexivity.
Defined.
