(* ===== verification/Mmio.v ===== *)
(** * Emulated memory

    [src/devicemodel/core/mem.c]: the two red-black trees of address ranges, the entry of the last
    access, registration, and the dispatch of an access to the handler of its range.  A
    handler is a number and what handlers do is the function [call] on their state; entries have
    an identity, and those that are allocated are kept, so that following [mmio_hint]
    after a [free] would be seen.  The lock is not modelled: an operation is a step. *)
From stdpp Require Import sorting.
From S2P Require Import Prelude RbTree RbTreeSpec.

Definition MEMNAMESZ := 80%nat.
Definition MEM_F_READ := 1.
Definition MEM_F_WRITE := 2.
Definition MEM_F_IMMUTABLE := 4.
Definition ESRCH := 3.

(** [struct mem_range]. *)
Record mem_range := mkRange { r_name : string; r_flags : Z; r_handler : nat; r_arg1 : Z; r_arg2 : Z; r_base : Z; r_size : Z }.
#[export] Instance mem_range_eq_dec : EqDecision mem_range.
Proof. solve_decision. Defined.
Definition blank_range : mem_range := mkRange EmptyString 0 0 0 0 0 0.

(** [struct mmio_rb_range] and its address in memory. *)
Record mmio_rb_range := mkEntry { e_id : nat; mr_param : mem_range; mr_base : Z; mr_end : Z }.
#[export] Instance mmio_rb_range_eq_dec : EqDecision mmio_rb_range.
Proof. solve_decision. Defined.

Definition mmio_rb_range_compare (a b : mmio_rb_range) : comparison :=
  if mr_end a <? mr_base b then Lt else if mr_end b <? mr_base a then Gt else Eq.

Notation mmio_rb_tree := (tree mmio_rb_range).

Definition mmio_rb_lookup (rbt : mmio_rb_tree) (addr : Z) : option mmio_rb_range :=
  RB_FIND mmio_rb_range_compare (mkEntry 0 blank_range addr addr) rbt.

(** The tree, and whether the entry went in. *)
Definition mmio_rb_add (rbt : mmio_rb_tree) (new : mmio_rb_range) : outcome (bool * mmio_rb_tree) :=
  '(overlap, rbt) ← RB_INSERT mmio_rb_range_compare new rbt;
  Ret (match overlap with None => true | Some _ => false end, rbt).

(** An access that the hypervisor passes on: reading or writing. *)
Record mmio_request := mkReq { q_read : bool; q_address : Z; q_size : Z; q_value : Z }.

(** Which of the two trees. *)
Inductive which := Root | Fallback.

Section Mmio.
Context {C : Type} (call : nat -> Z -> Z -> Z -> Z -> Z -> Z -> C -> Z * Z * C).

Record mmio := mkMmio {
  mmio_rb_root : mmio_rb_tree; mmio_rb_fallback : mmio_rb_tree; mmio_hint : option mmio_rb_range;
  allocated : gset nat; next_id : nat; clients : C
}.
#[export] Instance mmio_eta : Settable mmio := fun s =>
  mkMmio (mmio_rb_root s) (mmio_rb_fallback s) (mmio_hint s) (allocated s) (next_id s) (clients s).

Definition rbt_of (w : which) (s : mmio) : mmio_rb_tree := match w with Root => mmio_rb_root s | Fallback => mmio_rb_fallback s end.
Definition set_rbt (w : which) (t : mmio_rb_tree) (s : mmio) : mmio :=
  match w with Root => s <| mmio_rb_root := t |> | Fallback => s <| mmio_rb_fallback := t |> end.

(** ** Dispatch *)

(** The call through [mr->handler]: the result and what it leaves in the value. *)
Definition run_handler (mr : mem_range) (dir gpa size val : Z) : M mmio (Z * Z) := fun s =>
  let '(err, val, c) := call (r_handler mr) dir gpa size val (r_arg1 mr) (r_arg2 mr) (clients s) in
  Ret ((err, val), s <| clients := c |>).

(** Reading answers through the value; writing passes a copy. *)
Definition mem_read (gpa size rval : Z) (mr : mem_range) : M mmio (Z * Z) := run_handler mr MEM_F_READ gpa size rval.
Definition mem_write (gpa size wval : Z) (mr : mem_range) : M mmio (Z * Z) :=
  '(error, _) ← run_handler mr MEM_F_WRITE gpa size wval; mret (error, wval).

Definition deref_entry (e : mmio_rb_range) : M mmio unit := fun s =>
  if bool_decide (e_id e ∈ allocated s) then Ret (tt, s) else Stop UseAfterFree.

Definition in_hint (paddr : Z) (hint : option mmio_rb_range) : M mmio bool :=
  match hint with
  | None => mret false
  | Some h => _ ← deref_entry h; mret ((mr_base h <=? paddr) && (paddr <=? mr_end h))
  end.

Definition find_entry (paddr : Z) : M mmio (option mmio_rb_range) :=
  s ← get;
  hit ← in_hint paddr (mmio_hint s);
  if hit : bool then mret (mmio_hint s)
  else
    match mmio_rb_lookup (mmio_rb_root s) paddr with
    | Some entry => _ ← modify (fun s => s <| mmio_hint := Some entry |>); mret (Some entry)
    | None => mret (mmio_rb_lookup (mmio_rb_fallback s) paddr)
    end.

(** The result and the value of the request. *)
Definition emulate_mem (q : mmio_request) : M mmio (Z * Z) :=
  entry ← find_entry (q_address q);
  match entry with
  | None => mret (- ESRCH, q_value q)
  | Some entry =>
    _ ← deref_entry entry;
    let size := s32 (q_size q) in
    if q_read q then mem_read (q_address q) size (q_value q) (mr_param entry)
    else mem_write (q_address q) size (q_value q) (mr_param entry)
  end.

(** ** Registration *)

(** [malloc]: whether there is memory is the argument of the caller. *)
Definition register_mem_int (w : which) (memory : bool) (memp : mem_range) : M mmio Z :=
  if negb memory then mret (-1)
  else
    s ← get;
    let mrp := mkEntry (next_id s) memp (r_base memp) (u64 (r_base memp + r_size memp - 1)) in
    _ ← modify (fun s => s <| next_id ::= S |> <| allocated ::= fun a => {[e_id mrp]} ∪ a |>);
    err ← (match mmio_rb_lookup (rbt_of w s) (r_base memp) with
           | Some _ => mret (-1)
           | None =>
             '(added, t) ← lift (mmio_rb_add (rbt_of w s) mrp);
             _ ← modify (set_rbt w t);
             mret (if added : bool then 0 else -1)
           end);
    _ ← when (negb (err =? 0)) (modify (fun s => s <| allocated ::= fun a => a ∖ {[e_id mrp]} |>));
    mret err.
Definition register_mem : bool -> mem_range -> M mmio Z := register_mem_int Root.
Definition register_mem_fallback : bool -> mem_range -> M mmio Z := register_mem_int Fallback.

(** [strncmp] on the first [MEMNAMESZ] characters. *)
Definition same_name (a b : string) : bool := String.eqb (String.substring 0 MEMNAMESZ a) (String.substring 0 MEMNAMESZ b).

Definition unregister_mem_int (w : which) (memp : mem_range) : M mmio Z :=
  s ← get;
  match mmio_rb_lookup (rbt_of w s) (r_base memp) with
  | None => mret (-1)
  | Some entry =>
    let mr := mr_param entry in
    if negb (same_name (r_name mr) (r_name memp)) || negb (r_base mr =? r_base memp) || negb (r_size mr =? r_size memp) ||
       has (r_flags mr) MEM_F_IMMUTABLE
    then mret (-1)
    else
      (* [entry] is the node the search has found *)
      t ← lift (let '(e, p) := search mmio_rb_range_compare (mkEntry 0 blank_range (r_base memp) (r_base memp)) (rbt_of w s) [] in
                RB_REMOVE e p);
      _ ← modify (set_rbt w t);
      _ ← when (bool_decide (e_id <$> mmio_hint s = Some (e_id entry))) (modify (fun s => s <| mmio_hint := None |>));
      _ ← modify (fun s => s <| allocated ::= fun a => a ∖ {[e_id entry]} |>);
      mret 0
  end.
Definition unregister_mem : mem_range -> M mmio Z := unregister_mem_int Root.
Definition unregister_mem_fallback : mem_range -> M mmio Z := unregister_mem_int Fallback.

Definition init_mem (c : C) : mmio := mkMmio Leaf Leaf None ∅ 0 c.
End Mmio.
Arguments mmio : clear implicits.
