(* ===== verification/MmioSpec.v ===== *)
(** * What emulated memory promises

    The trees of Mmio.v as lists of ranges: an access goes to the range that contains it, whatever
    [mmio_hint] says; ranges of a tree do not overlap; nothing freed is followed. *)
From stdpp Require Import sorting.
From S2P Require Import Prelude RbTree RbTreeSpec Mmio.

(** ** Ranges *)

Definition range_ok (mr : mem_range) : Prop := 0 <= r_base mr /\ 0 < r_size mr /\ r_base mr + r_size mr <= 2 ^ 64.
Definition contains (addr : Z) (mr : mem_range) : bool := (r_base mr <=? addr) && (addr <? r_base mr + r_size mr).
Definition apart (a b : mem_range) : bool := (r_base a + r_size a <=? r_base b) || (r_base b + r_size b <=? r_base a).

(** An entry as registration makes it. *)
Definition entry_ok (e : mmio_rb_range) : Prop :=
  range_ok (mr_param e) /\ mr_base e = r_base (mr_param e) /\ mr_end e = r_base (mr_param e) + r_size (mr_param e) - 1.
Definition valid (e : mmio_rb_range) : Prop := mr_base e <= mr_end e.

#[export] Instance range_laws : CmpLaws mmio_rb_range_compare valid.
Proof.
  unfold mmio_rb_range_compare, valid. split.
  - intros x y Hx Hy. destruct (Z.ltb_spec (mr_end y) (mr_base x)), (Z.ltb_spec (mr_end x) (mr_base y)); cbn; [lia|done..].
  - intros x y z Hx Hy Hz. destruct (Z.ltb_spec (mr_end x) (mr_base y)); [|by destruct (_ <? _)].
    destruct (Z.ltb_spec (mr_end y) (mr_base z)); [|by destruct (_ <? _)]. intros _ _. by rewrite (proj2 (Z.ltb_lt _ _)) by lia.
Qed.

Lemma entry_valid e : entry_ok e -> valid e.
Proof. unfold entry_ok, range_ok, valid. lia. Qed.

Lemma compare_eq a b : mmio_rb_range_compare a b = Eq <-> mr_base b <= mr_end a /\ mr_base a <= mr_end b.
Proof.
  unfold mmio_rb_range_compare. destruct (Z.ltb_spec (mr_end a) (mr_base b)); [split; [done|lia]|].
  destruct (Z.ltb_spec (mr_end b) (mr_base a)); split; (done || lia).
Qed.

Lemma compare_apart a b : entry_ok a -> entry_ok b -> mmio_rb_range_compare a b <> Eq <-> apart (mr_param a) (mr_param b) = true.
Proof.
  intros (_ & B1 & E1) (_ & B2 & E2). rewrite compare_eq. unfold apart. rewrite orb_true_iff, !Z.leb_le. rewrite B1, E1, B2, E2. lia.
Qed.

(** ** Trees as lists *)

Notation ok_tree := (rb_ok mmio_rb_range_compare valid).
Definition ranges_of (t : mmio_rb_tree) : list mem_range := map mr_param (inorder t).
Definition good_tree (t : mmio_rb_tree) : Prop := ok_tree t /\ Forall entry_ok (inorder t).

Definition point (addr : Z) : mmio_rb_range := mkEntry 0 blank_range addr addr.
Lemma point_valid addr : valid (point addr).
Proof. unfold valid. cbn. lia. Qed.
Lemma point_contains addr e : entry_ok e -> mmio_rb_range_compare (point addr) e = Eq <-> contains addr (mr_param e) = true.
Proof.
  intros (_ & Hb & He). rewrite compare_eq. unfold contains. rewrite andb_true_iff, Z.leb_le, Z.ltb_lt. rewrite Hb, He. cbn. lia.
Qed.

Lemma sorted_cases {A} (R : A -> A -> Prop) l x y : StronglySorted R l -> x ∈ l -> y ∈ l -> x = y \/ R x y \/ R y x.
Proof.
  induction 1 as [|a l _ IH Ha]; [by intros Hx%not_elem_of_nil|]. rewrite Forall_forall in Ha.
  intros [-> |Hx]%elem_of_cons [-> |Hy]%elem_of_cons; [by left|right; left; by apply Ha|right; right; by apply Ha|by apply IH].
Qed.

(** At most one entry has an address. *)
Lemma entry_unique t addr x y : good_tree t -> x ∈ inorder t -> y ∈ inorder t ->
  contains addr (mr_param x) = true -> contains addr (mr_param y) = true -> x = y.
Proof.
  intros [[_ [Hs _]] Hf] Hx Hy Cx Cy. rewrite Forall_forall in Hf. pose proof (Hf x Hx) as (_ & Bx & Ex). pose proof (Hf y Hy) as (_ & By & Ey).
  unfold contains in *. rewrite andb_true_iff, Z.leb_le, Z.ltb_lt in *.
  assert (Hc : mmio_rb_range_compare x y = Eq) by (apply compare_eq; lia).
  assert (Hc' : mmio_rb_range_compare y x = Eq) by (apply compare_eq; lia).
  destruct (sorted_cases _ _ x y Hs Hx Hy) as [|[H|H]]; [done|unfold lt in H; congruence..].
Qed.

Lemma find_unique {A B} (f : A -> B) (P : B -> bool) l x : x ∈ l -> P (f x) = true ->
  (forall y, y ∈ l -> P (f y) = true -> y = x) -> List.find P (map f l) = Some (f x).
Proof.
  induction l as [|a l IH]; [by intros H%not_elem_of_nil|]. intros Hx Px Hu. cbn [map List.find]. destruct (P (f a)) eqn:E.
  - f_equal. f_equal. apply Hu; [left|done].
  - apply elem_of_cons in Hx as [-> |Hx]; [congruence|]. apply IH; [done|done|]. intros y Hy. apply Hu. by right.
Qed.
Lemma lookup_none {A B} (f : A -> B) (P : B -> bool) l : (forall x, x ∈ l -> P (f x) = false) -> List.find P (map f l) = None.
Proof. intros H. induction l as [|a l IH]; [done|]. cbn. rewrite (H a) by left. apply IH. intros x Hx. apply H. by right. Qed.

(** A search of the tree is a search of the list. *)
Lemma lookup_spec t addr : good_tree t ->
  mr_param <$> mmio_rb_lookup t addr = List.find (contains addr) (ranges_of t) /\
  (forall e, mmio_rb_lookup t addr = Some e -> e ∈ inorder t /\ contains addr (mr_param e) = true).
Proof.
  intros Ht. pose proof Ht as [Hok Hf]. rewrite Forall_forall in Hf.
  pose proof (find_spec _ _ (point addr) t (point_valid addr) Hok) as H. change (RB_FIND mmio_rb_range_compare (point addr) t) with (mmio_rb_lookup t addr) in H.
  destruct (mmio_rb_lookup t addr) as [e|].
  - destruct H as [Hin Hc]. assert (Ce : contains addr (mr_param e) = true) by (apply point_contains; [by apply Hf|done]).
    split; [|by intros e' [= <-]]. symmetry. apply find_unique; [done|done|]. intros y Hy Cy. by apply (entry_unique t addr).
  - split; [|done]. symmetry. apply lookup_none. intros x Hx. rewrite Forall_forall in H. specialize (H x Hx).
    destruct (contains addr (mr_param x)) eqn:E; [|done]. exfalso. apply H. by apply point_contains; [apply Hf|].
Qed.

(** ** States *)

Section Spec.
Context {C : Type} (call : nat -> Z -> Z -> Z -> Z -> Z -> Z -> C -> Z * Z * C).
Notation state := (mmio C).
Implicit Types (s : state) (w : which).

Definition ranges w s : list mem_range := ranges_of (rbt_of w s).
Definition entries s : list mmio_rb_range := inorder (rbt_of Root s) ++ inorder (rbt_of Fallback s).

(** Both trees are in order; the entries are exactly what is allocated; the hint is one of the first tree. *)
Record mmio_ok s : Prop := {
  mo_tree w : good_tree (rbt_of w s);
  mo_nodup : NoDup (e_id <$> entries s);
  mo_alloc i : i ∈ allocated s <-> i ∈ e_id <$> entries s;
  mo_next i : i ∈ allocated s -> (i < next_id s)%nat;
  mo_hint h : mmio_hint s = Some h -> h ∈ inorder (mmio_rb_root s)
}.

Lemma in_entries w s e : e ∈ inorder (rbt_of w s) -> e ∈ entries s.
Proof. unfold entries. rewrite elem_of_app. destruct w; auto. Qed.
Lemma entry_live w s e : mmio_ok s -> e ∈ inorder (rbt_of w s) -> e_id e ∈ allocated s.
Proof. intros H He. apply (mo_alloc _ H), list_elem_of_fmap. exists e. split; [done|]. by apply (in_entries w). Qed.

(** ** Dispatch *)

(** The range that an address belongs to. *)
Definition owner s (addr : Z) : option mem_range :=
  match List.find (contains addr) (ranges Root s) with
  | Some mr => Some mr
  | None => List.find (contains addr) (ranges Fallback s)
  end.

(** Everything but the hint and what handlers keep. *)
Definition same_trees s s' : Prop := mmio_rb_root s' = mmio_rb_root s /\ mmio_rb_fallback s' = mmio_rb_fallback s.

Lemma runs_deref e s Q : e_id e ∈ allocated s -> Q tt s -> runs (deref_entry e) s Q.
Proof. intros He HQ. unfold runs, deref_entry. by rewrite bool_decide_eq_true_2. Qed.

Lemma in_range_contains e addr : entry_ok e -> (mr_base e <=? addr) && (addr <=? mr_end e) = contains addr (mr_param e).
Proof.
  intros (_ & -> & ->). unfold contains. f_equal. destruct (Z.leb_spec addr (r_base (mr_param e) + r_size (mr_param e) - 1));
    symmetry; [apply Z.ltb_lt|apply Z.ltb_ge]; lia.
Qed.

Lemma find_entry_run addr s : mmio_ok s -> runs (find_entry addr) s (fun eo s' =>
  mmio_ok s' /\ same_trees s s' /\ clients s' = clients s /\ allocated s' = allocated s /\
  mr_param <$> eo = owner s addr /\ forall e, eo = Some e -> e_id e ∈ allocated s).
Proof.
  intros H. pose proof (mo_tree _ H Root) as Hr. pose proof (mo_tree _ H Fallback) as Hf. cbn [rbt_of] in *.
  destruct (lookup_spec _ addr Hr) as [Lr Mr]. destruct (lookup_spec _ addr Hf) as [Lf Mf].
  unfold find_entry. apply runs_bind, runs_get. apply runs_bind.
  assert (Hm : forall s', s' = s -> runs (match mmio_rb_lookup (mmio_rb_root s) addr with
      | Some entry => _ ← modify (fun s => s <| mmio_hint := Some entry |>); mret (Some entry)
      | None => mret (mmio_rb_lookup (mmio_rb_fallback s) addr)
      end) s' (fun eo s' => mmio_ok s' /\ same_trees s s' /\ clients s' = clients s /\ allocated s' = allocated s /\
        mr_param <$> eo = owner s addr /\ forall e, eo = Some e -> e_id e ∈ allocated s)).
  { intros s' ->. unfold owner, ranges. cbn [rbt_of]. rewrite <- Lr, <- Lf. destruct (mmio_rb_lookup (mmio_rb_root s) addr) as [e|].
    - destruct (Mr e eq_refl) as [He _]. apply runs_bind, runs_modify, runs_ret. split_and!; try done.
      + destruct H as [H1 H2 H3 H4 H5]. split; [exact H1|exact H2|exact H3|exact H4|]. by intros h [= <-].
      + intros e' [= <-]. by apply (entry_live Root).
    - apply runs_ret. split_and!; try done. intros e He. destruct (Mf e He) as [Hin _]. by apply (entry_live Fallback). }
  destruct (mmio_hint s) as [h|] eqn:Eh; cbn [in_hint]; [|apply runs_ret; by apply Hm].
  pose proof (mo_hint _ H h Eh) as Hh. assert (Hl : e_id h ∈ allocated s) by (by apply (entry_live Root)).
  apply runs_bind, runs_deref; [done|]. apply runs_ret.
  assert (Hk : entry_ok h) by (destruct Hr as [_ F]; rewrite Forall_forall in F; by apply F).
  rewrite in_range_contains by done. destruct (contains addr (mr_param h)) eqn:Ec; [|by apply Hm].
  apply runs_ret. split_and!; try done; [|by intros e [= <-]].
  unfold owner, ranges, ranges_of. cbn [rbt_of]. rewrite (find_unique mr_param _ _ h Hh Ec); [done|].
  intros y Hy Cy. by apply (entry_unique (mmio_rb_root s) addr).
Qed.

(** What the handler of a range answers. *)
Definition answer (q : mmio_request) (mr : mem_range) (c : C) : Z * Z * C :=
  let '(err, val, c') := call (r_handler mr) (if q_read q then MEM_F_READ else MEM_F_WRITE) (q_address q) (s32 (q_size q)) (q_value q)
      (r_arg1 mr) (r_arg2 mr) c in
  (err, if q_read q then val else q_value q, c').

Lemma mmio_ok_clients s c : mmio_ok s -> mmio_ok (s <| clients := c |>).
Proof. intros [H1 H2 H3 H4 H5]. split; [exact H1|exact H2|exact H3|exact H4|exact H5]. Qed.

Lemma emulate_mem_run q s : mmio_ok s -> runs (emulate_mem call q) s (fun r s' =>
  mmio_ok s' /\ same_trees s s' /\
  match owner s (q_address q) with
  | None => r = (- ESRCH, q_value q) /\ clients s' = clients s
  | Some mr => (r, clients s') = answer q mr (clients s)
  end).
Proof.
  intros H. unfold emulate_mem. apply runs_bind. eapply runs_weaken; [apply find_entry_run, H|]. cbv beta.
  intros eo s1 (H1 & Hs & Hc & Ha & Eo & Hl). destruct eo as [e|]; cbn in Eo; rewrite <- Eo; [|by apply runs_ret].
  apply runs_bind, runs_deref; [rewrite Ha; by apply Hl|]. unfold mem_read, mem_write, answer. rewrite <- Hc.
  destruct (q_read q).
  - unfold runs, run_handler. destruct (call _ _ _ _ _ _ _ _) as [[err val] c]. split; [by apply mmio_ok_clients|]. by split.
  - apply runs_bind. unfold runs at 1, run_handler. destruct (call _ _ _ _ _ _ _ _) as [[err val] c]. apply runs_ret.
    split; [by apply mmio_ok_clients|]. by split.
Qed.

(** ** Registration *)

Definition other w : which := match w with Root => Fallback | Fallback => Root end.
Lemma entries_perm w s : entries s ≡ₚ inorder (rbt_of w s) ++ inorder (rbt_of (other w) s).
Proof. unfold entries. destruct w; cbn; [done|]. apply Permutation_app_comm. Qed.
Lemma rbt_set w t s : rbt_of w (set_rbt w t s) = t /\ rbt_of (other w) (set_rbt w t s) = rbt_of (other w) s.
Proof. by destruct w. Qed.
Lemma set_rbt_fields w t s : mmio_hint (set_rbt w t s) = mmio_hint s /\ allocated (set_rbt w t s) = allocated s /\
  next_id (set_rbt w t s) = next_id s /\ clients (set_rbt w t s) = clients s.
Proof. by destruct w. Qed.
Lemma which_cases w w' : w' = w \/ w' = other w.
Proof. destruct w, w'; auto. Qed.

(** A state with another tree, and the identities of its entries. *)
Lemma mmio_ok_set w s s' : mmio_ok s -> good_tree (rbt_of w s') -> rbt_of (other w) s' = rbt_of (other w) s ->
  NoDup (e_id <$> inorder (rbt_of w s') ++ inorder (rbt_of (other w) s)) ->
  (forall i, i ∈ allocated s' <-> i ∈ e_id <$> inorder (rbt_of w s') ++ inorder (rbt_of (other w) s)) ->
  (forall i, i ∈ allocated s' -> (i < next_id s')%nat) ->
  (forall e, mmio_hint s' = Some e -> e ∈ inorder (mmio_rb_root s')) -> mmio_ok s'.
Proof.
  intros H Ht Eo Hn Ha Hx Hh. assert (Ep : entries s' ≡ₚ inorder (rbt_of w s') ++ inorder (rbt_of (other w) s)).
  { by rewrite (entries_perm w), Eo. }
  split; [|by rewrite Ep|by intros i; rewrite Ep|exact Hx|exact Hh].
  intros w'. destruct (which_cases w w') as [-> | ->]; [done|]. rewrite Eo. apply (mo_tree _ H).
Qed.

(** Nothing but the counter of identities has moved. *)
Lemma mmio_ok_same s s' : mmio_ok s -> (forall w, rbt_of w s' = rbt_of w s) -> mmio_hint s' = mmio_hint s ->
  (forall i, i ∈ allocated s' <-> i ∈ allocated s) -> (next_id s <= next_id s')%nat -> mmio_ok s'.
Proof.
  intros H Et Eh Ea Hn. assert (Ee : entries s' = entries s) by (unfold entries; by rewrite !Et).
  split.
  - intros w. rewrite Et. apply (mo_tree _ H).
  - rewrite Ee. apply (mo_nodup _ H).
  - intros i. rewrite Ee, Ea. apply (mo_alloc _ H).
  - intros i Hi%Ea. pose proof (mo_next _ H i Hi). lia.
  - intros h Hh. rewrite Eh in Hh. change (h ∈ inorder (rbt_of Root s')). rewrite Et. by apply (mo_hint _ H).
Qed.

Lemma new_entry_ok i mr : range_ok mr -> entry_ok (mkEntry i mr (r_base mr) (u64 (r_base mr + r_size mr - 1))).
Proof. intros H. split; [done|]. split; [done|]. cbn. apply wrap_small. unfold fits, range_ok in *. lia. Qed.

(** No range of the tree overlaps. *)
Definition free_for w s (mr : mem_range) : bool := forallb (apart mr) (ranges w s).

Lemma free_for_spec w s e : mmio_ok s -> entry_ok e ->
  free_for w s (mr_param e) = true <-> Forall (fun x => mmio_rb_range_compare e x <> Eq) (inorder (rbt_of w s)).
Proof.
  intros H He. destruct (mo_tree _ H w) as [_ Hf]. unfold free_for, ranges, ranges_of. rewrite forallb_forall, Forall_forall.
  rewrite Forall_forall in Hf. split.
  - intros Ha x Hx. apply compare_apart; [done|by apply Hf|]. apply Ha, list_elem_of_In, list_elem_of_fmap. by exists x.
  - intros Ha x Hx. apply list_elem_of_In, list_elem_of_fmap in Hx as (y & -> & Hy). apply compare_apart; [done|by apply Hf|]. by apply Ha.
Qed.

(** What registration does to the ranges. *)
Definition registered w (mr : mem_range) (memory : bool) s (r : Z) s' : Prop :=
  clients s' = clients s /\ ranges (other w) s' = ranges (other w) s /\
  if memory && free_for w s mr then r = 0 /\ ranges w s' ≡ₚ mr :: ranges w s else r = -1 /\ ranges w s' = ranges w s.

Lemma not_new s : mmio_ok s -> next_id s ∉ allocated s.
Proof. intros H Hi. pose proof (mo_next _ H _ Hi). lia. Qed.

Lemma mem_register_run w memory mr s : mmio_ok s -> range_ok mr ->
  runs (register_mem_int w memory mr) s (fun r s' => mmio_ok s' /\ registered w mr memory s r s').
Proof.
  intros H Hmr. unfold register_mem_int, registered. destruct memory; cbn [negb andb]; [|by apply runs_ret].
  apply runs_bind, runs_get. set (e := mkEntry _ _ _ _). assert (He : entry_ok e) by (by apply new_entry_ok).
  apply runs_bind, runs_modify. change (fun s : state => s <| next_id ::= S |> <| allocated ::= fun a => {[e_id e]} ∪ a |>) with
    (fun s : state => s <| next_id ::= S |> <| allocated ::= fun a => {[next_id s]} ∪ a |>) || idtac.
  pose proof (mo_tree _ H w) as [Hok Hf]. pose proof (not_new s H) as Hnew.
  pose proof (insert_spec _ _ e (rbt_of w s) (entry_valid e He) Hok) as Hins.
  pose proof (find_spec _ _ e (rbt_of w s) (entry_valid e He) Hok) as Hfind.
  destruct (lookup_spec _ (r_base mr) (mo_tree _ H w)) as [_ Hlook].
  pose proof (free_for_spec w s e H He) as Hfree. change (mr_param e) with mr in Hfree.
  set (s1 := s <| next_id ::= S |> <| allocated ::= fun a => {[e_id e]} ∪ a |>).
  (* nothing was added: the entry is given back *)
  assert (Hfail : forall s2, (forall w, rbt_of w s2 = rbt_of w s) -> mmio_hint s2 = mmio_hint s -> allocated s2 = allocated s1 ->
    next_id s2 = next_id s1 -> clients s2 = clients s -> free_for w s mr = false ->
    runs (_ ← when (negb (-1 =? 0)) (modify (fun s => s <| allocated ::= fun a => a ∖ {[e_id e]} |>)); mret (-1)) s2
      (fun r s' => mmio_ok s' /\ clients s' = clients s /\ ranges (other w) s' = ranges (other w) s /\
        (if free_for w s mr then r = 0 /\ ranges w s' ≡ₚ mr :: ranges w s else r = -1 /\ ranges w s' = ranges w s))).
  { intros s2 Et Eh Ea En Ec Ef. apply runs_bind. cbn [when negb]. apply runs_modify, runs_ret. rewrite Ef.
    set (s3 := s2 <| allocated ::= _ |>). assert (Et3 : forall w, rbt_of w s3 = rbt_of w s) by (intros w'; rewrite <- Et; by destruct w').
    unfold ranges. rewrite !Et3. split; [|done]. apply (mmio_ok_same s); [done|done|exact Eh| |].
    - intros i. change (i ∈ allocated s2 ∖ {[e_id e]} <-> i ∈ allocated s). rewrite Ea. change (allocated s1) with ({[next_id s]} ∪ allocated s).
      change (e_id e) with (next_id s). clear -Hnew. set_solver.
    - change (next_id s <= next_id s2)%nat. rewrite En. change (next_id s1) with (S (next_id s)). lia. }
  assert (E1 : forall w, rbt_of w s1 = rbt_of w s) by (by intros []).
  destruct (mmio_rb_lookup (rbt_of w s) (r_base mr)) as [x|] eqn:El.
  - apply runs_bind, runs_ret. apply Hfail; try done. apply not_true_iff_false. intros Hfr%Hfree.
    destruct (Hlook x eq_refl) as [Hx Hc]. rewrite Forall_forall in Hfr, Hf. apply (Hfr x Hx).
    pose proof (Hf x Hx) as (_ & Bx & Ex). apply compare_eq. unfold contains in Hc. rewrite andb_true_iff, Z.leb_le, Z.ltb_lt in Hc.
    destruct He as (Hr & Be & Ee). rewrite Be, Ee, Bx, Ex. unfold range_ok in Hr. change (mr_param e) with mr in *. lia.
  - unfold mmio_rb_add. destruct (RB_FIND mmio_rb_range_compare e (rbt_of w s)) as [x|].
    + rewrite Hins. apply runs_bind, runs_bind. eapply runs_lift; [reflexivity|]. cbv beta iota. apply runs_bind, runs_modify, runs_ret.
      destruct (rbt_set w (rbt_of w s) s1) as [R1 R2]. destruct (set_rbt_fields w (rbt_of w s) s1) as (F1 & F2 & F3 & F4).
      apply Hfail; try done; [|].
      * intros w'. destruct (which_cases w w') as [-> | ->]; [done|]. by rewrite R2.
      * apply not_true_iff_false. intros Hfr%Hfree. destruct Hfind as [Hx Hc]. rewrite Forall_forall in Hfr. by apply (Hfr x Hx).
    + destruct Hins as (t & l1 & l2 & Et & Hokt & Eo & Eot). rewrite Et. apply runs_bind, runs_bind. eapply runs_lift; [reflexivity|].
      cbv beta iota. apply runs_bind, runs_modify, runs_ret. apply runs_bind. cbn [when negb Z.eqb]. apply runs_ret, runs_ret.
      destruct (rbt_set w t s1) as [R1 R2]. destruct (set_rbt_fields w t s1) as (F1 & F2 & F3 & F4).
      rewrite (proj2 Hfree Hfind). unfold ranges. rewrite R1, R2, E1.
      assert (Hp : inorder t ≡ₚ e :: inorder (rbt_of w s)) by (rewrite Eo, Eot; symmetry; apply Permutation_middle).
      assert (Hpi : e_id <$> inorder t ++ inorder (rbt_of (other w) s) ≡ₚ next_id s :: (e_id <$> entries s)).
      { rewrite Hp, (entries_perm w). reflexivity. }
      split; [|split; [done|split; [done|split; [done|]]]].
      2: { unfold ranges_of. rewrite Hp. reflexivity. }
      apply (mmio_ok_set w s); [done| |by rewrite R2, E1| | | |]; rewrite ?R1.
      * split; [done|]. rewrite Hp. by constructor.
      * rewrite Hpi. apply NoDup_cons. split; [|apply (mo_nodup _ H)]. by rewrite <- (mo_alloc _ H).
      * intros i. rewrite Hpi, F2, elem_of_cons, <- (mo_alloc _ H). change (allocated s1) with ({[next_id s]} ∪ allocated s). set_solver.
      * intros i. rewrite F2, F3. change (allocated s1) with ({[next_id s]} ∪ allocated s). change (next_id s1) with (S (next_id s)).
        intros [->%elem_of_singleton|Hi]%elem_of_union; [lia|]. pose proof (mo_next _ H i Hi). lia.
      * intros h Hh. rewrite F1 in Hh. pose proof (mo_hint _ H h Hh) as Hin. change (h ∈ inorder (rbt_of Root (set_rbt w t s1))).
        destruct (which_cases w Root) as [Hw | Hw]; [|by rewrite Hw, R2, E1, <- Hw].
        subst w. rewrite R1. rewrite Hp. by right.
Qed.

(** Whether a range that is found is the one meant, and may go. *)
Definition may_go (mr memp : mem_range) : bool :=
  same_name (r_name mr) (r_name memp) && (r_base mr =? r_base memp) && (r_size mr =? r_size memp) && negb (has (r_flags mr) MEM_F_IMMUTABLE).

(** What removal does to the ranges. *)
Definition unregistered w (memp : mem_range) s (r : Z) s' : Prop :=
  clients s' = clients s /\ ranges (other w) s' = ranges (other w) s /\
  match List.find (contains (r_base memp)) (ranges w s) with
  | Some mr => if may_go mr memp then r = 0 /\ ranges w s ≡ₚ mr :: ranges w s' else r = -1 /\ ranges w s' = ranges w s
  | None => r = -1 /\ ranges w s' = ranges w s
  end.

Lemma not_may_go mr memp : negb (same_name (r_name mr) (r_name memp)) || negb (r_base mr =? r_base memp) || negb (r_size mr =? r_size memp) ||
  has (r_flags mr) MEM_F_IMMUTABLE = negb (may_go mr memp).
Proof. unfold may_go. by destruct (same_name _ _), (r_base mr =? r_base memp), (r_size mr =? r_size memp), (has _ _). Qed.

(** An entry is taken out of its tree, forgotten by the hint, and freed. *)
Lemma take_out_ok w s x t s' : mmio_ok s -> ok_tree t -> inorder (rbt_of w s) ≡ₚ x :: inorder t ->
  (forall w', rbt_of w' s' = rbt_of w' (set_rbt w t s)) -> allocated s' = allocated s ∖ {[e_id x]} -> next_id s' = next_id s ->
  (forall h, mmio_hint s' = Some h -> mmio_hint s = Some h /\ e_id h <> e_id x) -> mmio_ok s'.
Proof.
  intros H Ht Hp Et Ea En Eh. destruct (rbt_set w t s) as [R1 R2].
  assert (Hpi : e_id <$> entries s ≡ₚ e_id x :: (e_id <$> inorder t ++ inorder (rbt_of (other w) s))) by (by rewrite (entries_perm w), Hp).
  pose proof (mo_nodup _ H) as Hnd. rewrite Hpi, NoDup_cons in Hnd. destruct Hnd as [Hx Hnd].
  apply (mmio_ok_set w s); [done| |by rewrite Et, R2| | | |]; rewrite ?Et, ?R1; try done.
  - split; [done|]. destruct (mo_tree _ H w) as [_ Hf]. rewrite Hp in Hf. by inversion Hf.
  - intros i. rewrite Ea, elem_of_difference, elem_of_singleton, (mo_alloc _ H), Hpi, elem_of_cons. split; [tauto|].
    intros Hi. split; [by right|]. intros ->. by apply Hx.
  - intros i. rewrite Ea, En, elem_of_difference. intros [Hi _]. by apply (mo_next _ H).
  - intros h Hh. destruct (Eh h Hh) as [Hs Hne]. pose proof (mo_hint _ H h Hs) as Hin. change (h ∈ inorder (rbt_of Root s')). rewrite Et.
    destruct (which_cases w Root) as [Hw|Hw]; [|by rewrite Hw, R2, <- Hw]. subst w. rewrite R1. cbn [rbt_of] in Hp. rewrite Hp in Hin.
    apply elem_of_cons in Hin as [-> |]; [|done]. congruence.
Qed.

Lemma unregister_run w memp s : mmio_ok s ->
  runs (unregister_mem_int w memp) s (fun r s' => mmio_ok s' /\ unregistered w memp s r s').
Proof.
  intros H. unfold unregister_mem_int, unregistered. apply runs_bind, runs_get.
  destruct (lookup_spec _ (r_base memp) (mo_tree _ H w)) as [El Hl]. fold (ranges w s) in El. rewrite <- El.
  destruct (mmio_rb_lookup (rbt_of w s) (r_base memp)) as [x|] eqn:Ex; cbn [fmap option_fmap option_map]; [|by apply runs_ret].
  rewrite not_may_go. destruct (may_go (mr_param x) memp) eqn:Eg; cbn [negb]; [|by apply runs_ret].
  destruct (remove_spec _ _ (point (r_base memp)) x (rbt_of w s) (point_valid _) (proj1 (mo_tree _ H w)) Ex) as (t & l1 & l2 & Er & Hok & Eo & Et).
  assert (Hp : inorder (rbt_of w s) ≡ₚ x :: inorder t) by (rewrite Eo, Et; symmetry; apply Permutation_middle).
  apply runs_bind. eapply runs_lift; [exact Er|]. apply runs_bind, runs_modify. destruct (rbt_set w t s) as [R1 R2].
  destruct (set_rbt_fields w t s) as (F1 & F2 & F3 & F4).
  assert (Hend : forall s1, (forall w', rbt_of w' s1 = rbt_of w' (set_rbt w t s)) -> allocated s1 = allocated s -> next_id s1 = next_id s ->
    clients s1 = clients s -> (forall h, mmio_hint s1 = Some h -> mmio_hint s = Some h /\ e_id h <> e_id x) ->
    runs (_ ← modify (fun s => s <| allocated ::= fun a => a ∖ {[e_id x]} |>); mret 0) s1 (fun r s' => mmio_ok s' /\
      clients s' = clients s /\ ranges (other w) s' = ranges (other w) s /\ r = 0 /\ ranges w s ≡ₚ mr_param x :: ranges w s')).
  { intros s1 E1 E2 E3 E4 E5. apply runs_bind, runs_modify, runs_ret. set (s2 := s1 <| allocated ::= _ |>).
    assert (E1' : forall w', rbt_of w' s2 = rbt_of w' (set_rbt w t s)) by (intros w'; rewrite <- E1; by destruct w').
    unfold ranges. rewrite !E1', R1, R2. split; [|split; [done|split; [done|split; [done|]]]].
    - apply (take_out_ok w s x t); [done|done|done|done| |exact E3|exact E5]. change (allocated s1 ∖ {[e_id x]} = allocated s ∖ {[e_id x]}). by rewrite E2.
    - unfold ranges_of. by rewrite Hp. }
  apply runs_bind. destruct (bool_decide _) eqn:Eb; cbn [when]; [apply runs_modify|apply runs_ret].
  - apply Hend; [|exact F2|exact F3|exact F4|done]. by intros [].
  - apply bool_decide_eq_false in Eb. apply Hend; [done|exact F2|exact F3|exact F4|]. intros h Hh. rewrite F1 in Hh. split; [done|].
    intros E. apply Eb. by rewrite Hh, <- E.
Qed.

(** ** Every history *)

Inductive operation :=
  | Access (q : mmio_request)
  | Register w (memory : bool) (mr : mem_range)
  | Unregister w (memp : mem_range).

Definition perform (o : operation) : M state unit :=
  match o with
  | Access q => _ ← emulate_mem call q; mret tt
  | Register w memory mr => _ ← register_mem_int w memory mr; mret tt
  | Unregister w memp => _ ← unregister_mem_int w memp; mret tt
  end.
Fixpoint perform_all (os : list operation) : M state unit :=
  match os with [] => mret tt | o :: os => _ ← perform o; perform_all os end.

(** What is registered is not empty and ends below 2^64. *)
Definition operation_ok (o : operation) : Prop := match o with Register _ _ mr => range_ok mr | _ => True end.

Lemma init_ok c : mmio_ok (init_mem c).
Proof.
  split; [|apply NoDup_nil_2|intros i; split; [by intros Hi%not_elem_of_empty|by intros Hi%not_elem_of_nil]|intros i Hi; by apply not_elem_of_empty in Hi|done].
  intros w. assert (rbt_of w (init_mem c) = Leaf) as -> by (by destruct w).
  split; [|constructor]. split; [exists 0%nat; constructor|]. split; constructor.
Qed.

Lemma perform_ok o s : mmio_ok s -> operation_ok o -> runs (perform o) s (fun _ s' => mmio_ok s').
Proof.
  intros H Ho. destruct o as [q|w memory mr|w memp]; cbn [perform]; apply runs_bind; (eapply runs_weaken;
    [first [apply emulate_mem_run, H|apply mem_register_run; [exact H|exact Ho]|apply unregister_run, H]|]);
    intros ? ? [Hs _]; by apply runs_ret.
Qed.
Lemma perform_all_ok os : forall s, mmio_ok s -> Forall operation_ok os -> runs (perform_all os) s (fun _ s' => mmio_ok s').
Proof.
  induction os as [|o os IH]; intros s H Hos; cbn [perform_all]; [by apply runs_ret|]. inversion Hos; subst.
  apply runs_bind. eapply runs_weaken; [by apply perform_ok|]. cbv beta; intros _ s' H'. by apply IH.
Qed.

Lemma history_ok c os : Forall operation_ok os -> exists s, perform_all os (init_mem c) = Ret (tt, s) /\ mmio_ok s.
Proof.
  intros Hos. destruct (runs_returns _ _ _ (perform_all_ok os (init_mem c) (init_ok c) Hos)) as ([] & s & E & H). by exists s.
Qed.

Lemma ranges_apart w s i j a b : mmio_ok s -> ranges w s !! i = Some a -> ranges w s !! j = Some b -> i <> j -> apart a b = true.
Proof.
  intros H Ha Hb Hij. destruct (mo_tree _ H w) as [[_ [Hs _]] Hf]. unfold ranges, ranges_of in *.
  apply list_lookup_fmap_Some in Ha as (x & -> & Hx). apply list_lookup_fmap_Some in Hb as (y & -> & Hy).
  rewrite Forall_forall in Hf. pose proof (Hf x (list_elem_of_lookup_2 _ _ _ Hx)) as Kx. pose proof (Hf y (list_elem_of_lookup_2 _ _ _ Hy)) as Ky.
  assert (Hlt : forall i j x y, inorder (rbt_of w s) !! i = Some x -> inorder (rbt_of w s) !! j = Some y -> (i < j)%nat -> lt mmio_rb_range_compare x y).
  { clear -Hs. intros i j x y Hx Hy Hij. rewrite <- (take_drop_middle _ i x Hx) in Hs, Hy. apply StronglySorted_app in Hs as (_ & _ & [Hs _]%StronglySorted_cons).
    rewrite Forall_forall in Hs. apply Hs. rewrite lookup_app_r in Hy by (rewrite length_take; lia).
    rewrite length_take_le in Hy by (apply lookup_lt_Some in Hx; lia). destruct (j - i)%nat as [|k] eqn:Ek; [lia|]. by eapply list_elem_of_lookup_2. }
  apply compare_apart; [done|done|]. destruct (Nat.lt_trichotomy i j) as [Hlt'|[|Hlt']]; [|done|].
  - rewrite (Hlt i j x y) by done. done.
  - intros E. pose proof (Hlt j i y x Hy Hx Hlt') as Hc. unfold lt in Hc.
    rewrite (cmp_flip x y) in Hc by (by apply entry_valid). by rewrite E in Hc.
Qed.

(** C34. Emulated memory: after any registrations, removals and accesses, the ranges of a tree
    do not overlap, and an access is handled by the one range that contains its address, of
    the first tree if there is one, else of the fallback tree, and refused otherwise: the hint
    of the last access makes no difference.  The handler gets the address, the size, the
    value and the two arguments that were registered.  Nothing freed is followed on the
    way. *)
Theorem mmio_dispatch (c : C) (os : list operation) : Forall operation_ok os ->
  exists s, perform_all os (init_mem c) = Ret (tt, s) /\
    (forall w i j a b, ranges w s !! i = Some a -> ranges w s !! j = Some b -> i <> j -> apart a b = true) /\
    forall q, exists r s', emulate_mem call q s = Ret (r, s') /\ same_trees s s' /\
      match owner s (q_address q) with
      | None => r = (- ESRCH, q_value q) /\ clients s' = clients s
      | Some mr => (r, clients s') = answer q mr (clients s)
      end.
Proof.
  intros Hos. destruct (history_ok c os Hos) as (s & E & H). exists s. split; [done|]. split; [by intros w i j a b; apply ranges_apart|].
  intros q. destruct (runs_returns _ _ _ (emulate_mem_run q s H)) as (r & s' & E' & _ & Hs & Ha). by exists r, s'.
Qed.

(** Registration: after any history, a range is accepted exactly when there is memory and no range
    of its tree overlaps, and then it is there and nothing else has changed; a range is removed
    exactly when the one at its base is the same by name, base and size and may be
    removed.  The entries that are allocated are those in the trees: none leaks. *)
Theorem mmio_registration (c : C) (os : list operation) : Forall operation_ok os ->
  exists s, perform_all os (init_mem c) = Ret (tt, s) /\ (forall i, i ∈ allocated s <-> i ∈ e_id <$> entries s) /\
    (forall w memory mr, range_ok mr -> exists r s', register_mem_int w memory mr s = Ret (r, s') /\ registered w mr memory s r s') /\
    (forall w memp, exists r s', unregister_mem_int w memp s = Ret (r, s') /\ unregistered w memp s r s').
Proof.
  intros Hos. destruct (history_ok c os Hos) as (s & E & H). exists s. split; [done|]. split; [apply (mo_alloc _ H)|]. split.
  - intros w memory mr Hmr. destruct (runs_returns _ _ _ (mem_register_run w memory mr s H Hmr)) as (r & s' & E' & _ & Hr). by exists r, s'.
  - intros w memp. destruct (runs_returns _ _ _ (unregister_run w memp s H)) as (r & s' & E' & _ & Hr). by exists r, s'.
Qed.
End Spec.

(** ** An example *)

Module MmioDemo.
(** A handler answers its number and argument, and counts. *)
Definition call (h : nat) (dir gpa size val arg1 arg2 : Z) (n : nat) : Z * Z * nat := (0, 1000 * Z.of_nat h + arg1 + (gpa - arg2), S n).
Definition range (name : string) (h : nat) (base size : Z) : mem_range := mkRange name 3 h 7 base base size.
Definition history : list operation :=
  [Register Root true (range "hpet" 1 0xfed00000 0x400); Register Root true (range "tpm" 2 0xfed40000 0x1000);
   Register Root true (range "over" 3 0xfed40fff 2); Register Fallback true (range "pci" 4 0xc0000000 0x40000000);
   Access (mkReq true 0xfed40004 4 0); Unregister Root (range "tpm" 2 0xfed40000 0x1000)].
Definition final : mmio nat := match perform_all call history (init_mem 0%nat) with Ret (_, s) => s | Stop _ => init_mem 0%nat end.

Lemma history_is_ok : Forall operation_ok history.
Proof. repeat constructor; unfold range_ok; cbn; lia. Qed.

(** The address of a range that is gone is the fallback's. *)
Example access_after : emulate_mem call (mkReq true 0xfed40004 4 0) final = Ret ((0, 4007 + 0x3ed40004), final <| clients := 2%nat |>).
Proof. by vm_compute. Qed.

Lemma mmio_dispatch_witness : exists s, perform_all call history (init_mem 0%nat) = Ret (tt, s) /\
  owner s 0xfed00010 = Some (range "hpet" 1 0xfed00000 0x400) /\
  exists r s', emulate_mem call (mkReq true 0xfed00010 4 0) s = Ret (r, s') /\ r = (0, 1017 + 6).
Proof.
  destruct (mmio_dispatch call 0%nat history history_is_ok) as (s & E & _ & Hq).
  assert (Es : s = final) by (unfold final; by rewrite E).
  exists s. split; [exact E|]. split; [rewrite Es; vm_compute; reflexivity|].
  destruct (Hq (mkReq true 0xfed00010 4 0)) as (r & s' & E' & _ & Ha). exists r, s'. split; [exact E'|].
  rewrite Es in Ha. vm_compute in Ha. by injection Ha.
Defined.

Lemma mmio_registration_witness : exists s, perform_all call history (init_mem 0%nat) = Ret (tt, s) /\
  exists r s', register_mem_int Root true (range "over" 3 0xfed40fff 2) s = Ret (r, s') /\ r = 0.
Proof.
  destruct (mmio_registration call 0%nat history history_is_ok) as (s & E & _ & Hr & _).
  assert (Es : s = final) by (unfold final; by rewrite E).
  exists s. split; [exact E|]. destruct (Hr Root true (range "over" 3 0xfed40fff 2)) as (r & s' & E' & _ & _ & Hc).
  { unfold range_ok. cbn. lia. }
  exists r, s'. split; [exact E'|]. rewrite Es in Hc.
  assert (Hf : true && free_for Root final (range "over" 3 0xfed40fff 2) = true) by (vm_compute; reflexivity).
  rewrite Hf in Hc. exact (proj1 Hc).
Defined.
End MmioDemo.
