(* ===== verification/Inout.v ===== *)
(** * Ports

    [src/devicemodel/core/inout.c]: the table of the 65536 ports, registration, and the dispatch of an
    access; and the clock of Rtc.v behind its two ports, as [vrtc_init] registers them.  What
    stands behind the handlers of a machine is the class [PortDevice]. *)
From S2P Require Import Prelude Rtc.

Definition MAX_IOPORTS := 65536.
Definition IOPORT_F_IN := 1.
Definition IOPORT_F_OUT := 2.
Definition IOPORT_F_INOUT := Z.lor IOPORT_F_IN IOPORT_F_OUT.
Definition IOPORT_F_DEFAULT := 0x80000000.

(** A function pointer: NULL, [default_inout], or one of a device. *)
Inductive inout_func := NullFunc | default_func | Func (n : nat).
#[export] Instance inout_func_eq_dec : EqDecision inout_func.
Proof. solve_decision. Defined.

(** An entry of [inout_handlers]. *)
Record port_slot := mkSlot { s_name : string; s_flags : Z; s_handler : inout_func; s_arg : Z }.
#[export] Instance slot_eq_dec : EqDecision port_slot.
Proof. solve_decision. Defined.
Definition zero_slot : port_slot := mkSlot EmptyString 0 NullFunc 0.

(** [struct inout_port]. *)
Record inout_port := mkPort { p_name : string; p_port : Z; p_size : Z; p_flags : Z; p_handler : inout_func; p_arg : Z }.
Definition slot_of (iop : inout_port) : port_slot := mkSlot (p_name iop) (p_flags iop) (p_handler iop) (p_arg iop).

(** Static storage is zero. *)
Definition table := Z -> port_slot.
Definition empty_table : table := fun _ => zero_slot.

Definition VERIFY_IOPORT (port size : Z) : bool := (0 <=? port) && (0 <? size) && (port + size <=? MAX_IOPORTS).

(** [n] ports from [i] on get the slot; whether one of them is not the default's. *)
Fixpoint fill (n : nat) (i : Z) (s : port_slot) (t : table) : table :=
  match n with O => t | S n => fill n (i + 1) s (fun j => if j =? i then s else t j) end.
Fixpoint taken (n : nat) (i : Z) (t : table) : bool :=
  match n with O => false | S n => negb (has (s_flags (t i)) IOPORT_F_DEFAULT) || taken n (i + 1) t end.

Definition register_inout (iop : inout_port) (t : table) : Z * table :=
  if negb (VERIFY_IOPORT (p_port iop) (p_size iop)) then (-1, t)
  else if negb (has (p_flags iop) IOPORT_F_DEFAULT) && taken (Z.to_nat (p_size iop)) (p_port iop) t then (-1, t)
  else (0, fill (Z.to_nat (p_size iop)) (p_port iop) (slot_of iop) t).

Definition default_port (start size : Z) : inout_port := mkPort "default" start size (Z.lor IOPORT_F_INOUT IOPORT_F_DEFAULT) default_func 0.
Definition register_default_iohandler (start size : Z) (t : table) : table :=
  if negb (VERIFY_IOPORT start size) then t else snd (register_inout (default_port start size) t).

Definition unregister_inout (iop : inout_port) (t : table) : Z * table :=
  if negb (VERIFY_IOPORT (p_port iop) (p_size iop)) then (-1, t)
  else (0, register_default_iohandler (p_port iop) (p_size iop) t).

(** The ports of the linker set: one port each, without a look at what is there, and with no argument. *)
Definition set_port (iop : inout_port) (t : table) : outcome table :=
  if MAX_IOPORTS <=? p_port iop then Ret t
  else if p_port iop <? 0 then Stop OobAccess
  else Ret (fun j => if j =? p_port iop then mkSlot (p_name iop) (p_flags iop) (p_handler iop) 0 else t j).
Fixpoint set_ports (l : list inout_port) (t : table) : outcome table :=
  match l with [] => Ret t | iop :: l => t ← set_port iop t; set_ports l t end.
Definition init_inout (inout_port_set : list inout_port) : outcome table :=
  set_ports inout_port_set (register_default_iohandler 0 MAX_IOPORTS empty_table).

(** The result and [*eax]. *)
Definition default_inout (inp : bool) (bytes eax : Z) : Z * Z :=
  (0, if inp then switch bytes [([4], 0xffffffff); ([2], 0xffff); ([1], 0xff)] eax else eax).

(** ** Access *)

(** What the functions of the devices do: direction, port, size, value and argument. *)
Class PortDevice (D : Type) := port_call : nat -> bool -> Z -> Z -> Z -> Z -> M D (Z * Z).

Record pio_request := mkPio { io_read : bool; io_address : Z; io_size : Z; io_value : Z }.

Section Access.
Context {D : Type} `{!PortDevice D}.

Definition call_handler (h : inout_func) (inp : bool) (port bytes eax arg : Z) : M D (Z * Z) :=
  match h with
  | NullFunc => halt NullDeref
  | default_func => mret (default_inout inp bytes eax)
  | Func n => port_call n inp port bytes eax arg
  end.

(** The result and the value of the request. *)
Definition emulate_inout (t : table) (q : pio_request) : M D (Z * Z) :=
  let bytes := s32 (io_size q) in
  let port := s32 (io_address q) in
  if (MAX_IOPORTS <=? s32 (port + bytes - 1)) || negb ((bytes =? 1) || (bytes =? 2) || (bytes =? 4)) then mret (-1, io_value q)
  else if (port <? 0) || (MAX_IOPORTS <=? port) then halt OobAccess
  else
    let s := t port in
    if negb (has (s_flags s) (if io_read q then IOPORT_F_IN else IOPORT_F_OUT)) then mret (-1, io_value q)
    else call_handler (s_handler s) (io_read q) port bytes (io_value q) (s_arg s).
End Access.

(** ** The ports of the clock *)

Definition IO_RTC := 0x70.
Definition fn_vrtc_addr := 1%nat.
Definition fn_vrtc_data := 2%nat.
Definition rtc_addr_port : inout_port := mkPort "rtc" IO_RTC 1 IOPORT_F_INOUT (Func fn_vrtc_addr) 0.
Definition rtc_data_port : inout_port := mkPort "rtc" (IO_RTC + 1) 1 IOPORT_F_INOUT (Func fn_vrtc_data) 0.

#[export] Instance rtc_device (clock : nat -> Z) : PortDevice vrtc := fun n inp port bytes eax arg =>
  if (n =? fn_vrtc_addr)%nat then vrtc_addr_handler inp bytes eax
  else if (n =? fn_vrtc_data)%nat then vrtc_data_handler clock inp bytes eax
  else halt NullDeref.

(** Registration fails with the first port that is taken. *)
Definition register_rtc (t : table) : bool * table :=
  let '(r, t) := register_inout rtc_addr_port t in
  if negb (r =? 0) then (false, t)
  else let '(r, t) := register_inout rtc_data_port t in (r =? 0, t).
