(* ===== verification/InoutSpec.v ===== *)
(** * What the ports promise

    The table of Inout.v against a map from ports to the registrations that hold them, and
    the memory of the clock seen through its two ports. *)
From S2P Require Import Prelude Rtc RtcSpec Inout.

(** ** Who holds a port *)

Definition covers (iop : inout_port) (p : Z) : bool := (p_port iop <=? p) && (p <? p_port iop + p_size iop).
Definition owners := Z -> option inout_port.

(** The ports from [i] on are free. *)
Definition nobody (o : owners) (iop : inout_port) : Prop := forall p, covers iop p = true -> o p = None.
Fixpoint nobodyb (n : nat) (i : Z) (o : owners) : bool :=
  match n with O => true | S n => match o i with None => nobodyb n (i + 1) o | Some _ => false end end.

(** A registration holds its ports if nobody has them; giving up ports needs no right to them. *)
Definition claim (iop : inout_port) (o : owners) : Z * owners :=
  if VERIFY_IOPORT (p_port iop) (p_size iop) && nobodyb (Z.to_nat (p_size iop)) (p_port iop) o
  then (0, fun p => if covers iop p then Some iop else o p) else (-1, o).
Definition release (iop : inout_port) (o : owners) : Z * owners :=
  if VERIFY_IOPORT (p_port iop) (p_size iop) then (0, fun p => if covers iop p then None else o p) else (-1, o).

Definition is_port (p : Z) : Prop := 0 <= p < MAX_IOPORTS.
Definition default_slot : port_slot := mkSlot "default" (Z.lor IOPORT_F_INOUT IOPORT_F_DEFAULT) default_func 0.

(** What a device registers: a function, and not the default's flag. *)
Definition device_port (iop : inout_port) : Prop := p_handler iop <> NullFunc /\ has (p_flags iop) IOPORT_F_DEFAULT = false.

Record holds_ports (t : table) (o : owners) : Prop := {
  hp_slot p : is_port p -> t p = match o p with Some iop => slot_of iop | None => default_slot end;
  hp_device p iop : o p = Some iop -> device_port iop
}.

Lemma fill_spec n : forall i s t j, fill n i s t j = if (i <=? j) && (j <? i + Z.of_nat n) then s else t j.
Proof.
  induction n as [|n IH]; intros i s t j; cbn [fill].
  - destruct (Z.leb_spec i j), (Z.ltb_spec j (i + Z.of_nat 0)); cbn [andb]; (done || lia).
  - rewrite IH. destruct (Z.leb_spec (i + 1) j), (Z.ltb_spec j (i + 1 + Z.of_nat n)), (Z.leb_spec i j), (Z.ltb_spec j (i + Z.of_nat (S n))),
      (Z.eqb_spec j i); cbn [andb]; (done || lia).
Qed.

Lemma nobodyb_spec o iop : nobodyb (Z.to_nat (p_size iop)) (p_port iop) o = true <-> nobody o iop.
Proof.
  unfold nobody, covers. assert (H : forall n i, nobodyb n i o = true <-> forall p, i <= p < i + Z.of_nat n -> o p = None).
  { induction n as [|n IH]; intros i; cbn [nobodyb]; [split; [intros _ p; lia|done]|]. destruct (o i) eqn:E.
    - split; [done|]. intros H. rewrite (H i) in E by lia. done.
    - rewrite IH. split; intros H p Hp; [|apply H; lia]. destruct (Z.eq_dec p i) as [-> |]; [done|]. apply H. lia. }
  rewrite H. split; intros Hp p.
  - intros [H1%Z.leb_le H2%Z.ltb_lt]%andb_true_iff. apply Hp. lia.
  - intros Hr. apply Hp. apply andb_true_iff. rewrite Z.leb_le, Z.ltb_lt. lia.
Qed.

Lemma verify_spec port size : VERIFY_IOPORT port size = true <-> 0 <= port /\ 0 < size /\ port + size <= MAX_IOPORTS.
Proof. unfold VERIFY_IOPORT. rewrite !andb_true_iff, !Z.leb_le, Z.ltb_lt. lia. Qed.

Lemma slot_claimed t o p : holds_ports t o -> is_port p -> has (s_flags (t p)) IOPORT_F_DEFAULT = match o p with None => true | Some _ => false end.
Proof.
  intros [Hs Hd] Hp. rewrite (Hs p Hp). destruct (o p) as [iop|] eqn:E; [|done]. by destruct (Hd p iop E).
Qed.

Lemma taken_nobody t o n : holds_ports t o -> forall i, 0 <= i -> i + Z.of_nat n <= MAX_IOPORTS -> taken n i t = negb (nobodyb n i o).
Proof.
  intros H. induction n as [|n IH]; intros i Hi Hn; [done|]. cbn [taken nobodyb]. rewrite (slot_claimed t o) by (done || (unfold is_port; lia)).
  destruct (o i); [done|]. cbn [negb orb]. apply IH; lia.
Qed.

Lemma covers_fill iop p n : n = Z.to_nat (p_size iop) -> 0 < p_size iop -> (p_port iop <=? p) && (p <? p_port iop + Z.of_nat n) = covers iop p.
Proof. intros -> H. unfold covers. by rewrite Z2Nat.id by lia. Qed.

Lemma register_claim iop t o : holds_ports t o -> device_port iop ->
  let '(r, t') := register_inout iop t in let '(r', o') := claim iop o in r = r' /\ holds_ports t' o'.
Proof.
  intros H [Hf Hn]. unfold register_inout, claim. destruct (VERIFY_IOPORT _ _) eqn:E; cbn [negb andb]; [|done]. apply verify_spec in E.
  rewrite Hn. cbn [negb andb]. rewrite (taken_nobody t o) by (done || lia). destruct (nobodyb _ _ _); cbn [negb]; [|done].
  split; [done|]. split.
  - intros p Hp. rewrite fill_spec, covers_fill by (done || lia). destruct (covers iop p); [done|]. by apply (hp_slot _ _ H).
  - intros p iop'. destruct (covers iop p); [by intros [= <-]|]. apply (hp_device _ _ H).
Qed.

Lemma default_fill start size t p : VERIFY_IOPORT start size = true ->
  register_default_iohandler start size t p = if covers (default_port start size) p then default_slot else t p.
Proof.
  intros E. unfold register_default_iohandler, register_inout. rewrite E. cbn [negb p_port p_size default_port]. rewrite E. cbn [negb].
  assert (has (p_flags (default_port start size)) IOPORT_F_DEFAULT = true) as Hd by reflexivity. rewrite Hd.
  cbn [negb andb snd]. apply verify_spec in E. rewrite fill_spec.
  rewrite (covers_fill (default_port start size)) by (done || (cbn; lia)). done.
Qed.

Lemma unregister_release iop t o : holds_ports t o ->
  let '(r, t') := unregister_inout iop t in let '(r', o') := release iop o in r = r' /\ holds_ports t' o'.
Proof.
  intros H. unfold unregister_inout, release. destruct (VERIFY_IOPORT _ _) eqn:E; cbn [negb]; [|done]. split; [done|].
  assert (Hc : forall p, covers (default_port (p_port iop) (p_size iop)) p = covers iop p) by done. split.
  - intros p Hp. rewrite default_fill, Hc by done. destruct (covers iop p); [done|]. by apply (hp_slot _ _ H).
  - intros p iop'. destruct (covers iop p); [done|]. apply (hp_device _ _ H).
Qed.

(** The ports of the linker set, without an argument; a later one replaces an earlier. *)
Definition no_arg (iop : inout_port) : inout_port := mkPort (p_name iop) (p_port iop) (p_size iop) (p_flags iop) (p_handler iop) 0.
Definition set_owner (o : owners) (iop : inout_port) : owners :=
  fun p => if (p =? p_port iop) && (p_port iop <? MAX_IOPORTS) then Some (no_arg iop) else o p.

Lemma set_ports_run l : forall t o, holds_ports t o -> Forall (fun iop => device_port iop /\ 0 <= p_port iop) l ->
  exists t', set_ports l t = Ret t' /\ holds_ports t' (fold_left set_owner l o).
Proof.
  induction l as [|iop l IH]; intros t o H Hl; cbn [set_ports fold_left]; [by exists t|]. inversion Hl as [|? ? [[Hf Hn] Hp] Hl']; subst.
  unfold set_port. assert (Hs : holds_ports (if MAX_IOPORTS <=? p_port iop then t else
      fun j => if j =? p_port iop then mkSlot (p_name iop) (p_flags iop) (p_handler iop) 0 else t j) (set_owner o iop)).
  { unfold set_owner. split.
    - intros p Hp'. pose proof (hp_slot _ _ H p Hp') as Es. destruct (Z.leb_spec MAX_IOPORTS (p_port iop)); destruct (Z.eqb_spec p (p_port iop));
        cbn [andb]; try done; [unfold is_port in Hp'; lia|]. by rewrite (proj2 (Z.ltb_lt _ _)) by lia.
    - intros p iop'. destruct ((p =? p_port iop) && (p_port iop <? MAX_IOPORTS)); [by intros [= <-]|apply (hp_device _ _ H)]. }
  destruct (MAX_IOPORTS <=? p_port iop); cbn [mbind outcome_bind]; [by apply IH|]. rewrite (proj2 (Z.ltb_ge _ _)) by lia. by apply IH.
Qed.

Definition init_owners (l : list inout_port) : owners := fold_left set_owner l (fun _ => None).
Lemma inout_init_run l : Forall (fun iop => device_port iop /\ 0 <= p_port iop) l ->
  exists t, init_inout l = Ret t /\ holds_ports t (init_owners l).
Proof.
  intros Hl. unfold init_inout. apply set_ports_run; [|done]. split; [|done]. intros p Hp.
  rewrite default_fill by reflexivity. unfold covers. cbn [p_port p_size default_port]. unfold is_port in Hp.
  by rewrite (proj2 (Z.leb_le _ _)), (proj2 (Z.ltb_lt _ _)) by lia.
Qed.

(** ** Every history *)

Inductive port_op := Register (iop : inout_port) | Unregister (iop : inout_port).
Definition port_op_ok (op : port_op) : Prop := match op with Register iop => device_port iop | Unregister _ => True end.

Fixpoint run_table (ops : list port_op) (t : table) : list Z * table :=
  match ops with
  | [] => ([], t)
  | op :: ops =>
    let '(r, t) := match op with Register iop => register_inout iop t | Unregister iop => unregister_inout iop t end in
    let '(rs, t) := run_table ops t in (r :: rs, t)
  end.
Fixpoint run_owners (ops : list port_op) (o : owners) : list Z * owners :=
  match ops with
  | [] => ([], o)
  | op :: ops =>
    let '(r, o) := match op with Register iop => claim iop o | Unregister iop => release iop o end in
    let '(rs, o) := run_owners ops o in (r :: rs, o)
  end.

Lemma run_holds ops : forall t o, holds_ports t o -> Forall port_op_ok ops ->
  let '(rs, t') := run_table ops t in let '(rs', o') := run_owners ops o in rs = rs' /\ holds_ports t' o'.
Proof.
  induction ops as [|op ops IH]; intros t o H Hops; cbn [run_table run_owners]; [done|]. inversion Hops; subst.
  assert (Hop : let '(r, t') := match op with Register iop => register_inout iop t | Unregister iop => unregister_inout iop t end in
    let '(r', o') := match op with Register iop => claim iop o | Unregister iop => release iop o end in r = r' /\ holds_ports t' o')
    by (destruct op; [by apply register_claim|by apply unregister_release]).
  destruct (match op with Register iop => register_inout iop t | Unregister iop => unregister_inout iop t end) as [r t1].
  destruct (match op with Register iop => claim iop o | Unregister iop => release iop o end) as [r' o1]. destruct Hop as [<- Ho].
  specialize (IH t1 o1 Ho ltac:(done)). destruct (run_table ops t1) as [rs t2], (run_owners ops o1) as [rs' o2]. destruct IH as [<- He]. done.
Qed.

(** An access of one, two or four bytes inside the ports. *)
Definition request_ok (q : pio_request) : Prop :=
  0 <= io_address q /\ (io_size q = 1 \/ io_size q = 2 \/ io_size q = 4) /\ io_address q + io_size q <= MAX_IOPORTS.

(** Nobody answers ones, at the width of the access. *)
Definition access {D} `{!PortDevice D} (o : owners) (q : pio_request) : M D (Z * Z) :=
  match o (io_address q) with
  | None => mret (0, if io_read q then 2 ^ (8 * io_size q) - 1 else io_value q)
  | Some iop =>
    if has (p_flags iop) (if io_read q then IOPORT_F_IN else IOPORT_F_OUT)
    then call_handler (p_handler iop) (io_read q) (io_address q) (io_size q) (io_value q) (p_arg iop)
    else mret (-1, io_value q)
  end.

Lemma emulate_access {D} `{!PortDevice D} t o q (d : D) : holds_ports t o -> request_ok q -> emulate_inout t q d = access o q d.
Proof.
  intros H (Ha & Hs & He). unfold emulate_inout, access, MAX_IOPORTS in *.
  rewrite (s32_small (io_size q)), (s32_small (io_address q)) by (change (2 ^ 31) with 2147483648; lia). rewrite (s32_small (_ + _ - 1)) by (change (2 ^ 31) with 2147483648; lia).
  rewrite (proj2 (Z.leb_gt 65536 _)) by lia.
  assert ((io_size q =? 1) || (io_size q =? 2) || (io_size q =? 4) = true) as -> by (rewrite !orb_true_iff, !Z.eqb_eq; tauto).
  rewrite (proj2 (Z.ltb_ge _ 0)), (proj2 (Z.leb_gt 65536 (io_address q))) by lia. cbn [negb orb].
  rewrite (hp_slot _ _ H) by (unfold is_port, MAX_IOPORTS; lia). destruct (o (io_address q)) as [iop|].
  - cbn [slot_of s_flags s_handler s_arg]. by destruct (has _ _).
  - cbn [default_slot s_flags s_handler s_arg call_handler default_inout].
    destruct (io_read q); cbn; [|done]. destruct Hs as [-> | [-> | ->]]; reflexivity.
Qed.

(** C35. The ports: from the ports of the linker set on, whatever devices register and give up, each
    registration is accepted exactly when its ports are ports and nobody holds one, a port belongs to the
    last that was accepted for it, and an access goes to the holder of its first port, if the direction
    is one it registered; nobody's ports read as ones.  No handler that is NULL is called and no
    access leaves the table. *)
Theorem inout_refines {D} `{!PortDevice D} (inout_port_set : list inout_port) (ops : list port_op) :
  Forall (fun iop => device_port iop /\ 0 <= p_port iop) inout_port_set -> Forall port_op_ok ops ->
  let '(rs, o) := run_owners ops (init_owners inout_port_set) in
  exists t0 t, init_inout inout_port_set = Ret t0 /\ run_table ops t0 = (rs, t) /\
    (forall p iop, o p = Some iop -> p_handler iop <> NullFunc) /\
    (forall iop, device_port iop -> fst (register_inout iop t) = 0 <->
       (0 <= p_port iop /\ 0 < p_size iop /\ p_port iop + p_size iop <= MAX_IOPORTS) /\ nobody o iop) /\
    forall q (d : D), request_ok q -> emulate_inout t q d = access o q d.
Proof.
  intros Hset Hops. destruct (inout_init_run _ Hset) as (t0 & E0 & H0). pose proof (run_holds ops t0 _ H0 Hops) as H.
  destruct (run_owners ops (init_owners inout_port_set)) as [rs o]. destruct (run_table ops t0) as [rs' t] eqn:Et. destruct H as [-> H].
  exists t0, t. split; [done|]. split; [done|]. split; [by intros p iop Hp; apply (hp_device _ _ H p)|].
  split; [|by intros q d; apply emulate_access]. intros iop Hd. rewrite <- verify_spec, <- nobodyb_spec.
  pose proof (register_claim iop t o H Hd) as Hc. destruct (register_inout iop t) as [r t1]. unfold claim in Hc. cbn [fst].
  destruct (VERIFY_IOPORT _ _), (nobodyb _ _ _); cbn [andb] in Hc; destruct Hc as [-> _]; split; (done || by intros [? ?]).
Qed.

(** ** The clock's memory *)
Section Nvram.
Context (clock : nat -> Z).
#[local] Instance clock_device : PortDevice vrtc := rtc_device clock.

Definition outb (t : table) (port x : Z) : M vrtc (Z * Z) := emulate_inout t (mkPio false port 1 x).
Definition inb (t : table) (port : Z) : M vrtc (Z * Z) := emulate_inout t (mkPio true port 1 0).

(** The two ports are the clock's. *)
Definition clock_ports (t : table) : Prop := t IO_RTC = slot_of rtc_addr_port /\ t (IO_RTC + 1) = slot_of rtc_data_port.

Lemma register_rtc_ports t o : holds_ports t o -> nobody o rtc_addr_port -> nobody o rtc_data_port ->
  exists t', register_rtc t = (true, t') /\ clock_ports t'.
Proof.
  intros H Ha Hd. unfold register_rtc, clock_ports.
  pose proof (register_claim rtc_addr_port t o H ltac:(by split)) as H1.
  destruct (register_inout rtc_addr_port t) as [r1 t1]. unfold claim in H1. rewrite (proj2 (nobodyb_spec o rtc_addr_port) Ha) in H1.
  destruct H1 as [-> H1]. cbn [negb Z.eqb]. 
  pose proof (register_claim rtc_data_port t1 _ H1 ltac:(by split)) as H2. destruct (register_inout rtc_data_port t1) as [r2 t2].
  unfold claim in H2 at 1. match type of H2 with context [nobodyb ?n ?i ?o'] => assert (nobodyb n i o' = true) as E end.
  { apply (proj2 (nobodyb_spec _ rtc_data_port)). intros p Hp. rewrite (Hd p Hp).
    assert (covers rtc_addr_port p = false) as ->; [|done]. unfold covers in *. cbn in *.
    apply andb_true_iff in Hp as [H3%Z.leb_le H4%Z.ltb_lt]. apply andb_false_iff. right. apply Z.ltb_ge. lia. }
  rewrite E in H2. cbn [andb] in H2. destruct H2 as [-> H2]. exists t2. split; [done|].
  split; [rewrite (hp_slot _ _ H2 IO_RTC)|rewrite (hp_slot _ _ H2 (IO_RTC + 1))]; done.
Qed.

(** A read or write of the time does not wait for anything when the alarm is off. *)
Lemma time_update_run new base v : line_ok v -> aintr_enabled (dev v) = false ->
  runs (vrtc_time_update new base) v (fun _ v' => line_ok v' /\ addr v' = addr v /\ same_but [RTC_INTR] (dev v) (dev v')).
Proof.
  intros H Ha. unfold vrtc_time_update. apply runs_bind, runs_get. cbv zeta. apply runs_bind, runs_modify.
  set (v1 := v <| base_uptime := base |>). assert (H1 : line_ok v1) by (by destruct H).
  destruct (new =? base_rtctime v); [by apply runs_ret|].
  destruct (new =? VRTC_BROKEN_TIME); [apply runs_bind, runs_modify, runs_ret; split; [by destruct H1|done]|].
  destruct (rtc_halted (dev v)); [by apply runs_ret|]. rewrite Ha. cbn [andb update_rounds]. apply runs_bind, runs_bind. unfold update_round.
  apply runs_bind, runs_get. apply runs_bind, runs_modify. change (dev v1) with (dev v). rewrite Ha. cbn [andb]. apply runs_ret. apply runs_bind, runs_get.
  set (v2 := v1 <| base_rtctime := new |>). assert (H2 : line_ok v2) by (by destruct H1). change (base_rtctime v2) with new. rewrite Z.eqb_refl.
  apply runs_ret. apply runs_bind, runs_get. change (dev v2) with (dev v). apply runs_bind. destruct (uintr_enabled (dev v)); cbn [when].
  - eapply runs_weaken; [apply (raise_c RTCIR_UPDATE v2 H2); by right|]. cbv beta. intros _ v' (x & Ev & Hl & _). apply runs_ret.
    split; [done|]. split; [by rewrite Ev|]. intros j Hj. rewrite Ev. change (reg (set_reg RTC_INTR x (dev v)) j = reg (dev v) j).
    apply reg_set_other. by rewrite list_elem_of_singleton in Hj.
  - apply runs_ret, runs_ret. done.
Qed.

Lemma curtime_run v : line_ok v -> runs (vrtc_curtime clock) v (fun _ v' => line_ok v' /\ addr v' = addr v /\ dev v' = dev v).
Proof.
  intros H. unfold vrtc_curtime. apply runs_bind, runs_get. destruct (update_enabled v); [|by apply runs_ret].
  apply runs_bind. unfold runs, time. split; [by destruct H|done].
Qed.

Definition cell (n : Z) : Prop := 14 <= n < 128 /\ n <> 50.

Lemma data_run inp eax n v : cell n -> line_ok v -> aintr_enabled (dev v) = false -> addr v = Z.to_nat n ->
  runs (vrtc_data_handler clock inp 1 eax) v (fun r v' => line_ok v' /\ addr v' = Z.to_nat n /\ aintr_enabled (dev v') = false /\
    if inp then r = (0, reg (dev v) (Z.to_nat n)) /\ same_but [RTC_INTR] (dev v) (dev v')
    else r = (0, eax) /\ reg (dev v') (Z.to_nat n) = u8 eax /\ same_but [RTC_INTR; Z.to_nat n] (dev v) (dev v')).
Proof.
  intros [Hn Hc] H Ha En. set (k := Z.to_nat n) in *. assert (Hk : (14 <= k < 128)%nat /\ k <> 50%nat) by lia. destruct Hk as [Hk Hk50].
  unfold vrtc_data_handler. cbn [negb Z.eqb]. change (1 =? 1) with true. cbn [negb]. apply runs_bind, runs_get. rewrite En.
  rewrite (proj2 (Nat.leb_gt SIZEOF_RTCDEV k)) by (unfold SIZEOF_RTCDEV; lia).
  apply runs_bind. eapply runs_weaken; [apply curtime_run, H|]. cbv beta. intros [cur base] v1 (H1 & E1 & D1).
  apply runs_bind. eapply runs_weaken; [apply time_update_run; [exact H1|by rewrite D1]|]. cbv beta. intros _ v2 (H2 & E2 & S2). rewrite D1 in S2.
  apply runs_bind. rewrite (proj2 (Nat.ltb_ge k 10)), (proj2 (Nat.eqb_neq k RTC_CENTURY)) by (unfold RTC_CENTURY; lia). cbn [orb]. apply runs_ret.
  assert (Ea : aintr_enabled (dev v2) = false) by (unfold aintr_enabled; by rewrite S2 by off_list).
  assert (Er : reg (dev v2) k = reg (dev v) k) by (apply S2; rewrite list_elem_of_singleton; unfold RTC_INTR; lia).
  destruct inp.
  - apply runs_bind. unfold data_read. apply runs_bind, runs_get. cbv zeta. apply runs_bind.
    rewrite (proj2 (Nat.eqb_neq k RTC_INTR)) by (unfold RTC_INTR; lia). cbn [when]. apply runs_ret, runs_ret, runs_ret.
    split; [done|]. split; [congruence|]. split; [done|]. by rewrite Er.
  - apply runs_bind. rewrite (proj2 (Nat.eqb_neq k RTC_SEC)) by (unfold RTC_SEC; lia). cbv zeta. unfold data_write. apply runs_bind.
    rewrite (proj2 (Nat.eqb_neq k RTC_STATUSA)), (proj2 (Nat.eqb_neq k RTC_STATUSB)), (proj2 (Nat.eqb_neq k RTC_INTR)), (proj2 (Nat.eqb_neq k RTC_STATUSD))
      by (unfold RTC_STATUSA, RTC_STATUSB, RTC_INTR, RTC_STATUSD; lia). cbn [orb]. apply runs_bind.
    unfold on_dev. apply runs_modify, runs_ret. apply runs_bind, runs_get. set (v3 := v2 <| dev ::= set_reg k eax |>).
    rewrite (proj2 (Nat.eqb_neq k RTC_CENTURY)) by (unfold RTC_CENTURY; lia). cbn [andb]. apply runs_ret, runs_ret.
    assert (Hl : (k < length (dev v2))%nat) by (rewrite (lo_len _ H2); unfold SIZEOF_RTCDEV; lia).
    change (dev v3) with (set_reg k eax (dev v2)). split.
    { eapply (keeps_on_dev (set_reg k eax)); [apply spares_set; unfold RTC_INTR; lia|reflexivity|exact H2]. }
    split; [exact (eq_trans E2 (eq_trans E1 En))|]. split.
    { unfold aintr_enabled. rewrite reg_set_other by (unfold RTC_STATUSB; lia). exact Ea. }
    split; [done|]. split; [by rewrite reg_set, decide_True|]. intros j Hj. rewrite !not_elem_of_cons in Hj. destruct Hj as (Hj1 & Hj2 & _).
    rewrite reg_set_other by done. apply S2. by rewrite list_elem_of_singleton.
Qed.

(** An access at one of the ports is the handler's. *)
Lemma clock_access t inp x v : clock_ports t ->
  emulate_inout t (mkPio inp IO_RTC 1 x) v = vrtc_addr_handler inp 1 x v /\
  emulate_inout t (mkPio inp (IO_RTC + 1) 1 x) v = vrtc_data_handler clock inp 1 x v.
Proof.
  intros [H1 H2]. unfold emulate_inout. cbn [io_read io_address io_size io_value].
  change (s32 1) with 1. change (s32 IO_RTC) with IO_RTC. change (s32 (IO_RTC + 1)) with (IO_RTC + 1). rewrite H1, H2. by destruct inp.
Qed.

Lemma select_run t n v : clock_ports t -> cell n -> line_ok v ->
  runs (outb t IO_RTC n) v (fun _ v' => line_ok v' /\ addr v' = Z.to_nat n /\ dev v' = dev v).
Proof.
  intros Ht [Hn _] H. unfold runs, outb. rewrite (proj1 (clock_access t false n v Ht)). cbn. split; [by destruct H|]. split; [|done].
  change 0x7f with (Z.ones 7). rewrite Z.land_ones by lia. change (2 ^ 7) with 128.
  change (Z.to_nat (n mod 128) = Z.to_nat n). by rewrite Z.mod_small by lia.
Qed.

(** The clock's memory behind the ports: what the guest writes to a cell through port 0x71,
    after selecting it at port 0x70, it reads from there again, every byte of every cell
    but the century; the time goes on meanwhile and no other register changes but the flags. *)
Theorem nvram_roundtrip (t : table) (n x : Z) (v : vrtc) :
  clock_ports t -> cell n -> 0 <= x < 256 -> line_ok v -> aintr_enabled (dev v) = false ->
  exists v', (_ ← outb t IO_RTC n; _ ← outb t (IO_RTC + 1) x; _ ← outb t IO_RTC n; inb t (IO_RTC + 1)) v = Ret ((0, x), v') /\
    line_ok v' /\ same_but [RTC_INTR; Z.to_nat n] (dev v) (dev v').
Proof.
  intros Ht Hn Hx H Ha. assert (R : runs (_ ← outb t IO_RTC n; _ ← outb t (IO_RTC + 1) x; _ ← outb t IO_RTC n; inb t (IO_RTC + 1)) v
    (fun r v' => r = (0, x) /\ line_ok v' /\ same_but [RTC_INTR; Z.to_nat n] (dev v) (dev v'))).
  { apply runs_bind. eapply runs_weaken; [by apply select_run|]. cbv beta. intros _ v1 (H1 & E1 & D1). rewrite <- D1 in Ha.
    apply runs_bind. unfold outb at 1. unfold runs at 1. rewrite (proj2 (clock_access t false x v1 Ht)). fold (runs (vrtc_data_handler clock false 1 x) v1).
    eapply runs_weaken; [by apply (data_run false x n)|]. cbv beta iota. intros _ v2 (H2 & _ & A2 & _ & R2 & S2).
    apply runs_bind. eapply runs_weaken; [by apply select_run|]. cbv beta. intros _ v3 (H3 & E3 & D3). rewrite <- D3 in A2.
    unfold inb, runs at 1. rewrite (proj2 (clock_access t true 0 v3 Ht)). fold (runs (vrtc_data_handler clock true 1 0) v3).
    eapply runs_weaken; [by apply (data_run true 0 n)|]. cbv beta iota. intros r v4 (H4 & _ & _ & Er & S4).
    rewrite D3, R2 in Er. split; [rewrite Er; f_equal; apply wrap_small; exact Hx|]. split; [done|].
    rewrite <- D1. eapply rtc_same_trans; [exact S2|]. rewrite <- D3. eapply same_sub; [|exact S4]. clear. set_solver. }
  destruct (runs_returns _ _ _ R) as (r & v' & E & -> & Hl & Hs). by exists v'.
Qed.
End Nvram.

(** ** Examples *)

Module InoutDemo.
Definition reset_port : inout_port := mkPort "reset_reg" 0xCF9 1 IOPORT_F_INOUT (Func 7) 0.
Definition timer_port : inout_port := mkPort "vpit_cwr" 0x43 1 IOPORT_F_OUT (Func 8) 0.
Definition ports : list inout_port := [reset_port; timer_port].
Definition over_port : inout_port := mkPort "over" 0xCF8 4 IOPORT_F_INOUT (Func 9) 3.
Definition history : list port_op := [Register rtc_addr_port; Register rtc_data_port; Register over_port; Unregister reset_port; Register over_port].

#[local] Instance echo : PortDevice Z := fun n inp port bytes eax arg => fun d => Ret ((0, Z.of_nat n + arg), d + 1).

Example history_results : fst (run_owners history (init_owners ports)) = [0; 0; -1; 0; 0].
Proof. vm_compute. reflexivity. Qed.

Lemma inout_refines_witness : exists t0 t, init_inout ports = Ret t0 /\ run_table history t0 = ([0; 0; -1; 0; 0], t) /\
  emulate_inout t (mkPio true 0xCFB 1 0) (0 : Z) = Ret ((0, 12), 1) /\
  emulate_inout t (mkPio true 0x43 1 0) (0 : Z) = Ret ((-1, 0), 0) /\
  emulate_inout t (mkPio true 0x80 2 0) (0 : Z) = Ret ((0, 0xffff), 0).
Proof.
  assert (Hp : Forall (fun iop => device_port iop /\ 0 <= p_port iop) ports) by (repeat constructor; by vm_compute).
  assert (Hh : Forall port_op_ok history) by (repeat constructor; by vm_compute).
  pose proof (inout_refines (D := Z) ports history Hp Hh) as H.
  destruct (run_owners history (init_owners ports)) as [rs o] eqn:Eo. destruct H as (t0 & t & E0 & Et & _ & _ & Hq).
  assert (Ers : rs = [0; 0; -1; 0; 0]) by (pose proof history_results as Hr; rewrite Eo in Hr; exact Hr). subst rs.
  assert (Ho : o = snd (run_owners history (init_owners ports))) by (by rewrite Eo).
  exists t0, t. split; [exact E0|]. split; [exact Et|].
  split; [|split]; (rewrite Hq by (unfold request_ok, MAX_IOPORTS; cbn; lia)); rewrite Ho; vm_compute; reflexivity.
Defined.

Definition clock_table : table := match init_inout ports with Ret t => snd (register_rtc t) | Stop _ => empty_table end.

Lemma nvram_roundtrip_witness : exists v', (_ ← outb demo_clock clock_table IO_RTC 0x34; _ ← outb demo_clock clock_table (IO_RTC + 1) 0xa5;
    _ ← outb demo_clock clock_table IO_RTC 0x34; inb demo_clock clock_table (IO_RTC + 1)) demo_start = Ret ((0, 0xa5), v').
Proof.
  destruct (nvram_roundtrip demo_clock clock_table 0x34 0xa5 demo_start) as (v' & E & _).
  - split; vm_compute; reflexivity.
  - unfold cell. lia.
  - lia.
  - split; vm_compute; reflexivity.
  - vm_compute. reflexivity.
  - exists v'. exact E.
Defined.
End InoutDemo.
