(* ===== verification/PciIrq.v ===== *)
(** * Interrupt lines of the PCI devices

    [src/devicemodel/hw/pci/irq.c], the router of eight pins to the interrupts of the legacy
    controllers, and [src/devicemodel/hw/platform/ioapic.c], which hands out the pins of the I/O
    APIC one by one.  The lines that are set are kept in the order of the calls, the
    newest first. *)
From S2P Require Import Prelude.

Definition PIRQ_DIS := 0x80.
Definition PIRQ_IRQ := 0x0f.
Definition PERMITTED_IRQS := 0xdef8.
Definition IRQ_PERMITTED (irq : Z) : bool := has (u32 (Z.shiftl 1 irq)) PERMITTED_IRQS.
Definition IRQ_DISABLED := 0xff.
Definition LEGACY_IRQ_NUM := 16.
Definition VIOAPIC_RTE_NUM := 48.
Definition GSI_SET_HIGH := 0.
Definition GSI_SET_LOW := 1.

Record pirq := mkPirq { preg : Z; use_count : Z; active_count : Z }.
#[export] Instance pirq_eta : Settable pirq := fun p => mkPirq (preg p) (use_count p) (active_count p).

Record router := mkRouter {
  pirqs : list pirq; irq_counts : list Z; pirq_cold : bool;
  pci_pins : Z; last_pin : Z;
  gsis : list (Z * Z)
}.
#[export] Instance router_eta : Settable router := fun r =>
  mkRouter (pirqs r) (irq_counts r) (pirq_cold r) (pci_pins r) (last_pin r) (gsis r).

(** Static storage. *)
Definition zero_router : router := mkRouter (replicate 8 (mkPirq 0 0 0)) (replicate 16 0) true 0 0 [].

Definition vm_set_gsi_irq (gsi level : Z) (r : router) : router := r <| gsis ::= cons (gsi, level) |>.

Definition pirq_valid_irq (reg : Z) : bool := negb (has reg PIRQ_DIS) && IRQ_PERMITTED (Z.land reg PIRQ_IRQ).

(** Where [pin] is none of the eight the default is read. *)
Definition the_pirq (pin : Z) (r : router) : option pirq := if pin <=? 0 then None else nthZ (pirqs r) (pin - 1).

Definition pirq_read (pin : Z) (r : router) : Z := match the_pirq pin r with Some p => preg p | None => PIRQ_DIS end.

Definition when_active (p : pirq) (level : Z) (r : router) : router :=
  if negb (active_count p =? 0) && pirq_valid_irq (preg p) then vm_set_gsi_irq (Z.land (preg p) PIRQ_IRQ) level r else r.
Definition pirq_write (pin val : Z) (r : router) : router :=
  match the_pirq pin r with
  | None => r
  | Some p =>
    let new := Z.land val (Z.lor PIRQ_DIS PIRQ_IRQ) in
    if preg p =? new then r
    else
      let r := when_active p GSI_SET_LOW r in
      let p := p <| preg := new |> in
      when_active p GSI_SET_HIGH (r <| pirqs ::= fun l => setZ l (pin - 1) p |>)
  end.

Definition pci_irq_reserve (irq : Z) (r : router) : router :=
  match nthZ (irq_counts r) irq with
  | Some c => if pirq_cold r && ((c =? 0) || (c =? IRQ_DISABLED)) then r <| irq_counts ::= fun l => setZ l irq IRQ_DISABLED |> else r
  | None => r
  end.
Definition pci_irq_use (irq : Z) (r : router) : router :=
  match nthZ (irq_counts r) irq with
  | Some c => if pirq_cold r && negb (c =? IRQ_DISABLED) then r <| irq_counts ::= fun l => setZ l irq (u8 (c + 1)) |> else r
  | None => r
  end.

Definition pci_irq_init (r : router) : router :=
  r <| pirqs := replicate 8 (mkPirq PIRQ_DIS 0 0) |>
    <| irq_counts := map (fun i => if IRQ_PERMITTED (Z.of_nat i) then 0 else IRQ_DISABLED) (seq 0 16) |>.
Definition pci_irq_deinit (r : router) : router := r <| pirq_cold := true |>.

(** The first of the least counts, from [best] with [count] on. *)
Fixpoint least (i best count : Z) (l : list Z) : Z :=
  match l with [] => best | c :: l => if c <? count then least (i + 1) i c l else least (i + 1) best count l end.
(** The same among the interrupts that are not disabled; -1 where there is none. *)
Fixpoint least_irq (i best count : Z) (l : list Z) : Z :=
  match l with
  | [] => best
  | c :: l =>
    if c =? IRQ_DISABLED then least_irq (i + 1) best count l
    else if (best =? -1) || (c <? count) then least_irq (i + 1) i c l else least_irq (i + 1) best count l
  end.

Definition pirq_alloc_pin : M router Z :=
  _ ← modify (fun r => r <| pirq_cold := false |>);
  r ← get;
  match pirqs r with
  | [] => halt OobAccess
  | p0 :: rest =>
    let best_pin := least 1 0 (use_count p0) (map use_count rest) in
    match nthZ (pirqs r) best_pin with
    | None => halt OobAccess
    | Some p =>
      let p := p <| use_count ::= fun c => c + 1 |> in
      _ ← modify (fun r => r <| pirqs ::= fun l => setZ l best_pin p |>);
      if negb (preg p =? PIRQ_DIS) then mret (best_pin + 1)
      else
        let best_irq := least_irq 0 (-1) 0 (irq_counts r) in
        if best_irq <? 0 then mret (-1)
        else
          _ ← modify (fun r => r <| irq_counts ::= fun l => setZ l best_irq (u8 (default 0 (nthZ l best_irq) + 1)) |>);
          _ ← modify (fun r => r <| pirqs ::= fun l => setZ l best_pin (p <| preg := best_irq |>) |>);
          mret (best_pin + 1)
    end
  end.

Definition pirq_irq (pin : Z) (r : router) : Z := match the_pirq pin r with Some p => Z.land (preg p) PIRQ_IRQ | None => 0xFF end.

(** ** The I/O APIC *)

Definition ioapic_init (r : router) : router := r <| last_pin := 0 |> <| pci_pins := VIOAPIC_RTE_NUM - LEGACY_IRQ_NUM |>.
Definition ioapic_deinit (r : router) : router := r <| last_pin := 0 |>.
(** Lines are not shared: the assertion ends the program when there is none left. *)
Definition ioapic_pci_alloc_irq : M router Z :=
  r ← get;
  _ ← lift (assert_or ProcessExit (last_pin r <? pci_pins r));
  if pci_pins r =? 0 then halt DivByZero
  else
    _ ← modify (fun r => r <| last_pin ::= fun n => n + 1 |>);
    mret (LEGACY_IRQ_NUM + Z.rem (last_pin r) (pci_pins r)).
