(* ===== verification/PciCore.v ===== *)
(** * The PCI core: devices, BARs and the configuration space

    [src/devicemodel/hw/pci/core.c] with the types of [pci_core.h]: allocation and registration of BARs
    in emulated memory (Mmio.v) and ports (Inout.v), the capability list, MSI and
    MSI-X, the interrupt pins, and every access of the guest to configuration space.  A
    device is named by its bus, slot and function; what its kind does is a record of
    functions, as in the source.  Passing GVT devices through ([gvt_enabled]) is off. *)
From stdpp Require Import pretty.
From S2P Require Import Prelude RbTree Mmio Inout PciConfig PciIrq.

(** ** Registers *)

Definition PCI_SLOTMAX := 31.
Definition PCI_FUNCMAX := 7.
Definition PCI_BUSMAX := 255.
Definition PCI_BARMAX := 5.
Definition PCI_ROMBAR := 6.
Definition PCIR_COMMAND := 0x04.
Definition PCIM_CMD_PORTEN := 0x0001.
Definition PCIM_CMD_MEMEN := 0x0002.
Definition PCIM_CMD_BUSHOSTEN := 0x0004.
Definition PCIM_CMD_INTxDIS := 0x0400.
Definition PCIR_STATUS := 0x06.
Definition PCIM_STATUS_CAPPRESENT := 0x0010.
Definition PCIR_HDRTYPE := 0x0e.
Definition PCIM_MFDEV := 0x80.
Definition PCIR_BAR (x : Z) : Z := 0x10 + x * 4.
Definition PCIM_BAR_SPACE := 1.
Definition PCIM_BAR_MEM_SPACE := 0.
Definition PCIM_BAR_IO_SPACE := 1.
Definition PCIM_BAR_MEM_TYPE := 6.
Definition PCIM_BAR_MEM_32 := 0.
Definition PCIM_BAR_MEM_64 := 4.
Definition PCIM_BAR_MEM_PREFETCH := 8.
Definition PCIM_BAR_MEM_BASE := 0xfffffffffffffff0.
Definition PCIM_BAR_IO_BASE := 0xfffffffc.
Definition PCIR_BIOS := 0x30.
Definition PCIM_BIOS_ADDR_MASK := 0xfffff800.
Definition PCIR_CAP_PTR := 0x34.
Definition PCIR_INTLINE := 0x3c.
Definition PCIR_INTPIN := 0x3d.
Definition PCIY_MSI := 0x05.
Definition PCIY_EXPRESS := 0x10.
Definition PCIY_MSIX := 0x11.
Definition PCIR_MSI_CTRL := 2.
Definition PCIR_MSI_MASK := 0x10.
Definition PCIR_MSI_PENDING := 0x14.
Definition PCIM_MSICTRL_PVMC := 0x0100.
Definition PCIM_MSICTRL_64BIT := 0x0080.
Definition PCIM_MSICTRL_MME_MASK := 0x0070.
Definition PCIM_MSICTRL_MSI_ENABLE := 0x0001.
Definition PCIM_MSIXCTRL_MSIX_ENABLE := 0x8000.
Definition PCIM_MSIXCTRL_FUNCTION_MASK := 0x4000.
Definition PCIM_MSIX_BIR_MASK := 7.
Definition PCIM_MSIX_VCTRL_MASK := 1.
Definition PCIEM_TYPE_ROOT_PORT := 0x40.
Definition PCIECAP_VERSION := 2.
Definition MSIX_TABLE_ENTRY_SIZE := 16.
Definition MAX_MSIX_TABLE_ENTRIES := 2048.
Definition CAP_START_OFFSET := 0x40.

Definition PAGE_SIZE := 4096.
Definition PCI_EMUL_IOBASE := 0x2000.
Definition PCI_EMUL_IOLIMIT := 0x10000.
Definition PCI_EMUL_MEMBASE32 := 0x80000000.
Definition PCI_EMUL_MEMLIMIT32 := 0xE0000000.
Definition PCI_EMUL_ECFG_BASE := 0xE0000000.
Definition PCI_EMUL_ECFG_SIZE := 256 * 1024 * 1024.
Definition PCI_EMUL_MEMBASE64 := 0x4000000000.
Definition PCI_EMUL_MEMLIMIT64 := 0x8000000000.
Definition REGION_NUMS := 32%nat.
Definition MEM_F_RW := Z.lor MEM_F_READ MEM_F_WRITE.
Definition EINVAL := 22.

(** The macro on 64-bit operands. *)
Definition roundup2 (x y : Z) : Z := Z.land (u64 (x + (y - 1))) (u64 (Z.lnot (y - 1))).
Definition PBA_SIZE (msgnum : Z) : Z := roundup2 msgnum 64 / 8.
Definition flsl (mask : Z) : Z := if mask =? 0 then 0 else Z.log2 mask + 1.

(** ** Devices *)

Inductive pcibar_type := PCIBAR_NONE | PCIBAR_IO | PCIBAR_MEM32 | PCIBAR_MEM64 | PCIBAR_MEMHI64 | PCIBAR_ROM.
#[export] Instance pcibar_type_eq_dec : EqDecision pcibar_type.
Proof. solve_decision. Defined.
Record pcibar := mkBar { b_type : pcibar_type; b_size : Z; b_addr : Z; sizing : bool }.
#[export] Instance pcibar_eta : Settable pcibar := fun b => mkBar (b_type b) (b_size b) (b_addr b) (sizing b).

Inductive lintr_stat := IDLE | ASSERTED | PENDING.
#[export] Instance lintr_stat_eq_dec : EqDecision lintr_stat.
Proof. solve_decision. Defined.
Record lintr := mkLintr { pin : Z; state : lintr_stat; pirq_pin : Z; ioapic_irq : Z }.
#[export] Instance lintr_eta : Settable lintr := fun l => mkLintr (pin l) (state l) (pirq_pin l) (ioapic_irq l).

Record msi := mkMsi { msi_on : bool; msi_addr : Z; msi_data : Z; maxmsgnum : Z }.
#[export] Instance msi_eta : Settable msi := fun m => mkMsi (msi_on m) (msi_addr m) (msi_data m) (maxmsgnum m).

(** The table of MSI-X is its bytes. *)
Record msix := mkMsix {
  msix_on : bool; table_bar : Z; pba_bar : Z; table_offset : Z; table_count : Z; pba_offset : Z; pba_size : Z;
  function_mask : bool; msix_table : option (list Z)
}.
#[export] Instance msix_eta : Settable msix := fun m =>
  mkMsix (msix_on m) (table_bar m) (pba_bar m) (table_offset m) (table_count m) (pba_offset m) (pba_size m) (function_mask m) (msix_table m).

Record pci_vdev := mkVdev {
  dev_name : string; prevcap : Z; capend : Z;
  d_lintr : lintr; d_msi : msi; d_msix : msix;
  cfgdata : list Z; bar : list pcibar
}.
#[export] Instance vdev_eta : Settable pci_vdev := fun d =>
  mkVdev (dev_name d) (prevcap d) (capend d) (d_lintr d) (d_msi d) (d_msix d) (cfgdata d) (bar d).

(** [calloc], and what [pci_emul_init] assigns. *)
Definition zero_bar : pcibar := mkBar PCIBAR_NONE 0 0 false.
Definition zero_vdev (name : string) : pci_vdev :=
  mkVdev name 0 0 (mkLintr 0 IDLE 0 0) (mkMsi false 0 0 0) (mkMsix false 0 0 0 0 0 0 false None) (replicate 256 0) (replicate 7 zero_bar).

Record io_rsvd_rgn := mkRgn { g_start : Z; g_end : Z; g_idx : Z; g_bar_type : pcibar_type; g_vdev : option Z }.
Record intxinfo := mkIntx { ii_count : Z; ii_pirq_pin : Z; ii_ioapic_irq : Z }.
#[export] Instance intx_eta : Settable intxinfo := fun i => mkIntx (ii_count i) (ii_pirq_pin i) (ii_ioapic_irq i).

(** The location of a device is its name. *)
Definition bdf (bus slot func : Z) : Z := bus * 256 + slot * 8 + func.
Definition bus_of (k : Z) : Z := k / 256.
Definition slot_no (k : Z) : Z := (k / 8) mod 32.

Section PciCore.
(** What the devices of the machine keep. *)
Context {P : Type}.

Record pci := mkPci {
  devs : gmap Z pci_vdev; fi_devi : gset Z; businfo : gset Z; intpins : gmap (Z * Z) intxinfo;
  ports : table;
  emul_iobase : Z; emul_membase32 : Z; emul_membase64 : Z; reserved_bar_regions : list io_rsvd_rgn;
  irqs : router; msis : list (Z * Z); mallocs : nat;
  private : P
}.
#[export] Instance pci_eta : Settable pci := fun s =>
  mkPci (devs s) (fi_devi s) (businfo s) (intpins s) (ports s) (emul_iobase s) (emul_membase32 s) (emul_membase64 s)
    (reserved_bar_regions s) (irqs s) (msis s) (mallocs s) (private s).

(** The machine: emulated memory, whose handlers work on the devices. *)
Definition machine := mmio pci.
Definition B (A : Type) : Type := M machine A.

Definition the_pci : B pci := s ← get; mret (clients s).
Definition on_pci (f : pci -> pci) : B unit := modify (fun s : machine => s <| clients ::= f |>).
Definition on_irqs {A} (m : M router A) : B A := fun s =>
  match m (irqs (clients s)) with
  | Ret (a, r) => Ret (a, s <| clients ::= fun p => p <| irqs := r |> |>)
  | Stop e => Stop e
  end.

Definition the_dev (k : Z) : B pci_vdev :=
  p ← the_pci; match devs p !! k with Some d => mret d | None => halt UseAfterFree end.
Definition set_dev (k : Z) (d : pci_vdev) : B unit := on_pci (fun p => p <| devs ::= <[k := d]> |>).
Definition on_dev (k : Z) (f : pci_vdev -> pci_vdev) : B unit := d ← the_dev k; set_dev k (f d).

Definition get_cfg (n : nat) (k off : Z) : B Z := d ← the_dev k; lift (pci_get_cfgdata n off (cfgdata d)).
Definition set_cfg (n : nat) (k off val : Z) : B unit :=
  d ← the_dev k; c ← lift (pci_set_cfgdata n off val (cfgdata d)); set_dev k (d <| cfgdata := c |>).
Definition width (bytes : Z) : nat := if bytes =? 1 then 1%nat else if bytes =? 2 then 2%nat else 4%nat.
Definition CFGWRITE (k coff val bytes : Z) : B unit := set_cfg (width bytes) k coff val.
Definition CFGREAD (k coff bytes : Z) : B Z := get_cfg (width bytes) k coff.

Definition the_bar (k idx : Z) : B pcibar :=
  d ← the_dev k; match nthZ (bar d) idx with Some b => mret b | None => halt OobAccess end.
Definition on_bar (k idx : Z) (f : pcibar -> pcibar) : B unit :=
  b ← the_bar k idx; on_dev k (fun d => d <| bar ::= fun l => setZ l idx (f b) |>).

(** [struct pci_vdev_ops], by device.  The accesses to a BAR work on the devices only; the
    configuration callbacks answer whether the access is theirs. *)
Record vdev_ops := mkOps {
  class_name : string;
  vdev_init : Z -> B Z;
  vdev_deinit : option (Z -> B unit);
  vdev_cfgwrite : option (Z -> Z -> Z -> Z -> B Z);
  vdev_cfgread : option (Z -> Z -> Z -> Z -> B (Z * Z));
  vdev_barwrite : Z -> Z -> Z -> Z -> Z -> M pci unit;
  vdev_barread : Z -> Z -> Z -> Z -> M pci Z
}.
Context (dev_ops : Z -> vdev_ops) (malloc : nat -> bool).

Definition is_pt_pci (k : Z) : bool := String.prefix "passthru" (class_name (dev_ops k)).

(** ** Reserved regions *)

Definition is_io_rgns_overlap (x1 x2 y1 y2 : Z) : bool := (x1 <=? y2) && (y1 <=? x2).

Definition adjust_bar_region (regions : list io_rsvd_rgn) (size : Z) (bar_type : pcibar_type) (base : Z) : Z :=
  fold_left (fun base r =>
    if bool_decide (g_vdev r = None) || negb (bool_decide (g_bar_type r = bar_type)) then base
    else if is_io_rgns_overlap (g_start r) (g_end r) base (u64 (base + size - 1)) then roundup2 (u64 (g_end r + 1)) size
    else base) regions base.

Definition get_io_rsvd_rgn_by_vdev_idx (regions : list io_rsvd_rgn) (k idx : Z) : option io_rsvd_rgn :=
  List.find (fun r => bool_decide (g_vdev r = Some k) && (g_idx r =? idx)) regions.

Definition destory_io_rsvd_rgns (k : Z) : B unit :=
  on_pci (fun p => p <| reserved_bar_regions ::= map (fun r =>
    if bool_decide (g_vdev r = Some k) then mkRgn (g_start r) (g_end r) (g_idx r) (g_bar_type r) None else r) |>).

(** ** Registration of BARs *)

(** The functions that are registered. *)
Definition fn_pci_emul_io_handler := 3%nat.
Definition fn_pci_emul_mem_handler := 1%nat.
Definition fn_pci_emul_fallback_handler := 2%nat.

Definition bar_port (k : Z) (d : pci_vdev) (b : pcibar) : inout_port :=
  mkPort (dev_name d) (s32 (b_addr b)) (s32 (b_size b)) IOPORT_F_INOUT (Func fn_pci_emul_io_handler) k.
Definition bar_range (k idx : Z) (d : pci_vdev) (b : pcibar) : mem_range :=
  mkRange (dev_name d) MEM_F_RW fn_pci_emul_mem_handler k idx (b_addr b) (b_size b).

(** The pins of the ports are a table of this component. *)
Definition on_ports (f : table -> Z * table) : B Z :=
  p ← the_pci; let '(r, t) := f (ports p) in _ ← on_pci (fun p => p <| ports := t |>); mret r.

Definition modify_bar_registration (k idx : Z) (registration : bool) : B Z :=
  if is_pt_pci k then mret 0
  else
    d ← the_dev k;
    b ← the_bar k idx;
    match b_type b with
    | PCIBAR_IO => on_ports (if registration then register_inout (bar_port k d b) else unregister_inout (bar_port k d b))
    | PCIBAR_MEM32 | PCIBAR_MEM64 =>
      if registration then
        p ← the_pci;
        _ ← on_pci (fun p => p <| mallocs ::= S |>);
        register_mem (malloc (mallocs p)) (bar_range k idx d b)
      else unregister_mem (bar_range k idx d b)
    | _ => mret EINVAL
    end.
Definition unregister_bar (k idx : Z) : B unit := _ ← modify_bar_registration k idx false; mret tt.
Definition register_bar (k idx : Z) : B Z := modify_bar_registration k idx true.

Definition porten (k : Z) : B bool := cmd ← get_cfg 2 k PCIR_COMMAND; mret (has cmd PCIM_CMD_PORTEN).
Definition memen (k : Z) : B bool := cmd ← get_cfg 2 k PCIR_COMMAND; mret (has cmd PCIM_CMD_MEMEN).
Definition decoding (k : Z) (t : pcibar_type) : B bool := if bool_decide (t = PCIBAR_IO) then porten k else memen k.

Definition update_bar_address (k addr idx : Z) (type : pcibar_type) (ignore_reg_unreg : bool) : B unit :=
  b ← the_bar k idx;
  decode ← (if ignore_reg_unreg then mret false else decoding k (b_type b));
  _ ← when decode (unregister_bar k idx);
  match type with
  | PCIBAR_IO | PCIBAR_MEM32 =>
    _ ← on_bar k idx (fun b => b <| b_addr := addr |>);
    when decode (_ ← register_bar k idx; mret tt)
  | PCIBAR_MEM64 =>
    _ ← on_bar k idx (fun b => b <| b_addr ::= fun a => Z.lor (Z.land a (2 ^ 64 - 2 ^ 32)) addr |>);
    when decode (_ ← register_bar k idx; mret tt)
  | PCIBAR_MEMHI64 =>
    _ ← on_bar k idx (fun b => b <| b_addr ::= fun a => Z.lor (Z.land a 0xffffffff) addr |>);
    when decode (_ ← register_bar k idx; mret tt)
  | _ => mret tt
  end.

(** ** Allocation of BARs *)

(** The address and the new base. *)
Definition pci_emul_alloc_resource (regions : list io_rsvd_rgn) (base limit size : Z) (bar_type : pcibar_type) : option (Z * Z) :=
  if negb (Z.land size (u64 (size - 1)) =? 0) then None
  else
    let size := if size <? PAGE_SIZE then PAGE_SIZE else size in
    let base := adjust_bar_region regions size bar_type (roundup2 base size) in
    if u64 (base + size) <=? limit then Some (base, u64 (base + size)) else None.

(** Which of the bases. *)
Inductive pool := NoPool | PoolIo | Pool32 | Pool64 | PoolHost.
Definition pool_base (p : pci) (hostbase : Z) (w : pool) : Z :=
  match w with PoolIo => emul_iobase p | Pool32 => emul_membase32 p | Pool64 => emul_membase64 p | PoolHost => hostbase | NoPool => 0 end.
Definition set_pool (w : pool) (base : Z) (p : pci) : pci :=
  match w with
  | PoolIo => p <| emul_iobase := base |> | Pool32 => p <| emul_membase32 := base |> | Pool64 => p <| emul_membase64 := base |>
  | _ => p
  end.

(** Where a BAR of a type and size is taken from: base, limit, mask and low bits. *)
Definition bar_pool (skip_workaround : bool) (type : pcibar_type) (idx size : Z) : option (pool * Z * Z * Z) :=
  match type with
  | PCIBAR_NONE => Some (NoPool, 0, 0, 0)
  | PCIBAR_IO => Some (PoolIo, PCI_EMUL_IOLIMIT, PCIM_BAR_IO_BASE, PCIM_BAR_IO_SPACE)
  | PCIBAR_MEM64 =>
    if PCI_BARMAX <? idx + 1 then None
    else if negb skip_workaround && (size <=? 32 * 1024 * 1024)
    then Some (Pool32, PCI_EMUL_MEMLIMIT32, PCIM_BAR_MEM_BASE, Z.lor PCIM_BAR_MEM_SPACE PCIM_BAR_MEM_64)
    else Some (if size =? 0x100000000 then PoolHost else Pool64, PCI_EMUL_MEMLIMIT64, PCIM_BAR_MEM_BASE,
               Z.lor (Z.lor PCIM_BAR_MEM_SPACE PCIM_BAR_MEM_64) PCIM_BAR_MEM_PREFETCH)
  | PCIBAR_MEM32 => Some (Pool32, PCI_EMUL_MEMLIMIT32, PCIM_BAR_MEM_BASE, Z.lor PCIM_BAR_MEM_SPACE PCIM_BAR_MEM_32)
  | _ => None
  end.

(** The size that is taken. *)
Definition bar_size (type : pcibar_type) (size : Z) : outcome Z :=
  size ← (if Z.land size (u64 (size - 1)) =? 0 then Ret size
          else if flsl size =? 64 then Stop BadShift else Ret (Z.shiftl 1 (flsl size)));
  Ret (if bool_decide (type = PCIBAR_IO) then Z.max size 4 else Z.max size 16).

(** The address: of the reserved region, or of the pool. *)
Definition bar_address (k idx hostbase size limit : Z) (type : pcibar_type) (w : pool) : B (option Z) :=
  p ← the_pci;
  match get_io_rsvd_rgn_by_vdev_idx (reserved_bar_regions p) k idx with
  | Some region => mret (Some (g_start region))
  | None =>
    match w with
    | NoPool => mret (Some 0)
    | _ =>
      match pci_emul_alloc_resource (reserved_bar_regions p) (pool_base p hostbase w) limit size type with
      | None => mret None
      | Some (addr, base) => _ ← on_pci (set_pool w base); mret (Some addr)
      end
    end
  end.

Definition pci_emul_alloc_pbar (skip_workaround : bool) (k idx hostbase : Z) (type : pcibar_type) (size : Z) : B Z :=
  size ← lift (bar_size type size);
  if PCI_ROMBAR <? idx then mret (-1)
  else if (idx =? PCI_ROMBAR) && negb (bool_decide (type = PCIBAR_ROM)) then mret (-1)
  else
    let type := if idx =? PCI_ROMBAR then PCIBAR_MEM32 else type in
    match bar_pool skip_workaround type idx size with
    | None => mret (-1)
    | Some (w, limit, mask, lobits) =>
      addr ← bar_address k idx hostbase size limit type w;
      match addr with
      | None => mret (-1)
      | Some addr =>
        _ ← on_bar k idx (fun b => b <| b_type := type |> <| b_addr := addr |> <| b_size := size |>);
        _ ← (if idx =? PCI_ROMBAR then set_cfg 4 k PCIR_BIOS (Z.land addr PCIM_BIOS_ADDR_MASK)
             else
               let val := Z.lor (Z.land addr mask) lobits in
               _ ← set_cfg 4 k (PCIR_BAR idx) val;
               when (bool_decide (type = PCIBAR_MEM64))
                 (_ ← on_bar k (idx + 1) (fun b => b <| b_type := PCIBAR_MEMHI64 |>);
                  set_cfg 4 k (PCIR_BAR (idx + 1)) (Z.shiftr val 32)));
        register_bar k idx
      end
    end.
Definition pci_emul_alloc_bar (skip_workaround : bool) (k idx : Z) (type : pcibar_type) (size : Z) : B Z :=
  pci_emul_alloc_pbar skip_workaround k idx 0 type size.

Definition pci_emul_free_bar (k idx : Z) : B unit :=
  b ← the_bar k idx;
  if bool_decide (b_type b = PCIBAR_NONE) || bool_decide (b_type b = PCIBAR_MEMHI64) then mret tt
  else
    enabled ← decoding k (b_type b);
    _ ← when enabled (unregister_bar k idx);
    on_bar k idx (fun b => b <| b_type := PCIBAR_NONE |>).

(** In order, for each number of a list. *)
Fixpoint each (l : list Z) (f : Z -> B unit) : B unit :=
  match l with [] => mret tt | i :: l => _ ← f i; each l f end.
Definition upto (n : Z) : list Z := map Z.of_nat (seq 0 (Z.to_nat n)).

Definition pci_emul_free_bars (k : Z) : B unit := each (upto PCI_BARMAX) (pci_emul_free_bar k).

(** ** Capabilities *)

Definition pci_emul_add_capability (k : Z) (capdata : list Z) : B Z :=
  let caplen := Z.of_nat (length capdata) in
  let reallen := roundup2 caplen 4 in
  sts ← get_cfg 2 k PCIR_STATUS;
  let present := has sts PCIM_STATUS_CAPPRESENT in
  d ← the_dev k;
  let capoff := if present then capend d + 1 else CAP_START_OFFSET in
  if PCI_REGMAX + 1 <? capoff + reallen then mret (-1)
  else
    _ ← (if present then set_cfg 1 k (prevcap d + 1) capoff
         else _ ← set_cfg 1 k PCIR_CAP_PTR capoff; set_cfg 2 k PCIR_STATUS (Z.lor sts PCIM_STATUS_CAPPRESENT));
    _ ← each (upto caplen) (fun i => set_cfg 1 k (capoff + i) (default 0 (nthZ capdata i)));
    _ ← set_cfg 1 k (capoff + 1) 0;
    _ ← on_dev k (fun d => d <| prevcap := capoff |> <| capend := capoff + reallen - 1 |>);
    mret 0.

(** The walk stops with [OutOfFuel] after more steps than there are offsets: it has then come to one of them twice. *)
Fixpoint walk_caps (fuel : nat) (k capid coff : Z) : B (option Z) :=
  match fuel with
  | O => halt OutOfFuel
  | S fuel =>
    d ← the_dev k;
    if (CAP_START_OFFSET <=? coff) && (coff <=? prevcap d) then
      id ← get_cfg 1 k coff;
      if id =? capid then mret (Some coff)
      else next ← get_cfg 1 k (coff + 1); walk_caps fuel k capid next
    else mret None
  end.
Definition cap_fuel := 257%nat.

(** The offset found, from the one given on; [None] for the result -1. *)
Definition pci_emul_find_capability (k capid p_capoff : Z) : B (option Z) :=
  sts ← get_cfg 2 k PCIR_STATUS;
  if negb (has sts PCIM_STATUS_CAPPRESENT) then mret None
  else
    d ← the_dev k;
    if p_capoff =? 0 then coff ← get_cfg 1 k PCIR_CAP_PTR; walk_caps cap_fuel k capid coff
    else if (CAP_START_OFFSET <=? p_capoff) && (p_capoff <=? prevcap d)
    then coff ← get_cfg 1 k (p_capoff + 1); walk_caps cap_fuel k capid coff
    else mret None.

(** ** MSI *)

(** Where the field [msi_cap] is. *)
Definition pci_access_msi (k msi_cap : Z) : B (option Z) :=
  if PCIR_MSI_PENDING <? msi_cap then mret None
  else
    off ← pci_emul_find_capability k PCIY_MSI 0;
    match off with
    | None => mret None
    | Some offset =>
      msgctrl ← get_cfg 2 k (offset + PCIR_MSI_CTRL);
      mret (Some (if has msgctrl PCIM_MSICTRL_64BIT then offset + msi_cap else offset + msi_cap - 4))
    end.
(** [1 << index]. *)
Definition bit_of (index : Z) : outcome Z := if (0 <=? index) && (index <? 32) then Ret (Z.shiftl 1 index) else Stop BadShift.

Definition msi_bit (k msi_cap index : Z) : B bool :=
  off ← pci_access_msi k msi_cap;
  match off with
  | None => mret false
  | Some offset => val ← get_cfg 4 k offset; b ← lift (bit_of index); mret (has val b)
  end.
Definition pci_is_msi_masked (k index : Z) : B bool := msi_bit k PCIR_MSI_MASK index.
Definition pci_is_msi_pending (k index : Z) : B bool := msi_bit k PCIR_MSI_PENDING index.

Definition pci_set_msi_pending (k index : Z) (set : bool) : B unit :=
  off ← pci_access_msi k PCIR_MSI_PENDING;
  match off with
  | None => mret tt
  | Some offset =>
    val ← get_cfg 4 k offset;
    b ← lift (bit_of index);
    off ← pci_access_msi k PCIR_MSI_PENDING;
    match off with
    | None => mret tt
    | Some offset => set_cfg 4 k offset (if set then Z.lor b val else clear_bits 32 val b)
    end
  end.

Definition vm_lapic_msi (addr data : Z) : B unit := on_pci (fun p => p <| msis ::= cons (addr, data) |>).

Definition pci_msi_maxmsgnum (d : pci_vdev) : Z := if msi_on (d_msi d) then maxmsgnum (d_msi d) else 0.
Definition pci_msix_enabled (d : pci_vdev) : bool := msix_on (d_msix d) && negb (msi_on (d_msi d)).

Definition pci_generate_msi (k index : Z) : B unit :=
  d ← the_dev k;
  if msi_on (d_msi d) && (index <? pci_msi_maxmsgnum d) then
    masked ← pci_is_msi_masked k index;
    if masked : bool then pci_set_msi_pending k index true
    else
      _ ← vm_lapic_msi (msi_addr (d_msi d)) (msi_data (d_msi d) + index);
      pci_set_msi_pending k index false
  else mret tt.

(** [struct msicap] as its bytes; [None] for a number that is refused. *)
Definition ffs (x : Z) : Z := if x =? 0 then 0 else Z.log2 (Z.land x (- x)) + 1.
Definition pci_populate_msicap (msgnum nextptr : Z) : option (list Z) :=
  if negb (Z.land msgnum (msgnum - 1) =? 0) || (msgnum <? 1) || (32 <? msgnum) then None
  else
    let mmc := ffs msgnum - 1 in
    Some (PCIY_MSI :: u8 nextptr :: le_encode 2 (Z.lor (Z.lor PCIM_MSICTRL_64BIT PCIM_MSICTRL_PVMC) (Z.shiftl mmc 1)) ++ replicate 20 0).
Definition pci_emul_add_msicap (k msgnum : Z) : B Z :=
  match pci_populate_msicap msgnum 0 with
  | None => mret 1
  | Some msicap => r ← pci_emul_add_capability k msicap; mret (b2z (negb (r =? 0)))
  end.

(** ** MSI-X *)

Definition pci_populate_msixcap (msgnum barnum msix_tab_size : Z) : list Z :=
  PCIY_MSIX :: 0 :: le_encode 2 (msgnum - 1) ++ le_encode 4 (Z.land barnum PCIM_MSIX_BIR_MASK) ++
  le_encode 4 (Z.lor msix_tab_size (Z.land barnum PCIM_MSIX_BIR_MASK)).

(** Each vector masked. *)
Definition masked_entry : list Z := replicate 12 0 ++ le_encode 4 PCIM_MSIX_VCTRL_MASK.
Definition pci_msix_table_init (k table_entries : Z) : B bool :=
  p ← the_pci;
  _ ← on_pci (fun p => p <| mallocs ::= S |>);
  if malloc (mallocs p)
  then _ ← on_dev k (fun d => d <| d_msix ::= fun x => x <| msix_table := Some (concat (replicate (Z.to_nat table_entries) masked_entry)) |> |>); mret true
  else mret false.

Definition pci_emul_add_msixcap (skip_workaround : bool) (k msgnum barnum : Z) : B Z :=
  if MAX_MSIX_TABLE_ENTRIES <? msgnum then mret (-1)
  else
    let tab_size := roundup2 (u32 (msgnum * MSIX_TABLE_ENTRY_SIZE)) 4096 in
    _ ← on_dev k (fun d => d <| d_msix ::= fun x => x <| table_bar := barnum |> <| pba_bar := barnum |> <| table_offset := 0 |>
      <| table_count := msgnum |> <| pba_offset := tab_size |> <| pba_size := PBA_SIZE msgnum |> |>);
    ok ← pci_msix_table_init k msgnum;
    if negb ok then mret (-1)
    else
      _ ← pci_emul_alloc_bar skip_workaround k barnum PCIBAR_MEM32 (tab_size + PBA_SIZE msgnum);
      pci_emul_add_capability k (pci_populate_msixcap msgnum barnum tab_size).
Definition pci_emul_free_msixcap (k : Z) : B unit := on_dev k (fun d => d <| d_msix ::= fun x => x <| msix_table := None |> |>).

(** A number of the table as an [int], and the place in it; the table is there, and the place inside. *)
Definition msix_index (offset : Z) : Z := s32 (offset / MSIX_TABLE_ENTRY_SIZE).
Definition msix_place (x : msix) (offset : Z) : outcome (list Z * nat) :=
  match msix_table x with
  | None => Stop NullDeref
  | Some t => if msix_index offset <? 0 then Stop OobAccess
              else Ret (t, Z.to_nat (msix_index offset * MSIX_TABLE_ENTRY_SIZE + offset mod MSIX_TABLE_ENTRY_SIZE))
  end.
Definition pci_emul_msix_twrite (x : msix) (offset size value : Z) : outcome (Z * msix) :=
  if negb ((size =? 4) || (size =? 8)) then Ret (-1, x)
  else if table_count x <=? msix_index offset then Ret (-1, x)
  else if negb (offset mod MSIX_TABLE_ENTRY_SIZE mod size =? 0) then Ret (-1, x)
  else '(t, at_) ← msix_place x offset; Ret (0, x <| msix_table := Some (splice t at_ (le_encode (Z.to_nat size) value)) |>).
Definition pci_valid_pba_offset (x : msix) (offset : Z) : bool :=
  negb (offset <? pba_offset x) && negb (u32 (pba_offset x + pba_size x) <=? offset).
Definition pci_emul_msix_tread (x : msix) (offset size : Z) : outcome Z :=
  let ones := 2 ^ 64 - 1 in
  if negb ((size =? 1) || (size =? 4) || (size =? 8)) then Ret ones
  else if negb (offset mod MSIX_TABLE_ENTRY_SIZE mod size =? 0) then Ret ones
  else if msix_index offset <? table_count x then
    '(t, at_) ← msix_place x offset; Ret (le_decode (take (Z.to_nat size) (drop at_ t)))
  else Ret (if pci_valid_pba_offset x offset then 0 else ones).
Definition pci_msix_table_bar (x : msix) : Z := match msix_table x with Some _ => table_bar x | None => -1 end.
Definition pci_msix_pba_bar (x : msix) : Z := match msix_table x with Some _ => pba_bar x | None => -1 end.

Definition pci_generate_msix (k index : Z) : B unit :=
  d ← the_dev k;
  let x := d_msix d in
  if negb (pci_msix_enabled d) || function_mask x || (table_count x <=? index) then mret tt
  else
    match msix_table x with
    | None => halt NullDeref
    | Some t =>
      if index <? 0 then halt OobAccess
      else
        let mte := take 16 (drop (Z.to_nat (index * MSIX_TABLE_ENTRY_SIZE)) t) in
        when (negb (has (le_decode (drop 12 mte)) PCIM_MSIX_VCTRL_MASK))
          (vm_lapic_msi (le_decode (take 8 mte)) (le_decode (take 4 (drop 8 mte))))
    end.

(** ** Interrupt pins *)

Definition pci_lintr_permitted (k : Z) : B bool :=
  cmd ← get_cfg 2 k PCIR_COMMAND;
  d ← the_dev k;
  mret (negb (msi_on (d_msi d) || msix_on (d_msix d) || has cmd PCIM_CMD_INTxDIS)).

Definition no_intx : intxinfo := mkIntx 0 0 0.
Definition intpin (p : pci) (slot pin : Z) : intxinfo := default no_intx (intpins p !! (slot, pin)).
Definition on_intpin (slot pin : Z) (f : intxinfo -> intxinfo) : B unit :=
  on_pci (fun p => p <| intpins ::= <[(slot, pin) := f (intpin p slot pin)]> |>).
Definition set_state (k : Z) (st : lintr_stat) : B unit := on_dev k (fun d => d <| d_lintr ::= fun l => l <| state := st |> |>).

(** The location without the function is the slot. *)
Definition slot_of_dev (k : Z) : Z := k / 8.

Definition pci_lintr_request (k : Z) : B unit :=
  p ← the_pci;
  if negb (bool_decide (bus_of k ∈ businfo p)) then mret tt
  else
    let slot := slot_of_dev k in
    let count pin := ii_count (intpin p slot pin) in
    let bestpin := least 1 0 (count 0) [count 1; count 2; count 3] in
    _ ← on_intpin slot bestpin (fun i => i <| ii_count ::= fun c => c + 1 |>);
    _ ← on_dev k (fun d => d <| d_lintr ::= fun l => l <| pin := bestpin + 1 |> |>);
    set_cfg 1 k PCIR_INTPIN (bestpin + 1).

(** The first of the four pins is left as it is. *)
Definition pci_lintr_release (k : Z) : B unit :=
  p ← the_pci;
  if negb (bool_decide (bus_of k ∈ businfo p)) then mret tt
  else each [1; 2; 3] (fun pin => on_intpin (slot_of_dev k) pin (fun _ => no_intx)).

Definition pci_lintr_route (k : Z) : B unit :=
  d ← the_dev k;
  if pin (d_lintr d) =? 0 then mret tt
  else
    p ← the_pci;
    if negb (bool_decide (bus_of k ∈ businfo p)) then mret tt
    else
      let slot := slot_of_dev k in
      let n := pin (d_lintr d) - 1 in
      _ ← when (ii_ioapic_irq (intpin p slot n) =? 0)
            (irq ← on_irqs ioapic_pci_alloc_irq; on_intpin slot n (fun i => i <| ii_ioapic_irq := irq |>));
      p ← the_pci;
      _ ← when (ii_pirq_pin (intpin p slot n) =? 0)
            (pirq ← on_irqs pirq_alloc_pin; on_intpin slot n (fun i => i <| ii_pirq_pin := pirq |>));
      p ← the_pci;
      let ii := intpin p slot n in
      _ ← on_dev k (fun d => d <| d_lintr ::= fun l => l <| ioapic_irq := ii_ioapic_irq ii |> <| pirq_pin := ii_pirq_pin ii |> |>);
      _ ← set_cfg 1 k PCIR_INTLINE (pirq_irq (ii_pirq_pin ii) (irqs p));
      on_irqs (modify (vm_set_gsi_irq (ii_ioapic_irq ii) GSI_SET_HIGH)).

Definition set_line (k level : Z) : B unit := d ← the_dev k; on_irqs (modify (vm_set_gsi_irq (ioapic_irq (d_lintr d)) level)).
Definition pci_irq_assert (k : Z) : B unit := set_line k GSI_SET_LOW.
Definition pci_irq_deassert (k : Z) : B unit := set_line k GSI_SET_HIGH.

Definition pci_lintr_assert (k : Z) : B unit :=
  d ← the_dev k;
  if pin (d_lintr d) <=? 0 then mret tt
  else
    match state (d_lintr d) with
    | IDLE =>
      permitted ← pci_lintr_permitted k;
      if permitted : bool then _ ← set_state k ASSERTED; pci_irq_assert k else set_state k PENDING
    | _ => mret tt
    end.
Definition pci_lintr_deassert (k : Z) : B unit :=
  d ← the_dev k;
  if pin (d_lintr d) <=? 0 then mret tt
  else
    match state (d_lintr d) with
    | ASSERTED => _ ← set_state k IDLE; pci_irq_deassert k
    | PENDING => set_state k IDLE
    | IDLE => mret tt
    end.
Definition pci_lintr_update (k : Z) : B unit :=
  d ← the_dev k;
  permitted ← pci_lintr_permitted k;
  match state (d_lintr d) with
  | ASSERTED => when (negb permitted) (_ ← pci_irq_deassert k; set_state k PENDING)
  | PENDING => when permitted (_ ← set_state k ASSERTED; pci_irq_assert k)
  | IDLE => mret tt
  end.

(** ** Writes to capabilities *)

(** The writable bits of [val] into the register at [offset]. *)
Definition masked_write (k offset val rwmask : Z) : B Z :=
  msgctrl ← get_cfg 2 k offset; mret (Z.lor (clear_bits 16 msgctrl rwmask) (Z.land val rwmask)).

Definition msixcap_cfgwrite (k capoff offset bytes val : Z) : B unit :=
  val ← (if (offset - capoff =? 2) && (bytes =? 2) then
           val ← masked_write k offset val (Z.lor PCIM_MSIXCTRL_MSIX_ENABLE PCIM_MSIXCTRL_FUNCTION_MASK);
           _ ← on_dev k (fun d => d <| d_msix ::= fun x => x <| msix_on := has val PCIM_MSIXCTRL_MSIX_ENABLE |>
                                                            <| function_mask := has val PCIM_MSIXCTRL_FUNCTION_MASK |> |>);
           _ ← pci_lintr_update k;
           mret val
         else mret val);
  CFGWRITE k offset val bytes.

(** What the message control register says is taken over. *)
Definition msi_take (k capoff msgctrl : Z) : B unit :=
  addrlo ← get_cfg 4 k (capoff + 4);
  msgdata ← get_cfg 2 k (capoff + (if has msgctrl PCIM_MSICTRL_64BIT then 12 else 8));
  let mme := Z.land msgctrl PCIM_MSICTRL_MME_MASK in
  let on := has msgctrl PCIM_MSICTRL_MSI_ENABLE in
  on_dev k (fun d => d <| d_msi ::= fun m =>
    if on then mkMsi true addrlo msgdata (Z.shiftl 1 (Z.shiftr mme 4)) else m <| msi_on := false |> <| maxmsgnum := 0 |> |>).

Definition msicap_cfgwrite (k capoff offset bytes val : Z) : B unit :=
  val ← (if (offset - capoff =? 2) && (bytes =? 2) then
           msgctrl ← masked_write k offset val (Z.lor PCIM_MSICTRL_MME_MASK PCIM_MSICTRL_MSI_ENABLE);
           _ ← msi_take k capoff msgctrl;
           _ ← pci_lintr_update k;
           mret msgctrl
         else mret val);
  _ ← CFGWRITE k offset val bytes;
  d ← the_dev k;
  when (msi_on (d_msi d)) (each (upto (maxmsgnum (d_msi d))) (fun i =>
    masked ← pci_is_msi_masked k i;
    if masked : bool then mret tt
    else pending ← pci_is_msi_pending k i; when pending (pci_generate_msi k i))).

Definition pciecap_cfgwrite (k capoff offset bytes val : Z) : B unit := CFGWRITE k offset val bytes.

(** [struct pciecap]. *)
Definition pci_emul_add_pciecap (k type : Z) : B Z :=
  if negb (type =? PCIEM_TYPE_ROOT_PORT) then mret (-1)
  else pci_emul_add_capability k
    (PCIY_EXPRESS :: 0 :: le_encode 2 (Z.lor PCIECAP_VERSION PCIEM_TYPE_ROOT_PORT) ++ replicate 8 0 ++
     le_encode 4 0x411 ++ replicate 2 0 ++ le_encode 2 0x11 ++ replicate 40 0).

Fixpoint owning_cap (fuel : nat) (k offset capoff : Z) : B Z :=
  match fuel with
  | O => halt OutOfFuel
  | S fuel =>
    nextoff ← get_cfg 1 k (capoff + 1);
    if (nextoff =? 0) || (capoff <=? offset) && (offset <? nextoff) then mret capoff else owning_cap fuel k offset nextoff
  end.

Definition cap_dispatch (k capoff offset bytes val : Z) : B unit :=
  capid ← get_cfg 1 k capoff;
  if capid =? PCIY_MSI then msicap_cfgwrite k capoff offset bytes val
  else if capid =? PCIY_MSIX then msixcap_cfgwrite k capoff offset bytes val
  else if capid =? PCIY_EXPRESS then pciecap_cfgwrite k capoff offset bytes val
  else CFGWRITE k offset val bytes.

Definition pci_emul_capwrite (k offset bytes val : Z) : B unit :=
  if negb (Z.land offset (bytes - 1) =? 0) then mret tt
  else
    capoff ← owning_cap cap_fuel k offset CAP_START_OFFSET;
    if (offset =? capoff) || (offset =? capoff + 1) then
      if (offset =? capoff) && (bytes =? 4) then cap_dispatch k capoff (offset + 2) 2 (Z.shiftr val 16) else mret tt
    else cap_dispatch k capoff offset bytes val.

Definition pci_emul_iscap (k offset : Z) : B bool :=
  sts ← get_cfg 2 k PCIR_STATUS;
  d ← the_dev k;
  mret (has sts PCIM_STATUS_CAPPRESENT && (CAP_START_OFFSET <=? offset) && (offset <=? capend d)).

(** ** Command and status *)

Definition cmdsts_bar (k changed i : Z) : B unit :=
  b ← the_bar k i;
  match b_type b with
  | PCIBAR_IO =>
    when (has changed PCIM_CMD_PORTEN) (on ← porten k; if on : bool then _ ← register_bar k i; mret tt else unregister_bar k i)
  | PCIBAR_MEM32 | PCIBAR_MEM64 =>
    when (has changed PCIM_CMD_MEMEN) (on ← memen k; if on : bool then _ ← register_bar k i; mret tt else unregister_bar k i)
  | _ => mret tt
  end.
(** A BAR of another type ends the operation. *)
Fixpoint cmdsts_bars (k changed : Z) (l : list Z) : B bool :=
  match l with
  | [] => mret true
  | i :: l =>
    b ← the_bar k i;
    if bool_decide (b_type b = PCIBAR_ROM) then mret false else _ ← cmdsts_bar k changed i; cmdsts_bars k changed l
  end.

Definition pci_emul_cmdsts_write (k coff new bytes : Z) : B unit :=
  cmd ← get_cfg 2 k PCIR_COMMAND;
  let readonly := Z.shiftr 0xFFFFF880 (Z.land coff 3 * 8) in
  old ← CFGREAD k coff bytes;
  _ ← CFGWRITE k coff (Z.lor (clear_bits 32 new readonly) (Z.land old readonly)) bytes;
  cmd2 ← get_cfg 2 k PCIR_COMMAND;
  all ← cmdsts_bars k (Z.lxor cmd cmd2) (upto (PCI_BARMAX + 1));
  when all (pci_lintr_update k).

(** ** Configuration accesses *)

Definition pci_emul_is_mfdev (p : pci) (bus slot : Z) : bool :=
  bool_decide (bus ∈ businfo p) &&
  (1 <? length (filter (fun f => bdf bus slot f ∈ fi_devi p) (upto 8)))%nat.
Definition pci_emul_hdrtype_fixup (p : pci) (bus slot off bytes rv : Z) : Z :=
  if (off <=? PCIR_HDRTYPE) && (PCIR_HDRTYPE <? off + bytes) then
    let fix_up bit := let rv := clear_bits 32 rv bit in if pci_emul_is_mfdev p bus slot then Z.lor rv bit else rv in
    switch bytes [([1; 2], fix_up PCIM_MFDEV); ([4], fix_up (Z.shiftl PCIM_MFDEV 16))] rv
  else rv.

(** Whether the write sizes a BAR that is decoded, or ends that, and the flag. *)
Definition sizing_step (decode was : bool) (eax : Z) : bool * bool :=
  if decode then
    if negb was && (eax =? 0xffffffff) then (true, true)
    else if was && negb (eax =? 0xffffffff) then (true, false)
    else (false, was)
  else (false, was).

Definition bar_mask (b : pcibar) : Z := u64 (Z.lnot (b_size b - 1)).

Definition write_bar (k idx eax : Z) : B unit :=
  b ← the_bar k idx;
  decode ← decoding k (b_type b);
  let '(ignore_reg_unreg, sz) := sizing_step decode (sizing b) eax in
  _ ← on_bar k idx (fun b => b <| sizing := sz |>);
  old ← get_cfg 4 k (PCIR_BAR idx);
  let mmio_bar_prop := Z.land old (Z.lor (Z.lor PCIM_BAR_SPACE PCIM_BAR_MEM_TYPE) PCIM_BAR_MEM_PREFETCH) in
  match b_type b with
  | PCIBAR_NONE => _ ← on_bar k idx (fun b => b <| b_addr := 0 |>); set_cfg 4 k (PCIR_BAR idx) 0
  | PCIBAR_IO =>
    let addr := Z.land (Z.land eax (bar_mask b)) 0xffff in
    _ ← when (negb (addr =? b_addr b)) (update_bar_address k addr idx PCIBAR_IO ignore_reg_unreg);
    set_cfg 4 k (PCIR_BAR idx) (Z.lor addr PCIM_BAR_IO_SPACE)
  | PCIBAR_MEM32 =>
    let addr := Z.land eax (bar_mask b) in
    _ ← when (negb (addr =? b_addr b)) (update_bar_address k addr idx PCIBAR_MEM32 ignore_reg_unreg);
    set_cfg 4 k (PCIR_BAR idx) (Z.lor addr mmio_bar_prop)
  | PCIBAR_MEM64 =>
    let addr := Z.land eax (bar_mask b) in
    _ ← when (negb (addr =? u32 (b_addr b))) (update_bar_address k addr idx PCIBAR_MEM64 ignore_reg_unreg);
    set_cfg 4 k (PCIR_BAR idx) (Z.lor addr mmio_bar_prop)
  | PCIBAR_MEMHI64 =>
    low ← the_bar k (idx - 1);
    let addr := Z.land (Z.shiftl eax 32) (bar_mask low) in
    let val := Z.shiftr addr 32 in
    _ ← when (negb (val =? Z.shiftr (b_addr low) 32)) (update_bar_address k addr (idx - 1) PCIBAR_MEMHI64 ignore_reg_unreg);
    set_cfg 4 k (PCIR_BAR idx) val
  | PCIBAR_ROM => mret tt
  end.

(** The default handling of a write. *)
Definition write_config (k coff bytes eax : Z) : B unit :=
  if (PCIR_BAR 0 <=? coff) && (coff <? PCIR_BAR (PCI_BARMAX + 1)) then
    if negb (bytes =? 4) || negb (Z.land coff 3 =? 0) then mret tt else write_bar k ((coff - PCIR_BAR 0) / 4) eax
  else if coff =? PCIR_BIOS then mret tt
  else
    iscap ← pci_emul_iscap k coff;
    if iscap : bool then pci_emul_capwrite k coff bytes eax
    else if (PCIR_COMMAND <=? coff) && (coff <? PCIR_REVID) then pci_emul_cmdsts_write k coff eax bytes
    else CFGWRITE k coff eax bytes.

(** Whether there is a device. *)
Definition located (bus slot func : Z) : B bool :=
  if (bus <? 0) || (PCI_BUSMAX <? bus) then halt OobAccess
  else
    p ← the_pci;
    if negb (bool_decide (bus ∈ businfo p)) then mret false
    else if (slot <? 0) || (PCI_SLOTMAX <? slot) || (func <? 0) || (PCI_FUNCMAX <? func) then halt OobAccess
    else mret (bool_decide (bdf bus slot func ∈ fi_devi p)).

(** The value of the access when it is over. *)
Definition pci_cfgrw (inp : bool) (bus slot func coff bytes eax : Z) : B Z :=
  dev ← located bus slot func;
  let k := bdf bus slot func in
  if negb dev || negb ((bytes =? 1) || (bytes =? 2) || (bytes =? 4)) || negb (Z.land coff (bytes - 1) =? 0)
  then mret (if inp then 0xffffffff else eax)
  else if negb (String.eqb "passthru" (class_name (dev_ops k))) && (PCI_REGMAX + 1 <=? coff) then
    mret (if inp then if coff <=? PCI_REGMAX + 4 then 0 else 0xffffffff else eax)
  else if inp then
    '(needcfg, eax) ← (match vdev_cfgread (dev_ops k) with Some f => f k coff bytes eax | None => mret (1, eax) end);
    eax ← (if needcfg =? 0 then mret eax else CFGREAD k coff bytes);
    p ← the_pci;
    mret (pci_emul_hdrtype_fixup p bus slot coff bytes eax)
  else
    mine ← (match vdev_cfgwrite (dev_ops k) with Some f => r ← f k coff bytes eax; mret (r =? 0) | None => mret false end);
    _ ← when (negb mine) (write_config k coff bytes eax);
    mret eax.

Definition emulate_pci_cfgrw (inp : bool) (bus slot func reg bytes value : Z) : B Z := pci_cfgrw inp bus slot func reg bytes value.

(** The result and the value of the request, of which the low half is passed on. *)
Definition pci_emul_ecfg_handler (dir addr bytes val : Z) : B (Z * Z) :=
  let coff := Z.land addr 0xfff in
  let func := Z.land (Z.shiftr addr 12) 0x7 in
  let slot := Z.land (Z.shiftr addr 15) 0x1f in
  let bus := Z.land (Z.shiftr addr 20) 0xff in
  let inp := dir =? MEM_F_READ in
  let val := if inp then 2 ^ 64 - 1 else val in
  eax ← pci_cfgrw inp bus slot func coff bytes (u32 val);
  mret (0, Z.lor (Z.land val (2 ^ 64 - 2 ^ 32)) eax).

(** ** Accesses to BARs *)

Definition bar_value (size val : Z) : outcome Z :=
  _ ← assert_or ProcessExit ((size =? 1) || (size =? 2) || (size =? 4) || (size =? 8));
  Ret (Z.land val (if size <? 8 then 2 ^ (size * 8) - 1 else 2 ^ 64 - 1)).

(** The handlers work on the devices. *)
Definition dev_of (k : Z) : M pci pci_vdev := p ← get; match devs p !! k with Some d => mret d | None => halt UseAfterFree end.
Definition barread (k idx offset size : Z) : M pci Z := vdev_barread (dev_ops k) k idx offset size.
Definition barwrite (k idx offset size value : Z) : M pci unit := vdev_barwrite (dev_ops k) k idx offset size value.

Definition pci_emul_mem_handler (dir addr size val arg1 arg2 : Z) : M pci (Z * Z) :=
  d ← dev_of arg1;
  let bidx := s32 arg2 in
  match nthZ (bar d) bidx with
  | None => halt OobAccess
  | Some b =>
    if u64 (b_addr b + b_size b) <? u64 (addr + size) then mret (- ESRCH, val)
    else
      let offset := u64 (addr - b_addr b) in
      if dir =? MEM_F_WRITE then
        if size =? 8 then
          _ ← barwrite arg1 bidx offset 4 (Z.land val 0xffffffff);
          _ ← barwrite arg1 bidx (u64 (offset + 4)) 4 (Z.shiftr val 32);
          mret (0, val)
        else
          v ← lift (bar_value size val);
          _ ← barwrite arg1 bidx offset size v;
          mret (0, val)
      else if size =? 8 then
        lo ← barread arg1 bidx offset 4;
        lo ← lift (bar_value 4 lo);
        hi ← barread arg1 bidx (u64 (offset + 4)) 4;
        mret (0, Z.lor lo (u64 (Z.shiftl hi 32)))
      else
        v ← barread arg1 bidx offset size;
        v ← lift (bar_value size v);
        mret (0, v)
  end.

(** The first BAR of a device that has the ports. *)
Definition io_bar (port bytes : Z) (bars : list pcibar) : option (nat * pcibar) :=
  list_find (fun b => b_type b = PCIBAR_IO /\ b_addr b <= port /\ port + bytes <= b_addr b + b_size b) bars.
Definition pci_emul_io_handler (inp : bool) (port bytes eax arg : Z) : M pci (Z * Z) :=
  d ← dev_of arg;
  match io_bar port bytes (take 6 (bar d)) with
  | None => mret (-1, eax)
  | Some (i, b) =>
    let offset := port - b_addr b in
    if inp then
      v ← barread arg (Z.of_nat i) offset bytes;
      v ← lift (bar_value bytes (u32 v));
      mret (0, v)
    else
      v ← lift (bar_value bytes eax);
      _ ← barwrite arg (Z.of_nat i) offset bytes v;
      mret (0, eax)
  end.

Definition pci_emul_fallback_handler (dir val : Z) : Z * Z := (0, if dir =? MEM_F_READ then 2 ^ 64 - 1 else val).

#[export] Instance pci_ports : PortDevice pci := fun n inp port bytes eax arg =>
  if (n =? fn_pci_emul_io_handler)%nat then pci_emul_io_handler inp port bytes eax arg else halt NullDeref.

(** ** A device comes and goes *)

Definition device_name (cls : string) (slot : Z) : string := String.substring 0 39 (cls +:+ "-pci-" +:+ pretty slot).
Definition pci_emul_init (k : Z) : B Z :=
  p ← the_pci;
  _ ← on_pci (fun p => p <| mallocs ::= S |>);
  if negb (malloc (mallocs p)) then mret (-1)
  else
    _ ← set_dev k (zero_vdev (device_name (class_name (dev_ops k)) (slot_no k)));
    _ ← set_cfg 1 k PCIR_INTLINE 255;
    _ ← set_cfg 1 k PCIR_INTPIN 0;
    _ ← set_cfg 1 k PCIR_COMMAND (Z.lor (Z.lor PCIM_CMD_PORTEN PCIM_CMD_MEMEN) PCIM_CMD_BUSHOSTEN);
    err ← vdev_init (dev_ops k) k;
    _ ← (if err =? 0 then on_pci (fun p => p <| fi_devi ::= fun l => {[k]} ∪ l |>) else on_pci (fun p => p <| devs ::= delete k |>));
    mret err.

(** The location keeps its pointer to the device. *)
Definition pci_emul_deinit (k : Z) : B unit :=
  p ← the_pci;
  let linked := bool_decide (k ∈ fi_devi p) in
  _ ← (match vdev_deinit (dev_ops k) with Some f => when linked (f k) | None => mret tt end);
  when linked (
    _ ← pci_lintr_release k;
    _ ← pci_emul_free_bars k;
    _ ← pci_emul_free_msixcap k;
    on_pci (fun p => p <| devs ::= delete k |>)).
End PciCore.
Arguments pci : clear implicits.
Arguments machine : clear implicits.
Arguments vdev_ops : clear implicits.
