(* ===== verification/PciCfg.v ===== *)
(** * Configuration space, bit by bit

    What the accessors of PciConfig.v read and leave, as bytes and as bits, and the
    capability list in it. *)
From S2P Require Import Prelude PciConfig PciCore.

(** ** Bytes and bits *)

Definition cfg_ok (c : list Z) : Prop := length c = 256%nat /\ bytes_ok c.
Definition byte (c : list Z) (o : Z) : Z := default 0 (nthZ c o).
(** Bit [i] of the space. *)
Definition cbit (c : list Z) (i : Z) : bool := Z.testbit (byte c (i / 8)) (i mod 8).

(** An access that is not refused. *)
Definition aligned (n : nat) (off : Z) : Prop :=
  (n = 1 \/ n = 2 \/ n = 4)%nat /\ 0 <= off /\ off + Z.of_nat n <= 256 /\ off mod Z.of_nat n = 0.

Lemma land_align off n : (n = 1 \/ n = 2 \/ n = 4)%nat -> Z.land off (Z.of_nat n - 1) = off mod Z.of_nat n.
Proof. intros [-> | [-> | ->]]; [apply (Z.land_ones off 0)|apply (Z.land_ones off 1)|apply (Z.land_ones off 2)]; lia. Qed.

Lemma aligned_accepted n off : aligned n off -> rejected (Z.of_nat n) off = false.
Proof.
  intros (Hn & H0 & H1 & Hm). unfold rejected, PCI_REGMAX. apply orb_false_iff. split; [apply Z.ltb_ge; lia|].
  apply negb_false_iff, Z.eqb_eq. by rewrite land_align.
Qed.

Lemma byte_lookup c o : 0 <= o -> byte c o = default 0 (c !! Z.to_nat o).
Proof. intros H. unfold byte. by rewrite nthZ_lookup. Qed.

Lemma byte_fits c o : cfg_ok c -> fits 8 (byte c o).
Proof.
  assert (H8 : fits 8 0) by (split; [lia|reflexivity]).
  intros [_ Hb]. unfold byte, nthZ. destruct (0 <=? o); [|exact H8]. destruct (c !! Z.to_nat o) as [b|] eqn:E; [|exact H8]. cbn [default].
  unfold bytes_ok in Hb. rewrite Forall_forall in Hb. apply Hb. by eapply list_elem_of_lookup_2.
Qed.

Lemma testbit_decode bs : bytes_ok bs -> forall j, 0 <= j -> Z.testbit (le_decode bs) j = Z.testbit (default 0 (bs !! Z.to_nat (j / 8))) (j mod 8).
Proof.
  induction 1 as [|b bs Hb _ IH]; intros j Hj; cbn [le_decode]; [by rewrite lookup_nil; cbn [default]; rewrite !Z.bits_0|].
  assert (E : b + 256 * le_decode bs = Z.lor b (Z.shiftl (le_decode bs) 8)).
  { assert (Hz : Z.land b (Z.shiftl (le_decode bs) 8) = 0).
    { apply Z.bits_inj'. intros i Hi. rewrite Z.land_spec, Z.bits_0, Z.shiftl_spec by done.
      destruct (Z.lt_ge_cases i 8); [rewrite (Z.testbit_neg_r _ (i - 8)) by lia; apply andb_false_r|]. by rewrite (testbit_fits 8 b). }
    pose proof (Z.add_lor_land b (Z.shiftl (le_decode bs) 8)) as Ha. rewrite Hz, Z.add_0_r in Ha. rewrite Ha, Z.shiftl_mul_pow2 by lia.
    change (2 ^ 8) with 256. lia. }
  rewrite E, Z.lor_spec, Z.shiftl_spec by done. destruct (Z.lt_ge_cases j 8).
  - rewrite (Z.testbit_neg_r _ (j - 8)) by lia. rewrite orb_false_r, Z.div_small, Z.mod_small by lia. done.
  - rewrite (testbit_fits 8 b) by done. rewrite IH by lia. cbn [orb].
    replace j with ((j - 8) + 1 * 8) at 4 by lia. rewrite Z.mod_add by lia.
    replace (Z.to_nat (j / 8)) with (S (Z.to_nat ((j - 8) / 8))); [done|].
    replace (j / 8) with ((j - 8) / 8 + 1); [pose proof (Z.div_pos (j - 8) 8); lia|].
    rewrite <- Z.div_add by lia. f_equal. lia.
Qed.

(** Reading. *)
Lemma get_run n off c : cfg_ok c -> aligned n off -> exists v, pci_get_cfgdata n off c = Ret v /\ fits (8 * Z.of_nat n) v /\
  forall j, 0 <= j < 8 * Z.of_nat n -> Z.testbit v j = cbit c (8 * off + j).
Proof.
  intros [Hl Hb] Ha. pose proof Ha as (Hn & H0 & H1 & _). unfold pci_get_cfgdata.
  rewrite (aligned_accepted n off Ha), (proj2 (Z.ltb_ge off 0)) by done. eexists. split; [reflexivity|].
  set (bs := take n (drop (Z.to_nat off) c)). assert (Hlb : length bs = n) by (unfold bs; rewrite length_take, length_drop; lia).
  assert (Hbb : bytes_ok bs) by (apply Forall_take, Forall_drop, Hb). split.
  { unfold fits. rewrite <- Hlb. by apply le_decode_bound. }
  intros j Hj. rewrite testbit_decode by (done || lia). unfold cbit.
  replace (8 * off + j) with (j + off * 8) by lia. rewrite Z.div_add, Z.mod_add by lia. f_equal.
  pose proof (Z.div_pos j 8). rewrite byte_lookup by lia. unfold bs. rewrite lookup_take_lt, lookup_drop.
  - do 2 f_equal. lia.
  - assert (j / 8 < Z.of_nat n) by (apply Z.div_lt_upper_bound; lia). lia.
Qed.

Lemma get_byte o c : cfg_ok c -> 0 <= o < 256 -> pci_get_cfgdata 1 o c = Ret (byte c o).
Proof.
  intros Hc Ho. assert (Ha : aligned 1 o) by (repeat split; [by left|lia..|apply Z.mod_1_r]).
  unfold pci_get_cfgdata. rewrite (aligned_accepted 1 o Ha), (proj2 (Z.ltb_ge o 0)) by lia. f_equal.
  destruct Hc as [Hl _]. rewrite byte_lookup by lia. destruct (lookup_lt_is_Some_2 c (Z.to_nat o)) as [b Eb]; [lia|].
  rewrite Eb. rewrite <- (take_drop_middle _ _ _ Eb) at 1. rewrite drop_app_length' by (rewrite length_take; lia). change (take 1 (b :: drop (S (Z.to_nat o)) c)) with [b]. cbn [le_decode default].
  unfold id. lia.
Qed.

Lemma testbit_encode n : forall v j, 0 <= j < 8 * Z.of_nat n ->
  Z.testbit (default 0 (le_encode n v !! Z.to_nat (j / 8))) (j mod 8) = Z.testbit v j.
Proof.
  induction n as [|n IH]; intros v j Hj; [lia|]. cbn [le_encode]. destruct (Z.lt_ge_cases j 8).
  - rewrite (Z.div_small j), (Z.mod_small j) by lia. change (Z.to_nat 0) with 0%nat. cbn [lookup list_lookup default]. change 256 with (2 ^ 8).
    by apply Z.mod_pow2_bits_low.
  - specialize (IH (v / 256) (j - 8) ltac:(lia)). change 256 with (2 ^ 8) in IH at 2. rewrite Z.div_pow2_bits in IH by lia.
    replace (j - 8 + 8) with j in IH by lia. rewrite <- IH. pose proof (Z.div_pos (j - 8) 8).
    replace (j / 8) with ((j - 8) / 8 + 1) by (Z.div_mod_to_equations; lia).
    replace (j mod 8) with ((j - 8) mod 8) by (Z.div_mod_to_equations; lia).
    by replace (Z.to_nat ((j - 8) / 8 + 1)) with (S (Z.to_nat ((j - 8) / 8))) by lia.
Qed.

(** Writing. *)
Definition store (n : nat) (off val : Z) (c : list Z) : list Z := splice c (Z.to_nat off) (le_encode n val).
Lemma set_run n off val c : cfg_ok c -> aligned n off ->
  pci_set_cfgdata n off val c = Ret (store n off val c) /\ cfg_ok (store n off val c).
Proof.
  intros [Hl Hb] Ha. pose proof Ha as (_ & H0 & _). destruct (set_accepted n off val c Hl H0 (aligned_accepted n off Ha)) as [E L].
  split; [exact E|]. split; [exact L|]. unfold store, splice, bytes_ok. rewrite !Forall_app.
  split; [by apply Forall_take|split; [apply le_encode_bytes_ok|by apply Forall_drop]].
Qed.
Lemma set_refused n off val c : (n = 1 \/ n = 2 \/ n = 4)%nat -> 256 <= off -> pci_set_cfgdata n off val c = Ret c.
Proof.
  intros Hn Ho. unfold pci_set_cfgdata. assert (rejected (Z.of_nat n) off = true) as ->; [|done].
  unfold rejected, PCI_REGMAX. apply orb_true_iff. left. apply Z.ltb_lt. lia.
Qed.

Lemma byte_store n off val c o : cfg_ok c -> aligned n off -> 0 <= o ->
  byte (store n off val c) o = if (off <=? o) && (o <? off + Z.of_nat n) then default 0 (le_encode n val !! Z.to_nat (o - off)) else byte c o.
Proof.
  intros [Hl _] (_ & H0 & H1 & _) Ho. rewrite !byte_lookup by done. unfold store.
  rewrite splice_lookup by (rewrite length_le_encode; lia). rewrite length_le_encode.
  destruct (Z.leb_spec off o), (Z.ltb_spec o (off + Z.of_nat n)); cbn [andb].
  - rewrite decide_True by lia. do 2 f_equal. lia.
  - by rewrite decide_False by lia.
  - by rewrite decide_False by lia.
  - by rewrite decide_False by lia.
Qed.

Lemma byte_store_out n off val c o : cfg_ok c -> aligned n off -> 0 <= o -> o < off \/ off + Z.of_nat n <= o ->
  byte (store n off val c) o = byte c o.
Proof.
  intros Hc Ha H0 Ho. rewrite byte_store by done. destruct (Z.leb_spec off o), (Z.ltb_spec o (off + Z.of_nat n)); cbn [andb]; (done || lia).
Qed.

Lemma cbit_store n off val c i : cfg_ok c -> aligned n off -> 0 <= i ->
  cbit (store n off val c) i = if (8 * off <=? i) && (i <? 8 * (off + Z.of_nat n)) then Z.testbit val (i - 8 * off) else cbit c i.
Proof.
  intros Hc Ha Hi. pose proof Ha as (_ & H0 & H1 & _). unfold cbit. pose proof (Z.div_pos i 8). rewrite byte_store by (done || lia).
  assert (E1 : (off <=? i / 8) = (8 * off <=? i)).
  { destruct (Z.leb_spec (8 * off) i); [apply Z.leb_le|apply Z.leb_gt]; Z.div_mod_to_equations; lia. }
  assert (E2 : (i / 8 <? off + Z.of_nat n) = (i <? 8 * (off + Z.of_nat n))).
  { destruct (Z.ltb_spec i (8 * (off + Z.of_nat n))); [apply Z.ltb_lt|apply Z.ltb_ge]; Z.div_mod_to_equations; lia. }
  rewrite E1, E2. destruct (Z.leb_spec (8 * off) i), (Z.ltb_spec i (8 * (off + Z.of_nat n))); cbn [andb]; try done.
  rewrite <- (testbit_encode n val (i - 8 * off)) by lia.
  replace (i - 8 * off) with (i + (- off) * 8) by lia. by rewrite Z.div_add, Z.mod_add by lia.
Qed.

(** A single bit of a register. *)
Lemma has_pow2 x b : 0 <= b -> has x (2 ^ b) = Z.testbit x b.
Proof.
  intros Hb. unfold has, z2b. destruct (Z.testbit x b) eqn:E.
  - apply negb_true_iff, Z.eqb_neq. intros Hz. assert (H : Z.testbit (Z.land x (2 ^ b)) b = true).
    { by rewrite Z.land_spec, E, Z.pow2_bits_true. } by rewrite Hz, Z.bits_0 in H.
  - apply negb_false_iff, Z.eqb_eq. apply Z.bits_inj'. intros i Hi. rewrite Z.land_spec, Z.bits_0.
    destruct (Z.eq_dec i b) as [-> |Hne]; [by rewrite E|]. by rewrite Z.pow2_bits_false, andb_false_r by lia.
Qed.

(** ** The capability list *)

(** A capability: where it starts, and what it is. *)
Definition cap := (Z * Z)%type.
Definition next_of (c : list Z) (o : Z) : Z := byte c (o + 1).

(** It is there and ends before [e]; the one of MSI has its 24 bytes. *)
Record cap_fits (c : list Z) (p : cap) (e : Z) : Prop := {
  cf_start : 0x40 <= p.1; cf_align : p.1 mod 4 = 0; cf_room : p.1 + 4 <= e; cf_id : byte c p.1 = p.2;
  cf_msi : p.2 = PCIY_MSI -> p.1 + 24 <= e
}.

(** The capabilities from the first of [l] on, each pointing to the next, up to [e]. *)
Fixpoint chain (c : list Z) (e : Z) (l : list cap) : Prop :=
  match l with
  | [] => False
  | p :: l =>
    match l with
    | [] => cap_fits c p e /\ next_of c p.1 = 0
    | q :: _ => cap_fits c p q.1 /\ next_of c p.1 = q.1 /\ chain c e l
    end
  end.

Lemma chain_cons c e p q l : chain c e (p :: q :: l) <-> cap_fits c p q.1 /\ next_of c p.1 = q.1 /\ chain c e (q :: l).
Proof. done. Qed.

Lemma chain_bounds c e l : chain c e l -> Forall (fun p => 0x40 <= p.1 /\ p.1 mod 4 = 0 /\ p.1 + 4 <= e /\ byte c p.1 = p.2 /\
  (p.2 = PCIY_MSI -> p.1 + 24 <= e)) l.
Proof.
  induction l as [|p l IH]; [done|]. destruct l as [|q l].
  - intros [[] _]. repeat constructor; assumption.
  - rewrite chain_cons. intros ([] & _ & Hc). specialize (IH Hc). constructor; [|done].
    inversion IH as [|? ? (_ & _ & ? & _)]; subst. split_and!; try done; [lia|]. intros E. specialize (cf_msi0 E). lia.
Qed.

(** The starts go up. *)
Lemma chain_after c e p l : chain c e (p :: l) -> Forall (fun q => p.1 + 4 <= q.1 /\ (p.2 = PCIY_MSI -> p.1 + 24 <= q.1)) l.
Proof.
  revert p. induction l as [|q l IH]; intros p; [constructor|]. rewrite chain_cons. intros ([] & _ & Hc). constructor; [done|].
  eapply Forall_impl; [by apply IH|]. intros r [Hr _]. cbn beta. split; [lia|]. intros E. specialize (cf_msi0 E). lia.
Qed.

(** It depends on the first two bytes of each. *)
Lemma chain_agree c c' e l : chain c e l -> (forall p, p ∈ l -> byte c' p.1 = byte c p.1 /\ next_of c' p.1 = next_of c p.1) -> chain c' e l.
Proof.
  intros Hc Ha. assert (Hf : forall p x, p ∈ l -> cap_fits c p x -> cap_fits c' p x).
  { intros p x Hp []. destruct (Ha p Hp) as [E _]. split; try done. congruence. }
  induction l as [|p l IH]; [done|]. destruct l as [|q l].
  - destruct Hc as [H1 H2]. split; [apply Hf; [left|done]|]. destruct (Ha p) as [_ ->]; [left|done].
  - rewrite chain_cons in *. destruct Hc as (H1 & H2 & H3). split; [apply Hf; [left|done]|].
    split; [destruct (Ha p) as [_ ->]; [left|done]|]. apply IH; [done| |]; intros r; [|intros x]; intros Hr; [apply Ha|apply Hf]; by right.
Qed.

(** A write of [n] bytes at [off] clears the headers. *)
Definition off_headers (n : nat) (off : Z) (l : list cap) : Prop := Forall (fun p => off + Z.of_nat n <= p.1 \/ p.1 + 2 <= off) l.

Lemma chain_store n off val c e l : cfg_ok c -> aligned n off -> chain c e l -> off_headers n off l -> chain (store n off val c) e l.
Proof.
  intros Hc Ha Hch Ho. apply (chain_agree c); [done|]. pose proof (chain_bounds c e l Hch) as Hb. unfold off_headers in Ho. rewrite Forall_forall in Ho, Hb.
  intros p Hp. destruct (Hb p Hp) as (H1 & _). specialize (Ho p Hp). unfold next_of. split; apply byte_store_out; (done || lia).
Qed.
