(* ===== verification/PciCoreSpec.v ===== *)
(** * What configuration accesses keep

    The invariant of a device under every access of a guest that leaves the pointer to the
    capabilities alone and asks for no reserved number of messages, and the level of its
    interrupt line. *)
From S2P Require Import Prelude RbTree RbTreeSpec Mmio MmioSpec Inout PciConfig PciIrq PciCore PciCfg.

(** ** Devices *)

(** The low [n] bits are clear. *)
Definition low_clear (n a : Z) : Prop := forall j, 0 <= j < n -> Z.testbit a j = false.

(** A BAR as it is allocated and moved: a power of two, aligned. *)
Definition bar_in (lo w : Z) (b : pcibar) : Prop :=
  exists n, lo <= n <= w /\ b_size b = 2 ^ n /\ fits w (b_addr b) /\ low_clear n (b_addr b).
Definition bar_ok (b : pcibar) : Prop :=
  match b_type b with
  | PCIBAR_NONE | PCIBAR_MEMHI64 => True
  | PCIBAR_IO => bar_in 2 16 b
  | PCIBAR_MEM32 => bar_in 4 32 b
  | PCIBAR_MEM64 => bar_in 4 64 b
  | PCIBAR_ROM => False
  end.

(** Bit [j] of the register of BAR [i]. *)
Definition reg_bit (c : list Z) (i j : Z) : bool := cbit c (8 * PCIR_BAR i + j).

(** The register shows the address that is decoded, and the kind of space. *)
Definition mirrored (c : list Z) (bars : list pcibar) (i : Z) (b : pcibar) : Prop :=
  match b_type b with
  | PCIBAR_IO => reg_bit c i 0 = true /\ reg_bit c i 1 = false /\ forall j, 2 <= j < 32 -> reg_bit c i j = Z.testbit (b_addr b) j
  | PCIBAR_MEM32 | PCIBAR_MEM64 => reg_bit c i 0 = false /\ forall j, 4 <= j < 32 -> reg_bit c i j = Z.testbit (b_addr b) j
  | PCIBAR_MEMHI64 => exists lo, nthZ bars (i - 1) = Some lo /\ b_type lo = PCIBAR_MEM64 /\
      forall j, 0 <= j < 32 -> reg_bit c i j = Z.testbit (b_addr lo) (32 + j)
  | _ => True
  end.

Definition CAPPRESENT_BIT := 8 * PCIR_STATUS + 4.
Definition INTxDIS_BIT := 8 * PCIR_COMMAND + 10.

(** The capabilities [l] are listed from 0x40 on. *)
Definition caps_ok (l : list cap) (d : pci_vdev) : Prop :=
  let c := cfgdata d in
  match l with
  | [] => cbit c CAPPRESENT_BIT = false
  | p :: _ => p.1 = CAP_START_OFFSET /\ cbit c CAPPRESENT_BIT = true /\ byte c PCIR_CAP_PTR = CAP_START_OFFSET /\
      chain c (capend d + 1) l /\ prevcap d = (List.last l p).1 /\ capend d + 1 <= 256 /\ (capend d + 1) mod 4 = 0
  end.

Record vdev_ok (l : list cap) (d : pci_vdev) : Prop := {
  vo_cfg : cfg_ok (cfgdata d);
  vo_len : length (bar d) = 7%nat;
  vo_bar i b : 0 <= i < 6 -> nthZ (bar d) i = Some b -> bar_ok b /\ mirrored (cfgdata d) (bar d) i b;
  vo_caps : caps_ok l d;
  vo_msi : msi_on (d_msi d) = true -> maxmsgnum (d_msi d) <= 32
}.

(** A place that a write may change without touching command, status, BARs and the list. *)
Definition spare (n : nat) (off : Z) (l : list cap) : Prop :=
  (off + Z.of_nat n <= 4 \/ 8 <= off /\ off + Z.of_nat n <= 16 \/ 0x28 <= off) /\
  (off + Z.of_nat n <= 0x34 \/ 0x34 < off) /\ off_headers n off l.

Lemma spare_store l d n off val : vdev_ok l d -> aligned n off -> spare n off l -> vdev_ok l (d <| cfgdata := store n off val (cfgdata d) |>) /\
  cbit (store n off val (cfgdata d)) INTxDIS_BIT = cbit (cfgdata d) INTxDIS_BIT.
Proof.
  intros [H1 H2 H3 H4 H5] Ha (Hs & Hp & Ho). pose proof Ha as (Hn & H0 & _).
  assert (Hb : forall i, 32 <= i < 64 \/ 128 <= i < 320 -> cbit (store n off val (cfgdata d)) i = cbit (cfgdata d) i).
  { intros i Hi. rewrite cbit_store by (done || lia). destruct (Z.leb_spec (8 * off) i), (Z.ltb_spec i (8 * (off + Z.of_nat n))); cbn [andb]; (done || lia). }
  split; [|apply Hb; unfold INTxDIS_BIT, PCIR_COMMAND; lia]. split.
  - by apply set_run.
  - done.
  - intros i b Hi Hib. destruct (H3 i b Hi Hib) as [Hok Hm]. split; [done|].
    change (cfgdata (d <| cfgdata := store n off val (cfgdata d) |>)) with (store n off val (cfgdata d)).
    assert (Er : forall j, 0 <= j < 32 -> reg_bit (store n off val (cfgdata d)) i j = reg_bit (cfgdata d) i j).
    { intros j Hj. unfold reg_bit, PCIR_BAR. apply Hb. lia. }
    unfold mirrored in *. destruct (b_type b); try done.
    + destruct Hm as (M0 & M1 & M2). rewrite !Er by lia. split; [done|]. split; [done|]. intros j Hj. rewrite Er by lia. by apply M2.
    + destruct Hm as (M0 & M1). rewrite !Er by lia. split; [done|]. intros j Hj. rewrite Er by lia. by apply M1.
    + destruct Hm as (M0 & M1). rewrite !Er by lia. split; [done|]. intros j Hj. rewrite Er by lia. by apply M1.
    + destruct Hm as (lo & M0 & M1 & M2). exists lo. split; [done|]. split; [done|]. intros j Hj. rewrite Er by lia. by apply M2.
  - unfold caps_ok in *. change (cfgdata (d <| cfgdata := store n off val (cfgdata d) |>)) with (store n off val (cfgdata d)).
    assert (Ec : cbit (store n off val (cfgdata d)) CAPPRESENT_BIT = cbit (cfgdata d) CAPPRESENT_BIT) by (apply Hb; unfold CAPPRESENT_BIT, PCIR_STATUS; lia).
    destruct l as [|p l]; [by rewrite Ec|]. destruct H4 as (C1 & C2 & C3 & C4 & C5). rewrite Ec.
    split; [done|]. split; [done|]. split; [rewrite byte_store_out; unfold PCIR_CAP_PTR; (done || lia)|]. split; [by apply chain_store|done].
  - done.
Qed.

(** ** States *)

Section Spec.
Context {P : Type}.
Notation vm := (machine P).
Implicit Types (s : vm) (k : Z) (l : list cap) (d : pci_vdev).

(** What the interrupt line depends on. *)
Record line := mkLine { ln : lintr; ln_msi : bool; ln_msix : bool; ln_dis : bool; ln_gsis : list (Z * Z) }.
Definition line_of d (gs : list (Z * Z)) : line :=
  mkLine (d_lintr d) (msi_on (d_msi d)) (msix_on (d_msix d)) (cbit (cfgdata d) INTxDIS_BIT) gs.

(** The other devices are those of [s0]. *)
Definition frame k s0 s : Prop :=
  (forall k', k' <> k -> devs (clients s) !! k' = devs (clients s0) !! k') /\
  fi_devi (clients s) = fi_devi (clients s0) /\ businfo (clients s) = businfo (clients s0).

(** The device [k] is as [I] says. *)
Definition st k (I : pci_vdev -> Prop) (v : line) s0 s : Prop := mmio_ok s /\ frame k s0 s /\
  exists d, devs (clients s) !! k = Some d /\ I d /\ line_of d (gsis (irqs (clients s))) = v.

Definition put k d s : vm := s <| clients ::= fun p => p <| devs ::= <[k := d]> |> |>.

Lemma st_put k I I' v v' s0 s d : st k I v s0 s -> I' d -> line_of d (gsis (irqs (clients s))) = v' -> st k I' v' s0 (put k d s).
Proof.
  intros (Hm & (F1 & F2 & F3) & _) Hd Hv. split; [by apply mmio_ok_clients|]. split.
  - split; [|done]. intros k' Hk. unfold put. cbn. rewrite lookup_insert_ne by done. by apply F1.
  - exists d. split; [apply lookup_insert_eq|]. done.
Qed.

Lemma runs_dev k s d Q : devs (clients s) !! k = Some d -> Q d s -> runs (the_dev k) s Q.
Proof. intros E HQ. unfold the_dev. apply runs_bind, runs_bind, runs_get. apply runs_ret. by rewrite E. Qed.

Lemma runs_set_dev k d s Q : Q tt (put k d s) -> runs (set_dev k d) s Q.
Proof. done. Qed.

Lemma runs_get_cfg n k off s d Q : devs (clients s) !! k = Some d -> cfg_ok (cfgdata d) -> aligned n off ->
  (forall v, pci_get_cfgdata n off (cfgdata d) = Ret v -> fits (8 * Z.of_nat n) v ->
     (forall j, 0 <= j < 8 * Z.of_nat n -> Z.testbit v j = cbit (cfgdata d) (8 * off + j)) -> Q v s) ->
  runs (get_cfg n k off) s Q.
Proof.
  intros E Hc Ha HQ. apply runs_bind, (runs_dev k s d); [done|]. destruct (get_run n off (cfgdata d) Hc Ha) as (v & Ev & Hf & Hb).
  eapply runs_lift; [exact Ev|]. by apply HQ.
Qed.

Lemma runs_set_cfg n k off val s d Q : devs (clients s) !! k = Some d -> cfg_ok (cfgdata d) -> aligned n off ->
  Q tt (put k (d <| cfgdata := store n off val (cfgdata d) |>) s) -> runs (set_cfg n k off val) s Q.
Proof.
  intros E Hc Ha HQ. apply runs_bind, (runs_dev k s d); [done|]. destruct (set_run n off val (cfgdata d) Hc Ha) as [Es _].
  apply runs_bind. eapply runs_lift; [exact Es|]. by apply runs_set_dev.
Qed.

(** A computation that keeps the invariant and what the line depends on. *)
Definition keeps {A} k (I : pci_vdev -> Prop) v s0 (m : B A) : Prop := forall s, st k I v s0 s -> runs m s (fun _ s' => st k I v s0 s').

Lemma keeps_unit {A} k I v s0 (a : A) : keeps k I v s0 (mret a).
Proof. intros s H. by apply runs_ret. Qed.
Lemma keeps_seq {A A'} k I v s0 (m : B A) (f : A -> B A') : keeps k I v s0 m -> (forall a, keeps k I v s0 (f a)) -> keeps k I v s0 (m ≫= f).
Proof. intros Hm Hf s H. apply runs_bind. eapply runs_weaken; [by apply Hm|]. intros a s' H'. by apply Hf. Qed.
Lemma keeps_cond k I v s0 b (m : B unit) : keeps k I v s0 m -> keeps k I v s0 (when b m).
Proof. intros Hm. destruct b; [done|]. apply keeps_unit. Qed.
Lemma keeps_each k I v s0 (f : Z -> B unit) is_ : (forall i, i ∈ is_ -> keeps k I v s0 (f i)) -> keeps k I v s0 (each is_ f).
Proof.
  induction is_ as [|i is_ IH]; intros Hf; [apply keeps_unit|]. apply keeps_seq; [apply Hf; left|]. intros _. apply IH. intros j Hj. apply Hf. by right.
Qed.

Lemma keeps_the_dev k I v s0 : keeps k I v s0 (the_dev k).
Proof. intros s H. pose proof H as (_ & _ & d & E & _). by apply (runs_dev k s d). Qed.
Lemma keeps_get_cfg n k I v s0 off : (forall d, I d -> cfg_ok (cfgdata d)) -> aligned n off -> keeps k I v s0 (get_cfg n k off).
Proof. intros Hc Ha s H. pose proof H as (_ & _ & d & E & Hd & _). apply (runs_get_cfg n k off s d); [done|by apply Hc|done|done]. Qed.
Lemma keeps_spare n k l v s0 off val : aligned n off -> spare n off l -> keeps k (vdev_ok l) v s0 (set_cfg n k off val).
Proof.
  intros Ha Hs s H. pose proof H as (_ & _ & d & E & Hd & Hv). apply (runs_set_cfg n k off val s d); [done|apply (vo_cfg _ _ Hd)|done|].
  destruct (spare_store l d n off val Hd Ha Hs) as [Hd' Hb]. eapply st_put; [done|done|]. rewrite <- Hv. unfold line_of. cbn. by rewrite Hb.
Qed.

(** ** The interrupt line *)

Definition permitted (v : line) : bool := negb (ln_msi v || ln_msix v || ln_dis v).

(** What the line was set to last. *)
Fixpoint level (irq : Z) (gs : list (Z * Z)) : option Z :=
  match gs with [] => None | (g, lv) :: gs => if g =? irq then Some lv else level irq gs end.

Definition with_state (v : line) (x : lintr_stat) : line := mkLine (ln v <| state := x |>) (ln_msi v) (ln_msix v) (ln_dis v) (ln_gsis v).
Definition driven (v : line) (lv : Z) : line :=
  mkLine (ln v) (ln_msi v) (ln_msix v) (ln_dis v) ((ioapic_irq (ln v), lv) :: ln_gsis v).

(** The three operations on the line. *)
Definition asserted (v : line) : line :=
  if pin (ln v) <=? 0 then v
  else match state (ln v) with
       | IDLE => if permitted v then driven (with_state v ASSERTED) GSI_SET_LOW else with_state v PENDING
       | _ => v
       end.
Definition deasserted (v : line) : line :=
  if pin (ln v) <=? 0 then v
  else match state (ln v) with
       | ASSERTED => driven (with_state v IDLE) GSI_SET_HIGH
       | PENDING => with_state v IDLE
       | IDLE => v
       end.
Definition updated (v : line) : line :=
  match state (ln v) with
  | ASSERTED => if permitted v then v else driven (with_state v PENDING) GSI_SET_HIGH
  | PENDING => if permitted v then driven (with_state v ASSERTED) GSI_SET_LOW else v
  | IDLE => v
  end.

Lemma runs_permitted k I v s0 s Q : (forall d, I d -> cfg_ok (cfgdata d)) -> st k I v s0 s -> Q (permitted v) s -> runs (pci_lintr_permitted k) s Q.
Proof.
  intros Hc (Hm & Hf & d & E & Hd & Hv) HQ. apply runs_bind, (runs_get_cfg 2 k PCIR_COMMAND s d); [done|by apply Hc| |].
  { unfold PCIR_COMMAND. split; [tauto|]. split; [lia|]. split; [lia|done]. }
  intros cmd _ _ Hb. apply runs_bind, (runs_dev k s d); [done|]. apply runs_ret.
  replace (has cmd PCIM_CMD_INTxDIS) with (cbit (cfgdata d) INTxDIS_BIT); [by rewrite <- Hv in HQ|].
  change PCIM_CMD_INTxDIS with (2 ^ 10). rewrite has_pow2, Hb by lia. done.
Qed.

Lemma runs_set_state k (I : pci_vdev -> Prop) v s0 x s : (forall d y, I d -> I (d <| d_lintr := y |>)) -> st k I v s0 s ->
  runs (set_state k x) s (fun _ s' => st k I (with_state v x) s0 s').
Proof.
  intros HI H. pose proof H as (_ & _ & d & E & Hd & Hv). apply runs_bind, (runs_dev k s d); [done|]. apply runs_set_dev.
  eapply st_put; [exact H|by apply (HI d)|]. by rewrite <- Hv.
Qed.

Lemma runs_set_line k I v s0 lv s : st k I v s0 s -> runs (set_line k lv) s (fun _ s' => st k I (driven v lv) s0 s').
Proof.
  intros (Hm & Hf & d & E & Hd & Hv). apply runs_bind, (runs_dev k s d); [done|]. unfold runs, on_irqs, modify.
  split; [by apply mmio_ok_clients|]. split; [done|]. exists d. split; [done|]. split; [done|]. by rewrite <- Hv.
Qed.

Lemma vdev_ok_lintr l d y : vdev_ok l d -> vdev_ok l (d <| d_lintr := y |>).
Proof. intros [H1 H2 H3 H4 H5]. split; assumption. Qed.
Lemma vdev_ok_cfg l d : vdev_ok l d -> cfg_ok (cfgdata d).
Proof. apply vo_cfg. Qed.
Hint Resolve vdev_ok_lintr vdev_ok_cfg : core.

Lemma runs_update k l v s0 s : st k (vdev_ok l) v s0 s -> runs (pci_lintr_update k) s (fun _ s' => st k (vdev_ok l) (updated v) s0 s').
Proof.
  intros H. pose proof H as (_ & _ & d & E & Hd & Hv). apply runs_bind, (runs_dev k s d); [done|].
  apply runs_bind, (runs_permitted k (vdev_ok l) v s0 s); [eauto|done|]. unfold updated.
  replace (state (d_lintr d)) with (state (ln v)) by (by rewrite <- Hv).
  destruct (state (ln v)); [by apply runs_ret| |]; destruct (permitted v); cbn [negb when]; try (by apply runs_ret).
  - apply runs_bind. eapply runs_weaken; [by apply runs_set_line|]. cbv beta. intros _ s1 H1.
    eapply runs_weaken; [eapply (runs_set_state k (vdev_ok l)); [eauto|exact H1]|]. cbv beta. by intros _ s2 H2.
  - apply runs_bind. eapply runs_weaken; [by eapply (runs_set_state k (vdev_ok l)); [eauto|]|]. cbv beta. intros _ s1 H1. by apply runs_set_line.
Qed.

Lemma runs_assert k l v s0 s : st k (vdev_ok l) v s0 s -> runs (pci_lintr_assert k) s (fun _ s' => st k (vdev_ok l) (asserted v) s0 s').
Proof.
  intros H. pose proof H as (_ & _ & d & E & Hd & Hv). apply runs_bind, (runs_dev k s d); [done|]. unfold asserted.
  replace (d_lintr d) with (ln v) by (by rewrite <- Hv). destruct (pin (ln v) <=? 0); [by apply runs_ret|].
  destruct (state (ln v)); [|by apply runs_ret..]. apply runs_bind, (runs_permitted k (vdev_ok l) v s0 s); [eauto|done|].
  destruct (permitted v); [|by eapply (runs_set_state k (vdev_ok l)); [eauto|]].
  apply runs_bind. eapply runs_weaken; [by eapply (runs_set_state k (vdev_ok l)); [eauto|]|]. cbv beta. intros _ s1 H1. by apply runs_set_line.
Qed.

Lemma runs_deassert k l v s0 s : st k (vdev_ok l) v s0 s -> runs (pci_lintr_deassert k) s (fun _ s' => st k (vdev_ok l) (deasserted v) s0 s').
Proof.
  intros H. pose proof H as (_ & _ & d & E & Hd & Hv). apply runs_bind, (runs_dev k s d); [done|]. unfold deasserted.
  replace (d_lintr d) with (ln v) by (by rewrite <- Hv). destruct (pin (ln v) <=? 0); [by apply runs_ret|].
  destruct (state (ln v)); [by apply runs_ret| |by eapply (runs_set_state k (vdev_ok l)); [eauto|]].
  apply runs_bind. eapply runs_weaken; [by eapply (runs_set_state k (vdev_ok l)); [eauto|]|]. cbv beta. intros _ s1 H1. by apply runs_set_line.
Qed.

(** The line is low exactly while the device holds it. *)
Definition wired (v : line) : Prop :=
  level (ioapic_irq (ln v)) (ln_gsis v) = Some (if decide (state (ln v) = ASSERTED) then GSI_SET_LOW else GSI_SET_HIGH).
Record settled (v : line) : Prop := {
  se_wired : wired v;
  se_state : match state (ln v) with IDLE => True | ASSERTED => permitted v = true | PENDING => permitted v = false end
}.
Definition requested (v : line) : bool := negb (bool_decide (state (ln v) = IDLE)).

(** From one settled line to another, for the same pin. *)
Definition settles (v v' : line) (want : bool) : Prop :=
  settled v' /\ requested v' = want /\ pin (ln v') = pin (ln v) /\ ioapic_irq (ln v') = ioapic_irq (ln v).

(** The same, asked for as before. *)
Definition evolves (v v' : line) : Prop := settled v -> settles v v' (requested v).

Lemma evolves_refl v : evolves v v.
Proof. done. Qed.
Lemma evolves_trans v1 v2 v3 : evolves v1 v2 -> evolves v2 v3 -> evolves v1 v3.
Proof. intros H1 H2 H. destruct (H1 H) as (S1 & R1 & P1 & I1). destruct (H2 S1) as (S2 & R2 & P2 & I2). split; [done|]. repeat split; congruence. Qed.

Lemma level_same irq lv gs : level irq ((irq, lv) :: gs) = Some lv.
Proof. cbn. by rewrite Z.eqb_refl. Qed.

(** Whatever becomes of the permission, an update settles the line. *)
Lemma updated_evolves v a b c : evolves v (updated (mkLine (ln v) a b c (ln_gsis v))).
Proof.
  intros [Hw Hs]. unfold updated, wired in *. set (u := mkLine (ln v) a b c (ln_gsis v)). change (state (ln u)) with (state (ln v)).
  destruct (state (ln v)) eqn:E; [|destruct (permitted u) eqn:Ep..].
  - split; [split; [unfold wired; change (ln u) with (ln v); by rewrite E|change (ln u) with (ln v); by rewrite E]|]. done.
  - split; [split; [unfold wired; change (ln u) with (ln v); by rewrite E|change (ln u) with (ln v); by rewrite E]|]. done.
  - split; [split; [apply level_same|exact Ep]|]. unfold requested. cbn. by rewrite E.
  - split; [split; [apply level_same|exact Ep]|]. unfold requested. cbn. by rewrite E.
  - split; [split; [unfold wired; change (ln u) with (ln v); by rewrite E|change (ln u) with (ln v); by rewrite E]|]. done.
Qed.

Lemma asserted_settled v : 0 < pin (ln v) -> settled v -> settles v (asserted v) true.
Proof.
  intros Hp [Hw Hs]. unfold asserted. rewrite (proj2 (Z.leb_gt _ _)) by done. unfold settles, requested. destruct (state (ln v)) eqn:E.
  - destruct (permitted v) eqn:Ep; (split; [split|]); try done; [apply level_same|]. unfold wired in *. rewrite E in Hw. exact Hw.
  - split; [split; [done|by rewrite E]|by rewrite E].
  - split; [split; [done|by rewrite E]|by rewrite E].
Qed.
Lemma deasserted_settled v : 0 < pin (ln v) -> settled v -> settles v (deasserted v) false.
Proof.
  intros Hp [Hw Hs]. unfold deasserted. rewrite (proj2 (Z.leb_gt _ _)) by done. unfold settles, requested. destruct (state (ln v)) eqn:E.
  - split; [split; [done|by rewrite E]|by rewrite E].
  - split; [split; [apply level_same|done]|done].
  - split; [split; [|done]|done]. unfold wired in *. rewrite E in Hw. exact Hw.
Qed.
End Spec.
