(* ===== verification/PciGuest.v ===== *)
(** * Every access of a guest to configuration space

    The walks of the capability list end where they should, the writes of each kind keep
    the invariant of PciCoreSpec.v, and so does any sequence of accesses. *)
From S2P Require Import Prelude RbTree RbTreeSpec Mmio MmioSpec Inout PciConfig PciIrq PciCore PciCfg PciCoreSpec.

(** ** The list *)

Lemma chain_order c e l p q : chain c e l -> p ∈ l -> q ∈ l -> q.1 <= p.1 \/ p.1 + 4 <= q.1 /\ (p.2 = PCIY_MSI -> p.1 + 24 <= q.1).
Proof.
  induction l as [|r l IH]; [done|]. intros Hc Hp Hq. pose proof (chain_after c e r l Hc) as Ha. rewrite Forall_forall in Ha.
  apply elem_of_cons in Hp as [-> |Hp], Hq as [-> |Hq]; [lia|right; by apply Ha|left; destruct (Ha p Hp); lia|].
  destruct l as [|r' l]; [by apply not_elem_of_nil in Hp|]. rewrite chain_cons in Hc. apply IH; [apply Hc|done|done].
Qed.

Lemma chain_length c e p l : chain c e (p :: l) -> p.1 + 4 * Z.of_nat (length (p :: l)) <= e.
Proof.
  revert p. induction l as [|q l IH]; intros p.
  - intros [[] _]. cbn [length]. lia.
  - rewrite chain_cons. intros ([] & _ & Hc). specialize (IH q Hc). pose proof (chain_after c e q l Hc). cbn [length] in *.
    assert (p.1 + 4 <= q.1) by done. lia.
Qed.

Lemma chain_suffix c e l1 q l2 : chain c e (l1 ++ q :: l2) -> chain c e (q :: l2).
Proof. induction l1 as [|x l1 IH]; [done|]. cbn [app]. destruct (l1 ++ q :: l2) eqn:Ex; [by destruct l1|]. intros H. apply IH, H. Qed.

(** The capability that an offset is in: none starts between the two. *)
Definition owner_cap (l : list cap) (offset : Z) (p : cap) : Prop := p ∈ l /\ p.1 <= offset /\ Forall (fun q => q.1 <= p.1 \/ offset < q.1) l.

(** A write after the header of the owner clears all headers. *)
Lemma owner_off_headers c e l p n off : chain c e l -> owner_cap l off p -> aligned n off -> p.1 + 2 <= off -> off_headers n off l.
Proof.
  intros Hc (Hp & Hle & Ho) (Hn & _ & _ & Ha) H2. unfold off_headers. rewrite Forall_forall in *. intros q Hq. specialize (Ho q Hq).
  pose proof (chain_bounds c e l Hc) as Hb. rewrite Forall_forall in Hb. destruct (Hb q Hq) as (_ & Hm & _). destruct Ho as [Ho|Ho]; [lia|].
  left. destruct Hn as [-> | [-> | ->]]; change (Z.of_nat 1) with 1 in *; change (Z.of_nat 2) with 2 in *; change (Z.of_nat 4) with 4 in *;
    Z.div_mod_to_equations; lia.
Qed.

(** The two bytes after a header. *)
Lemma header_owner c e l p : chain c e l -> p ∈ l -> e <= 256 -> owner_cap l (p.1 + 2) p /\ aligned 2 (p.1 + 2).
Proof.
  intros Hc Hp He. pose proof (chain_bounds c e l Hc) as Hb. rewrite Forall_forall in Hb. destruct (Hb p Hp) as (B1 & B2 & B3 & _). split.
  - split; [done|]. split; [lia|]. rewrite Forall_forall. intros q Hq. destruct (chain_order c e l p q Hc Hp Hq); [by left|]. right. lia.
  - split; [tauto|]. change (Z.of_nat 2) with 2. split; [lia|]. split; [lia|]. Z.div_mod_to_equations. lia.
Qed.

(** A field of the MSI capability. *)
Lemma msi_spare c e l p o : chain c e l -> p ∈ l -> p.2 = PCIY_MSI -> 2 <= o -> o + 4 <= 24 -> spare 4 (p.1 + o) l.
Proof.
  intros Hc Hp Hi H0 H1. pose proof (chain_bounds c e l Hc) as Hb. rewrite Forall_forall in Hb. destruct (Hb p Hp) as (Hs & _).
  unfold spare. change (Z.of_nat 4) with 4. split; [lia|]. split; [lia|]. unfold off_headers. rewrite Forall_forall. intros q Hq.
  change (Z.of_nat 4) with 4. destruct (chain_order c e l p q Hc Hp Hq) as [H|[_ H]]; [lia|]. specialize (H Hi). lia.
Qed.
Lemma msi_aligned c e l p n o : chain c e l -> e <= 256 -> p ∈ l -> p.2 = PCIY_MSI -> (n = 2 \/ n = 4)%nat -> 0 <= o -> o + Z.of_nat n <= 24 ->
  o mod 4 = 0 \/ n = 2%nat /\ o mod 2 = 0 -> aligned n (p.1 + o).
Proof.
  intros Hc He Hp Hi Hn H0 H1 Hm. pose proof (chain_bounds c e l Hc) as Hb. rewrite Forall_forall in Hb. destruct (Hb p Hp) as (Hs & Ha & _ & _ & Hx).
  specialize (Hx Hi). split; [tauto|]. split; [lia|]. split; [lia|].
  destruct Hn as [-> | ->]; change (Z.of_nat 2) with 2 in *; change (Z.of_nat 4) with 4 in *; Z.div_mod_to_equations; lia.
Qed.

(** No reserved number of messages. *)
Definition mme_ok (x : Z) : bool := negb (Z.testbit x 5 && Z.testbit x 6).

Lemma messages_bound x : mme_ok x = true -> Z.shiftl 1 (Z.shiftr (Z.land x PCIM_MSICTRL_MME_MASK) 4) <= 32.
Proof.
  unfold mme_ok. intros Hm%negb_true_iff. set (y := Z.shiftr _ 4).
  assert (Hb : forall j, 0 <= j -> Z.testbit y j = Z.testbit x (j + 4) && Z.testbit 7 j).
  { intros j Hj. unfold y. rewrite Z.shiftr_spec, Z.land_spec by done. f_equal. change PCIM_MSICTRL_MME_MASK with (Z.shiftl 7 4).
    rewrite Z.shiftl_spec by lia. f_equal. lia. }
  assert (Hy : 0 <= y < 2 ^ 3).
  { apply fits_testbit; [lia|unfold y; apply Z.shiftr_nonneg, Z.land_nonneg; by right|]. intros i Hi. rewrite Hb by lia.
    rewrite (testbit_fits 3 7) by (done || unfold fits; lia). apply andb_false_r. }
  pose proof (Hb 1 ltac:(lia)) as H1. pose proof (Hb 2 ltac:(lia)) as H2. change (1 + 4) with 5 in H1. change (2 + 4) with 6 in H2.
  change (Z.testbit 7 1) with true in H1. change (Z.testbit 7 2) with true in H2. rewrite andb_true_r in H1, H2. rewrite <- H1, <- H2 in Hm.
  change (2 ^ 3) with 8 in Hy. assert (Hc : y = 0 \/ y = 1 \/ y = 2 \/ y = 3 \/ y = 4 \/ y = 5 \/ y = 6 \/ y = 7) by lia.
  repeat (destruct Hc as [-> |Hc]; [vm_compute in Hm |- *; congruence|]). rewrite Hc in *. done.
Qed.

Lemma width_bytes bytes : bytes = 1 \/ bytes = 2 \/ bytes = 4 -> Z.of_nat (width bytes) = bytes /\ (width bytes = 1 \/ width bytes = 2 \/ width bytes = 4)%nat.
Proof. intros [-> | [-> | ->]]; (split; [done|]); [by left|by right; left|by right; right]. Qed.

Section Guest.
Context {P : Type}.
Notation vm := (machine P).
Implicit Types (s : vm) (k : Z) (l : list cap) (d : pci_vdev).
Hint Resolve vdev_ok_lintr vdev_ok_cfg : core.

(** What is known of a device in a state. *)
Lemma st_dev k I v s0 s : st k I v s0 s -> exists d, devs (clients s) !! k = Some d /\ I d.
Proof. intros (_ & _ & d & E & Hd & _). by exists d. Qed.

Lemma runs_byte k l v s0 s o Q : st k (vdev_ok l) v s0 s -> 0 <= o < 256 ->
  (forall d, devs (clients s) !! k = Some d -> vdev_ok l d -> Q (byte (cfgdata d) o) s) -> runs (get_cfg 1 k o) s Q.
Proof.
  intros H Ho HQ. destruct (st_dev _ _ _ _ _ H) as (d & E & Hd). apply runs_bind, (runs_dev k s d); [done|].
  eapply runs_lift; [apply get_byte; [apply Hd|done]|]. by apply HQ.
Qed.

(** The chain of a device with capabilities. *)
Lemma dev_chain l d : vdev_ok l d -> l <> [] -> chain (cfgdata d) (capend d + 1) l /\ capend d + 1 <= 256 /\ (capend d + 1) mod 4 = 0.
Proof. intros H Hl. pose proof (vo_caps _ _ H) as Hc. destruct l; [done|]. destruct Hc as (_ & _ & _ & Hc & _ & He & Hm). done. Qed.

Lemma present_bit k l v s0 s Q : st k (vdev_ok l) v s0 s -> (forall sts, has sts PCIM_STATUS_CAPPRESENT = negb (bool_decide (l = [])) -> Q sts s) ->
  runs (get_cfg 2 k PCIR_STATUS) s Q.
Proof.
  intros H HQ. destruct (st_dev _ _ _ _ _ H) as (d & E & Hd). apply (runs_get_cfg 2 k PCIR_STATUS s d); [done|by eapply vdev_ok_cfg| |].
  { unfold PCIR_STATUS. split; [tauto|]. split; [lia|]. split; [lia|done]. }
  intros sts _ _ Hb. apply HQ. change PCIM_STATUS_CAPPRESENT with (2 ^ 4). rewrite has_pow2, Hb by lia. fold CAPPRESENT_BIT.
  pose proof (vo_caps _ _ Hd) as Hc. destruct l; [by rewrite Hc|]. destruct Hc as (_ & -> & _). done.
Qed.

Lemma walk_run k l v s0 s capid : forall l1 l2 q fuel, l = l1 ++ q :: l2 -> (length l2 < fuel)%nat -> st k (vdev_ok l) v s0 s ->
  runs (walk_caps (S fuel) k capid q.1) s (fun o s' => s' = s /\ match o with None => True | Some off => exists p, p ∈ l /\ p.1 = off /\ p.2 = capid end).
Proof.
  intros l1 l2. revert l1. induction l2 as [|r l2 IH]; intros l1 q fuel El Hf H; destruct (st_dev _ _ _ _ _ H) as (d & E & Hd);
    (destruct fuel as [|fuel]; [lia|]); remember (S fuel) as f1; cbn [walk_caps]; apply runs_bind, (runs_dev k s d); try done;
    assert (Hne : l <> []) by (rewrite El; by destruct l1); destruct (dev_chain l d Hd Hne) as (Hc & He & _);
    pose proof (chain_bounds _ _ _ Hc) as Hb; rewrite Forall_forall in Hb; assert (Hq : q ∈ l) by (rewrite El; set_solver);
    destruct (Hb q Hq) as (B1 & B2 & B3 & B4 & _); destruct ((_ <=? q.1) && _); try (by apply runs_ret);
    apply runs_bind, (runs_byte k l v s0); try done; try lia; intros d' E' _; rewrite E in E'; injection E' as <-; rewrite B4;
    (destruct (Z.eqb_spec q.2 capid) as [Ei|]; [apply runs_ret; split; [done|]; by exists q|]);
    apply runs_bind, (runs_byte k l v s0); try done; try lia; intros d' E' _; rewrite E in E'; injection E' as <-.
  - (* the last one points to 0 *)
    rewrite El in Hc. apply chain_suffix in Hc as [_ Hn]. unfold next_of in Hn. rewrite Hn. subst f1. cbn [walk_caps]. apply runs_bind, (runs_dev k s d); [done|]. by apply runs_ret.
  - rewrite El in Hc. apply chain_suffix, chain_cons in Hc as (_ & Hn & _). unfold next_of in Hn. rewrite Hn. subst f1. apply (IH (l1 ++ [q]) r fuel); [by rewrite <- app_assoc|cbn [length] in Hf; lia|done].
Qed.

Lemma find_run k l v s0 s capid : st k (vdev_ok l) v s0 s ->
  runs (pci_emul_find_capability k capid 0) s (fun o s' => s' = s /\ match o with None => True | Some off => exists p, p ∈ l /\ p.1 = off /\ p.2 = capid end).
Proof.
  intros H. destruct (st_dev _ _ _ _ _ H) as (d & E & Hd). apply runs_bind, (present_bit k l v s0); [done|]. intros sts ->.
  destruct (bool_decide (l = [])) eqn:El; cbn [negb]; [by apply runs_ret|]. apply bool_decide_eq_false in El.
  apply runs_bind, (runs_dev k s d); [done|]. rewrite Z.eqb_refl. apply runs_bind, (runs_byte k l v s0); [done|unfold PCIR_CAP_PTR; lia|].
  intros d' E' _. rewrite E in E'. injection E' as <-. destruct (dev_chain l d Hd El) as (Hc & He & _).
  pose proof (vo_caps _ _ Hd) as Hcap. destruct l as [|q l]; [done|]. destruct Hcap as (H1 & _ & H3 & _). rewrite H3, <- H1.
  apply (walk_run k (q :: l) v s0 s capid [] l q 256); [done| |done]. pose proof (chain_length _ _ q l Hc). cbn [length] in *. unfold CAP_START_OFFSET in H1. lia.
Qed.

(** The walk to the capability that is written. *)
Lemma owning_run k l v s0 s offset : forall l2 l1 q fuel, l = l1 ++ q :: l2 -> (length l2 < fuel)%nat -> st k (vdev_ok l) v s0 s -> q.1 <= offset ->
  Forall (fun p => p.1 <= q.1) l1 ->
  runs (owning_cap fuel k offset q.1) s (fun r s' => s' = s /\ exists p, owner_cap l offset p /\ p.1 = r).
Proof.
  induction l2 as [|r l2 IH]; intros l1 q fuel El Hf H Hq Hl1; destruct (st_dev _ _ _ _ _ H) as (d & E & Hd);
    (destruct fuel as [|fuel]; [lia|]); cbn [owning_cap]; assert (Hne : l <> []) by (rewrite El; by destruct l1);
    destruct (dev_chain l d Hd Hne) as (Hc & He & _); pose proof (chain_bounds _ _ _ Hc) as Hb; rewrite Forall_forall in Hb;
    assert (Hin : q ∈ l) by (rewrite El; set_solver); destruct (Hb q Hin) as (B1 & B2 & B3 & B4 & _);
    apply runs_bind, (runs_byte k l v s0); try done; try lia; intros d' E' _; rewrite E in E'; injection E' as <-.
  - rewrite El in Hc. apply chain_suffix in Hc as [_ Hn]. unfold next_of in Hn. rewrite Hn. apply runs_ret. split; [done|]. exists q. split; [|done]. split; [done|]. split; [done|]. rewrite El, Forall_app. split.
    + eapply Forall_impl; [exact Hl1|]. by left.
    + constructor; [by left|constructor].
  - assert (Hn : byte (cfgdata d) (q.1 + 1) = r.1 /\ Forall (fun p => r.1 <= p.1) (r :: l2) /\ q.1 + 4 <= r.1).
    { rewrite El in Hc. apply chain_suffix, chain_cons in Hc as ([] & Hx & Hc). split; [done|]. split; [|done]. constructor; [lia|].
      eapply Forall_impl; [by eapply chain_after|]. cbn beta. intros p [Hp _]. lia. }
    destruct Hn as (Hn & Hr & Hqr). rewrite Hn. assert (Hr0 : r.1 <> 0) by lia. rewrite (proj2 (Z.eqb_neq _ _)), (proj2 (Z.leb_le _ _)) by done. cbn [orb andb].
    destruct (Z.ltb_spec offset r.1).
    + apply runs_ret. split; [done|]. exists q. split; [|done]. split; [done|]. split; [done|]. rewrite El, Forall_app. split.
      * eapply Forall_impl; [exact Hl1|]. by left.
      * constructor; [by left|]. eapply Forall_impl; [exact Hr|]. cbn beta. intros p Hp. right. lia.
    + apply (IH (l1 ++ [q]) r fuel); [by rewrite <- app_assoc|cbn [length] in Hf; lia|done|done|].
      rewrite Forall_app. split; [|repeat constructor; lia]. eapply Forall_impl; [exact Hl1|]. cbn beta. lia.
Qed.

(** ** MSI *)

Lemma keeps_lapic k l v s0 a x : keeps k (vdev_ok l) v s0 (vm_lapic_msi a x).
Proof. intros s (Hm & Hf & d & E & Hd & Hv). split; [by apply mmio_ok_clients|]. split; [done|]. by exists d. Qed.

Lemma find_field_run k l v s0 s o : st k (vdev_ok l) v s0 s -> o = PCIR_MSI_MASK \/ o = PCIR_MSI_PENDING ->
  runs (pci_access_msi k o) s (fun r s' => s' = s /\ match r with None => True | Some off => aligned 4 off /\ spare 4 off l end).
Proof.
  intros H Ho. unfold pci_access_msi. rewrite (proj2 (Z.ltb_ge _ _)) by (unfold PCIR_MSI_MASK, PCIR_MSI_PENDING in *; lia).
  apply runs_bind. eapply runs_weaken; [by eapply find_run|]. cbv beta. intros [off|] s1 [-> Hp]; [|by apply runs_ret].
  destruct Hp as (p & Hp & <- & Hi). destruct (st_dev _ _ _ _ _ H) as (d & E & Hd).
  destruct (dev_chain l d Hd) as (Hc & He & _); [by intros ->; apply not_elem_of_nil in Hp|].
  apply runs_bind, (runs_get_cfg 2 k (p.1 + PCIR_MSI_CTRL) s d); [done|by eapply vdev_ok_cfg| |].
  { eapply msi_aligned; [exact Hc|done|done|done|by left|unfold PCIR_MSI_CTRL; lia|unfold PCIR_MSI_CTRL; lia|right; by split]. }
  intros ctl _ _ _. apply runs_ret. split; [done|].
  assert (Hx : exists o', (o' = 0x0c \/ o' = 0x10 \/ o' = 0x14) /\
    (if has ctl PCIM_MSICTRL_64BIT then p.1 + o else p.1 + o - 4) = p.1 + o').
  { unfold PCIR_MSI_MASK, PCIR_MSI_PENDING in Ho. destruct (has ctl _); [exists o|exists (o - 4)]; lia. }
  destruct Hx as (o' & Ho' & ->). split.
  - eapply msi_aligned; [exact Hc|done|done|done|by right|lia| |left]; destruct Ho' as [-> | [-> | ->]]; done.
  - eapply msi_spare; [exact Hc|done|done|lia|lia].
Qed.

Lemma bit_run i : 0 <= i < 32 -> exists b, bit_of i = Ret b.
Proof. intros Hi. unfold bit_of. rewrite (proj2 (Z.leb_le 0 i)), (proj2 (Z.ltb_lt i 32)) by lia. by eexists. Qed.

(** The bit is looked up, or there is nothing to look at. *)
Lemma msi_bit_run k l v s0 s o i : st k (vdev_ok l) v s0 s -> o = PCIR_MSI_MASK \/ o = PCIR_MSI_PENDING -> 0 <= i < 32 ->
  runs (msi_bit k o i) s (fun _ s' => s' = s).
Proof.
  intros H Ho Hi. apply runs_bind. eapply runs_weaken; [by eapply find_field_run|]. cbv beta. intros [off|] s1 [-> Hp]; [|by apply runs_ret].
  destruct (st_dev _ _ _ _ _ H) as (d & E & Hd). destruct Hp as [Ha _].
  apply runs_bind, (runs_get_cfg 4 k off s d); [done|by eapply vdev_ok_cfg|done|]. intros val _ _ _.
  destruct (bit_run i Hi) as [b Eb]. apply runs_bind. eapply runs_lift; [exact Eb|]. by apply runs_ret.
Qed.

Lemma keeps_pending k l v s0 i x : 0 <= i < 32 -> keeps k (vdev_ok l) v s0 (pci_set_msi_pending k i x).
Proof.
  intros Hi s H. apply runs_bind. eapply runs_weaken; [eapply find_field_run; [done|by right]|]. cbv beta.
  intros [off|] s1 [-> Hp]; [|by apply runs_ret]. destruct Hp as [Ha _]. destruct (st_dev _ _ _ _ _ H) as (d & E & Hd).
  apply runs_bind, (runs_get_cfg 4 k off s d); [done|by eapply vdev_ok_cfg|done|]. intros val _ _ _.
  destruct (bit_run i Hi) as [b Eb]. apply runs_bind. eapply runs_lift; [exact Eb|].
  apply runs_bind. eapply runs_weaken; [eapply find_field_run; [done|by right]|]. cbv beta. intros [off'|] s1 [-> Hp]; [|by apply runs_ret].
  destruct Hp as [Ha' Hs']. by eapply keeps_spare.
Qed.

Lemma maxmsgnum_bound l d : vdev_ok l d -> pci_msi_maxmsgnum d <= 32.
Proof. intros H. unfold pci_msi_maxmsgnum. destruct (msi_on (d_msi d)) eqn:E; [by apply (vo_msi _ _ H)|lia]. Qed.

Lemma keeps_generate k l v s0 i : 0 <= i -> keeps k (vdev_ok l) v s0 (pci_generate_msi k i).
Proof.
  intros H0 s H. destruct (st_dev _ _ _ _ _ H) as (d & E & Hd). apply runs_bind, (runs_dev k s d); [done|].
  destruct (msi_on (d_msi d) && _) eqn:Eb; [|by apply runs_ret]. apply andb_true_iff in Eb as [_ Hi%Z.ltb_lt].
  pose proof (maxmsgnum_bound l d Hd). apply runs_bind. eapply runs_weaken; [eapply msi_bit_run; [done|by left|lia]|].
  cbv beta. intros [] s1 ->; [apply keeps_pending; [lia|done]|]. apply (keeps_seq k (vdev_ok l)); [apply keeps_lapic| |done].
  intros _. apply keeps_pending. lia.
Qed.

(** ** Capabilities that are written *)

Definition moves k l v s0 (m : B unit) : Prop := forall s, st k (vdev_ok l) v s0 s -> runs m s (fun _ s' => exists v', evolves v v' /\ st k (vdev_ok l) v' s0 s').

Lemma moves_keeps k l v s0 (m : B unit) : keeps k (vdev_ok l) v s0 m -> moves k l v s0 m.
Proof. intros Hm s H. eapply runs_weaken; [by apply Hm|]. cbv beta. intros _ s' H'. exists v. split; [apply evolves_refl|done]. Qed.

Lemma masked_run k l v s0 s off val rw : st k (vdev_ok l) v s0 s -> aligned 2 off ->
  runs (masked_write k off val rw) s (fun r s' => s' = s /\ exists old, r = Z.lor (clear_bits 16 old rw) (Z.land val rw)).
Proof.
  intros H Ha. destruct (st_dev _ _ _ _ _ H) as (d & E & Hd). apply runs_bind, (runs_get_cfg 2 k off s d); [done|by eapply vdev_ok_cfg|done|].
  intros old _ _ _. apply runs_ret. split; [done|]. by exists old.
Qed.

Lemma masked_mme old val : mme_ok val = true ->
  mme_ok (Z.lor (clear_bits 16 old (Z.lor PCIM_MSICTRL_MME_MASK PCIM_MSICTRL_MSI_ENABLE)) (Z.land val (Z.lor PCIM_MSICTRL_MME_MASK PCIM_MSICTRL_MSI_ENABLE))) = true.
Proof.
  unfold mme_ok, clear_bits. set (rw := Z.lor PCIM_MSICTRL_MME_MASK PCIM_MSICTRL_MSI_ENABLE). rewrite !Z.lor_spec, !Z.land_spec.
  change (Z.testbit rw 5) with true. change (Z.testbit rw 6) with true.
  change (Z.testbit (wrap 16 (Z.lnot rw)) 5) with false. change (Z.testbit (wrap 16 (Z.lnot rw)) 6) with false.
  by rewrite !andb_false_r, !andb_true_r.
Qed.

Lemma take_run k l v s0 s p ctl : st k (vdev_ok l) v s0 s -> p ∈ l -> p.2 = PCIY_MSI -> mme_ok ctl = true ->
  runs (msi_take k p.1 ctl) s (fun _ s' => exists b, st k (vdev_ok l) (mkLine (ln v) b (ln_msix v) (ln_dis v) (ln_gsis v)) s0 s').
Proof.
  intros H Hp Hi Hm. pose proof H as (_ & _ & d & E & Hd & Hv).
  destruct (dev_chain l d Hd) as (Hc & He & _); [by intros ->; apply not_elem_of_nil in Hp|].
  apply runs_bind, (runs_get_cfg 4 k (p.1 + 4) s d); [done|by eapply vdev_ok_cfg| |].
  { eapply msi_aligned; [exact Hc|done|done|done|by right|lia|lia|by left]. }
  intros a _ _ _. apply runs_bind, (runs_get_cfg 2 k _ s d); [done|by eapply vdev_ok_cfg| |].
  { eapply msi_aligned; [exact Hc|done|done|done|by left| | |left]; destruct (has ctl _); (lia || done). }
  intros x _ _ _. apply runs_bind, (runs_dev k s d); [done|]. apply runs_set_dev. exists (has ctl PCIM_MSICTRL_MSI_ENABLE).
  eapply st_put; [exact H| |].
  - destruct Hd as [H1 H2 H3 H4 H5]. split; try done. cbn. destruct (has ctl _); cbn; [|done]. intros _. by apply messages_bound.
  - rewrite <- Hv. unfold line_of. cbn. by destruct (has ctl _).
Qed.

(** A write of the register, or one beside it, and what becomes pending. *)
Lemma moves_msicap k l v s0 p offset bytes val : p ∈ l -> p.2 = PCIY_MSI -> aligned (width bytes) offset -> spare (width bytes) offset l ->
  (offset = p.1 + 2 -> bytes = 2 -> mme_ok val = true) -> moves k l v s0 (msicap_cfgwrite k p.1 offset bytes val).
Proof.
  intros Hp Hi Ha Hs Hm s H. unfold msicap_cfgwrite. apply runs_bind.
  eapply runs_weaken with (P := fun _ s' => exists v', evolves v v' /\ st k (vdev_ok l) v' s0 s').
  { destruct ((offset - p.1 =? 2) && (bytes =? 2)) eqn:Eb; [|apply runs_ret; exists v; by split].
    apply andb_true_iff in Eb as [Eo%Z.eqb_eq Eb%Z.eqb_eq]. subst bytes. apply runs_bind.
    eapply runs_weaken; [eapply masked_run; [done|exact Ha]|]. cbv beta. intros ctl s1 (-> & old & ->).
    apply runs_bind. eapply runs_weaken; [eapply take_run; [done|done|done|apply masked_mme, Hm; lia]|]. cbv beta. intros _ s2 [b H2].
    apply runs_bind. eapply runs_weaken; [by apply runs_update|]. cbv beta. intros _ s3 H3. apply runs_ret.
    eexists. split; [|exact H3]. apply updated_evolves. }
  intros val' s1 (v' & Hev & H1). apply runs_bind. eapply runs_weaken; [by eapply keeps_spare|]. cbv beta. intros _ s2 H2.
  destruct (st_dev _ _ _ _ _ H2) as (d & E & Hd). apply runs_bind, (runs_dev k s2 d); [done|].
  eapply runs_weaken with (P := fun _ s' => st k (vdev_ok l) v' s0 s'); [|by intros _ s3 H3; exists v'].
  destruct (msi_on (d_msi d)) eqn:Eon; cbn [when]; [|by apply runs_ret]. pose proof (vo_msi _ _ Hd Eon) as Hmax. revert s2 H2 E. clear s1 H1 H s.
  intros s2 H2 _. revert s2 H2. apply keeps_each. intros i Hin s H.
  unfold upto in Hin. apply list_elem_of_fmap in Hin as (j & -> & Hj). apply elem_of_seq in Hj.
  apply runs_bind. eapply runs_weaken; [eapply msi_bit_run; [done|by left|lia]|]. cbv beta. intros [] s1 ->; [by apply runs_ret|].
  apply runs_bind. eapply runs_weaken; [eapply msi_bit_run; [done|by right|lia]|]. cbv beta. intros pend s1 ->.
  apply keeps_cond; [|done]. apply keeps_generate. lia.
Qed.

Lemma moves_msixcap k l v s0 p offset bytes val : aligned (width bytes) offset -> spare (width bytes) offset l ->
  moves k l v s0 (msixcap_cfgwrite k p offset bytes val).
Proof.
  intros Ha Hs s H. unfold msixcap_cfgwrite. apply runs_bind.
  eapply runs_weaken with (P := fun _ s' => exists v', evolves v v' /\ st k (vdev_ok l) v' s0 s').
  { destruct ((offset - p =? 2) && (bytes =? 2)) eqn:Eb; [|apply runs_ret; exists v; by split].
    apply andb_true_iff in Eb as [Eo%Z.eqb_eq Eb%Z.eqb_eq]. subst bytes. apply runs_bind.
    eapply runs_weaken; [eapply masked_run; [done|exact Ha]|]. cbv beta. intros ctl s1 (-> & old & ->). set (x := Z.lor _ _).
    pose proof H as (_ & _ & d & E & Hd & Hv). apply runs_bind, runs_bind, (runs_dev k s d); [done|]. apply runs_set_dev.
    apply runs_bind. eapply runs_weaken; [eapply runs_update, st_put; [exact H| |reflexivity]|].
    - destruct Hd as [H1 H2 H3 H4 H5]. by split.
    - cbv beta. intros _ s3 H3. apply runs_ret. eexists. split; [|exact H3]. rewrite <- Hv. apply (updated_evolves (line_of d _)). }
  intros val' s1 (v' & Hev & H1). eapply runs_weaken; [by eapply keeps_spare|]. cbv beta. intros _ s2 H2. by exists v'.
Qed.

(** What a polite write leaves out: a reserved number of messages in the register of an MSI capability. *)
Definition msi_polite l (coff bytes val : Z) : Prop :=
  forall p, p ∈ l -> p.2 = PCIY_MSI ->
    (coff = p.1 + 2 -> bytes = 2 -> mme_ok val = true) /\ (coff = p.1 -> bytes = 4 -> mme_ok (Z.shiftr val 16) = true).

Lemma moves_dispatch k l v s0 p offset bytes val : p ∈ l -> p.1 + 2 <= offset -> aligned (width bytes) offset -> spare (width bytes) offset l ->
  (p.2 = PCIY_MSI -> offset = p.1 + 2 -> bytes = 2 -> mme_ok val = true) -> moves k l v s0 (cap_dispatch k p.1 offset bytes val).
Proof.
  intros Hp Ho Ha Hs Hm s H. destruct (st_dev _ _ _ _ _ H) as (d & E & Hd).
  destruct (dev_chain l d Hd) as (Hc & He & _); [by intros ->; apply not_elem_of_nil in Hp|].
  pose proof (chain_bounds _ _ _ Hc) as Hb. rewrite Forall_forall in Hb. destruct (Hb p Hp) as (B1 & _ & B3 & B4 & _).
  apply runs_bind, (runs_byte k l v s0); [done|lia|]. intros d' E' _. rewrite E in E'. injection E' as <-. rewrite B4.
  destruct (Z.eqb_spec p.2 PCIY_MSI); [by apply moves_msicap; auto|]. destruct (p.2 =? PCIY_MSIX); [by apply moves_msixcap|].
  destruct (p.2 =? PCIY_EXPRESS); (apply moves_keeps; [|done]); by apply keeps_spare.
Qed.

Lemma owner_run k l v s0 s offset : st k (vdev_ok l) v s0 s -> l <> [] -> 0x40 <= offset ->
  runs (owning_cap cap_fuel k offset CAP_START_OFFSET) s (fun r s' => s' = s /\ exists p, owner_cap l offset p /\ p.1 = r).
Proof.
  intros H Hl Ho. destruct (st_dev _ _ _ _ _ H) as (d & E & Hd). destruct (dev_chain l d Hd Hl) as (Hc & He & _).
  pose proof (vo_caps _ _ Hd) as Hcap. destruct l as [|q l]; [done|]. destruct Hcap as (Hq & _). rewrite <- Hq.
  apply (owning_run k (q :: l) v s0 s offset l [] q cap_fuel); [done| |done|rewrite Hq; unfold CAP_START_OFFSET; lia|constructor].
  pose proof (chain_length _ _ q l Hc). cbn [length] in *. unfold cap_fuel, CAP_START_OFFSET in *. lia.
Qed.

Lemma capwrite_run k l v s0 s d offset bytes val : st k (vdev_ok l) v s0 s -> devs (clients s) !! k = Some d -> vdev_ok l d -> l <> [] ->
  bytes = 1 \/ bytes = 2 \/ bytes = 4 -> 0x40 <= offset <= capend d -> msi_polite l offset bytes val ->
  runs (pci_emul_capwrite k offset bytes val) s (fun _ s' => exists v', evolves v v' /\ st k (vdev_ok l) v' s0 s').
Proof.
  intros H E Hd Hl Hb H0 Hpol. unfold pci_emul_capwrite. destruct (width_bytes bytes Hb) as [Hw Hw'].
  destruct (Z.land offset (bytes - 1) =? 0) eqn:Eal; cbn [negb]; [|by apply runs_ret; exists v].
  apply Z.eqb_eq in Eal. rewrite <- Hw in Eal. rewrite land_align in Eal by done.
  destruct (dev_chain l d Hd Hl) as (Hc & He & Hm4).
  assert (Ha : aligned (width bytes) offset).
  { split; [done|]. split; [lia|]. split; [|done]. rewrite Hw in *. destruct Hb as [-> | [-> | ->]]; Z.div_mod_to_equations; lia. }
  apply runs_bind. eapply runs_weaken; [eapply owner_run; [done|done|lia]|]. cbv beta. intros r s1 (-> & p & Hown & <-).
  pose proof Hown as (Hp & Hle & _). pose proof (Hpol p Hp) as Hpp.
  destruct ((offset =? p.1) || (offset =? p.1 + 1)) eqn:Eo.
  - destruct ((offset =? p.1) && (bytes =? 4)) eqn:E4; [|by apply runs_ret; exists v].
    apply andb_true_iff in E4 as [E1%Z.eqb_eq E2%Z.eqb_eq]. subst bytes. rewrite E1 in *.
    destruct (header_owner _ _ l p Hc Hp) as [Ho2 Ha2]; [done|].
    apply moves_dispatch; [done|lia|done| |by intros Hi _ _; apply (Hpp Hi)|done].
    split; [lia|]. split; [lia|]. by eapply owner_off_headers; [exact Hc|exact Ho2|exact Ha2|lia].
  - apply orb_false_iff in Eo as [E1%Z.eqb_neq E2%Z.eqb_neq].
    apply moves_dispatch; [done|lia|done| |by intros Hi; apply (Hpp Hi)|done].
    split; [lia|]. split; [lia|]. eapply owner_off_headers; [exact Hc|exact Hown|exact Ha|lia].
Qed.
End Guest.
