(* ===== verification/PciBar.v ===== *)
(** * BARs that are moved

    What a write to a BAR register makes of the BAR and its register, and registration, which
    keeps the rest of the device. *)
From S2P Require Import Prelude RbTree RbTreeSpec Mmio MmioSpec Inout PciConfig PciIrq PciCore PciCfg PciCoreSpec PciGuest.

(** ** Addresses, bit by bit *)

Lemma testbit_mask b n j : b_size b = 2 ^ n -> 0 <= n -> 0 <= j -> Z.testbit (bar_mask b) j = (n <=? j) && (j <? 64).
Proof.
  intros Hs Hn Hj. unfold bar_mask. rewrite Hs. replace (2 ^ n - 1) with (Z.ones n) by (rewrite Z.ones_equiv; lia).
  unfold u64. rewrite wrap_land, Z.land_spec, Z.lnot_spec by lia.
  destruct (Z.leb_spec n j), (Z.ltb_spec j 64); cbn [andb].
  - rewrite (Z.ones_spec_high n), (Z.ones_spec_low 64) by lia. done.
  - rewrite (Z.ones_spec_high 64) by lia. apply andb_false_r.
  - by rewrite (Z.ones_spec_low n) by lia.
  - by rewrite (Z.ones_spec_low n) by lia.
Qed.
Lemma testbit_high j : 0 <= j -> Z.testbit (2 ^ 64 - 2 ^ 32) j = (32 <=? j) && (j <? 64).
Proof.
  intros Hj. change (2 ^ 64 - 2 ^ 32) with (Z.shiftl (Z.ones 32) 32). rewrite Z.shiftl_spec by done.
  destruct (Z.leb_spec 32 j), (Z.ltb_spec j 64); cbn [andb].
  - by rewrite Z.ones_spec_low by lia.
  - by rewrite Z.ones_spec_high by lia.
  - by rewrite Z.testbit_neg_r by lia.
  - by rewrite Z.testbit_neg_r by lia.
Qed.
Lemma testbit_low j : 0 <= j -> Z.testbit 0xffffffff j = (j <? 32).
Proof.
  intros Hj. change 0xffffffff with (Z.ones 32). destruct (Z.ltb_spec j 32); [apply Z.ones_spec_low|apply Z.ones_spec_high]; lia.
Qed.

(** Aligned and of width [w], it ends there too. *)
Lemma room n w a : 0 <= n <= w -> fits w a -> low_clear n a -> a + 2 ^ n <= 2 ^ w.
Proof.
  intros Hn [H0 H1] Hl. assert (Hm : a mod 2 ^ n = 0).
  { rewrite <- Z.land_ones by lia. apply Z.bits_inj'. intros j Hj. rewrite Z.land_spec, Z.bits_0. destruct (Z.lt_ge_cases j n).
    - by rewrite Hl by lia.
    - rewrite Z.ones_spec_high by lia. apply andb_false_r. }
  pose proof (pow2_pos n ltac:(lia)) as Hp. pose proof (Z.div_mod a (2 ^ n) ltac:(lia)) as Hd. rewrite Hm, Z.add_0_r in Hd.
  assert (Hw : 2 ^ w = 2 ^ n * 2 ^ (w - n)) by (rewrite <- Z.pow_add_r by lia; f_equal; lia).
  assert (a / 2 ^ n < 2 ^ (w - n)) by nia. nia.
Qed.

Lemma bar_range_ok k idx d b : bar_ok b -> b_type b = PCIBAR_MEM32 \/ b_type b = PCIBAR_MEM64 -> range_ok (bar_range k idx d b).
Proof.
  unfold bar_ok, range_ok. intros Hb Ht. assert (Hx : exists w, w <= 64 /\ bar_in 4 w b) by (destruct Ht as [E|E]; rewrite E in Hb; by eexists; split; [|exact Hb]).
  destruct Hx as (w & Hw & n & Hn & Hs & Hf & Hl). cbn. rewrite Hs. pose proof (room n w (b_addr b) ltac:(lia) Hf Hl).
  pose proof (Z.pow_le_mono_r 2 w 64 ltac:(lia) Hw). pose proof (pow2_pos n ltac:(lia)). destruct Hf. lia.
Qed.

(** ** What a write makes of a BAR *)

Definition moved (b : pcibar) (a : Z) : pcibar := b <| b_addr := a |>.
Definition io_addr (b : pcibar) (eax : Z) : Z := Z.land (Z.land eax (bar_mask b)) 0xffff.
Definition mem_addr (b : pcibar) (eax : Z) : Z := Z.land eax (bar_mask b).
Definition low_addr (b : pcibar) (eax : Z) : Z := Z.lor (Z.land (b_addr b) (2 ^ 64 - 2 ^ 32)) (Z.land eax (bar_mask b)).
Definition high_addr (b : pcibar) (eax : Z) : Z := Z.lor (Z.land (b_addr b) 0xffffffff) (Z.land (Z.shiftl eax 32) (bar_mask b)).

Ltac bits :=
  repeat first [rewrite Z.lor_spec | rewrite Z.land_spec | rewrite testbit_high by lia | rewrite testbit_low by lia |
                rewrite Z.shiftl_spec by lia | rewrite Z.shiftr_spec by lia].
Ltac bounds_of j := repeat match goal with
  | |- context [?x <=? j] => destruct (Z.leb_spec x j); try lia
  | |- context [j <? ?x] => destruct (Z.ltb_spec j x); try lia
  end; cbn [andb orb]; rewrite ?andb_false_r, ?andb_true_r, ?orb_false_r, ?orb_true_r.

Lemma fits_by_bits w a : 0 <= w -> 0 <= a -> (forall j, w <= j -> Z.testbit a j = false) -> fits w a.
Proof. apply fits_testbit. Qed.

Lemma io_moved b eax : bar_in 2 16 b -> fits 32 eax -> bar_in 2 16 (moved b (io_addr b eax)).
Proof.
  intros (n & Hn & Hs & _ & _) He. exists n. split; [done|]. split; [done|]. cbn [moved b_addr]. split.
  - apply fits_land_l; [lia|apply Z.land_nonneg; left; apply He|split; [lia|reflexivity]].
  - intros j Hj. change (b_addr (moved b (io_addr b eax))) with (io_addr b eax). unfold io_addr. bits. rewrite (testbit_mask b n) by (done || lia).
    by bounds_of j.
Qed.
Lemma mem_moved b eax : bar_in 4 32 b -> fits 32 eax -> bar_in 4 32 (moved b (mem_addr b eax)).
Proof.
  intros (n & Hn & Hs & _ & _) He. exists n. split; [done|]. split; [done|]. split.
  - apply fits_land_r; [lia|done].
  - intros j Hj. change (b_addr (moved b (mem_addr b eax))) with (mem_addr b eax). unfold mem_addr. bits. rewrite (testbit_mask b n) by (done || lia).
    by bounds_of j.
Qed.

Lemma low_addr_bit b eax n j : bar_in 4 64 b -> b_size b = 2 ^ n -> 0 <= n -> fits 32 eax -> 0 <= j ->
  Z.testbit (low_addr b eax) j = if j <? 32 then Z.testbit (Z.land eax (bar_mask b)) j else Z.testbit (b_addr b) j.
Proof.
  intros (m & Hm & Hs & Hf & Hl) Hn H0 He Hj. unfold low_addr. bits. destruct (Z.ltb_spec j 32).
  - by bounds_of j.
  - rewrite (testbit_fits 32 eax) by (done || lia). cbn [andb]. rewrite orb_false_r. bounds_of j; [done|]. by rewrite (testbit_fits 64).
Qed.
Lemma low_moved b eax : bar_in 4 64 b -> fits 32 eax -> bar_in 4 64 (moved b (low_addr b eax)).
Proof.
  intros Hb He. pose proof Hb as (n & Hn & Hs & Hf & Hl). exists n. split; [done|]. split; [done|].
  change (b_addr (moved b (low_addr b eax))) with (low_addr b eax). split.
  - apply fits_testbit; [lia|apply Z.lor_nonneg; split; apply Z.land_nonneg; [left; apply Hf|left; apply He]|].
    intros j Hj. rewrite (low_addr_bit b eax n) by (done || lia). bounds_of j. by rewrite (testbit_fits 64).
  - intros j Hj. rewrite (low_addr_bit b eax n) by (done || lia). destruct (Z.ltb_spec j 32); [|by apply Hl].
    bits. rewrite (testbit_mask b n) by (done || lia). by bounds_of j.
Qed.

Lemma high_addr_bit b eax n j : bar_in 4 64 b -> b_size b = 2 ^ n -> 0 <= n -> fits 32 eax -> 0 <= j ->
  Z.testbit (high_addr b eax) j = if j <? 32 then Z.testbit (b_addr b) j else Z.testbit (Z.land (Z.shiftl eax 32) (bar_mask b)) j.
Proof.
  intros (m & Hm & Hs & Hf & Hl) Hn H0 He Hj. unfold high_addr. bits. destruct (Z.ltb_spec j 32).
  - rewrite (Z.testbit_neg_r eax) by lia. by rewrite andb_true_r, orb_false_r.
  - by rewrite andb_false_r.
Qed.
Lemma high_moved b eax : bar_in 4 64 b -> fits 32 eax -> bar_in 4 64 (moved b (high_addr b eax)).
Proof.
  intros Hb He. pose proof Hb as (n & Hn & Hs & Hf & Hl). exists n. split; [done|]. split; [done|].
  change (b_addr (moved b (high_addr b eax))) with (high_addr b eax). split.
  - apply fits_testbit; [lia|apply Z.lor_nonneg; split; apply Z.land_nonneg; [left; apply Hf|left; apply Z.shiftl_nonneg, He]|].
    intros j Hj. rewrite (high_addr_bit b eax n) by (done || lia). bounds_of j. bits. rewrite (testbit_mask b n) by (done || lia). by bounds_of j.
  - intros j Hj. rewrite (high_addr_bit b eax n) by (done || lia). destruct (Z.ltb_spec j 32); [apply Hl; lia|].
    bits. rewrite (testbit_mask b n) by (done || lia). by bounds_of j.
Qed.

(** ** The register that is written *)

Definition with_bar (d : pci_vdev) (i : Z) (b : pcibar) : pci_vdev := d <| bar ::= fun l => setZ l i b |>.
Definition with_reg (d : pci_vdev) (i val : Z) : pci_vdev := d <| cfgdata ::= store 4 (PCIR_BAR i) val |>.

Lemma reg_aligned i : 0 <= i < 6 -> aligned 4 (PCIR_BAR i).
Proof. intros Hi. unfold PCIR_BAR. split; [tauto|]. change (Z.of_nat 4) with 4. split; [lia|]. split; [lia|]. Z.div_mod_to_equations. lia. Qed.

Lemma reg_bit_store c i0 val i j : cfg_ok c -> 0 <= i0 < 6 -> 0 <= i < 6 -> 0 <= j < 32 ->
  reg_bit (store 4 (PCIR_BAR i0) val c) i j = if i =? i0 then Z.testbit val j else reg_bit c i j.
Proof.
  intros Hc H0 Hi Hj. unfold reg_bit. rewrite cbit_store by (done || (apply reg_aligned; done) || (unfold PCIR_BAR; lia)). unfold PCIR_BAR. change (Z.of_nat 4) with 4.
  destruct (Z.leb_spec (8 * (0x10 + i0 * 4)) (8 * (0x10 + i * 4) + j)), (Z.ltb_spec (8 * (0x10 + i * 4) + j) (8 * (0x10 + i0 * 4 + 4))), (Z.eqb_spec i i0);
    cbn [andb]; try lia; try done. f_equal. lia.
Qed.

(** Another address of the same BAR, and its register: of the BAR itself, or of its upper half. *)
Lemma vdev_ok_moved l d i b a i0 val : vdev_ok l d -> 0 <= i < 6 -> 0 <= i0 < 6 -> nthZ (bar d) i = Some b -> bar_ok (moved b a) ->
  (i0 = i /\ (b_type b = PCIBAR_MEM64 -> forall j, 32 <= j < 64 -> Z.testbit a j = Z.testbit (b_addr b) j) \/
   i0 = i + 1 /\ b_type b = PCIBAR_MEM64 /\ forall j, 0 <= j < 32 -> Z.testbit a j = Z.testbit (b_addr b) j) ->
  (forall x, nthZ (setZ (bar d) i (moved b a)) i0 = Some x -> mirrored (store 4 (PCIR_BAR i0) val (cfgdata d)) (setZ (bar d) i (moved b a)) i0 x) ->
  vdev_ok l (with_reg (with_bar d i (moved b a)) i0 val).
Proof.
  intros Hd Hi Hi0 Hb Hok Hcase Hnew. pose proof Hd as [H1 H2 H3 H4 H5]. set (bars := setZ (bar d) i (moved b a)) in *. set (c := store 4 (PCIR_BAR i0) val (cfgdata d)) in *.
  pose proof (set_run 4 (PCIR_BAR i0) val (cfgdata d) H1 (reg_aligned i0 Hi0)) as [_ Hc]. fold c in Hc. split.
  - exact Hc.
  - change (length bars = 7%nat). unfold bars. by rewrite length_setZ.
  - change (cfgdata (with_reg (with_bar d i (moved b a)) i0 val)) with c. change (bar (with_reg (with_bar d i (moved b a)) i0 val)) with bars.
    intros j x Hj Hx. destruct (Z.eq_dec j i0) as [-> |Hne].
    { split; [|by apply Hnew]. destruct (Z.eq_dec i0 i) as [E|E].
      - unfold bars in Hx. rewrite E, (nthZ_setZ_eq _ _ b) in Hx by done. by injection Hx as <-.
      - unfold bars in Hx. rewrite nthZ_setZ_ne in Hx by done. by apply (H3 i0 x). }
    assert (Er : forall t, 0 <= t < 32 -> reg_bit c j t = reg_bit (cfgdata d) j t).
    { intros t Ht. unfold c. rewrite reg_bit_store by done. by rewrite (proj2 (Z.eqb_neq _ _)). }
    destruct (Z.eq_dec j i) as [-> |Hji].
    + unfold bars in Hx. rewrite (nthZ_setZ_eq _ _ b) in Hx by done. injection Hx as <-. split; [done|].
      destruct Hcase as [[-> _]|(_ & Ht & Hlow)]; [done|]. destruct (H3 i b Hi Hb) as [_ Hm]. unfold mirrored in *.
      change (b_type (moved b a)) with (b_type b). rewrite Ht in *. change (b_addr (moved b a)) with a. destruct Hm as [M0 M1].
      rewrite !Er by lia. split; [done|]. intros t Ht'. rewrite Er, Hlow by lia. by apply M1.
    + unfold bars in Hx. rewrite nthZ_setZ_ne in Hx by done. destruct (H3 j x Hj Hx) as [Hxo Hm]. split; [done|].
      unfold mirrored in *. destruct (b_type x); try done.
      * destruct Hm as (M0 & M1 & M2). rewrite !Er by lia. split; [done|]. split; [done|]. intros t Ht. rewrite Er by lia. by apply M2.
      * destruct Hm as (M0 & M1). rewrite !Er by lia. split; [done|]. intros t Ht. rewrite Er by lia. by apply M1.
      * destruct Hm as (M0 & M1). rewrite !Er by lia. split; [done|]. intros t Ht. rewrite Er by lia. by apply M1.
      * destruct Hm as (lo & M0 & M1 & M2). destruct (Z.eq_dec (j - 1) i) as [Eji|Nji].
        -- exists (moved b a). unfold bars. rewrite Eji in *. rewrite (nthZ_setZ_eq _ _ b) by done. split; [done|].
           rewrite Hb in M0. injection M0 as <-. split; [done|]. intros t Ht. rewrite Er, M2 by lia. change (b_addr (moved b a)) with a.
           destruct Hcase as [[_ Hh]|(Hx0 & _)]; [|lia]. symmetry. apply Hh; [done|lia].
        -- exists lo. unfold bars. rewrite nthZ_setZ_ne by lia. split; [done|]. split; [done|]. intros t Ht. rewrite Er by lia. by apply M2.
  - unfold caps_ok in *. change (cfgdata (with_reg (with_bar d i (moved b a)) i0 val)) with c.
    assert (Hbit : forall t, 0 <= t < 128 -> cbit c t = cbit (cfgdata d) t).
    { intros t Ht. unfold c. rewrite cbit_store by (done || (by apply reg_aligned) || lia). unfold PCIR_BAR.
      destruct (Z.leb_spec (8 * (16 + i0 * 4)) t); [lia|]. done. }
    rewrite Hbit by (unfold CAPPRESENT_BIT, PCIR_STATUS; lia). destruct l as [|p l]; [done|]. destruct H4 as (C1 & C2 & C3 & C4 & C5).
    split; [done|]. split; [done|]. assert (Hal : aligned 4 (PCIR_BAR i0)) by (by apply reg_aligned).
    split; [unfold c; rewrite byte_store_out; try done; unfold PCIR_CAP_PTR, PCIR_BAR; change (Z.of_nat 4) with 4; lia|]. split; [|done].
    apply chain_store; [done|done|done|]. pose proof (chain_bounds _ _ _ C4) as Hbd. unfold off_headers. eapply Forall_impl; [exact Hbd|].
    cbn beta. intros q (Hq & _). left. unfold PCIR_BAR. change (Z.of_nat 4) with 4. lia.
  - exact H5.
Qed.

(** The flag of sizing is not part of it. *)
Lemma vdev_ok_sizing l d i b x : vdev_ok l d -> nthZ (bar d) i = Some b -> vdev_ok l (with_bar d i (b <| sizing := x |>)).
Proof.
  intros [H1 H2 H3 H4 H5] Hb. split; [done| | |done|done].
  - unfold with_bar. cbn. by rewrite length_setZ.
  - unfold with_bar. cbn. intros j y Hj Hy. destruct (Z.eq_dec j i) as [-> |Hne].
    + rewrite (nthZ_setZ_eq _ _ b) in Hy by done. injection Hy as <-. destruct (H3 i b Hj Hb) as [Ho Hm]. split; [exact Ho|].
      unfold mirrored in *. cbn. destruct (b_type b); try done. destruct Hm as (lo & M0 & M1). exists lo. rewrite nthZ_setZ_ne by lia. done.
    + rewrite nthZ_setZ_ne in Hy by done. destruct (H3 j y Hj Hy) as [Ho Hm]. split; [done|]. unfold mirrored in *. destruct (b_type y); try done.
      destruct Hm as (lo & M0 & M1 & M2). destruct (Z.eq_dec (j - 1) i) as [E|E].
      * exists (b <| sizing := x |>). rewrite E in *. rewrite (nthZ_setZ_eq _ _ b) by done. rewrite Hb in M0. injection M0 as <-. done.
      * exists lo. rewrite nthZ_setZ_ne by done. done.
Qed.

Section Reading.
Context {P : Type}.
Implicit Types (s : machine P) (k : Z) (d : pci_vdev).

Lemma the_bar_run k I v s0 s i d b Q : st k I v s0 s -> devs (clients s) !! k = Some d -> nthZ (bar d) i = Some b -> Q b s -> runs (the_bar k i) s Q.
Proof. intros _ E Hb HQ. apply runs_bind, (runs_dev k s d); [done|]. rewrite Hb. by apply runs_ret. Qed.

(** Whether the space of a BAR is decoded. *)
Definition decodes (d : pci_vdev) (b : pcibar) : bool := cbit (cfgdata d) (8 * PCIR_COMMAND + if bool_decide (b_type b = PCIBAR_IO) then 0 else 1).
Lemma decoding_run k s d b Q : devs (clients s) !! k = Some d -> cfg_ok (cfgdata d) -> Q (decodes d b) s -> runs (decoding k (b_type b)) s Q.
Proof.
  intros E Hc HQ. assert (Ha : aligned 2 PCIR_COMMAND) by (unfold PCIR_COMMAND; split; [tauto|]; split; [lia|]; split; [lia|done]).
  unfold decoding, decodes in *. destruct (bool_decide _); apply runs_bind, (runs_get_cfg 2 k PCIR_COMMAND s d); try done; intros cmd _ _ Hb; apply runs_ret.
  - change PCIM_CMD_PORTEN with (2 ^ 0). by rewrite has_pow2, Hb by lia.
  - change PCIM_CMD_MEMEN with (2 ^ 1). by rewrite has_pow2, Hb by lia.
Qed.
Lemma keeps_decoding k I v s0 t : (forall d, I d -> cfg_ok (cfgdata d)) -> keeps k I v s0 (decoding k t).
Proof.
  intros HI s H. destruct (st_dev _ _ _ _ _ H) as (d & E & Hd). replace t with (b_type (mkBar t 0 0 false)) by done.
  eapply decoding_run; [done|by apply HI|done].
Qed.

Lemma on_bar_run k I v s0 s i f d b : st k I v s0 s -> devs (clients s) !! k = Some d -> nthZ (bar d) i = Some b ->
  runs (on_bar k i f) s (fun _ s' => st k (eq (with_bar d i (f b))) v s0 s').
Proof.
  intros H E Hb. apply runs_bind. eapply the_bar_run; [done|done|done|]. apply runs_bind, (runs_dev k s d); [done|]. apply runs_set_dev.
  eapply st_put; [exact H|done|]. pose proof H as (_ & _ & d' & E' & _ & Hv). rewrite E in E'. injection E' as <-. by rewrite <- Hv.
Qed.

Lemma st_eq k d v s0 s : st k (eq d) v s0 s -> devs (clients s) !! k = Some d.
Proof. intros (_ & _ & d' & E & <- & _). done. Qed.
Lemma st_weaken k (I I' : pci_vdev -> Prop) v s0 s : (forall d, I d -> I' d) -> st k I v s0 s -> st k I' v s0 s.
Proof. intros Hi (Hm & Hf & d & E & Hd & Hv). split; [done|]. split; [done|]. exists d. auto. Qed.

End Reading.

(** ** Registration *)

Section Write.
Context {P : Type} (dev_ops : Z -> vdev_ops P) (malloc : nat -> bool).
Notation vm := (machine P).
Implicit Types (s : vm) (k : Z) (l : list cap) (d : pci_vdev).

(** Registering and unregistering leave the devices alone. *)
Lemma keeps_registration k I v s0 i r : (forall d, I d -> exists b, nthZ (bar d) i = Some b /\ bar_ok b) ->
  keeps k I v s0 (modify_bar_registration dev_ops malloc k i r).
Proof.
  intros HI s H. unfold modify_bar_registration. destruct (is_pt_pci dev_ops k); [by apply runs_ret|].
  pose proof H as (Hm & Hf & d & E & Hd & Hv). destruct (HI d Hd) as (b & Hb & Hok).
  apply runs_bind, (runs_dev k s d); [done|]. apply runs_bind. eapply the_bar_run; [done|done|done|].
  assert (Hmem : b_type b = PCIBAR_MEM32 \/ b_type b = PCIBAR_MEM64 -> runs (if r then
        p ← the_pci; _ ← on_pci (fun p => p <| mallocs ::= S |>); register_mem (malloc (mallocs p)) (bar_range k i d b)
      else unregister_mem (bar_range k i d b)) s (fun _ s' => st k I v s0 s')).
  { intros Ht. pose proof (bar_range_ok k i d b Hok Ht) as Hr. destruct r.
    - apply runs_bind, runs_bind, runs_get, runs_ret. apply runs_bind, runs_modify.
      set (s1 := s <| clients ::= _ |>). assert (Hm1 : mmio_ok s1) by (by apply mmio_ok_clients).
      eapply runs_weaken; [by apply mem_register_run|]. cbv beta. intros _ s' (Hm' & Hc & _). split; [done|]. unfold frame. rewrite Hc. split; [done|]. by exists d.
    - eapply runs_weaken; [by apply unregister_run|]. cbv beta. intros _ s' (Hm' & Hc & _). split; [done|]. unfold frame. rewrite Hc. split; [done|]. by exists d. }
  destruct (b_type b) eqn:Et; try (by apply runs_ret); try (apply Hmem; auto).
  set (f := if r then _ else _). unfold on_ports. apply runs_bind, runs_bind, runs_get, runs_ret.
  destruct (f (ports (clients s))) as [x t]. apply runs_bind, runs_modify, runs_ret.
  split; [by apply mmio_ok_clients|]. split; [done|]. by exists d.
Qed.

Lemma keeps_unregister k I v s0 i : (forall d, I d -> exists b, nthZ (bar d) i = Some b /\ bar_ok b) -> keeps k I v s0 (unregister_bar dev_ops malloc k i).
Proof. intros HI. apply keeps_seq; [by apply keeps_registration|]. intros _. apply keeps_unit. Qed.
Lemma keeps_register k I v s0 i : (forall d, I d -> exists b, nthZ (bar d) i = Some b /\ bar_ok b) -> keeps k I v s0 (_ ← register_bar dev_ops malloc k i; mret tt).
Proof. intros HI. apply keeps_seq; [by apply keeps_registration|]. intros _. apply keeps_unit. Qed.

(** The address that [update_bar_address] leaves. *)
Definition new_addr (type : pcibar_type) (b : pcibar) (addr : Z) : Z :=
  match type with
  | PCIBAR_MEM64 => Z.lor (Z.land (b_addr b) (2 ^ 64 - 2 ^ 32)) addr
  | PCIBAR_MEMHI64 => Z.lor (Z.land (b_addr b) 0xffffffff) addr
  | _ => addr
  end.

Lemma update_run k v s0 s d i b addr type ign : st k (eq d) v s0 s -> nthZ (bar d) i = Some b -> cfg_ok (cfgdata d) -> bar_ok b ->
  type = PCIBAR_IO \/ type = PCIBAR_MEM32 \/ type = PCIBAR_MEM64 \/ type = PCIBAR_MEMHI64 -> bar_ok (moved b (new_addr type b addr)) ->
  runs (update_bar_address dev_ops malloc k addr i type ign) s (fun _ s' => st k (eq (with_bar d i (moved b (new_addr type b addr)))) v s0 s').
Proof.
  intros H Hb Hc Hok Ht Hok'. unfold update_bar_address. apply runs_bind. eapply the_bar_run; [done|by eapply st_eq|done|].
  assert (HI : forall d', d = d' -> exists b, nthZ (bar d') i = Some b /\ bar_ok b) by (intros d' <-; by exists b).
  apply runs_bind. eapply runs_weaken with (P := fun _ s' => st k (eq d) v s0 s').
  { destruct ign; [by apply runs_ret|]. eapply keeps_decoding; [by intros d' <-|done]. }
  intros decode s1 H1. apply runs_bind. eapply runs_weaken; [eapply keeps_cond; [apply keeps_unregister, HI|exact H1]|]. cbv beta. intros _ s2 H2.
  pose proof (st_eq _ _ _ _ _ H2) as E2. set (b' := moved b _) in *.
  destruct Ht as [-> | [-> | [-> | ->]]].
  all: apply runs_bind; eapply runs_weaken; [by eapply on_bar_run|]; cbv beta; intros _ s3 H3; eapply keeps_cond; [|exact H3];
    apply keeps_register; intros d' <-; exists b'; (split; [|done]); unfold with_bar; cbn; by rewrite (nthZ_setZ_eq _ _ b).
Qed.

Lemma with_bar_id d i b : nthZ (bar d) i = Some b -> with_bar d i b = d.
Proof.
  intros Hb. change (with_bar d i b) with (mkVdev (dev_name d) (prevcap d) (capend d) (d_lintr d) (d_msi d) (d_msix d) (cfgdata d) (setZ (bar d) i b)).
  rewrite setZ_id by done. by destruct d.
Qed.

(** The move, and the register after it. *)
Lemma reg_run k l v s0 s d i b a i0 val : st k (eq (with_bar d i (moved b a))) v s0 s ->
  vdev_ok l (with_reg (with_bar d i (moved b a)) i0 val) -> cfg_ok (cfgdata d) -> 0 <= i0 < 6 ->
  runs (set_cfg 4 k (PCIR_BAR i0) val) s (fun _ s' => st k (vdev_ok l) v s0 s').
Proof.
  intros H Hd Hc Hi0. pose proof (st_eq _ _ _ _ _ H) as E. apply (runs_set_cfg 4 k (PCIR_BAR i0) val s (with_bar d i (moved b a))); [done|done|by apply reg_aligned|].
  eapply st_put; [exact H|exact Hd|]. pose proof H as (_ & _ & d' & E' & <- & <-). unfold line_of. cbn. f_equal.
  rewrite cbit_store by (done || (by apply reg_aligned) || (unfold INTxDIS_BIT, PCIR_COMMAND; lia)). unfold PCIR_BAR, INTxDIS_BIT, PCIR_COMMAND.
  destruct (Z.leb_spec (8 * (16 + i0 * 4)) (8 * 4 + 10)); [lia|done].
Qed.

Lemma bar_end_run k l v s0 s d i b i0 type addr same ign val : st k (eq d) v s0 s -> vdev_ok l d -> 0 <= i < 6 -> 0 <= i0 < 6 -> nthZ (bar d) i = Some b ->
  type = PCIBAR_IO \/ type = PCIBAR_MEM32 \/ type = PCIBAR_MEM64 \/ type = PCIBAR_MEMHI64 ->
  let a := new_addr type b addr in (same = true -> a = b_addr b) -> bar_ok (moved b a) ->
  (i0 = i /\ (b_type b = PCIBAR_MEM64 -> forall j, 32 <= j < 64 -> Z.testbit a j = Z.testbit (b_addr b) j) \/
   i0 = i + 1 /\ b_type b = PCIBAR_MEM64 /\ forall j, 0 <= j < 32 -> Z.testbit a j = Z.testbit (b_addr b) j) ->
  (forall x, nthZ (setZ (bar d) i (moved b a)) i0 = Some x -> mirrored (store 4 (PCIR_BAR i0) val (cfgdata d)) (setZ (bar d) i (moved b a)) i0 x) ->
  runs (_ ← when (negb same) (update_bar_address dev_ops malloc k addr i type ign); set_cfg 4 k (PCIR_BAR i0) val) s
    (fun _ s' => st k (vdev_ok l) v s0 s').
Proof.
  intros H Hd Hi Hi0 Hb Ht a Hsame Hok Hcase Hnew. pose proof (vo_cfg _ _ Hd) as Hc. destruct (vo_bar _ _ Hd i b Hi Hb) as [Hok0 _].
  apply runs_bind. eapply runs_weaken with (P := fun _ s' => st k (eq (with_bar d i (moved b a))) v s0 s').
  - destruct same; cbn [negb when]; [|by apply update_run]. apply runs_ret. rewrite (Hsame eq_refl).
    replace (moved b (b_addr b)) with b by (by destruct b). by rewrite with_bar_id.
  - intros _ s1 Hs1. eapply reg_run; [exact Hs1| |done|done]. exact (vdev_ok_moved l d i b a i0 val Hd Hi Hi0 Hb Hok Hcase Hnew).
Qed.

Lemma bar_exists l d i : vdev_ok l d -> 0 <= i < 7 -> exists b, nthZ (bar d) i = Some b.
Proof. intros H Hi. rewrite nthZ_lookup by lia. apply lookup_lt_is_Some_2. rewrite (vo_len _ _ H). lia. Qed.

(** The four bits that a register keeps. *)
Definition PROP_MASK := Z.lor (Z.lor PCIM_BAR_SPACE PCIM_BAR_MEM_TYPE) PCIM_BAR_MEM_PREFETCH.
Lemma prop_bits old j : 0 <= j -> Z.testbit (Z.land old PROP_MASK) j = Z.testbit old j && (j <? 4).
Proof.
  intros Hj. rewrite Z.land_spec. f_equal. change PROP_MASK with (Z.ones 4).
  destruct (Z.ltb_spec j 4); [apply Z.ones_spec_low|apply Z.ones_spec_high]; lia.
Qed.

(** The new register shows the new address: of ports, of memory, of the upper half. *)
Lemma mirrored_io c bars i b eax : cfg_ok c -> 0 <= i < 6 -> b_type b = PCIBAR_IO -> bar_in 2 16 b ->
  mirrored (store 4 (PCIR_BAR i) (Z.lor (io_addr b eax) PCIM_BAR_IO_SPACE) c) bars i (moved b (io_addr b eax)).
Proof.
  intros Hc Hi Et (n & Hn & Hs & _). unfold mirrored. change (b_type (moved b _)) with (b_type b). rewrite Et.
  change (b_addr (moved b ?x)) with x. change PCIM_BAR_IO_SPACE with 1.
  assert (Hv : forall j, 0 <= j < 32 -> reg_bit (store 4 (PCIR_BAR i) (Z.lor (io_addr b eax) 1) c) i j = Z.testbit (io_addr b eax) j || Z.testbit 1 j).
  { intros j Hj. by rewrite reg_bit_store, Z.eqb_refl, Z.lor_spec. }
  split; [rewrite Hv by lia; apply orb_true_r|]. split.
  - rewrite Hv by lia. unfold io_addr. rewrite !Z.land_spec, (testbit_mask b n) by (done || lia). by bounds_of 1.
  - intros j Hj. rewrite Hv by lia. replace (Z.testbit 1 j) with false; [apply orb_false_r|]. symmetry. apply (testbit_fits 2); [split; [lia|reflexivity]|lia].
Qed.

Lemma mirrored_mem c bars i b eax old a : cfg_ok c -> 0 <= i < 6 -> b_type b = PCIBAR_MEM32 \/ b_type b = PCIBAR_MEM64 -> bar_in 4 64 b ->
  Z.testbit old 0 = false -> (forall j, 0 <= j < 32 -> Z.testbit a j = Z.testbit (mem_addr b eax) j) ->
  mirrored (store 4 (PCIR_BAR i) (Z.lor (mem_addr b eax) (Z.land old PROP_MASK)) c) bars i (moved b a).
Proof.
  intros Hc Hi Et (n & Hn & Hs & _) Ho Ha.
  assert (Hm : reg_bit (store 4 (PCIR_BAR i) (Z.lor (mem_addr b eax) (Z.land old PROP_MASK)) c) i 0 = false /\
    forall j, 4 <= j < 32 -> reg_bit (store 4 (PCIR_BAR i) (Z.lor (mem_addr b eax) (Z.land old PROP_MASK)) c) i j = Z.testbit a j).
  { split.
    - rewrite reg_bit_store, Z.eqb_refl, Z.lor_spec, prop_bits, Ho by (done || lia). unfold mem_addr. rewrite Z.land_spec, (testbit_mask b n) by (done || lia).
      by bounds_of 0.
    - intros j Hj. rewrite reg_bit_store, Z.eqb_refl, Z.lor_spec, prop_bits, Ha by (done || lia). bounds_of j. done. }
  unfold mirrored. change (b_type (moved b a)) with (b_type b). destruct Et as [-> | ->]; exact Hm.
Qed.

Lemma mirrored_high c bars i lo b eax a : cfg_ok c -> 0 <= i < 6 -> b_type b = PCIBAR_MEMHI64 -> nthZ bars (i - 1) = Some lo -> b_type lo = PCIBAR_MEM64 ->
  (forall j, 0 <= j < 32 -> Z.testbit a (32 + j) = Z.testbit (Z.land (Z.shiftl eax 32) (bar_mask lo)) (32 + j)) ->
  mirrored (store 4 (PCIR_BAR i) (Z.shiftr (Z.land (Z.shiftl eax 32) (bar_mask lo)) 32) c) (setZ bars (i - 1) (moved lo a)) i b.
Proof.
  intros Hc Hi Et Hlo Htl Ha. unfold mirrored. rewrite Et. exists (moved lo a). split; [by rewrite (nthZ_setZ_eq _ _ lo)|]. split; [done|].
  intros j Hj. rewrite reg_bit_store, Z.eqb_refl by done. change (b_addr (moved lo a)) with a. rewrite Ha by lia.
  rewrite Z.shiftr_spec by lia. f_equal. lia.
Qed.

(** Where the bits of the half that is compared agree the address stays. *)
Lemma low_same b eax n : bar_in 4 64 b -> b_size b = 2 ^ n -> 0 <= n -> fits 32 eax -> mem_addr b eax = u32 (b_addr b) -> low_addr b eax = b_addr b.
Proof.
  intros Hb Hn H0 He Hq. apply Z.bits_inj'. intros j Hj. rewrite (low_addr_bit b eax n) by done. destruct (Z.ltb_spec j 32); [|done].
  fold (mem_addr b eax). rewrite Hq. unfold u32, wrap. by rewrite Z.mod_pow2_bits_low.
Qed.
Lemma high_same b eax n : bar_in 4 64 b -> b_size b = 2 ^ n -> 0 <= n -> fits 32 eax ->
  Z.shiftr (Z.land (Z.shiftl eax 32) (bar_mask b)) 32 = Z.shiftr (b_addr b) 32 -> high_addr b eax = b_addr b.
Proof.
  intros Hb Hn H0 He Hq. apply Z.bits_inj'. intros j Hj. rewrite (high_addr_bit b eax n) by done. destruct (Z.ltb_spec j 32); [done|].
  assert (Hx : forall x, Z.testbit x j = Z.testbit (Z.shiftr x 32) (j - 32)) by (intros x; rewrite Z.shiftr_spec by lia; f_equal; lia).
  by rewrite Hx, Hq, <- Hx.
Qed.

(** The halves that a write of the other leaves. *)
Lemma low_keeps b eax n : bar_in 4 64 b -> b_size b = 2 ^ n -> 0 <= n -> fits 32 eax ->
  (forall j, 32 <= j < 64 -> Z.testbit (low_addr b eax) j = Z.testbit (b_addr b) j) /\
  (forall j, 0 <= j < 32 -> Z.testbit (low_addr b eax) j = Z.testbit (mem_addr b eax) j).
Proof.
  intros Hb Hn H0 He. split; intros j Hj; rewrite (low_addr_bit b eax n) by (done || lia); destruct (Z.ltb_spec j 32); (done || lia).
Qed.
Lemma high_keeps b eax n : bar_in 4 64 b -> b_size b = 2 ^ n -> 0 <= n -> fits 32 eax ->
  (forall j, 0 <= j < 32 -> Z.testbit (high_addr b eax) j = Z.testbit (b_addr b) j) /\
  (forall j, 0 <= j < 32 -> Z.testbit (high_addr b eax) (32 + j) = Z.testbit (Z.land (Z.shiftl eax 32) (bar_mask b)) (32 + j)).
Proof.
  intros Hb Hn H0 He. split; intros j Hj; rewrite (high_addr_bit b eax n) by (done || lia).
  - destruct (Z.ltb_spec j 32); (done || lia).
  - destruct (Z.ltb_spec (32 + j) 32); (done || lia).
Qed.

Lemma write_bar_run k l v s0 s i eax : st k (vdev_ok l) v s0 s -> 0 <= i < 6 -> fits 32 eax ->
  runs (write_bar dev_ops malloc k i eax) s (fun _ s' => st k (vdev_ok l) v s0 s').
Proof.
  intros H Hi He. destruct (st_dev _ _ _ _ _ H) as (d0 & E & Hd0). destruct (bar_exists l d0 i Hd0 ltac:(lia)) as [b0 Hb0].
  apply runs_bind. eapply the_bar_run; [done|done|done|]. apply runs_bind, (decoding_run k s d0 b0); [done|apply Hd0|].
  destruct (sizing_step _ _ _) as [ign sz]. apply runs_bind. eapply runs_weaken; [by eapply on_bar_run|]. cbv beta. intros _ s1 H1.
  set (b := b0 <| sizing := sz |>) in *. set (d := with_bar d0 i b) in *.
  assert (Hd : vdev_ok l d) by (by apply vdev_ok_sizing). assert (Hb : nthZ (bar d) i = Some b) by (unfold d, with_bar; cbn; by rewrite (nthZ_setZ_eq _ _ b0)).
  pose proof (st_eq _ _ _ _ _ H1) as E1. apply runs_bind, (runs_get_cfg 4 k (PCIR_BAR i) s1 d); [done|apply Hd|by apply reg_aligned|].
  intros old _ _ Hold. fold PROP_MASK. cbv zeta. destruct (vo_bar _ _ Hd i b Hi Hb) as [Hok Hmir].
  change (b_type b0) with (b_type b). change (b_addr b0) with (b_addr b). change (bar_mask b0) with (bar_mask b).
  clearbody b d. clear H E Hd0 Hb0 d0 b0 s sz. pose proof (vo_cfg _ _ Hd) as Hc. specialize (Hold 0 ltac:(lia)).
  assert (Hset : forall a x, nthZ (setZ (bar d) i (moved b a)) i = Some x -> x = moved b a) by (intros a x Hx; rewrite (nthZ_setZ_eq _ _ b) in Hx by done; by injection Hx).
  unfold bar_ok, mirrored in Hok, Hmir. destruct (b_type b) eqn:Et.
  - (* nothing there *)
    apply runs_bind. eapply runs_weaken; [by eapply on_bar_run|]. cbv beta. intros _ s2 H2. eapply (reg_run k l v s0 s2 d i b 0); [exact H2| |done|done].
    apply vdev_ok_moved; try done; [unfold bar_ok; cbn; by rewrite Et|left; split; [done|]; by rewrite Et|].
    intros x ->%Hset. unfold mirrored. cbn. by rewrite Et.
  - apply (bar_end_run k l v s0 s1 d i b i); try done; [tauto|by intros ?%Z.eqb_eq| |left; split; [done|]; by rewrite Et|].
    + unfold bar_ok. change (b_type (moved b _)) with (b_type b). rewrite Et. by apply io_moved.
    + intros x ->%Hset. by apply mirrored_io.
  - apply (bar_end_run k l v s0 s1 d i b i); try done; [tauto|by intros ?%Z.eqb_eq| |left; split; [done|]; by rewrite Et|].
    + unfold bar_ok. change (b_type (moved b _)) with (b_type b). rewrite Et. by apply mem_moved.
    + intros x ->%Hset. apply mirrored_mem; try done; [by left| |by rewrite Hold; apply Hmir]. destruct Hok as (n & Hn & Hs & Hf & Hl).
      exists n. split; [lia|]. split; [done|]. split; [|done]. by apply (fits_mono 32).
  - pose proof Hok as (n & Hn & Hs & _). destruct (low_keeps b eax n Hok Hs ltac:(lia) He) as [K1 K2].
    apply (bar_end_run k l v s0 s1 d i b i); try done; [tauto| | |by left|].
    + intros Hq%Z.eqb_eq. by apply (low_same b eax n); try done; lia.
    + unfold bar_ok. change (b_type (moved b _)) with (b_type b). rewrite Et. by apply low_moved.
    + intros x ->%Hset. apply mirrored_mem; try done; [by right|by rewrite Hold; apply Hmir].
  - destruct Hmir as (lo & Hlo & Htl & _). assert (Hi1 : 0 <= i - 1 < 6).
    { split; [|lia]. unfold nthZ in Hlo. destruct (Z.leb_spec 0 (i - 1)); [lia|done]. }
    destruct (vo_bar _ _ Hd (i - 1) lo Hi1 Hlo) as [Hoklo _]. unfold bar_ok in Hoklo. rewrite Htl in Hoklo. pose proof Hoklo as (n & Hn & Hs & _).
    destruct (high_keeps lo eax n Hoklo Hs ltac:(lia) He) as [K1 K2].
    apply runs_bind. eapply the_bar_run; [done|done|done|]. apply (bar_end_run k l v s0 s1 d (i - 1) lo i); try done; [tauto| | |right; split; [lia|by split]|].
    + intros Hq%Z.eqb_eq. by apply (high_same lo eax n); try done; lia.
    + unfold bar_ok. change (b_type (moved lo _)) with (b_type lo). rewrite Htl. by apply high_moved.
    + intros x Hx. rewrite nthZ_setZ_ne in Hx by lia. rewrite Hb in Hx. injection Hx as <-. by apply mirrored_high.
  - done.
Qed.
End Write.
