(* ===== verification/PciAccess.v ===== *)
(** * Accesses of a guest

    Any sequence of configuration accesses keeps every device well-formed, and the interrupt
    line follows what the device asks for and what the guest permits. *)
From S2P Require Import Prelude RbTree RbTreeSpec Mmio MmioSpec Inout PciConfig PciIrq PciCore PciCfg PciCoreSpec PciGuest PciBar.

(** ** Command and status *)

(** The writable bits of the two registers, from the first on. *)
Definition READONLY := 0xFFFFF880.

Lemma readonly_bit coff j : 4 <= coff < 8 -> 0 <= j -> Z.testbit (Z.shiftr READONLY (Z.land coff 3 * 8)) j = Z.testbit READONLY (8 * (coff - 4) + j).
Proof.
  intros Hc Hj. rewrite Z.shiftr_spec by done. f_equal. assert (Hx : coff = 4 \/ coff = 5 \/ coff = 6 \/ coff = 7) by lia.
  destruct Hx as [-> | [-> | [-> | ->]]]; [change (Z.land 4 3) with 0|change (Z.land 5 3) with 1|change (Z.land 6 3) with 2|change (Z.land 7 3) with 3]; lia.
Qed.

Lemma merged_bit coff new old j : 4 <= coff < 8 -> 0 <= j < 32 ->
  Z.testbit (Z.lor (clear_bits 32 new (Z.shiftr READONLY (Z.land coff 3 * 8))) (Z.land old (Z.shiftr READONLY (Z.land coff 3 * 8)))) j =
  if Z.testbit READONLY (8 * (coff - 4) + j) then Z.testbit old j else Z.testbit new j.
Proof.
  intros Hc Hj. unfold clear_bits. rewrite Z.lor_spec, !Z.land_spec, wrap_land, Z.land_spec, Z.lnot_spec, readonly_bit by lia.
  rewrite (Z.ones_spec_low 32) by lia. destruct (Z.testbit READONLY _); cbn [negb andb]; rewrite ?andb_false_r, ?andb_true_r, ?orb_false_r; done.
Qed.

Section Access.
Context {P : Type} (dev_ops : Z -> vdev_ops P) (malloc : nat -> bool).
Notation vm := (machine P).
Implicit Types (s : vm) (k : Z) (l : list cap) (d : pci_vdev).

Lemma vdev_ok_command l d n coff val : vdev_ok l d -> aligned n coff -> 4 <= coff -> coff + Z.of_nat n <= 8 ->
  (0 <= CAPPRESENT_BIT - 8 * coff < 8 * Z.of_nat n -> Z.testbit val (CAPPRESENT_BIT - 8 * coff) = cbit (cfgdata d) CAPPRESENT_BIT) ->
  vdev_ok l (d <| cfgdata := store n coff val (cfgdata d) |>).
Proof.
  intros [H1 H2 H3 H4 H5] Ha H0 H8 Hcap. pose proof (set_run n coff val (cfgdata d) H1 Ha) as [_ Hc].
  assert (Hhi : forall i, 64 <= i -> cbit (store n coff val (cfgdata d)) i = cbit (cfgdata d) i).
  { intros i Hi. rewrite cbit_store by (done || lia). destruct (Z.ltb_spec i (8 * (coff + Z.of_nat n))); [lia|]. by rewrite andb_false_r. }
  assert (Er : forall i j, 0 <= i < 6 -> 0 <= j < 32 -> reg_bit (store n coff val (cfgdata d)) i j = reg_bit (cfgdata d) i j).
  { intros i j Hi Hj. apply Hhi. unfold PCIR_BAR. lia. }
  split; [exact Hc|exact H2| | |exact H5].
  - intros i b Hi Hb. destruct (H3 i b Hi Hb) as [Hok Hm]. split; [done|]. change (cfgdata (d <| cfgdata := ?x |>)) with x. unfold mirrored in *. destruct (b_type b); try done.
    + destruct Hm as (M0 & M1 & M2). rewrite !Er by lia. split; [done|]. split; [done|]. intros j Hj. rewrite Er by lia. by apply M2.
    + destruct Hm as (M0 & M1). rewrite !Er by lia. split; [done|]. intros j Hj. rewrite Er by lia. by apply M1.
    + destruct Hm as (M0 & M1). rewrite !Er by lia. split; [done|]. intros j Hj. rewrite Er by lia. by apply M1.
    + destruct Hm as (lo & M0 & M1 & M2). exists lo. split; [done|]. split; [done|]. intros j Hj. rewrite Er by lia. by apply M2.
  - unfold caps_ok in *. change (cfgdata (d <| cfgdata := ?x |>)) with x.
    assert (Ec : cbit (store n coff val (cfgdata d)) CAPPRESENT_BIT = cbit (cfgdata d) CAPPRESENT_BIT).
    { rewrite cbit_store by (done || (unfold CAPPRESENT_BIT, PCIR_STATUS; lia)).
      destruct (Z.leb_spec (8 * coff) CAPPRESENT_BIT), (Z.ltb_spec CAPPRESENT_BIT (8 * (coff + Z.of_nat n))); cbn [andb]; try done. apply Hcap. lia. }
    rewrite Ec. destruct l as [|p l]; [done|]. destruct H4 as (C1 & C2 & C3 & C4 & C5). split; [done|]. split; [done|].
    split; [rewrite byte_store_out; try done; unfold PCIR_CAP_PTR; lia|]. split; [|done]. apply chain_store; try done.
    pose proof (chain_bounds _ _ _ C4) as Hb. eapply Forall_impl; [exact Hb|]. cbn beta. intros p' (Hp & _). left. lia.
Qed.

Lemma bar_there l d i : vdev_ok l d -> 0 <= i < 6 -> exists b, nthZ (bar d) i = Some b /\ bar_ok b.
Proof. intros Hd Hi. destruct (bar_exists l d i Hd ltac:(lia)) as [b Hb]. exists b. split; [done|]. by apply (vo_bar _ _ Hd i b). Qed.

Lemma keeps_toggle k l v s0 i t : 0 <= i < 6 ->
  keeps k (vdev_ok l) v s0 (on ← decoding k t; if on : bool then _ ← register_bar dev_ops malloc k i; mret tt else unregister_bar dev_ops malloc k i).
Proof.
  intros Hi. apply keeps_seq; [apply keeps_decoding; apply vo_cfg|]. intros []; [apply keeps_register|apply keeps_unregister]; intros d Hd; by apply (bar_there l).
Qed.

Lemma bars_run k l v s0 changed is_ : Forall (fun i => 0 <= i < 6) is_ -> forall s, st k (vdev_ok l) v s0 s ->
  runs (cmdsts_bars dev_ops malloc k changed is_) s (fun all s' => all = true /\ st k (vdev_ok l) v s0 s').
Proof.
  induction 1 as [|i is_ Hi _ IH]; intros s H; [by apply runs_ret|]. cbn [cmdsts_bars].
  destruct (st_dev _ _ _ _ _ H) as (d & E & Hd). destruct (bar_there l d i Hd Hi) as (b & Hb & Hok).
  apply runs_bind. eapply the_bar_run; [done|done|done|]. rewrite bool_decide_eq_false_2 by (intros Et; unfold bar_ok in Hok; by rewrite Et in Hok).
  apply runs_bind. eapply runs_weaken with (P := fun _ s' => st k (vdev_ok l) v s0 s'); [|intros _ s1 H1; by apply IH].
  unfold cmdsts_bar. apply runs_bind. eapply the_bar_run; [done|done|done|].
  destruct (b_type b); try (by apply runs_ret); (apply keeps_cond; [|done]).
  - exact (keeps_toggle k l v s0 i PCIBAR_IO Hi).
  - exact (keeps_toggle k l v s0 i PCIBAR_MEM32 Hi).
  - exact (keeps_toggle k l v s0 i PCIBAR_MEM64 Hi).
Qed.

Lemma cmdsts_run k l v s0 s coff new bytes : st k (vdev_ok l) v s0 s -> bytes = 1 \/ bytes = 2 \/ bytes = 4 -> 4 <= coff < 8 -> aligned (width bytes) coff ->
  runs (pci_emul_cmdsts_write dev_ops malloc k coff new bytes) s (fun _ s' => exists v', evolves v v' /\ st k (vdev_ok l) v' s0 s').
Proof.
  intros H Hb Hc Ha. destruct (width_bytes bytes Hb) as [Hw _]. destruct (st_dev _ _ _ _ _ H) as (d & E & Hd).
  assert (Hend : coff + Z.of_nat (width bytes) <= 8).
  { destruct Ha as (_ & _ & _ & Hm). rewrite Hw in *. destruct Hb as [-> | [-> | ->]]; Z.div_mod_to_equations; lia. }
  apply runs_bind, (runs_get_cfg 2 k PCIR_COMMAND s d); [done|apply Hd|by repeat split; [tauto|..]|]. intros cmd _ _ _.
  apply runs_bind. unfold CFGREAD, CFGWRITE. apply (runs_get_cfg (width bytes) k coff s d); [done|apply Hd|done|]. intros old _ _ Hold. cbv zeta. fold READONLY.
  set (x := Z.lor _ _). apply runs_bind, (runs_set_cfg (width bytes) k coff x s d); [done|apply Hd|done|].
  assert (Hd' : vdev_ok l (d <| cfgdata := store (width bytes) coff x (cfgdata d) |>)).
  { apply vdev_ok_command; try done; [lia|]. intros Hj. unfold x. rewrite merged_bit, Hold by lia.
    replace (8 * (coff - 4) + (CAPPRESENT_BIT - 8 * coff)) with 20 by (unfold CAPPRESENT_BIT, PCIR_STATUS; lia). change (Z.testbit READONLY 20) with true. cbv iota. f_equal. lia. }
  set (s1 := put k _ s). assert (H1 : st k (vdev_ok l) (line_of (d <| cfgdata := store (width bytes) coff x (cfgdata d) |>) (gsis (irqs (clients s)))) s0 s1) by (by eapply st_put).
  pose proof H as (_ & _ & d0 & E0 & _ & Hv). rewrite E in E0. injection E0 as <-.
  apply runs_bind. eapply runs_weaken; [eapply keeps_get_cfg; [apply vo_cfg| |exact H1]; by repeat split; [tauto|..]|]. cbv beta. intros cmd2 s2 H2.
  apply runs_bind. eapply runs_weaken; [apply bars_run; [|exact H2]|]; [repeat constructor; done|]. cbv beta. intros all s3 (-> & H3). cbn [when].
  eapply runs_weaken; [by apply runs_update|]. cbv beta. intros _ s4 H4. eexists. split; [|exact H4]. rewrite <- Hv. apply (updated_evolves (line_of d _)).
Qed.

(** ** One access *)

(** A write that leaves the pointer to the capabilities alone. *)
Definition spares_pointer (coff bytes : Z) : Prop := coff + bytes <= PCIR_CAP_PTR \/ PCIR_CAP_PTR < coff.

(** What is left goes to the place it names, or nowhere. *)
Lemma keeps_rest k l v s0 coff bytes eax : bytes = 1 \/ bytes = 2 \/ bytes = 4 -> 0 <= coff -> coff mod bytes = 0 ->
  coff < 4 \/ 8 <= coff -> coff < 0x10 \/ 0x28 <= coff -> spares_pointer coff bytes -> off_headers (width bytes) coff l ->
  keeps k (vdev_ok l) v s0 (CFGWRITE k coff eax bytes).
Proof.
  intros Hb H0 Hm Hc Hr Hp Hh. destruct (width_bytes bytes Hb) as [Hw Hw']. unfold CFGWRITE. destruct (Z.le_gt_cases (coff + bytes) 256) as [Hin|Hout].
  - apply keeps_spare; [split; [done|]; by rewrite Hw|]. unfold spare, spares_pointer, PCIR_CAP_PTR in *. rewrite Hw. split; [|by split].
    destruct Hb as [-> | [-> | ->]]; Z.div_mod_to_equations; lia.
  - intros s H. destruct (st_dev _ _ _ _ _ H) as (d & E & Hd). apply runs_bind, (runs_dev k s d); [done|]. apply runs_bind. eapply runs_lift.
    { apply set_refused; [done|]. destruct Hb as [-> | [-> | ->]]; Z.div_mod_to_equations; lia. }
    apply runs_set_dev. pose proof H as (_ & _ & d' & E' & _ & Hv). rewrite E in E'. injection E' as <-. eapply st_put; [exact H| |exact Hv]. by destruct d.
Qed.

Lemma rest_headers l d coff bytes : vdev_ok l d -> bytes = 1 \/ bytes = 2 \/ bytes = 4 -> 0 <= coff -> coff mod bytes = 0 ->
  l = [] \/ coff < 0x40 \/ capend d < coff -> off_headers (width bytes) coff l.
Proof.
  intros Hd Hb H0 Hm Hc. destruct (width_bytes bytes Hb) as [Hw _]. unfold off_headers. rewrite Hw. destruct (decide (l = [])) as [-> |El]; [constructor|].
  destruct (dev_chain l d Hd El) as (Hch & He & Hm4). eapply Forall_impl; [by eapply chain_bounds|]. cbn beta. intros q (Q1 & Q2 & Q3 & _).
  destruct Hc as [-> |[Hc|Hc]]; [done| |right; lia]. left. destruct Hb as [-> | [-> | ->]]; Z.div_mod_to_equations; lia.
Qed.

Lemma config_run k l v s0 s coff bytes eax : st k (vdev_ok l) v s0 s -> bytes = 1 \/ bytes = 2 \/ bytes = 4 -> 0 <= coff -> Z.land coff (bytes - 1) = 0 ->
  fits 32 eax -> spares_pointer coff bytes -> msi_polite l coff bytes eax ->
  runs (write_config dev_ops malloc k coff bytes eax) s (fun _ s' => exists v', evolves v v' /\ st k (vdev_ok l) v' s0 s').
Proof.
  intros H Hb H0 Hal He Hp Hpol. destruct (width_bytes bytes Hb) as [Hw Hw'].
  assert (Hm : coff mod bytes = 0) by (rewrite <- Hw; rewrite <- land_align by done; by rewrite Hw).
  assert (Ha : coff + bytes <= 256 -> aligned (width bytes) coff) by (intros; split; [done|]; by rewrite Hw).
  assert (Hkeep : forall m : B unit, keeps k (vdev_ok l) v s0 m -> runs m s (fun _ s' => exists v', evolves v v' /\ st k (vdev_ok l) v' s0 s')).
  { intros m Hk. eapply runs_weaken; [by apply Hk|]. cbv beta. intros _ s' H'. by exists v. }
  unfold write_config. change (PCIR_BAR 0) with 0x10. change (PCIR_BAR (PCI_BARMAX + 1)) with 0x28.
  destruct ((0x10 <=? coff) && (coff <? 0x28)) eqn:Ebar.
  { apply andb_true_iff in Ebar as [B1%Z.leb_le B2%Z.ltb_lt]. destruct (negb (bytes =? 4) || _); [by apply Hkeep, keeps_unit|].
    eapply runs_weaken; [apply write_bar_run; [done| |done]|cbv beta; intros _ s' H'; by exists v]. Z.div_mod_to_equations. lia. }
  apply andb_false_iff in Ebar. rewrite Z.leb_gt, Z.ltb_ge in Ebar.
  destruct (Z.eqb_spec coff PCIR_BIOS); [by apply Hkeep, keeps_unit|]. destruct (st_dev _ _ _ _ _ H) as (d & E & Hd).
  apply runs_bind, runs_bind, (present_bit k l v s0); [done|]. intros sts ->. apply runs_bind, (runs_dev k s d); [done|]. apply runs_ret.
  destruct (bool_decide (l = [])) eqn:El; cbn [negb andb].
  2: destruct (Z.leb_spec CAP_START_OFFSET coff), (Z.leb_spec coff (capend d)); cbn [andb].
  2: { apply bool_decide_eq_false in El. unfold CAP_START_OFFSET in *. eapply capwrite_run; try done. }
  all: destruct ((PCIR_COMMAND <=? coff) && (coff <? PCIR_REVID)) eqn:Ecmd;
    [apply andb_true_iff in Ecmd as [C1%Z.leb_le C2%Z.ltb_lt]; unfold PCIR_COMMAND, PCIR_REVID in *; apply cmdsts_run; try done; try lia; apply Ha; lia|].
  all: try apply bool_decide_eq_true in El.
  all: apply andb_false_iff in Ecmd; rewrite Z.leb_gt, Z.ltb_ge in Ecmd; unfold PCIR_COMMAND, PCIR_REVID in Ecmd;
    apply Hkeep, keeps_rest; try done; eapply rest_headers; try done; unfold CAP_START_OFFSET in *; auto with lia.
Qed.

(** The callbacks of the device, if there are any, keep it well-formed. *)
Record tame k : Prop := {
  ta_write f coff bytes eax l v s0 : vdev_cfgwrite (dev_ops k) = Some f -> keeps k (vdev_ok l) v s0 (f k coff bytes eax);
  ta_read f coff bytes eax l v s0 : vdev_cfgread (dev_ops k) = Some f -> keeps k (vdev_ok l) v s0 (f k coff bytes eax)
}.

Record access := mkAccess { a_read : bool; a_bus : Z; a_slot : Z; a_func : Z; a_coff : Z; a_bytes : Z; a_value : Z }.
Definition place (a : access) : Z := bdf (a_bus a) (a_slot a) (a_func a).
Definition perform_access (a : access) : B unit :=
  _ ← pci_cfgrw dev_ops malloc (a_read a) (a_bus a) (a_slot a) (a_func a) (a_coff a) (a_bytes a) (a_value a); mret tt.

(** What the hypervisor passes on, of a guest that follows the rules: it does not write the
    pointer to the capabilities, and asks for at most 32 messages. *)
Record polite (caps : Z -> list cap) (a : access) : Prop := {
  po_bus : 0 <= a_bus a <= PCI_BUSMAX; po_slot : 0 <= a_slot a <= PCI_SLOTMAX; po_func : 0 <= a_func a <= PCI_FUNCMAX;
  po_coff : 0 <= a_coff a; po_value : fits 32 (a_value a);
  po_write : a_read a = false -> spares_pointer (a_coff a) (a_bytes a) /\ msi_polite (caps (place a)) (a_coff a) (a_bytes a) (a_value a)
}.

Lemma located_run s bus slot func Q : 0 <= bus <= PCI_BUSMAX -> 0 <= slot <= PCI_SLOTMAX -> 0 <= func <= PCI_FUNCMAX ->
  (forall b : bool, (b = true -> bdf bus slot func ∈ fi_devi (clients s)) -> Q b s) -> runs (located bus slot func) s Q.
Proof.
  intros Hb Hs Hf HQ. unfold located. rewrite (proj2 (Z.ltb_ge bus 0)), (proj2 (Z.ltb_ge PCI_BUSMAX bus)) by lia. cbn [orb].
  apply runs_bind, runs_bind, runs_get, runs_ret. destruct (negb _); [by apply runs_ret, HQ|].
  rewrite (proj2 (Z.ltb_ge slot 0)), (proj2 (Z.ltb_ge PCI_SLOTMAX slot)), (proj2 (Z.ltb_ge func 0)), (proj2 (Z.ltb_ge PCI_FUNCMAX func)) by lia.
  apply runs_ret, HQ. apply bool_decide_eq_true.
Qed.

Lemma keeps_cfgread k l v s0 coff bytes : bytes = 1 \/ bytes = 2 \/ bytes = 4 -> 0 <= coff -> coff mod bytes = 0 ->
  keeps k (vdev_ok l) v s0 (CFGREAD k coff bytes).
Proof.
  intros Hb H0 Hm. destruct (width_bytes bytes Hb) as [Hw Hw']. unfold CFGREAD. destruct (Z.le_gt_cases (coff + bytes) 256) as [Hin|Hout].
  - apply keeps_get_cfg; [apply vo_cfg|]. split; [done|]. by rewrite Hw.
  - intros s H. destruct (st_dev _ _ _ _ _ H) as (d & E & Hd). apply runs_bind, (runs_dev k s d); [done|]. eapply runs_lift; [|done].
    unfold pci_get_cfgdata. assert (rejected (Z.of_nat (width bytes)) coff = true) as ->; [|done]. unfold rejected, PCI_REGMAX. rewrite Hw.
    apply orb_true_iff. left. apply Z.ltb_lt. lia.
Qed.

Lemma access_run caps v s0 s a : tame (place a) -> polite caps a ->
  (place a ∈ fi_devi (clients s) -> st (place a) (vdev_ok (caps (place a))) v s0 s) ->
  runs (perform_access a) s (fun _ s' => s' = s \/ exists v', evolves v v' /\ st (place a) (vdev_ok (caps (place a))) v' s0 s').
Proof.
  intros Ht Hp H. destruct a as [rd bus slot func coff bytes eax]. destruct Hp as [P1 P2 P3 P4 P5 P6]. unfold place in *. cbn in *.
  apply runs_bind. cbn [a_read a_bus a_slot a_func a_coff a_bytes a_value]. unfold pci_cfgrw. apply runs_bind, located_run; [done..|]. intros dev Hdev.
  destruct (negb dev || negb ((bytes =? 1) || (bytes =? 2) || (bytes =? 4)) || _) eqn:Eok; [by apply runs_ret, runs_ret; left|].
  rewrite !orb_false_iff, !negb_false_iff, !orb_true_iff, !Z.eqb_eq in Eok. destruct Eok as [[-> Hb] Hal]. assert (Hb' : bytes = 1 \/ bytes = 2 \/ bytes = 4) by tauto.
  specialize (H (Hdev eq_refl)). set (k := bdf bus slot func) in *. destruct (width_bytes bytes Hb') as [Hw Hw'].
  destruct (negb _ && _) eqn:Eext; [by apply runs_ret, runs_ret; left|].
  assert (Hend : forall A (m : B A), runs m s (fun _ s' => exists v', evolves v v' /\ st k (vdev_ok (caps k)) v' s0 s') ->
    runs m s (fun _ s' => runs (mret tt) s' (fun _ s' => s' = s \/ exists v', evolves v v' /\ st k (vdev_ok (caps k)) v' s0 s'))).
  { intros A m Hm. eapply runs_weaken; [exact Hm|]. cbv beta. intros _ s' Hs. apply runs_ret. by right. }
  apply Hend. destruct rd.
  - eapply runs_weaken with (P := fun _ s' => st k (vdev_ok (caps k)) v s0 s'); [|intros _ s' H'; by exists v].
    eapply keeps_seq; [|intros [needcfg x]|exact H].
    + destruct (vdev_cfgread (dev_ops k)) eqn:Er; [by eapply ta_read|apply keeps_unit].
    + apply keeps_seq; [destruct (needcfg =? 0); [apply keeps_unit|]|].
      * apply keeps_cfgread; [done|done|]. by rewrite <- Hw, <- land_align, Hw.
      * intros y s1 H1. apply runs_bind, runs_bind, runs_get, runs_ret. by apply runs_ret.
  - destruct (P6 eq_refl) as [Hptr Hpol]. apply runs_bind.
    eapply runs_weaken with (P := fun _ s' => st k (vdev_ok (caps k)) v s0 s').
    { destruct (vdev_cfgwrite (dev_ops k)) eqn:Ew; [|by apply runs_ret]. eapply keeps_seq; [by eapply ta_write|intros r; apply keeps_unit|done]. }
    intros mine s1 H1. apply runs_bind. eapply runs_weaken with (P := fun _ s' => exists v', evolves v v' /\ st k (vdev_ok (caps k)) v' s0 s').
    + destruct mine; cbn [negb when]; [apply runs_ret; by exists v|]. by apply config_run.
    + intros _ s' H'. by apply runs_ret.
Qed.

(** ** Any number of them *)

Fixpoint perform_accesses (l : list access) : B unit := match l with [] => mret tt | a :: l => _ ← perform_access a; perform_accesses l end.

(** Every device of the machine is well-formed, with the capabilities it was made with. *)
Definition machine_ok (caps : Z -> list cap) s : Prop :=
  mmio_ok s /\ forall k, k ∈ fi_devi (clients s) -> exists d, devs (clients s) !! k = Some d /\ vdev_ok (caps k) d.

Lemma machine_st caps s k : machine_ok caps s -> k ∈ fi_devi (clients s) -> exists v, st k (vdev_ok (caps k)) v s s.
Proof.
  intros [Hm Hd] Hk. destruct (Hd k Hk) as (d & E & Hok). exists (line_of d (gsis (irqs (clients s)))). split; [done|]. split; [done|]. by exists d.
Qed.
Lemma st_machine caps s0 s k v : machine_ok caps s0 -> st k (vdev_ok (caps k)) v s0 s -> machine_ok caps s /\ fi_devi (clients s) = fi_devi (clients s0).
Proof.
  intros [_ Hd] (Hm & (F1 & F2 & F3) & d & E & Hok & _). split; [|done]. split; [done|]. intros k' Hk'. destruct (Z.eq_dec k' k) as [-> |Hne]; [by exists d|].
  rewrite F1 by done. apply Hd. by rewrite <- F2.
Qed.

Lemma access_keeps caps s a : (forall k, tame k) -> machine_ok caps s -> polite caps a ->
  runs (perform_access a) s (fun _ s' => machine_ok caps s' /\ fi_devi (clients s') = fi_devi (clients s)).
Proof.
  intros Ht Hm Hp. destruct (decide (place a ∈ fi_devi (clients s))) as [Hin|Hout].
  - destruct (machine_st caps s _ Hm Hin) as [v Hv]. eapply runs_weaken; [by eapply access_run|]. cbv beta. intros _ s' [-> |(v' & _ & Hs)]; [done|]. by eapply st_machine.
  - eapply runs_weaken; [by eapply (access_run caps (mkLine (mkLintr 0 IDLE 0 0) false false false []) s s a)|]. cbv beta.
    intros _ s' [-> |(v' & _ & Hs)]; [done|]. by eapply st_machine.
Qed.

(** C36. A guest that is [polite] keeps the devices: it does not write the pointer to the capability
    list, and where it writes the number of messages of a capability it asks for none of the
    reserved ones.  Whatever else it reads and writes in configuration space, in whatever widths
    and order, while the callbacks of the devices, where there are any, keep them well-formed
    ([tame]), every access ends inside the arrays of the program and leaves every device
    well-formed: the registers of the BARs show the addresses that are decoded, which stay
    aligned to their sizes; the headers of the capability list are as they were made; the
    entries of emulated memory are in order.  The two rules are needed:
    [PciDummy.Demo.capability_loop] is a write of the pointer after which an access does not end, and
    [PciDummy.Demo.reserved_messages] a number of messages for which it shifts too far. *)
Theorem guest_keeps_devices (caps : Z -> list cap) (accesses : list access) s :
  (forall k, tame k) -> machine_ok caps s -> Forall (polite caps) accesses ->
  exists s', perform_accesses accesses s = Ret (tt, s') /\ machine_ok caps s' /\ fi_devi (clients s') = fi_devi (clients s).
Proof.
  intros Ht Hm Hp. revert s Hm. induction Hp as [|a l Ha _ IH]; intros s Hm; [by exists s|].
  destruct (runs_returns _ _ _ (access_keeps caps s a Ht Hm Ha)) as ([] & s1 & E1 & H1 & F1).
  destruct (IH s1 H1) as (s' & E' & H' & F'). exists s'. cbn [perform_accesses]. unfold mbind, M_bind. rewrite E1. split; [exact E'|]. split; [done|]. congruence.
Qed.

(** ** The line of a device *)

(** What the device and its guest do. *)
Inductive action := Raise | Lower | Guest (a : access) | Message (i : Z).
Definition act k (x : action) : B unit :=
  match x with Raise => pci_lintr_assert k | Lower => pci_lintr_deassert k | Guest a => perform_access a | Message i => pci_generate_msi k i end.
Fixpoint act_all k (l : list action) : B unit := match l with [] => mret tt | x :: l => _ ← act k x; act_all k l end.
Definition action_ok (caps : Z -> list cap) k (x : action) : Prop :=
  match x with Guest a => polite caps a /\ place a = k | Message i => 0 <= i | _ => True end.

(** What the device asks for in the end. *)
Definition wants (was : bool) (x : action) : bool := match x with Raise => true | Lower => false | _ => was end.

Lemma act_run caps k v s0 s x : tame k -> action_ok caps k x -> 0 < pin (ln v) -> settled v -> st k (vdev_ok (caps k)) v s0 s ->
  runs (act k x) s (fun _ s' => exists v', settles v v' (wants (requested v) x) /\ st k (vdev_ok (caps k)) v' s0 s').
Proof.
  intros Ht Ho Hpin Hset H. destruct x as [| |a|i]; cbn [act wants].
  - eapply runs_weaken; [by apply runs_assert|]. cbv beta. intros _ s' H'. exists (asserted v). split; [by apply asserted_settled|done].
  - eapply runs_weaken; [by apply runs_deassert|]. cbv beta. intros _ s' H'. exists (deasserted v). split; [by apply deasserted_settled|done].
  - destruct Ho as [Hp <-]. eapply runs_weaken; [by eapply access_run|]. cbv beta. intros _ s' [-> |(v' & Hev & H')]; [by exists v|].
    exists v'. split; [by apply Hev|done].
  - eapply runs_weaken; [by apply keeps_generate|]. cbv beta. intros _ s' H'. by exists v.
Qed.

Lemma settles_trans v1 v2 v3 a b : settles v1 v2 a -> settles v2 v3 b -> settles v1 v3 b.
Proof. intros (_ & _ & P1 & I1) (S & R & P2 & I2). split; [done|]. split; [done|]. split; congruence. Qed.

Lemma act_all_run caps k s0 (l : list action) : tame k -> Forall (action_ok caps k) l -> forall s v, 0 < pin (ln v) -> settled v -> st k (vdev_ok (caps k)) v s0 s ->
  runs (act_all k l) s (fun _ s' => exists v', settles v v' (fold_left wants l (requested v)) /\ st k (vdev_ok (caps k)) v' s0 s').
Proof.
  intros Ht. induction 1 as [|x l Hx _ IH]; intros s v' Hp Hs H; cbn [act_all fold_left]; [apply runs_ret; by exists v'|].
  apply runs_bind. eapply runs_weaken; [by eapply act_run|]. cbv beta. intros _ s1 (v1 & Hv1 & H1). pose proof Hv1 as (S1 & R1 & P1 & _).
  eapply runs_weaken; [apply (IH s1 v1); [by rewrite P1|done|done]|]. cbv beta. intros _ s2 (v2 & Hv2 & H2). exists v2. split; [|done].
  rewrite <- R1. by eapply settles_trans.
Qed.

(** C38. The interrupt line of a device whose callbacks are [tame], after any raising and lowering by the
    device, messages, and configuration accesses by a [polite] guest (one that leaves the
    pointer to the capability list alone and asks for no reserved number of messages), is
    low exactly when the device asks for the interrupt and the guest permits it: neither
    kind of message is enabled, and the pin is not disabled in the command register.  So
    a request made while it is not permitted is delivered as soon as it is.  (After other
    accesses there may be no line to speak of: [PciDummy.Demo.capability_loop] and
    [PciDummy.Demo.reserved_messages] do not come to an end.) *)
Theorem intx_level (caps : Z -> list cap) k (actions : list action) s d :
  tame k -> machine_ok caps s -> k ∈ fi_devi (clients s) -> devs (clients s) !! k = Some d -> 0 < pin (d_lintr d) ->
  settled (line_of d (gsis (irqs (clients s)))) -> Forall (action_ok caps k) actions ->
  exists s' d', act_all k actions s = Ret (tt, s') /\ devs (clients s') !! k = Some d' /\
    let irq := ioapic_irq (d_lintr d) in
    let asked := fold_left wants actions (negb (bool_decide (state (d_lintr d) = IDLE))) in
    let allowed := negb (msi_on (d_msi d') || msix_on (d_msix d') || cbit (cfgdata d') INTxDIS_BIT) in
    level irq (gsis (irqs (clients s'))) = Some (if asked && allowed then GSI_SET_LOW else GSI_SET_HIGH).
Proof.
  intros Ht [Hm Hd] Hk E Hpin Hset Ha. destruct (Hd k Hk) as (d1 & E1 & Hok). rewrite E in E1. injection E1 as <-.
  assert (H : st k (vdev_ok (caps k)) (line_of d (gsis (irqs (clients s)))) s s) by (split; [done|]; split; [done|]; by exists d).
  destruct (runs_returns _ _ _ (act_all_run caps k s actions Ht Ha s (line_of d (gsis (irqs (clients s)))) Hpin Hset H)) as ([] & s' & Er & v' & (Hs' & Hr & Hp & Hi) & H').
  pose proof H' as (_ & _ & d' & E' & _ & Hv'). exists s', d'. split; [done|]. split; [done|]. cbv zeta. destruct Hs' as [Hw Hst]. unfold wired in Hw.
  rewrite Hi in Hw. change (ioapic_irq (ln (line_of d _))) with (ioapic_irq (d_lintr d)) in Hw.
  change (negb (bool_decide (state (d_lintr d) = IDLE))) with (requested (line_of d (gsis (irqs (clients s))))). rewrite <- Hr.
  change (negb (msi_on (d_msi d') || msix_on (d_msix d') || cbit (cfgdata d') INTxDIS_BIT)) with (permitted (line_of d' (gsis (irqs (clients s'))))).
  rewrite Hv'. replace (gsis (irqs (clients s'))) with (ln_gsis v') by (by rewrite <- Hv'). rewrite Hw. f_equal. unfold requested.
  destruct (state (ln v')); [done|by rewrite Hst|by rewrite Hst].
Qed.
End Access.
