(* ===== verification/PciMove.v ===== *)
(** * Sizing and moving BARs

    A guest that writes all ones to a register, reads the size, and writes the register back
    leaves the machine as it was, decoded or not; one that writes another address
    moves the range in emulated memory with it. *)
From S2P Require Import Prelude RbTree RbTreeSpec Mmio MmioSpec Inout PciConfig PciIrq PciCore PciCfg PciCoreSpec PciGuest PciBar PciAccess.

(** ** Spaces and devices that are the same *)

Lemma byte_ext x y : fits 8 x -> fits 8 y -> (forall j, 0 <= j < 8 -> Z.testbit x j = Z.testbit y j) -> x = y.
Proof.
  intros Hx Hy He. apply Z.bits_inj'. intros j Hj. destruct (Z.lt_ge_cases j 8); [by apply He|]. by rewrite !(testbit_fits 8).
Qed.

Lemma cfg_ext c c' : cfg_ok c -> cfg_ok c' -> (forall i, 0 <= i -> cbit c i = cbit c' i) -> c = c'.
Proof.
  intros Hc Hc' He. assert (Hb : forall o, 0 <= o -> byte c o = byte c' o).
  { intros o Ho. apply byte_ext; [by apply byte_fits|by apply byte_fits|]. intros j Hj. specialize (He (8 * o + j) ltac:(lia)). unfold cbit in He.
    by replace ((8 * o + j) / 8) with o in He by (Z.div_mod_to_equations; lia); replace ((8 * o + j) mod 8) with j in He by (Z.div_mod_to_equations; lia). }
  destruct Hc as [L _], Hc' as [L' _]. apply list_eq. intros i. specialize (Hb (Z.of_nat i) ltac:(lia)). rewrite !byte_lookup, Nat2Z.id in Hb by lia.
  destruct (c !! i) eqn:E, (c' !! i) eqn:E'; cbn in Hb; try done; [by rewrite Hb| |].
  - apply lookup_lt_Some in E. apply lookup_ge_None in E'. lia.
  - apply lookup_lt_Some in E'. apply lookup_ge_None in E. lia.
Qed.

(** Another register over a register. *)
Lemma store_reg_back c i v1 v2 : cfg_ok c -> 0 <= i < 6 -> (forall j, 0 <= j < 32 -> Z.testbit v2 j = reg_bit c i j) ->
  store 4 (PCIR_BAR i) v2 (store 4 (PCIR_BAR i) v1 c) = c.
Proof.
  intros Hc Hi Hv. pose proof (reg_aligned i Hi) as Ha. destruct (set_run 4 (PCIR_BAR i) v1 c Hc Ha) as [_ H1].
  destruct (set_run 4 (PCIR_BAR i) v2 _ H1 Ha) as [_ H2]. apply cfg_ext; [done|done|]. intros t Ht. rewrite !cbit_store by done.
  change (Z.of_nat 4) with 4. destruct (Z.leb_spec (8 * PCIR_BAR i) t), (Z.ltb_spec t (8 * (PCIR_BAR i + 4))); cbn [andb]; try done.
  rewrite Hv by lia. unfold reg_bit. f_equal. lia.
Qed.

Section Move.
Context {P : Type} (dev_ops : Z -> vdev_ops P) (malloc : nat -> bool).
Notation vm := (machine P).
Implicit Types (s : vm) (k : Z) (l : list cap) (d : pci_vdev).

Lemma put_put k d1 d2 s : put k d2 (put k d1 s) = put k d2 s.
Proof. destruct s as [t1 t2 h a n [ds f1 f2 f3 f4 f5 f6 f7 f8 f9 f10 f11 f12]]. unfold put, field_upd. cbn. do 2 f_equal. apply insert_insert_eq. Qed.
Lemma put_id k d s : devs (clients s) !! k = Some d -> put k d s = s.
Proof.
  destruct s as [t1 t2 h a n [ds f1 f2 f3 f4 f5 f6 f7 f8 f9 f10 f11 f12]]. unfold put, field_upd. cbn. intros E. do 2 f_equal. by apply insert_id.
Qed.
Lemma put_dev k d s : devs (clients (put k d s)) !! k = Some d.
Proof. apply lookup_insert_eq. Qed.

(** ** A write that registers nothing *)

(** The BAR whose address the register of [i] holds, and what it and the register become. *)
Definition target (t : pcibar_type) (i : Z) : Z := if bool_decide (t = PCIBAR_MEMHI64) then i - 1 else i.
Definition addr_after (t : pcibar_type) (b : pcibar) (eax : Z) : Z :=
  match t with PCIBAR_IO => io_addr b eax | PCIBAR_MEM32 => mem_addr b eax | PCIBAR_MEM64 => low_addr b eax | _ => high_addr b eax end.
Definition reg_after (t : pcibar_type) (b : pcibar) (eax old : Z) : Z :=
  match t with
  | PCIBAR_IO => Z.lor (io_addr b eax) PCIM_BAR_IO_SPACE
  | PCIBAR_MEM32 | PCIBAR_MEM64 => Z.lor (mem_addr b eax) (Z.land old PROP_MASK)
  | _ => Z.shiftr (Z.land (Z.shiftl eax 32) (bar_mask b)) 32
  end.
Definition sized (d : pci_vdev) (i : Z) (b : pcibar) (sz : bool) : pci_vdev := with_bar d i (b <| sizing := sz |>).
Definition written (d : pci_vdev) (i : Z) (t : pcibar_type) (b : pcibar) (eax old : Z) : pci_vdev :=
  with_reg (with_bar d (target t i) (moved b (addr_after t b eax))) i (reg_after t b eax old).

Definition has_address (t : pcibar_type) : Prop := t = PCIBAR_IO \/ t = PCIBAR_MEM32 \/ t = PCIBAR_MEM64 \/ t = PCIBAR_MEMHI64.

Lemma runs_on_bar k s d i b f Q : devs (clients s) !! k = Some d -> nthZ (bar d) i = Some b -> Q tt (put k (with_bar d i (f b)) s) -> runs (on_bar k i f) s Q.
Proof.
  intros E Hb HQ. apply runs_bind. apply runs_bind, (runs_dev k s d); [done|]. rewrite Hb. apply runs_ret. by apply runs_bind, (runs_dev k s d).
Qed.
Lemma runs_the_bar k s d i b Q : devs (clients s) !! k = Some d -> nthZ (bar d) i = Some b -> Q b s -> runs (the_bar k i) s Q.
Proof. intros E Hb HQ. apply runs_bind, (runs_dev k s d); [done|]. rewrite Hb. by apply runs_ret. Qed.

Lemma update_quiet k s d i b addr type ign : devs (clients s) !! k = Some d -> cfg_ok (cfgdata d) -> nthZ (bar d) i = Some b -> has_address type ->
  ign = true \/ decodes d b = false ->
  runs (update_bar_address dev_ops malloc k addr i type ign) s (fun _ s' => s' = put k (with_bar d i (moved b (new_addr type b addr))) s).
Proof.
  intros E Hc Hb Ht Hq. unfold update_bar_address. apply runs_bind, (runs_the_bar k s d i b); [done|done|].
  apply runs_bind. eapply runs_weaken with (P := fun dec s' => dec = false /\ s' = s).
  { destruct ign; [by apply runs_ret|]. destruct Hq as [|Hq]; [done|]. by eapply decoding_run; rewrite ?Hq. }
  intros dec s' [-> ->]. apply runs_bind. cbn [when]. apply runs_ret.
  destruct Ht as [-> | [-> | [-> | ->]]]; apply runs_bind, (runs_on_bar k s d i b); try done; by apply runs_ret.
Qed.

Lemma written_run k s d i j b addr type same ign val : devs (clients s) !! k = Some d -> cfg_ok (cfgdata d) -> 0 <= i < 6 -> nthZ (bar d) j = Some b ->
  has_address type -> ign = true \/ decodes d b = false -> (same = true -> new_addr type b addr = b_addr b) ->
  runs (_ ← when (negb same) (update_bar_address dev_ops malloc k addr j type ign); set_cfg 4 k (PCIR_BAR i) val) s
    (fun _ s' => s' = put k (with_reg (with_bar d j (moved b (new_addr type b addr))) i val) s).
Proof.
  intros E Hc Hi Hb Ht Hq Hs. apply runs_bind.
  eapply runs_weaken with (P := fun _ s' => s' = put k (with_bar d j (moved b (new_addr type b addr))) s).
  - destruct same; cbn [negb when]; [|by apply update_quiet]. apply runs_ret. rewrite (Hs eq_refl).
    replace (moved b (b_addr b)) with b by (by destruct b). rewrite with_bar_id by done. by rewrite put_id.
  - intros _ s' ->. eapply runs_set_cfg; [apply put_dev|done|by apply reg_aligned|]. by rewrite put_put.
Qed.

(** Memory or ports: the upper half is decoded as the lower. *)
Lemma decodes_kind d b b' : (b_type b = PCIBAR_IO <-> b_type b' = PCIBAR_IO) -> decodes d b = decodes d b'.
Proof. intros H. unfold decodes. by rewrite (bool_decide_ext _ _ H). Qed.

Lemma write_quiet k l s d i b bj eax ign sz old : devs (clients s) !! k = Some d -> vdev_ok l d -> 0 <= i < 6 -> nthZ (bar d) i = Some b ->
  has_address (b_type b) -> fits 32 eax -> sizing_step (decodes d b) (sizing b) eax = (ign, sz) -> ign = true \/ decodes d b = false ->
  nthZ (bar (sized d i b sz)) (target (b_type b) i) = Some bj -> pci_get_cfgdata 4 (PCIR_BAR i) (cfgdata d) = Ret old ->
  runs (write_bar dev_ops malloc k i eax) s (fun _ s' => s' = put k (written (sized d i b sz) i (b_type b) bj eax old) s).
Proof.
  intros E Hd Hi Hb Ht He Hstep Hq Hj Hold. apply runs_bind, (runs_the_bar k s d i b); [done|done|]. apply runs_bind, (decoding_run k s d b); [done|apply Hd|].
  rewrite Hstep. apply runs_bind, (runs_on_bar k s d i b); [done|done|]. fold (sized d i b sz).
  pose proof (vdev_ok_sizing l d i b sz Hd Hb) as Hd1. fold (sized d i b sz) in Hd1. set (d1 := sized d i b sz) in *.
  assert (Hb1 : nthZ (bar d1) i = Some (b <| sizing := sz |>)) by (unfold d1, sized, with_bar; cbn; by rewrite (nthZ_setZ_eq _ _ b)).
  apply runs_bind, runs_bind, (runs_dev k _ d1); [apply put_dev|]. eapply runs_lift; [exact Hold|]. fold PROP_MASK. cbv zeta.
  destruct (vo_bar _ _ Hd1 i _ Hi Hb1) as [Hok Hm]. pose proof (vo_cfg _ _ Hd1) as Hc1. unfold bar_ok, mirrored in Hok, Hm. change (b_type (b <| sizing := sz |>)) with (b_type b) in *.
  assert (Hq1 : forall bx, (b_type b = PCIBAR_IO <-> b_type bx = PCIBAR_IO) -> ign = true \/ decodes d1 bx = false).
  { intros bx Hx. change (decodes d1 bx) with (decodes d bx). by rewrite <- (decodes_kind d b bx Hx). }
  assert (Hput : forall d2, put k d2 (put k d1 s) = put k d2 s) by (intros; apply put_put).
  unfold written, target in *. destruct Ht as [Et|[Et|[Et|Et]]]; rewrite Et in *.
  - rewrite bool_decide_eq_false_2 in * by done. rewrite Hb1 in Hj. injection Hj as <-.
    eapply runs_weaken; [eapply (written_run k _ d1 i i); [apply put_dev|done|done|done|by left|by apply Hq1; cbn; rewrite Et|by intros ?%Z.eqb_eq]|]. cbv beta. intros _ s' ->. by rewrite Hput.
  - rewrite bool_decide_eq_false_2 in * by done. rewrite Hb1 in Hj. injection Hj as <-.
    eapply runs_weaken; [eapply (written_run k _ d1 i i); [apply put_dev|done|done|done|by right; left|by apply Hq1; cbn; rewrite Et|by intros ?%Z.eqb_eq]|]. cbv beta. intros _ s' ->. by rewrite Hput.
  - rewrite bool_decide_eq_false_2 in * by done. rewrite Hb1 in Hj. injection Hj as <-. pose proof Hok as (n & Hn & Hs & _).
    eapply runs_weaken; [eapply (written_run k _ d1 i i); [apply put_dev|done|done|done|by right; right; left|by apply Hq1; cbn; rewrite Et|]|].
    + intros Hx%Z.eqb_eq. exact (low_same (b <| sizing := sz |>) eax n Hok Hs ltac:(lia) He Hx).
    + cbv beta. intros _ s' ->. by rewrite Hput.
  - rewrite bool_decide_eq_true_2 in * by done. destruct Hm as (lo & Hlo & Htl & _). rewrite Hj in Hlo. injection Hlo as ->.
    assert (Hi1 : 0 <= i - 1 < 6) by (split; [|lia]; unfold nthZ in Hj; destruct (Z.leb_spec 0 (i - 1)); [lia|done]).
    destruct (vo_bar _ _ Hd1 (i - 1) lo Hi1 Hj) as [Hoklo _]. unfold bar_ok in Hoklo. rewrite Htl in Hoklo. pose proof Hoklo as (n & Hn & Hs & _).
    apply runs_bind, (runs_the_bar k _ d1 (i - 1) lo); [apply put_dev|done|].
    eapply runs_weaken; [eapply (written_run k _ d1 i (i - 1)); [apply put_dev|done|done|done|by right; right; right|by apply Hq1; rewrite Htl|]|].
    + intros Hx%Z.eqb_eq. exact (high_same lo eax n Hoklo Hs ltac:(lia) He Hx).
    + cbv beta. intros _ s' ->. by rewrite Hput.
Qed.

(** ** Sizing *)

Lemma mask_value b n : b_size b = 2 ^ n -> 0 <= n <= 64 -> bar_mask b = 2 ^ 64 - b_size b.
Proof.
  intros Hs Hn. unfold bar_mask, u64, wrap. replace (Z.lnot (b_size b - 1)) with (2 ^ 64 - b_size b + (-1) * 2 ^ 64) by (unfold Z.lnot; lia).
  rewrite Z.mod_add by done. apply Z.mod_small. pose proof (Z.pow_le_mono_r 2 n 64 ltac:(lia) ltac:(lia)). pose proof (pow2_pos n ltac:(lia)). lia.
Qed.

(** What the register shows of the size of [b] after all ones. *)
Definition shows_size (t : pcibar_type) (b : pcibar) (v : Z) : Prop :=
  match t with
  | PCIBAR_IO => Z.land v 0xfffc = Z.land (2 ^ 64 - b_size b) 0xfffc
  | PCIBAR_MEM32 | PCIBAR_MEM64 => Z.land v 0xfffffff0 = Z.land (2 ^ 64 - b_size b) 0xfffffff0
  | _ => v = Z.shiftr (2 ^ 64 - b_size b) 32
  end.

(** The register as it stands. *)
Definition shows (t : pcibar_type) (b : pcibar) (r : Z) : Prop :=
  match t with
  | PCIBAR_IO => Z.testbit r 0 = true /\ Z.testbit r 1 = false /\ forall j, 2 <= j < 32 -> Z.testbit r j = Z.testbit (b_addr b) j
  | PCIBAR_MEM32 | PCIBAR_MEM64 => Z.testbit r 0 = false /\ forall j, 4 <= j < 32 -> Z.testbit r j = Z.testbit (b_addr b) j
  | _ => forall j, 0 <= j < 32 -> Z.testbit r j = Z.testbit (b_addr b) (32 + j)
  end.

(** The BAR that a register is of. *)
Definition held (t : pcibar_type) (b : pcibar) : Prop := match t with PCIBAR_IO => bar_in 2 16 b | PCIBAR_MEM32 => bar_in 4 32 b | _ => bar_in 4 64 b end.

Ltac cases_of j := repeat match goal with
  | |- context [?x <=? j] => destruct (Z.leb_spec x j)
  | |- context [j <? ?x] => destruct (Z.ltb_spec j x)
  end; cbn [andb orb]; rewrite ?andb_false_r, ?andb_true_r, ?orb_false_r, ?orb_true_r.

Lemma addr_back t b a1 r : has_address t -> held t b -> shows t b r -> fits 32 r -> a1 = addr_after t b 0xffffffff ->
  addr_after t (moved b a1) r = b_addr b.
Proof.
  intros Ht Hh Hs Hr Ha. apply Z.bits_inj'. intros j Hj. assert (He : fits 32 0xffffffff) by (split; [lia|reflexivity]).
  destruct Ht as [-> | [-> | [-> | ->]]]; pose proof Hh as (n & Hn & Hsz & Hf & Hl); cbn [addr_after shows held] in *.
  - destruct Hs as (_ & _ & Hs). unfold io_addr. rewrite !Z.land_spec, (testbit_mask (moved b a1) n) by (done || lia).
    change 0xffff with (Z.ones 16). destruct (Z.lt_ge_cases j 16); [rewrite Z.ones_spec_low by lia|rewrite Z.ones_spec_high by lia].
    + cases_of j; [by apply Hs; lia|lia|by rewrite Hl by lia|by rewrite Hl by lia].
    + rewrite andb_false_r. by rewrite (testbit_fits 16).
  - destruct Hs as (_ & Hs). unfold mem_addr. rewrite Z.land_spec, (testbit_mask (moved b a1) n) by (done || lia).
    destruct (Z.lt_ge_cases j 32); [|rewrite (testbit_fits 32 r), (testbit_fits 32 (b_addr b)) by done; done].
    cases_of j; [by apply Hs; lia|lia|by rewrite Hl by lia|by rewrite Hl by lia].
  - destruct Hs as (_ & Hs). destruct (low_keeps b 0xffffffff n Hh Hsz ltac:(lia) He) as [K1 _].
    rewrite (low_addr_bit (moved b a1) r n); [|subst a1; by apply low_moved|done|lia|done|done]. change (b_addr (moved b a1)) with a1.
    destruct (Z.ltb_spec j 32).
    + rewrite Z.land_spec, (testbit_mask (moved b a1) n) by (done || lia). cases_of j; [by apply Hs; lia|lia|by rewrite Hl by lia|by rewrite Hl by lia].
    + destruct (Z.lt_ge_cases j 64); [subst a1; apply K1; lia|]. assert (Hm : bar_in 4 64 (moved b a1)) by (subst a1; by apply low_moved).
      destruct Hm as (_ & _ & _ & Hm & _). change (b_addr (moved b a1)) with a1 in Hm. by rewrite !(testbit_fits 64).
  - destruct (high_keeps b 0xffffffff n Hh Hsz ltac:(lia) He) as [K1 _].
    rewrite (high_addr_bit (moved b a1) r n); [|subst a1; by apply high_moved|done|lia|done|done]. change (b_addr (moved b a1)) with a1.
    destruct (Z.ltb_spec j 32); [subst a1; by apply K1|]. rewrite Z.land_spec, Z.shiftl_spec, (testbit_mask (moved b a1) n) by (done || lia).
    destruct (Z.lt_ge_cases j 64); [|rewrite (testbit_fits 64 (b_addr b)) by done; cases_of j; (done || lia)].
    rewrite Hs by lia. replace (32 + (j - 32)) with j by lia. cases_of j; [done|lia|by rewrite Hl by lia|by rewrite Hl by lia].
Qed.

(** The register that is left when the register is written back: itself. *)
Lemma reg_back t b a1 r old : has_address t -> held t b -> shows t b r -> fits 32 r ->
  (forall j, 0 <= j < 4 -> Z.testbit old j = Z.testbit r j) ->
  forall j, 0 <= j < 32 -> Z.testbit (reg_after t (moved b a1) r old) j = Z.testbit r j.
Proof.
  intros Ht Hh Hs Hr Hold j Hj. destruct Ht as [-> | [-> | [-> | ->]]]; pose proof Hh as (n & Hn & Hsz & Hf & Hl); cbn [reg_after shows held] in *.
  - destruct Hs as (S0 & S1 & Hs). change PCIM_BAR_IO_SPACE with 1. unfold io_addr. rewrite Z.lor_spec, !Z.land_spec, (testbit_mask (moved b a1) n) by (done || lia).
    assert (Hc : j = 0 \/ j = 1 \/ 2 <= j) by lia. destruct Hc as [-> | [-> |Hj2]]; [by rewrite S0, orb_true_r|by rewrite S1|].
    rewrite (testbit_fits 2 1), orb_false_r by (lia || (split; [lia|reflexivity])). change 0xffff with (Z.ones 16).
    destruct (Z.lt_ge_cases j 16); [rewrite Z.ones_spec_low by lia|rewrite Z.ones_spec_high by lia].
    + cases_of j; [done|lia|rewrite Hs, Hl by lia; done|lia].
    + rewrite andb_false_r. rewrite Hs by lia. by rewrite (testbit_fits 16).
  - destruct Hs as (S0 & Hs). unfold mem_addr. rewrite Z.lor_spec, prop_bits, Z.land_spec, (testbit_mask (moved b a1) n) by (done || lia).
    destruct (Z.lt_ge_cases j 4); [rewrite Hold by lia; cases_of j; (done || lia)|]. cases_of j; try done; try lia. rewrite Hs, Hl by lia. done.
  - destruct Hs as (S0 & Hs). unfold mem_addr. rewrite Z.lor_spec, prop_bits, Z.land_spec, (testbit_mask (moved b a1) n) by (done || lia).
    destruct (Z.lt_ge_cases j 4); [rewrite Hold by lia; cases_of j; (done || lia)|]. cases_of j; try done; try lia. rewrite Hs, Hl by lia. done.
  - rewrite Z.shiftr_spec, Z.land_spec, Z.shiftl_spec, (testbit_mask (moved b a1) n) by (done || lia). replace (j + 32 - 32) with j by lia.
    rewrite (proj2 (Z.ltb_lt _ 64)) by lia. rewrite andb_true_r. destruct (Z.leb_spec n (j + 32)); [by rewrite andb_true_r|]. rewrite Hs, Hl by lia. done.
Qed.

(** All ones show the size and leave the kind. *)
Lemma ones_show t b old : has_address t -> held t b -> forall v, fits 32 v ->
  (forall j, 0 <= j < 32 -> Z.testbit v j = Z.testbit (reg_after t b 0xffffffff old) j) -> shows_size t b v /\
  (t <> PCIBAR_IO -> t <> PCIBAR_MEMHI64 -> forall j, 0 <= j < 4 -> Z.testbit v j = Z.testbit old j).
Proof.
  intros Ht Hh v Hv Hb.
  assert (Hm : exists n, 2 <= n <= 64 /\ b_size b = 2 ^ n) by (destruct Ht as [-> | [-> | [-> | ->]]]; destruct Hh as (n & Hn & Hsz & _); exists n; split; (done || lia)).
  destruct Hm as (n & Hn & Hsz). assert (Hmv : 2 ^ 64 - b_size b = bar_mask b) by (symmetry; apply (mask_value b n); [done|lia]).
  assert (Hmb : forall j, 0 <= j -> Z.testbit (bar_mask b) j = (n <=? j) && (j <? 64)) by (intros; apply testbit_mask; (done || lia)).
  unfold shows_size. rewrite Hmv. destruct Ht as [-> | [-> | [-> | ->]]]; cbn [reg_after] in Hb; (split; [|try done]).
  - apply Z.bits_inj'. intros j Hj. rewrite !Z.land_spec. change 0xfffc with (Z.shiftl (Z.ones 14) 2). rewrite Z.shiftl_spec by done.
    destruct (Z.lt_ge_cases j 2); [rewrite (Z.testbit_neg_r _ (j - 2)) by lia; by rewrite !andb_false_r|].
    destruct (Z.lt_ge_cases j 16); [|rewrite (Z.ones_spec_high 14) by lia; by rewrite !andb_false_r]. rewrite Hb by lia. change PCIM_BAR_IO_SPACE with 1.
    rewrite Z.lor_spec, (testbit_fits 2 1), orb_false_r by (lia || (split; [lia|reflexivity])). unfold io_addr. rewrite !Z.land_spec, testbit_low by lia.
    change 0xffff with (Z.ones 16). rewrite (Z.ones_spec_low 16) by lia. cases_of j; (done || lia).
  - apply Z.bits_inj'. intros j Hj. rewrite !Z.land_spec. change 0xfffffff0 with (Z.shiftl (Z.ones 28) 4). rewrite Z.shiftl_spec by done.
    destruct (Z.lt_ge_cases j 4); [rewrite (Z.testbit_neg_r _ (j - 4)) by lia; by rewrite !andb_false_r|].
    destruct (Z.lt_ge_cases j 32); [|rewrite (Z.ones_spec_high 28) by lia; by rewrite !andb_false_r]. rewrite Hb by lia.
    rewrite Z.lor_spec, prop_bits by lia. unfold mem_addr. rewrite Z.land_spec, testbit_low by lia. f_equal. cases_of j; (done || lia).
  - intros _ _ j Hj. destruct Hh as (n' & Hn' & Hsz' & _). rewrite Hb, Z.lor_spec, prop_bits by lia. unfold mem_addr. rewrite Z.land_spec, (testbit_mask b n') by (done || lia).
    cases_of j; (done || lia).
  - apply Z.bits_inj'. intros j Hj. rewrite !Z.land_spec. change 0xfffffff0 with (Z.shiftl (Z.ones 28) 4). rewrite Z.shiftl_spec by done.
    destruct (Z.lt_ge_cases j 4); [rewrite (Z.testbit_neg_r _ (j - 4)) by lia; by rewrite !andb_false_r|].
    destruct (Z.lt_ge_cases j 32); [|rewrite (Z.ones_spec_high 28) by lia; by rewrite !andb_false_r]. rewrite Hb by lia.
    rewrite Z.lor_spec, prop_bits by lia. unfold mem_addr. rewrite Z.land_spec, testbit_low by lia. f_equal. cases_of j; (done || lia).
  - intros _ _ j Hj. destruct Hh as (n' & Hn' & Hsz' & _). rewrite Hb, Z.lor_spec, prop_bits by lia. unfold mem_addr. rewrite Z.land_spec, (testbit_mask b n') by (done || lia).
    cases_of j; (done || lia).
  - apply Z.bits_inj'. intros j Hj. destruct (Z.lt_ge_cases j 32).
    + rewrite Hb by lia. rewrite !Z.shiftr_spec, Z.land_spec, Z.shiftl_spec, testbit_low by lia. replace (j + 32 - 32) with j by lia. rewrite (proj2 (Z.ltb_lt j 32)) by lia. done.
    + rewrite (testbit_fits 32 v), Z.shiftr_spec, Hmb by (done || lia). rewrite (proj2 (Z.ltb_ge _ 64)) by lia. by rewrite andb_false_r.
Qed.

Lemma setZ_comm {A} (m : list A) i j x y : i <> j -> setZ (setZ m i x) j y = setZ (setZ m j y) i x.
Proof. intros Hne. unfold setZ. destruct (Z.leb_spec 0 i), (Z.leb_spec 0 j); try done. apply list_insert_insert_ne. lia. Qed.

Lemma flag_back b a x : sizing b = false -> (moved (b <| sizing := x |>) a) <| sizing := false |> = moved b a.
Proof. intros Hs. unfold moved. destruct b. cbn in *. by subst. Qed.
Lemma flag_same b x : sizing b = false -> (b <| sizing := x |>) <| sizing := false |> = b.
Proof. intros Hs. destruct b. cbn in *. by subst. Qed.
Lemma moved_back b a : moved (moved b a) (b_addr b) = b.
Proof. by destruct b. Qed.

Definition ALL_ONES := 0xffffffff.
Lemma ones_fit : fits 32 ALL_ONES.
Proof. split; [unfold ALL_ONES; lia|reflexivity]. Qed.

(** The device after the write of all ones, and after the register is written back. *)
Definition probed d i b r (lo : pcibar) : pci_vdev := written (sized d i b (decodes d b)) i (b_type b) lo ALL_ONES r.

Lemma put_back d i b lo bx v r : cfg_ok (cfgdata d) -> 0 <= i < 6 -> nthZ (bar d) i = Some b -> sizing b = false -> has_address (b_type b) ->
  nthZ (bar d) (target (b_type b) i) = Some lo -> held (b_type b) lo -> shows (b_type b) lo r -> fits 32 r ->
  (forall j, 0 <= j < 32 -> Z.testbit r j = reg_bit (cfgdata d) i j) ->
  (forall j, 0 <= j < 4 -> b_type b <> PCIBAR_IO -> b_type b <> PCIBAR_MEMHI64 -> Z.testbit v j = Z.testbit r j) ->
  let lo1 := if bool_decide (b_type b = PCIBAR_MEMHI64) then lo else b <| sizing := decodes d b |> in
  let d2 := probed d i b r lo1 in
  nthZ (bar d2) i = Some bx ->
  bx <| sizing := false |> = (if bool_decide (b_type b = PCIBAR_MEMHI64) then b else moved lo (addr_after (b_type b) lo ALL_ONES)) /\
  (b_type bx = b_type b /\ sizing bx = decodes d b) /\
  nthZ (bar (sized d2 i bx false)) (target (b_type b) i) = Some (moved lo (addr_after (b_type b) lo ALL_ONES)) /\
  written (sized d2 i bx false) i (b_type b) (moved lo (addr_after (b_type b) lo ALL_ONES)) r v = d.
Proof.
  intros Hc Hi Hb Hsz Ht Hlo Hh Hs Hr Hbits Hv lo1 d2 Hbx. set (t := b_type b) in *. set (a1 := addr_after t lo ALL_ONES) in *.
  assert (Hcfg : forall lo', b_size lo' = b_size lo -> store 4 (PCIR_BAR i) (reg_after t (moved lo a1) r v) (store 4 (PCIR_BAR i) (reg_after t lo' ALL_ONES r) (cfgdata d)) = cfgdata d).
  { intros lo' _. apply store_reg_back; [done|done|]. intros j Hj. rewrite <- Hbits by done.
    destruct (decide (t = PCIBAR_IO \/ t = PCIBAR_MEMHI64)) as [Hx|Hx].
    - replace (reg_after t (moved lo a1) r v) with (reg_after t (moved lo a1) r r) by (by destruct Hx as [-> | ->]). by apply reg_back.
    - apply reg_back; try done. intros j' Hj'. apply Hv; tauto. }
  pose proof (addr_back t lo a1 r Ht Hh Hs Hr eq_refl) as Hback.
  unfold target, lo1 in *. destruct (bool_decide (t = PCIBAR_MEMHI64)) eqn:Ehi.
  - apply bool_decide_eq_true in Ehi.
    assert (Ebars : bar d2 = setZ (setZ (bar d) i (b <| sizing := decodes d b |>)) (i - 1) (moved lo a1)).
    { unfold d2, probed, written, target. fold t. rewrite bool_decide_eq_true_2 by done. done. }
    rewrite Ebars, nthZ_setZ_ne, (nthZ_setZ_eq _ _ b) in Hbx by (done || lia). injection Hbx as <-. rewrite flag_same by done. split; [done|]. split; [done|].
    assert (E3 : bar (sized d2 i (b <| sizing := decodes d b |>) false) = setZ (bar d) (i - 1) (moved lo a1)).
    { unfold sized. rewrite flag_same by done. change (bar (with_bar d2 i b)) with (setZ (bar d2) i b). rewrite Ebars, setZ_comm, setZ_setZ, (setZ_id _ _ _ Hb) by lia. done. }
    split; [rewrite E3; by apply (nthZ_setZ_eq _ _ lo)|]. unfold written, target. rewrite bool_decide_eq_true_2 by done. rewrite Hback, moved_back.
    unfold with_reg, with_bar. change (mkVdev (dev_name d) (prevcap d) (capend d) (d_lintr d) (d_msi d) (d_msix d)
      (store 4 (PCIR_BAR i) (reg_after t (moved lo a1) r v) (cfgdata d2)) (setZ (bar (sized d2 i (b <| sizing := decodes d b |>) false)) (i - 1) lo) = d).
    rewrite E3, setZ_setZ, (setZ_id _ _ _ Hlo). change (cfgdata d2) with (store 4 (PCIR_BAR i) (reg_after t lo ALL_ONES r) (cfgdata d)). rewrite Hcfg by done. by destruct d.
  - apply bool_decide_eq_false in Ehi. rewrite Hb in Hlo. injection Hlo as <-.
    assert (Ebars : bar d2 = setZ (bar d) i (moved (b <| sizing := decodes d b |>) a1)).
    { unfold d2, probed, written, target. fold t. rewrite bool_decide_eq_false_2 by done. unfold with_reg, with_bar, sized, with_bar. cbn. rewrite setZ_setZ. done. }
    rewrite Ebars, (nthZ_setZ_eq _ _ b) in Hbx by done. injection Hbx as <-. rewrite flag_back by done. split; [done|]. split; [done|].
    assert (E3 : bar (sized d2 i (moved (b <| sizing := decodes d b |>) a1) false) = setZ (bar d) i (moved b a1)).
    { unfold sized. rewrite flag_back by done. change (bar (with_bar d2 i ?x)) with (setZ (bar d2) i x). by rewrite Ebars, setZ_setZ. }
    split; [rewrite E3; by apply (nthZ_setZ_eq _ _ b)|]. unfold written, target. rewrite bool_decide_eq_false_2 by done. rewrite Hback, moved_back.
    unfold with_reg, with_bar. change (mkVdev (dev_name d) (prevcap d) (capend d) (d_lintr d) (d_msi d) (d_msix d)
      (store 4 (PCIR_BAR i) (reg_after t (moved b a1) r v) (cfgdata d2)) (setZ (bar (sized d2 i (moved (b <| sizing := decodes d b |>) a1) false)) i b) = d).
    rewrite E3, setZ_setZ, (setZ_id _ _ _ Hb). change (cfgdata d2) with (store 4 (PCIR_BAR i) (reg_after t (b <| sizing := decodes d b |>) ALL_ONES r) (cfgdata d)). rewrite Hcfg by done. by destruct d.
Qed.

Lemma bar_of_register l d i b : vdev_ok l d -> 0 <= i < 6 -> nthZ (bar d) i = Some b -> has_address (b_type b) ->
  exists lo, nthZ (bar d) (target (b_type b) i) = Some lo /\ held (b_type b) lo /\
    forall r, (forall j, 0 <= j < 32 -> Z.testbit r j = reg_bit (cfgdata d) i j) -> shows (b_type b) lo r.
Proof.
  intros Hd Hi Hb Ht. destruct (vo_bar _ _ Hd i b Hi Hb) as [Hok Hm]. unfold bar_ok, mirrored, target, held, shows in *.
  destruct Ht as [Et|[Et|[Et|Et]]]; rewrite Et in *.
  - exists b. split; [done|]. split; [done|]. intros r Hr. destruct Hm as (M0 & M1 & M2). rewrite !Hr by lia. split; [done|]. split; [done|]. intros j Hj. rewrite Hr by lia. by apply M2.
  - exists b. split; [done|]. split; [done|]. intros r Hr. destruct Hm as (M0 & M1). rewrite !Hr by lia. split; [done|]. intros j Hj. rewrite Hr by lia. by apply M1.
  - exists b. split; [done|]. split; [done|]. intros r Hr. destruct Hm as (M0 & M1). rewrite !Hr by lia. split; [done|]. intros j Hj. rewrite Hr by lia. by apply M1.
  - destruct Hm as (lo & Hlo & Htl & Hm). exists lo. rewrite bool_decide_eq_true_2 by done. split; [done|].
    assert (Hi1 : 0 <= i - 1 < 6) by (split; [|lia]; unfold nthZ in Hlo; destruct (Z.leb_spec 0 (i - 1)); [lia|done]).
    destruct (vo_bar _ _ Hd (i - 1) lo Hi1 Hlo) as [Hoklo _]. unfold bar_ok in Hoklo. rewrite Htl in Hoklo. split; [done|]. intros r Hr j Hj. rewrite Hr by lia. by apply Hm.
Qed.

Lemma decodes_store d i v b : cfg_ok (cfgdata d) -> 0 <= i < 6 -> decodes (with_reg d i v) b = decodes d b.
Proof.
  intros Hc Hi. unfold decodes. set (t := 8 * PCIR_COMMAND + _). assert (Ht : 0 <= t < 64) by (unfold t, PCIR_COMMAND; destruct (bool_decide _); lia).
  change (cfgdata (with_reg d i v)) with (store 4 (PCIR_BAR i) v (cfgdata d)). rewrite cbit_store by (done || (by apply reg_aligned) || lia).
  unfold PCIR_BAR. destruct (Z.leb_spec (8 * (16 + i * 4)) t); [lia|done].
Qed.

Lemma sizing_first D : sizing_step D false ALL_ONES = (D, D).
Proof. by destruct D. Qed.
Lemma sizing_last D r : r <> ALL_ONES -> sizing_step D D r = (D, false).
Proof. intros Hr. unfold sizing_step. change 0xffffffff with ALL_ONES. destruct D; cbn [negb andb]; [|done]. by rewrite (proj2 (Z.eqb_neq _ _) Hr). Qed.

Lemma sizing_run k l s d i b r : mmio_ok s -> devs (clients s) !! k = Some d -> vdev_ok l d -> 0 <= i < 6 -> nthZ (bar d) i = Some b ->
  has_address (b_type b) -> sizing b = false -> pci_get_cfgdata 4 (PCIR_BAR i) (cfgdata d) = Ret r -> r <> ALL_ONES ->
  exists lo s1 v, nthZ (bar d) (target (b_type b) i) = Some lo /\
    write_bar dev_ops malloc k i ALL_ONES s = Ret (tt, s1) /\ frame k s s1 /\ get_cfg 4 k (PCIR_BAR i) s1 = Ret (v, s1) /\
    shows_size (b_type b) lo v /\ write_bar dev_ops malloc k i r s1 = Ret (tt, s).
Proof.
  intros Hmm E Hd Hi Hb Ht Hsz Hr Hne. pose proof (vo_cfg _ _ Hd) as Hc.
  destruct (get_run 4 (PCIR_BAR i) (cfgdata d) Hc (reg_aligned i Hi)) as (r' & Er & Hrf & Hrb). rewrite Hr in Er. injection Er as <-. change (8 * Z.of_nat 4) with 32 in *.
  destruct (bar_of_register l d i b Hd Hi Hb Ht) as (lo & Hlo & Hh & Hshow). specialize (Hshow r Hrb).
  set (lo1 := if bool_decide (b_type b = PCIBAR_MEMHI64) then lo else b <| sizing := decodes d b |>). set (d2 := probed d i b r lo1).
  assert (Hlo1 : nthZ (bar (sized d i b (decodes d b))) (target (b_type b) i) = Some lo1).
  { unfold lo1, target in *. change (bar (sized d i b ?x)) with (setZ (bar d) i (b <| sizing := x |>)).
    destruct (bool_decide (b_type b = PCIBAR_MEMHI64)); [rewrite nthZ_setZ_ne by lia; done|by rewrite (nthZ_setZ_eq _ _ b)]. }
  assert (Hsame : b_size lo1 = b_size lo /\ held (b_type b) lo1 /\ reg_after (b_type b) lo1 ALL_ONES r = reg_after (b_type b) lo ALL_ONES r).
  { unfold lo1, target in *. destruct (bool_decide (b_type b = PCIBAR_MEMHI64)) eqn:Ehi; [done|]. rewrite Hb in Hlo. injection Hlo as <-. split; [done|].
    split; [by destruct Ht as [Et|[Et|[Et|Et]]]; rewrite Et in *|by destruct Ht as [Et|[Et|[Et|Et]]]; rewrite Et]. }
  destruct Hsame as (Hs1 & Hh1 & Hra).
  pose proof (write_quiet k l s d i b lo1 ALL_ONES (decodes d b) (decodes d b) r E Hd Hi Hb Ht ones_fit) as W1. rewrite Hsz in W1.
  specialize (W1 (sizing_first _) ltac:(destruct (decodes d b); auto) Hlo1 Hr). fold (probed d i b r lo1) in W1. fold d2 in W1.
  destruct (runs_returns _ _ _ W1) as ([] & s1 & E1 & Es1).
  assert (Hst : st k (vdev_ok l) (line_of d (gsis (irqs (clients s)))) s s) by (split; [done|]; split; [done|]; by exists d).
  pose proof (write_bar_run dev_ops malloc k l _ s s i ALL_ONES Hst Hi ones_fit) as W1'. unfold runs in W1'. rewrite E1 in W1'.
  destruct W1' as (Hmm1 & Hf1 & d2' & E2 & Hd2 & _). rewrite Es1, put_dev in E2. injection E2 as <-.
  pose proof (put_dev k d2 s) as E2. rewrite <- Es1 in E2.
  destruct (get_run 4 (PCIR_BAR i) (cfgdata d2) (vo_cfg _ _ Hd2) (reg_aligned i Hi)) as (v & Ev & Hvf & Hvb). change (8 * Z.of_nat 4) with 32 in *.
  assert (Hvr : forall j, 0 <= j < 32 -> Z.testbit v j = Z.testbit (reg_after (b_type b) lo1 ALL_ONES r) j).
  { intros j Hj. rewrite Hvb by done. change (cfgdata d2) with (store 4 (PCIR_BAR i) (reg_after (b_type b) lo1 ALL_ONES r) (cfgdata d)).
    fold (reg_bit (store 4 (PCIR_BAR i) (reg_after (b_type b) lo1 ALL_ONES r) (cfgdata d)) i j). by rewrite reg_bit_store, Z.eqb_refl. }
  destruct (ones_show (b_type b) lo1 r Ht Hh1 v Hvf Hvr) as [Hsize Hkind].
  assert (Hv4 : forall j, 0 <= j < 4 -> b_type b <> PCIBAR_IO -> b_type b <> PCIBAR_MEMHI64 -> Z.testbit v j = Z.testbit r j) by (intros; by apply Hkind).
  destruct (bar_exists l d2 i Hd2 ltac:(lia)) as [bx Hbx].
  destruct (put_back d i b lo bx v r Hc Hi Hb Hsz Ht Hlo Hh Hshow Hrf Hrb Hv4 Hbx) as (_ & (Htx & Hsx) & Hlo2 & Hd4). fold lo1 d2 in Hlo2, Hd4.
  assert (Hdec : decodes d2 bx = decodes d b).
  { rewrite (decodes_kind d2 bx b) by (by rewrite Htx). exact (decodes_store (sized d i b (decodes d b)) i _ b Hc Hi). }
  pose proof (write_quiet k l s1 d2 i bx (moved lo (addr_after (b_type b) lo ALL_ONES)) r (decodes d b) false v E2 Hd2 Hi Hbx) as W2.
  rewrite Htx, Hsx, Hdec in W2. specialize (W2 Ht Hrf (sizing_last _ _ Hne) ltac:(destruct (decodes d b); auto) Hlo2 Ev).
  destruct (runs_returns _ _ _ W2) as ([] & s2 & E3 & Es2). rewrite Hd4, Es1, put_put, put_id in Es2 by done. subst s2.
  exists lo, s1, v. split; [done|]. split; [done|]. split; [done|]. split; [|split; [|done]].
  - unfold get_cfg, mbind, M_bind. pose proof (runs_dev k s1 d2 (fun a s' => a = d2 /\ s' = s1) E2 ltac:(done)) as R. destruct (runs_returns _ _ _ R) as (a & sx & -> & -> & ->).
    unfold lift. by rewrite Ev.
  - destruct Ht as [Et|[Et|[Et|Et]]]; rewrite Et in *; unfold shows_size in *; by rewrite <- Hs1.
Qed.

(** ** As the guest does it *)

(** There is a device, and its kind leaves configuration accesses to the core. *)
Record plugged s (bus slot func : Z) : Prop := {
  pl_bus : 0 <= bus <= PCI_BUSMAX; pl_slot : 0 <= slot <= PCI_SLOTMAX; pl_func : 0 <= func <= PCI_FUNCMAX;
  pl_there : bus ∈ businfo (clients s); pl_linked : bdf bus slot func ∈ fi_devi (clients s);
  pl_write : vdev_cfgwrite (dev_ops (bdf bus slot func)) = None; pl_read : vdev_cfgread (dev_ops (bdf bus slot func)) = None
}.

Lemma plugged_frame s s' bus slot func k : plugged s bus slot func -> frame k s s' -> plugged s' bus slot func.
Proof. intros [H1 H2 H3 H4 H5 H6 H7] (_ & F1 & F2). split; try done; [by rewrite F2|by rewrite F1]. Qed.

Lemma located_plugged s bus slot func : plugged s bus slot func -> located bus slot func s = Ret (true, s).
Proof.
  intros [H1 H2 H3 H4 H5 _ _]. assert (R : runs (located bus slot func) s (fun b s' => b = true /\ s' = s)).
  { unfold located. rewrite (proj2 (Z.ltb_ge bus 0)), (proj2 (Z.ltb_ge PCI_BUSMAX bus)) by lia. cbn [orb].
    apply runs_bind, runs_bind, runs_get, runs_ret. rewrite bool_decide_eq_true_2 by done. cbn [negb].
    rewrite (proj2 (Z.ltb_ge slot 0)), (proj2 (Z.ltb_ge PCI_SLOTMAX slot)), (proj2 (Z.ltb_ge func 0)), (proj2 (Z.ltb_ge PCI_FUNCMAX func)) by lia.
    apply runs_ret. by rewrite bool_decide_eq_true_2. }
  destruct (runs_returns _ _ _ R) as (b & s' & E & -> & ->). exact E.
Qed.

Lemma reg_in_space i : 0 <= i < 6 -> (PCI_REGMAX + 1 <=? PCIR_BAR i) = false /\ Z.land (PCIR_BAR i) (4 - 1) = 0 /\
  (PCIR_BAR 0 <=? PCIR_BAR i) && (PCIR_BAR i <? PCIR_BAR (PCI_BARMAX + 1)) = true /\ (PCIR_BAR i - PCIR_BAR 0) / 4 = i /\ (PCIR_BAR i <=? PCIR_HDRTYPE) = false.
Proof.
  intros Hi. change (4 - 1) with (Z.of_nat 4 - 1). rewrite land_align by tauto. change (Z.of_nat 4) with 4. unfold PCI_REGMAX, PCIR_BAR, PCI_BARMAX, PCIR_HDRTYPE.
  split; [apply Z.leb_gt; lia|]. split; [Z.div_mod_to_equations; lia|]. split; [rewrite andb_true_iff, Z.leb_le, Z.ltb_lt; lia|].
  split; [Z.div_mod_to_equations; lia|apply Z.leb_gt; lia].
Qed.

Lemma write_access s s' bus slot func i eax : plugged s bus slot func -> 0 <= i < 6 -> write_bar dev_ops malloc (bdf bus slot func) i eax s = Ret (tt, s') ->
  pci_cfgrw dev_ops malloc false bus slot func (PCIR_BAR i) 4 eax s = Ret (eax, s').
Proof.
  intros Hp Hi E. destruct (reg_in_space i Hi) as (R1 & R2 & R3 & R4 & _). unfold pci_cfgrw, mbind, M_bind. rewrite (located_plugged s) by done.
  change (negb true || negb ((4 =? 1) || (4 =? 2) || (4 =? 4)) || negb (Z.land (PCIR_BAR i) (4 - 1) =? 0)) with (negb (Z.land (PCIR_BAR i) (4 - 1) =? 0)).
  rewrite R2, R1, andb_false_r. change (negb (0 =? 0)) with false. cbv iota. rewrite (pl_write _ _ _ _ Hp). unfold mret, M_ret. cbv iota beta.
  cbn [when negb]. unfold write_config. rewrite R3. change (Z.land (PCIR_BAR i) 3) with (Z.land (PCIR_BAR i) (4 - 1)). rewrite R2, R4.
  change (negb (4 =? 4) || negb (0 =? 0)) with false. cbv iota. by rewrite E.
Qed.
Lemma read_access s bus slot func i eax v : plugged s bus slot func -> 0 <= i < 6 -> get_cfg 4 (bdf bus slot func) (PCIR_BAR i) s = Ret (v, s) ->
  pci_cfgrw dev_ops malloc true bus slot func (PCIR_BAR i) 4 eax s = Ret (v, s).
Proof.
  intros Hp Hi E. destruct (reg_in_space i Hi) as (R1 & R2 & _ & _ & R5). unfold pci_cfgrw, mbind, M_bind. rewrite (located_plugged s) by done.
  change (negb true || negb ((4 =? 1) || (4 =? 2) || (4 =? 4)) || negb (Z.land (PCIR_BAR i) (4 - 1) =? 0)) with (negb (Z.land (PCIR_BAR i) (4 - 1) =? 0)).
  rewrite R2, R1, andb_false_r. change (negb (0 =? 0)) with false. cbv iota. rewrite (pl_read _ _ _ _ Hp). unfold mret, M_ret. cbv iota beta.
  change (1 =? 0) with false. cbv iota. unfold CFGREAD. change (width 4) with 4%nat. rewrite E. unfold pci_emul_hdrtype_fixup.
  unfold the_pci, mbind, M_bind, get, mret, M_ret. by rewrite R5.
Qed.

(** C39. Sizing a BAR is undone by writing the register back: after all ones the register shows the
    size, of ports, of memory, or of either half of 64 bits, and after the old value the whole
    machine is what it was, emulated memory and ports included, whether or not the BAR
    is decoded meanwhile. *)
Theorem sizing_roundtrip l s d bus slot func i b r : let k := bdf bus slot func in
  plugged s bus slot func -> mmio_ok s -> devs (clients s) !! k = Some d -> vdev_ok l d -> 0 <= i < 6 -> nthZ (bar d) i = Some b ->
  has_address (b_type b) -> sizing b = false -> pci_get_cfgdata32 (PCIR_BAR i) (cfgdata d) = Ret r -> r <> ALL_ONES ->
  exists lo s1 v, nthZ (bar d) (target (b_type b) i) = Some lo /\
    pci_cfgrw dev_ops malloc false bus slot func (PCIR_BAR i) 4 ALL_ONES s = Ret (ALL_ONES, s1) /\
    (forall eax, pci_cfgrw dev_ops malloc true bus slot func (PCIR_BAR i) 4 eax s1 = Ret (v, s1)) /\ shows_size (b_type b) lo v /\
    pci_cfgrw dev_ops malloc false bus slot func (PCIR_BAR i) 4 r s1 = Ret (r, s).
Proof.
  intros k Hp Hmm E Hd Hi Hb Ht Hsz Hr Hne. destruct (sizing_run k l s d i b r Hmm E Hd Hi Hb Ht Hsz Hr Hne) as (lo & s1 & v & H1 & H2 & Hf & H3 & H4 & H5).
  pose proof (plugged_frame s s1 bus slot func k Hp Hf) as Hp1. exists lo, s1, v. split; [done|]. split; [by apply write_access|].
  split; [intros eax; by apply read_access|]. split; [done|]. by apply write_access.
Qed.

(** ** Moving *)

Lemma find_iff (s : vm) w x mr : mmio_ok s -> List.find (contains x) (ranges w s) = Some mr <-> mr ∈ ranges w s /\ contains x mr = true.
Proof.
  intros Hm. split; [intros [Hin Hc]%List.find_some; split; [by apply list_elem_of_In|done]|]. intros [Hin Hc].
  destruct (List.find (contains x) (ranges w s)) as [mr'|] eqn:Ef.
  - apply List.find_some in Ef as [Hin' Hc']. apply list_elem_of_In, list_elem_of_lookup in Hin' as [j Hj]. apply list_elem_of_lookup in Hin as [i Hi].
    destruct (decide (i = j)) as [-> |Hne]; [congruence|]. pose proof (ranges_apart w s i j mr mr' Hm Hi Hj Hne) as Ha.
    unfold apart, contains in *. rewrite !andb_true_iff, !Z.leb_le, !Z.ltb_lt in *. rewrite orb_true_iff, !Z.leb_le in Ha. lia.
  - apply List.find_none with (x := mr) in Ef; [congruence|by apply list_elem_of_In].
Qed.

Lemma find_none_iff (s : vm) w x : List.find (contains x) (ranges w s) = None <-> forall mr, mr ∈ ranges w s -> contains x mr = false.
Proof.
  split; [intros Ef mr Hin; apply List.find_none with (x := mr) in Ef; [done|by apply list_elem_of_In]|]. intros H.
  destruct (List.find _ _) as [mr|] eqn:Ef; [|done]. apply List.find_some in Ef as [Hin Hc]. rewrite H in Hc; [done|by apply list_elem_of_In].
Qed.

(** A range is there once. *)
Lemma once (s : vm) old rest : mmio_ok s -> ranges Root s ≡ₚ old :: rest -> 0 < r_size old -> old ∉ rest.
Proof.
  intros Hm Ho Hs Hin. apply list_elem_of_lookup in Hin as [j Hj]. symmetry in Ho. apply Permutation_inj in Ho as [_ (g & Hg & Hlook)].
  assert (H0 : Some old = ranges Root s !! g 0%nat) by exact (Hlook 0%nat).
  assert (H1 : Some old = ranges Root s !! g (S j)) by (rewrite <- Hj; exact (Hlook (S j))).
  assert (Ha : apart old old = true) by (eapply (ranges_apart Root s (g 0%nat) (g (S j))); [done|by rewrite <- H0|by rewrite <- H1|intros Heq; apply Hg in Heq; done]).
  unfold apart in Ha. rewrite orb_true_iff, !Z.leb_le in Ha. lia.
Qed.

(** One range is replaced. *)
Lemma owner_replaced (s s' : vm) old new rest x : mmio_ok s -> mmio_ok s' -> ranges Root s ≡ₚ old :: rest -> ranges Root s' ≡ₚ new :: rest ->
  ranges Fallback s' = ranges Fallback s ->
  owner s' x = if contains x new then Some new else if contains x old then List.find (contains x) (ranges Fallback s) else owner s x.
Proof.
  intros Hm Hm' Ho Hn Hf. unfold owner. rewrite Hf. destruct (contains x new) eqn:En.
  - rewrite (proj2 (find_iff s' Root x new Hm')); [done|]. split; [rewrite Hn; by left|done].
  - destruct (contains x old) eqn:Eo.
    + assert (Hnone : List.find (contains x) (ranges Root s') = None).
      { apply find_none_iff. intros mr Hin. rewrite Hn in Hin. apply elem_of_cons in Hin as [-> |Hin]; [done|].
        destruct (contains x mr) eqn:Ec; [|done]. exfalso.
        assert (Heq : forall a, a ∈ ranges Root s /\ contains x a = true -> Some a = Some old).
        { intros a Ha. rewrite <- (proj2 (find_iff s Root x a Hm) Ha). apply find_iff; [done|]. split; [rewrite Ho; by left|done]. }
        assert (mr = old) as -> by (specialize (Heq mr); rewrite Ho in Heq; injection Heq; [done|split; [by right|done]]).
        apply (once s old rest); try done. unfold contains in Eo. rewrite andb_true_iff, Z.leb_le, Z.ltb_lt in Eo. lia. }
      by rewrite Hnone.
    + destruct (List.find (contains x) (ranges Root s)) as [mr|] eqn:Es.
      * apply find_iff in Es as [Hin Hc]; [|done]. rewrite (proj2 (find_iff s' Root x mr Hm')); [done|]. split; [|done].
        rewrite Ho in Hin. rewrite Hn. apply elem_of_cons in Hin as [-> |Hin]; [congruence|by right].
      * rewrite (proj2 (find_none_iff s' Root x)); [done|]. intros mr Hin. rewrite Hn in Hin. apply elem_of_cons in Hin as [-> |Hin]; [done|].
        apply (proj1 (find_none_iff s Root x)); [done|]. rewrite Ho. by right.
Qed.

Lemma may_go_self mr : has (r_flags mr) MEM_F_IMMUTABLE = false -> may_go mr mr = true.
Proof. intros H. unfold may_go, same_name. by rewrite String.eqb_refl, !Z.eqb_refl, H. Qed.

(** What is registered as a range of memory, and the offsets of it. *)
Definition in_memory (b : pcibar) : Prop := b_type b = PCIBAR_MEM32 \/ b_type b = PCIBAR_MEM64.
Lemma size_pos k i d b : bar_ok b -> in_memory b -> 0 < r_size (bar_range k i d b).
Proof. intros Hok Ht. by destruct (bar_range_ok k i d b Hok Ht) as (_ & Hs & _). Qed.

(** A BAR goes into emulated memory exactly when its place is free there. *)
Lemma register_one k s d i b : mmio_ok s -> devs (clients s) !! k = Some d -> nthZ (bar d) i = Some b -> in_memory b -> bar_ok b -> is_pt_pci dev_ops k = false ->
  let new := bar_range k i d b in
  runs (register_bar dev_ops malloc k i) s (fun r s' => mmio_ok s' /\ devs (clients s') = devs (clients s) /\ ranges Fallback s' = ranges Fallback s /\
    if malloc (mallocs (clients s)) && free_for Root s new then r = 0 /\ ranges Root s' ≡ₚ new :: ranges Root s else r = -1 /\ ranges Root s' = ranges Root s).
Proof.
  intros Hm E Hb Ht Hok Hpt new. unfold register_bar, modify_bar_registration. rewrite Hpt. apply runs_bind, (runs_dev k s d); [done|].
  apply runs_bind, (runs_the_bar k s d i b); [done|done|]. fold new.
  assert (R : runs (p ← the_pci; _ ← on_pci (fun p => p <| mallocs ::= S |>); register_mem (malloc (mallocs p)) new) s (fun r s' => mmio_ok s' /\
    devs (clients s') = devs (clients s) /\ ranges Fallback s' = ranges Fallback s /\
    if malloc (mallocs (clients s)) && free_for Root s new then r = 0 /\ ranges Root s' ≡ₚ new :: ranges Root s else r = -1 /\ ranges Root s' = ranges Root s)).
  { apply runs_bind, runs_bind, runs_get, runs_ret. apply runs_bind, runs_modify. set (s1 := s <| clients ::= _ |>).
    eapply runs_weaken; [apply (mem_register_run (fun _ _ _ _ _ _ _ c => (0, 0, c)) Root _ new s1); [by apply mmio_ok_clients|by apply bar_range_ok]|].
    cbv beta. intros r s' (Hm' & Hc & Hf & Hr). split; [done|]. rewrite Hc. split; [done|]. by split. }
  by destruct Ht as [-> | ->].
Qed.

(** One that is there is taken out. *)
Lemma unregister_one k s d i b : mmio_ok s -> devs (clients s) !! k = Some d -> nthZ (bar d) i = Some b -> in_memory b -> bar_ok b -> is_pt_pci dev_ops k = false ->
  let old := bar_range k i d b in old ∈ ranges Root s ->
  runs (unregister_bar dev_ops malloc k i) s (fun _ s' => mmio_ok s' /\ clients s' = clients s /\ ranges Fallback s' = ranges Fallback s /\
    ranges Root s ≡ₚ old :: ranges Root s').
Proof.
  intros Hm E Hb Ht Hok Hpt old Hin. unfold unregister_bar, modify_bar_registration. rewrite Hpt. apply runs_bind, runs_bind, (runs_dev k s d); [done|].
  apply runs_bind, (runs_the_bar k s d i b); [done|done|]. fold old.
  assert (R : runs (unregister_mem old) s (fun _ s' => mmio_ok s' /\ clients s' = clients s /\ ranges Fallback s' = ranges Fallback s /\ ranges Root s ≡ₚ old :: ranges Root s')).
  { eapply runs_weaken; [by apply unregister_run|]. cbv beta. intros r s1 (Hm1 & Hc1 & Hf1 & Hu). split; [done|]. split; [done|]. split; [done|].
    pose proof (size_pos k i d b Hok Ht) as Hs. fold old in Hs.
    assert (Hself : contains (r_base old) old = true) by (unfold contains; rewrite andb_true_iff, Z.leb_le, Z.ltb_lt; lia).
    rewrite (proj2 (find_iff s Root (r_base old) old Hm)), (may_go_self old eq_refl) in Hu by done. by destruct Hu. }
  destruct Ht as [-> | ->]; (eapply runs_weaken; [exact R|]); cbv beta; intros r s1 H1; by apply runs_ret.
Qed.

(** Out of emulated memory, the address changed, and in again. *)
Lemma reregister_run k s d i b type addr : let a := new_addr type b addr in
  mmio_ok s -> devs (clients s) !! k = Some d -> cfg_ok (cfgdata d) -> nthZ (bar d) i = Some b -> in_memory b ->
  type = PCIBAR_MEM32 \/ type = PCIBAR_MEM64 \/ type = PCIBAR_MEMHI64 ->
  bar_ok b -> bar_ok (moved b a) -> decodes d b = true -> is_pt_pci dev_ops k = false -> malloc (mallocs (clients s)) = true ->
  bar_range k i d b ∈ ranges Root s -> (forall mr, mr ∈ ranges Root s -> mr = bar_range k i d b \/ apart (bar_range k i d (moved b a)) mr = true) ->
  runs (update_bar_address dev_ops malloc k addr i type false) s (fun _ s' => mmio_ok s' /\
    devs (clients s') !! k = Some (with_bar d i (moved b a)) /\ ranges Fallback s' = ranges Fallback s /\
    exists rest, ranges Root s ≡ₚ bar_range k i d b :: rest /\ ranges Root s' ≡ₚ bar_range k i d (moved b a) :: rest).
Proof.
  intros a Hm E Hc Hb Ht Hty Hok Hok' Hdec Hpt Hmal Hin Hfree. set (old := bar_range k i d b) in *. set (new := bar_range k i d (moved b a)) in *.
  apply runs_bind, (runs_the_bar k s d i b); [done|done|]. apply runs_bind, (decoding_run k s d b); [done|done|]. rewrite Hdec. cbn [when].
  apply runs_bind. eapply runs_weaken; [by apply (unregister_one k s d i b)|]. cbv beta. intros _ s1 (Hm1 & Hc1 & Hf1 & Hrest). fold old in Hrest.
  set (d1 := with_bar d i (moved b a)). set (s2 := put k d1 s1).
  assert (Hb1 : nthZ (bar d1) i = Some (moved b a)) by (unfold d1, with_bar; cbn; by rewrite (nthZ_setZ_eq _ _ b)).
  assert (Hff : free_for Root s2 new = true).
  { unfold free_for. change (ranges Root s2) with (ranges Root s1). apply forallb_forall. intros mr Hmr%list_elem_of_In.
    destruct (Hfree mr) as [-> |]; [rewrite Hrest; by right| |done]. exfalso. apply (once s old (ranges Root s1)); [done|done|by apply size_pos|done]. }
  assert (R : forall f, f b = moved b a -> runs (_ ← on_bar k i f; _ ← register_bar dev_ops malloc k i; mret tt) s1 (fun _ s' => mmio_ok s' /\
    devs (clients s') !! k = Some d1 /\ ranges Fallback s' = ranges Fallback s /\
    exists rest, ranges Root s ≡ₚ old :: rest /\ ranges Root s' ≡ₚ new :: rest)).
  { intros f Hfb. apply runs_bind, (runs_on_bar k s1 d i b); [by rewrite Hc1|done|]. rewrite Hfb. fold d1 s2. apply runs_bind.
    eapply runs_weaken; [apply (register_one k s2 d1 i (moved b a)); try done; [by apply mmio_ok_clients|apply put_dev]|]. cbv beta.
    change (bar_range k i d1 (moved b a)) with new. change (mallocs (clients s2)) with (mallocs (clients s1)). rewrite Hc1, Hmal, Hff.
    intros r s3 (Hm3 & Hd3 & Hf3 & _ & Hnew). apply runs_ret. split; [done|]. split; [rewrite Hd3; apply put_dev|].
    split; [rewrite Hf3; exact Hf1|]. by exists (ranges Root s1). }
  destruct Hty as [-> | [-> | ->]]; by apply R.
Qed.

(** An access to memory in a BAR reaches the device at the offset. *)
Lemma handler_offset i b x size : 0 <= i < 6 -> bar_ok b -> in_memory b -> size = 1 \/ size = 2 \/ size = 4 ->
  b_addr b <= x -> x + size <= b_addr b + b_size b -> b_addr b + b_size b < 2 ^ 64 ->
  s32 i = i /\ (u64 (b_addr b + b_size b) <? u64 (x + size)) = false /\ u64 (x - b_addr b) = x - b_addr b /\ (size =? 8) = false.
Proof.
  intros Hi Hok Ht Hs Hx Hx2 Hend. assert (Hf : 0 <= b_addr b).
  { unfold bar_ok in Hok. destruct Ht as [Ht|Ht]; rewrite Ht in Hok; destruct Hok as (n & _ & _ & [Hf _] & _); exact Hf. }
  unfold u64, wrap. rewrite s32_small by lia. rewrite !Z.mod_small by lia. rewrite (proj2 (Z.ltb_ge _ _)) by lia. rewrite (proj2 (Z.eqb_neq size 8)) by lia. done.
Qed.
(** Of 32 bits, it ends before the address space does. *)
Lemma mem32_ends b : bar_ok b -> b_type b = PCIBAR_MEM32 -> b_addr b + b_size b < 2 ^ 64.
Proof.
  unfold bar_ok. intros Hok Ht. rewrite Ht in Hok. destruct Hok as (n & Hn & Hz & Hf & Hl). pose proof (room n 32 (b_addr b) ltac:(lia) Hf Hl). lia.
Qed.

Lemma handler_read k i b p d x size v : devs p !! k = Some d -> nthZ (bar d) i = Some b -> 0 <= i < 6 -> bar_ok b -> in_memory b ->
  size = 1 \/ size = 2 \/ size = 4 -> b_addr b <= x -> x + size <= b_addr b + b_size b -> b_addr b + b_size b < 2 ^ 64 ->
  pci_emul_mem_handler dev_ops MEM_F_READ x size v k i p = (v ← barread dev_ops k i (x - b_addr b) size; v ← lift (bar_value size v); mret (0, v)) p.
Proof.
  intros E Hb Hi Hok Ht Hs Hx Hx2 He. destruct (handler_offset i b x size Hi Hok Ht Hs Hx Hx2 He) as (E1 & E2 & E3 & E4).
  unfold pci_emul_mem_handler, dev_of. cbv [mbind M_bind get mret M_ret]. rewrite E. cbv beta iota. rewrite E1, Hb, E2, E3, E4. done.
Qed.
Lemma handler_write k i b p d x size v : devs p !! k = Some d -> nthZ (bar d) i = Some b -> 0 <= i < 6 -> bar_ok b -> in_memory b ->
  size = 1 \/ size = 2 \/ size = 4 -> b_addr b <= x -> x + size <= b_addr b + b_size b -> b_addr b + b_size b < 2 ^ 64 ->
  pci_emul_mem_handler dev_ops MEM_F_WRITE x size v k i p = (w ← lift (bar_value size v); _ ← barwrite dev_ops k i (x - b_addr b) size w; mret (0, v)) p.
Proof.
  intros E Hb Hi Hok Ht Hs Hx Hx2 He. destruct (handler_offset i b x size Hi Hok Ht Hs Hx Hx2 He) as (E1 & E2 & E3 & E4).
  unfold pci_emul_mem_handler, dev_of. cbv [mbind M_bind get mret M_ret]. rewrite E. cbv beta iota. rewrite E1, Hb, E2, E3, E4. done.
Qed.

(** The registers of memory, and the BAR that one of them is of. *)
Definition memory_type (t : pcibar_type) : Prop := t = PCIBAR_MEM32 \/ t = PCIBAR_MEM64 \/ t = PCIBAR_MEMHI64.
Lemma target_memory l d i b bj eax : let t := b_type b in let j := target t i in
  vdev_ok l d -> 0 <= i < 6 -> nthZ (bar d) i = Some b -> memory_type t -> nthZ (bar d) j = Some bj -> fits 32 eax ->
  0 <= j < 6 /\ in_memory bj /\ bar_ok bj /\ held t bj /\ bar_ok (moved bj (addr_after t bj eax)) /\
  (t = PCIBAR_MEMHI64 \/ bj = b).
Proof.
  intros t j Hd Hi Hb Ht Hj He. destruct (vo_bar _ _ Hd i b Hi Hb) as [_ Hm]. unfold mirrored in Hm. fold t in Hm.
  assert (H0 : 0 <= j < 6 /\ (t = PCIBAR_MEM32 /\ b_type bj = PCIBAR_MEM32 /\ bj = b \/ t = PCIBAR_MEM64 /\ b_type bj = PCIBAR_MEM64 /\ bj = b \/ t = PCIBAR_MEMHI64 /\ b_type bj = PCIBAR_MEM64)).
  { destruct Ht as [Et|[Et|Et]].
    - assert (Ej : j = i) by (unfold j, target; by rewrite Et). rewrite Ej, Hb in Hj. injection Hj as <-. rewrite Ej. split; [done|]. left. by rewrite <- Et.
    - assert (Ej : j = i) by (unfold j, target; by rewrite Et). rewrite Ej, Hb in Hj. injection Hj as <-. rewrite Ej. split; [done|]. right. left. by rewrite <- Et.
    - assert (Ej : j = i - 1) by (unfold j, target; by rewrite Et). rewrite Et in Hm. destruct Hm as (lo & Hlo & Htl & _).
      rewrite Ej, Hlo in Hj. injection Hj as <-. rewrite Ej. split; [|by right; right].
      split; [|lia]. unfold nthZ in Hlo. by destruct (Z.leb_spec 0 (i - 1)). }
  destruct H0 as [Hj0 Hc]. destruct (vo_bar _ _ Hd j bj Hj0 Hj) as [Hok _]. split; [done|].
  unfold in_memory. pose proof Hok as Hin. unfold bar_ok in Hin |- *.
  destruct Hc as [(-> & E & Eb)|[(-> & E & Eb)|(-> & E)]]; change (b_type (moved bj _)) with (b_type bj); rewrite E in *; cbn [held addr_after]; split_and!; try done; try tauto.
  - by apply mem_moved.
  - by apply low_moved.
  - by apply high_moved.
Qed.

(** What [write_bar] does to such a BAR. *)
Lemma move_run k l s d i b bj eax : let t := b_type b in let j := target t i in let a := addr_after t bj eax in
  mmio_ok s -> devs (clients s) !! k = Some d -> vdev_ok l d -> 0 <= i < 6 -> nthZ (bar d) i = Some b ->
  memory_type t -> nthZ (bar d) j = Some bj -> sizing b = false -> decodes d b = true -> fits 32 eax -> eax <> ALL_ONES -> a <> b_addr bj ->
  is_pt_pci dev_ops k = false -> malloc (mallocs (clients s)) = true ->
  let old := bar_range k j d bj in let new := bar_range k j d (moved bj a) in
  old ∈ ranges Root s -> (forall mr, mr ∈ ranges Root s -> mr = old \/ apart new mr = true) ->
  runs (write_bar dev_ops malloc k i eax) s (fun _ s' => mmio_ok s' /\ (exists d', devs (clients s') !! k = Some d' /\ nthZ (bar d') j = Some (moved bj a)) /\
    ranges Fallback s' = ranges Fallback s /\ exists rest, ranges Root s ≡ₚ old :: rest /\ ranges Root s' ≡ₚ new :: rest).
Proof.
  intros t j a Hm E Hd Hi Hb Ht Hbj Hsz Hdec He Hne Ha Hpt Hmal old new Hin Hfree. pose proof (vo_cfg _ _ Hd) as Hc.
  destruct (target_memory l d i b bj eax Hd Hi Hb Ht Hbj He) as (Hj & Hmem & Hok & Hheld & Hok' & Hsame). fold t j a in Hj, Hok', Hheld, Hsame.
  assert (Hdj : decodes d bj = true).
  { rewrite <- Hdec. symmetry. apply decodes_kind. fold t. unfold in_memory, memory_type in *. destruct Hmem as [-> | ->], Ht as [-> | [-> | ->]]; done. }
  apply runs_bind, (runs_the_bar k s d i b); [done|done|]. apply runs_bind, (decoding_run k s d b); [done|done|]. rewrite Hdec, Hsz.
  replace (sizing_step true false eax) with (false, false) by (unfold sizing_step; change 0xffffffff with ALL_ONES; by rewrite (proj2 (Z.eqb_neq _ _) Hne)).
  apply runs_bind, (runs_on_bar k s d i b); [done|done|]. replace (b <| sizing := false |>) with b by (destruct b; cbn in *; by subst).
  rewrite with_bar_id, put_id by done. apply runs_bind, (runs_get_cfg 4 k (PCIR_BAR i) s d); [done|done|by apply reg_aligned|]. intros r _ _ _.
  cbv zeta. fold t.
  (* the last two steps, for any addresses *)
  assert (Hend : forall type addr same val, memory_type type -> new_addr type bj addr = a -> same = false ->
    runs (_ ← when (negb same) (update_bar_address dev_ops malloc k addr j type false); set_cfg 4 k (PCIR_BAR i) val) s
      (fun _ s' => mmio_ok s' /\ (exists d', devs (clients s') !! k = Some d' /\ nthZ (bar d') j = Some (moved bj a)) /\
         ranges Fallback s' = ranges Fallback s /\ exists rest, ranges Root s ≡ₚ old :: rest /\ ranges Root s' ≡ₚ new :: rest)).
  { intros type addr same val Hty Hna ->. cbn [negb when]. apply runs_bind.
    eapply runs_weaken; [apply (reregister_run k s d j bj type addr); rewrite ?Hna; done|]. cbv beta. rewrite Hna. intros _ s1 (Hm1 & E1 & Hf1 & rest & Hr1 & Hr2).
    apply (runs_set_cfg 4 k (PCIR_BAR i) _ s1 (with_bar d j (moved bj a))); [done|done|by apply reg_aligned|].
    split; [by apply mmio_ok_clients|]. split; [eexists; split; [apply put_dev|unfold with_bar; cbn; by rewrite (nthZ_setZ_eq _ _ bj)]|]. split; [done|]. by exists rest. }
  assert (Hat : forall t', t = t' -> a = addr_after t' bj eax) by (by intros t' <-).
  unfold j, target in *. destruct Ht as [Et|[Et|Et]]; specialize (Hat _ Et); cbn [addr_after] in Hat; clearbody a; subst a; rewrite Et in *.
  - rewrite bool_decide_eq_false_2 in * by done. destruct Hsame as [Hx|<-]; [done|]. apply Hend; [by left|done|]. apply Z.eqb_neq. exact Ha.
  - rewrite bool_decide_eq_false_2 in * by done. destruct Hsame as [Hx|<-]; [done|]. apply Hend; [by right; left|done|]. apply Z.eqb_neq. intros Hx. apply Ha.
    pose proof Hheld as (n & Hn & Hs & _). exact (low_same bj eax n Hheld Hs ltac:(lia) He Hx).
  - rewrite bool_decide_eq_true_2 in * by done. apply runs_bind, (runs_the_bar k s d (i - 1) bj); [done|done|].
    apply Hend; [by right; right|done|]. apply Z.eqb_neq. intros Hx. apply Ha.
    pose proof Hheld as (n & Hn & Hs & _). exact (high_same bj eax n Hheld Hs ltac:(lia) He Hx).
Qed.

(** C40. A BAR of memory that is decoded and is not being sized moves as a whole, whichever of its
    registers is written, that of 32 bits or either half of 64: after a write of another address
    that is free (and one that [malloc] serves) the range of emulated memory at the old
    place is gone, the new one is there with the same handler, and all other addresses
    belong to whom they did.  Reads and writes of 1, 2 or 4 bytes there, as far as the BAR does not
    end with the address space, reach the device at their offset in the BAR.
    ([PciDummy.Demo.stale_range] is what happens while the BAR is being sized.) *)
Theorem bar_moves l s d bus slot func i b bj eax :
  let k := bdf bus slot func in let t := b_type b in let j := target t i in let a := addr_after t bj eax in
  plugged s bus slot func -> mmio_ok s -> devs (clients s) !! k = Some d -> vdev_ok l d -> 0 <= i < 6 -> nthZ (bar d) i = Some b ->
  memory_type t -> nthZ (bar d) j = Some bj -> sizing b = false -> decodes d b = true -> fits 32 eax -> eax <> ALL_ONES -> a <> b_addr bj ->
  is_pt_pci dev_ops k = false -> malloc (mallocs (clients s)) = true ->
  let old := bar_range k j d bj in let new := bar_range k j d (moved bj a) in
  old ∈ ranges Root s -> (forall mr, mr ∈ ranges Root s -> mr = old \/ apart new mr = true) ->
  exists s', pci_cfgrw dev_ops malloc false bus slot func (PCIR_BAR i) 4 eax s = Ret (eax, s') /\ mmio_ok s' /\
    (forall x, owner s' x = if contains x new then Some new else if contains x old then List.find (contains x) (ranges Fallback s) else owner s x) /\
    forall x size v, size = 1 \/ size = 2 \/ size = 4 -> a <= x -> x + size <= a + b_size bj -> a + b_size bj < 2 ^ 64 ->
      pci_emul_mem_handler dev_ops MEM_F_READ x size v k j (clients s') =
        (v ← barread dev_ops k j (x - a) size; v ← lift (bar_value size v); mret (0, v)) (clients s') /\
      pci_emul_mem_handler dev_ops MEM_F_WRITE x size v k j (clients s') =
        (w ← lift (bar_value size v); _ ← barwrite dev_ops k j (x - a) size w; mret (0, v)) (clients s').
Proof.
  intros k t j a Hp Hm E Hd Hi Hb Ht Hbj Hsz Hdec He Hne Ha Hpt Hmal old new Hin Hfree.
  destruct (target_memory l d i b bj eax Hd Hi Hb Ht Hbj He) as (Hj & Hmem & Hok & _ & Hok' & _). fold t j a in Hj, Hok'.
  assert (R : runs (write_bar dev_ops malloc k i eax) s (fun _ s' => mmio_ok s' /\ (exists d', devs (clients s') !! k = Some d' /\ nthZ (bar d') j = Some (moved bj a)) /\
    ranges Fallback s' = ranges Fallback s /\ exists rest, ranges Root s ≡ₚ old :: rest /\ ranges Root s' ≡ₚ new :: rest))
    by by eapply (move_run k l s d i b bj eax).
  destruct (runs_returns _ _ _ R) as ([] & s' & Ew & Hm' & (d' & E' & Hb') & Hf & rest & Hr1 & Hr2). exists s'. split; [by apply write_access|]. split; [done|].
  split; [intros x; by eapply owner_replaced|]. intros x size v Hs Hx Hx2 Hx3.
  replace (x - a) with (x - b_addr (moved bj a)) by done. split; [by eapply handler_read|by eapply handler_write].
Qed.
End Move.
