(* ===== verification/PciInit.v ===== *)
(** * Devices as they are made

    What the functions that devices call while they are initialised leave behind: capabilities
    are added to the end of the list, BARs get an aligned address of their pool and are
    registered; and a device whose initialisation is a sequence of these comes into the
    machine with all of them, or not at all. *)
From S2P Require Import Prelude RbTree RbTreeSpec Mmio MmioSpec Inout InoutSpec PciConfig PciIrq PciCore PciCfg PciCoreSpec PciGuest PciBar PciAccess PciMove.

(** ** Rounding *)

Lemma roundup2_spec x n : 0 <= n <= 62 -> 0 <= x <= 2 ^ 63 -> roundup2 x (2 ^ n) = 2 ^ n * ((x + 2 ^ n - 1) / 2 ^ n).
Proof.
  intros Hn Hx. pose proof (pow2_pos n ltac:(lia)) as Hp. pose proof (Z.pow_le_mono_r 2 n 62 ltac:(lia) ltac:(lia)) as Hle.
  unfold roundup2. unfold u64 at 1. unfold wrap. rewrite Z.mod_small by lia. replace (x + (2 ^ n - 1)) with (x + 2 ^ n - 1) by lia. set (y := x + 2 ^ n - 1).
  assert (Hy : fits 64 y) by (unfold fits, y; lia). rewrite (Z.mul_comm (2 ^ n)), <- Z.shiftr_div_pow2, <- Z.shiftl_mul_pow2 by lia.
  apply Z.bits_inj'. intros j Hj. rewrite Z.land_spec, Z.shiftl_spec by done.
  unfold u64. rewrite wrap_land, Z.land_spec, Z.lnot_spec by lia. replace (2 ^ n - 1) with (Z.ones n) by (rewrite Z.ones_equiv; lia).
  destruct (Z.lt_ge_cases j n).
  - rewrite Z.ones_spec_low by lia. rewrite (Z.testbit_neg_r _ (j - n)) by lia. cbn [negb andb]. by rewrite andb_false_r.
  - rewrite Z.ones_spec_high by lia. rewrite Z.shiftr_spec by lia. replace (j - n + n) with j by lia. cbn [negb andb].
    destruct (Z.lt_ge_cases j 64); [by rewrite Z.ones_spec_low, andb_true_r by lia|]. rewrite (testbit_fits 64 y) by (done || lia). done.
Qed.
Lemma roundup2_bounds x n : 0 <= n <= 62 -> 0 <= x <= 2 ^ 63 -> low_clear n (roundup2 x (2 ^ n)) /\ x <= roundup2 x (2 ^ n) < x + 2 ^ n.
Proof.
  intros Hn Hx. rewrite roundup2_spec by done. pose proof (pow2_pos n ltac:(lia)) as Hp. split.
  - intros j Hj. rewrite Z.mul_comm. apply Z.mul_pow2_bits_low. lia.
  - pose proof (Z.div_mod (x + 2 ^ n - 1) (2 ^ n) ltac:(lia)). pose proof (Z.mod_pos_bound (x + 2 ^ n - 1) (2 ^ n) ltac:(lia)). lia.
Qed.

Lemma land_pow2_pred m : 0 <= m -> Z.land (2 ^ m) (2 ^ m - 1) = 0.
Proof.
  intros Hm. replace (2 ^ m - 1) with (Z.ones m) by (rewrite Z.ones_equiv; lia). rewrite Z.land_ones by done. by apply Z.mod_same, Z.pow_nonzero.
Qed.
Lemma power_of_two x : 0 < x -> Z.land x (x - 1) = 0 -> x = 2 ^ Z.log2 x.
Proof.
  intros Hx Hl. destruct (Z.log2_spec x Hx) as [H1 H2]. destruct (Z.eq_dec x (2 ^ Z.log2 x)) as [|Hne]; [done|]. exfalso.
  pose proof (Z.log2_nonneg x) as H0. pose proof (pow2_pos (Z.log2 x) H0).
  assert (El : Z.log2 (x - 1) = Z.log2 x) by (apply Z.log2_unique; lia).
  assert (Hb : Z.testbit (Z.land x (x - 1)) (Z.log2 x) = true) by (rewrite Z.land_spec, Z.bit_log2 by done; rewrite <- El at 1; rewrite Z.bit_log2; [done|lia]).
  by rewrite Hl, Z.bits_0 in Hb.
Qed.

(** A size for what is asked: enough, and not twice of it unless it is the least. *)
Definition fits_bar (type : pcibar_type) (size s : Z) : Prop := size <= s /\ (s < 2 * size \/ s = if bool_decide (type = PCIBAR_IO) then 4 else 16).
(** The size that is taken is such a power of two. *)
Lemma bar_size_run type size : 0 < size <= 2 ^ 60 -> exists n, bar_size type size = Ret (2 ^ n) /\ fits_bar type size (2 ^ n) /\
  (if bool_decide (type = PCIBAR_IO) then 2 else 4) <= n <= 61.
Proof.
  intros Hs. unfold bar_size, u64, wrap. rewrite Z.mod_small by lia.
  assert (Hpow : exists n, (if Z.land size (size - 1) =? 0 then Ret size else if flsl size =? 64 then Stop BadShift else Ret (Z.shiftl 1 (flsl size))) = Ret (2 ^ n) /\
    size <= 2 ^ n < 2 * size /\ 0 <= n <= 61).
  { pose proof (Z.log2_nonneg size) as H0. destruct (Z.log2_spec size ltac:(lia)) as [H1 H2].
    assert (Hl : Z.log2 size <= 60) by (apply (Z.pow_le_mono_r_iff 2); lia). destruct (Z.eqb_spec (Z.land size (size - 1)) 0) as [E|E].
    - exists (Z.log2 size). rewrite <- power_of_two by (done || lia). split; [done|]. lia.
    - exists (Z.log2 size + 1). unfold flsl. rewrite (proj2 (Z.eqb_neq size 0)), (proj2 (Z.eqb_neq (Z.log2 size + 1) 64)) by lia.
      rewrite Z.shiftl_1_l. split; [done|]. replace (Z.log2 size + 1) with (Z.succ (Z.log2 size)) by lia.
      split; [|lia]. split; [lia|]. rewrite Z.pow_succ_r by done. assert (Hne : size <> 2 ^ Z.log2 size); [|lia]. intros Hp. apply E. rewrite Hp. by apply land_pow2_pred. }
  destruct Hpow as (n & -> & Hle & Hn). cbn [mbind outcome_bind].
  set (lo := if bool_decide (type = PCIBAR_IO) then 2 else 4). exists (Z.max n lo).
  assert (Hlo : 2 ^ lo = if bool_decide (type = PCIBAR_IO) then 4 else 16) by (unfold lo; by destruct (bool_decide _)).
  assert (Hl : 2 <= lo <= 4) by (unfold lo; destruct (bool_decide _); lia).
  assert (Em : 2 ^ Z.max n lo = Z.max (2 ^ n) (2 ^ lo)).
  { destruct (Z.le_ge_cases n lo) as [H|H]; [rewrite Z.max_r by done|rewrite Z.max_l by done];
      [pose proof (Z.pow_le_mono_r 2 n lo)|pose proof (Z.pow_le_mono_r 2 lo n)]; lia. }
  rewrite Em, Hlo. split; [by destruct (bool_decide _)|]. unfold fits_bar. destruct (bool_decide _); lia.
Qed.

(** ** Addresses *)

(** Where pools and reserved regions are: far from the end of the address space. *)
Definition FAR := 2 ^ 61.
Definition regions_ok (k : Z) (regions : list io_rsvd_rgn) : Prop := Forall (fun r => 0 <= g_end r <= FAR /\ g_vdev r <> Some k) regions.

Lemma adjust_bounds k regions n type base : regions_ok k regions -> 0 <= n <= 61 -> 0 <= base <= 2 ^ 62 -> low_clear n base ->
  let a := adjust_bar_region regions (2 ^ n) type base in 0 <= a <= 2 ^ 62 /\ low_clear n a.
Proof.
  intros Hr Hn. revert base. induction Hr as [|r regions [Hr _] _ IH]; intros base Hb Hl; [done|]. cbn zeta. unfold adjust_bar_region. cbn [fold_left].
  fold (adjust_bar_region regions (2 ^ n) type). unfold FAR in Hr.
  destruct (_ || _); [by apply IH|]. destruct (is_io_rgns_overlap _ _ _ _); [|by apply IH].
  assert (He : u64 (g_end r + 1) = g_end r + 1) by (unfold u64, wrap; rewrite Z.mod_small; lia). rewrite He.
  destruct (roundup2_bounds (g_end r + 1) n ltac:(lia) ltac:(lia)) as [Hc Hx]. pose proof (Z.pow_le_mono_r 2 n 61 ltac:(lia) ltac:(lia)). apply IH; [lia|done].
Qed.

(** What is allocated is aligned, ends within the limit, and the pool goes on behind it. *)
Lemma alloc_resource_run k regions base limit n type a base' : regions_ok k regions -> 0 <= base <= FAR -> limit <= FAR -> 0 <= n <= 61 ->
  pci_emul_alloc_resource regions base limit (2 ^ n) type = Some (a, base') -> 0 <= a /\ low_clear n a /\ a + 2 ^ n <= limit /\ 0 <= base' <= FAR.
Proof.
  intros Hr Hb Hlim Hn. unfold pci_emul_alloc_resource. destruct (negb _); [done|]. set (m := Z.max n 12).
  assert (Hm : 0 <= m <= 61 /\ n <= m) by lia.
  assert (Es : (if 2 ^ n <? PAGE_SIZE then PAGE_SIZE else 2 ^ n) = 2 ^ m).
  { unfold PAGE_SIZE, m. change 4096 with (2 ^ 12). destruct (Z.ltb_spec (2 ^ n) (2 ^ 12)) as [H|H].
    - apply Z.pow_lt_mono_r_iff in H; [|lia|lia]. by rewrite Z.max_r by lia.
    - apply Z.pow_le_mono_r_iff in H; [|lia|lia]. by rewrite Z.max_l by lia. }
  rewrite Es. unfold FAR in *. destruct (roundup2_bounds base m ltac:(lia) ltac:(lia)) as [Hc Hx].
  pose proof (Z.pow_le_mono_r 2 m 61 ltac:(lia) ltac:(lia)) as H61. pose proof (pow2_pos m ltac:(lia)) as Hp.
  pose proof (Z.pow_le_mono_r 2 n m ltac:(lia) ltac:(lia)) as Hnm.
  destruct (adjust_bounds k regions m type (roundup2 base (2 ^ m)) Hr ltac:(lia) ltac:(lia) Hc) as [Ha Hal]. set (x := adjust_bar_region _ _ _ _) in *.
  assert (Eu : u64 (x + 2 ^ m) = x + 2 ^ m) by (unfold u64, wrap; rewrite Z.mod_small; lia). rewrite Eu. destruct (Z.leb_spec (x + 2 ^ m) limit); [|done].
  intros [= <- <-]. split; [lia|]. split; [intros j Hj; apply Hal; lia|]. lia.
Qed.

(** The limit of what is taken for a BAR of a type is that of its width. *)
Definition bar_lo (type : pcibar_type) : Z := if bool_decide (type = PCIBAR_IO) then 2 else 4.
Definition bar_width (type : pcibar_type) : Z := match type with PCIBAR_IO => 16 | PCIBAR_MEM32 => 32 | _ => 64 end.
Definition allocated_type (type : pcibar_type) : Prop := type = PCIBAR_IO \/ type = PCIBAR_MEM32 \/ type = PCIBAR_MEM64.

Lemma pool_limit w type i size p limit mask lobits : allocated_type type -> bar_pool w type i size = Some (p, limit, mask, lobits) ->
  p <> NoPool /\ limit <= 2 ^ bar_width type /\ limit <= FAR /\
  mask = (if bool_decide (type = PCIBAR_IO) then PCIM_BAR_IO_BASE else PCIM_BAR_MEM_BASE) /\
  (if bool_decide (type = PCIBAR_IO) then lobits = 1 else Z.testbit lobits 0 = false /\ fits 4 lobits).
Proof.
  unfold bar_width, FAR. intros [-> | [-> | ->]]; cbn.
  - intros [= <- <- <- <-]. done.
  - intros [= <- <- <- <-]. done.
  - destruct (PCI_BARMAX <? i + 1); [done|]. destruct (negb w && _); intros [= <- <- <- <-]; (split; [by destruct (size =? _) || done|done]).
Qed.
Lemma bar_ok_at type n a flag : allocated_type type -> bar_lo type <= n -> 0 <= a -> low_clear n a -> a + 2 ^ n <= 2 ^ bar_width type ->
  bar_ok (mkBar type (2 ^ n) a flag).
Proof.
  intros Ht Hn Ha Hl Hle. assert (H0 : 2 <= bar_lo type) by (unfold bar_lo; destruct (bool_decide _); lia).
  assert (Hw : 0 <= bar_width type) by (unfold bar_width; by destruct type).
  assert (Hin : bar_in (bar_lo type) (bar_width type) (mkBar type (2 ^ n) a flag)).
  { exists n. split; [split; [done|]; apply (Z.pow_le_mono_r_iff 2); lia|]. split; [done|]. split; [|done].
    cbn. unfold fits. pose proof (pow2_pos n ltac:(lia)). lia. }
  by destruct Ht as [-> | [-> | ->]].
Qed.

(** ** The register of a new BAR *)

Lemma mirrored_agree c c' bars i b : (forall j, 0 <= j < 32 -> reg_bit c' i j = reg_bit c i j) -> mirrored c bars i b -> mirrored c' bars i b.
Proof.
  intros Er Hm. unfold mirrored in *. destruct (b_type b); try done.
  - destruct Hm as (M0 & M1 & M2). rewrite !Er by lia. split; [done|]. split; [done|]. intros j Hj. rewrite Er by lia. by apply M2.
  - destruct Hm as (M0 & M1). rewrite !Er by lia. split; [done|]. intros j Hj. rewrite Er by lia. by apply M1.
  - destruct Hm as (M0 & M1). rewrite !Er by lia. split; [done|]. intros j Hj. rewrite Er by lia. by apply M1.
  - destruct Hm as (lo & M0 & M1 & M2). exists lo. split; [done|]. split; [done|]. intros j Hj. rewrite Er by lia. by apply M2.
Qed.

(** The list and its flag are outside the registers. *)
Lemma caps_store_reg l d i val : cfg_ok (cfgdata d) -> 0 <= i < 6 -> caps_ok l d -> caps_ok l (with_reg d i val).
Proof.
  intros Hc Hi H. pose proof (reg_aligned i Hi) as Ha. unfold caps_ok in *. cbn.
  assert (Hbit : cbit (store 4 (PCIR_BAR i) val (cfgdata d)) CAPPRESENT_BIT = cbit (cfgdata d) CAPPRESENT_BIT).
  { rewrite cbit_store by (done || (unfold CAPPRESENT_BIT, PCIR_STATUS; lia)). unfold CAPPRESENT_BIT, PCIR_STATUS, PCIR_BAR.
    destruct (Z.leb_spec (8 * (16 + i * 4)) (8 * 6 + 4)); [lia|done]. }
  rewrite Hbit. destruct l as [|p l]; [done|]. destruct H as (C1 & C2 & C3 & C4 & C5). split; [done|]. split; [done|].
  split; [rewrite byte_store_out; try done; unfold PCIR_CAP_PTR, PCIR_BAR; change (Z.of_nat 4) with 4; lia|]. split; [|done].
  apply chain_store; [done|done|done|]. pose proof (chain_bounds _ _ _ C4) as Hbd. eapply Forall_impl; [exact Hbd|].
  cbn beta. intros q (Hq & _). left. unfold PCIR_BAR. change (Z.of_nat 4) with 4. lia.
Qed.

Lemma vdev_ok_place l d i b0 b val : vdev_ok l d -> 0 <= i < 6 -> nthZ (bar d) i = Some b0 -> b_type b0 = PCIBAR_NONE -> bar_ok b ->
  mirrored (store 4 (PCIR_BAR i) val (cfgdata d)) (setZ (bar d) i b) i b -> vdev_ok l (with_reg (with_bar d i b) i val).
Proof.
  intros [H1 H2 H3 H4 H5] Hi Hb Ht Hok Hm. pose proof (set_run 4 (PCIR_BAR i) val (cfgdata d) H1 (reg_aligned i Hi)) as [_ Hc]. split.
  - exact Hc.
  - change (length (setZ (bar d) i b) = 7%nat). by rewrite length_setZ.
  - change (cfgdata (with_reg (with_bar d i b) i val)) with (store 4 (PCIR_BAR i) val (cfgdata d)). change (bar (with_reg (with_bar d i b) i val)) with (setZ (bar d) i b).
    intros j x Hj Hx. destruct (Z.eq_dec j i) as [-> |Hne]; [rewrite (nthZ_setZ_eq _ _ b0) in Hx by done; by injection Hx as <-|].
    rewrite nthZ_setZ_ne in Hx by done. destruct (H3 j x Hj Hx) as [Hxo Hmx]. split; [done|].
    apply (mirrored_agree (cfgdata d)); [intros t Ht'; rewrite reg_bit_store by done; by rewrite (proj2 (Z.eqb_neq _ _))|].
    unfold mirrored in *. destruct (b_type x); try done. destruct Hmx as (lo & M0 & M1 & M2).
    exists lo. rewrite nthZ_setZ_ne; [done|]. intros Heq. rewrite <- Heq, Hb in M0. congruence.
  - by apply (caps_store_reg l (with_bar d i b)).
  - exact H5.
Qed.

(** What [pci_emul_alloc_pbar] writes. *)
Definition reg_value (type : pcibar_type) (a lobits : Z) : Z :=
  Z.lor (Z.land a (if bool_decide (type = PCIBAR_IO) then PCIM_BAR_IO_BASE else PCIM_BAR_MEM_BASE)) lobits.
Lemma reg_value_bit type a lobits j : fits 64 a -> (if bool_decide (type = PCIBAR_IO) then lobits = 1 else Z.testbit lobits 0 = false /\ fits 4 lobits) ->
  bar_lo type <= j -> j < (if bool_decide (type = PCIBAR_IO) then 32 else 64) -> Z.testbit (reg_value type a lobits) j = Z.testbit a j.
Proof.
  unfold reg_value, bar_lo. intros Ha Hl Hj Hj'. rewrite Z.lor_spec, Z.land_spec. destruct (bool_decide _).
  - subst. change PCIM_BAR_IO_BASE with (Z.shiftl (Z.ones 30) 2). rewrite Z.shiftl_spec, Z.ones_spec_low by lia.
    rewrite (testbit_fits 2 1) by (lia || (split; [lia|reflexivity])). by rewrite andb_true_r, orb_false_r.
  - destruct Hl as [_ Hl]. change PCIM_BAR_MEM_BASE with (Z.shiftl (Z.ones 60) 4). rewrite Z.shiftl_spec, Z.ones_spec_low by lia.
    rewrite (testbit_fits 4 lobits) by (done || lia). by rewrite andb_true_r, orb_false_r.
Qed.
Lemma reg_value_low type a lobits : (if bool_decide (type = PCIBAR_IO) then lobits = 1 else Z.testbit lobits 0 = false /\ fits 4 lobits) ->
  Z.testbit (reg_value type a lobits) 0 = bool_decide (type = PCIBAR_IO) /\ (type = PCIBAR_IO -> Z.testbit (reg_value type a lobits) 1 = false).
Proof.
  unfold reg_value. rewrite !Z.lor_spec, !Z.land_spec. case_bool_decide as Et; intros Hl.
  - subst lobits. split; [apply orb_true_r|]. intros _. change (Z.testbit PCIM_BAR_IO_BASE 1) with false. by rewrite andb_false_r.
  - destruct Hl as [Hl _]. rewrite Hl. change (Z.testbit PCIM_BAR_MEM_BASE 0) with false. by rewrite andb_false_r.
Qed.

Lemma mirrored_new c bars i type size a flag lobits : cfg_ok c -> 0 <= i < 6 -> allocated_type type -> fits 64 a ->
  (if bool_decide (type = PCIBAR_IO) then lobits = 1 else Z.testbit lobits 0 = false /\ fits 4 lobits) ->
  mirrored (store 4 (PCIR_BAR i) (reg_value type a lobits) c) bars i (mkBar type size a flag).
Proof.
  intros Hc Hi Ht Ha Hl. destruct (reg_value_low type a lobits Hl) as [L0 L1].
  assert (Hv : forall j, 0 <= j < 32 -> reg_bit (store 4 (PCIR_BAR i) (reg_value type a lobits) c) i j = Z.testbit (reg_value type a lobits) j).
  { intros j Hj. by rewrite reg_bit_store, Z.eqb_refl. }
  assert (Hb : forall j, bar_lo type <= j < 32 -> Z.testbit (reg_value type a lobits) j = Z.testbit a j).
  { intros j Hj. apply reg_value_bit; try done; [lia|destruct (bool_decide _); lia]. }
  assert (Hn : 0 <= bar_lo type) by (unfold bar_lo; destruct (bool_decide _); lia).
  destruct Ht as [-> | [-> | ->]]; unfold mirrored; cbn [b_type b_addr].
  - rewrite !Hv by lia. split; [done|]. split; [by apply L1|]. intros j Hj. rewrite Hv by lia. by apply Hb.
  - rewrite !Hv by lia. split; [done|]. intros j Hj. rewrite Hv by lia. by apply Hb.
  - rewrite !Hv by lia. split; [done|]. intros j Hj. rewrite Hv by lia. by apply Hb.
Qed.
Lemma mirrored_upper c bars i a lobits lo hi : cfg_ok c -> 0 < i < 6 -> fits 64 a -> Z.testbit lobits 0 = false /\ fits 4 lobits ->
  nthZ bars (i - 1) = Some lo -> b_type lo = PCIBAR_MEM64 -> b_addr lo = a -> b_type hi = PCIBAR_MEMHI64 ->
  mirrored (store 4 (PCIR_BAR i) (Z.shiftr (reg_value PCIBAR_MEM64 a lobits) 32) c) bars i hi.
Proof.
  intros Hc Hi Ha Hl Hlo Ht Hal Hhi. unfold mirrored. rewrite Hhi. exists lo. split; [done|]. split; [done|]. intros j Hj.
  rewrite reg_bit_store, Z.eqb_refl, Z.shiftr_spec by (done || lia). rewrite Hal, (Z.add_comm j). apply (reg_value_bit PCIBAR_MEM64 a lobits); try done; unfold bar_lo; rewrite bool_decide_eq_false_2 by done; lia.
Qed.

(** ** Allocation *)

Lemma runs_and {S A} (m : M S A) s Q1 Q2 : runs m s Q1 -> runs m s Q2 -> runs m s (fun a s' => Q1 a s' /\ Q2 a s').
Proof. unfold runs. destruct (m s) as [[a s']|]; [done|done]. Qed.

Section Init.
Context {P : Type} (dev_ops : Z -> vdev_ops P) (malloc : nat -> bool).
Notation vm := (machine P).
Implicit Types (s : vm) (k : Z) (l : list cap) (d : pci_vdev).

Record pools_ok k (p : pci P) : Prop := {
  po_regions : regions_ok k (reserved_bar_regions p);
  po_io : 0 <= emul_iobase p <= FAR; po_mem32 : 0 <= emul_membase32 p <= FAR; po_mem64 : 0 <= emul_membase64 p <= FAR
}.
(** The pools are those of [p]. *)
Definition same_pools (p p' : pci P) : Prop := emul_iobase p' = emul_iobase p /\ emul_membase32 p' = emul_membase32 p /\
  emul_membase64 p' = emul_membase64 p /\ reserved_bar_regions p' = reserved_bar_regions p.
Lemma pools_same k p p' : same_pools p p' -> pools_ok k p -> pools_ok k p'.
Proof. intros (E1 & E2 & E3 & E4) []. split; by rewrite ?E1, ?E2, ?E3, ?E4. Qed.

(** The BARs outside [U] are free. *)
Definition unused (U : list Z) d : Prop := forall j, 0 <= j < 6 -> j ∉ U -> exists b, nthZ (bar d) j = Some b /\ b_type b = PCIBAR_NONE.
Lemma unused_mono U U' d : (forall j, j ∈ U -> j ∈ U') -> unused U d -> unused U' d.
Proof. intros H Hu j Hj Hn. apply Hu; [done|]. intros Hin. by apply Hn, H. Qed.

(** A device that is being made. *)
Definition made k l U v s0 s : Prop := st k (fun d => vdev_ok l d /\ unused U d) v s0 s /\ pools_ok k (clients s).

Lemma made_mono k l U U' v s0 s : (forall j, j ∈ U -> j ∈ U') -> made k l U v s0 s -> made k l U' v s0 s.
Proof. intros H [Hs Hp]. split; [|done]. eapply st_weaken; [|exact Hs]. intros d [Hd Hu]. split; [done|]. by eapply unused_mono. Qed.

Lemma made_put k l l' U U' v s0 s d d' : made k l U v s0 s -> devs (clients s) !! k = Some d -> vdev_ok l' d' -> unused U' d' ->
  line_of d' (gsis (irqs (clients s))) = line_of d (gsis (irqs (clients s))) -> made k l' U' v s0 (put k d' s).
Proof.
  intros [Hs Hp] E Hd Hu Hl. split; [|by apply (pools_same k (clients s))]. pose proof Hs as (_ & _ & d1 & E1 & _ & Hv). rewrite E in E1. injection E1 as <-.
  eapply st_put; [exact Hs|done|]. by rewrite Hl.
Qed.

Lemma registration_pools k i r s d b : mmio_ok s -> devs (clients s) !! k = Some d -> nthZ (bar d) i = Some b -> bar_ok b ->
  runs (modify_bar_registration dev_ops malloc k i r) s (fun _ s' => same_pools (clients s) (clients s')).
Proof.
  intros Hm E Hb Hok. unfold modify_bar_registration. destruct (is_pt_pci dev_ops k); [by apply runs_ret|].
  apply runs_bind, (runs_dev k s d); [done|]. apply runs_bind, (runs_the_bar k s d i b); [done|done|].
  assert (Hmem : b_type b = PCIBAR_MEM32 \/ b_type b = PCIBAR_MEM64 -> runs (if r then
        p ← the_pci; _ ← on_pci (fun p => p <| mallocs ::= S |>); register_mem (malloc (mallocs p)) (bar_range k i d b)
      else unregister_mem (bar_range k i d b)) s (fun _ s' => same_pools (clients s) (clients s'))).
  { intros Ht. pose proof (bar_range_ok k i d b Hok Ht) as Hr. destruct r.
    - apply runs_bind, runs_bind, runs_get, runs_ret. apply runs_bind, runs_modify.
      eapply runs_weaken; [apply (mem_register_run (fun _ _ _ _ _ _ _ c => (0, 0, c))); [by apply mmio_ok_clients|done]|]. cbv beta. intros _ s' (_ & -> & _). done.
    - eapply runs_weaken; [by apply unregister_run|]. cbv beta. intros _ s' (_ & -> & _). done. }
  destruct (b_type b) eqn:Et; try (by apply runs_ret); try (apply Hmem; auto).
  unfold on_ports. apply runs_bind, runs_bind, runs_get, runs_ret. destruct ((if r then _ else _) (ports (clients s))) as [x t]. by apply runs_bind, runs_modify, runs_ret.
Qed.

Lemma registration_ports k i s d b : mmio_ok s -> devs (clients s) !! k = Some d -> nthZ (bar d) i = Some b -> bar_ok b -> in_memory b ->
  runs (register_bar dev_ops malloc k i) s (fun _ s' => ports (clients s') = ports (clients s)).
Proof.
  intros Hm E Hb Hok Ht. unfold register_bar, modify_bar_registration. destruct (is_pt_pci dev_ops k); [by apply runs_ret|].
  apply runs_bind, (runs_dev k s d); [done|]. apply runs_bind, (runs_the_bar k s d i b); [done|done|].
  pose proof (bar_range_ok k i d b Hok Ht) as Hr.
  destruct Ht as [-> | ->]; (apply runs_bind, runs_bind, runs_get, runs_ret; apply runs_bind, runs_modify);
    (eapply runs_weaken; [apply (mem_register_run (fun _ _ _ _ _ _ _ c => (0, 0, c))); [by apply mmio_ok_clients|done]|]); cbv beta; by intros _ s' (_ & -> & _).
Qed.

Lemma register_made k l U v s0 s i d b : made k l U v s0 s -> 0 <= i < 6 -> devs (clients s) !! k = Some d -> nthZ (bar d) i = Some b -> bar_ok b ->
  runs (register_bar dev_ops malloc k i) s (fun _ s' => made k l U v s0 s').
Proof.
  intros [Hs Hp] Hi E Hb Hok. pose proof Hs as (Hm & _). eapply runs_weaken.
  - apply runs_and; [|by apply (registration_pools k i true s d b)].
    apply (keeps_registration dev_ops malloc k (fun d => vdev_ok l d /\ unused U d)); [|exact Hs].
    intros d' [Hd' _]. destruct (bar_exists l d' i Hd' ltac:(lia)) as [b' Hb']. exists b'. split; [done|]. by apply (vo_bar _ _ Hd' i b').
  - cbv beta. intros _ s' [Hs' Hp']. split; [done|]. by eapply pools_same.
Qed.

(** What is registered stays: ranges, and ports that are not the default's. *)
Definition grows s s' : Prop := (forall mr, mr ∈ ranges Root s -> mr ∈ ranges Root s') /\
  forall p, has (s_flags (ports (clients s) p)) IOPORT_F_DEFAULT = false -> ports (clients s') p = ports (clients s) p.
Lemma grows_refl s : grows s s.
Proof. by split. Qed.
Lemma grows_trans s1 s2 s3 : grows s1 s2 -> grows s2 s3 -> grows s1 s3.
Proof. intros [H1 H2] [H3 H4]. split; [auto|]. intros p Hp. rewrite H4; [by apply H2|]. by rewrite H2. Qed.

(** A BAR is there: its ports are those of the device, or its range is one of emulated memory. *)
Definition registered_bar k i d b s : Prop :=
  if bool_decide (b_type b = PCIBAR_IO) then forall p, covers (bar_port k d b) p = true -> ports (clients s) p = slot_of (bar_port k d b)
  else bar_range k i d b ∈ ranges Root s.
Lemma registered_grows k i d b s s' : grows s s' -> registered_bar k i d b s -> registered_bar k i d b s'.
Proof.
  intros [H1 H2]. unfold registered_bar. destruct (bool_decide _); [|by apply H1]. intros H p Hp. specialize (H p Hp). rewrite H2; [done|]. by rewrite H.
Qed.

Lemma taken_free n : forall i t p, taken n i t = false -> i <= p < i + Z.of_nat n -> has (s_flags (t p)) IOPORT_F_DEFAULT = true.
Proof.
  induction n as [|n IH]; intros i t p Ht Hp; [lia|]. cbn [taken] in Ht. apply orb_false_iff in Ht as [H0%negb_false_iff Ht].
  destruct (Z.eq_dec p i) as [-> |]; [done|]. apply (IH (i + 1) t); [done|lia].
Qed.
(** A device's ports are registered on top of the default's only. *)
Lemma register_ports iop t : has (p_flags iop) IOPORT_F_DEFAULT = false -> let '(r, t') := register_inout iop t in
  (forall p, has (s_flags (t p)) IOPORT_F_DEFAULT = false -> t' p = t p) /\ (r = 0 -> forall p, covers iop p = true -> t' p = slot_of iop).
Proof.
  intros Hf. unfold register_inout. rewrite Hf. cbn [negb andb]. destruct (VERIFY_IOPORT _ _) eqn:Ev; cbn [negb]; [|done]. apply verify_spec in Ev.
  destruct (taken _ _ t) eqn:Et; [done|]. split.
  - intros p Hp. rewrite fill_spec. destruct (Z.leb_spec (p_port iop) p), (Z.ltb_spec p (p_port iop + Z.of_nat (Z.to_nat (p_size iop)))); cbn [andb]; try done.
    rewrite (taken_free _ _ t p Et) in Hp by lia. done.
  - intros _ p Hp. rewrite fill_spec, covers_fill by (done || lia). by rewrite Hp.
Qed.

(** Registering leaves the devices alone; the result 0 says that the BAR is there. *)
Lemma register_step k i s d b : mmio_ok s -> devs (clients s) !! k = Some d -> nthZ (bar d) i = Some b -> bar_ok b -> allocated_type (b_type b) -> is_pt_pci dev_ops k = false ->
  runs (register_bar dev_ops malloc k i) s (fun r s' => devs (clients s') = devs (clients s) /\ grows s s' /\ (r = 0 -> registered_bar k i d b s')).
Proof.
  intros Hm E Hb Hok Ht Hpt. unfold registered_bar. destruct (decide (b_type b = PCIBAR_IO)) as [Eio|Hio].
  - rewrite bool_decide_eq_true_2 by done. unfold register_bar, modify_bar_registration. rewrite Hpt. apply runs_bind, (runs_dev k s d); [done|].
    apply runs_bind, (runs_the_bar k s d i b); [done|done|]. rewrite Eio. unfold on_ports. apply runs_bind, runs_bind, runs_get, runs_ret.
    pose proof (register_ports (bar_port k d b) (ports (clients s)) eq_refl) as Hr. destruct (register_inout _ _) as [r t]. destruct Hr as [Hr1 Hr2].
    apply runs_bind, runs_modify, runs_ret. split; [done|]. split; [by split|exact Hr2].
  - rewrite bool_decide_eq_false_2 by done. assert (Hmem : in_memory b) by (unfold in_memory; destruct Ht as [Ht|Ht]; tauto).
    eapply runs_weaken; [apply runs_and; [by apply (register_one dev_ops malloc k s d i b)|by apply (registration_ports k i s d b)]|]. cbv beta.
    intros r s' [(Hm' & Hd & Hf & Hr) Hp]. split; [done|]. destruct (_ && _).
    + destruct Hr as [-> Hr]. split; [split; [|by rewrite Hp]; intros mr Hmr; rewrite Hr; by right|]. intros _. rewrite Hr. by left.
    + destruct Hr as [-> Hr]. split; [split; [by rewrite Hr|by rewrite Hp]|done].
Qed.

Definition takes (type : pcibar_type) (i : Z) : list Z := if bool_decide (type = PCIBAR_MEM64) then [i; i + 1] else [i].
Lemma takes_self type i : i ∈ takes type i.
Proof. unfold takes. destruct (bool_decide _); by left. Qed.

(** The address is in order, or there is none. *)
Lemma bar_address_run k l U v s0 s i hostbase n limit type w : made k l U v s0 s -> w <> NoPool -> 0 <= hostbase <= FAR -> limit <= FAR -> 0 <= n <= 61 ->
  runs (bar_address k i hostbase (2 ^ n) limit type w) s (fun r s' => made k l U v s0 s' /\ devs (clients s') = devs (clients s) /\ grows s s' /\
    match r with Some a => 0 <= a /\ low_clear n a /\ a + 2 ^ n <= limit | None => True end).
Proof.
  intros [Hs Hp] Hw Hh Hl Hn. pose proof Hp as [Hr H1 H2 H3]. apply runs_bind, runs_bind, runs_get, runs_ret.
  replace (get_io_rsvd_rgn_by_vdev_idx (reserved_bar_regions (clients s)) k i) with (@None io_rsvd_rgn).
  2:{ symmetry. unfold get_io_rsvd_rgn_by_vdev_idx. destruct (List.find _ _) as [r|] eqn:E; [|done]. apply List.find_some in E as [Hin E].
      unfold regions_ok in Hr. rewrite Forall_forall in Hr. destruct (Hr r) as [_ Hne]; [by apply list_elem_of_In|].
      rewrite andb_true_iff, bool_decide_eq_true in E. by destruct E. }
  destruct w; [done|..].
  all: destruct (pci_emul_alloc_resource _ _ _ _ _) as [[a base]|] eqn:E; [|by apply runs_ret].
  all: (apply (alloc_resource_run k) in E as (Ha & Hc & He & Hb); [|done|done || (cbn [pool_base]; done)..]).
  all: apply runs_bind, runs_modify, runs_ret; (split; [|split; [done|by split]]); (split; [|by split]).
  all: destruct Hs as (Hm & Hf & d & Ed & Hd); (split; [by apply mmio_ok_clients|]); (split; [done|]); by exists d.
Qed.

Lemma line_place d i b val gs : cfg_ok (cfgdata d) -> 0 <= i < 6 -> line_of (with_reg (with_bar d i b) i val) gs = line_of d gs.
Proof.
  intros Hc Hi. unfold line_of. cbn. f_equal. rewrite cbit_store by (done || (by apply reg_aligned) || (unfold INTxDIS_BIT, PCIR_COMMAND; lia)).
  unfold PCIR_BAR, INTxDIS_BIT, PCIR_COMMAND. destruct (Z.leb_spec (8 * (16 + i * 4)) (8 * 4 + 10)); [lia|done].
Qed.
Lemma unused_place U d i b val : 0 <= i -> unused U d -> unused (i :: U) (with_reg (with_bar d i b) i val).
Proof.
  intros Hi Hu j Hj Hn. apply not_elem_of_cons in Hn as [Hne Hn]. destruct (Hu j Hj Hn) as (x & Hx & Ht). exists x. split; [|done].
  cbn. by rewrite nthZ_setZ_ne.
Qed.

(** A BAR and its register are filled in. *)
Lemma place_made k l U v s0 s i val d b0 b : made k l U v s0 s -> devs (clients s) !! k = Some d -> vdev_ok l d -> unused U d -> 0 <= i < 6 ->
  nthZ (bar d) i = Some b0 -> b_type b0 = PCIBAR_NONE -> bar_ok b ->
  mirrored (store 4 (PCIR_BAR i) val (cfgdata d)) (setZ (bar d) i b) i b ->
  made k l (i :: U) v s0 (put k (with_reg (with_bar d i b) i val) s) /\ vdev_ok l (with_reg (with_bar d i b) i val) /\ unused (i :: U) (with_reg (with_bar d i b) i val).
Proof.
  intros Hm E Hd Hu Hi Hb Ht Hok Hmir. pose proof (vo_cfg _ _ Hd) as Hc. assert (Hd' : vdev_ok l (with_reg (with_bar d i b) i val)) by (by eapply vdev_ok_place).
  assert (Hu' : unused (i :: U) (with_reg (with_bar d i b) i val)) by (apply unused_place; [lia|done]). split; [|by split].
  eapply made_put; [exact Hm|exact E|done|done|]. by apply line_place.
Qed.

(** What an operation on the device that is made leaves: its name and the BARs of [U], and what is registered. *)
Definition leaves k (U : list Z) s s' : Prop := grows s s' /\ forall d, devs (clients s) !! k = Some d ->
  exists d', devs (clients s') !! k = Some d' /\ dev_name d' = dev_name d /\ forall j, j ∈ U -> nthZ (bar d') j = nthZ (bar d) j.
Lemma leaves_same k U s s' : grows s s' -> devs (clients s') = devs (clients s) -> leaves k U s s'.
Proof. intros Hg Hd. split; [done|]. intros d E. exists d. by rewrite Hd. Qed.
Lemma leaves_put k U s d d' : devs (clients s) !! k = Some d -> dev_name d' = dev_name d -> (forall j, j ∈ U -> nthZ (bar d') j = nthZ (bar d) j) -> leaves k U s (put k d' s).
Proof. intros E Hn Hb. split; [by split|]. intros d1 E1. rewrite E in E1. injection E1 as <-. exists d'. split; [apply put_dev|done]. Qed.
Lemma leaves_trans k U s1 s2 s3 : leaves k U s1 s2 -> leaves k U s2 s3 -> leaves k U s1 s3.
Proof.
  intros [G1 H1] [G2 H2]. split; [by eapply grows_trans|]. intros d E. destruct (H1 d E) as (d' & E' & Hn & Hb). destruct (H2 d' E') as (d2 & E2 & Hn2 & Hb2).
  exists d2. split; [done|]. split; [congruence|]. intros j Hj. by rewrite Hb2, Hb.
Qed.
Lemma leaves_grows k U s1 s2 s3 : leaves k U s1 s2 -> grows s2 s3 -> devs (clients s3) = devs (clients s2) -> leaves k U s1 s3.
Proof. intros H Hg Hd. eapply leaves_trans; [exact H|by apply leaves_same]. Qed.

(** BAR [i] is what was asked for, and registered. *)
Definition bar_given k i (type : pcibar_type) (size : Z) s : Prop := exists d b, devs (clients s) !! k = Some d /\ nthZ (bar d) i = Some b /\
  b_type b = type /\ fits_bar type size (b_size b) /\ registered_bar k i d b s.
Lemma bar_given_kept k i type size U s s' : i ∈ U -> leaves k U s s' -> bar_given k i type size s -> bar_given k i type size s'.
Proof.
  intros Hi [Hg Hl] (d & b & E & Hb & Ht & Hs & Hr). destruct (Hl d E) as (d' & E' & Hn & Hbar). exists d', b. split; [done|]. split; [by rewrite Hbar|].
  split; [done|]. split; [done|]. apply (registered_grows k i d' b s s' Hg). unfold registered_bar, bar_port, bar_range in *. by rewrite Hn.
Qed.

(** A BAR that is free is allocated: the device stays well-formed, whether an address is left
    or not, and registered or not; when the result is 0 the BAR is there. *)
Theorem alloc_bar_keeps w k i hostbase type size l U v s0 s : made k l U v s0 s -> allocated_type type -> 0 <= i < 6 -> 0 < size <= 2 ^ 60 -> 0 <= hostbase <= FAR ->
  i ∉ U -> (type = PCIBAR_MEM64 -> i + 1 < 6 /\ i + 1 ∉ U) -> is_pt_pci dev_ops k = false ->
  runs (pci_emul_alloc_pbar dev_ops malloc w k i hostbase type size) s (fun r s' => made k l (takes type i ++ U) v s0 s' /\ leaves k U s s' /\
    (r = 0 -> bar_given k i type size s')).
Proof.
  intros Hm Ht Hi Hs Hh HiU Hhi Hpt.
  assert (Hgive : forall s', made k l U v s0 s' -> leaves k U s s' -> runs (mret (-1)) s' (fun r s' => made k l (takes type i ++ U) v s0 s' /\ leaves k U s s' /\ (r = 0 -> bar_given k i type size s'))).
  { intros s' H Hl. apply runs_ret. split; [|done]. eapply made_mono; [|exact H]. intros j Hj. apply elem_of_app. by right. }
  destruct (bar_size_run type size Hs) as (n & En & Hfb & Hn). unfold pci_emul_alloc_pbar. apply runs_bind. eapply runs_lift; [exact En|].
  change PCI_ROMBAR with 6. rewrite (proj2 (Z.ltb_ge 6 i)), (proj2 (Z.eqb_neq i 6)) by lia. cbn [andb]. cbv zeta iota.
  destruct (bar_pool w type i (2 ^ n)) as [[[[p limit] mask] lobits]|] eqn:Ep; [|by apply Hgive; [|apply leaves_same; [apply grows_refl|]]].
  destruct (pool_limit w type i (2 ^ n) p limit mask lobits Ht Ep) as (Hp & Hlw & Hlf & -> & Hlo).
  apply runs_bind. eapply runs_weaken; [by eapply (bar_address_run k l U v s0 s i hostbase n limit type p); try done; destruct (bool_decide _) in Hn; lia|]. cbv beta.
  intros [a|] s1 (Hm1 & Hd1 & Hg1 & Ha); [|by apply Hgive; [|apply leaves_same]]. destruct Ha as (Ha & Hal & Hae).
  pose proof Hm1 as [Hst _]. destruct (st_dev _ _ _ _ _ Hst) as (d & E & Hd & Hu). destruct (Hu i Hi HiU) as (b0 & Hb0 & Hb0t).
  assert (Hok : bar_ok (mkBar type (2 ^ n) a (sizing b0))) by (apply bar_ok_at; try done; [unfold bar_lo; lia|lia]).
  assert (Hfit : fits 64 a).
  { pose proof (pow2_pos n ltac:(destruct (bool_decide _) in Hn; lia)). unfold FAR in Hlf. unfold fits. lia. }
  set (val := Z.lor _ _). change val with (reg_value type a lobits).
  assert (Hmir : forall bars, mirrored (store 4 (PCIR_BAR i) (reg_value type a lobits) (cfgdata d)) bars i (mkBar type (2 ^ n) a (sizing b0))).
  { intros bars. apply mirrored_new; try done. apply (vo_cfg _ _ Hd). }
  destruct (place_made k l U v s0 s1 i (reg_value type a lobits) d b0 (mkBar type (2 ^ n) a (sizing b0)) Hm1 E Hd Hu Hi Hb0 Hb0t Hok (Hmir _)) as (Hm2 & Hd2 & Hu2).
  apply runs_bind, (runs_on_bar k s1 d i b0); [done|done|]. change (b0 <| b_type := type |> <| b_addr := a |> <| b_size := 2 ^ n |>) with (mkBar type (2 ^ n) a (sizing b0)).
  set (b := mkBar _ _ _ _) in *. set (d2 := with_reg (with_bar d i b) i (reg_value type a lobits)) in *.
  apply runs_bind, runs_bind, (runs_set_cfg 4 k (PCIR_BAR i) _ _ (with_bar d i b)); [apply put_dev|apply (vo_cfg _ _ Hd)|by apply reg_aligned|].
  change (with_bar d i b <| cfgdata := store 4 (PCIR_BAR i) (reg_value type a lobits) (cfgdata (with_bar d i b)) |>) with d2. rewrite put_put.
  assert (Hb2 : nthZ (bar d2) i = Some b) by (apply (nthZ_setZ_eq _ _ b0); exact Hb0).
  assert (Hl1 : leaves k U s s1) by by apply leaves_same.
  assert (Hl2 : leaves k U s1 (put k d2 s1)).
  { apply (leaves_put k U s1 d); [done|done|]. intros j Hj. cbn. apply nthZ_setZ_ne. intros Heq. subst j. by apply HiU. }
  (* the registration *)
  assert (Hend : forall U' d3, made k l U' v s0 (put k d3 s1) -> leaves k U s (put k d3 s1) -> nthZ (bar d3) i = Some b -> (forall j, j ∈ U' -> j ∈ takes type i ++ U) ->
    runs (register_bar dev_ops malloc k i) (put k d3 s1) (fun r s' => made k l (takes type i ++ U) v s0 s' /\ leaves k U s s' /\ (r = 0 -> bar_given k i type size s'))).
  { intros U' d3 Hm3 Hl3 Hb3 HU'. eapply runs_weaken; [apply runs_and; [by eapply (register_made k l U' v s0 _ i d3 b); [exact Hm3|done|apply put_dev| |]|
      apply (register_step k i (put k d3 s1) d3 b); try done; [apply Hm3|apply put_dev]]|].
    cbv beta. intros r s' (Hm' & Hd' & Hg' & Hr'). split; [by eapply made_mono|]. split; [by eapply leaves_grows|].
    intros Hr. exists d3, b. rewrite Hd', put_dev. split; [done|]. split; [done|]. split; [done|]. split; [done|]. by apply Hr'. }
  destruct (bool_decide (type = PCIBAR_MEM64)) eqn:Et; cbn [when]; [apply bool_decide_eq_true in Et|].
  - subst type. destruct (Hhi eq_refl) as [Hi1 HiU1]. destruct (Hu2 (i + 1) ltac:(lia)) as (b1 & Hb1 & Hb1t); [apply not_elem_of_cons; split; [lia|done]|].
    set (hi := b1 <| b_type := PCIBAR_MEMHI64 |>).
    apply runs_bind, (runs_on_bar k _ d2 (i + 1) b1); [apply put_dev|done|]. fold hi.
    apply (runs_set_cfg 4 k (PCIR_BAR (i + 1)) _ _ (with_bar d2 (i + 1) hi)); [apply put_dev|apply (vo_cfg _ _ Hd2)|apply reg_aligned; lia|]. rewrite put_put.
    destruct (place_made k l (i :: U) v s0 (put k d2 s1) (i + 1) (Z.shiftr (reg_value PCIBAR_MEM64 a lobits) 32) d2 b1 hi Hm2 (put_dev _ _ _) Hd2 Hu2 ltac:(lia) Hb1 Hb1t I) as (Hm3 & Hd3 & _).
    { apply (mirrored_upper _ _ _ a lobits b); try done; [apply (vo_cfg _ _ Hd2)|lia|]. replace (i + 1 - 1) with i by lia. by rewrite nthZ_setZ_ne by lia. }
    rewrite put_put in Hm3 |- *. eapply Hend; [exact Hm3| |cbn; rewrite nthZ_setZ_ne by lia; exact Hb2|unfold takes; rewrite bool_decide_eq_true_2 by done; set_solver].
    eapply leaves_trans; [exact Hl1|]. rewrite <- (put_put k d2). eapply leaves_trans; [exact Hl2|]. apply (leaves_put k U _ d2); [apply put_dev|done|].
    intros j Hj. cbn. apply nthZ_setZ_ne. intros Heq. subst j. by apply HiU1.
  - apply runs_ret. eapply Hend; [exact Hm2|by eapply leaves_trans|exact Hb2|unfold takes; rewrite Et; set_solver].
Qed.

(** ** Capabilities *)

(** Bytes from [o] on. *)
Definition put_bytes (o : Z) (f : Z -> Z) (is_ : list Z) (c : list Z) : list Z := fold_left (fun c i => store 1 (o + i) (f i) c) is_ c.
Lemma byte_aligned o : 0 <= o < 256 -> aligned 1 o.
Proof. intros Ho. repeat split; [by left|lia..|apply Z.mod_1_r]. Qed.
Lemma byte_store_one o x c p : cfg_ok c -> 0 <= o < 256 -> 0 <= p -> fits 8 x -> byte (store 1 o x c) p = if p =? o then x else byte c p.
Proof.
  intros Hc Ho Hp Hx. rewrite byte_store by (done || by apply byte_aligned). change (Z.of_nat 1) with 1.
  destruct (Z.leb_spec o p), (Z.ltb_spec p (o + 1)), (Z.eqb_spec p o); cbn [andb]; try lia; try done.
  subst. rewrite Z.sub_diag. cbn. by apply Z.mod_small.
Qed.
Lemma put_bytes_spec o f is_ : forall c, cfg_ok c -> (forall i, i ∈ is_ -> 0 <= o + i < 256 /\ fits 8 (f i)) ->
  cfg_ok (put_bytes o f is_ c) /\ forall p, 0 <= p -> byte (put_bytes o f is_ c) p = if bool_decide (p - o ∈ is_) then f (p - o) else byte c p.
Proof.
  induction is_ as [|i is_ IH]; intros c Hc Hi; cbn [put_bytes fold_left].
  - split; [done|]. intros p _. by rewrite bool_decide_eq_false_2 by apply not_elem_of_nil.
  - destruct (Hi i ltac:(by left)) as [Ho Hf]. destruct (set_run 1 (o + i) (f i) c Hc (byte_aligned _ Ho)) as [_ Hc1].
    destruct (IH (store 1 (o + i) (f i) c) Hc1) as [Hc2 Hb]; [intros j Hj; apply Hi; by right|]. split; [exact Hc2|]. intros p Hp.
    unfold put_bytes in Hb. rewrite Hb by done. case_bool_decide as E1; [rewrite bool_decide_eq_true_2 by (by right); done|].
    rewrite byte_store_one by done. destruct (Z.eqb_spec p (o + i)) as [-> |Hne].
    + replace (o + i - o) with i by lia. by rewrite bool_decide_eq_true_2 by (by left).
    + rewrite bool_decide_eq_false_2; [done|]. intros [Heq|]%elem_of_cons; [lia|done].
Qed.

Definition with_cfg d (c : list Z) : pci_vdev := d <| cfgdata := c |>.
Lemma put_bytes_run k o f is_ : forall s d, devs (clients s) !! k = Some d -> cfg_ok (cfgdata d) -> (forall i, i ∈ is_ -> 0 <= o + i < 256 /\ fits 8 (f i)) ->
  runs (each is_ (fun i => set_cfg 1 k (o + i) (f i))) s (fun _ s' => s' = put k (with_cfg d (put_bytes o f is_ (cfgdata d))) s).
Proof.
  induction is_ as [|i is_ IH]; intros s d E Hc Hi; cbn [each].
  - apply runs_ret. replace (with_cfg d _) with d by (by destruct d). by rewrite put_id.
  - destruct (Hi i ltac:(by left)) as [Ho Hf]. destruct (set_run 1 (o + i) (f i) (cfgdata d) Hc (byte_aligned _ Ho)) as [_ Hc1].
    apply runs_bind, (runs_set_cfg 1 k (o + i) (f i) s d); [done|done|by apply byte_aligned|].
    eapply runs_weaken; [apply (IH _ (with_cfg d (store 1 (o + i) (f i) (cfgdata d)))); [apply put_dev|exact Hc1|intros j Hj; apply Hi; by right]|].
    cbv beta. intros _ s' ->. rewrite put_put. done.
Qed.

Lemma last_default {A} (x : A) (xs : list A) : forall a b, List.last (x :: xs) a = List.last (x :: xs) b.
Proof. revert x. induction xs as [|y xs IH]; intros x a b; [done|]. exact (IH y a b). Qed.

Lemma last_elem {A} (x : A) (xs : list A) a : List.last (x :: xs) a ∈ x :: xs.
Proof. apply list_elem_of_In. destruct (@List.exists_last _ (x :: xs) ltac:(done)) as (l1 & y & ->). rewrite List.last_last. apply List.in_or_app. right. by left. Qed.

(** The list gets longer by one. *)
Lemma chain_snoc c c' e e' q : q.1 = e -> cap_fits c' q e' -> next_of c' q.1 = 0 -> forall l p, chain c e (p :: l) ->
  (forall r, r ∈ p :: l -> byte c' r.1 = byte c r.1) -> (forall r, r ∈ p :: l -> r.1 <> (List.last (p :: l) p).1 -> next_of c' r.1 = next_of c r.1) ->
  next_of c' (List.last (p :: l) p).1 = q.1 -> chain c' e' ((p :: l) ++ [q]).
Proof.
  intros Hq Hf Hn. induction l as [|p' l IH]; intros p Hch Hb Hx Hlast.
  - destruct Hch as [[F1 F2 F3 F4 F5] _]. split; [|split; [exact Hlast|by split]]. split; try done; try (rewrite Hq; done). rewrite Hb; [done|by left].
  - pose proof (chain_after _ _ _ _ Hch) as Ha. rewrite chain_cons in Hch. destruct Hch as ([F1 F2 F3 F4 F5] & Hp & Hch).
    assert (El : List.last (p :: p' :: l) p = List.last (p' :: l) p') by apply (last_default p' l p p').
    rewrite El in *. change ((p :: p' :: l) ++ [q]) with (p :: p' :: (l ++ [q])). apply chain_cons. split; [|split].
    + split; try done. rewrite Hb; [done|by left].
    + rewrite Hx; [done|by left|]. rewrite Forall_forall in Ha. pose proof (last_elem p' l p') as Hin.
      destruct (Ha _ Hin) as [Hlt _]. lia.
    + apply IH; [done|intros r Hr; apply Hb; by right|intros r Hr; apply Hx; by right|done].
Qed.

Lemma vdev_ok_list l l' d d' : vdev_ok l d -> bar d' = bar d -> d_msi d' = d_msi d -> cfg_ok (cfgdata d') ->
  (forall p, 16 <= p < 40 -> byte (cfgdata d') p = byte (cfgdata d) p) -> caps_ok l' d' -> vdev_ok l' d'.
Proof.
  intros [H1 H2 H3 H4 H5] Eb Em Hc Hsame Hl. split; [done|by rewrite Eb| |done|by rewrite Em].
  intros i b Hi. rewrite Eb. intros Hb. destruct (H3 i b Hi Hb) as [Hok Hm]. split; [done|]. eapply mirrored_agree; [|exact Hm].
  intros j Hj. unfold reg_bit, cbit. f_equal. apply Hsame. unfold PCIR_BAR. Z.div_mod_to_equations. lia.
Qed.

Lemma roundup4 n : 0 < n <= 256 -> let r := roundup2 n 4 in n <= r < n + 4 /\ r mod 4 = 0.
Proof.
  intros Hn. destruct (roundup2_bounds n 2 ltac:(lia) ltac:(lia)) as [_ H]. pose proof (roundup2_spec n 2 ltac:(lia) ltac:(lia)) as E.
  change (2 ^ 2) with 4 in *. split; [exact H|]. rewrite E, Z.mul_comm. by apply Z.mod_mul.
Qed.
Lemma elem_of_upto i n : i ∈ upto n <-> 0 <= i < n.
Proof.
  unfold upto. rewrite list_elem_of_fmap. split.
  - intros (m & -> & Hm%elem_of_seq). lia.
  - intros Hi. exists (Z.to_nat i). split; [lia|]. apply elem_of_seq. lia.
Qed.

(** What is written for a capability: bytes at [o], and the way to it. *)
Definition cap_byte (capdata : list Z) (i : Z) : Z := default 0 (nthZ capdata i).
Definition linked (present : bool) (d : pci_vdev) (sts o : Z) : list Z :=
  if present then store 1 (prevcap d + 1) o (cfgdata d)
  else store 2 PCIR_STATUS (Z.lor sts PCIM_STATUS_CAPPRESENT) (store 1 PCIR_CAP_PTR o (cfgdata d)).
Definition listed (present : bool) (d : pci_vdev) (sts o : Z) (capdata : list Z) : pci_vdev :=
  with_cfg d (store 1 (o + 1) 0 (put_bytes o (cap_byte capdata) (upto (Z.of_nat (length capdata))) (linked present d sts o)))
    <| prevcap := o |> <| capend := o + roundup2 (Z.of_nat (length capdata)) 4 - 1 |>.

(** Where the new capability starts. *)
Definition cap_start (present : bool) d : Z := if present then capend d + 1 else CAP_START_OFFSET.

Record capdata_ok (id : Z) (capdata : list Z) : Prop := {
  cd_len : (1 < length capdata <= 200)%nat; cd_bytes : bytes_ok capdata; cd_id : nthZ capdata 0 = Some id;
  cd_msi : id = PCIY_MSI -> length capdata = 24%nat
}.
Lemma cap_byte_fits id capdata i : capdata_ok id capdata -> fits 8 (cap_byte capdata i).
Proof.
  intros [_ Hb _ _]. unfold cap_byte, nthZ. assert (H8 : fits 8 0) by (split; [lia|reflexivity]). destruct (0 <=? i); [|exact H8].
  destruct (capdata !! Z.to_nat i) as [x|] eqn:E; [|exact H8]. unfold bytes_ok in Hb. rewrite Forall_forall in Hb. apply Hb. by eapply list_elem_of_lookup_2.
Qed.

(** The link alone. *)
Record link_ok (present : bool) d (o : Z) (c : list Z) : Prop := {
  lk_cfg : cfg_ok c;
  lk_same p : 0 <= p -> p <> (if present then prevcap d + 1 else PCIR_CAP_PTR) -> (present = false -> p <> 6 /\ p <> 7) -> byte c p = byte (cfgdata d) p;
  lk_new : byte c (if present then prevcap d + 1 else PCIR_CAP_PTR) = o;
  lk_flag : cbit c CAPPRESENT_BIT = true;
  lk_dis : cbit c INTxDIS_BIT = cbit (cfgdata d) INTxDIS_BIT
}.
Lemma link_run l d sts : let present := negb (bool_decide (l = [])) in let o := cap_start present d in vdev_ok l d -> o < 256 -> link_ok present d o (linked present d sts o).
Proof.
  intros present o Hd Ho. pose proof (vo_cfg _ _ Hd) as Hc. pose proof (vo_caps _ _ Hd) as Hl. unfold linked, present in *.
  assert (Hfit : fits 8 o).
  { unfold o, cap_start. destruct l as [|p l]; [by split|]. cbn. destruct (dev_chain _ _ Hd ltac:(done)) as (Hch & He & _).
    pose proof (chain_bounds _ _ _ Hch) as Hb. inversion Hb as [|? ? (B1 & _ & B2 & _)]; subst. unfold fits. unfold o, cap_start in Ho. cbn in Ho. lia. }
  destruct l as [|p l]; cbn [bool_decide decide_rel] in *.
  - rewrite bool_decide_eq_true_2 by done. cbn [negb]. assert (Ha : aligned 1 PCIR_CAP_PTR) by by apply byte_aligned.
    assert (Ha2 : aligned 2 PCIR_STATUS) by (unfold PCIR_STATUS; split; [tauto|]; split; [lia|]; split; [lia|done]).
    destruct (set_run 1 PCIR_CAP_PTR o (cfgdata d) Hc Ha) as [_ Hc1]. destruct (set_run 2 PCIR_STATUS (Z.lor sts PCIM_STATUS_CAPPRESENT) _ Hc1 Ha2) as [_ Hc2]. split.
    + exact Hc2.
    + intros p Hp Hne H67. destruct (H67 eq_refl). rewrite byte_store_out by (done || (unfold PCIR_STATUS; lia)).
      rewrite byte_store_one by (done || (unfold PCIR_CAP_PTR in *; lia)). by rewrite (proj2 (Z.eqb_neq _ _)).
    + rewrite byte_store_out by (done || (unfold PCIR_STATUS, PCIR_CAP_PTR; lia)). rewrite byte_store_one by (done || (unfold PCIR_CAP_PTR in *; lia)). by rewrite Z.eqb_refl.
    + rewrite cbit_store by (done || (unfold CAPPRESENT_BIT, PCIR_STATUS; lia)). change (Z.testbit (Z.lor sts PCIM_STATUS_CAPPRESENT) 4 = true).
      rewrite Z.lor_spec. apply orb_true_r.
    + rewrite cbit_store by (done || (unfold INTxDIS_BIT, PCIR_COMMAND; lia)). cbn [andb]. rewrite cbit_store by (done || (unfold INTxDIS_BIT, PCIR_COMMAND; lia)). done.
  - rewrite bool_decide_eq_false_2 by done. cbn [negb]. destruct Hl as (L1 & L2 & L3 & L4 & L5 & L6 & L7).
    assert (Hprev : 0x40 <= prevcap d <= 252).
    { pose proof (chain_bounds _ _ _ L4) as Hb. rewrite Forall_forall in Hb. rewrite L5. pose proof (last_elem p l p) as Hin.
      destruct (Hb _ Hin) as (B1 & _ & B2 & _). lia. }
    assert (Ha : aligned 1 (prevcap d + 1)) by (apply byte_aligned; lia). destruct (set_run 1 (prevcap d + 1) o (cfgdata d) Hc Ha) as [_ Hc1]. split.
    + exact Hc1.
    + intros q Hq Hne _. rewrite byte_store_one by (done || lia). by rewrite (proj2 (Z.eqb_neq _ _)).
    + rewrite byte_store_one by (done || lia). by rewrite Z.eqb_refl.
    + rewrite cbit_store by (done || (unfold CAPPRESENT_BIT, PCIR_STATUS; lia)). unfold CAPPRESENT_BIT, PCIR_STATUS in *. destruct (Z.leb_spec (8 * (prevcap d + 1)) (8 * 6 + 4)); [lia|done].
    + rewrite cbit_store by (done || (unfold INTxDIS_BIT, PCIR_COMMAND; lia)). unfold INTxDIS_BIT, PCIR_COMMAND. destruct (Z.leb_spec (8 * (prevcap d + 1)) (8 * 4 + 10)); [lia|done].
Qed.

(** The bytes of the device after that. *)
Lemma listed_bytes present d sts o id capdata : link_ok present d o (linked present d sts o) -> capdata_ok id capdata -> 0x40 <= o -> o + Z.of_nat (length capdata) <= 256 ->
  let c := cfgdata (listed present d sts o capdata) in cfg_ok c /\ byte c o = id /\ byte c (o + 1) = 0 /\
  (forall p, 0 <= p < o -> byte c p = byte (linked present d sts o) p).
Proof.
  intros [Hc _ _ _ _] Hd Ho He c. pose proof Hd as [Hlen _ Hid _].
  destruct (put_bytes_spec o (cap_byte capdata) (upto (Z.of_nat (length capdata))) (linked present d sts o) Hc) as [Hc2 Hb].
  { intros i Hi%elem_of_upto. split; [lia|]. by eapply cap_byte_fits. }
  assert (H0 : fits 8 0) by (split; [lia|reflexivity]). destruct (set_run 1 (o + 1) 0 _ Hc2 (byte_aligned (o + 1) ltac:(lia))) as [_ Hc3].
  assert (Hbyte : forall p, 0 <= p -> byte c p = if p =? o + 1 then 0 else if bool_decide (p - o ∈ upto (Z.of_nat (length capdata))) then cap_byte capdata (p - o) else byte (linked present d sts o) p).
  { intros p Hp. unfold c, listed. cbn [cfgdata with_cfg]. change (byte (store 1 (o + 1) 0 (put_bytes o (cap_byte capdata) (upto (Z.of_nat (length capdata))) (linked present d sts o))) p = 
      if p =? o + 1 then 0 else if bool_decide (p - o ∈ upto (Z.of_nat (length capdata))) then cap_byte capdata (p - o) else byte (linked present d sts o) p).
    rewrite byte_store_one by (done || lia). by rewrite Hb. }
  split; [exact Hc3|]. split; [|split].
  - rewrite Hbyte by lia. rewrite (proj2 (Z.eqb_neq o (o + 1))) by lia. rewrite Z.sub_diag, bool_decide_eq_true_2 by (apply elem_of_upto; lia). unfold cap_byte. by rewrite Hid.
  - rewrite Hbyte by lia. by rewrite Z.eqb_refl.
  - intros p Hp. rewrite Hbyte by lia. rewrite (proj2 (Z.eqb_neq p (o + 1))) by lia. rewrite bool_decide_eq_false_2; [done|]. rewrite elem_of_upto. lia.
Qed.

Lemma listed_ok l d sts id capdata : let present := negb (bool_decide (l = [])) in let o := cap_start present d in
  vdev_ok l d -> capdata_ok id capdata -> o + roundup2 (Z.of_nat (length capdata)) 4 <= 256 ->
  vdev_ok (l ++ [(o, id)]) (listed present d sts o capdata) /\ cbit (cfgdata (listed present d sts o capdata)) INTxDIS_BIT = cbit (cfgdata d) INTxDIS_BIT.
Proof.
  intros present o Hd Hcd He. pose proof (cd_len _ _ Hcd) as Hlen. destruct (roundup4 (Z.of_nat (length capdata)) ltac:(lia)) as [Hr Hr4].
  set (r := roundup2 (Z.of_nat (length capdata)) 4) in *. pose proof (link_run l d sts Hd ltac:(fold present o; lia)) as Hlk. fold present o in Hlk.
  assert (Ho : 0x40 <= o /\ o mod 4 = 0).
  { unfold o, cap_start, present. destruct l as [|p l]; [done|]. rewrite bool_decide_eq_false_2 by done. cbn [negb].
    destruct (dev_chain _ _ Hd ltac:(done)) as (Hch & _ & Hm). split; [|done]. pose proof (chain_bounds _ _ _ Hch) as Hb. inversion Hb as [|? ? (B1 & _ & B2 & _)]; subst. lia. }
  destruct (listed_bytes present d sts o id capdata Hlk Hcd ltac:(lia) ltac:(lia)) as (Hc & Bid & Bnext & Bsame). set (d' := listed present d sts o capdata) in *.
  assert (Bold : forall p, 0 <= p < o -> p <> (if present then prevcap d + 1 else PCIR_CAP_PTR) -> p <> 6 -> p <> 7 -> byte (cfgdata d') p = byte (cfgdata d) p).
  { intros p Hp H1 H6 H7. rewrite Bsame by done. apply (lk_same _ _ _ _ Hlk); [lia|done|done]. }
  assert (Bbit : forall t, 0 <= t < 512 -> cbit (cfgdata d') t = cbit (linked present d sts o) t).
  { intros t Ht. unfold cbit. rewrite Bsame; [done|]. Z.div_mod_to_equations. lia. }
  assert (Hfit : cap_fits (cfgdata d') (o, id) (o + r)).
  { split; cbn [fst snd]; try tauto; [destruct Hr; Z.div_mod_to_equations; lia|]. intros Hid. rewrite (cd_msi _ _ Hcd Hid) in Hr. lia. }
  assert (Hlist : caps_ok (l ++ [(o, id)]) d').
  { unfold caps_ok. change (prevcap d') with o. change (capend d') with (o + r - 1). replace (o + r - 1 + 1) with (o + r) by lia.
    assert (Hm : (o + r) mod 4 = 0) by (destruct Ho as [_ Ho]; clear -Ho Hr4; Z.div_mod_to_equations; lia).
    assert (Hflag : cbit (cfgdata d') CAPPRESENT_BIT = true) by (rewrite Bbit by (unfold CAPPRESENT_BIT, PCIR_STATUS; lia); apply (lk_flag _ _ _ _ Hlk)).
    pose proof (lk_new _ _ _ _ Hlk) as Hnew. destruct l as [|p l].
    - cbn. unfold present in *. rewrite bool_decide_eq_true_2 in * by done. cbn [negb] in *. split_and!; try done; try lia. rewrite Bsame by (unfold PCIR_CAP_PTR; lia). exact Hnew.
    - pose proof (vo_caps _ _ Hd) as (L1 & L2 & L3 & L4 & L5 & L6 & L7). unfold present in *. rewrite bool_decide_eq_false_2 in * by done. cbn [negb] in *.
      pose proof (chain_bounds _ _ _ L4) as Hb. rewrite Forall_forall in Hb. change (capend d + 1) with o in *.
      pose proof (Hb _ (last_elem p l p)) as (P1 & P2 & P3 & _). rewrite <- L5 in *.
      cbn [app]. split; [done|]. split; [done|].
      split; [rewrite Bold by (unfold PCIR_CAP_PTR; lia); exact L3|]. split; [|split; [|split; [lia|done]]].
      + apply (chain_snoc (cfgdata d) (cfgdata d') o (o + r) (o, id) eq_refl Hfit Bnext l p L4).
        * intros q Hq. destruct (Hb q Hq) as (Q1 & Q2 & Q3 & _). apply Bold; [lia| |lia|lia]. clear -P2 Q2. intros Heq. Z.div_mod_to_equations. lia.
        * intros q Hq Hne. destruct (Hb q Hq) as (Q1 & Q2 & Q3 & _). rewrite <- L5 in Hne. apply Bold; lia.
        * rewrite <- L5. unfold next_of. rewrite Bsame by lia. exact Hnew.
      + change (o = (List.last ((p :: l) ++ [(o, id)]) p).1). by rewrite List.last_last. }
  split; [|rewrite Bbit by (unfold INTxDIS_BIT, PCIR_COMMAND; lia); apply (lk_dis _ _ _ _ Hlk)].
  eapply vdev_ok_list; [exact Hd|done|done|exact Hc| |exact Hlist]. intros p Hp. apply Bold; [lia| |lia|lia].
  unfold present. destruct l as [|q l]; [rewrite bool_decide_eq_true_2 by done; unfold PCIR_CAP_PTR; cbn [negb]; lia|]. rewrite bool_decide_eq_false_2 by done. cbn [negb].
  pose proof (vo_caps _ _ Hd) as (_ & _ & _ & L4 & L5 & _). pose proof (chain_bounds _ _ _ L4) as Hb. rewrite Forall_forall in Hb.
  pose proof (Hb _ (last_elem q l q)) as (P1 & _). rewrite <- L5 in P1. lia.
Qed.

Lemma made_dev k l U v s0 s : made k l U v s0 s -> exists d, devs (clients s) !! k = Some d /\ vdev_ok l d /\ unused U d.
Proof. intros [(_ & _ & d & E & [Hd Hu] & _) _]. by exists d. Qed.

(** A capability goes to the end of the list, or there is no room and nothing is changed. *)
Theorem add_capability_keeps k l U v s0 s id capdata : made k l U v s0 s -> capdata_ok id capdata ->
  runs (pci_emul_add_capability k capdata) s (fun r s' => r = -1 /\ s' = s \/
    r = 0 /\ leaves k U s s' /\ exists o, (l = [] -> o = CAP_START_OFFSET) /\ made k (l ++ [(o, id)]) U v s0 s').
Proof.
  intros Hm Hcd. destruct (made_dev _ _ _ _ _ _ Hm) as (d & E & Hd & Hu). pose proof (vo_cfg _ _ Hd) as Hc. set (present := negb (bool_decide (l = []))). set (o := cap_start present d).
  pose proof (cd_len _ _ Hcd) as Hlen. destruct (roundup4 (Z.of_nat (length capdata)) ltac:(lia)) as [Hr _].
  assert (Hst : st k (vdev_ok l) v s0 s) by (destruct Hm as [Hs _]; eapply st_weaken; [|exact Hs]; by intros ? []).
  unfold pci_emul_add_capability. apply runs_bind, (present_bit k l v s0 s); [done|]. intros sts Hsts. apply runs_bind, (runs_dev k s d); [done|].
  rewrite Hsts. fold present. change (if present then capend d + 1 else CAP_START_OFFSET) with o. unfold PCI_REGMAX.
  destruct (Z.ltb_spec (255 + 1) (o + roundup2 (Z.of_nat (length capdata)) 4)) as [Hbig|Hroom]; [apply runs_ret; by left|].
  pose proof (listed_ok l d sts id capdata Hd Hcd ltac:(fold present o; lia)) as [Hd' Hdis]. fold present o in Hd', Hdis.
  pose proof (link_run l d sts Hd ltac:(fold present o; lia)) as Hlk. fold present o in Hlk.
  assert (Ho : 0x40 <= o).
  { unfold o, cap_start, present. destruct l as [|p l0]; [done|]. rewrite bool_decide_eq_false_2 by done. cbn [negb].
    destruct (dev_chain _ _ Hd ltac:(done)) as (Hch & _ & _). pose proof (chain_bounds _ _ _ Hch) as Hb. inversion Hb as [|? ? (B1 & _ & B2 & _)]; subst. lia. }
  apply runs_bind. eapply runs_weaken with (P := fun _ s' => s' = put k (with_cfg d (linked present d sts o)) s).
  { unfold linked. destruct present eqn:Ep.
    - assert (Ha : aligned 1 (prevcap d + 1)).
      { destruct l as [|p l0]; [done|]. pose proof (vo_caps _ _ Hd) as (_ & _ & _ & L4 & L5 & L6 & _). pose proof (chain_bounds _ _ _ L4) as Hb. rewrite Forall_forall in Hb.
        destruct (Hb _ (last_elem p l0 p)) as (P1 & _ & P2 & _). rewrite <- L5 in *. apply byte_aligned. lia. }
      by apply (runs_set_cfg 1 k (prevcap d + 1) o s d).
    - assert (Ha : aligned 1 PCIR_CAP_PTR) by by apply byte_aligned. destruct (set_run 1 PCIR_CAP_PTR o (cfgdata d) Hc Ha) as [_ Hc1].
      apply runs_bind, (runs_set_cfg 1 k PCIR_CAP_PTR o s d); [done|done|done|].
      apply (runs_set_cfg 2 k PCIR_STATUS _ _ (with_cfg d (store 1 PCIR_CAP_PTR o (cfgdata d)))); [apply put_dev|exact Hc1| |by rewrite put_put].
      unfold PCIR_STATUS. split; [tauto|]. split; [lia|]. split; [lia|done]. }
  cbv beta. intros _ s1 ->. set (d1 := with_cfg d (linked present d sts o)). apply runs_bind. pose proof (lk_cfg _ _ _ _ Hlk) as Hc1.
  assert (Hbytes : forall i, i ∈ upto (Z.of_nat (length capdata)) -> 0 <= o + i < 256 /\ fits 8 (cap_byte capdata i)) by (intros i Hi%elem_of_upto; split; [lia|by eapply cap_byte_fits]).
  eapply runs_weaken; [apply (put_bytes_run k o (cap_byte capdata) (upto (Z.of_nat (length capdata))) (put k d1 s) d1); [apply put_dev|exact Hc1|exact Hbytes]|].
  cbv beta. intros _ s2 ->. rewrite put_put. destruct (put_bytes_spec o (cap_byte capdata) (upto (Z.of_nat (length capdata))) (linked present d sts o) Hc1 Hbytes) as [Hc2 _].
  apply runs_bind, (runs_set_cfg 1 k (o + 1) 0 _ (with_cfg d1 (put_bytes o (cap_byte capdata) (upto (Z.of_nat (length capdata))) (cfgdata d1)))); [apply put_dev|exact Hc2|apply byte_aligned; lia|].
  rewrite put_put. apply runs_bind, runs_bind, (runs_dev k _ (with_cfg d (store 1 (o + 1) 0 (put_bytes o (cap_byte capdata) (upto (Z.of_nat (length capdata))) (linked present d sts o))))); [apply put_dev|].
  apply runs_set_dev.
  match goal with |- runs _ ?x _ => change x with (put k (listed present d sts o capdata) (put k (with_cfg d (store 1 (o + 1) 0 (put_bytes o (cap_byte capdata) (upto (Z.of_nat (length capdata))) (linked present d sts o)))) s)) end.
  rewrite put_put. apply runs_ret. right. split; [done|]. split; [by apply (leaves_put k U s d)|]. exists o. split; [intros ->; done|].
  eapply made_put; [exact Hm|exact E|exact Hd'|exact Hu|]. unfold line_of. f_equal. exact Hdis.
Qed.

(** ** A device comes *)

Lemma set_cfg_made n k l U v s0 s off val : made k l U v s0 s -> aligned n off -> spare n off l ->
  runs (set_cfg n k off val) s (fun _ s' => made k l U v s0 s' /\ leaves k U s s').
Proof.
  intros Hm Ha Hs. destruct (made_dev _ _ _ _ _ _ Hm) as (d & E & Hd & Hu). apply (runs_set_cfg n k off val s d); [done|apply (vo_cfg _ _ Hd)|done|].
  destruct (spare_store l d n off val Hd Ha Hs) as [Hd' Hb]. split; [|by apply (leaves_put k U s d)].
  eapply made_put; [exact Hm|exact E|done|done|]. unfold line_of. cbn. by rewrite Hb.
Qed.

(** What leaves the devices, their lines and the pools alone. *)
Definition harmless_pci (f : pci P -> pci P) : Prop :=
  forall p, devs (f p) = devs p /\ fi_devi (f p) = fi_devi p /\ businfo (f p) = businfo p /\ gsis (irqs (f p)) = gsis (irqs p) /\ ports (f p) = ports p /\ same_pools p (f p).
Lemma on_pci_made k l U v s0 s f : harmless_pci f -> made k l U v s0 s -> runs (on_pci f) s (fun _ s' => made k l U v s0 s' /\ leaves k U s s').
Proof.
  intros Hf [(Hm & (F1 & F2 & F3) & d & E & Hd & Hv) Hp]. destruct (Hf (clients s)) as (E1 & E2 & E3 & E4 & Eports & E5). apply runs_modify.
  split; [|apply leaves_same; [split; [done|]; intros p _; cbn; by rewrite Eports|done]]. split; [|by apply (pools_same k (clients s))].
  split; [by apply mmio_ok_clients|]. split; [split; [|split]|]; cbn.
  - intros k' Hk'. rewrite E1. by apply F1.
  - by rewrite E2.
  - by rewrite E3.
  - exists d. rewrite E1, E4. done.
Qed.

Lemma bytes_zero n : bytes_ok (replicate n 0).
Proof. apply Forall_replicate. split; [lia|reflexivity]. Qed.
Lemma zero_vdev_ok name : vdev_ok [] (zero_vdev name) /\ unused [] (zero_vdev name).
Proof.
  assert (Hb : forall j, 0 <= j < 6 -> nthZ (bar (zero_vdev name)) j = Some zero_bar).
  { intros j Hj. rewrite nthZ_lookup by lia. change (bar (zero_vdev name)) with (replicate 7 zero_bar). apply lookup_replicate. split; [done|lia]. }
  split; [split|].
  - split; [apply length_replicate|apply bytes_zero].
  - apply length_replicate.
  - intros i b Hi. rewrite Hb by done. by intros [= <-].
  - reflexivity.
  - done.
  - intros j Hj _. exists zero_bar. by rewrite Hb.
Qed.

(** ** What a device does when it is initialised

    The steps of [vdev_init]: changes of the device's own memory, registers of configuration
    space, capabilities, BARs; the first that fails ends it with the result [err]. *)
Inductive init_step :=
  | Private (f : pci P -> pci P)
  | SetCfg (n : nat) (off val : Z)
  | AddCap (capdata : list Z)
  | AllocBar (skip_workaround : bool) (idx hostbase : Z) (type : pcibar_type) (size : Z).
Definition run_step k (x : init_step) : @B P Z :=
  match x with
  | Private f => _ ← on_pci f; mret 0
  | SetCfg n off val => _ ← set_cfg n k off val; mret 0
  | AddCap capdata => pci_emul_add_capability k capdata
  | AllocBar w idx hostbase type size => pci_emul_alloc_pbar dev_ops malloc w k idx hostbase type size
  end.
Fixpoint run_steps k err (xs : list init_step) : @B P Z :=
  match xs with [] => mret 0 | x :: xs => r ← run_step k x; if r =? 0 then run_steps k err xs else mret err end.

(** Registers before the BARs or between them and the capabilities; capabilities of an id; BARs that are
    not used yet, [U] being those that are. *)
Definition step_ok (U : list Z) (x : init_step) : Prop :=
  match x with
  | Private f => harmless_pci f
  | SetCfg n off _ => aligned n off /\ spare n off [] /\ off + Z.of_nat n <= CAP_START_OFFSET
  | AddCap capdata => exists id, capdata_ok id capdata
  | AllocBar _ i hostbase type size => allocated_type type /\ 0 <= i < 6 /\ 0 < size <= 2 ^ 60 /\ 0 <= hostbase <= FAR /\
      i ∉ U /\ (type = PCIBAR_MEM64 -> i + 1 < 6 /\ i + 1 ∉ U)
  end.
Definition used_by (x : init_step) : list Z := match x with AllocBar _ i _ type _ => takes type i | _ => [] end.
Fixpoint steps_ok (U : list Z) (xs : list init_step) : Prop :=
  match xs with [] => True | x :: xs => step_ok U x /\ steps_ok (used_by x ++ U) xs end.
(** The ids of the capabilities, and that the BARs are there. *)
Definition cap_ids (xs : list init_step) : list Z := omap (fun x => match x with AddCap capdata => nthZ capdata 0 | _ => None end) xs.
Definition bars_given k (xs : list init_step) s : Prop :=
  forall w i hostbase type size, AllocBar w i hostbase type size ∈ xs -> bar_given k i type size s.

Lemma spare_low n off l d : vdev_ok l d -> spare n off [] -> off + Z.of_nat n <= CAP_START_OFFSET -> spare n off l.
Proof.
  intros Hd (H1 & H2 & _) Ho. split; [done|]. split; [done|]. unfold off_headers. rewrite Forall_forall. intros p Hp. left.
  destruct l as [|q l]; [by apply elem_of_nil in Hp|]. destruct (dev_chain _ _ Hd ltac:(done)) as (Hch & _ & _).
  pose proof (chain_bounds _ _ _ Hch) as Hb. rewrite Forall_forall in Hb. destruct (Hb p Hp) as (B & _). unfold CAP_START_OFFSET in *. lia.
Qed.

(** One step, and all of them. *)
Lemma run_step_made k l U v s0 s x : made k l U v s0 s -> step_ok U x -> is_pt_pci dev_ops k = false ->
  runs (run_step k x) s (fun r s' => exists l', made k l' (used_by x ++ U) v s0 s' /\ leaves k U s s' /\
    (r = 0 -> map snd l' = map snd l ++ cap_ids [x] /\ bars_given k [x] s')).
Proof.
  intros Hm Hx Hpt. assert (Hno : forall s', (forall w i hb ty sz, x <> AllocBar w i hb ty sz) -> bars_given k [x] s').
  { intros s' Hne w i hb ty sz Hin. apply list_elem_of_singleton in Hin. by destruct (Hne w i hb ty sz). }
  destruct x as [f|n off val|capdata|w i hb type size]; cbn [run_step step_ok used_by app] in *.
  - apply runs_bind. eapply runs_weaken; [by eapply on_pci_made|]. cbv beta. intros _ s' [H1 H2]. apply runs_ret. exists l. split; [done|]. split; [done|].
    intros _. split; [by rewrite app_nil_r|by apply Hno].
  - destruct Hx as (Ha & Hs & Ho). destruct (made_dev _ _ _ _ _ _ Hm) as (d & _ & Hd & _).
    apply runs_bind. eapply runs_weaken; [eapply set_cfg_made; [exact Hm|exact Ha|by eapply spare_low]|]. cbv beta. intros _ s' [H1 H2]. apply runs_ret. exists l.
    split; [done|]. split; [done|]. intros _. split; [by rewrite app_nil_r|by apply Hno].
  - destruct Hx as [id Hc]. eapply runs_weaken; [by eapply (add_capability_keeps k l U v s0 s id)|]. cbv beta. intros r s' [[-> ->]|(-> & H2 & o & _ & H1)].
    + exists l. split; [done|]. split; [by apply leaves_same; [apply grows_refl|]|done].
    + exists (l ++ [(o, id)]). split; [done|]. split; [done|]. intros _. split; [|by apply Hno]. rewrite map_app. cbn. by rewrite (cd_id _ _ Hc).
  - destruct Hx as (H1 & H2 & H3 & H4 & H5 & H6). eapply runs_weaken; [by eapply (alloc_bar_keeps w k i hb type size l U v s0 s)|]. cbv beta.
    intros r s' (Hm' & Hl & Hr). exists l. split; [done|]. split; [done|]. intros Hz. split; [by rewrite app_nil_r|].
    intros w' i' hb' type' size' Hin. apply list_elem_of_singleton in Hin. injection Hin as -> -> -> -> ->. by apply Hr.
Qed.

Lemma run_steps_made k err xs : err <> 0 -> is_pt_pci dev_ops k = false -> forall l U v s0 s, made k l U v s0 s -> steps_ok U xs ->
  runs (run_steps k err xs) s (fun r s' => exists l' U', made k l' U' v s0 s' /\ leaves k U s s' /\
    (r = 0 -> map snd l' = map snd l ++ cap_ids xs /\ bars_given k xs s')).
Proof.
  intros He Hpt. induction xs as [|x xs IH]; intros l U v s0 s Hm Hxs; cbn [run_steps].
  - apply runs_ret. exists l, U. split; [done|]. split; [by apply leaves_same; [apply grows_refl|]|]. intros _. split; [by rewrite app_nil_r|].
    by intros ? ? ? ? ? ?%elem_of_nil.
  - destruct Hxs as [Hx Hxs]. apply runs_bind. eapply runs_weaken; [by apply run_step_made|]. cbv beta. intros r s1 (l1 & Hm1 & Hl1 & Hr1).
    destruct (Z.eqb_spec r 0) as [Hz|]; [|by apply runs_ret; exists l1, (used_by x ++ U)]. destruct (Hr1 Hz) as [Hid1 Hb1].
    eapply runs_weaken; [by eapply IH|]. cbv beta. intros r' s2 (l2 & U2 & Hm2 & Hl2 & Hr2). exists l2, U2. split; [done|].
    split. { eapply leaves_trans; [exact Hl1|]. destruct Hl2 as [Hg Hl2]. split; [done|]. intros d E. destruct (Hl2 d E) as (d' & E' & Hn & Hb).
      exists d'. split; [done|]. split; [done|]. intros j Hj. apply Hb, elem_of_app. by right. }
    intros Hz'. destruct (Hr2 Hz') as [Hid2 Hb2]. split.
    { rewrite Hid2, Hid1, <- app_assoc. f_equal. unfold cap_ids. cbn. by destruct (match x with AddCap c => nthZ c 0 | _ => None end). }
    intros w i hb type size Hin. apply elem_of_cons in Hin as [<-|Hin]; [|by eapply Hb2].
    apply (bar_given_kept k i type size (used_by (AllocBar w i hb type size) ++ U) s1); [apply elem_of_app; left; apply takes_self|done|]. eapply Hb1. by apply list_elem_of_singleton.
Qed.

Lemma fresh_made k s d v : mmio_ok s -> pools_ok k (clients s) -> vdev_ok [] d -> unused [] d -> line_of d (gsis (irqs (clients s))) = v ->
  made k [] [] v s (put k d s).
Proof.
  intros Hm Hp Hd Hu Hv. split; [|by apply (pools_same k (clients s))]. split; [by apply mmio_ok_clients|]. split.
  - split; [|done]. intros k' Hne. unfold put. cbn. by rewrite lookup_insert_ne.
  - exists d. split; [apply put_dev|done].
Qed.

Lemma command_made k l U v s0 s val : made k l U v s0 s -> runs (set_cfg 1 k PCIR_COMMAND val) s (fun _ s' => made k l U v s0 s').
Proof.
  intros Hm. destruct (made_dev _ _ _ _ _ _ Hm) as (d & E & Hd & Hu). pose proof (vo_cfg _ _ Hd) as Hc.
  assert (Ha : aligned 1 PCIR_COMMAND) by by apply byte_aligned. apply (runs_set_cfg 1 k PCIR_COMMAND val s d); [done|done|done|].
  eapply made_put; [exact Hm|exact E| |exact Hu|].
  - apply vdev_ok_command; try done. unfold CAPPRESENT_BIT, PCIR_STATUS, PCIR_COMMAND. lia.
  - unfold line_of. cbn. by rewrite cbit_store.
Qed.

Lemma runs_ext {A} (m m' : @B P A) s Q : m s = m' s -> runs m' s Q -> runs m s Q.
Proof. unfold runs. by intros ->. Qed.

(** The machine is in order, with [k] and its capabilities or as before. *)
Definition with_caps (caps : Z -> list cap) k l : Z -> list cap := fun k' => if k' =? k then l else caps k'.

(** What [pci_emul_init] does around [vdev_init]. *)
Lemma emul_init_run (caps : Z -> list cap) k err xs s : machine_ok caps s -> k ∉ fi_devi (clients s) -> pools_ok k (clients s) ->
  err <> 0 -> is_pt_pci dev_ops k = false -> steps_ok [] xs -> (forall s, vdev_init (dev_ops k) k s = run_steps k err xs s) ->
  runs (pci_emul_init dev_ops malloc k) s (fun r s' =>
    (forall k', k' ∈ fi_devi (clients s) -> devs (clients s') !! k' = devs (clients s) !! k') /\
    if r =? 0 then fi_devi (clients s') = {[k]} ∪ fi_devi (clients s) /\ bars_given k xs s' /\
      exists l, map snd l = cap_ids xs /\ machine_ok (with_caps caps k l) s'
    else fi_devi (clients s') = fi_devi (clients s) /\ machine_ok caps s').
Proof.
  intros [Hm Hd] Hk Hp He Hpt Hxs Hinit.
  apply runs_bind, runs_bind, runs_get, runs_ret. apply runs_bind, runs_modify. set (s1 := s <| clients ::= _ |>).
  assert (Hm1 : mmio_ok s1) by by apply mmio_ok_clients. assert (Hp1 : pools_ok k (clients s1)) by by apply (pools_same k (clients s)).
  destruct (malloc (mallocs (clients s))); cbn [negb]; [|by apply runs_ret].
  destruct (zero_vdev_ok (device_name (class_name (dev_ops k)) (slot_no k))) as [Hz Hu]. set (d := zero_vdev _) in *.
  apply runs_bind, runs_set_dev. pose proof (fresh_made k s1 d _ Hm1 Hp1 Hz Hu eq_refl) as H0. set (v := line_of d _) in H0.
  apply runs_bind. eapply runs_weaken; [eapply (set_cfg_made 1); [exact H0|by apply byte_aligned|split; [right; right; vm_compute; done|split; [by right|constructor]]]|].
  cbv beta. intros _ s2 [H2 _]. apply runs_bind. eapply runs_weaken; [eapply (set_cfg_made 1); [exact H2|by apply byte_aligned|split; [right; right; vm_compute; done|split; [by right|constructor]]]|].
  cbv beta. intros _ s3 [H3 _]. apply runs_bind. eapply runs_weaken; [by eapply command_made|]. cbv beta. intros _ s4 H4.
  apply runs_bind. apply (runs_ext _ (run_steps k err xs)); [apply Hinit|].
  eapply runs_weaken; [by apply (run_steps_made k err xs He Hpt [] [] v s1 s4)|]. cbv beta. intros r s5 (l & U & ((Hm5 & (F1 & F2 & _) & d5 & E5 & [Hd5 _] & _) & _) & _ & Hr).
  assert (Hold : forall k', k' ∈ fi_devi (clients s) -> k' <> k /\ devs (clients s5) !! k' = devs (clients s) !! k').
  { intros k' Hk'. assert (Hne : k' <> k) by (intros ->; done). split; [done|]. by rewrite F1. }
  destruct (Z.eqb_spec r 0) as [-> |Hne].
  - apply runs_bind, runs_modify, runs_ret. destruct (Hr eq_refl) as [Hids Hbars]. cbn [Z.eqb]. split; [by intros k' Hk'; destruct (Hold k' Hk')|]. split; [cbn; by rewrite F2|]. split; [exact Hbars|].
    exists l. split; [done|]. split; [by apply mmio_ok_clients|]. intros k' Hk'. cbn in Hk'. rewrite F2 in Hk'. unfold with_caps.
    apply elem_of_union in Hk' as [->%elem_of_singleton|Hk']; [rewrite Z.eqb_refl; by exists d5|].
    destruct (Hold k' Hk') as [Hne Eo]. rewrite (proj2 (Z.eqb_neq k' k)) by done. destruct (Hd k' Hk') as (d' & E' & Hd'). exists d'. split; [by rewrite <- E'|done].
  - apply runs_bind, runs_modify, runs_ret. rewrite (proj2 (Z.eqb_neq r 0)) by done.
    split; [intros k' Hk'; destruct (Hold k' Hk') as [Hne' Eo]; cbn; by rewrite lookup_delete_ne|]. split; [cbn; by rewrite F2|]. split; [by apply mmio_ok_clients|].
    intros k' Hk'. cbn in Hk'. rewrite F2 in Hk'. destruct (Hold k' Hk') as [Hne' Eo]. destruct (Hd k' Hk') as (d' & E' & Hd'). exists d'. split; [|done].
    cbn. rewrite lookup_delete_ne by done. by rewrite Eo.
Qed.

(** C37. Making a device.  Let [vdev_init] do steps of the kinds above, in any number and order: registers
    set, capabilities added, BARs allocated (of ports, of 32 or of 64 bits, of at most 2^60 bytes, not
    two in one place; the pools and the reserved regions end below 2^61, and the device is not one
    that is passed through, whose BARs are never registered), and let it give up at the first that fails.  At a free place of a machine in order
    [pci_emul_init] then returns.  With the result 0 the device is linked and the machine is in
    order with it: its list holds the capabilities that were added, in order, and every BAR
    is there with the type and a size that were asked for, mirrored in its register,
    aligned, and registered, its ports or its range of emulated memory being those of this
    device (so they are apart from all others).  With another result nothing is linked, and the
    devices that were there are as they were.  (BARs that were registered by then stay registered
    for the device that is freed: [PciDummy.Demo.refused_stays].) *)
Theorem init_makes_device (caps : Z -> list cap) k err xs s : machine_ok caps s -> k ∉ fi_devi (clients s) -> pools_ok k (clients s) ->
  err <> 0 -> is_pt_pci dev_ops k = false -> steps_ok [] xs -> (forall s, vdev_init (dev_ops k) k s = run_steps k err xs s) ->
  exists r s', pci_emul_init dev_ops malloc k s = Ret (r, s') /\
    (forall k', k' ∈ fi_devi (clients s) -> devs (clients s') !! k' = devs (clients s) !! k') /\
    if r =? 0 then fi_devi (clients s') = {[k]} ∪ fi_devi (clients s) /\ bars_given k xs s' /\
      exists l, map snd l = cap_ids xs /\ machine_ok (with_caps caps k l) s'
    else fi_devi (clients s') = fi_devi (clients s) /\ machine_ok caps s'.
Proof.
  intros H1 H2 H3 H4 H5 H6 H7. destruct (runs_returns _ _ _ (emul_init_run caps k err xs s H1 H2 H3 H4 H5 H6 H7)) as (r & s' & E & H). by exists r, s'.
Qed.
End Init.
Arguments init_step : clear implicits.
