(* ===== verification/PciDummy.v ===== *)
(** * The test device, and a machine with it

    The device of class "dummy" at the end of [src/devicemodel/hw/pci/core.c]: eight bytes of ports and two
    pages of registers, with four messages.  What is written to a page is read back
    through the handler of emulated memory; four bytes written to the ports end the
    program.  A machine with this device at 0:2.0 is where the theorems on the PCI core
    are applied. *)
From S2P Require Import Prelude RbTree RbTreeSpec Mmio MmioSpec Inout PciConfig PciIrq PciCore PciCfg PciCoreSpec PciGuest PciBar PciAccess PciMove PciInit.

Definition DIOSZ := 8.
Definition DMEMSZ := 4096.
Definition PCI_EMUL_MSI_MSGS := 4.

Record pci_emul_dummy := mkDummy { ioregs : list Z; memregs : list (list Z) }.
#[export] Instance dummy_eta : Settable pci_emul_dummy := fun d => mkDummy (ioregs d) (memregs d).
Definition zero_dummy : pci_emul_dummy := mkDummy (replicate 8 0) (replicate 2 (replicate 4096 0)).

Section Dummy.
Context (dev_ops : Z -> vdev_ops (gmap Z pci_emul_dummy)) (malloc : nat -> bool).
Notation P := (gmap Z pci_emul_dummy).

(** The result of the first step that fails, or 0. *)
Fixpoint all_zero (l : list (@B P Z)) : B Z :=
  match l with [] => mret 0 | m :: l => r ← m; if r =? 0 then all_zero l else mret 1 end.

Definition pci_emul_dinit (k : Z) : @B P Z :=
  p ← the_pci;
  _ ← on_pci (fun p => p <| mallocs ::= S |>);
  _ ← when (malloc (mallocs p)) (on_pci (fun p => p <| private ::= <[k := zero_dummy]> |>));
  _ ← set_cfg 2 k PCIR_DEVICE 0x0001;
  _ ← set_cfg 2 k PCIR_VENDOR 0x10DD;
  _ ← set_cfg 1 k PCIR_CLASS 0x02;
  all_zero [pci_emul_add_msicap k PCI_EMUL_MSI_MSGS;
            pci_emul_alloc_bar dev_ops malloc false k 0 PCIBAR_IO DIOSZ;
            pci_emul_alloc_bar dev_ops malloc false k 1 PCIBAR_MEM32 DMEMSZ;
            pci_emul_alloc_bar dev_ops malloc false k 2 PCIBAR_MEM32 DMEMSZ].

Definition the_dummy (k : Z) : M (pci P) pci_emul_dummy :=
  p ← get; match private p !! k with Some d => mret d | None => halt NullDeref end.
Definition on_dummy (k : Z) (f : pci_emul_dummy -> pci_emul_dummy) : M (pci P) unit :=
  d ← the_dummy k; modify (fun p => p <| private ::= <[k := f d]> |>).

(** What works on the devices only, among the operations of the machine. *)
Definition on_devices {A} (m : @B P A) : M (pci P) A := fun p =>
  match m (init_mem p) with Ret (a, s) => Ret (a, clients s) | Stop e => Stop e end.

(** An access at [offset] of an array that holds [size] bytes from there on. *)
Definition inside {A} (l : list Z) (offset size : Z) (m : M (pci P) A) : M (pci P) A :=
  if (0 <=? offset) && (offset + size <=? Z.of_nat (length l)) then m else halt OobAccess.
Definition load (l : list Z) (offset size : Z) : Z := le_decode (take (Z.to_nat size) (drop (Z.to_nat offset) l)).
Definition stored (l : list Z) (offset size value : Z) : list Z := splice l (Z.to_nat offset) (le_encode (Z.to_nat size) value).

(** Four bytes are stored at the offset as an address. *)
Definition write_ioregs (k offset size value : Z) : M (pci P) unit :=
  d ← the_dummy k;
  if (size =? 1) || (size =? 2) then
    inside (ioregs d) offset size (on_dummy k (fun d => d <| ioregs := stored (ioregs d) offset size value |>))
  else if size =? 4 then halt OobAccess
  else mret tt.

Definition diow_io (k offset size value : Z) : M (pci P) unit :=
  if DIOSZ <? u64 (offset + size) then mret tt
  else
    _ ← write_ioregs k offset size value;
    p ← get;
    match devs p !! k with
    | None => halt UseAfterFree
    | Some d =>
      _ ← when ((offset =? 4) && (size =? 4) && msi_on (d_msi d))
            (let n := pci_msi_maxmsgnum d in
             if n =? 0 then halt DivByZero else on_devices (pci_generate_msi k (s32 (value mod n))));
      when (value =? 0xabcdef) (on_devices (each (upto (pci_msi_maxmsgnum d)) (pci_generate_msi k)))
    end.

Definition diow_mem (k i offset size value : Z) : M (pci P) unit :=
  if DMEMSZ <? u64 (offset + size) then mret tt
  else
    d ← the_dummy k;
    match nthZ (memregs d) i with
    | None => halt OobAccess
    | Some page =>
      if (size =? 1) || (size =? 2) || (size =? 4) || (size =? 8) then
        inside page offset size (on_dummy k (fun d => d <| memregs ::= fun l => setZ l i (stored page offset size value) |>))
      else mret tt
    end.

Definition pci_emul_diow (k baridx offset size value : Z) : M (pci P) unit :=
  if baridx =? 0 then diow_io k offset size value
  else if (baridx =? 1) || (baridx =? 2) then diow_mem k (baridx - 1) offset size value
  else mret tt.

Definition pci_emul_dior (k baridx offset size : Z) : M (pci P) Z :=
  d ← the_dummy k;
  if baridx =? 0 then
    if DIOSZ <? u64 (offset + size) then mret 0
    else if (size =? 1) || (size =? 2) || (size =? 4) then inside (ioregs d) offset size (mret (load (ioregs d) offset size))
    else mret 0
  else if (baridx =? 1) || (baridx =? 2) then
    if DMEMSZ <? u64 (offset + size) then mret 0
    else
      match nthZ (memregs d) (baridx - 1) with
      | None => halt OobAccess
      | Some page =>
        if (size =? 1) || (size =? 2) || (size =? 4) || (size =? 8) then inside page offset size (mret (u32 (load page offset size)))
        else mret 0
      end
  else mret 0.

Definition pci_dummy : vdev_ops P := mkOps "dummy" pci_emul_dinit None None None pci_emul_diow pci_emul_dior.
End Dummy.

(** ** The pages *)

Record pages_ok (d : pci_emul_dummy) : Prop := {
  pg_two : length (memregs d) = 2%nat;
  pg_page i page : nthZ (memregs d) i = Some page -> length page = 4096%nat /\ bytes_ok page
}.

Lemma load_stored l off n v : 0 <= off -> 0 <= n -> off + n <= Z.of_nat (length l) -> load (stored l off n v) off n = wrap (8 * n) v.
Proof.
  intros Ho Hn Hl. unfold load, stored. pose proof (splice_same l (Z.to_nat off) (le_encode (Z.to_nat n) v)) as H. rewrite length_le_encode in H.
  rewrite H by lia. rewrite le_decode_encode. f_equal. lia.
Qed.
Lemma load_apart l off n v off' n' : 0 <= off -> 0 <= n -> off + n <= Z.of_nat (length l) -> 0 <= off' -> 0 <= n' -> off' + n' <= off \/ off + n <= off' ->
  load (stored l off n v) off' n' = load l off' n'.
Proof.
  intros Ho Hn Hl Ho' Hn' Ha. unfold load, stored. f_equal. apply splice_apart; rewrite length_le_encode; lia.
Qed.
Lemma load_bound l off n : bytes_ok l -> 0 <= n <= 4 -> 0 <= load l off n < 2 ^ 32.
Proof.
  intros Hl Hn. unfold load. assert (Hb : bytes_ok (take (Z.to_nat n) (drop (Z.to_nat off) l))) by (by apply Forall_take, Forall_drop).
  pose proof (le_decode_bound _ Hb) as H.
  split; [lia|]. eapply Z.lt_le_trans; [apply H|]. apply Z.pow_le_mono_r; [lia|]. rewrite length_take. lia.
Qed.

Section Pages.
Context (dev_ops : Z -> vdev_ops (gmap Z pci_emul_dummy)) (malloc : nat -> bool).
Notation P := (gmap Z pci_emul_dummy).
Implicit Types (p : pci P) (d : pci_emul_dummy).

Definition put_page k i page d p : pci P := p <| private ::= <[k := d <| memregs ::= fun l => setZ l i page |>]> |>.

(** The sizes of one access of the handler. *)
Definition access_size (size : Z) : Prop := size = 1 \/ size = 2 \/ size = 4.
Definition in_page (i off size : Z) : Prop := (i = 1 \/ i = 2) /\ access_size size /\ 0 <= off /\ off + size <= DMEMSZ.

Lemma fits_page off size : access_size size -> 0 <= off -> off + size <= DMEMSZ -> (DMEMSZ <? u64 (off + size)) = false.
Proof. unfold access_size, DMEMSZ, u64, wrap. intros Hs H0 H. rewrite Z.mod_small by lia. apply Z.ltb_ge. lia. Qed.
Lemma size_known size : access_size size -> (size =? 1) || (size =? 2) || (size =? 4) || (size =? 8) = true.
Proof. by intros [-> | [-> | ->]]. Qed.

Lemma value_masked size v : access_size size -> bar_value size v = Ret (wrap (8 * size) v).
Proof.
  intros Hs. assert (Hn : 0 <= 8 * size /\ (size <? 8) = true) by (destruct Hs as [-> | [-> | ->]]; done). destruct Hn as [Hn Hlt].
  unfold bar_value. rewrite (size_known size Hs), Hlt. cbn [assert_or]. rewrite wrap_land, Z.ones_equiv, Z.mul_comm by done. done.
Qed.

Lemma page_at d i : pages_ok d -> i = 1 \/ i = 2 -> exists page, nthZ (memregs d) (i - 1) = Some page /\ length page = 4096%nat /\ bytes_ok page.
Proof.
  intros [H2 Hp] Hi. destruct (memregs d) as [|p0 [|p1 [|]]] eqn:E; try done.
  destruct Hi as [-> | ->]; [exists p0|exists p1]; (split; [done|]); [by apply (Hp 0)|by apply (Hp 1)].
Qed.

Lemma inside_true {A} l off size (m : M (pci P) A) : 0 <= off -> off + size <= Z.of_nat (length l) -> inside l off size m = m.
Proof. intros H0 H. unfold inside. by rewrite (proj2 (Z.leb_le _ _) H0), (proj2 (Z.leb_le _ _) H). Qed.

Lemma diow_page k i off size v p d page : private p !! k = Some d -> in_page i off size -> nthZ (memregs d) (i - 1) = Some page -> length page = 4096%nat ->
  pci_emul_diow k i off size v p = Ret (tt, put_page k (i - 1) (stored page off size v) d p).
Proof.
  intros E (Hi & Hs & H0 & Hoff) Hp Hl. assert (E' : pci_emul_diow k i off size v = diow_mem k (i - 1) off size v) by (by destruct Hi as [-> | ->]).
  rewrite E'. unfold diow_mem. rewrite fits_page by done. unfold the_dummy at 1. cbv [mbind M_bind get mret M_ret]. rewrite E. cbv beta iota.
  rewrite Hp, (size_known size Hs), inside_true by (done || (unfold DMEMSZ in *; lia)). unfold on_dummy, the_dummy. cbv [mbind M_bind get mret M_ret]. by rewrite E.
Qed.
Lemma dior_page k i off size p d page : private p !! k = Some d -> in_page i off size -> nthZ (memregs d) (i - 1) = Some page -> length page = 4096%nat -> bytes_ok page ->
  pci_emul_dior k i off size p = Ret (load page off size, p).
Proof.
  intros E (Hi & Hs & H0 & Hoff) Hp Hl Hb. unfold pci_emul_dior, the_dummy. cbv [mbind M_bind get mret M_ret]. rewrite E. cbv beta iota.
  assert (Hi0 : (i =? 0) = false /\ (i =? 1) || (i =? 2) = true) by (by destruct Hi as [-> | ->]). destruct Hi0 as [-> ->]. rewrite fits_page, Hp by done.
  rewrite (size_known size Hs), inside_true by (done || (unfold DMEMSZ in *; lia)). unfold u32, wrap. rewrite Z.mod_small; [done|].
  apply load_bound; [done|]. destruct Hs as [-> | [-> | ->]]; lia.
Qed.

(** The device at [k], with a page decoded as BAR [i]. *)
Record dummy_bar k i p b d : Prop := {
  db_write : vdev_barwrite (dev_ops k) = pci_emul_diow; db_read : vdev_barread (dev_ops k) = pci_emul_dior;
  db_index : i = 1 \/ i = 2;
  db_there : exists v, devs p !! k = Some v /\ nthZ (bar v) i = Some b;
  db_type : b_type b = PCIBAR_MEM32; db_ok : bar_ok b; db_size : b_size b = DMEMSZ;
  db_private : private p !! k = Some d; db_pages : pages_ok d
}.
Definition in_bar b (x size : Z) : Prop := access_size size /\ b_addr b <= x /\ x + size <= b_addr b + b_size b.

Lemma read_page k i p b d page x size u : dummy_bar k i p b d -> nthZ (memregs d) (i - 1) = Some page -> in_bar b x size ->
  pci_emul_mem_handler dev_ops MEM_F_READ x size u k i p = Ret ((0, load page (x - b_addr b) size), p).
Proof.
  intros [Hw Hr Hi (v & E & Hb) Ht Hok Hz Hp Hpg] Hpage (Hs & Hx & Hx2). rewrite (handler_read dev_ops k i b p v) by (done || lia || (by left) || by apply mem32_ends). unfold barread. rewrite Hr.
  destruct (page_at d i Hpg Hi) as (page' & Hp' & Hl & Hby). rewrite Hpage in Hp'. injection Hp' as <-.
  unfold mbind at 1, M_bind. rewrite (dior_page k i (x - b_addr b) size p d page) by (done || (split_and!; try done; lia)).
  pose proof (le_decode_bound _ (Forall_take _ (Z.to_nat size) _ (Forall_drop _ (Z.to_nat (x - b_addr b)) _ Hby))) as Hd.
  fold (load page (x - b_addr b) size) in Hd. set (w := load page _ size) in *.
  assert (Hw2 : 0 <= w < 2 ^ (size * 8)).
  { split; [apply Hd|]. eapply Z.lt_le_trans; [apply Hd|]. apply Z.pow_le_mono_r; [lia|]. rewrite length_take. unfold access_size in Hs. lia. }
  unfold lift. cbv [mbind M_bind]. rewrite (value_masked size w Hs). unfold wrap. rewrite Z.mod_small by (rewrite Z.mul_comm; done). done.
Qed.

(** A page gives back what was written last: a write through the handler changes the bytes it
    covers and no other, of either page. *)
Theorem dummy_memory k i p b d x size v : dummy_bar k i p b d -> in_bar b x size ->
  exists d' p', pci_emul_mem_handler dev_ops MEM_F_WRITE x size v k i p = Ret ((0, v), p') /\ dummy_bar k i p' b d' /\
    (forall u, pci_emul_mem_handler dev_ops MEM_F_READ x size u k i p' = Ret ((0, wrap (8 * size) v), p')) /\
    (forall x' size' u, in_bar b x' size' -> x' + size' <= x \/ x + size <= x' -> exists w,
       pci_emul_mem_handler dev_ops MEM_F_READ x' size' u k i p = Ret ((0, w), p) /\
       pci_emul_mem_handler dev_ops MEM_F_READ x' size' u k i p' = Ret ((0, w), p')) /\
    nthZ (memregs d') (2 - i) = nthZ (memregs d) (2 - i).
Proof.
  intros Hd Hin. pose proof Hd as [Hw Hr Hi (vd & E & Hb) Ht Hok Hz Hp Hpg]. pose proof Hin as (Hs & Hx & Hx2).
  destruct (page_at d i Hpg Hi) as (page & Hpage & Hl & Hby). set (off := x - b_addr b). set (w := wrap (8 * size) v).
  assert (Hip : in_page i off size) by (split_and!; [done|done|lia|lia]).
  set (page' := stored page off size w). set (d' := d <| memregs ::= fun l => setZ l (i - 1) page' |>).
  assert (Hpage' : nthZ (memregs d') (i - 1) = Some page') by (by apply (nthZ_setZ_eq _ _ page)).
  assert (Hl' : length page' = 4096%nat /\ bytes_ok page').
  { unfold page', stored. split; [rewrite length_splice; rewrite ?length_le_encode, ?Hl; [done|unfold access_size, DMEMSZ in *; lia]|].
    unfold splice. apply Forall_app_2; [by apply Forall_take|]. apply Forall_app_2; [apply le_encode_bytes_ok|by apply Forall_drop]. }
  assert (Hd' : dummy_bar k i (put_page k (i - 1) page' d p) b d').
  { split; try done; [by exists vd|by apply lookup_insert_eq|]. split; [unfold d'; cbn; rewrite length_setZ; apply Hpg|].
    intros j pg. unfold d'. cbn. destruct (Z.eq_dec j (i - 1)) as [-> |Hne]; [rewrite (nthZ_setZ_eq _ _ page) by done; by intros [= <-]|].
    rewrite nthZ_setZ_ne by done. apply Hpg. }
  exists d', (put_page k (i - 1) page' d p). split_and!; [|done| | |].
  - rewrite (handler_write dev_ops k i b p vd) by (exact Hs || done || lia || (by left) || by apply mem32_ends). unfold lift, barwrite. rewrite (value_masked size v Hs). cbv [mbind M_bind mret M_ret]. cbv beta iota. fold off w.
    rewrite Hw. rewrite (diow_page k i off size w p d page) by done. done.
  - intros u. rewrite (read_page k i _ b d' page') by done. unfold page'. rewrite load_stored by (unfold access_size, DMEMSZ in *; lia).
    unfold w. rewrite wrap_wrap; [done|unfold access_size in Hs; lia].
  - intros x' size' u Hin' Ha. exists (load page (x' - b_addr b) size'). split; [by apply (read_page k i p b d page)|].
    rewrite (read_page k i _ b d' page') by done. destruct Hin' as (Hs' & Hx' & _). unfold page'.
    rewrite load_apart by (unfold access_size, DMEMSZ in *; lia). done.
  - unfold d'. cbn. destruct Hi as [-> | ->]; by rewrite nthZ_setZ_ne.
Qed.

(** Four bytes written to the ports end the program. *)
Theorem dummy_port_write k v off p d : private p !! k = Some d -> 0 <= off <= 4 -> pci_emul_diow k 0 off 4 v p = Stop OobAccess.
Proof.
  intros E Ho. unfold pci_emul_diow. change (0 =? 0) with true. cbv iota. unfold diow_io. unfold DIOSZ, u64, wrap. rewrite Z.mod_small by lia.
  rewrite (proj2 (Z.ltb_ge 8 (off + 4))) by lia. unfold write_ioregs, the_dummy. cbv [mbind M_bind get mret M_ret]. by rewrite E.
Qed.
End Pages.

(** ** The device as it is made *)

Definition dummy_caps : list cap := [(CAP_START_OFFSET, PCIY_MSI)].
Definition dummy_msicap : list Z := default [] (pci_populate_msicap PCI_EMUL_MSI_MSGS 0).
Lemma dummy_capdata : capdata_ok PCIY_MSI dummy_msicap.
Proof. split; [vm_compute; lia|repeat apply Forall_cons_2; (by apply Forall_nil_2) || (by split)|reflexivity|done]. Qed.

Section Making.
Context (dev_ops : Z -> vdev_ops (gmap Z pci_emul_dummy)) (malloc : nat -> bool).
Notation P := (gmap Z pci_emul_dummy).

Lemma all_zero_cons m (ms : list (@B P Z)) : all_zero (m :: ms) = (r ← m; if r =? 0 then all_zero ms else mret 1).
Proof. done. Qed.

(** Its initialisation as steps. *)
Definition dummy_private k (p : pci P) : pci P :=
  let p1 := p <| mallocs ::= S |> in if malloc (mallocs p) then p1 <| private ::= <[k := zero_dummy]> |> else p1.
Definition dummy_steps k : list (init_step P) :=
  [Private (dummy_private k); SetCfg 2 PCIR_DEVICE 0x0001; SetCfg 2 PCIR_VENDOR 0x10DD; SetCfg 1 PCIR_CLASS 0x02;
   AddCap dummy_msicap; AllocBar false 0 0 PCIBAR_IO DIOSZ; AllocBar false 1 0 PCIBAR_MEM32 DMEMSZ; AllocBar false 2 0 PCIBAR_MEM32 DMEMSZ].

Lemma run_steps_cons k err x xs (s s' : machine P) : run_step dev_ops malloc k x s = Ret (0, s') ->
  run_steps dev_ops malloc k err (x :: xs) s = run_steps dev_ops malloc k err xs s'.
Proof. cbn [run_steps]. unfold mbind, M_bind. by intros ->. Qed.
Lemma set_step k err n off val xs (s : machine P) : run_steps dev_ops malloc k err (SetCfg n off val :: xs) s = (_ ← set_cfg n k off val; run_steps dev_ops malloc k err xs) s.
Proof. cbn [run_steps run_step]. unfold mbind, M_bind. by destruct (set_cfg n k off val s) as [[]|]. Qed.

Lemma dinit_steps k (s : machine P) : pci_emul_dinit dev_ops malloc k s = run_steps dev_ops malloc k 1 (dummy_steps k) s.
Proof.
  unfold dummy_steps. rewrite (run_steps_cons k 1 (Private (dummy_private k)) _ s (s <| clients ::= dummy_private k |>)) by done.
  transitivity ((_ ← set_cfg 2 k PCIR_DEVICE 0x0001; _ ← set_cfg 2 k PCIR_VENDOR 0x10DD; _ ← set_cfg 1 k PCIR_CLASS 0x02;
      all_zero [pci_emul_add_msicap k PCI_EMUL_MSI_MSGS; pci_emul_alloc_bar dev_ops malloc false k 0 PCIBAR_IO DIOSZ;
        pci_emul_alloc_bar dev_ops malloc false k 1 PCIBAR_MEM32 DMEMSZ; pci_emul_alloc_bar dev_ops malloc false k 2 PCIBAR_MEM32 DMEMSZ])
      (s <| clients ::= dummy_private k |>)).
  { destruct s as [r f h al n c]. match goal with |- _ = _ (?x <| clients ::= ?g |>) => set (s1 := x <| clients ::= g |>) end.
    assert (E1 : s1 = mkMmio r f h al n (dummy_private k c)) by done. rewrite E1. unfold pci_emul_dinit, dummy_private, the_pci, on_pci, modify.
    cbv [mbind M_bind get mret M_ret]. cbn [clients mallocs]. by destruct (malloc (mallocs c)). }
  set (s1 := s <| clients ::= _ |>). rewrite set_step. unfold mbind, M_bind. destruct (set_cfg 2 k PCIR_DEVICE 1 s1) as [[_ s2]|]; [|done].
  rewrite set_step. unfold mbind, M_bind. destruct (set_cfg 2 k PCIR_VENDOR _ s2) as [[_ s3]|]; [|done].
  rewrite set_step. unfold mbind, M_bind. destruct (set_cfg 1 k PCIR_CLASS _ s3) as [[_ s4]|]; [|done].
  rewrite all_zero_cons. unfold pci_emul_add_msicap. change (pci_populate_msicap PCI_EMUL_MSI_MSGS 0) with (Some dummy_msicap). cbn [run_steps run_step].
  unfold mbind, M_bind, mret, M_ret. destruct (pci_emul_add_capability k dummy_msicap s4) as [[r s5]|]; [|done]. by destruct (r =? 0).
Qed.

Lemma dummy_steps_ok k : steps_ok [] (dummy_steps k).
Proof.
  assert (A : forall n off, n = 1%nat \/ n = 2%nat -> 0 <= off -> off mod Z.of_nat n = 0 -> off + Z.of_nat n <= 4 \/ 8 <= off /\ off + Z.of_nat n <= 16 ->
    aligned n off /\ spare n off [] /\ off + Z.of_nat n <= CAP_START_OFFSET).
  { intros n off Hn H0 Hm Ho. assert (Hle : Z.of_nat n <= 2) by (destruct Hn as [-> | ->]; done). split; [|split; [split; [tauto|]; split; [lia|constructor]|unfold CAP_START_OFFSET; lia]].
    split; [destruct Hn as [-> | ->]; tauto|]. split; [done|]. split; [lia|done]. }
  assert (B : forall i type size U, type <> PCIBAR_MEM64 -> allocated_type type -> 0 <= i < 6 -> 0 < size <= 2 ^ 60 -> i ∉ U ->
    step_ok U (AllocBar (P := P) false i 0 type size)).
  { intros i type size U Hne Ht Hi Hs HU. split; [done|]. split; [done|]. split; [done|]. split; [by split|]. split; [done|]. by intros. }
  split. { intros p. unfold dummy_private, harmless_pci. by destruct (malloc (mallocs p)). }
  do 3 (split; [apply A; unfold PCIR_DEVICE, PCIR_VENDOR, PCIR_CLASS; first [lia|done]|]).
  split; [by exists PCIY_MSI; apply dummy_capdata|].
  do 3 (split; [apply B; unfold DIOSZ, DMEMSZ; first [done|lia|by left|by right; left|set_solver]|]). done.
Qed.
End Making.

(** ** A machine *)

Module Demo.
Notation P := (gmap Z pci_emul_dummy).
Definition malloc (n : nat) := true.
(** Registration looks at the name of the class only. *)
Definition dummy_class : vdev_ops P := mkOps "dummy" (fun _ => mret 0) None None None pci_emul_diow pci_emul_dior.
Definition dev_ops : Z -> vdev_ops P := fun _ => pci_dummy (fun _ => dummy_class) malloc.

Definition empty_pci : pci P :=
  mkPci ∅ ∅ {[0]} ∅ (fun _ => slot_of (default_port 0 MAX_IOPORTS)) PCI_EMUL_IOBASE PCI_EMUL_MEMBASE32 PCI_EMUL_MEMBASE64 [] (ioapic_init (pci_irq_init zero_router)) [] 0 ∅.
Definition k := bdf 0 2 0.
Definition started : outcome (unit * machine P) :=
  (r ← pci_emul_init dev_ops malloc k; _ ← lift (assert_or ProcessExit (r =? 0)); _ ← pci_lintr_request k; pci_lintr_route k) (init_mem empty_pci).
Definition demo : machine P := match started with Ret (_, s) => s | Stop _ => init_mem empty_pci end.
Definition dev0 : pci_vdev := default (zero_vdev "none") (devs (clients demo) !! k).

Lemma starts : exists u, started = Ret (u, demo).
Proof. exists tt. vm_compute. reflexivity. Qed.

(** The two pages are what is registered in emulated memory. *)
Definition page (i base : Z) : mem_range := bar_range k i dev0 (mkBar PCIBAR_MEM32 DMEMSZ base false).
Definition pages : list mem_range := [page 1 0x80000000; page 2 0x80001000].
Definition registrations : list operation := [Register Root true (page 1 0x80000000); Register Root true (page 2 0x80001000)].

Lemma demo_mmio : mmio_ok demo.
Proof.
  destruct (history_ok (fun _ _ _ _ _ _ _ c => (0, 0, c)) (clients demo) registrations) as (s & E & H).
  - apply Forall_cons_2; [|apply Forall_cons_2; [|by apply Forall_nil_2]]; by vm_compute.
  - assert (Es : perform_all (fun _ _ _ _ _ _ _ c => (0, 0, c)) registrations (init_mem (clients demo)) = Ret (tt, demo)) by (vm_compute; reflexivity).
    congruence.
Qed.

(** ** Its hypotheses *)

Lemma checked (f g : Z -> bool) (a n : Z) : forallb (fun j => Bool.eqb (f j) (g j)) (seqZ a n) = true -> forall j, a <= j < a + n -> f j = g j.
Proof. rewrite forallb_forall. intros H j Hj. apply Bool.eqb_prop, H, list_elem_of_In, elem_of_seqZ. lia. Qed.
Lemma low_clear_mod n a : 0 <= n -> a mod 2 ^ n = 0 -> low_clear n a.
Proof. intros Hn Ha j Hj. rewrite <- (Z.mod_pow2_bits_low a n j) by lia. by rewrite Ha, Z.bits_0. Qed.
Lemma a_bar n lo w b : lo <= n <= w -> 0 <= lo -> b_size b = 2 ^ n -> fits w (b_addr b) -> b_addr b mod 2 ^ n = 0 -> bar_in lo w b.
Proof. intros Hn H0 Hs Hf Hm. exists n. split_and!; try done; try lia. apply low_clear_mod; [lia|done]. Qed.

Definition demo_caps (_ : Z) : list cap := [(CAP_START_OFFSET, PCIY_MSI)].

Lemma demo_bars i b : 0 <= i < 6 -> nthZ (bar dev0) i = Some b -> bar_ok b /\ mirrored (cfgdata dev0) (bar dev0) i b.
Proof.
  intros Hi Hb. assert (Hc : i = 0 \/ i = 1 \/ i = 2 \/ i = 3 \/ i = 4 \/ i = 5) by lia.
  destruct Hc as [-> | [-> | [-> | [-> | [-> | ->]]]]]; vm_compute in Hb; injection Hb as <-; try done.
  - split; [by apply (a_bar 3)|]. split; [by vm_compute|]. split; [by vm_compute|]. apply (checked _ _ 2 30). by vm_compute.
  - split; [by apply (a_bar 12)|]. split; [by vm_compute|]. apply (checked _ _ 4 28). by vm_compute.
  - split; [by apply (a_bar 12)|]. split; [by vm_compute|]. apply (checked _ _ 4 28). by vm_compute.
Qed.
Lemma demo_dev : vdev_ok (demo_caps k) dev0.
Proof.
  split; [|by vm_compute|exact demo_bars| |by vm_compute].
  - split; [by vm_compute|]. unfold bytes_ok. apply Forall_forall. intros x Hx.
    assert (H : forallb (fun x => (0 <=? x) && (x <? 256)) (cfgdata dev0) = true) by (by vm_compute). rewrite forallb_forall in H.
    apply list_elem_of_In, H in Hx. rewrite andb_true_iff, Z.leb_le, Z.ltb_lt in Hx. unfold fits. lia.
  - split_and!; try by vm_compute.
Qed.
Lemma demo_ok : machine_ok demo_caps demo.
Proof.
  split; [exact demo_mmio|]. intros k' Hk. assert (E : fi_devi (clients demo) = {[k]}) by (vm_compute; reflexivity).
  rewrite E in Hk. apply elem_of_singleton in Hk as ->. exists dev0. split; [by vm_compute|exact demo_dev].
Qed.
Lemma demo_there : devs (clients demo) !! k = Some dev0.
Proof. by vm_compute. Qed.
Lemma demo_tame k' : tame dev_ops k'.
Proof. by split. Qed.
Lemma demo_linked : k ∈ fi_devi (clients demo).
Proof. by vm_compute. Qed.
Lemma demo_plugged : plugged dev_ops demo 0 2 0.
Proof. split; try done; by vm_compute. Qed.

(** ** Where the theorems apply *)

(** The guest sizes a BAR, enables messages, and disables the pin. *)
Definition write_of (coff bytes v : Z) : access := mkAccess false 0 2 0 coff bytes v.
Definition guest : list access :=
  [write_of (PCIR_BAR 1) 4 ALL_ONES; mkAccess true 0 2 0 (PCIR_BAR 1) 4 0; write_of (PCIR_BAR 1) 4 0x80000000;
   write_of 0x42 2 0x21; write_of PCIR_COMMAND 2 (Z.lor PCIM_CMD_MEMEN PCIM_CMD_INTxDIS)].

Lemma polite_write coff bytes v : 0 <= coff -> fits 32 v -> spares_pointer coff bytes -> (coff = 0x42 -> bytes = 2 -> mme_ok v = true) -> coff <> 0x40 ->
  polite demo_caps (write_of coff bytes v).
Proof.
  intros H0 Hv Hs Hm Hc. split; try done. intros _. split; [done|]. intros p Hp. cbn in Hp. apply list_elem_of_singleton in Hp as ->. intros _. split; [exact Hm|done].
Qed.
Lemma guest_polite : Forall (polite demo_caps) guest.
Proof.
  unfold guest. repeat apply Forall_cons_2; [| | | | |by apply Forall_nil_2].
  all: try (apply polite_write; try done; unfold spares_pointer; vm_compute; intuition (done || lia)). by split.
Qed.

Lemma guest_keeps_devices_witness : exists s, perform_accesses dev_ops malloc guest demo = Ret (tt, s) /\ machine_ok demo_caps s /\
  fi_devi (clients s) = fi_devi (clients demo).
Proof. exact (guest_keeps_devices dev_ops malloc demo_caps guest demo demo_tame demo_ok guest_polite). Defined.

(** The device raises its line while the pin is disabled; the guest enables the pin. *)
Definition command (v : Z) : action := Guest (write_of PCIR_COMMAND 2 v).
Definition interrupts : list action := [command PCIM_CMD_INTxDIS; Raise; Lower; Raise; command PCIM_CMD_MEMEN].
Lemma command_ok v : fits 32 v -> action_ok demo_caps k (command v).
Proof. intros Hv. split; [|done]. apply polite_write; try done. left. by vm_compute. Qed.

Lemma intx_level_witness : exists s d, act_all dev_ops malloc k interrupts demo = Ret (tt, s) /\ devs (clients s) !! k = Some d /\
  level 16 (gsis (irqs (clients s))) =
  Some (if true && negb (msi_on (d_msi d) || msix_on (d_msix d) || cbit (cfgdata d) INTxDIS_BIT) then GSI_SET_LOW else GSI_SET_HIGH).
Proof.
  refine (intx_level dev_ops malloc demo_caps k interrupts demo dev0 (demo_tame k) demo_ok demo_linked demo_there _ _ _).
  - by vm_compute.
  - by split; vm_compute.
  - repeat apply Forall_cons_2; [by apply command_ok|done|done|done|by apply command_ok|by apply Forall_nil_2].
Defined.

(** A second device, at 0:3.0. *)
Definition second := bdf 0 3 0.
Lemma second_free : second ∉ fi_devi (clients demo).
Proof. assert (E : fi_devi (clients demo) = {[k]}) by (vm_compute; reflexivity). rewrite E. by intros ?%elem_of_singleton. Qed.
Lemma pools_at (p : pci P) io m32 m64 : reserved_bar_regions p = [] -> emul_iobase p = io -> emul_membase32 p = m32 -> emul_membase64 p = m64 ->
  0 <= io <= FAR -> 0 <= m32 <= FAR -> 0 <= m64 <= FAR -> pools_ok second p.
Proof. intros E <- <- <- H1 H2 H3. split; [|done..]. rewrite E. apply Forall_nil_2. Qed.
Lemma demo_pools : pools_ok second (clients demo).
Proof. apply (pools_at _ 0x3000 0x80002000 PCI_EMUL_MEMBASE64); [vm_compute; reflexivity..|by split|by split|by split]. Qed.
(** Its initialisation is made of steps; the classes differ in nothing that they look at. *)
Lemma second_made s : vdev_init (dev_ops second) second s = run_steps dev_ops malloc second 1 (dummy_steps malloc second) s.
Proof.
  change (vdev_init (dev_ops second) second) with (pci_emul_dinit (fun _ => dummy_class) malloc second). rewrite dinit_steps. reflexivity.
Qed.

Lemma init_makes_device_witness : exists s, pci_emul_init dev_ops malloc second demo = Ret (0, s) /\
  fi_devi (clients s) = {[second]} ∪ fi_devi (clients demo) /\ bar_given second 2 PCIBAR_MEM32 DMEMSZ s /\
  exists l, map snd l = [PCIY_MSI] /\ machine_ok (with_caps demo_caps second l) s.
Proof.
  destruct (init_makes_device dev_ops malloc demo_caps second 1 (dummy_steps malloc second) demo demo_ok second_free demo_pools ltac:(done) eq_refl
    (dummy_steps_ok dev_ops malloc second) second_made) as (r & s & E & _ & H).
  assert (Er : match pci_emul_init dev_ops malloc second demo with Ret (r, _) => r = 0 | Stop _ => False end) by (vm_compute; reflexivity).
  rewrite E in Er. cbv beta iota in Er. rewrite Er in E, H. destruct H as (H1 & H2 & H3). exists s. split; [exact E|]. split; [exact H1|]. split; [|exact H3].
  apply (H2 false 2 0 PCIBAR_MEM32 DMEMSZ). unfold dummy_steps. do 7 right. by left.
Defined.

(** When its last BAR finds no memory the second device is refused and freed; its ports and its
    first page stay registered, and the next access to them uses what was freed. *)
Definition no_fourth (n : nat) : bool := negb (n =? mallocs (clients demo) + 3)%nat.
Definition refusing : Z -> vdev_ops P := fun _ => pci_dummy (fun _ => dummy_class) no_fourth.
Definition refused : machine P := match pci_emul_init refusing no_fourth second demo with Ret (_, s) => s | Stop _ => demo end.
Definition left_range : mem_range := mkRange "dummy-pci-3" MEM_F_RW fn_pci_emul_mem_handler second 1 0x80002000 DMEMSZ.
Theorem refused_stays : pci_emul_init refusing no_fourth second demo = Ret (1, refused) /\ devs (clients refused) !! second = None /\
  ranges Root refused = pages ++ [left_range] /\
  pci_emul_mem_handler refusing MEM_F_READ 0x80002000 4 0 second 1 (clients refused) = Stop UseAfterFree.
Proof. split; [vm_compute; reflexivity|]. split; [vm_compute; reflexivity|]. split; vm_compute; reflexivity. Qed.

Definition bar1 : pcibar := mkBar PCIBAR_MEM32 DMEMSZ 0x80000000 false.
Lemma sizing_roundtrip_witness : exists lo s1 v, nthZ (bar dev0) 1 = Some lo /\
  pci_cfgrw dev_ops malloc false 0 2 0 (PCIR_BAR 1) 4 ALL_ONES demo = Ret (ALL_ONES, s1) /\
  (forall eax, pci_cfgrw dev_ops malloc true 0 2 0 (PCIR_BAR 1) 4 eax s1 = Ret (v, s1)) /\ shows_size PCIBAR_MEM32 lo v /\
  pci_cfgrw dev_ops malloc false 0 2 0 (PCIR_BAR 1) 4 0x80000000 s1 = Ret (0x80000000, demo).
Proof.
  refine (sizing_roundtrip dev_ops malloc (demo_caps k) demo dev0 0 2 0 1 bar1 0x80000000 demo_plugged demo_mmio demo_there demo_dev _ _ _ _ _ _);
    [lia|by vm_compute|by right; left|done|by vm_compute|done].
Defined.

(** To 0x90000000. *)
Definition there := mem_addr bar1 0x90000000.
Definition here : mem_range := bar_range k 1 dev0 bar1.
Lemma demo_ranges mr : mr ∈ ranges Root demo -> mr = here \/ apart (bar_range k 1 dev0 (moved bar1 there)) mr = true.
Proof.
  intros Hmr. assert (E : ranges Root demo = pages) by (vm_compute; reflexivity). rewrite E in Hmr.
  apply elem_of_cons in Hmr as [-> |Hmr]; [by left|]. right. apply list_elem_of_singleton in Hmr as ->. by vm_compute.
Qed.
Lemma demo_here : here ∈ ranges Root demo.
Proof. assert (E : ranges Root demo = pages) by (vm_compute; reflexivity). rewrite E. by left. Qed.
Lemma demo_bar1 : nthZ (bar dev0) 1 = Some bar1.
Proof. by vm_compute. Qed.
Lemma demo_decodes : decodes dev0 bar1 = true.
Proof. by vm_compute. Qed.

Lemma bar_moves_witness : there = 0x90000000 /\
  exists s, pci_cfgrw dev_ops malloc false 0 2 0 (PCIR_BAR 1) 4 0x90000000 demo = Ret (0x90000000, s) /\ mmio_ok s /\
  (forall x, owner s x = if contains x (bar_range k 1 dev0 (moved bar1 there)) then Some (bar_range k 1 dev0 (moved bar1 there)) else
                         if contains x here then List.find (contains x) (ranges Fallback demo) else owner demo x) /\
  (forall x size v, size = 1 \/ size = 2 \/ size = 4 -> there <= x -> x + size <= there + DMEMSZ -> there + DMEMSZ < 2 ^ 64 ->
    pci_emul_mem_handler dev_ops MEM_F_READ x size v k 1 (clients s) =
      (v ← barread dev_ops k 1 (x - there) size; v ← lift (bar_value size v); mret (0, v)) (clients s) /\
    pci_emul_mem_handler dev_ops MEM_F_WRITE x size v k 1 (clients s) =
      (w ← lift (bar_value size v); _ ← barwrite dev_ops k 1 (x - there) size w; mret (0, v)) (clients s)).
Proof.
  split; [by vm_compute|].
  apply (bar_moves dev_ops malloc (demo_caps k) demo dev0 0 2 0 1 bar1 bar1 0x90000000 demo_plugged demo_mmio demo_there demo_dev).
  - lia.
  - exact demo_bar1.
  - by left.
  - exact demo_bar1.
  - reflexivity.
  - exact demo_decodes.
  - done.
  - done.
  - by vm_compute.
  - reflexivity.
  - reflexivity.
  - exact demo_here.
  - exact demo_ranges.
Defined.

(** ** What a guest can do that keeps no rules *)

(** With a second capability the list has places of the guest's choice: a search that is led to one
    of them does not end. *)
Definition looping : @B P unit :=
  _ ← pci_emul_add_pciecap k PCIEM_TYPE_ROOT_PORT;
  perform_accesses dev_ops malloc [write_of 0x44 4 0x4400; write_of PCIR_CAP_PTR 1 0x44; write_of 0x42 2 1].
Theorem capability_loop : looping demo = Stop OutOfFuel.
Proof. vm_compute. reflexivity. Qed.

(** The reserved number of 64 messages. *)
Theorem reserved_messages : perform_accesses dev_ops malloc [write_of 0x42 2 0x61] demo = Stop BadShift.
Proof. vm_compute. reflexivity. Qed.

(** An address that ends sizing is not registered: the old range stays, and its handler
    passes an offset before the BAR. *)
Definition size_and_move : list access := [write_of (PCIR_BAR 1) 4 ALL_ONES; write_of (PCIR_BAR 1) 4 0x90000000].
Definition stale : machine P := match perform_accesses dev_ops malloc size_and_move demo with Ret (_, s) => s | Stop _ => demo end.
(** A device that tells the offset. *)
Definition tells : vdev_ops P := mkOps "dummy" (fun _ => mret 0) None None None (fun _ _ _ _ _ => mret tt) (fun _ _ offset _ => mret (offset / 2 ^ 32)).
Theorem stale_range : (exists u, perform_accesses dev_ops malloc size_and_move demo = Ret (u, stale)) /\ ranges Root stale = pages /\
  b_addr <$> (devs (clients stale) !! k ≫= fun d => nthZ (bar d) 1) = Some 0x90000000 /\
  pci_emul_mem_handler (fun _ => tells) MEM_F_READ 0x80000000 4 0 k 1 (clients stale) = Ret ((0, 2 ^ 32 - 1), clients stale).
Proof. split; [exists tt; vm_compute; reflexivity|]. split; [vm_compute; reflexivity|]. split; vm_compute; reflexivity. Qed.
End Demo.
